(* ===== verification/_CoqProject ===== *)
-Q . S2P
Prelude.v
Errors.v
Decimal.v
Formula.v
Market.v
Trade.v
Exchange.v
Repos.v
Badger.v
BadgerCorrect.v
Feeder.v
SecureStore.v
Pubsub.v
Macaroons.v
SwapMsg.v
Wallet.v
TradeService.v
Report.v
Calendar.v
Requests.v
Operator.v
TxEvents.v
Listing.v
Handlers.v
TradeHandlers.v
Webhooks.v
AdminHandlers.v
Interface.v
TdexConnect.v
MigrationV0.v
Mapper.v
Migration.v
MigrationFiles.v
CoinSelection.v
TradeClient.v
OceanWallet.v
Explorer.v
ElementsNode.v
OnePort.v
AppConfig.v
Daemon.v
Cli.v
