(* ===== verification/Prelude.v ===== *)
(** * tdex-daemon: verification development

    tdex-daemon is a liquidity provider daemon: it keeps markets (pairs of
    Liquid assets), quotes prices for them, accepts, completes and settles atomic
    swaps against a remote wallet, and lets an operator manage the markets.  This
    library models its core in Rocq, component by component, and proves what
    makes each component correct.  Paths below are relative to the repository.

    ** Conventions

    - A Go integer is the [Z] it denotes; [u64], [u32], [i64] and [big_Uint64]
      write out every wrap-around and conversion (this file).
    - A call that can fail or panic returns [outcome error A] ([Ret], [Err],
      [Panic]); a call that changes state is an [action S error A], a state
      transformer that keeps the state reached when it fails.  Nil pointer
      dereferences, index errors and divisions by zero are [Panic]s.
    - A time.Time is a number of nanoseconds, a Unix timestamp one of seconds; the
      clock, uuids and random ids are arguments.
    - Code outside the repository is a class with the documented behaviour as its
      laws: the decimal package ([DecimalOps], [DecimalLaws] in Decimal.v, with the
      instance [Fixed]), the remote wallet ([WalletPort], [WalletLaws] in Wallet.v,
      [WalletAdmin] in Operator.v, [WalletManager] in Webhooks.v), go-elements and
      protobuf ([Elements] and the codec classes of SwapMsg.v, [TxLib] in
      TxEvents.v), badgerhold ([BadgerHold], [BadgerHoldLaws] in Badger.v),
      websockets ([WsConn] in Exchange.v), bbolt and the cipher ([Bolt], [Snacl]
      in SecureStore.v), the macaroon bakery ([Bakery] in Macaroons.v), the HTTP client and the circuit breaker ([Network] in
      Pubsub.v), hash functions (arguments), Go's map iteration order ([MapOrder],
      this file) and unstable sort ([SortSlice] in CoinSelection.v), hex, scripts and
      floats of requests ([WireLib], [FloatOf] in Requests.v and Handlers.v), the gRPC
      and TLS libraries ([IfaceEnv] in Interface.v), net/url and PEM ([ConnectLib] in
      TdexConnect.v), key derivation ([VaultLib] in MigrationV0.v), the explorer of
      the migration ([Explorer] in Migration.v), the file system ([FsEnv] in
      MigrationFiles.v), the pset updater, keys and signatures ([PsetUpdater],
      [ClientKeys], [SignerView] in TradeClient.v), the wallet daemon ([OceanRpc],
      [OceanLib], [OceanLaws] in OceanWallet.v), HTTP and the order in which goroutines
      answer ([Http], [HttpLaws], [Arrival], [ExplorerLib] in Explorer.v), an Elements
      node ([NodeRpc], [NodeLib], [Node] in ElementsNode.v), viper's conversions with
      what the daemon opens ([Cast], [World] in Daemon.v, [AppEnv] in AppConfig.v), and the
      codec and address functions of the CLI ([StateCodec], [CliLib] in Cli.v).  Every
      theorem that relies on a law of one has a witness with a concrete instance.
    - Interfaces of the repository are classes too, with the laws their clients
      rely on: [MarketRepository] with [MarketRepositoryLaws] (provided by
      the in-memory store), [PriceFeeder] with [PriceFeederLaws] (provided by the three
      exchanges), [SecureStorage] with [SecureStorageLaws] (provided by the bolt
      store), [SwapParser], the wallet's [WalletPort], [WalletAdmin], [WalletManager]
      (provided by the ocean client), the trade service as its client sees it
      ([TradeRpc], provided by the trade server).

    ** Files

    - Prelude.v: Go integers, outcomes and actions with their notation and the
      inversion tactics [act_inv], maps iterated in an unspecified order,
      sort.SliceStable, pages.
    - Errors.v: internal/core/domain/errors.go, one constructor per error value.
    - Decimal.v: the interface of shopspring/decimal, its laws over rationals and
      the fixed-point instance that shows they can hold.
    - Formula.v: pkg/marketmaking and pkg/mathutil.  Module [Mathutil] holds the
      arithmetic helpers, [Balanced] and [Pluggable] the two formulas.
    - Market.v: internal/core/domain/market.go.  The record [Market], every method
      and the relation of reachable markets.
    - Trade.v: internal/core/domain/trade.go and swap.go.  The record [Trade], the
      interface [SwapParser], every method as an action on the trade, and the
      relation of reachable trades.
    - Repos.v: the repository interfaces of internal/core/domain and
      internal/infrastructure/storage/db/inmemory (modules [InmemoryMarket],
      [InmemoryTrade], [InmemoryTxs]).  [MarketRepositoryLaws] is what a client
      may rely on; the in-memory store is shown to provide it.
    - Badger.v: internal/infrastructure/storage/db/badger, the persistent stores
      (modules [BadgerMarket], [BadgerTrade], [BadgerTxs]); BadgerCorrect.v: their
      theorems.
    - Exchange.v: pkg/price-feeder, the clients of kraken, coinbase and bitfinex as
      instances of one record [exchange].
    - Feeder.v: internal/infrastructure/price-feeder and
      internal/core/application/feeder: the stored feeds (module [FeedStore]), the
      running sources, the service, and the goroutine between the channels as a
      step relation (module [Pipe]).
    - SecureStore.v: pkg/securestore/bolt, the encrypted store of the webhooks.
    - Pubsub.v: internal/infrastructure/pubsub and the interface [SecureStorage]:
      subscriptions, topics, publishing.
    - SwapMsg.v: pkg/swap (Request, Accept, Complete, Fail) and
      internal/infrastructure/swap-parser, the implementation of [SwapParser].
    - Wallet.v: internal/core/application/wallet.  CompleteSwap, SendToMany, and the
      queues of notification handlers with the goroutine that serves them, as a
      step relation in module [Queue].
    - TradeService.v: internal/core/application/trade.  TradePreview, TradePropose,
      TradeComplete, tradeFail, the settlement handler and the start-up check over
      a state made of the two stores, the wallet, the registered handlers and the
      published events.
    - Report.v: GetMarketReport of internal/core/application/operator.
    - Operator.v: the market, fee account and fragmenter handlers of
      internal/core/application/operator and the classification of transactions.
    - TxEvents.v: the two transaction handlers of the operator service: ownership of
      inputs and outputs, recorded deposits and withdrawals, low balance alerts.
    - Webhooks.v: internal/core/application/pubsub and
      internal/core/application/unlocker.
    - Macaroons.v: pkg/macaroons, internal/interfaces/grpc/permissions and
      internal/interfaces/grpc/interceptor: the root keys, the macaroons of the
      operator's tools, the permissions of each method and the check of a call.
    - Calendar.v: dates of the standard library and timeRangeToDates of the operator.
    - Requests.v: the parsers of internal/interfaces/grpc/handler/utils.go.
    - Listing.v: the queries of the operator service and the values they show.
    - Handlers.v, TradeHandlers.v, AdminHandlers.v: internal/interfaces/grpc/handler:
      the operator server, the trade server, and the wallet, webhook, feeder and health
      servers, with the conversions of types.go and the recovery interceptor.
    - Interface.v: internal/interfaces/grpc: options, the two servers, their routing,
      the callbacks that start and stop them, the macaroon files; the daemon as a
      step relation of requests and callbacks.
    - OnePort.v: the interface when both ports are the same (service_one_port.go).
    - AppConfig.v: internal/core/application/config.go, the services made on demand and
      shared; Daemon.v: internal/config and cmd/tdexd, from the environment variables to
      a daemon that serves.
    - Cli.v: cmd/tdex, the operator's command line: its state file, the connection it
      dials and the request of every command.
    - TdexConnect.v: pkg/tdexdconnect and the connect endpoint.
    - MigrationV0.v: cmd/migration/v0-v1/v0-domain and v0-webhook, what the old daemon
      stored (module [V0]).
    - Mapper.v: cmd/migration/v0-v1/mapper and v1-domain (module [V1]).
    - Migration.v: the databases of cmd/migration/v0-v1/service.go; MigrationFiles.v: its
      files, from the flags to the removal of the old datadir.
    - TradeClient.v: pkg/trade, the library of a trader: previews, orders, the
      transaction of a proposal and its signatures, with the daemon of this development
      ([daemon_rpc]) on the other side.
    - OceanWallet.v: internal/infrastructure/ocean-wallet, the client of the wallet
      daemon, as instances of the wallet classes; the goroutines that listen to its
      notifications, with the queue of handlers, in module [Listener].
    - Explorer.v: pkg/explorer/esplora, the client of an Esplora server, with the
      goroutines that ask for the coins one by one ([fan_in]); ElementsNode.v:
      pkg/explorer/elements, the RPC client of an Elements node.
    - CoinSelection.v: pkg/explorer/coinselection.go.

    The components use each other as the code does: the market quotes through a
    formula, the trade serialises messages through the swap parser, the trade
    service drives market, trade, wallet and stores, the operator changes
    markets only through the repository interface, the feeder service moves prices
    from the exchanges to the market store, the events of the operator become
    requests to the webhooks, and the unlocker opens the webhooks with the wallet.
    The handlers put the services behind the wire, the interface decides which of them
    are served and starts the callbacks of the wallet handlers, and the migration builds
    the stores of the new daemon out of those of the old one.

    ** What the theorems show

    - Formulas: the balanced formula computes the constant product quote, rounded
      to the division precision, or the error its guards prescribe
      (out_given_in_correct, in_given_out_correct); it is monotone and the product
      of the reserves shrinks at most by the rounding (reserve_product_bound); the
      pluggable formula multiplies or divides by the price (pluggable_correct).
    - Markets: every market the methods can build has valid assets, precisions and
      fees, and a pluggable one is open only with a price (reachable_market_wf); a
      preview never promises the whole reserve (preview_within_reserve), is the
      constant product quote up to rounding (preview_balanced_accurate), with fees
      in closed form (preview_fees_closed_form); prices of balanced markets
      (balanced_price_correct).  Previews wrap at 64 bits and skewed reserves panic.
    - Trades: the messages, timestamps and transaction of a trade are those its
      status requires (reachable_trade_wf); the status only moves forward, settled
      and expired being final (status_moves_forward); settlement only from live
      trades, completion only before expiry.
    - Trade service: what an accepted proposal has checked, stored and registered
      (accepted_proposal); only transactions of completed trades are broadcast
      (broadcast_only_completed); what the settlement handler does for each event
      (handler_outcomes); the price check (price_check_bounds).
    - Wallet: the transactions of CompleteSwap and SendToMany balance inputs,
      outputs and fees per asset; no handler is lost or served twice
      (handlers_never_lost) and every handler that is waiting is served by the next
      notification (round_serves_everyone).
    - Swap messages: a request states exactly the amounts of its transaction,
      messages survive the wire.
    - Stores: the in-memory store implements the repository contract
      (inmemory_market_lawful), through which the operator's changes are what is read
      back (change_market_correct); the badger store implements a map from names to
      markets with the prices apart (badger_market_refines); but for prices and the
      lookup by assets the two give the same answers (market_stores_agree); trades, deposits, withdrawals and pages of
      both; the retry loop of UpdateTrade ends after as many rounds as there are
      conflicts (update_trade_ends).
    - Price feeds: an exchange client only delivers prices of markets it is
      subscribed to, with the last price seen (exchange_feeds_correct), and reads
      the price out of each exchange's messages (ticker_messages_parsed); the
      feeder's stored feeds, connections and channels agree (feeder_reachable_ok,
      start_stop_correct) and the goroutine delivers prices in order, none lost or
      repeated (prices_in_order).
    - Webhooks: the encrypted store is a map of plain values
      (secure_store_refines) that its password protects (password_protects,
      change_password_correct); the subscriptions are a map from IDs
      (pubsub_refines), publishing notifies exactly the subscribers
      (publish_reaches_subscribers), the operator's events reach the webhooks that
      ask for them (events_reach_webhooks), and the wallet's password opens them
      (unlocker_correct).
    - Access control: every method of the interface has the permissions the tables
      give it or is open (permissions_correct), a call passes the interceptor only
      with a macaroon of the daemon that holds them (access_control), root keys are
      created once and kept (root_keys_refine).
    - Handlers: requests are validated before anything is done (requests_validated), the
      trade interface changes only what its methods are for (trade_interface_effects)
      and quotes only what the market can pay (quotes_covered), what is created is what
      is shown (created_market_shown), webhooks through the wire (webhook_interface).
    - Interface: the other services answer only after an unlock the wallet accepted, all
      or none (served_only_after_unlock); what each callback leaves
      (interface_follows_wallet); the macaroon files (macaroons_written); the connect
      endpoint gives the macaroon only for the password (macaroon_needs_password).
    - One port: the same services at the same times as on two ports (ports_agree), and only
      after an unlock (one_port_after_unlock).
    - Daemon: there is one of each application service, with one set of goroutines and
      handlers, however often it is asked for and whatever fails (services_shared); what
      a daemon that comes up has accepted and serves (daemon_serves); that it comes up
      when it has what it needs (daemon_starts).
    - Command line: after connect with the daemon's URL every command dials that daemon with
      its certificate and macaroon (cli_connected); every command calls a method that is
      open, or that the macaroon it sends opens (commands_pass); a withdrawal asks for what
      was given (withdraws_as_asked), a report for the period chosen (report_period).
    - Migration: derivation paths print and parse back (path_reads_back); every deposit
      is counted once (deposits_conserved), transactions are those of the trades,
      deposits and withdrawals (transactions_complete), accounts keep their addresses
      (accounts_kept), the fee of a trade (migrated_fee); utxos get the status of the
      explorer whatever the order of the loops (utxos_refreshed); the new stores are
      those of a plan that does not mention the steps (migration_follows_plan,
      webhooks_migrated); a failure before the old datadir is removed keeps it
      (failed_migration_keeps), otherwise the new datadirs and the archive are in place
      (migration_installs).
    - Trade client: what a preview says is what the daemon quotes, on the right side
      (client_preview_correct); a proposal is funded by the selected coins and pays what
      was previewed (order_request_exact); only the trader's own inputs are signed
      (own_inputs_signed); the daemon refuses every order of the library
      (client_orders_refused).
    - Wallet client: it provides the laws the services rely on
      (ocean_wallet_laws, ocean_admin_laws), so that a completed swap balances in the
      requests themselves (ocean_swap); the seed is kept (seed_kept); which notifications
      reach the handlers (notifications_served); one account is created
      (one_account_created).
    - Explorers: the coins of an address are those listed for it, once each, complete
      and unblinded, whatever the order of the goroutines (esplora_unspents,
      elements_unspents); a node learns an address once, with its own key, when coins are
      asked for, and again at every query of its transactions (address_imported_again).
    - Report periods are the calendar's (report_periods).
    - Reports: sub-ranges partition the range (split_time_range_partitions) and
      total volumes are exactly the sum of the completed trades of the range
      (report_volume_exact).
    - Fragments and transactions: the fee fragmenter sends its balance
      (fee_split_sends_balance), withdrawals need the password, the inputs and
      outputs of a transaction are classified as a reference definition does
      (tx_info_correct), deposits and withdrawals are recorded once
      (transactions_recorded), alerts (low_balance_alerts).
    - Coin selection is sound and complete (selection_sound, selection_complete).

    ** Fuel and bounds

    [splitTimeRange] takes fuel: its loop ends after one round per frame of
    the range, split_time_range_partitions gives the number of rounds that is
    enough, and negative_frame_diverges shows that for negative frames none is.
    [updateTrade_loop] takes one round more than there are conflicts
    (update_trade_ends).  Every other recursion is structural.  The 64-bit bounds
    of hypotheses are those under which the code's own arithmetic does not wrap;
    what happens beyond them is stated where the code lets it happen.

    ** Not modelled

    pkg/swap/swap.go's ValidateCompletePset (unused), logging, opening and closing of files and connections,
    what the CLI prints, printing of statistics, generation of the TLS key pair and the
    HTML page of the connect endpoint.
    Concurrency is modelled where the code relies on it (the notification queues,
    the price channels, the goroutines of Publish and of ChangePassword); the locks
    of the stores make their operations atomic, which is how they are modelled. *)

From Stdlib Require Import ZArith Lia.
From stdpp Require Import base tactics option list list_numbers gmap strings sorting.

(** * Go integers

    A Go integer of width w is the [Z] it denotes; the operations below are
    the wrap-around the language prescribes for unsigned arithmetic and for
    conversions between widths. *)

Declare Scope go_scope.
Delimit Scope go_scope with go.

Definition u64 (z : Z) : Z := z mod 2 ^ 64.
Definition u32 (z : Z) : Z := z mod 2 ^ 32.
(** [int64(x)]: two's complement reading of the low 64 bits. *)
Definition i64 (z : Z) : Z := (z + 2 ^ 63) mod 2 ^ 64 - 2 ^ 63.

Notation "a +u b" := (u64 (a + b)) (at level 50, left associativity) : go_scope.
Notation "a -u b" := (u64 (a - b)) (at level 50, left associativity) : go_scope.
Notation "a *u b" := (u64 (a * b)) (at level 40, left associativity) : go_scope.

Definition is_u64 (z : Z) : Prop := (0 ≤ z < 2 ^ 64)%Z.
Definition is_i64 (z : Z) : Prop := (- 2 ^ 63 ≤ z < 2 ^ 63)%Z.

(** [(x *big.Int).Uint64()] and [.Int64()]: the low 64 bits of the magnitude,
    negated for [Int64] of a negative number. *)
Definition big_Uint64 (z : Z) : Z := u64 (Z.abs z).
Definition big_Int64 (z : Z) : Z :=
  if (z <? 0)%Z then i64 (- i64 (u64 (Z.abs z))) else i64 (u64 (Z.abs z)).

Create HintDb go.

Section integers.
Local Open Scope Z_scope.

Lemma u64_range z : is_u64 (u64 z).
Proof. apply Z.mod_pos_bound. lia. Qed.

Lemma u64_id z : is_u64 z → u64 z = z.
Proof. apply Z.mod_small. Qed.

Lemma i64_id z : is_i64 z → i64 z = z.
Proof. intros [? ?]. unfold i64. rewrite Z.mod_small; lia. Qed.

Lemma i64_u64 z : 0 ≤ z < 2 ^ 63 → i64 z = z.
Proof. intros. apply i64_id. unfold is_i64. lia. Qed.

Lemma i64_range z : is_i64 (i64 z).
Proof.
  unfold is_i64, i64.
  pose proof (Z.mod_pos_bound (z + 2 ^ 63) (2 ^ 64)). lia.
Qed.

Lemma i64_nonneg_u64 z : is_u64 z → 0 ≤ i64 z → i64 z = z.
Proof.
  intros Hz Hnn. apply i64_id. split; [unfold is_u64 in *; lia|].
  destruct (decide (z < 2 ^ 63)) as [|Hge]; [done|]. exfalso.
  revert Hnn. unfold i64.
  rewrite <- (Z_mod_plus_full _ (-1)), Z.mod_small; unfold is_u64 in *; lia.
Qed.

Lemma big_Uint64_id z : is_u64 z → big_Uint64 z = z.
Proof.
  intros Hz. unfold big_Uint64. rewrite Z.abs_eq by (destruct Hz; lia).
  by apply u64_id.
Qed.

(** A wrapped sum or product is exact when it fits. *)
Lemma u64_add_exact a b : 0 ≤ a → 0 ≤ b → a + b < 2 ^ 64 → u64 (a + b) = a + b.
Proof. intros. apply u64_id. unfold is_u64. lia. Qed.

Lemma u64_sub_exact a b : 0 ≤ b ≤ a → a < 2 ^ 64 → u64 (a - b) = a - b.
Proof. intros. apply u64_id. unfold is_u64. lia. Qed.
Lemma u64_add_l a b : u64 (u64 a + b) = u64 (a + b).
Proof. apply Zplus_mod_idemp_l. Qed.
Lemma u64_sub_l a b : u64 (u64 a - b) = u64 (a - b).
Proof. apply Zminus_mod_idemp_l. Qed.

(** Equality of amounts as Go's uint64 sees it. *)
Definition eq64 (x y : Z) : Prop := u64 x = u64 y.
#[global] Instance eq64_equiv : Equivalence eq64.
Proof. unfold eq64. split; [done | by intros x y -> | by intros x y z -> ->]. Qed.
#[global] Instance eq64_add : Proper (eq64 ==> eq64 ==> eq64) Z.add.
Proof.
  intros a b E c d F. unfold eq64, u64 in *.
  by rewrite (Zplus_mod a), (Zplus_mod b), E, F.
Qed.
Lemma eq64_sub a b c d : eq64 a b → eq64 c d → eq64 (a - c) (b - d).
Proof.
  intros E F. unfold eq64, u64 in *.
  by rewrite (Zminus_mod a), (Zminus_mod b), E, F.
Qed.
Lemma eq64_u64 x : eq64 (u64 x) x.
Proof. apply Zmod_mod. Qed.
End integers.

#[export] Hint Resolve u64_range i64_range u64_id i64_id : go.

(** * Errors, panics and the state monad of the handlers

    A Go call either returns, returns a non-nil error, or panics.  Panics are
    kept apart from errors because the code recovers from them only in the
    listeners of the exchanges (Exchange.v) and around gRPC calls (Handlers.v). *)

Inductive panic :=
  | NilDereference       (* nil pointer or nil interface method call *)
  | DivisionByZero       (* decimal division by 0 *)
  | IndexOutOfRange      (* slice index *)
  | BadSliceCapacity     (* make with a negative capacity *)
  | TypeAssertion        (* x.(T) of another type, without the second result *)
  | ClosedChannel        (* send on a closed channel *)
  | LogFatal             (* log.Fatal, which exits the process *)
  | NotFinite            (* decimal.NewFromFloat of NaN or an infinity *)
  | BadTicker.           (* time.NewTicker of an interval that is not positive *)

Inductive outcome (E A : Type) :=
  | Ret (a : A)
  | Err (e : E)
  | Panic (p : panic).
Arguments Ret {E A} a.
Arguments Err {E A} e.
Arguments Panic {E A} p.

#[global] Instance outcome_ret {E} : MRet (outcome E) := λ A a, Ret a.
#[global] Instance outcome_bind {E} : MBind (outcome E) := λ A B f m,
  match m with Ret a => f a | Err e => Err e | Panic p => Panic p end.
#[global] Instance outcome_fmap {E} : FMap (outcome E) := λ A B f m,
  match m with Ret a => Ret (f a) | Err e => Err e | Panic p => Panic p end.

(** Reading through a nil-able pointer. *)
Definition deref {E A} (o : option A) : outcome E A :=
  match o with Some a => Ret a | None => Panic NilDereference end.

(** [l[i]] on a slice. *)
Definition index {E A} (l : list A) (i : nat) : outcome E A :=
  match l !! i with Some a => Ret a | None => Panic IndexOutOfRange end.

(** The value of a call whose error is discarded ([x, _ := f()]): nil on error. *)
Definition ignore_err {E A} (m : outcome E A) : outcome E (option A) :=
  match m with Ret a => Ret (Some a) | Err _ => Ret None | Panic p => Panic p end.

Lemma bind_Ret_inv {E A B} (m : outcome E A) (f : A → outcome E B) b :
  m ≫= f = Ret b ↔ ∃ a, m = Ret a ∧ f a = Ret b.
Proof. destruct m; cbn; naive_solver. Qed.

Lemma deref_Ret {E A} (o : option A) a : @deref E A o = Ret a ↔ o = Some a.
Proof. destruct o; cbn; naive_solver. Qed.

Lemma index_Ret {E A} (l : list A) i a : @index E A l i = Ret a ↔ l !! i = Some a.
Proof. unfold index. destruct (l !! i); naive_solver. Qed.

(** Stateful code: the state survives an error or a panic, as a mutated Go
    object does. *)
Definition action (S E A : Type) : Type := S → S * outcome E A.

#[global] Instance action_ret {S E} : MRet (action S E) := λ A a s, (s, Ret a).
#[global] Instance action_bind {S E} : MBind (action S E) := λ A B f m s,
  match m s with
  | (s', Ret a) => f a s'
  | (s', Err e) => (s', Err e)
  | (s', Panic p) => (s', Panic p)
  end.

Definition lift {S E A} (m : outcome E A) : action S E A := λ s, (s, m).
Definition get_state {S E} : action S E S := λ s, (s, Ret s).
Definition put_state {S E} (s : S) : action S E () := λ _, (s, Ret ()).
(** Turns the result of a call into a value the caller inspects. *)
Definition try {S E A} (m : action S E A) : action S E (A + E) := λ s,
  match m s with
  | (s', Ret a) => (s', Ret (inl a))
  | (s', Err e) => (s', Ret (inr e))
  | (s', Panic p) => (s', Panic p)
  end.

(** Runs that return come from runs that return. *)
Lemma action_bind_Ret {S E A B} (m : action S E A) (f : A → action S E B) s s' b :
  mbind (M := action S E) f m s = (s', Ret b) ↔
  ∃ s1 a, m s = (s1, Ret a) ∧ f a s1 = (s', Ret b).
Proof. unfold mbind, action_bind. destruct (m s) as [s1 [a|e|p]]; naive_solver. Qed.

Lemma action_ret_Ret {S E A} (a b : A) (s s' : S) :
  mret (M := action S E) a s = (s', Ret b) ↔ s' = s ∧ b = a.
Proof. unfold mret, action_ret. naive_solver. Qed.

Lemma lift_Ret {S E A} (m : outcome E A) (s s' : S) a : lift m s = (s', Ret a) ↔ s' = s ∧ m = Ret a.
Proof. unfold lift. naive_solver. Qed.

(** * Tactics *)

(** Decomposes a run of an action that returned. *)
Ltac act_inv H :=
  repeat match type of H with
    | mbind _ _ _ = (_, Ret _) => apply action_bind_Ret in H as (? & ? & ? & H)
    | mret _ _ = (_, Ret _) => apply action_ret_Ret in H as [? ?]
    | lift _ _ = (_, Ret _) => apply lift_Ret in H as [? ?]
    | (let '(_, _) := ?x in _) _ = _ => destruct x
    | (let _ := _ in _) = _ => cbv zeta in H
    | (if ?b then _ else _) _ = _ => destruct b eqn:?
    end;
  repeat match goal with
    | L : lift _ _ = (_, Ret _) |- _ => apply lift_Ret in L as [? ?]
    | L : mret _ _ = (_, Ret _) |- _ => apply action_ret_Ret in L as [? ?]
    end; simplify_eq/=.

(** Splits every [match]/[if] of the context, solving impossible branches. *)
Ltac go_cases :=
  repeat (progress (simplify_eq/=) || case_match || case_bool_decide); simplify_eq/=.

(** Unfolds monadic binds of hypothesis [H]. *)
Ltac go_inv H :=
  repeat match type of H with
    | mbind _ _ = Ret _ => apply bind_Ret_inv in H as (? & ? & H)
    | (if ?b then _ else _) = _ => destruct b eqn:?; simplify_eq/=
    | match ?x with _ => _ end = _ => destruct x eqn:?; simplify_eq/=
    end; simplify_eq/=.

(** Boolean comparisons of [Z] as propositions, everywhere. *)
Ltac zify_bool :=
  repeat match goal with
    | H : (_ && _) = true |- _ => apply andb_true_iff in H as [? ?]
    | H : (_ || _) = false |- _ => apply orb_false_iff in H as [? ?]
    | H : negb _ = true |- _ => apply negb_true_iff in H
    | H : negb _ = false |- _ => apply negb_false_iff in H
    | H : (_ <? _)%Z = true |- _ => apply Z.ltb_lt in H
    | H : (_ <? _)%Z = false |- _ => apply Z.ltb_ge in H
    | H : (_ <=? _)%Z = true |- _ => apply Z.leb_le in H
    | H : (_ <=? _)%Z = false |- _ => apply Z.leb_gt in H
    | H : (_ =? _)%Z = true |- _ => apply Z.eqb_eq in H
    | H : (_ =? _)%Z = false |- _ => apply Z.eqb_neq in H
    end.

(** * Go maps: iteration order

    The order in which a Go program ranges over a map is unspecified and may
    differ between two loops; a loop over a map takes it from this class. *)

Class MapOrder := {
  range_order {A : Type} : list A → list A;
  range_order_perm {A} (l : list A) : range_order l ≡ₚ l;
}.

(** [for _, v := range m] and [for k, v := range m]. *)
Definition range_items `{MapOrder} {V} (m : gmap string V) : list (string * V) :=
  range_order (map_to_list m).
Definition range_values `{MapOrder} {V} (m : gmap string V) : list V := (range_items m).*2.

Lemma range_values_elem `{MapOrder} {V} (m : gmap string V) v :
  v ∈ range_values m ↔ ∃ k, m !! k = Some v.
Proof.
  unfold range_values, range_items. rewrite range_order_perm, list_elem_of_fmap. split.
  - intros ([k w] & -> & Hin). exists k. by apply elem_of_map_to_list in Hin.
  - intros [k Hk]. exists (k, v). split; [done|]. by apply elem_of_map_to_list.
Qed.

Lemma range_values_length `{MapOrder} {V} (m : gmap string V) : length (range_values m) = size m.
Proof.
  unfold range_values, range_items. by rewrite length_fmap, range_order_perm, length_map_to_list.
Qed.

(** The sum of what a list of key-value pairs holds for a key; on the pairs of a
    map, whatever their order, it is the value of the key. *)
Definition lsum (k : string) (l : list (string * Z)) : Z :=
  foldr (λ kv s, (if bool_decide (kv.1 = k) then kv.2 else 0) + s)%Z 0%Z l.

#[global] Arguments lsum : simpl never.
Lemma lsum_nil k : lsum k [] = 0%Z.
Proof. done. Qed.
Lemma lsum_cons k kv l :
  lsum k (kv :: l) = ((if bool_decide (kv.1 = k) then kv.2 else 0) + lsum k l)%Z.
Proof. done. Qed.

Lemma lsum_perm k l l' : l ≡ₚ l' → lsum k l = lsum k l'.
Proof. induction 1; rewrite ?lsum_cons in *; lia. Qed.

Lemma lsum_map k (m : gmap string Z) : lsum k (map_to_list m) = default 0%Z (m !! k).
Proof.
  induction m as [|i x m Hi IH] using map_ind; [by rewrite map_to_list_empty|].
  rewrite (lsum_perm _ _ _ (map_to_list_insert m i x Hi)), lsum_cons, IH; cbn.
  case_bool_decide; subst; [by rewrite lookup_insert_eq, Hi; cbn; lia | by rewrite lookup_insert_ne].
Qed.

Lemma lsum_range `{MapOrder} k (m : gmap string Z) : lsum k (range_items m) = default 0%Z (m !! k).
Proof. unfold range_items. by rewrite (lsum_perm _ _ _ (range_order_perm _)), lsum_map. Qed.

Lemma range_items_keys `{MapOrder} {V} (m : gmap string V) : NoDup (range_items m).*1.
Proof. unfold range_items. rewrite range_order_perm. apply NoDup_fst_map_to_list. Qed.

(** The order used by concrete examples. *)
#[global] Instance insertion_order : MapOrder | 100 :=
  {| range_order A l := l; range_order_perm A l := Permutation_refl l |}.

(** * sort.SliceStable, descending by an integer key *)

Section sorting.
Context {A : Type} (key : A → Z).

Fixpoint insert_desc (x : A) (l : list A) : list A :=
  match l with
  | [] => [x]
  | y :: r => if (key y <=? key x)%Z then x :: y :: r else y :: insert_desc x r
  end.
Definition sort_desc (l : list A) : list A := foldr insert_desc [] l.

Lemma insert_desc_perm x l : insert_desc x l ≡ₚ x :: l.
Proof.
  induction l as [|y r IH]; cbn; [done|]. destruct (_ <=? _)%Z; [done|].
  rewrite IH. apply Permutation_swap.
Qed.

Lemma sort_desc_perm l : sort_desc l ≡ₚ l.
Proof. induction l as [|x l IH]; cbn; [done|]. by rewrite insert_desc_perm, IH. Qed.

Definition desc (x y : A) : Prop := (key y ≤ key x)%Z.

Lemma insert_desc_sorted x l : StronglySorted desc l → StronglySorted desc (insert_desc x l).
Proof.
  induction 1 as [|y r Hr IH Hy]; cbn; [repeat constructor|].
  destruct (Z.leb_spec (key y) (key x)) as [Hle|Hgt].
  - constructor; [by constructor|]. constructor; [done|].
    eapply Forall_impl; [done|]. unfold desc. lia.
  - constructor; [done|]. rewrite insert_desc_perm. constructor; [unfold desc; lia | done].
Qed.

Lemma sort_desc_sorted l : StronglySorted desc (sort_desc l).
Proof. induction l; cbn; [constructor | by apply insert_desc_sorted]. Qed.

(** Elements with the same key keep their order. *)
Lemma insert_desc_filter k x l :
  StronglySorted desc l →
  filter (λ y, key y = k) (insert_desc x l) = filter (λ y, key y = k) (x :: l).
Proof.
  induction 1 as [|y r Hr IH Hy]; cbn; [done|].
  destruct (Z.leb_spec (key y) (key x)) as [|Hgt]; [done|].
  rewrite !filter_cons, IH, filter_cons. repeat case_decide; simplify_eq; done || lia.
Qed.

Lemma sort_desc_stable k l :
  filter (λ y, key y = k) (sort_desc l) = filter (λ y, key y = k) l.
Proof.
  induction l as [|x l IH]; [done|].
  change (sort_desc (x :: l)) with (insert_desc x (sort_desc l)).
  rewrite insert_desc_filter, !filter_cons, IH by apply sort_desc_sorted. done.
Qed.
End sorting.

(** * Pages of a list *)

Record Page := { page_Number : Z; page_Size : Z }.

(** The loop every repository ends with: the elements whose index is in
    [startIndex, endIndex), both computed in int64. *)
Definition startIndex (p : Page) : Z := i64 (i64 (page_Number p * page_Size p) - page_Size p).
Definition endIndex (p : Page) : Z := i64 (page_Number p * page_Size p).

Definition page_window {A} (p : Page) (l : list A) : list A :=
  (filter (λ ix : nat * A, startIndex p ≤ Z.of_nat ix.1 < endIndex p)%Z (imap pair l)).*2.

(** [make([]T, 0, page.GetSize())] panics on a negative capacity. *)
Definition paginate {E A} (page : option Page) (l : list A) : outcome E (list A) :=
  match page with
  | None => Ret l
  | Some p => if (page_Size p <? 0)%Z then Panic BadSliceCapacity else Ret (page_window p l)
  end.

Lemma window_take_drop {A} (i j : Z) (l : list A) (k : nat) :
  (filter (λ ix : nat * A, i ≤ Z.of_nat ix.1 < j)%Z (imap (λ n x, (k + n, x)) l)).*2
  = take (Z.to_nat (j - Z.max i (Z.of_nat k))) (drop (Z.to_nat (i - Z.of_nat k)) l).
Proof.
  revert k. induction l as [|x l IH]; intros k.
  { by rewrite drop_nil, take_nil. }
  rewrite imap_cons, filter_cons. cbn [fst].
  rewrite (imap_ext _ (λ n x, (S k + n, x)) l) by (intros; cbn; f_equal; lia).
  case_decide as Hd; cbn [fmap list_fmap snd]; rewrite IH.
  - replace (Z.to_nat (i - Z.of_nat k)) with 0 by lia.
    replace (Z.to_nat (j - Z.max i (Z.of_nat k)))
      with (S (Z.to_nat (j - Z.max i (Z.of_nat (S k))))) by lia.
    by replace (Z.to_nat (i - Z.of_nat (S k))) with 0 by lia.
  - destruct (decide (Z.of_nat k < i)%Z).
    + replace (Z.to_nat (i - Z.of_nat k)) with (S (Z.to_nat (i - Z.of_nat (S k)))) by lia.
      by replace (Z.max i (Z.of_nat (S k))) with (Z.max i (Z.of_nat k)) by lia.
    + replace (Z.to_nat (j - Z.max i (Z.of_nat k))) with 0 by lia.
      by replace (Z.to_nat (j - Z.max i (Z.of_nat (S k)))) with 0 by lia.
Qed.

(** A page, when its bounds fit an int64, is the slice one expects. *)
Lemma page_window_slice {A} (n s : Z) (l : list A) :
  (1 ≤ n)%Z → (0 ≤ s)%Z → (n * s < 2 ^ 63)%Z →
  page_window {| page_Number := n; page_Size := s |} l
  = take (Z.to_nat s) (drop (Z.to_nat ((n - 1) * s)) l).
Proof.
  intros Hn Hs Hlt. unfold page_window, startIndex, endIndex; cbn.
  rewrite (i64_id (n * s)) by (unfold is_i64; nia).
  rewrite i64_id by (unfold is_i64; nia).
  replace (imap pair l) with (imap (λ i x, (0 + i, x)) l) by (apply imap_ext; done).
  rewrite window_take_drop. replace (n * s - s)%Z with ((n - 1) * s)%Z by lia.
  rewrite Z.max_l by nia. rewrite Z.sub_0_r.
  by replace (n * s - (n - 1) * s)%Z with s by lia.
Qed.

(** Consecutive pages put together are a prefix of the list. *)
Lemma pages_prefix {A} (k : nat) (s : Z) (l : list A) :
  (0 ≤ s)%Z → (Z.of_nat k * s < 2 ^ 63)%Z →
  concat ((λ i, page_window {| page_Number := Z.of_nat (S i); page_Size := s |} l) <$> seq 0 k)
  = take (k * Z.to_nat s) l.
Proof.
  intros Hs. induction k as [|k IH]; intros Hk; [done|].
  rewrite seq_S, fmap_app, concat_app, IH by nia. cbn [fmap list_fmap concat]. rewrite app_nil_r.
  rewrite page_window_slice by nia. cbn [Nat.add].
  replace (Z.to_nat ((Z.of_nat (S k) - 1) * s)) with (k * Z.to_nat s) by nia.
  rewrite take_take_drop. f_equal. lia.
Qed.
