(* ===== verification/Errors.v ===== *)
(** The error values the modelled packages return.

    A package-level error variable is a constructor of [error]; an error made
    in place with fmt.Errorf or errors.New is [Errorf] of its format string
    (the formatted arguments are not kept). *)

From stdpp Require Import base strings.

Inductive error :=
  (* internal/core/domain/errors.go, market *)
  | ErrMarketInvalidPercentageFee
  | ErrMarketIsClosed
  | ErrMarketIsOpen
  | ErrMarketNotPriced
  | ErrMarketInvalidBasePrice
  | ErrMarketInvalidQuotePrice
  | ErrMarketInvalidBaseAsset
  | ErrMarketInvalidQuoteAsset
  | ErrMarketInvalidBaseAssetPrecision
  | ErrMarketInvalidQuoteAssetPrecision
  | ErrMarketInvalidFixedFee
  | ErrMarketPreviewAmountTooLow
  | ErrMarketPreviewAmountTooBig
  | ErrMarketUnknownStrategy
  (* internal/core/domain/errors.go, trade *)
  | ErrTradeUnknownType
  | ErrTradeMustBeProposal
  | ErrTradeMustBeAccepted
  | ErrTradeMustBeCompletedOrAccepted
  | ErrTradeInvalidExpiryTime
  | ErrTradeExpiryTimeNotReached
  | ErrTradeExpired
  | ErrTradeNullExpiryTime
  (* pkg/marketmaking/formula *)
  | ErrInvalidBalancedReservesOptsType
  | ErrInvalidPluggableOptsType
  | ErrAmountTooLow
  | ErrAmountTooBig
  | ErrBalanceTooLow
  (* internal/core/application/trade *)
  | ErrServiceUnavailable
  | ErrMarketUnavailable
  (* badgerhold and badger, compared by identity *)
  | ErrKeyExists
  | ErrNotFound
  | ErrConflict
  (* fmt.Errorf, errors.New *)
  | Errorf (format : string).

#[global] Instance error_eq_dec : EqDecision error.
Proof. solve_decision. Defined.
