(* ===== verification/Decimal.v ===== *)
(** The decimal numbers the daemon prices with.

    The code calculates with github.com/shopspring/decimal, which is not part
    of the repository: it is the parameter [DecimalOps], and [DecimalLaws]
    states what its documentation promises, against the rational number
    [dval d] a decimal denotes (its "value * 10^exp").  [Fixed] is a concrete
    arbitrary-precision decimal that satisfies the laws, used by every witness. *)

From Stdlib Require Import ZArith Lia QArith Qabs Qround Qpower Lqa Ascii String DecimalString DecimalZ.
From stdpp Require Import base tactics strings.
From S2P Require Import Prelude.

(** * Rounding of rationals *)

Section rounding.
Local Open Scope Q_scope.

Definition ten (n : nat) : Q := inject_Z (10 ^ Z.of_nat n).

(** Nearest integer, ties away from zero; integer part towards zero. *)
Definition Zround (q : Q) : Z :=
  if Qle_bool 0 q then Qfloor (q + (1 # 2)) else (- Qfloor (- q + (1 # 2)))%Z.
Definition Ztrunc (q : Q) : Z :=
  if Qle_bool 0 q then Qfloor q else (- Qfloor (- q))%Z.

Definition round_at (n : nat) (q : Q) : Q := inject_Z (Zround (q * ten n)) / ten n.
Definition trunc_at (n : nat) (q : Q) : Q := inject_Z (Ztrunc (q * ten n)) / ten n.

Lemma ten_pos n : 0 < ten n.
Proof.
  unfold ten. change 0 with (inject_Z 0). rewrite <- Zlt_Qlt. lia.
Qed.

Lemma Qle_bool_false a b : Qle_bool a b = false ↔ b < a.
Proof. rewrite <- not_true_iff_false, Qle_bool_iff. split; apply Qnot_le_lt || apply Qlt_not_le. Qed.

Lemma Zround_bounds q : inject_Z (Zround q) - (1 # 2) <= q <= inject_Z (Zround q) + (1 # 2).
Proof.
  unfold Zround. destruct (Qle_bool 0 q) eqn:E.
  - pose proof (Qfloor_le (q + (1 # 2))). pose proof (Qlt_floor (q + (1 # 2))).
    rewrite inject_Z_plus in *. change (inject_Z 1) with 1 in *. lra.
  - pose proof (Qfloor_le (- q + (1 # 2))). pose proof (Qlt_floor (- q + (1 # 2))).
    rewrite inject_Z_plus, inject_Z_opp in *. change (inject_Z 1) with 1 in *. lra.
Qed.

Lemma Zround_le p q : p <= q → (Zround p <= Zround q)%Z.
Proof.
  intros Hpq. unfold Zround.
  destruct (Qle_bool 0 p) eqn:Ep; destruct (Qle_bool 0 q) eqn:Eq.
  - apply Qfloor_resp_le. lra.
  - apply Qle_bool_iff in Ep. apply Qle_bool_false in Eq. lra.
  - apply Qle_bool_iff in Eq. apply Qle_bool_false in Ep.
    assert (0 <= Qfloor (q + (1 # 2)))%Z.
    { change 0%Z with (Qfloor 0). apply Qfloor_resp_le. lra. }
    assert (0 <= Qfloor (- p + (1 # 2)))%Z.
    { change 0%Z with (Qfloor 0). apply Qfloor_resp_le. lra. }
    lia.
  - assert (Qfloor (- q + (1 # 2)) <= Qfloor (- p + (1 # 2)))%Z; [|lia].
    apply Qfloor_resp_le. lra.
Qed.

#[global] Instance Zround_proper : Proper (Qeq ==> eq) Zround.
Proof. intros p q E. apply Z.le_antisymm; apply Zround_le; lra. Qed.

Lemma Zround_Z z : Zround (inject_Z z) = z.
Proof.
  pose proof (Zround_bounds (inject_Z z)) as [H1 H2].
  assert (inject_Z (Zround (inject_Z z)) < inject_Z (z + 1)) as A.
  { rewrite inject_Z_plus. change (inject_Z 1) with 1. lra. }
  assert (inject_Z (z - 1) < inject_Z (Zround (inject_Z z))) as B.
  { rewrite <- Z.add_opp_r, inject_Z_plus, inject_Z_opp. change (inject_Z 1) with 1. lra. }
  rewrite <- Zlt_Qlt in A, B. lia.
Qed.

Lemma Ztrunc_le p q : p <= q → (Ztrunc p <= Ztrunc q)%Z.
Proof.
  intros Hpq. unfold Ztrunc.
  destruct (Qle_bool 0 p) eqn:Ep; destruct (Qle_bool 0 q) eqn:Eq.
  - by apply Qfloor_resp_le.
  - apply Qle_bool_iff in Ep. apply Qle_bool_false in Eq. lra.
  - apply Qle_bool_iff in Eq. apply Qle_bool_false in Ep.
    assert (0 <= Qfloor q)%Z by (change 0%Z with (Qfloor 0); by apply Qfloor_resp_le).
    assert (0 <= Qfloor (- p))%Z by (change 0%Z with (Qfloor 0); apply Qfloor_resp_le; lra).
    lia.
  - assert (Qfloor (- q) <= Qfloor (- p))%Z; [|lia]. apply Qfloor_resp_le. lra.
Qed.

#[global] Instance Ztrunc_proper : Proper (Qeq ==> eq) Ztrunc.
Proof. intros p q E. apply Z.le_antisymm; apply Ztrunc_le; lra. Qed.

Lemma Ztrunc_Z z : Ztrunc (inject_Z z) = z.
Proof.
  unfold Ztrunc. rewrite <- inject_Z_opp, !Qfloor_Z. destruct (Qle_bool _ _); lia.
Qed.

(** For a non-negative number the integer part is the floor. *)
Lemma Ztrunc_floor q : 0 <= q → inject_Z (Ztrunc q) <= q < inject_Z (Ztrunc q) + 1.
Proof.
  intros Hq. unfold Ztrunc. apply Qle_bool_iff in Hq as ->.
  pose proof (Qlt_floor q) as H. rewrite inject_Z_plus in H.
  split; [apply Qfloor_le | exact H].
Qed.

Lemma Ztrunc_nonneg q : 0 <= q → (0 <= Ztrunc q)%Z.
Proof. intros. rewrite <- (Ztrunc_Z 0). by apply Ztrunc_le. Qed.

(** Rounding at [n] decimals errs by at most half a unit of the last one. *)
Lemma round_at_error n q : Qabs (round_at n q - q) <= (1 # 2) / ten n.
Proof.
  pose proof (ten_pos n) as Ht. pose proof (Zround_bounds (q * ten n)) as [H1 H2].
  unfold round_at. set (r := inject_Z (Zround (q * ten n))) in *.
  assert (r / ten n - q == (r - q * ten n) / ten n) as -> by (field; lra).
  apply Qabs_Qle_condition. split.
  - assert (- ((1 # 2) / ten n) == (- (1 # 2)) / ten n) as -> by (field; lra).
    apply Qle_shift_div_l; [done|]. rewrite (Qmult_comm (_ / _)), Qmult_div_r; lra.
  - apply Qle_shift_div_l; [done|].
    rewrite (Qmult_comm (_ / _)), Qmult_div_r; lra.
Qed.

Lemma round_at_mono n p q : p <= q → round_at n p <= round_at n q.
Proof.
  intros Hpq. pose proof (ten_pos n) as Ht. unfold round_at, Qdiv.
  apply Qmult_le_compat_r; [|apply Qlt_le_weak, Qinv_lt_0_compat, Ht].
  rewrite <- Zle_Qle. apply Zround_le. apply Qmult_le_compat_r; lra.
Qed.

#[global] Instance round_at_proper n : Proper (Qeq ==> Qeq) (round_at n).
Proof. intros p q E. unfold round_at. by rewrite E. Qed.
#[global] Instance trunc_at_proper n : Proper (Qeq ==> Qeq) (trunc_at n).
Proof. intros p q E. unfold trunc_at. by rewrite E. Qed.

(** A number with at most [n] decimals is not changed. *)
Lemma round_at_exact n q z : q * ten n == inject_Z z → round_at n q == q.
Proof.
  intros E. unfold round_at. rewrite E, Zround_Z, <- E. pose proof (ten_pos n). field. lra.
Qed.

Lemma round_at_nonneg n q : 0 <= q → 0 <= round_at n q.
Proof.
  intros. apply Qle_trans with (round_at n 0); [|by apply round_at_mono].
  rewrite (round_at_exact n 0 0); [lra|]. change (inject_Z 0) with 0. ring.
Qed.

Lemma ten_divide n k z : (k <= n)%nat → ∃ w, inject_Z z / ten k * ten n == inject_Z w.
Proof.
  intros Hk. exists (z * 10 ^ Z.of_nat (n - k))%Z. rewrite inject_Z_mult.
  pose proof (ten_pos k).
  assert (ten n == ten k * inject_Z (10 ^ Z.of_nat (n - k))) as ->; [|field; lra].
  unfold ten. rewrite <- inject_Z_mult, <- Z.pow_add_r by lia.
  by replace (Z.of_nat k + Z.of_nat (n - k))%Z with (Z.of_nat n) by lia.
Qed.

(** A quotient by a power of ten within the precision is exact. *)
Lemma round_at_ten n k z : (k <= n)%nat → round_at n (inject_Z z / ten k) == inject_Z z / ten k.
Proof. intros [w Hw]%(λ H, ten_divide n k z H). by eapply round_at_exact. Qed.
End rounding.

(** * The decimal package, as its documentation describes it *)

Class DecimalOps (D : Type) := {
  dval : D → Q;                    (* the number denoted *)
  NewFromInt : Z → D;              (* NewFromInt(i), NewFromBigInt(i, 0) *)
  NewFromFloat : Z → Z → D;        (* NewFromFloat of the float64 written m * 10^e *)
  NewFromString : string → option D;
  dString : D → string;
  dAdd : D → D → D;
  dSub : D → D → D;
  dMul : D → D → D;
  dQuo : nat → D → D → D;          (* Div of a non-zero divisor, by DivisionPrecision *)
  dRound : D → nat → D;
  dTruncate : D → nat → D;
  dCmp : D → D → comparison;
  dBigInt : D → Z;
}.

Class DecimalLaws (D : Type) `{DecimalOps D} : Prop := {
  val_int z : dval (NewFromInt z) == inject_Z z;
  val_float m e : (Z.abs m < 10 ^ 15)%Z → (Z.abs e <= 300)%Z →
    dval (NewFromFloat m e) == inject_Z m * (10 # 1) ^ e;
  val_add a b : dval (dAdd a b) == dval a + dval b;
  val_sub a b : dval (dSub a b) == dval a - dval b;
  val_mul a b : dval (dMul a b) == dval a * dval b;
  (** "If it doesn't divide exactly, the result will have DivisionPrecision
      digits after the decimal point", digit 5 rounded away from 0. *)
  val_quo n a b : ~ dval b == 0 → dval (dQuo n a b) == round_at n (dval a / dval b);
  val_round d n : dval (dRound d n) == round_at n (dval d);
  val_trunc d n : dval (dTruncate d n) == trunc_at n (dval d);
  cmp_val a b : dCmp a b = Qcompare (dval a) (dval b);
  bigint_val d : dBigInt d = Ztrunc (dval d);
  (** The printed form of a decimal parses back to the same number. *)
  string_val d : ∃ d', NewFromString (dString d) = Some d' ∧ dval d' == dval d;
  string_empty : NewFromString "" = None;
}.

Section operations.
Context {D : Type} `{DecimalOps D}.

Definition dZero : D := NewFromInt 0.
Definition dEqual (a b : D) : bool := match dCmp a b with Eq => true | _ => false end.
Definition dLessThan (a b : D) : bool := match dCmp a b with Lt => true | _ => false end.
Definition dLessThanOrEqual (a b : D) : bool :=
  match dCmp a b with Gt => false | _ => true end.
Definition dGreaterThan (a b : D) : bool := match dCmp a b with Gt => true | _ => false end.
Definition dGreaterThanOrEqual (a b : D) : bool :=
  match dCmp a b with Lt => false | _ => true end.
Definition dIsZero (a : D) : bool := dEqual a dZero.

(** [d, _ := decimal.NewFromString(s)]: the zero decimal on a bad string. *)
Definition parse_or_zero (s : string) : D :=
  match NewFromString s with Some d => d | None => dZero end.
End operations.

Section comparisons.
Context {D : Type} `{DecimalLaws D}.
Local Open Scope Q_scope.

Lemma val_zero : dval (dZero : D) == 0.
Proof. apply val_int. Qed.

Lemma dEqual_spec a b : dEqual a b = true ↔ dval a == dval b.
Proof. unfold dEqual. rewrite cmp_val, Qeq_alt. destruct (_ ?= _); naive_solver. Qed.
Lemma dLessThan_spec a b : dLessThan a b = true ↔ dval a < dval b.
Proof. unfold dLessThan. rewrite cmp_val, Qlt_alt. destruct (_ ?= _); naive_solver. Qed.
Lemma dLessThanOrEqual_spec a b : dLessThanOrEqual a b = true ↔ dval a <= dval b.
Proof. unfold dLessThanOrEqual. rewrite cmp_val, Qle_alt. destruct (_ ?= _); naive_solver. Qed.
Lemma dGreaterThan_spec a b : dGreaterThan a b = true ↔ dval b < dval a.
Proof. unfold dGreaterThan. rewrite cmp_val, Qgt_alt. destruct (_ ?= _); naive_solver. Qed.
Lemma dGreaterThanOrEqual_spec a b : dGreaterThanOrEqual a b = true ↔ dval b <= dval a.
Proof. unfold dGreaterThanOrEqual. rewrite cmp_val, Qge_alt. destruct (_ ?= _); naive_solver. Qed.

Lemma dIsZero_spec a : dIsZero a = true ↔ dval a == 0.
Proof. unfold dIsZero. rewrite dEqual_spec, val_zero. done. Qed.

Lemma dEqual_false a b : dEqual a b = false ↔ ~ dval a == dval b.
Proof. rewrite <- not_true_iff_false, dEqual_spec. done. Qed.
Lemma dLessThanOrEqual_false a b : dLessThanOrEqual a b = false ↔ dval b < dval a.
Proof.
  rewrite <- not_true_iff_false, dLessThanOrEqual_spec.
  split; [apply Qnot_le_lt | apply Qlt_not_le].
Qed.
Lemma dGreaterThanOrEqual_false a b : dGreaterThanOrEqual a b = false ↔ dval a < dval b.
Proof.
  rewrite <- not_true_iff_false, dGreaterThanOrEqual_spec.
  split; [apply Qnot_le_lt | apply Qlt_not_le].
Qed.
Lemma dIsZero_false a : dIsZero a = false ↔ ~ dval a == 0.
Proof. rewrite <- not_true_iff_false, dIsZero_spec. done. Qed.

Lemma parse_print d : dval (parse_or_zero (dString d)) == dval d.
Proof. unfold parse_or_zero. destruct (string_val d) as (d' & -> & ?). done. Qed.
Lemma parse_empty : dval (parse_or_zero (D := D) "") == 0.
Proof. unfold parse_or_zero. rewrite string_empty. apply val_zero. Qed.
End comparisons.

(** Turns every decimal test of the context into a fact about values. *)
Ltac dec_facts :=
  repeat match goal with
    | H : (_ || _) = false |- _ => apply orb_false_iff in H as [? ?]
    | H : (_ && _) = true |- _ => apply andb_true_iff in H as [? ?]
    | H : dEqual _ _ = true |- _ => apply dEqual_spec in H
    | H : dEqual _ _ = false |- _ => apply dEqual_false in H
    | H : dIsZero _ = true |- _ => apply dIsZero_spec in H
    | H : dIsZero _ = false |- _ => apply dIsZero_false in H
    | H : dLessThan _ _ = true |- _ => apply dLessThan_spec in H
    | H : dGreaterThan _ _ = true |- _ => apply dGreaterThan_spec in H
    | H : dLessThanOrEqual _ _ = true |- _ => apply dLessThanOrEqual_spec in H
    | H : dLessThanOrEqual _ _ = false |- _ => apply dLessThanOrEqual_false in H
    | H : dGreaterThanOrEqual _ _ = true |- _ => apply dGreaterThanOrEqual_spec in H
    | H : dGreaterThanOrEqual _ _ = false |- _ => apply dGreaterThanOrEqual_false in H
    end;
  rewrite ?val_zero in *.

(** * A concrete decimal *)

Module Fixed.
Local Open Scope Q_scope.

(** [coef * 10^(-scale)], the representation the package documents. *)
Record t := mk { coef : Z; scale : nat }.

Definition val (d : t) : Q := inject_Z (coef d) / ten (scale d).

(** Brings two decimals to a common scale. *)
Definition up (d : t) (n : nat) : Z := (coef d * 10 ^ Z.of_nat (n - scale d))%Z.
Definition lift2 (f : Z → Z → Z) (a b : t) : t :=
  let n := Nat.max (scale a) (scale b) in mk (f (up a n) (up b n)) n.

Definition of_float (m e : Z) : t :=
  if (e <? 0)%Z then mk m (Z.to_nat (- e)) else mk (m * 10 ^ e)%Z 0.

(** Strings: the coefficient and the scale, in the exponent notation the
    package's parser accepts ("123e-8"). *)
Definition string_of_Z (z : Z) : string := NilZero.string_of_int (Z.to_int z).
Definition Z_of_string (s : string) : option Z := Z.of_int <$> NilZero.int_of_string s.

Definition print (d : t) : string :=
  (string_of_Z (coef d) +:+ "e" +:+ string_of_Z (- Z.of_nat (scale d)))%string.

Fixpoint split_e (s : string) : option (string * string) :=
  match s with
  | EmptyString => None
  | String c r =>
      if bool_decide (c = "e"%char) then Some (""%string, r)
      else '(a, b) ← split_e r; Some (String c a, b)
  end.

Definition parse (s : string) : option t :=
  match split_e s with
  | Some (a, b) => m ← Z_of_string a; e ← Z_of_string b; Some (of_float m e)
  | None => m ← Z_of_string s; Some (mk m 0)
  end.

#[global] Instance ops : DecimalOps t := {
  dval := val;
  NewFromInt z := mk z 0;
  NewFromFloat := of_float;
  NewFromString := parse;
  dString := print;
  dAdd := lift2 Z.add;
  dSub := lift2 Z.sub;
  dMul a b := mk (coef a * coef b) (scale a + scale b);
  dQuo n a b := mk (Zround (val a / val b * ten n)) n;
  dRound d n := mk (Zround (val d * ten n)) n;
  dTruncate d n := mk (Ztrunc (val d * ten n)) n;
  dCmp a b := Qcompare (val a) (val b);
  dBigInt d := Ztrunc (val d);
}.

Lemma ten_add m n : ten (m + n) == ten m * ten n.
Proof.
  unfold ten. by rewrite Nat2Z.inj_add, Z.pow_add_r, inject_Z_mult by lia.
Qed.

Lemma up_val d n : (scale d <= n)%nat → inject_Z (up d n) / ten n == val d.
Proof.
  intros Hn. unfold up, val. rewrite inject_Z_mult.
  change (inject_Z (10 ^ Z.of_nat (n - scale d))) with (ten (n - scale d)).
  replace n with (scale d + (n - scale d))%nat at 2 by lia. rewrite ten_add.
  pose proof (ten_pos (scale d)). pose proof (ten_pos (n - scale d)). field. split; lra.
Qed.

(** No decimal digit is an "e", so the printed form splits where it should. *)
Fixpoint no_e (s : string) : Prop :=
  match s with EmptyString => True | String c r => c <> "e"%char ∧ no_e r end.

Lemma split_e_app a b : no_e a → split_e (a +:+ "e" +:+ b)%string = Some (a, b).
Proof.
  induction a as [|c a IH]; [done|]. intros [Hc Ha]. specialize (IH Ha).
  change (split_e (String c (a +:+ "e" +:+ b)) = Some (String c a, b)).
  cbn [split_e]. rewrite bool_decide_eq_false_2 by done. by rewrite IH.
Qed.

Lemma no_e_uint d : no_e (NilEmpty.string_of_uint d).
Proof. induction d; cbn; done. Qed.
Lemma no_e_string_of_Z z : no_e (string_of_Z z).
Proof.
  unfold string_of_Z. destruct (Z.to_int z) as [u|u]; cbn.
  - destruct u; try done; apply (no_e_uint _).
  - split; [done|]. destruct u; try done; apply (no_e_uint _).
Qed.

Lemma Z_of_string_of_Z z : Z_of_string (string_of_Z z) = Some z.
Proof.
  unfold Z_of_string, string_of_Z. rewrite NilZero.isi.
  - cbn. by rewrite DecimalZ.of_to.
  - intros E. assert (z = 0%Z) as -> by (by rewrite <- (DecimalZ.of_to z), E). done.
  - intros E. assert (z = 0%Z) as -> by (by rewrite <- (DecimalZ.of_to z), E). done.
Qed.

Lemma print_parse d : parse (print d) = Some d.
Proof.
  unfold parse, print. rewrite split_e_app by apply no_e_string_of_Z.
  rewrite !Z_of_string_of_Z. cbn. unfold of_float. destruct d as [c [|n]]; cbn [coef scale].
  - cbn. by rewrite Z.mul_1_r.
  - destruct (Z.ltb_spec (- Z.of_nat (S n)) 0); [|lia].
    by rewrite Z.opp_involutive, Nat2Z.id.
Qed.

Lemma of_float_val m e : (Z.abs e <= 300)%Z → val (of_float m e) == inject_Z m * (10 # 1) ^ e.
Proof.
  intros _. unfold of_float. destruct (Z.ltb_spec e 0).
  - unfold val, ten; cbn [coef scale]. rewrite Z2Nat.id by lia.
    replace e with (- (- e))%Z at 2 by lia. rewrite Qpower_opp.
    change (10 # 1) with (inject_Z 10). rewrite <- Zpower_Qpower by lia. done.
  - unfold val, ten; cbn [coef scale]. rewrite inject_Z_mult.
    change (10 # 1) with (inject_Z 10). rewrite <- Zpower_Qpower by lia.
    change (inject_Z (10 ^ Z.of_nat 0)) with 1. field.
Qed.

#[global] Instance laws : DecimalLaws t.
Proof.
  split; intros; cbn [dval ops NewFromInt NewFromFloat NewFromString dString dAdd dSub dMul
    dQuo dRound dTruncate dCmp dBigInt]; try done.
  - unfold val; cbn. change (ten 0) with 1. field.
  - by apply of_float_val.
  - rewrite <- (up_val a (Nat.max (scale a) (scale b))) by lia.
    rewrite <- (up_val b (Nat.max (scale a) (scale b))) by lia.
    unfold lift2, val; cbn. rewrite inject_Z_plus.
    pose proof (ten_pos (Nat.max (scale a) (scale b))). field. lra.
  - rewrite <- (up_val a (Nat.max (scale a) (scale b))) by lia.
    rewrite <- (up_val b (Nat.max (scale a) (scale b))) by lia.
    unfold lift2, val; cbn. rewrite <- Z.add_opp_r, inject_Z_plus, inject_Z_opp.
    pose proof (ten_pos (Nat.max (scale a) (scale b))). field. lra.
  - unfold val; cbn. rewrite inject_Z_mult, ten_add.
    pose proof (ten_pos (scale a)). pose proof (ten_pos (scale b)). field. lra.
  - exists d. split; [apply print_parse | done].
Qed.
End Fixed.
