(* ===== verification/Formula.v ===== *)
(** Market-making formulas: pkg/mathutil, pkg/marketmaking and
    pkg/marketmaking/formula.

    [Balanced] is the automated 50/50 constant-product strategy, [Pluggable]
    the one that prices with a given price.  Both implement the interface
    [MakingFormula]; [FormulaSafe] is what a market relies on.  The theorems
    bound the distance of each quoted amount from the exact one, and say
    exactly when a quote is refused. *)

From Stdlib Require Import ZArith Lia QArith Qabs Lqa.
From stdpp Require Import base tactics strings.
From S2P Require Import Prelude Decimal Errors.

(** * pkg/mathutil *)
Module Mathutil.
(** The package's init sets the precision of every decimal division. *)
Definition DivisionPrecision : nat := 8.

(** BigOne: one unit of an asset with precision 8. *)
Definition BigOne : Z := 10 ^ 8.

Definition BigAdd (x y : Z) : Z := big_Int64 (x + y).
Definition BigSub (x y : Z) : Z := big_Int64 (x - y).
Definition BigMul (x y : Z) : Z := big_Int64 (x * y).
(** big.Int.Div is Euclidean division and panics on a zero divisor. *)
Definition BigDiv (x y : Z) : outcome error Z :=
  if (y =? 0)%Z then Panic DivisionByZero
  else Ret (big_Int64 (Z.sgn y * (x / Z.abs y))).

Section decimals.
Context {D : Type} `{DecimalOps D}.

(** [d.Div(d2)], which panics on a zero divisor. *)
Definition DivDecimal (X Y : D) : outcome error D :=
  if dIsZero Y then Panic DivisionByZero else Ret (dQuo DivisionPrecision X Y).
Definition AddDecimal (X Y : D) : D := dAdd X Y.
Definition SubDecimal (X Y : D) : D := dSub X Y.
Definition MulDecimal (X Y : D) : D := dMul X Y.

Definition Add (x y : Z) : D := AddDecimal (NewFromInt x) (NewFromInt y).
Definition Sub (x y : Z) : D := SubDecimal (NewFromInt x) (NewFromInt y).
Definition Mul (x y : Z) : D := MulDecimal (NewFromInt x) (NewFromInt y).
Definition Div (x y : Z) : outcome error D := DivDecimal (NewFromInt x) (NewFromInt y).
End decimals.

Section laws.
Context {D : Type} `{DecimalLaws D}.
Local Open Scope Q_scope.

Lemma DivDecimal_Ret (X Y q : D) :
  DivDecimal X Y = Ret q → ~ dval Y == 0 ∧ dval q == round_at 8 (dval X / dval Y).
Proof.
  unfold DivDecimal. intros HD. go_inv HD. dec_facts.
  split; [done|]. by apply val_quo.
Qed.

Lemma DivDecimal_total (X Y : D) :
  ~ dval Y == 0 → ∃ q, DivDecimal X Y = Ret q ∧ dval q == round_at 8 (dval X / dval Y).
Proof.
  intros HY. unfold DivDecimal. destruct (dIsZero Y) eqn:E; dec_facts; [done|].
  eexists. split; [done|]. by apply val_quo.
Qed.

(** Scaling an amount of the smallest unit down by its precision is exact. *)
Lemma Div_pow10 (x : Z) (p : nat) : (p <= 8)%nat →
  ∃ q : D, Div x (10 ^ Z.of_nat p) = Ret q ∧ dval q == inject_Z x / ten p.
Proof.
  intros Hp. unfold Div. pose proof (ten_pos p) as Ht.
  destruct (DivDecimal_total (NewFromInt x : D) (NewFromInt (10 ^ Z.of_nat p)))
    as (q & Hq & Hv).
  { rewrite val_int. fold (ten p). lra. }
  exists q. split; [done|]. rewrite Hv, !val_int. by apply round_at_ten.
Qed.
End laws.
End Mathutil.
Import Mathutil.

(** * pkg/marketmaking: the interface and its contract *)

Section interface.
Context {D : Type} `{DecimalOps D}.

Record BalancedReservesOpts := {
  br_BalanceIn : D; br_BalanceOut : D; br_WeightIn : Z; br_WeightOut : Z }.
Record PluggableOpts := { pl_BalanceIn : D; pl_BalanceOut : D; pl_Price : D }.

(** The dynamic types a formula's [interface{}] argument is given. *)
Inductive formula_opts :=
  | BalancedArgs (o : BalancedReservesOpts)
  | PluggableArgs (o : PluggableOpts).

Definition opts_BalanceOut (o : formula_opts) : D :=
  match o with
  | BalancedArgs b => br_BalanceOut b
  | PluggableArgs p => pl_BalanceOut p
  end.

Record MakingFormula := {
  SpotPrice : formula_opts → outcome error D;
  OutGivenIn : formula_opts → D → outcome error D;
  InGivenOut : formula_opts → D → outcome error D;
}.

(** A quote is positive and never takes the whole reserve. *)
Record FormulaSafe (f : MakingFormula) : Prop := {
  out_safe o a out : OutGivenIn f o a = Ret out →
    (0 < dval out < dval (opts_BalanceOut o))%Q;
  in_safe o a i : InGivenOut f o a = Ret i →
    (0 < dval i ∧ dval a < dval (opts_BalanceOut o))%Q;
}.
End interface.
Arguments BalancedReservesOpts D : clear implicits.
Arguments PluggableOpts D : clear implicits.
Arguments formula_opts D : clear implicits.
Arguments MakingFormula D : clear implicits.

(** * BalancedReserves *)
Module Balanced.
Section defs.
Context {D : Type} `{DecimalOps D}.

Definition SpotPrice (_opts : formula_opts D) : outcome error D :=
  match _opts with
  | BalancedArgs opts =>
      if dEqual (br_BalanceIn opts) dZero || dEqual (br_BalanceOut opts) dZero
      then Err ErrBalanceTooLow
      else DivDecimal (br_BalanceOut opts) (br_BalanceIn opts)
  | _ => Err ErrInvalidBalancedReservesOptsType
  end.

Definition OutGivenIn (_opts : formula_opts D) (amountIn : D) : outcome error D :=
  match _opts with
  | BalancedArgs opts =>
      if dEqual (br_BalanceIn opts) dZero || dEqual (br_BalanceOut opts) dZero
      then Err ErrBalanceTooLow
      else if dLessThanOrEqual amountIn dZero then Err ErrAmountTooLow
      else
        ratio ← DivDecimal (br_BalanceIn opts) (dAdd (br_BalanceIn opts) amountIn);
        let amount :=
          dRound (dMul (br_BalanceOut opts) (dSub (NewFromInt 1) ratio)) 8 in
        if dLessThanOrEqual amount dZero then Err ErrAmountTooLow
        else if dGreaterThanOrEqual amount (br_BalanceOut opts) then Err ErrAmountTooBig
        else Ret amount
  | _ => Err ErrInvalidBalancedReservesOptsType
  end.

Definition InGivenOut (_opts : formula_opts D) (amountOut : D) : outcome error D :=
  match _opts with
  | BalancedArgs opts =>
      if dEqual (br_BalanceIn opts) dZero || dEqual (br_BalanceOut opts) dZero
      then Err ErrBalanceTooLow
      else if dEqual amountOut dZero then Err ErrAmountTooLow
      else if dGreaterThanOrEqual amountOut (br_BalanceOut opts) then Err ErrAmountTooBig
      else
        ratio ← DivDecimal (br_BalanceOut opts) (dSub (br_BalanceOut opts) amountOut);
        let amount :=
          dRound (dMul (br_BalanceIn opts) (dSub ratio (NewFromInt 1))) 8 in
        if dLessThanOrEqual amount dZero then Err ErrAmountTooLow else Ret amount
  | _ => Err ErrInvalidBalancedReservesOptsType
  end.

Definition formula : MakingFormula D :=
  {| Formula.SpotPrice := SpotPrice; Formula.OutGivenIn := OutGivenIn;
     Formula.InGivenOut := InGivenOut |}.
End defs.

(** The exact constant-product amounts and the tolerance of a quote: half a
    unit of the 8th decimal from the division, scaled by a reserve, plus half
    a unit from the final rounding. *)
Local Open Scope Q_scope.
Definition exact_out (bi bo a : Q) : Q := bo * a / (bi + a).
Definition exact_in (bi bo a : Q) : Q := bi * a / (bo - a).
Definition tolerance (reserve : Q) : Q := (reserve + 1) * (1 # 2) / ten 8.

#[global] Instance exact_out_proper : Proper (Qeq ==> Qeq ==> Qeq ==> Qeq) exact_out.
Proof. intros ?? E1 ?? E2 ?? E3. unfold exact_out. by rewrite E1, E2, E3. Qed.
#[global] Instance exact_in_proper : Proper (Qeq ==> Qeq ==> Qeq ==> Qeq) exact_in.
Proof. intros ?? E1 ?? E2 ?? E3. unfold exact_in. by rewrite E1, E2, E3. Qed.
#[global] Instance tolerance_proper : Proper (Qeq ==> Qeq) tolerance.
Proof. intros ?? E. unfold tolerance. by rewrite E. Qed.
End Balanced.

(** * Pluggable *)
Module Pluggable.
Section defs.
Context {D : Type} `{DecimalOps D}.

Definition SpotPrice (_ : formula_opts D) : outcome error D := Ret dZero.

Definition OutGivenIn (_opts : formula_opts D) (amountIn : D) : outcome error D :=
  match _opts with
  | PluggableArgs opts =>
      if dEqual amountIn dZero then Err ErrAmountTooLow
      else
        let amount := dRound (dMul amountIn (pl_Price opts)) 8 in
        if dLessThanOrEqual amount dZero then Err ErrAmountTooLow
        else if dGreaterThanOrEqual amount (pl_BalanceOut opts) then Err ErrAmountTooBig
        else Ret amount
  | _ => Err ErrInvalidPluggableOptsType
  end.

Definition InGivenOut (_opts : formula_opts D) (amountOut : D) : outcome error D :=
  match _opts with
  | PluggableArgs opts =>
      if dEqual amountOut dZero then Err ErrAmountTooLow
      else if dGreaterThanOrEqual amountOut (pl_BalanceOut opts) then Err ErrAmountTooBig
      else
        let amount := dRound (dMul amountOut (pl_Price opts)) 8 in
        if dLessThanOrEqual amount dZero then Err ErrAmountTooLow else Ret amount
  | _ => Err ErrInvalidPluggableOptsType
  end.

Definition formula : MakingFormula D :=
  {| Formula.SpotPrice := SpotPrice; Formula.OutGivenIn := OutGivenIn;
     Formula.InGivenOut := InGivenOut |}.
End defs.
End Pluggable.

Definition NewBalancedReservedFormula {D} `{DecimalOps D} : MakingFormula D := Balanced.formula.
Definition NewPluggableFormula {D} `{DecimalOps D} : MakingFormula D := Pluggable.formula.

(** * Theorems *)

Section safety.
Context {D : Type} `{DecimalLaws D}.

(** Both strategies keep the contract a market relies on. *)
Lemma balanced_safe : FormulaSafe (D := D) NewBalancedReservedFormula.
Proof.
  split; intros [o|o] a r HR; cbn in HR; unfold Balanced.OutGivenIn, Balanced.InGivenOut in HR;
    go_inv HR; go_cases; go_inv HR; dec_facts; cbn; done.
Qed.

Lemma pluggable_safe : FormulaSafe (D := D) NewPluggableFormula.
Proof.
  split; intros [o|o] a r HR; cbn in HR; unfold Pluggable.OutGivenIn, Pluggable.InGivenOut in HR;
    go_inv HR; dec_facts; cbn; done.
Qed.
End safety.

Section accuracy.
Context {D : Type} `{DecimalLaws D}.
Local Open Scope Q_scope.

(** A rounded ratio times a reserve, rounded again: the shape of both quotes. *)
Lemma scaled_rounding_error (reserve x r amount : Q) (err := (1 # 2) / ten 8) :
  0 < reserve → Qabs (r - x) <= err → amount == round_at 8 (reserve * r) →
  Qabs (amount - reserve * x) <= Balanced.tolerance reserve.
Proof.
  intros Hr Hx ->. pose proof (round_at_error 8 (reserve * r)) as Hround.
  apply Qabs_Qle_condition in Hx as [Hx1 Hx2].
  apply Qabs_Qle_condition in Hround as [Hr1 Hr2]. fold err in Hr1, Hr2.
  unfold Balanced.tolerance.
  assert ((reserve + 1) * (1 # 2) / ten 8 == reserve * err + err) as ->
    by (unfold err; field; pose proof (ten_pos 8); lra).
  apply Qabs_Qle_condition. split; nra.
Qed.

Lemma one_minus_error (x r e : Q) : Qabs (r - x) <= e → Qabs (1 - r - (1 - x)) <= e.
Proof. rewrite !Qabs_Qle_condition. lra. Qed.
Lemma minus_one_error (x r e : Q) : Qabs (r - x) <= e → Qabs (r - 1 - (x - 1)) <= e.
Proof. rewrite !Qabs_Qle_condition. lra. Qed.

(** What OutGivenIn computes before its final checks. *)
Lemma out_amount_error (bi bo a ratio : D) :
  0 < dval bi → 0 < dval bo → 0 < dval a →
  dval ratio == round_at 8 (dval bi / dval (dAdd bi a)) →
  Qabs (dval (dRound (dMul bo (dSub (NewFromInt 1) ratio)) 8)
        - Balanced.exact_out (dval bi) (dval bo) (dval a))
    <= Balanced.tolerance (dval bo).
Proof.
  intros Hbi Hbo Ha Hratio. rewrite val_add in Hratio.
  assert (Balanced.exact_out (dval bi) (dval bo) (dval a)
          == dval bo * (1 - dval bi / (dval bi + dval a))) as ->
    by (unfold Balanced.exact_out; field; lra).
  eapply scaled_rounding_error; [done| |].
  - apply one_minus_error. pose proof (round_at_error 8 (dval bi / (dval bi + dval a))) as E.
    rewrite <- Hratio in E. exact E.
  - by rewrite val_round, val_mul, val_sub, val_int.
Qed.

Lemma in_amount_error (bi bo a ratio : D) :
  0 < dval bi → dval a < dval bo →
  dval ratio == round_at 8 (dval bo / dval (dSub bo a)) →
  Qabs (dval (dRound (dMul bi (dSub ratio (NewFromInt 1))) 8)
        - Balanced.exact_in (dval bi) (dval bo) (dval a))
    <= Balanced.tolerance (dval bi).
Proof.
  intros Hbi Ha Hratio. rewrite val_sub in Hratio.
  assert (Balanced.exact_in (dval bi) (dval bo) (dval a)
          == dval bi * (dval bo / (dval bo - dval a) - 1)) as ->
    by (unfold Balanced.exact_in; field; lra).
  eapply scaled_rounding_error; [done| |].
  - apply minus_one_error. pose proof (round_at_error 8 (dval bo / (dval bo - dval a))) as E.
    rewrite <- Hratio in E. exact E.
  - by rewrite val_round, val_mul, val_sub, val_int.
Qed.

Lemma positive_balances (bi bo : D) :
  0 < dval bi → 0 < dval bo → dEqual bi dZero || dEqual bo dZero = false.
Proof.
  intros. apply orb_false_iff. split; apply dEqual_false; rewrite val_zero; lra.
Qed.

(** C1: on positive reserves and a positive input, the balanced strategy's
    OutGivenIn never panics; a quote lies strictly between 0 and the reserve
    and within [tolerance] of the exact constant-product amount
    bo*a/(bi+a); the two refusals happen only when the exact amount is within
    the tolerance of 0, respectively of the whole reserve. *)
Theorem out_given_in_correct (bi bo a : D) (wi wo : Z) :
  0 < dval bi → 0 < dval bo → 0 < dval a →
  let exact := Balanced.exact_out (dval bi) (dval bo) (dval a) in
  let tol := Balanced.tolerance (dval bo) in
  match Balanced.OutGivenIn (BalancedArgs (Build_BalancedReservesOpts bi bo wi wo)) a with
  | Ret out => 0 < dval out < dval bo ∧ Qabs (dval out - exact) <= tol
  | Err ErrAmountTooLow => exact <= tol
  | Err ErrAmountTooBig => dval bo - tol <= exact
  | _ => False
  end.
Proof.
  intros Hbi Hbo Ha exact tol. unfold Balanced.OutGivenIn; cbn [br_BalanceIn br_BalanceOut].
  rewrite positive_balances by done.
  destruct (dLessThanOrEqual a dZero) eqn:E; dec_facts; [lra|].
  destruct (DivDecimal_total bi (dAdd bi a)) as (ratio & -> & Hratio).
  { rewrite val_add. lra. }
  cbn [mbind outcome_bind]. pose proof (out_amount_error bi bo a ratio Hbi Hbo Ha Hratio) as Herr.
  fold exact tol in Herr. set (amount := dRound _ 8) in *.
  apply Qabs_Qle_condition in Herr as Herr'.
  destruct (dLessThanOrEqual amount dZero) eqn:E1; dec_facts; [lra|].
  destruct (dGreaterThanOrEqual amount bo) eqn:E2; dec_facts; [lra|]. done.
Qed.

(** C2: on positive reserves, the balanced strategy's InGivenOut never panics;
    for a positive output below the reserve a quote is positive and within
    [tolerance] of the exact amount bi*a/(bo-a), and it is refused as too low
    only when the exact amount is within the tolerance of 0; an output that is
    at least the reserve is refused as too big. *)
Theorem in_given_out_correct (bi bo a : D) (wi wo : Z) :
  0 < dval bi → 0 < dval bo → 0 < dval a →
  let exact := Balanced.exact_in (dval bi) (dval bo) (dval a) in
  let tol := Balanced.tolerance (dval bi) in
  match Balanced.InGivenOut (BalancedArgs (Build_BalancedReservesOpts bi bo wi wo)) a with
  | Ret i => dval a < dval bo ∧ 0 < dval i ∧ Qabs (dval i - exact) <= tol
  | Err ErrAmountTooLow => dval a < dval bo ∧ exact <= tol
  | Err ErrAmountTooBig => dval bo <= dval a
  | _ => False
  end.
Proof.
  intros Hbi Hbo Ha exact tol. unfold Balanced.InGivenOut; cbn [br_BalanceIn br_BalanceOut].
  rewrite positive_balances by done.
  destruct (dEqual a dZero) eqn:E; dec_facts; [lra|].
  destruct (dGreaterThanOrEqual a bo) eqn:E0; dec_facts; [done|].
  destruct (DivDecimal_total bo (dSub bo a)) as (ratio & -> & Hratio).
  { rewrite val_sub. lra. }
  cbn [mbind outcome_bind]. pose proof (in_amount_error bi bo a ratio Hbi E0 Hratio) as Herr.
  fold exact tol in Herr. set (amount := dRound _ 8) in *.
  apply Qabs_Qle_condition in Herr as Herr'.
  destruct (dLessThanOrEqual amount dZero) eqn:E1; dec_facts; [split; [done|lra]|]. done.
Qed.

(** a larger input never buys less: OutGivenIn is monotone in the amount. *)
Theorem out_given_in_monotone (bi bo a1 a2 out1 out2 : D) (wi wo : Z)
    (opts := BalancedArgs (Build_BalancedReservesOpts bi bo wi wo)) :
  0 < dval bi → 0 < dval bo → dval a1 <= dval a2 →
  Balanced.OutGivenIn opts a1 = Ret out1 → Balanced.OutGivenIn opts a2 = Ret out2 →
  dval out1 <= dval out2.
Proof.
  intros Hbi Hbo Ha H1 H2. unfold opts, Balanced.OutGivenIn in H1, H2.
  cbn [br_BalanceIn br_BalanceOut] in H1, H2.
  go_inv H1. go_inv H1. go_inv H2. go_inv H2. dec_facts.
  match goal with
  | A : DivDecimal _ (dAdd bi a1) = Ret _, B : DivDecimal _ (dAdd bi a2) = Ret _ |- _ =>
      apply DivDecimal_Ret in A as [_ HA]; apply DivDecimal_Ret in B as [_ HB]
  end.
  rewrite !val_round, !val_mul, !val_sub, !val_int, HA, HB, !val_add.
  apply round_at_mono.
  assert (round_at 8 (dval bi / (dval bi + dval a2)) <= round_at 8 (dval bi / (dval bi + dval a1)));
    [|nra].
  apply round_at_mono. apply Qle_shift_div_l; [lra|].
  assert (dval bi / (dval bi + dval a2) * (dval bi + dval a1)
          == dval bi * ((dval bi + dval a1) / (dval bi + dval a2))) as -> by (field; lra).
  assert ((dval bi + dval a1) / (dval bi + dval a2) <= 1) by (apply Qle_shift_div_r; lra). nra.
Qed.

(** A quote of OutGivenIn and its distance from the exact amount. *)
Lemma out_given_in_error (bi bo a out : D) (wi wo : Z) :
  0 < dval bi → 0 < dval bo →
  Balanced.OutGivenIn (BalancedArgs (Build_BalancedReservesOpts bi bo wi wo)) a = Ret out →
  0 < dval a ∧ Qabs (dval out - Balanced.exact_out (dval bi) (dval bo) (dval a))
    <= Balanced.tolerance (dval bo).
Proof.
  intros Hbi Hbo HO. unfold Balanced.OutGivenIn in HO. cbn [br_BalanceIn br_BalanceOut] in HO.
  go_inv HO. go_inv HO.
  match goal with A : DivDecimal _ _ = Ret _ |- _ => apply DivDecimal_Ret in A as [_ HA] end.
  dec_facts. split; [done|]. by apply out_amount_error.
Qed.

(** a trade quoted by OutGivenIn lowers the product of the reserves by at
    most the tolerance of the quote times the reserve that grows. *)
Theorem reserve_product_bound (bi bo a out : D) (wi wo : Z) :
  0 < dval bi → 0 < dval bo →
  Balanced.OutGivenIn (BalancedArgs (Build_BalancedReservesOpts bi bo wi wo)) a = Ret out →
  dval bi * dval bo - (dval bi + dval a) * Balanced.tolerance (dval bo)
    <= (dval bi + dval a) * (dval bo - dval out).
Proof.
  intros Hbi Hbo HO. destruct (out_given_in_error _ _ _ _ _ _ Hbi Hbo HO) as [Ha Herr].
  apply Qabs_Qle_condition in Herr as [_ Herr].
  assert (Balanced.exact_out (dval bi) (dval bo) (dval a) * (dval bi + dval a)
          == dval bo * dval a) by (unfold Balanced.exact_out; field; lra).
  nra.
Qed.

Lemma pluggable_amount_error (a price : D) :
  Qabs (dval (dRound (dMul a price) 8) - dval a * dval price) <= (1 # 2) / ten 8.
Proof. rewrite val_round, val_mul. apply round_at_error. Qed.

(** the pluggable strategy quotes amount*price to within half a unit of
    the 8th decimal in both directions, refuses amounts that round to
    nothing, and refuses what the reserve cannot pay. *)
Theorem pluggable_correct (bi bo price a : D)
    (opts := PluggableArgs (Build_PluggableOpts bi bo price)) :
  0 < dval a → 0 < dval price →
  let exact := dval a * dval price in
  let tol := (1 # 2) / ten 8 in
  match Pluggable.OutGivenIn opts a with
  | Ret out => 0 < dval out < dval bo ∧ Qabs (dval out - exact) <= tol
  | Err ErrAmountTooLow => exact <= tol
  | Err ErrAmountTooBig => dval bo - tol <= exact
  | _ => False
  end ∧
  match Pluggable.InGivenOut opts a with
  | Ret i => dval a < dval bo ∧ 0 < dval i ∧ Qabs (dval i - exact) <= tol
  | Err ErrAmountTooLow => dval a < dval bo ∧ exact <= tol
  | Err ErrAmountTooBig => dval bo <= dval a
  | _ => False
  end.
Proof.
  intros Ha Hp exact tol. pose proof (pluggable_amount_error a price) as Herr.
  fold exact tol in Herr. apply Qabs_Qle_condition in Herr as Herr'.
  unfold opts, Pluggable.OutGivenIn, Pluggable.InGivenOut; cbn [pl_BalanceOut pl_Price].
  set (amount := dRound _ 8) in *.
  destruct (dEqual a dZero) eqn:E; dec_facts; [lra|].
  destruct (dLessThanOrEqual amount dZero) eqn:E1;
    destruct (dGreaterThanOrEqual amount bo) eqn:E2;
    destruct (dGreaterThanOrEqual a bo) eqn:E3; dec_facts;
    repeat split; done || lra.
Qed.
End accuracy.

(** * Witnesses *)
Section witnesses.
Local Open Scope Q_scope.
Let one_6500 := BalancedArgs (Build_BalancedReservesOpts (Fixed.mk 1 0) (Fixed.mk 6500 0) 0 0).

Lemma out_given_in_correct_witness :
  Balanced.OutGivenIn one_6500 (Fixed.mk 1 4) = Ret (Fixed.mk 64993500 8) ∧
  Qabs (dval (Fixed.mk 64993500 8)
        - Balanced.exact_out (dval (Fixed.mk 1 0)) (dval (Fixed.mk 6500 0)) (dval (Fixed.mk 1 4)))
    <= Balanced.tolerance (dval (Fixed.mk 6500 0)).
Proof.
  pose proof (out_given_in_correct (Fixed.mk 1 0) (Fixed.mk 6500 0) (Fixed.mk 1 4) 0 0
    eq_refl eq_refl eq_refl) as W.
  split; [vm_compute; reflexivity|]. exact (proj2 W).
Defined.

Lemma in_given_out_correct_witness :
  Balanced.InGivenOut (BalancedArgs (Build_BalancedReservesOpts (Fixed.mk 6500 0) (Fixed.mk 1 0) 0 0))
    (Fixed.mk 1 4) = Ret (Fixed.mk 65006500 8) ∧
  Qabs (dval (Fixed.mk 65006500 8)
        - Balanced.exact_in (dval (Fixed.mk 6500 0)) (dval (Fixed.mk 1 0)) (dval (Fixed.mk 1 4)))
    <= Balanced.tolerance (dval (Fixed.mk 6500 0)).
Proof.
  pose proof (in_given_out_correct (Fixed.mk 6500 0) (Fixed.mk 1 0) (Fixed.mk 1 4) 0 0
    eq_refl eq_refl eq_refl) as W.
  split; [vm_compute; reflexivity|]. exact (proj2 (proj2 W)).
Defined.

Lemma out_given_in_monotone_witness :
  ∃ out1 out2, Balanced.OutGivenIn one_6500 (Fixed.mk 1 4) = Ret out1 ∧
    Balanced.OutGivenIn one_6500 (Fixed.mk 2 4) = Ret out2 ∧ dval out1 <= dval out2.
Proof.
  exists (Fixed.mk 64993500 8), (Fixed.mk 129974000 8).
  split; [vm_compute; reflexivity|]. split; [vm_compute; reflexivity|].
  apply (out_given_in_monotone (Fixed.mk 1 0) (Fixed.mk 6500 0) (Fixed.mk 1 4) (Fixed.mk 2 4)
    _ _ 0 0); try (vm_compute; reflexivity). vm_compute. discriminate.
Defined.

Lemma reserve_product_bound_witness :
  ∃ out, Balanced.OutGivenIn one_6500 (Fixed.mk 2 0) = Ret out ∧
    dval (Fixed.mk 1 0) * dval (Fixed.mk 6500 0)
      - (dval (Fixed.mk 1 0) + dval (Fixed.mk 2 0)) * Balanced.tolerance (dval (Fixed.mk 6500 0))
    <= (dval (Fixed.mk 1 0) + dval (Fixed.mk 2 0)) * (dval (Fixed.mk 6500 0) - dval out).
Proof.
  exists (Fixed.mk 433333335500 8). split; [vm_compute; reflexivity|].
  apply (reserve_product_bound (Fixed.mk 1 0) (Fixed.mk 6500 0) (Fixed.mk 2 0) _ 0 0);
    vm_compute; reflexivity.
Defined.

Lemma pluggable_correct_witness :
  let opts := PluggableArgs (Build_PluggableOpts (Fixed.mk 2 0) (Fixed.mk 50000 0) (Fixed.mk 20000 0)) in
  Pluggable.OutGivenIn opts (Fixed.mk 15 1) = Ret (Fixed.mk 3000000000000 8) ∧
  Qabs (dval (Fixed.mk 3000000000000 8) - dval (Fixed.mk 15 1) * dval (Fixed.mk 20000 0))
    <= (1 # 2) / ten 8.
Proof.
  intros opts.
  pose proof (pluggable_correct (Fixed.mk 2 0) (Fixed.mk 50000 0) (Fixed.mk 20000 0) (Fixed.mk 15 1)
    eq_refl eq_refl) as [W _].
  split; [vm_compute; reflexivity|]. exact (proj2 W).
Defined.
End witnesses.
