(* ===== verification/Market.v ===== *)
(** The market entity: internal/core/domain/market.go.

    State: the record [Market].  One definition per method; a method that
    fails leaves the market as it was, so each returns the new market or the
    error.  Theorems: the invariant of reachable markets, what is frozen while
    a market is open, the safety and accuracy of trade previews, fees, and when
    the price of a balanced market exists. *)

From Stdlib Require Import ZArith Lia QArith Qabs Qpower Lqa Ascii.
From stdpp Require Import base tactics strings list gmap.
From S2P Require Import Prelude Errors Decimal Formula.
Import Mathutil.

(** * encoding/hex *)

Definition fromHexChar (c : ascii) : option Z :=
  let n := Z.of_nat (nat_of_ascii c) in
  if (48 <=? n)%Z && (n <=? 57)%Z then Some (n - 48)%Z
  else if (97 <=? n)%Z && (n <=? 102)%Z then Some (n - 87)%Z
  else if (65 <=? n)%Z && (n <=? 70)%Z then Some (n - 55)%Z
  else None.

(** hex.DecodeString: the bytes decoded before the first bad digit, and
    whether the whole string was well formed. *)
Fixpoint hex_DecodeString (s : string) : list Z * bool :=
  match s with
  | EmptyString => ([], true)
  | String c EmptyString => ([], false)
  | String a (String b r) =>
      match fromHexChar a, fromHexChar b with
      | Some x, Some y =>
          let '(l, ok) := hex_DecodeString r in ((16 * x + y)%Z :: l, ok)
      | _, _ => ([], false)
      end
  end.

Definition hex_digit (n : Z) : ascii :=
  ascii_of_nat (Z.to_nat (if (n <? 10)%Z then 48 + n else 87 + n)).
Fixpoint hex_EncodeToString (l : list Z) : string :=
  match l with
  | [] => ""
  | b :: l => String (hex_digit (b / 16)) (String (hex_digit (b mod 16)) (hex_EncodeToString l))
  end.

(** * Constants and data *)

Definition StrategyTypeUndefined : Z := 0.
Definition StrategyTypePluggable : Z := 1.
Definition StrategyTypeBalanced : Z := 2.
Definition StrategyTypeUnbalanced : Z := 3.
Definition MinPercentageFee : Z := 0.
Definition MaxPercentageFee : Z := 9999.
Definition FeeAccount : string := "fee_account".
Definition FeeFragmenterAccount : string := "fee_fragmenter_account".
Definition MarketFragmenterAccount : string := "market_fragmenter_account".

Record MarketFee := { fee_BaseAsset : Z; fee_QuoteAsset : Z }.
Record MarketPrice := { BasePrice : string; QuotePrice : string }.
#[global] Instance MarketFee_eq_dec : EqDecision MarketFee.
Proof. solve_decision. Defined.
#[global] Instance MarketPrice_eq_dec : EqDecision MarketPrice.
Proof. solve_decision. Defined.
Definition empty_price : MarketPrice := {| BasePrice := ""; QuotePrice := "" |}.

Record PreviewInfo := {
  pi_Price : MarketPrice; pi_Amount : Z; pi_Asset : string;
  pi_FeeAsset : string; pi_FeeAmount : Z }.

Record Market := {
  BaseAsset : string;
  QuoteAsset : string;
  Name : string;
  BaseAssetPrecision : Z;
  QuoteAssetPrecision : Z;
  PercentageFee : MarketFee;
  FixedFee : MarketFee;
  Tradable : bool;
  StrategyType : Z;
  Price : MarketPrice }.
#[global] Instance Market_eq_dec : EqDecision Market.
Proof. solve_decision. Defined.

(** The zero value, what a failed map lookup yields. *)
Definition zero_Market : Market := {|
  BaseAsset := ""; QuoteAsset := ""; Name := "";
  BaseAssetPrecision := 0; QuoteAssetPrecision := 0;
  PercentageFee := {| fee_BaseAsset := 0; fee_QuoteAsset := 0 |};
  FixedFee := {| fee_BaseAsset := 0; fee_QuoteAsset := 0 |};
  Tradable := false; StrategyType := 0; Price := empty_price |}.

Definition set_Tradable (b : bool) (m : Market) : Market := {|
  BaseAsset := BaseAsset m; QuoteAsset := QuoteAsset m; Name := Name m;
  BaseAssetPrecision := BaseAssetPrecision m; QuoteAssetPrecision := QuoteAssetPrecision m;
  PercentageFee := PercentageFee m; FixedFee := FixedFee m;
  Tradable := b; StrategyType := StrategyType m; Price := Price m |}.
Definition set_Strategy (s : Z) (p : MarketPrice) (m : Market) : Market := {|
  BaseAsset := BaseAsset m; QuoteAsset := QuoteAsset m; Name := Name m;
  BaseAssetPrecision := BaseAssetPrecision m; QuoteAssetPrecision := QuoteAssetPrecision m;
  PercentageFee := PercentageFee m; FixedFee := FixedFee m;
  Tradable := Tradable m; StrategyType := s; Price := p |}.
Definition set_Fees (pf ff : MarketFee) (m : Market) : Market := {|
  BaseAsset := BaseAsset m; QuoteAsset := QuoteAsset m; Name := Name m;
  BaseAssetPrecision := BaseAssetPrecision m; QuoteAssetPrecision := QuoteAssetPrecision m;
  PercentageFee := pf; FixedFee := ff;
  Tradable := Tradable m; StrategyType := StrategyType m; Price := Price m |}.
Definition set_Precision (b q : Z) (m : Market) : Market := {|
  BaseAsset := BaseAsset m; QuoteAsset := QuoteAsset m; Name := Name m;
  BaseAssetPrecision := b; QuoteAssetPrecision := q;
  PercentageFee := PercentageFee m; FixedFee := FixedFee m;
  Tradable := Tradable m; StrategyType := StrategyType m; Price := Price m |}.

(** * Validation *)

Definition isValidAsset (asset : string) : bool :=
  let '(buf, ok) := hex_DecodeString asset in ok && (length buf =? 32)%nat.
Definition isValidPercentageFee (baseFee quoteFee : Z) : bool :=
  let isValid v := ((0 <=? v) && (v <=? 9999))%Z in isValid baseFee && isValid quoteFee.
Definition isValidFixedFee (baseFee quoteFee : Z) : bool :=
  let isValid v := (-1 <=? v)%Z in isValid baseFee && isValid quoteFee.
Definition isValidPrecision (precision : Z) : bool :=
  (0 <=? i64 precision)%Z && (precision <=? 8)%Z.
Definition isValidStrategy (strategy : Z) : bool :=
  (StrategyTypeUndefined <=? strategy)%Z && (strategy <=? StrategyTypeBalanced)%Z.

(** math.Pow10 of a precision, converted to uint64: exact up to 10^19, beyond
    which the conversion is implementation-defined; precisions are at most 8. *)
Definition Pow10_u64 (p : Z) : Z := 10 ^ p.

Section market.
Context {D : Type} `{DecimalOps D}.
(** btcutil.Hash160 *)
Variable Hash160 : list Z → list Z.

(** ** MarketPrice *)
Definition GetBasePrice (mp : MarketPrice) : D := parse_or_zero (BasePrice mp).
Definition GetQuotePrice (mp : MarketPrice) : D := parse_or_zero (QuotePrice mp).
Definition price_IsZero (mp : MarketPrice) : bool :=
  if bool_decide (mp = empty_price) then true
  else dIsZero (GetBasePrice mp) && dIsZero (GetQuotePrice mp).

(** ** Construction *)
Definition makeAccountName (baseAsset quoteAsset : string) : outcome error string :=
  let '(buf, _) := hex_DecodeString (baseAsset +:+ quoteAsset) in
  let s := hex_EncodeToString (Hash160 buf) in
  if (String.length s <? 5)%nat then Panic IndexOutOfRange
  else Ret (String.substring 0 5 s).

Definition NewMarket
    (baseAsset quoteAsset name : string)
    (basePercentageFee quotePercentageFee baseFixedFee quoteFixedFee : Z)
    (baseAssetPrecision quoteAssetPrecision strategyType : Z) : outcome error Market :=
  if negb (isValidAsset baseAsset) then Err ErrMarketInvalidBaseAsset
  else if negb (isValidAsset quoteAsset) then Err ErrMarketInvalidQuoteAsset
  else if negb (isValidPercentageFee (i64 basePercentageFee) (i64 quotePercentageFee))
  then Err ErrMarketInvalidPercentageFee
  else if negb (isValidFixedFee (i64 baseFixedFee) (i64 quoteFixedFee))
  then Err ErrMarketInvalidFixedFee
  else if negb (isValidPrecision baseAssetPrecision) then Err ErrMarketInvalidBaseAssetPrecision
  else if negb (isValidPrecision quoteAssetPrecision) then Err ErrMarketInvalidQuoteAssetPrecision
  else if negb (isValidStrategy strategyType) then Err ErrMarketUnknownStrategy
  else
    let strategyType :=
      if (strategyType =? StrategyTypeUndefined)%Z then StrategyTypeBalanced else strategyType in
    name ← (if bool_decide (name = ""%string) then makeAccountName baseAsset quoteAsset
            else Ret name);
    Ret {| BaseAsset := baseAsset; QuoteAsset := quoteAsset; Name := name;
           BaseAssetPrecision := baseAssetPrecision;
           QuoteAssetPrecision := quoteAssetPrecision;
           PercentageFee := {| fee_BaseAsset := basePercentageFee;
                               fee_QuoteAsset := quotePercentageFee |};
           FixedFee := {| fee_BaseAsset := baseFixedFee; fee_QuoteAsset := quoteFixedFee |};
           Tradable := false; StrategyType := i64 strategyType; Price := empty_price |}.

(** ** Status and strategy *)
Definition IsTradable (m : Market) : bool := Tradable m.
Definition IsStrategyBalanced (m : Market) : bool := (StrategyType m =? StrategyTypeBalanced)%Z.
Definition IsStrategyPluggable (m : Market) : bool := (StrategyType m =? StrategyTypePluggable)%Z.

Definition MakeTradable (m : Market) : outcome error Market :=
  if IsStrategyPluggable m && price_IsZero (Price m) then Err ErrMarketNotPriced
  else Ret (set_Tradable true m).
Definition MakeNotTradable (m : Market) : Market := set_Tradable false m.

Definition MakeStrategyPluggable (m : Market) : outcome error Market :=
  if IsTradable m then Err ErrMarketIsOpen
  else Ret (set_Strategy StrategyTypePluggable empty_price m).
Definition MakeStrategyBalanced (m : Market) : outcome error Market :=
  if IsTradable m then Err ErrMarketIsOpen
  else Ret (set_Strategy StrategyTypeBalanced (Price m) m).

(** ** Configuration *)
Definition ChangePercentageFee (baseFee quoteFee : Z) (m : Market) : outcome error Market :=
  if IsTradable m then Err ErrMarketIsOpen
  else if negb (isValidPercentageFee baseFee quoteFee) then Err ErrMarketInvalidPercentageFee
  else Ret (set_Fees
    {| fee_BaseAsset := if (0 <=? baseFee)%Z then u64 baseFee else fee_BaseAsset (PercentageFee m);
       fee_QuoteAsset := if (0 <=? quoteFee)%Z then u64 quoteFee else fee_QuoteAsset (PercentageFee m) |}
    (FixedFee m) m).

Definition ChangeFixedFee (baseFee quoteFee : Z) (m : Market) : outcome error Market :=
  if IsTradable m then Err ErrMarketIsOpen
  else if negb (isValidFixedFee baseFee quoteFee) then Err ErrMarketInvalidFixedFee
  else Ret (set_Fees (PercentageFee m)
    {| fee_BaseAsset := if (0 <=? baseFee)%Z then u64 baseFee else fee_BaseAsset (FixedFee m);
       fee_QuoteAsset := if (0 <=? quoteFee)%Z then u64 quoteFee else fee_QuoteAsset (FixedFee m) |} m).

Definition ChangePrice (basePrice quotePrice : D) (m : Market) : outcome error Market :=
  if dLessThanOrEqual basePrice dZero then Err ErrMarketInvalidBasePrice
  else if dLessThanOrEqual quotePrice dZero then Err ErrMarketInvalidQuotePrice
  else Ret (set_Strategy (StrategyType m)
    {| BasePrice := dString basePrice; QuotePrice := dString quotePrice |} m).

Definition ChangeAssetPrecision (baseAssetPrecision quoteAssetPrecision : Z) (m : Market)
    : outcome error Market :=
  if IsTradable m then Err ErrMarketIsOpen
  else if (0 <=? baseAssetPrecision)%Z && negb (isValidPrecision (u64 baseAssetPrecision))
  then Err ErrMarketInvalidBaseAssetPrecision
  else if (0 <=? quoteAssetPrecision)%Z && negb (isValidPrecision (u64 quoteAssetPrecision))
  then Err ErrMarketInvalidQuoteAssetPrecision
  else Ret (set_Precision
    (if (0 <=? baseAssetPrecision)%Z then u64 baseAssetPrecision else BaseAssetPrecision m)
    (if (0 <=? quoteAssetPrecision)%Z then u64 quoteAssetPrecision else QuoteAssetPrecision m) m).

(** ** Pricing *)
Definition strategy (m : Market) : MakingFormula D :=
  if (StrategyType m =? StrategyTypePluggable)%Z then NewPluggableFormula
  else NewBalancedReservedFormula.

Definition formula (m : Market) (isBaseAsset isBuy : bool)
    : formula_opts D → D → outcome error D :=
  if isBuy then
    if isBaseAsset then InGivenOut (strategy m) else OutGivenIn (strategy m)
  else
    if isBaseAsset then OutGivenIn (strategy m) else InGivenOut (strategy m).

(** The reserves in whole units, (in, out) from the market's point of view. *)
Definition formula_balances (m : Market) (baseBalance quoteBalance : Z) (isBuy : bool)
    : outcome error (D * D) :=
  balanceIn ← Div baseBalance (Pow10_u64 (BaseAssetPrecision m));
  balanceOut ← Div quoteBalance (Pow10_u64 (QuoteAssetPrecision m));
  Ret (if isBuy then (balanceOut, balanceIn) else (balanceIn, balanceOut)).

Definition formulaOptsForPluggable (m : Market) (baseBalance quoteBalance : Z)
    (isBaseAsset isBuy : bool) : outcome error (formula_opts D) :=
  '(balanceIn, balanceOut) ← formula_balances m baseBalance quoteBalance isBuy;
  let price := if isBaseAsset then GetQuotePrice (Price m) else GetBasePrice (Price m) in
  Ret (PluggableArgs {| pl_BalanceIn := balanceIn; pl_BalanceOut := balanceOut;
                        pl_Price := price |}).

Definition formulaOptsForBalanced (m : Market) (baseBalance quoteBalance : Z)
    (isBaseAsset isBuy : bool) : outcome error (formula_opts D) :=
  '(balanceIn, balanceOut) ← formula_balances m baseBalance quoteBalance isBuy;
  Ret (BalancedArgs {| br_BalanceIn := balanceIn; br_BalanceOut := balanceOut;
                       br_WeightIn := 0; br_WeightOut := 0 |}).

Definition priceFromBalances (m : Market) (baseBalance quoteBalance : Z)
    : outcome error MarketPrice :=
  balanceIn ← Div baseBalance (Pow10_u64 (BaseAssetPrecision m));
  balanceOut ← Div quoteBalance (Pow10_u64 (QuoteAssetPrecision m));
  quotePrice ← SpotPrice (strategy m)
    (BalancedArgs {| br_BalanceIn := balanceIn; br_BalanceOut := balanceOut;
                     br_WeightIn := 0; br_WeightOut := 0 |});
  basePrice ← DivDecimal (NewFromInt 1) quotePrice;
  Ret {| BasePrice := dString basePrice; QuotePrice := dString quotePrice |}.

Definition priceForStrategy (m : Market) (baseBalance quoteBalance : Z)
    : outcome error MarketPrice :=
  if IsStrategyPluggable m then Ret (Price m)
  else priceFromBalances m baseBalance quoteBalance.

Definition market_SpotPrice (m : Market) (baseBalance quoteBalance : Z)
    : outcome error MarketPrice := priceForStrategy m baseBalance quoteBalance.

(** ** Fees *)
Definition feesToSubtract (m : Market) (asset : string) (isBuy : bool) : bool :=
  (isBuy && bool_decide (asset = BaseAsset m)) ||
  (negb isBuy && bool_decide (asset = QuoteAsset m)).

Definition previewFees (m : Market) (amount : Z) (asset : string) (isBuy : bool)
    : outcome error Z :=
  let isQuote := bool_decide (asset = QuoteAsset m) in
  let percentageFee :=
    if isQuote then fee_QuoteAsset (PercentageFee m) else fee_BaseAsset (PercentageFee m) in
  let fixedFee :=
    if isQuote then fee_QuoteAsset (FixedFee m) else fee_BaseAsset (FixedFee m) in
  fee ← DivDecimal (NewFromInt (i64 percentageFee)) (NewFromInt 10000);
  let feeAmount := big_Uint64 (dBigInt (dMul (NewFromInt (i64 amount)) fee)) in
  let feeAmount := u64 (feeAmount + fixedFee) in
  if feesToSubtract m asset isBuy && (amount <=? feeAmount)%Z
  then Err ErrMarketPreviewAmountTooLow
  else Ret feeAmount.

(** ** Preview *)
Definition Preview (m : Market) (baseBalance quoteBalance amount : Z)
    (asset feeAsset : string) (isBuy : bool) : outcome error PreviewInfo :=
  if negb (IsTradable m) then Err ErrMarketIsClosed
  else if bool_decide (asset ≠ BaseAsset m) && bool_decide (asset ≠ QuoteAsset m)
  then Err (Errorf "asset must be either base or quote asset")
  else if bool_decide (feeAsset ≠ BaseAsset m) && bool_decide (feeAsset ≠ QuoteAsset m)
  then Err (Errorf "fee asset must be either base or quote asset")
  else
    let isBaseAsset := bool_decide (asset = BaseAsset m) in
    args ← (if IsStrategyPluggable m
            then formulaOptsForPluggable m baseBalance quoteBalance isBaseAsset isBuy
            else formulaOptsForBalanced m baseBalance quoteBalance isBaseAsset isBuy);
    price ← priceForStrategy m baseBalance quoteBalance;
    let assetPrecision :=
      if isBaseAsset then BaseAssetPrecision m else QuoteAssetPrecision m in
    amountDecimal ← Div amount (Pow10_u64 assetPrecision);
    previewAmount ← formula m isBaseAsset isBuy args amountDecimal;
    let previewAsset := if isBaseAsset then QuoteAsset m else BaseAsset m in
    let previewAssetPrecision :=
      if isBaseAsset then QuoteAssetPrecision m else BaseAssetPrecision m in
    let previewAmountInSats :=
      big_Uint64 (dBigInt (dMul previewAmount (NewFromFloat 1 previewAssetPrecision))) in
    if (previewAmountInSats =? 0)%Z then Err ErrMarketPreviewAmountTooLow
    else
      let amountsByAsset : gmap string Z :=
        <[previewAsset := previewAmountInSats]> {[asset := amount]} in
      let amountForFees := default 0%Z (amountsByAsset !! feeAsset) in
      previewFeeAmount ← previewFees m amountForFees feeAsset isBuy;
      Ret {| pi_Price := price; pi_Amount := previewAmountInSats; pi_Asset := previewAsset;
             pi_FeeAsset := feeAsset; pi_FeeAmount := previewFeeAmount |}.
End market.

(** * Invariant of a market *)

Section invariant.
Context {D : Type} `{DecimalLaws D}.
Variable Hash160 : list Z → list Z.

Record fees_wf (p f : MarketFee) : Prop := {
  wf_base_pct : (0 ≤ fee_BaseAsset p ≤ 9999)%Z;
  wf_quote_pct : (0 ≤ fee_QuoteAsset p ≤ 9999)%Z;
  wf_base_fixed : is_u64 (fee_BaseAsset f) ∧ (-1 ≤ i64 (fee_BaseAsset f))%Z;
  wf_quote_fixed : is_u64 (fee_QuoteAsset f) ∧ (-1 ≤ i64 (fee_QuoteAsset f))%Z;
}.

Record market_wf (m : Market) : Prop := {
  wf_base : isValidAsset (BaseAsset m) = true;
  wf_quote : isValidAsset (QuoteAsset m) = true;
  wf_fees : fees_wf (PercentageFee m) (FixedFee m);
  wf_base_prec : (0 ≤ BaseAssetPrecision m ≤ 8)%Z;
  wf_quote_prec : (0 ≤ QuoteAssetPrecision m ≤ 8)%Z;
  wf_strategy : StrategyType m = StrategyTypePluggable ∨ StrategyType m = StrategyTypeBalanced;
  (** an open market with the pluggable strategy has a price *)
  wf_priced : Tradable m = true → IsStrategyPluggable m = true →
    price_IsZero (D := D) (Price m) = false;
}.

(** The operations of the entity. *)
Inductive market_op :=
  | OpMakeTradable | OpMakeNotTradable
  | OpMakeStrategyPluggable | OpMakeStrategyBalanced
  | OpChangePercentageFee (b q : Z) | OpChangeFixedFee (b q : Z)
  | OpChangePrice (b q : D) | OpChangeAssetPrecision (b q : Z).

Definition apply_op (op : market_op) (m : Market) : outcome error Market :=
  match op with
  | OpMakeTradable => MakeTradable (D := D) m
  | OpMakeNotTradable => Ret (MakeNotTradable m)
  | OpMakeStrategyPluggable => MakeStrategyPluggable m
  | OpMakeStrategyBalanced => MakeStrategyBalanced m
  | OpChangePercentageFee b q => ChangePercentageFee b q m
  | OpChangeFixedFee b q => ChangeFixedFee b q m
  | OpChangePrice b q => ChangePrice b q m
  | OpChangeAssetPrecision b q => ChangeAssetPrecision b q m
  end.

(** Arguments of the Go types: int64 fees, int precisions. *)
Definition op_args_ok (op : market_op) : Prop :=
  match op with
  | OpChangePercentageFee b q | OpChangeFixedFee b q | OpChangeAssetPrecision b q =>
      is_i64 b ∧ is_i64 q
  | _ => True
  end.

Inductive market_reachable : Market → Prop :=
  | reach_new ba qa n bp qp bf qf bd qd s m :
      Forall is_u64 [bp; qp; bf; qf; bd; qd; s] →
      NewMarket Hash160 ba qa n bp qp bf qf bd qd s = Ret m → market_reachable m
  | reach_op op m m' :
      market_reachable m → op_args_ok op → apply_op op m = Ret m' → market_reachable m'.

Lemma valid_percentage b q :
  isValidPercentageFee b q = true → (0 ≤ b ≤ 9999)%Z ∧ (0 ≤ q ≤ 9999)%Z.
Proof. unfold isValidPercentageFee. intros. zify_bool. lia. Qed.

Lemma valid_fixed b q : isValidFixedFee b q = true → (-1 ≤ b)%Z ∧ (-1 ≤ q)%Z.
Proof. unfold isValidFixedFee. intros. zify_bool. lia. Qed.

Lemma valid_precision p : is_u64 p → isValidPrecision p = true → (0 ≤ p ≤ 8)%Z.
Proof. unfold isValidPrecision, is_u64. intros. zify_bool. lia. Qed.

Lemma NewMarket_wf ba qa n bp qp bf qf bd qd s m :
  Forall is_u64 [bp; qp; bf; qf; bd; qd; s] →
  NewMarket Hash160 ba qa n bp qp bf qf bd qd s = Ret m → market_wf m.
Proof.
  rewrite !Forall_cons. intros (? & ? & ? & ? & ? & ? & Hs & _) HN. unfold NewMarket in HN.
  go_inv HN. repeat match goal with E : negb _ = false |- _ => apply negb_false_iff in E end.
  repeat match goal with
    | E : isValidPercentageFee _ _ = true |- _ => apply valid_percentage in E as [? ?]
    | E : isValidFixedFee _ _ = true |- _ => apply valid_fixed in E as [? ?]
    | E : isValidPrecision _ = true |- _ => apply valid_precision in E; [|done]
    | E : isValidStrategy _ = true |- _ => unfold isValidStrategy in E
    end.
  split; cbn; try done.
  - split; cbn; (by split) ||
      match goal with |- (_ ≤ ?x ≤ _)%Z => pose proof (i64_nonneg_u64 x ltac:(done)); lia end.
  - unfold is_u64 in Hs. zify_bool. unfold StrategyTypeUndefined, StrategyTypePluggable,
      StrategyTypeBalanced in *. destruct (Z.eqb_spec s 0); [by right|].
    assert (s = 1%Z ∨ s = 2%Z) as [-> | ->] by lia; auto.
Qed.

(** A price that ChangePrice stored is not zero. *)
Lemma stored_price_nonzero (b q : D) :
  (0 < dval b)%Q →
  price_IsZero (D := D) {| BasePrice := dString b; QuotePrice := dString q |} = false.
Proof.
  intros Hb. assert (dIsZero (parse_or_zero (dString b)) = false) as Hz.
  { apply dIsZero_false. rewrite parse_print. lra. }
  unfold price_IsZero. case_bool_decide as E.
  - unfold empty_price in E. injection E as Eb _. rewrite Eb in Hz.
    apply dIsZero_false in Hz. by rewrite parse_empty in Hz.
  - unfold GetBasePrice. cbn. by rewrite Hz.
Qed.

(** Each kind of update keeps the invariant. *)
Lemma wf_set_Tradable b m :
  market_wf m →
  (b = true → IsStrategyPluggable m = true → price_IsZero (D := D) (Price m) = false) →
  market_wf (set_Tradable b m).
Proof. intros [] ?. by split. Qed.

Lemma wf_set_Strategy s p m :
  market_wf m → s = StrategyTypePluggable ∨ s = StrategyTypeBalanced →
  (Tradable m = true → s = StrategyTypePluggable → price_IsZero (D := D) p = false) →
  market_wf (set_Strategy s p m).
Proof. intros [] ? Hp. split; try done. intros ? Hs%Z.eqb_eq. by apply Hp. Qed.

Lemma wf_set_Fees pf ff m : market_wf m → fees_wf pf ff → market_wf (set_Fees pf ff m).
Proof. intros [] ?. by split. Qed.

Lemma wf_set_Precision b q m :
  market_wf m → (0 ≤ b ≤ 8)%Z → (0 ≤ q ≤ 8)%Z → market_wf (set_Precision b q m).
Proof. intros [] ? ?. by split. Qed.

Lemma new_fixed_fee v old :
  is_i64 v → is_u64 old ∧ (-1 ≤ i64 old)%Z →
  let f := if (0 <=? v)%Z then u64 v else old in is_u64 f ∧ (-1 ≤ i64 f)%Z.
Proof.
  intros Hv Hold f. unfold f. destruct (Z.leb_spec 0 v); [|done].
  unfold is_i64 in Hv. rewrite u64_id by (unfold is_u64; lia).
  rewrite i64_id by done. unfold is_u64. lia.
Qed.

Lemma new_precision v old :
  (0 <=? v)%Z && negb (isValidPrecision (u64 v)) = false → (0 ≤ old ≤ 8)%Z →
  (0 ≤ (if (0 <=? v)%Z then u64 v else old) ≤ 8)%Z.
Proof.
  intros E ?. destruct (0 <=? v)%Z; [|done]. cbn in E. apply negb_false_iff in E.
  apply valid_precision; [apply u64_range | done].
Qed.

Lemma new_percentage v old :
  (0 ≤ v ≤ 9999)%Z → (0 ≤ (if (0 <=? v)%Z then u64 v else old) ≤ 9999)%Z.
Proof.
  intros ?. destruct (Z.leb_spec 0 v); [|lia]. rewrite u64_id; unfold is_u64; lia.
Qed.

Lemma apply_op_wf op m m' :
  market_wf m → op_args_ok op → apply_op op m = Ret m' → market_wf m'.
Proof.
  intros Hwf Hargs HA. destruct (wf_fees _ Hwf).
  destruct op; cbn in Hargs, HA;
    unfold MakeTradable, MakeNotTradable, MakeStrategyPluggable, MakeStrategyBalanced,
      ChangePercentageFee, ChangeFixedFee, ChangePrice, ChangeAssetPrecision, IsTradable in HA;
    go_inv HA.
  - apply wf_set_Tradable; [done|]. intros _ Hp.
    apply andb_false_iff in Heqb as [|]; congruence.
  - by apply wf_set_Tradable.
  - apply wf_set_Strategy; [done | by left | congruence].
  - apply wf_set_Strategy; [done | by right | congruence].
  - apply negb_false_iff, valid_percentage in Heqb1 as [? ?].
    apply wf_set_Fees; [done|]. split; cbn; auto using new_percentage.
  - destruct Hargs. apply wf_set_Fees; [done|]. split; cbn; auto using new_fixed_fee.
  - apply wf_set_Strategy; [done | apply Hwf |]. intros _ _. dec_facts.
    by apply stored_price_nonzero.
  - destruct Hwf. apply wf_set_Precision; [by split | |]; by apply new_precision.
Qed.

(** C3: every market built by NewMarket and changed by its methods is well
    formed: 32-byte hex assets, percentage fees in [0, 9999], fixed fees a
    uint64 whose int64 reading is at least -1, precisions in [0, 8], a known
    strategy, and a non-zero price whenever it is open with the pluggable
    strategy. *)
Theorem reachable_market_wf m : market_reachable m → market_wf m.
Proof. induction 1; eauto using NewMarket_wf, apply_op_wf. Qed.

(** Everything but status and price. *)
Definition config (m : Market) :=
  (BaseAsset m, QuoteAsset m, Name m, BaseAssetPrecision m, QuoteAssetPrecision m,
   PercentageFee m, FixedFee m, StrategyType m).

(** An open market is frozen: strategy, fees and precisions can only be
    changed after pausing it, and no operation changes them meanwhile. *)
Theorem open_market_frozen m op :
  Tradable m = true →
  match op with
  | OpMakeStrategyPluggable | OpMakeStrategyBalanced
  | OpChangePercentageFee _ _ | OpChangeFixedFee _ _ | OpChangeAssetPrecision _ _ =>
      apply_op op m = Err ErrMarketIsOpen
  | OpMakeTradable | OpMakeNotTradable | OpChangePrice _ _ =>
      ∀ m', apply_op op m = Ret m' → config m' = config m
  end.
Proof.
  intros Ht. destruct op; cbn;
    unfold MakeStrategyPluggable, MakeStrategyBalanced, ChangePercentageFee, ChangeFixedFee,
      ChangeAssetPrecision, MakeTradable, ChangePrice, IsTradable; rewrite ?Ht; try done.
  all: intros m' HR; go_inv HR; done.
Qed.
End invariant.

(** * Previews, fees and prices *)

Section pricing.
Context {D : Type} `{DecimalLaws D}.
Local Open Scope Q_scope.

(** [x] of the smallest unit of an asset with precision [p], in whole units. *)
Definition units (x p : Z) : Q := inject_Z x / ten (Z.to_nat p).

Lemma Div_units x p : (0 <= p <= 8)%Z →
  ∃ q : D, Div x (Pow10_u64 p) = Ret q ∧ dval q == units x p.
Proof.
  intros Hp. destruct (Div_pow10 (D := D) x (Z.to_nat p)) as (q & E & V); [lia|].
  rewrite Z2Nat.id in E by lia. by exists q.
Qed.

Lemma units_lt x y p : units x p < units y p ↔ (x < y)%Z.
Proof.
  pose proof (ten_pos (Z.to_nat p)) as Ht. pose proof (Qinv_lt_0_compat _ Ht).
  unfold units, Qdiv. rewrite Zlt_Qlt. split; intros; nra.
Qed.
Lemma units_pos x p : 0 < units x p ↔ (0 < x)%Z.
Proof. rewrite <- (units_lt 0 x p). unfold units. change (inject_Z 0 / _) with (0 * / ten (Z.to_nat p)). by rewrite Qmult_0_l. Qed.
Lemma units_zero x p : units x p == 0 ↔ x = 0%Z.
Proof.
  pose proof (ten_pos (Z.to_nat p)) as Ht. unfold units. split.
  - intros E. apply inject_Z_injective.
    rewrite <- (Qmult_div_r (inject_Z x) (ten (Z.to_nat p))) by lra. rewrite E.
    change (inject_Z 0) with 0. ring.
  - intros ->. unfold Qdiv. change (inject_Z 0) with 0. ring.
Qed.

Lemma float_pow10 p : (0 <= p <= 8)%Z → dval (NewFromFloat 1 p : D) == ten (Z.to_nat p).
Proof.
  intros Hp. rewrite val_float by lia. unfold ten. rewrite Z2Nat.id by lia.
  change (10 # 1) with (inject_Z 10). rewrite <- Zpower_Qpower by lia.
  change (inject_Z 1) with 1. ring.
Qed.

Lemma strategy_safe m : FormulaSafe (strategy (D := D) m).
Proof. unfold strategy. destruct (_ =? _)%Z; [apply pluggable_safe | apply balanced_safe]. Qed.

(** What a returned preview was computed from. *)
Lemma Preview_inv m bB qB amount asset feeAsset isBuy info
    (isBase := bool_decide (asset = BaseAsset m))
    (pIn := if isBase then BaseAssetPrecision m else QuoteAssetPrecision m)
    (pOut := if isBase then QuoteAssetPrecision m else BaseAssetPrecision m) :
  market_wf (D := D) m →
  Preview (D := D) m bB qB amount asset feeAsset isBuy = Ret info →
  ∃ (args : formula_opts D) (a prev : D),
    Tradable m = true ∧
    (if IsStrategyPluggable m then formulaOptsForPluggable m bB qB isBase isBuy
     else formulaOptsForBalanced m bB qB isBase isBuy) = Ret args ∧
    dval a == units amount pIn ∧
    formula m isBase isBuy args a = Ret prev ∧
    pi_Asset info = (if isBase then QuoteAsset m else BaseAsset m) ∧
    pi_Amount info = big_Uint64 (Ztrunc (dval prev * ten (Z.to_nat pOut))) ∧
    pi_Amount info ≠ 0%Z ∧
    previewFees (D := D) m
      (default 0%Z (<[pi_Asset info := pi_Amount info]> ({[asset := amount]} : gmap string Z) !! feeAsset))
      feeAsset isBuy = Ret (pi_FeeAmount info).
Proof.
  intros Hwf HP. unfold Preview in HP. fold isBase pIn pOut in HP.
  assert (0 <= pIn <= 8 ∧ 0 <= pOut <= 8)%Z as [HpI HpO].
  { destruct Hwf. unfold pIn, pOut. by destruct isBase. }
  destruct (negb (IsTradable m)) eqn:Ht; [done|]. apply negb_false_iff in Ht.
  destruct (_ && _); [done|]. destruct (_ && _); [done|].
  apply bind_Ret_inv in HP as (args & Hargs & HP).
  apply bind_Ret_inv in HP as (price & _ & HP).
  apply bind_Ret_inv in HP as (a & Ha & HP).
  apply bind_Ret_inv in HP as (prev & Hprev & HP).
  assert (dBigInt (dMul prev (NewFromFloat 1 pOut))
          = Ztrunc (dval prev * ten (Z.to_nat pOut))) as Esats
    by (by rewrite bigint_val, val_mul, float_pow10).
  rewrite Esats in HP.
  destruct (Z.eqb_spec (big_Uint64 (Ztrunc (dval prev * ten (Z.to_nat pOut)))) 0); [done|].
  apply bind_Ret_inv in HP as (fee & Hfee & HP). injection HP as <-. cbn.
  destruct (Div_units amount pIn HpI) as (a' & Ea & Va).
  assert (a = a') as -> by congruence.
  by exists args, a', prev.
Qed.

(** The output reserve given to a formula, whatever the strategy. *)
Lemma formula_opts_reserve m bB qB isBase isBuy args :
  market_wf (D := D) m →
  (if IsStrategyPluggable m then formulaOptsForPluggable m bB qB isBase isBuy
   else formulaOptsForBalanced m bB qB isBase isBuy) = Ret args →
  dval (opts_BalanceOut args) ==
    if isBuy then units bB (BaseAssetPrecision m) else units qB (QuoteAssetPrecision m).
Proof.
  intros Hwf. unfold formulaOptsForPluggable, formulaOptsForBalanced, formula_balances.
  destruct (Div_units bB (BaseAssetPrecision m)) as (b & -> & Vb); [apply Hwf|].
  destruct (Div_units qB (QuoteAssetPrecision m)) as (q & -> & Vq); [apply Hwf|].
  destruct (IsStrategyPluggable m), isBuy; cbn; intros [= <-]; done.
Qed.

Lemma Ztrunc_scaled_lt v y p :
  0 < v → v < units y p → (0 <= Ztrunc (v * ten (Z.to_nat p)) < y)%Z.
Proof.
  intros Hv Hlt. pose proof (ten_pos (Z.to_nat p)) as Ht. unfold units in Hlt.
  assert (v * ten (Z.to_nat p) < inject_Z y) as Hlt'.
  { rewrite <- (Qmult_div_r (inject_Z y) (ten (Z.to_nat p))) by lra. nra. }
  assert (0 <= v * ten (Z.to_nat p)) as Hnn by nra.
  split; [by apply Ztrunc_nonneg|]. rewrite Zlt_Qlt. destruct (Ztrunc_floor _ Hnn). lra.
Qed.

(** The amounts of a preview against the reserve that pays them. *)
Lemma preview_reserve_bound m bB qB amount asset feeAsset isBuy info
    (isBase := bool_decide (asset = BaseAsset m)) :
  market_wf (D := D) m → is_u64 bB → is_u64 qB → is_u64 amount →
  Preview (D := D) m bB qB amount asset feeAsset isBuy = Ret info →
  Tradable m = true ∧
  pi_Asset info = (if isBase then QuoteAsset m else BaseAsset m) ∧
  (0 < pi_Amount info < 2 ^ 64)%Z ∧
  (0 <= (if xorb isBuy isBase then pi_Amount info else amount)
     < (if isBuy then bB else qB))%Z.
Proof.
  intros Hwf Hb Hq Hamt HP.
  destruct (Preview_inv m bB qB amount asset feeAsset isBuy info Hwf HP)
    as (args & a & prev & Ht & Hargs & Ha & Hform & Hasset & Hval & Hnz & _).
  fold isBase in Hargs, Ha, Hform, Hasset, Hval.
  pose proof (formula_opts_reserve _ _ _ _ _ _ Hwf Hargs) as Hres.
  pose proof (u64_range (Z.abs (Ztrunc (dval prev * ten (Z.to_nat
    (if isBase then QuoteAssetPrecision m else BaseAssetPrecision m)))))) as Hrange.
  fold (big_Uint64 (Ztrunc (dval prev * ten (Z.to_nat
    (if isBase then QuoteAssetPrecision m else BaseAssetPrecision m))))) in Hrange.
  rewrite <- Hval in Hrange. unfold is_u64 in Hrange, Hb, Hq, Hamt.
  split_and!; try done; try lia;
    unfold formula in Hform; destruct isBuy, isBase; cbn [xorb] in *; try lia.
  all: first [ apply (in_safe _ (strategy_safe m)) in Hform as [_ Hlt];
               rewrite Ha, Hres, units_lt in Hlt; lia
             | apply (out_safe _ (strategy_safe m)) in Hform as [Hpos Hlt];
               rewrite Hres in Hlt; pose proof (Ztrunc_scaled_lt _ _ _ Hpos Hlt);
               rewrite Hval, big_Uint64_id; unfold is_u64; lia ].
Qed.

(** C5: a preview never promises more than the market holds: whichever of the
    two amounts the market would pay out, it is below the reserve of that
    asset, in the smallest unit, for both strategies; the previewed asset is
    the other one of the pair and its amount is a positive uint64. *)
Theorem preview_within_reserve m bB qB amount asset feeAsset isBuy info
    (isBase := bool_decide (asset = BaseAsset m)) :
  market_wf (D := D) m → is_u64 bB → is_u64 qB → is_u64 amount →
  Preview (D := D) m bB qB amount asset feeAsset isBuy = Ret info →
  Tradable m = true ∧
  pi_Asset info = (if isBase then QuoteAsset m else BaseAsset m) ∧
  (0 < pi_Amount info < 2 ^ 64)%Z ∧
  (0 <= (if xorb isBuy isBase then pi_Amount info else amount)
     < (if isBuy then bB else qB))%Z.
Proof. exact (preview_reserve_bound m bB qB amount asset feeAsset isBuy info). Qed.

(** The reserves the balanced strategy is given. *)
Lemma balanced_opts_inv m bB qB isBase isBuy args
    (uB := units bB (BaseAssetPrecision m)) (uQ := units qB (QuoteAssetPrecision m)) :
  market_wf (D := D) m → formulaOptsForBalanced m bB qB isBase isBuy = Ret args →
  ∃ bi bo : D, args = BalancedArgs (Build_BalancedReservesOpts bi bo 0 0) ∧
    dval bi == (if isBuy then uQ else uB) ∧ dval bo == (if isBuy then uB else uQ).
Proof.
  intros Hwf. unfold formulaOptsForBalanced, formula_balances.
  destruct (Div_units bB (BaseAssetPrecision m)) as (b & -> & Vb); [apply Hwf|].
  destruct (Div_units qB (QuoteAssetPrecision m)) as (q & -> & Vq); [apply Hwf|].
  destruct isBuy; cbn; intros [= <-]; eauto 6.
Qed.

Lemma strategy_balanced m : IsStrategyPluggable m = false → strategy (D := D) m = Balanced.formula.
Proof. unfold strategy, IsStrategyPluggable. by intros ->. Qed.

(** Scaling the exact amount back to the smallest unit removes the precisions. *)
Lemma exact_out_units rIn rOut amount pIn pOut :
  (0 < rIn)%Z → (0 < amount)%Z →
  Balanced.exact_out (units rIn pIn) (units rOut pOut) (units amount pIn) * ten (Z.to_nat pOut)
  == inject_Z (rOut * amount) / inject_Z (rIn + amount).
Proof.
  intros Hr Ha. pose proof (ten_pos (Z.to_nat pIn)). pose proof (ten_pos (Z.to_nat pOut)).
  assert (0 < inject_Z rIn) by (change 0 with (inject_Z 0); by rewrite <- Zlt_Qlt).
  assert (0 < inject_Z amount) by (change 0 with (inject_Z 0); by rewrite <- Zlt_Qlt).
  unfold Balanced.exact_out, units. rewrite inject_Z_mult, inject_Z_plus.
  field. repeat split; lra.
Qed.

(** C6: with the balanced strategy, when the amount given is what the trader
    sends, the previewed amount is the exact constant-product amount
    rOut*amount/(rIn+amount) of the smallest unit up to the tolerance of the
    quote and the final truncation, whatever the precisions of the assets. *)
Theorem preview_balanced_accurate m (bB qB amount : Z) asset feeAsset (isBuy : bool) info
    (isBase := bool_decide (asset = BaseAsset m))
    (rIn := if isBuy then qB else bB) (rOut := if isBuy then bB else qB)
    (pOut := if isBuy then BaseAssetPrecision m else QuoteAssetPrecision m)
    (exact := inject_Z (rOut * amount) / inject_Z (rIn + amount))
    (tol := Balanced.tolerance (units rOut pOut) * ten (Z.to_nat pOut)) :
  market_wf (D := D) m → IsStrategyPluggable m = false →
  (0 < bB < 2 ^ 64)%Z → (0 < qB < 2 ^ 64)%Z → xorb isBuy isBase = true →
  Preview (D := D) m bB qB amount asset feeAsset isBuy = Ret info →
  exact - tol - 1 < inject_Z (pi_Amount info) <= exact + tol.
Proof.
  intros Hwf Hbal Hb Hq Hdir HP.
  destruct (Preview_inv m bB qB amount asset feeAsset isBuy info Hwf HP)
    as (args & a & prev & _ & Hargs & Ha & Hform & _ & Hval & _ & _).
  fold isBase in Hargs, Ha, Hform, Hval. rewrite Hbal in Hargs.
  destruct (balanced_opts_inv _ _ _ _ _ _ Hwf Hargs) as (bi & bo & -> & Vi & Vo).
  unfold formula in Hform. rewrite (strategy_balanced m Hbal) in Hform.
  assert (Balanced.OutGivenIn (BalancedArgs (Build_BalancedReservesOpts bi bo 0 0)) a = Ret prev)
    as HO by (destruct isBuy, isBase; done).
  assert (0 < dval bi ∧ 0 < dval bo) as [Hbi Hbo].
  { rewrite Vi, Vo. destruct isBuy; split; apply units_pos; lia. }
  destruct (out_safe _ balanced_safe (BalancedArgs (Build_BalancedReservesOpts bi bo 0 0)) _ _ HO)
    as [Hpos Hlt]. cbn in Hlt.
  destruct (out_given_in_error _ _ _ _ _ _ Hbi Hbo HO) as [Hapos Herr].
  assert (dval bo == units rOut pOut) as Vo' by (unfold rOut, pOut; destruct isBuy; exact Vo).
  set (pIn := if isBuy then QuoteAssetPrecision m else BaseAssetPrecision m).
  assert (dval bi == units rIn pIn) as Vi' by (unfold rIn, pIn; destruct isBuy; exact Vi).
  assert (dval a == units amount pIn) as Va by (unfold pIn; destruct isBuy, isBase; done).
  assert (pi_Amount info = big_Uint64 (Ztrunc (dval prev * ten (Z.to_nat pOut)))) as Hval'
    by (unfold pOut; destruct isBuy, isBase; done).
  rewrite Va in Hapos. apply units_pos in Hapos.
  rewrite Vi', Vo', Va in Herr. rewrite Vo' in Hlt.
  pose proof (Ztrunc_scaled_lt _ _ _ Hpos Hlt) as Hrange.
  pose proof (ten_pos (Z.to_nat pOut)) as Ht.
  assert (0 <= dval prev * ten (Z.to_nat pOut)) as Hnn by nra.
  rewrite Hval', big_Uint64_id by (unfold is_u64, rOut in *; destruct isBuy; lia).
  destruct (Ztrunc_floor _ Hnn) as [Hfl Hfu]. clear Hval Hval'.
  assert (rIn > 0)%Z as HrIn by (unfold rIn; destruct isBuy; lia).
  pose proof (exact_out_units rIn rOut amount pIn pOut ltac:(lia) Hapos) as Hexact.
  fold exact in Hexact. apply Qabs_Qle_condition in Herr as [Hlo Hhi]. unfold tol.
  set (e := Balanced.exact_out _ _ _) in *. set (t := Balanced.tolerance _) in *.
  set (k := ten (Z.to_nat pOut)) in *. split; nra.
Qed.

Lemma Ztrunc_div a b : (0 <= a)%Z → (0 < b)%Z → Ztrunc (inject_Z a / inject_Z b) = (a / b)%Z.
Proof.
  intros Ha Hb. assert (inject_Z a / inject_Z b == a # Z.to_pos b) as ->.
  { rewrite (Qmake_Qdiv a (Z.to_pos b)), Z2Pos.id by lia. done. }
  unfold Ztrunc. assert (Qle_bool 0 (a # Z.to_pos b) = true) as ->.
  { apply Qle_bool_iff. unfold Qle; cbn. lia. }
  cbn. by rewrite Z2Pos.id by lia.
Qed.

(** fees in closed form: for an amount that fits an int64, the fee is
    floor(amount * percentage / 10000) plus the fixed fee of the asset, modulo
    2^64, and the preview is refused exactly when the fee is to be subtracted
    and would consume the whole amount. *)
Theorem preview_fees_closed_form m (amount : Z) asset (isBuy : bool)
    (isQuote := bool_decide (asset = QuoteAsset m))
    (pct := if isQuote then fee_QuoteAsset (PercentageFee m) else fee_BaseAsset (PercentageFee m))
    (fixed := if isQuote then fee_QuoteAsset (FixedFee m) else fee_BaseAsset (FixedFee m))
    (fee := u64 (amount * pct / 10000 + fixed)) :
  market_wf (D := D) m → (0 <= amount < 2 ^ 63)%Z →
  previewFees (D := D) m amount asset isBuy =
    if feesToSubtract m asset isBuy && (amount <=? fee)%Z
    then Err ErrMarketPreviewAmountTooLow else Ret fee.
Proof.
  intros Hwf Hamt. unfold previewFees. fold isQuote pct fixed.
  assert (0 <= pct <= 9999)%Z as Hpct.
  { destruct Hwf as [_ _ [] _ _ _ _]. unfold pct. by destruct isQuote. }
  rewrite (i64_u64 pct), (i64_u64 amount) by lia.
  change 10000%Z with (10 ^ Z.of_nat 4)%Z at 1.
  destruct (Div_pow10 (D := D) pct 4) as (f & Ef & Vf); [lia|].
  unfold Div in Ef. rewrite Ef. cbn [mbind outcome_bind].
  assert (dBigInt (dMul (NewFromInt amount) f) = (amount * pct / 10000)%Z) as ->.
  { rewrite bigint_val, val_mul, val_int, Vf. change 10000%Z with (10 ^ Z.of_nat 4)%Z.
    rewrite <- Ztrunc_div by lia. apply Ztrunc_proper. fold (ten 4).
    rewrite inject_Z_mult. pose proof (ten_pos 4). field. lra. }
  assert (0 <= amount * pct / 10000 < 2 ^ 64)%Z as Hfee.
  { split; [apply Z.div_pos; lia|]. apply Z.div_lt_upper_bound; nia. }
  rewrite big_Uint64_id by exact Hfee. done.
Qed.

(** the price of a balanced market.  It is refused when a reserve is
    empty; otherwise the quote price is the ratio of the reserves rounded to 8
    decimals and the base price its rounded inverse, and the division panics
    exactly when that ratio rounds to zero. *)
Theorem balanced_price_correct m bB qB
    (q := round_at 8 (units qB (QuoteAssetPrecision m) / units bB (BaseAssetPrecision m))) :
  market_wf (D := D) m → IsStrategyPluggable m = false → (0 <= bB)%Z → (0 <= qB)%Z →
  match market_SpotPrice (D := D) m bB qB with
  | Ret p => (0 < bB)%Z ∧ (0 < qB)%Z ∧ 0 < q ∧
      dval (GetQuotePrice p : D) == q ∧ dval (GetBasePrice p : D) == round_at 8 (1 / q)
  | Err e => e = ErrBalanceTooLow ∧ (bB = 0%Z ∨ qB = 0%Z)
  | Panic p => p = DivisionByZero ∧ (0 < bB)%Z ∧ (0 < qB)%Z ∧ q == 0
  end.
Proof.
  intros Hwf Hbal Hb Hq. unfold market_SpotPrice, priceForStrategy, priceFromBalances.
  rewrite Hbal, (strategy_balanced m Hbal).
  destruct (Div_units bB (BaseAssetPrecision m)) as (b & -> & Vb); [apply Hwf|].
  destruct (Div_units qB (QuoteAssetPrecision m)) as (u & -> & Vu); [apply Hwf|].
  cbn [mbind outcome_bind SpotPrice Balanced.formula]. unfold Balanced.SpotPrice; cbn.
  destruct (dEqual b dZero || dEqual u dZero) eqn:Ez; cbn.
  { split; [done|]. apply orb_true_iff in Ez as [E|E]; dec_facts.
    - left. rewrite Vb in E. by apply units_zero in E.
    - right. rewrite Vu in E. by apply units_zero in E. }
  dec_facts. rewrite Vb, units_zero in H1. rewrite Vu, units_zero in H2.
  assert (0 < units bB (BaseAssetPrecision m)) by (apply units_pos; lia).
  assert (0 < units qB (QuoteAssetPrecision m)) by (apply units_pos; lia).
  destruct (DivDecimal_total u b) as (quote & -> & Vquote); [rewrite Vb; lra|]. cbn.
  assert (dval quote == q) as Eq by (unfold q; by rewrite Vquote, Vb, Vu).
  assert (0 <= q) as Hq0.
  { unfold q. apply round_at_nonneg. apply Qle_shift_div_l; lra. }
  unfold DivDecimal at 1. destruct (dIsZero quote) eqn:Eq0; dec_facts; cbn.
  { split_and!; try lia; [done|]. by rewrite <- Eq. }
  rewrite Eq in Eq0. split_and!; try lia.
  - destruct (Qle_lt_or_eq _ _ Hq0); [done|]. by destruct Eq0.
  - unfold GetQuotePrice; cbn. by rewrite parse_print.
  - unfold GetBasePrice; cbn. rewrite parse_print, val_quo by (by rewrite Eq).
    by rewrite val_int, Eq.
Qed.
End pricing.

(** * Concrete markets *)

Module MarketExamples.
Definition base : string := "0000000000000000000000000000000000000000000000000000000000000000".
Definition quote : string := "aaaaaaaaaaaaaaaaaaaaaaaaaaaaaaaaaaaaaaaaaaaaaaaaaaaaaaaaaaaaaaaa".
(** Any 20-byte digest: the examples name their markets. *)
Definition hash160 (_ : list Z) : list Z := repeat 0%Z 20.

(** A balanced market with precisions 8/8 and fees of 25 basis points, open. *)
Definition balanced : Market := {|
  BaseAsset := base; QuoteAsset := quote; Name := "lbtc-usdt";
  BaseAssetPrecision := 8; QuoteAssetPrecision := 8;
  PercentageFee := {| fee_BaseAsset := 25; fee_QuoteAsset := 25 |};
  FixedFee := {| fee_BaseAsset := 650; fee_QuoteAsset := 20000000 |};
  Tradable := true; StrategyType := StrategyTypeBalanced; Price := empty_price |}.

(** The same pair with the pluggable strategy and price 20000. *)
Definition pluggable : Market := {|
  BaseAsset := base; QuoteAsset := quote; Name := "lbtc-usdt";
  BaseAssetPrecision := 8; QuoteAssetPrecision := 8;
  PercentageFee := {| fee_BaseAsset := 25; fee_QuoteAsset := 25 |};
  FixedFee := {| fee_BaseAsset := 650; fee_QuoteAsset := 20000000 |};
  Tradable := true; StrategyType := StrategyTypePluggable;
  Price := {| BasePrice := Fixed.print (Fixed.mk 5 5);
              QuotePrice := Fixed.print (Fixed.mk 20000 0) |} |}.

Lemma balanced_reachable : market_reachable (D := Fixed.t) hash160 balanced.
Proof.
  eapply (reach_op _ OpMakeTradable).
  - eapply (reach_new _ base quote "lbtc-usdt" 25 25 650 20000000 8 8 0);
      [repeat constructor; unfold is_u64; lia | vm_compute; reflexivity].
  - exact I.
  - vm_compute. reflexivity.
Qed.

Lemma pluggable_reachable : market_reachable (D := Fixed.t) hash160 pluggable.
Proof.
  eapply (reach_op _ OpMakeTradable).
  - eapply (reach_op _ (OpChangePrice (Fixed.mk 5 5) (Fixed.mk 20000 0))).
    + eapply (reach_new _ base quote "lbtc-usdt" 25 25 650 20000000 8 8 1);
        [repeat constructor; unfold is_u64; lia | vm_compute; reflexivity].
    + exact I.
    + vm_compute. reflexivity.
  - exact I.
  - vm_compute. reflexivity.
Qed.

Lemma balanced_wf : market_wf (D := Fixed.t) balanced.
Proof.
  split; cbn; auto; done.
Qed.
Lemma pluggable_wf : market_wf (D := Fixed.t) pluggable.
Proof.
  split; cbn; auto; done.
Qed.

Lemma reachable_market_wf_witness :
  market_reachable (D := Fixed.t) hash160 pluggable ∧ market_wf (D := Fixed.t) pluggable.
Proof.
  split; [exact pluggable_reachable|].
  exact (reachable_market_wf hash160 pluggable pluggable_reachable).
Defined.

Lemma open_market_frozen_witness :
  apply_op (D := Fixed.t) (OpChangeFixedFee 0 0) balanced = Err ErrMarketIsOpen.
Proof. exact (open_market_frozen balanced (OpChangeFixedFee 0 0) eq_refl). Defined.

(** Selling 1 base unit into reserves of 10 and 200000. *)
Lemma preview_within_reserve_witness : ∃ info,
  Preview (D := Fixed.t) balanced 1000000000 20000000000000 100000000 base quote false = Ret info ∧
  pi_Amount info = 1818181800000%Z ∧ (0 < pi_Amount info < 2 ^ 64)%Z.
Proof.
  eexists. split; [vm_compute; reflexivity|]. split; [reflexivity|].
  eapply (preview_within_reserve balanced 1000000000 20000000000000 100000000 base quote false).
  - exact balanced_wf.
  - unfold is_u64. lia.
  - unfold is_u64. lia.
  - unfold is_u64. lia.
  - vm_compute. reflexivity.
Defined.

Lemma preview_balanced_accurate_witness : ∃ info,
  Preview (D := Fixed.t) balanced 1000000000 20000000000000 100000000 base quote false = Ret info ∧
  (inject_Z (20000000000000 * 100000000) / inject_Z (1000000000 + 100000000)
     - Balanced.tolerance (units 20000000000000 8) * ten (Z.to_nat 8) - 1
   < inject_Z (pi_Amount info))%Q.
Proof.
  eexists. split; [vm_compute; reflexivity|].
  eapply (preview_balanced_accurate balanced 1000000000 20000000000000 100000000 base quote false).
  - exact balanced_wf.
  - reflexivity.
  - lia.
  - lia.
  - reflexivity.
  - vm_compute. reflexivity.
Defined.

Lemma preview_fees_closed_form_witness :
  previewFees (D := Fixed.t) balanced 1818181800000 quote false
  = Ret (u64 (1818181800000 * 25 / 10000 + 20000000)).
Proof.
  rewrite (preview_fees_closed_form balanced 1818181800000 quote false).
  - vm_compute. reflexivity.
  - exact balanced_wf.
  - lia.
Defined.

Lemma balanced_price_correct_witness :
  ∃ p, market_SpotPrice (D := Fixed.t) balanced 1000000000 20000000000000 = Ret p ∧
    (dval (GetQuotePrice p : Fixed.t) == 20000 # 1)%Q.
Proof.
  pose proof (balanced_price_correct balanced 1000000000 20000000000000
    balanced_wf eq_refl ltac:(lia) ltac:(lia)) as W.
  assert (market_SpotPrice (D := Fixed.t) balanced 1000000000 20000000000000
    = Ret {| BasePrice := "5000e-8"; QuotePrice := "2000000000000e-8" |}) as E
    by (vm_compute; reflexivity).
  rewrite E in W. eexists. split; [exact E|].
  destruct W as (_ & _ & _ & W & _). rewrite W. vm_compute. reflexivity.
Defined.
End MarketExamples.

(** * Where the code does not do what it means to *)

(** A balanced market that holds 10 base units and a single sat of quote
    asset makes both SpotPrice and Preview panic: the quote price rounds to zero
    and is then divided by. *)
Theorem skewed_market_panics :
  market_reachable (D := Fixed.t) MarketExamples.hash160 MarketExamples.balanced ∧
  market_SpotPrice (D := Fixed.t) MarketExamples.balanced 1000000000 1 = Panic DivisionByZero ∧
  Preview (D := Fixed.t) MarketExamples.balanced 1000000000 1 100000000
    MarketExamples.base MarketExamples.quote false = Panic DivisionByZero.
Proof.
  split; [exact MarketExamples.balanced_reachable|].
  split; vm_compute; reflexivity.
Qed.

(** The amount a buyer must pay is cut to 64 bits without a check.  With
    reserves of 100 base and 1000000 quote units, buying all the base reserve but
    18070 sats needs 553402431101.27 quote units, and the preview asks for
    108889.98345152 of them: what is left of the amount modulo 2^64. *)
Theorem preview_amount_wraps :
  market_reachable (D := Fixed.t) MarketExamples.hash160 MarketExamples.balanced ∧
  (∃ info, Preview (D := Fixed.t) MarketExamples.balanced
      10000000000 100000000000000 (10000000000 - 18070)
      MarketExamples.base MarketExamples.quote true = Ret info ∧
    pi_Amount info = 10888998345152%Z) ∧
  Balanced.InGivenOut (BalancedArgs (Build_BalancedReservesOpts
      (Fixed.mk 1000000 0) (Fixed.mk 100 0) 0 0)) (Fixed.mk (10000000000 - 18070) 8)
    = Ret (Fixed.mk 55340243110127000000 8) ∧
  u64 55340243110127000000 = 10888998345152%Z.
Proof.
  split; [exact MarketExamples.balanced_reachable|].
  split; [eexists; split; vm_compute; reflexivity|].
  split; vm_compute; reflexivity.
Qed.
