(* ===== verification/Trade.v ===== *)
(** The trade entity and the swap messages it carries:
    internal/core/domain/trade.go and swap.go.

    State: the record [Trade].  Every method is an [action] on it, since a
    method may change the trade and still report a failure.  The clock
    (time.Now, in nanoseconds) and the random ids are explicit arguments, one
    per reading.  The swap parser is the interface [SwapParser].  Theorems: the
    invariant of the life cycle, the order of its states, the guards of each
    transition, and the transitions the code leaves unguarded. *)

From Stdlib Require Import ZArith Lia QArith Lqa.
From stdpp Require Import base tactics strings list.
From S2P Require Import Prelude Errors Decimal Formula Market.
Import Mathutil.

(** * Swap messages *)

Abbreviation bytes := (list Z).

Record UnblindedInput := {
  ui_Index : Z; ui_Asset : string; ui_Amount : Z;
  ui_AssetBlinder : string; ui_AmountBlinder : string }.

Record SwapTransactionDetails := { td_PsetBase64 : string; td_TxHex : string; td_Txid : string }.

Record Swap := { sw_Id : string; sw_Message : bytes; sw_Timestamp : Z }.

Record SwapRequest := {
  sr_Id : string; sr_AssetP : string; sr_AssetR : string;
  sr_AmountP : Z; sr_AmountR : Z; sr_Transaction : string;
  sr_FeeAsset : string; sr_FeeAmount : Z; sr_UnblindedInputs : list UnblindedInput }.

Record SwapAccept := {
  sa_Id : string; sa_RequestId : string; sa_Transaction : string;
  sa_UnblindedInputs : list UnblindedInput }.

Record SwapComplete := { sc_Id : string; sc_AcceptId : string; sc_Transaction : string }.

Record SwapFail := {
  sf_Id : string; sf_MessageId : string; sf_FailureCode : Z; sf_FailureMessage : string }.

#[global] Instance Swap_eq_dec : EqDecision Swap.
Proof. solve_decision. Defined.

(** The domain's SwapParser interface.  An error code is negative on success;
    [rnd] is the random id the implementation draws.  The methods that read a
    transaction may panic. *)
Class SwapParser := {
  SerializeRequest (rnd : string) (r : SwapRequest) : outcome error (bytes * Z);
  SerializeAccept (rnd : string) (reqMsg : bytes) (tx : string) (ins : list UnblindedInput)
    : outcome error (string * bytes * Z);
  SerializeComplete (rnd : string) (accMsg : bytes) (tx : string) : string * bytes * Z;
  SerializeFail (rnd : string) (id : string) (code : Z) : string * bytes;
  DeserializeRequest (msg : bytes) (feeAsset : string) (feeAmount : Z) : SwapRequest;
  DeserializeAccept (msg : bytes) : SwapAccept;
  DeserializeComplete (msg : bytes) : SwapComplete;
  DeserializeFail (msg : bytes) : SwapFail;
  ParseSwapTransaction (tx : string) : outcome error (option SwapTransactionDetails * Z);
}.

(** * The trade *)

Definition TradeStatusCodeUndefined : Z := 0.
Definition TradeStatusCodeProposal : Z := 1.
Definition TradeStatusCodeAccepted : Z := 2.
Definition TradeStatusCodeCompleted : Z := 3.
Definition TradeStatusCodeSettled : Z := 4.
Definition TradeStatusCodeExpired : Z := 5.
Definition TradeBuy : Z := 0.
Definition TradeSell : Z := 1.

(** The keys of the tradeTypes map. *)
Definition known_trade_type (t : Z) : bool := (t =? TradeBuy)%Z || (t =? TradeSell)%Z.
Definition TradeType_String (t : Z) : string :=
  if (t =? TradeBuy)%Z then "BUY" else if (t =? TradeSell)%Z then "SELL" else "UNKNOWN".

Record TradeStatus := { Code : Z; Failed : bool }.

Record Trade := {
  tr_Id : string;
  tr_Type : Z;
  tr_MarketName : string;
  tr_MarketBaseAsset : string;
  tr_MarketQuoteAsset : string;
  tr_MarketPrice : MarketPrice;
  tr_MarketPercentageFee : MarketFee;
  tr_MarketFixedFee : MarketFee;
  tr_FeeAsset : string;
  tr_FeeAmount : Z;
  tr_TraderPubkey : bytes;
  tr_Status : TradeStatus;
  tr_PsetBase64 : string;
  tr_TxId : string;
  tr_TxHex : string;
  tr_ExpiryTime : Z;
  tr_SettlementTime : Z;
  tr_SwapRequest : option Swap;
  tr_SwapAccept : option Swap;
  tr_SwapComplete : option Swap;
  tr_SwapFail : option Swap }.

Definition zero_fee : MarketFee := {| fee_BaseAsset := 0; fee_QuoteAsset := 0 |}.

Definition zero_Trade (id : string) : Trade := {|
  tr_Id := id; tr_Type := 0; tr_MarketName := ""; tr_MarketBaseAsset := "";
  tr_MarketQuoteAsset := ""; tr_MarketPrice := empty_price;
  tr_MarketPercentageFee := zero_fee; tr_MarketFixedFee := zero_fee;
  tr_FeeAsset := ""; tr_FeeAmount := 0; tr_TraderPubkey := [];
  tr_Status := {| Code := TradeStatusCodeUndefined; Failed := false |};
  tr_PsetBase64 := ""; tr_TxId := ""; tr_TxHex := ""; tr_ExpiryTime := 0;
  tr_SettlementTime := 0; tr_SwapRequest := None; tr_SwapAccept := None;
  tr_SwapComplete := None; tr_SwapFail := None |}.

(** Updates of the fields a transition writes. *)
Definition set_failed (f : option Swap) (t : Trade) : Trade :=
  let '(Build_Trade a b c d e g h i j k l st m n o p q r s u _) := t in
  Build_Trade a b c d e g h i j k l {| Code := Code st; Failed := true |} m n o p q r s u f.
Definition set_code (code : Z) (t : Trade) : Trade :=
  let '(Build_Trade a b c d e g h i j k l st m n o p q r s u f) := t in
  Build_Trade a b c d e g h i j k l {| Code := code; Failed := Failed st |} m n o p q r s u f.
Definition set_accept (pset : string) (expiry : Z) (s : Swap) (t : Trade) : Trade :=
  let '(Build_Trade a b c d e g h i j k l st _ n o _ q r _ u f) := t in
  Build_Trade a b c d e g h i j k l st pset n o expiry q r (Some s) u f.
Definition set_complete (pset txid txhex : string) (s : Swap) (t : Trade) : Trade :=
  let '(Build_Trade a b c d e g h i j k l st _ _ _ p q r v _ f) := t in
  Build_Trade a b c d e g h i j k l st pset txid txhex p q r v (Some s) f.
Definition set_times (expiry settlement : Z) (t : Trade) : Trade :=
  let '(Build_Trade a b c d e g h i j k l st m n o _ _ r v u f) := t in
  Build_Trade a b c d e g h i j k l st m n o expiry settlement r v u f.
Definition set_request (s : Swap) (price : MarketPrice) (pct fixed : MarketFee) (t : Trade)
    : Trade :=
  let '(Build_Trade a b c d e _ _ _ j k l st m n o p q _ v u f) := t in
  Build_Trade a b c d e price pct fixed j k l st m n o p q (Some s) v u f.

(** ** Time *)
Definition nanos (unix : Z) : Z := unix * 1000000000.
Definition unix_of (now : Z) : Z := now / 1000000000.

(** ** Predicates *)
Definition code_is (c : Z) (t : Trade) : bool := (Code (tr_Status t) =? c)%Z.
Definition IsEmpty : Trade → bool := code_is TradeStatusCodeUndefined.
Definition IsProposal : Trade → bool := code_is TradeStatusCodeProposal.
Definition IsAccepted : Trade → bool := code_is TradeStatusCodeAccepted.
Definition IsCompleted : Trade → bool := code_is TradeStatusCodeCompleted.
Definition IsSettled : Trade → bool := code_is TradeStatusCodeSettled.
Definition IsRejected (t : Trade) : bool := Failed (tr_Status t).
Definition IsExpired (now : Z) (t : Trade) : bool :=
  code_is TradeStatusCodeExpired t ||
  ((0 <? tr_ExpiryTime t)%Z && (nanos (tr_ExpiryTime t) <? now)%Z).

Definition ContainsSwap (swapID : string) (t : Trade) : outcome error bool :=
  r ← deref (tr_SwapRequest t);
  if bool_decide (swapID = sw_Id r) then Ret true else
  a ← deref (tr_SwapAccept t);
  if bool_decide (swapID = sw_Id a) then Ret true else
  c ← deref (tr_SwapComplete t);
  Ret (bool_decide (swapID = sw_Id c)).

Section trade.
Context {D : Type} `{DecimalOps D} `{SwapParser}.

(** uuid.New *)
Definition NewTrade (uuid : string) : Trade := zero_Trade uuid.

Definition calculateMarketMarketPrice (swapRequest : SwapRequest) (marketQuoteAsset : string)
    : outcome error MarketPrice :=
  let p : D := NewFromInt (i64 (sr_AmountP swapRequest)) in
  let r : D := NewFromInt (i64 (sr_AmountR swapRequest)) in
  pr ← DivDecimal p r;
  let pricePR := dTruncate pr 8 in
  rp ← DivDecimal r p;
  let priceRP := dTruncate rp 8 in
  Ret (if bool_decide (sr_AssetP swapRequest = marketQuoteAsset)
       then {| BasePrice := dString priceRP; QuotePrice := dString pricePR |}
       else {| BasePrice := dString pricePR; QuotePrice := dString priceRP |}).

Definition Fail (rnd swapID : string) (errCode : Z) (t : Trade) : Trade :=
  if Failed (tr_Status t) then t
  else
    let '(id, msg) := SerializeFail rnd swapID errCode in
    set_failed (Some {| sw_Id := id; sw_Message := msg; sw_Timestamp := 0 |}) t.

(** The fields Propose writes before it serializes the request. *)
Definition set_proposal (tradeType : Z) (r : SwapRequest) (name base quote : string)
    (pubkey : bytes) (timestamp : Z) (t : Trade) : Trade := {|
  tr_Id := tr_Id t; tr_Type := tradeType; tr_MarketName := name;
  tr_MarketBaseAsset := base; tr_MarketQuoteAsset := quote;
  tr_MarketPrice := tr_MarketPrice t;
  tr_MarketPercentageFee := tr_MarketPercentageFee t; tr_MarketFixedFee := tr_MarketFixedFee t;
  tr_FeeAsset := sr_FeeAsset r; tr_FeeAmount := sr_FeeAmount r; tr_TraderPubkey := pubkey;
  tr_Status := {| Code := TradeStatusCodeProposal; Failed := Failed (tr_Status t) |};
  tr_PsetBase64 := sr_Transaction r; tr_TxId := tr_TxId t; tr_TxHex := tr_TxHex t;
  tr_ExpiryTime := tr_ExpiryTime t; tr_SettlementTime := tr_SettlementTime t;
  tr_SwapRequest := Some {| sw_Id := sr_Id r; sw_Message := []; sw_Timestamp := timestamp |};
  tr_SwapAccept := tr_SwapAccept t; tr_SwapComplete := tr_SwapComplete t;
  tr_SwapFail := tr_SwapFail t |}.

Definition Propose (now : Z) (rndReq rndFail : string) (tradeType : Z) (swapRequest : SwapRequest)
    (mktName mktBaseAsset mktQuoteAsset : string) (mktPercentageFee mktFixedFee : MarketFee)
    (traderPubkey : bytes) : action Trade error bool := λ t,
  if (TradeStatusCodeProposal <=? Code (tr_Status t))%Z then (t, Ret true)
  else if negb (known_trade_type tradeType) then (t, Err ErrTradeUnknownType)
  else
    let ts := unix_of now in
    let t := set_proposal tradeType swapRequest mktName mktBaseAsset mktQuoteAsset
               traderPubkey ts t in
    match SerializeRequest rndReq swapRequest with
    | Ret (msg, errCode) =>
        if (0 <=? errCode)%Z then (Fail rndFail (sr_Id swapRequest) errCode t, Ret false)
        else
          match calculateMarketMarketPrice swapRequest mktQuoteAsset with
          | Ret price =>
              (set_request {| sw_Id := sr_Id swapRequest; sw_Message := msg; sw_Timestamp := ts |}
                 price mktPercentageFee mktFixedFee t, Ret true)
          | Err e => (t, Err e)
          | Panic p => (t, Panic p)
          end
    | Err e => (t, Err e)
    | Panic p => (t, Panic p)
    end.

Definition Accept (now : Z) (rndAcc rndFail psetBase64 : string)
    (unblindedIns : list UnblindedInput) (expiryTime : Z) : action Trade error bool := λ t,
  if (TradeStatusCodeAccepted <=? Code (tr_Status t))%Z then (t, Ret true)
  else if negb (IsProposal t) then (t, Err ErrTradeMustBeProposal)
  else match tr_SwapRequest t with
  | None => (t, Panic NilDereference)
  | Some req =>
      if negb (sw_Timestamp req <? expiryTime)%Z then (t, Err ErrTradeInvalidExpiryTime)
      else
        match SerializeAccept rndAcc (sw_Message req) psetBase64 unblindedIns with
        | Ret (id, msg, errCode) =>
            if (0 <=? errCode)%Z then (Fail rndFail (sw_Id req) errCode t, Ret false)
            else
              (set_code TradeStatusCodeAccepted (set_accept psetBase64 expiryTime
                 {| sw_Id := id; sw_Message := msg; sw_Timestamp := unix_of now |} t), Ret true)
        | Err e => (t, Err e)
        | Panic p => (t, Panic p)
        end
  end.

(** [now] is read by IsExpired, [now'] for the timestamp. *)
Definition Complete (now now' : Z) (rndComp rndFail tx : string) : action Trade error bool := λ t,
  if (TradeStatusCodeCompleted <=? Code (tr_Status t))%Z then (t, Ret true)
  else if negb (IsAccepted t) then (t, Err ErrTradeMustBeAccepted)
  else if IsExpired now t then (set_failed (tr_SwapFail t) t, Err ErrTradeExpired)
  else match tr_SwapAccept t with
  | None => (t, Panic NilDereference)
  | Some acc =>
      match ParseSwapTransaction tx with
      | Err e => (t, Err e)
      | Panic p => (t, Panic p)
      | Ret (txDetails, errCode) =>
      if (0 <=? errCode)%Z then (Fail rndFail (sw_Id acc) errCode t, Ret false)
      else
        let '(id, msg, errCode) := SerializeComplete rndComp (sw_Message acc) tx in
        if (0 <=? errCode)%Z then (Fail rndFail (sw_Id acc) errCode t, Ret false)
        else match txDetails with
        | None => (t, Panic NilDereference)
        | Some d =>
            let pset := if bool_decide (tr_PsetBase64 t = ""%string) then ""%string
                        else td_PsetBase64 d in
            (set_code TradeStatusCodeCompleted (set_complete pset (td_Txid d) (td_TxHex d)
               {| sw_Id := id; sw_Message := msg; sw_Timestamp := unix_of now' |} t), Ret true)
        end
      end
  end.

Definition Settle (settlementTime : Z) : action Trade error bool := λ t,
  if code_is TradeStatusCodeSettled t then (t, Ret true)
  else if negb (IsCompleted t || IsAccepted t) || Failed (tr_Status t)
  then (t, Err ErrTradeMustBeCompletedOrAccepted)
  else (set_code TradeStatusCodeSettled (set_times 0 settlementTime t), Ret true).

Definition Expire (now : Z) : action Trade error bool := λ t,
  if code_is TradeStatusCodeExpired t then (t, Ret true)
  else if (tr_ExpiryTime t <=? 0)%Z then (t, Err ErrTradeNullExpiryTime)
  else if (now <? nanos (tr_ExpiryTime t))%Z then (t, Err ErrTradeExpiryTimeNotReached)
  else (set_code TradeStatusCodeExpired t, Ret true).

(** Messages of a trade; [None] is the nil pointer. *)
Definition SwapRequestMessage (t : Trade) : outcome error (option SwapRequest) :=
  if IsEmpty t then Ret None
  else s ← deref (tr_SwapRequest t);
       Ret (Some (DeserializeRequest (sw_Message s) (tr_FeeAsset t) (tr_FeeAmount t))).
Definition SwapAcceptMessage (t : Trade) : outcome error (option SwapAccept) :=
  if IsEmpty t || IsProposal t then Ret None
  else s ← deref (tr_SwapAccept t); Ret (Some (DeserializeAccept (sw_Message s))).
Definition SwapCompleteMessage (t : Trade) : outcome error (option SwapComplete) :=
  if negb (IsCompleted t) then Ret None
  else s ← deref (tr_SwapComplete t); Ret (Some (DeserializeComplete (sw_Message s))).
Definition SwapFailMessage (t : Trade) : outcome error (option SwapFail) :=
  if negb (IsRejected t) then Ret None
  else s ← deref (tr_SwapFail t); Ret (Some (DeserializeFail (sw_Message s))).

(** * Life cycle *)

Inductive trade_op :=
  | OpPropose (now : Z) (rndReq rndFail : string) (ty : Z) (r : SwapRequest)
      (name base quote : string) (pct fixed : MarketFee) (pk : bytes)
  | OpAccept (now : Z) (rndAcc rndFail pset : string) (ins : list UnblindedInput) (expiry : Z)
  | OpComplete (now now' : Z) (rndComp rndFail tx : string)
  | OpSettle (time : Z)
  | OpFail (rnd id : string) (code : Z)
  | OpExpire (now : Z).

Definition run_op (op : trade_op) : action Trade error bool :=
  match op with
  | OpPropose now rq rf ty r n b q pct fx pk => Propose now rq rf ty r n b q pct fx pk
  | OpAccept now ra rf pset ins e => Accept now ra rf pset ins e
  | OpComplete now now' rc rf tx => Complete now now' rc rf tx
  | OpSettle time => Settle time
  | OpFail rnd id code => λ t, (Fail rnd id code t, Ret true)
  | OpExpire now => Expire now
  end.

(** One call that returns, with or without an error. *)
Inductive trade_step (t : Trade) : Trade → Prop :=
  | step_ret op t' b : run_op op t = (t', Ret b) → trade_step t t'
  | step_err op t' e : run_op op t = (t', Err e) → trade_step t t'.

Inductive trade_reachable : Trade → Prop :=
  | reach_NewTrade uuid : trade_reachable (NewTrade uuid)
  | reach_step t t' : trade_reachable t → trade_step t t' → trade_reachable t'.
End trade.

#[global] Arguments set_proposal : simpl never.
#[global] Arguments set_request : simpl never.

(** * Theorems *)

Create HintDb trade.
Create Rewrite HintDb trade.

Section lifecycle.
Context {D : Type} `{DecimalLaws D} `{SwapParser}.

Lemma Code_set_failed f t : Code (tr_Status (set_failed f t)) = Code (tr_Status t).
Proof. by destruct t. Qed.
Lemma Code_set_code c t : Code (tr_Status (set_code c t)) = c.
Proof. by destruct t. Qed.
Lemma Code_Fail rnd id c t : Code (tr_Status (Fail rnd id c t)) = Code (tr_Status t).
Proof.
  unfold Fail. destruct (Failed (tr_Status t)); [done|].
  destruct (SerializeFail rnd id c). apply Code_set_failed.
Qed.

Lemma Code_set_proposal ty r n b q pk ts t :
  Code (tr_Status (set_proposal ty r n b q pk ts t)) = TradeStatusCodeProposal.
Proof. done. Qed.
Lemma Code_set_request s p pct fx t : Code (tr_Status (set_request s p pct fx t)) = Code (tr_Status t).
Proof. by destruct t. Qed.
#[local] Hint Rewrite Code_set_failed Code_set_code Code_Fail Code_set_proposal Code_set_request : trade.

(** The invariant: which messages and times a trade has in each state. *)
Record trade_wf (t : Trade) : Prop := {
  wf_code : (0 ≤ Code (tr_Status t) ≤ 5)%Z;
  wf_request : (1 ≤ Code (tr_Status t))%Z → is_Some (tr_SwapRequest t);
  wf_accept : (2 ≤ Code (tr_Status t))%Z → is_Some (tr_SwapAccept t);
  wf_complete : Code (tr_Status t) = 3%Z → is_Some (tr_SwapComplete t);
  wf_no_expiry : (Code (tr_Status t) < 2)%Z → tr_ExpiryTime t = 0%Z;
  wf_settled : Code (tr_Status t) = 4%Z → tr_ExpiryTime t = 0%Z;
  (** an accepted or completed trade expires after it was proposed *)
  wf_expiry : Code (tr_Status t) = 2%Z ∨ Code (tr_Status t) = 3%Z →
    ∃ s, tr_SwapRequest t = Some s ∧ (sw_Timestamp s < tr_ExpiryTime t)%Z;
}.

(** Marking a trade as failed changes none of this. *)
Lemma wf_set_failed f t : trade_wf t → trade_wf (set_failed f t).
Proof. destruct t as [????????????[]]; intros []; split; done. Qed.
Lemma wf_Fail rnd id c t : trade_wf t → trade_wf (Fail rnd id c t).
Proof.
  intros. unfold Fail. destruct (Failed (tr_Status t)); [done|].
  destruct (SerializeFail rnd id c). by apply wf_set_failed.
Qed.

Lemma wf_NewTrade uuid : trade_wf (NewTrade uuid).
Proof. split; cbn; unfold TradeStatusCodeUndefined; try lia; intros [|]; lia. Qed.

Lemma wf_set_proposal ty r n b q pk ts t :
  trade_wf t → (Code (tr_Status t) < 1)%Z → trade_wf (set_proposal ty r n b q pk ts t).
Proof.
  intros [] Hc. split; unfold set_proposal; cbn; unfold TradeStatusCodeProposal; try lia; try done.
Qed.

Lemma wf_set_request s p pct fx t :
  trade_wf t → Code (tr_Status t) = 1%Z → trade_wf (set_request s p pct fx t).
Proof.
  destruct t; intros [] Hc; cbn in *; split; unfold set_request; cbn; rewrite ?Hc in *; try lia; done.
Qed.

Lemma wf_set_accepted pset e s r t :
  trade_wf t → Code (tr_Status t) = 1%Z → tr_SwapRequest t = Some r → (sw_Timestamp r < e)%Z →
  trade_wf (set_code TradeStatusCodeAccepted (set_accept pset e s t)).
Proof.
  destruct t; intros [] Hc Hr He; cbn in *. subst. split; cbn; unfold TradeStatusCodeAccepted; try lia; eauto.
Qed.

Lemma wf_set_completed pset txid hex s t :
  trade_wf t → Code (tr_Status t) = 2%Z →
  trade_wf (set_code TradeStatusCodeCompleted (set_complete pset txid hex s t)).
Proof.
  destruct t; intros [] Hc; cbn in *. rewrite Hc in *.
  split; cbn; unfold TradeStatusCodeCompleted; try lia; eauto with lia.
Qed.

Lemma wf_set_settled time t :
  trade_wf t → Code (tr_Status t) = 2%Z ∨ Code (tr_Status t) = 3%Z →
  trade_wf (set_code TradeStatusCodeSettled (set_times 0 time t)).
Proof.
  destruct t; intros [] Hc; cbn in *.
  split; cbn; unfold TradeStatusCodeSettled; try lia; eauto with lia.
Qed.

Lemma wf_set_expired t :
  trade_wf t → (0 < tr_ExpiryTime t)%Z → trade_wf (set_code TradeStatusCodeExpired t).
Proof.
  destruct t; intros [] Hc; cbn in *.
  assert (2 ≤ Code tr_Status0)%Z as H2.
  { destruct (decide (Code tr_Status0 < 2)%Z); [rewrite wf_no_expiry0 in Hc by done; lia | lia]. }
  split; cbn; unfold TradeStatusCodeExpired; try lia; intros _.
  - apply wf_request0. lia.
  - apply wf_accept0. lia.
Qed.

#[local] Hint Resolve wf_set_failed wf_Fail wf_set_proposal wf_set_request wf_set_accepted
  wf_set_completed wf_set_settled wf_set_expired : trade.

(** Turns the guards of a method into facts about the status code. *)
Ltac trade_facts :=
  unfold IsProposal, IsAccepted, IsCompleted, IsSettled, IsEmpty, IsExpired, code_is,
    TradeStatusCodeUndefined, TradeStatusCodeProposal, TradeStatusCodeAccepted,
    TradeStatusCodeCompleted, TradeStatusCodeSettled, TradeStatusCodeExpired in *;
  zify_bool.

Lemma run_op_wf op t t' o : trade_wf t → run_op op t = (t', o) → trade_wf t'.
Proof.
  intros Hwf HR. destruct op; cbn [run_op] in HR;
    unfold Propose, Accept, Complete, Settle, Expire in HR; go_inv HR; trade_facts;
    eauto with trade lia.
Qed.

Lemma trade_step_wf t t' : trade_wf t → trade_step t t' → trade_wf t'.
Proof. intros Hwf [op ?? HR|op ?? HR]; by eapply run_op_wf. Qed.

(** C4: every trade the life cycle can produce is well formed: it has the swap
    request once proposed, the swap accept once accepted, the swap complete once
    completed; its expiration date is unset before acceptance and after
    settlement, and after the proposal in between. *)
Theorem reachable_trade_wf t : trade_reachable t → trade_wf t.
Proof. induction 1; eauto using wf_NewTrade, trade_step_wf. Qed.

(** The status code after each operation. *)
Lemma run_op_code op t t' o :
  trade_wf t → run_op op t = (t', o) →
  (Code (tr_Status t) ≤ Code (tr_Status t'))%Z ∧
  ((4 ≤ Code (tr_Status t))%Z → Code (tr_Status t') = Code (tr_Status t)).
Proof.
  intros [Hcode _ _ _ Hno Hset _] HR. destruct op; cbn [run_op] in HR;
    unfold Propose, Accept, Complete, Settle, Expire in HR; go_inv HR; trade_facts;
    autorewrite with trade; unfold TradeStatusCodeProposal; lia.
Qed.

(** C7: the status of a trade only moves forward (proposal, accepted,
    completed, settled or expired), and settled and expired are final. *)
Theorem status_moves_forward t t' :
  trade_reachable t → trade_step t t' →
  (Code (tr_Status t) ≤ Code (tr_Status t'))%Z ∧
  ((4 ≤ Code (tr_Status t))%Z → Code (tr_Status t') = Code (tr_Status t)).
Proof.
  intros Hr Hs. assert (trade_wf t) as Hwf.
  { clear Hs. induction Hr; eauto using wf_NewTrade, trade_step_wf. }
  destruct Hs as [op ?? HR|op ?? HR]; by eapply run_op_code.
Qed.

(** a trade becomes settled only through Settle, from accepted or
    completed, when it has not failed; the expiration date is then unset and the
    settlement time recorded. *)
Theorem settled_only_from_live_trade op t t' o :
  run_op op t = (t', o) → Code (tr_Status t) ≠ 4%Z → Code (tr_Status t') = 4%Z →
  (∃ time, op = OpSettle time ∧ tr_SettlementTime t' = time ∧ tr_ExpiryTime t' = 0%Z) ∧
  (Code (tr_Status t) = 2%Z ∨ Code (tr_Status t) = 3%Z) ∧ Failed (tr_Status t) = false.
Proof.
  intros HR Hn H4. destruct op; cbn [run_op] in HR;
    unfold Propose, Accept, Complete, Settle, Expire in HR; go_inv HR; trade_facts;
    autorewrite with trade in H4; try done; try lia.
  split.
  - eexists. split; [done|]. by destruct t.
  - apply orb_true_iff in H2 as [?|?]; zify_bool; auto.
Qed.

(** a trade becomes completed only through Complete on an accepted trade
    whose expiration date has not passed, with the transaction the parser
    returned and the swap complete message it serialized. *)
Theorem completed_only_before_expiry op t t' o :
  run_op op t = (t', o) → Code (tr_Status t) ≠ 3%Z → Code (tr_Status t') = 3%Z →
  ∃ now now' rc rf tx d ok acc id msg, op = OpComplete now now' rc rf tx ∧
    Code (tr_Status t) = 2%Z ∧
    ((0 < tr_ExpiryTime t)%Z → (now ≤ nanos (tr_ExpiryTime t))%Z) ∧
    ParseSwapTransaction tx = Ret (Some d, ok) ∧ (ok < 0)%Z ∧ tr_TxHex t' = td_TxHex d ∧ tr_TxId t' = td_Txid d ∧
    tr_SwapAccept t = Some acc ∧ fst (SerializeComplete rc (sw_Message acc) tx) = (id, msg) ∧
    tr_SwapComplete t' = Some {| sw_Id := id; sw_Message := msg; sw_Timestamp := unix_of now' |}.
Proof.
  intros HR Hn H3. destruct op; cbn [run_op] in HR;
    unfold Propose, Accept, Complete, Settle, Expire in HR; go_inv HR; trade_facts;
    autorewrite with trade in H3; try done; try lia.
  do 10 eexists. split; [done|]. split_and!; try done.
  - intros He. destruct (Z.ltb_spec 0 (tr_ExpiryTime t)); [|lia]. cbn in *. zify_bool. lia.
  - by destruct t.
  - by destruct t.
  - match goal with E : SerializeComplete _ _ _ = _ |- _ => by rewrite E end.
  - by destruct t.
Qed.
End lifecycle.

(** * Concrete life cycles *)

Module TradeExamples.
(** A parser that accepts every message and every non-empty transaction. *)
#[global] Instance parser : SwapParser := {
  SerializeRequest _ _ := Ret ([1%Z], -1)%Z;
  SerializeAccept rnd _ _ _ := Ret (rnd, [2%Z], -1)%Z;
  SerializeComplete rnd _ _ := (rnd, [3%Z], -1)%Z;
  SerializeFail rnd _ _ := (rnd, [4%Z]);
  DeserializeRequest _ feeAsset feeAmount :=
    {| sr_Id := "req"; sr_AssetP := "P"; sr_AssetR := "R"; sr_AmountP := 30000; sr_AmountR := 10000;
       sr_Transaction := "pset"; sr_FeeAsset := feeAsset; sr_FeeAmount := feeAmount;
       sr_UnblindedInputs := [] |};
  DeserializeAccept _ :=
    {| sa_Id := "acc"; sa_RequestId := "req"; sa_Transaction := "pset"; sa_UnblindedInputs := [] |};
  DeserializeComplete _ := {| sc_Id := "cmp"; sc_AcceptId := "acc"; sc_Transaction := "tx" |};
  DeserializeFail _ :=
    {| sf_Id := "fail"; sf_MessageId := "acc"; sf_FailureCode := 5; sf_FailureMessage := "" |};
  ParseSwapTransaction tx :=
    if bool_decide (tx = ""%string) then Ret (None, 3%Z)
    else Ret (Some {| td_PsetBase64 := tx; td_TxHex := "hex"; td_Txid := "txid" |}, (-1)%Z);
}.

Definition request : SwapRequest := {|
  sr_Id := "req"; sr_AssetP := "P"; sr_AssetR := "R"; sr_AmountP := 30000; sr_AmountR := 10000;
  sr_Transaction := "pset"; sr_FeeAsset := "P"; sr_FeeAmount := 75; sr_UnblindedInputs := [] |}.

Definition OpP : trade_op :=
  OpPropose (nanos 1000) "r1" "r2" TradeBuy request "mkt" "R" "P" zero_fee zero_fee [].
Definition OpA : trade_op := OpAccept (nanos 1001) "acc" "r3" "signed" [] 1600.
Definition OpC : trade_op := OpComplete (nanos 1100) (nanos 1101) "cmp" "r4" "finaltx".

(** A sequence of calls, none of which panics. *)
Fixpoint run (ops : list trade_op) (t : Trade) : option Trade :=
  match ops with
  | [] => Some t
  | op :: ops =>
      match run_op (D := Fixed.t) op t with
      | (_, Panic _) => None
      | (t', _) => run ops t'
      end
  end.

Lemma run_reachable ops t t' :
  trade_reachable (D := Fixed.t) t → run ops t = Some t' → trade_reachable (D := Fixed.t) t'.
Proof.
  revert t. induction ops as [|op ops IH]; cbn; intros t Ht; [by intros [= <-]|].
  destruct (run_op op t) as [t1 [b|e|p]] eqn:E; intros HR; [| |done].
  - eapply IH; [|done]. eapply reach_step; [done|]. by eapply step_ret.
  - eapply IH; [|done]. eapply reach_step; [done|]. by eapply step_err.
Qed.

Definition completed : option Trade := run [OpP; OpA; OpC] (NewTrade "id").

Lemma reachable_trade_wf_witness : ∃ t, completed = Some t ∧ trade_wf t ∧ tr_TxId t = "txid"%string.
Proof.
  eexists. split; [reflexivity|]. split; [|reflexivity].
  apply reachable_trade_wf. eapply (run_reachable [OpP; OpA; OpC]); [constructor|]. reflexivity.
Defined.

Lemma status_moves_forward_witness :
  ∃ t t', run [OpP] (NewTrade "id") = Some t ∧ run [OpA] t = Some t' ∧
    (Code (tr_Status t) ≤ Code (tr_Status t'))%Z.
Proof.
  eexists _, _. split; [reflexivity|]. split; [reflexivity|].
  apply status_moves_forward.
  - eapply (run_reachable [OpP]); [constructor|]. reflexivity.
  - apply (step_ret _ OpA _ true). reflexivity.
Defined.

Lemma settled_only_from_live_trade_witness :
  ∃ t t', completed = Some t ∧ run_op (D := Fixed.t) (OpSettle 1700) t = (t', Ret true) ∧
    Failed (tr_Status t) = false.
Proof.
  eexists _, _. split; [reflexivity|]. split; [reflexivity|].
  eapply (settled_only_from_live_trade (D := Fixed.t) (OpSettle 1700));
    [reflexivity | discriminate | reflexivity].
Defined.

Lemma completed_only_before_expiry_witness :
  ∃ t t', run [OpP; OpA] (NewTrade "id") = Some t ∧ run_op (D := Fixed.t) OpC t = (t', Ret true) ∧
    Code (tr_Status t) = 2%Z.
Proof.
  eexists _, _. split; [reflexivity|]. split; [reflexivity|].
  destruct (completed_only_before_expiry (D := Fixed.t) OpC
    (default (NewTrade "") (run [OpP; OpA] (NewTrade "id")))
    (default (NewTrade "") (run [OpP; OpA; OpC] (NewTrade "id"))) (Ret true))
    as (? & ? & ? & ? & ? & ? & ? & ? & ? & ? & _ & HC & _);
    [reflexivity | discriminate | reflexivity | exact HC].
Defined.
End TradeExamples.

(** * Where the code does not do what it means to *)

(** Completing an accepted trade too late marks it as failed without a
    swap fail message, and reading that message then dereferences nil: whatever
    the trade, if it is accepted, not failed and past its expiration date, then
    Complete followed by SwapFailMessage panics. *)
Theorem late_complete_panics `{SwapParser} now now' rc rf tx t :
  IsAccepted t = true → IsExpired now t = true → tr_SwapFail t = None →
  let '(t', o) := Complete now now' rc rf tx t in
  o = Err ErrTradeExpired ∧ Failed (tr_Status t') = true ∧ SwapFailMessage t' = Panic NilDereference.
Proof.
  intros Ha He Hf. unfold Complete. rewrite Ha, He.
  apply Z.eqb_eq in Ha. rewrite Ha. cbn. rewrite Hf. by destruct t.
Qed.

Lemma late_complete_panics_witness :
  ∃ t, TradeExamples.run [TradeExamples.OpP; TradeExamples.OpA] (NewTrade "id") = Some t ∧
    snd (Complete (nanos 1601) (nanos 1601) "c" "f" "tx" t) = Err ErrTradeExpired ∧
    SwapFailMessage (fst (Complete (nanos 1601) (nanos 1601) "c" "f" "tx" t)) = Panic NilDereference.
Proof.
  eexists. split; [reflexivity|].
  pose proof (late_complete_panics (nanos 1601) (nanos 1601) "c" "f" "tx"
    (default (NewTrade "") (TradeExamples.run [TradeExamples.OpP; TradeExamples.OpA] (NewTrade "id")))
    eq_refl eq_refl eq_refl) as (W1 & _ & W2).
  split; [exact W1 | exact W2].
Defined.

(** Failing an accepted trade, for instance because the counter-party
    aborted it, does not stop it: Complete still brings it to completed with its
    transaction, after which it can never be settled. *)
Theorem failed_trade_completes_unsettled :
  ∃ t, TradeExamples.run [TradeExamples.OpP; TradeExamples.OpA; OpFail "f" "acc" 5; TradeExamples.OpC]
         (NewTrade "id") = Some t ∧
    trade_reachable (D := Fixed.t) t ∧
    IsCompleted t = true ∧ IsRejected t = true ∧ tr_TxHex t = "hex"%string ∧
    ∀ time, Settle time t = (t, Err ErrTradeMustBeCompletedOrAccepted).
Proof.
  eexists. split; [reflexivity|]. split.
  { eapply (TradeExamples.run_reachable
      [TradeExamples.OpP; TradeExamples.OpA; OpFail "f" "acc" 5; TradeExamples.OpC]);
      [constructor | reflexivity]. }
  split_and!; reflexivity.
Qed.

(** Complete reports success for a trade that has expired, changing
    nothing: an expired trade satisfies the guard that was meant for trades that
    are already completed. *)
Theorem complete_accepts_expired `{SwapParser} now now' rc rf tx t :
  Code (tr_Status t) = TradeStatusCodeExpired →
  Complete now now' rc rf tx t = (t, Ret true) ∧ IsExpired now t = true.
Proof.
  intros Hc. unfold Complete, IsExpired, code_is. by rewrite Hc.
Qed.

Lemma complete_accepts_expired_witness :
  ∃ t, TradeExamples.run [TradeExamples.OpP; TradeExamples.OpA; OpExpire (nanos 1601)] (NewTrade "id")
         = Some t ∧
    Complete (nanos 1700) (nanos 1700) "c" "f" "tx" t = (t, Ret true).
Proof.
  eexists. split; [reflexivity|]. apply complete_accepts_expired. reflexivity.
Defined.
