(* ===== verification/Exchange.v ===== *)
(** pkg/price-feeder: the clients of the exchanges Kraken, Bitfinex and
    Coinbase.

    The three services share all but the messages they exchange: what they share
    is written once, over the record [exchange] of what differs.  A message is the
    value encoding/json decodes it to; the websocket connection is the class
    [WsConn].  The goroutine of each service is modelled by what it does with
    one message ([on_message]) and with a lost connection ([reconnect]). *)

From Stdlib Require Import ZArith QArith Lqa Lia.
From stdpp Require Import base tactics strings list gmap.
From S2P Require Import Prelude Errors Decimal Formula.
Local Open Scope Z_scope.

(** * Messages *)

(** What encoding/json makes of a message; a number is the float64 written
    [m * 10^e]. *)
Inductive json :=
  | JNull
  | JBool (b : bool)
  | JNumber (m e : Z)
  | JString (s : string)
  | JArray (l : list json)
  | JObject (fields : list (string * json)).

(** The value of a key, the last one when it is repeated. *)
Definition field (o : list (string * json)) (k : string) : option json :=
  snd <$> last (filter (λ kv, kv.1 = k) o).

(** json.Unmarshal into []interface{} and map[string]interface{}; the message
    is [None] when it is not JSON. *)
Definition Unmarshal_array (msg : option json) : option (list json) :=
  match msg with Some (JArray l) => Some l | Some JNull => Some [] | _ => None end.
Definition Unmarshal_object (msg : option json) : option (list (string * json)) :=
  match msg with Some (JObject o) => Some o | Some JNull => Some [] | _ => None end.

(** Type assertions [x.(string)] and so on, of a possibly missing value. *)
Definition as_string (j : option json) : option string :=
  match j with Some (JString s) => Some s | _ => None end.
Definition as_array (j : option json) : option (list json) :=
  match j with Some (JArray l) => Some l | _ => None end.
Definition as_object (j : option json) : option (list (string * json)) :=
  match j with Some (JObject o) => Some o | _ => None end.
Definition as_number (j : option json) : option (Z * Z) :=
  match j with Some (JNumber m e) => Some (m, e) | _ => None end.
(** [int(x)] of a float64 *)
Definition float_int (x : Z * Z) : Z :=
  if x.2 <? 0 then Z.quot x.1 (10 ^ (- x.2)) else x.1 * 10 ^ x.2.
(** The assertion without the second result. *)
Definition must {E A} (o : option A) : outcome E A :=
  match o with Some a => Ret a | None => Panic TypeAssertion end.

(** * The services *)

(** pricefeeder.Market *)
Record FeedMarket := { fm_BaseAsset : string; fm_QuoteAsset : string; fm_Ticker : string }.
#[global] Instance FeedMarket_eq_dec : EqDecision FeedMarket.
Proof. solve_decision. Defined.

(** pricefeeder.PriceFeed with its Price *)
Record PriceFeed (D : Type) := { pf_Market : FeedMarket; pf_BasePrice : D; pf_QuotePrice : D }.
Arguments pf_Market {D} _.
Arguments pf_BasePrice {D} _.
Arguments pf_QuotePrice {D} _.

(** The websocket connection: WriteMessage and WriteJSON. *)
Class WsConn (C : Type) := { WriteJSON : json → action C error () }.

Section services.
Context {D : Type} `{DecimalOps D} {C : Type} `{WsConn C} `{MapOrder}.

(** The fields of the service; the ids of the tickers are Bitfinex's. *)
Record service := {
  conn : C;
  marketsByTicker : gmap string FeedMarket;
  lastFeedByTicker : gmap string (PriceFeed D);
  tickersById : gmap Z string;
  idsByTicker : gmap string Z }.

Definition NewService (c : C) : service := {|
  conn := c; marketsByTicker := ∅; lastFeedByTicker := ∅; tickersById := ∅; idsByTicker := ∅ |}.

Definition set_conn (c : C) (s : service) : service := {|
  conn := c; marketsByTicker := marketsByTicker s; lastFeedByTicker := lastFeedByTicker s;
  tickersById := tickersById s; idsByTicker := idsByTicker s |}.
Definition set_markets (m : gmap string FeedMarket) (s : service) : service := {|
  conn := conn s; marketsByTicker := m; lastFeedByTicker := lastFeedByTicker s;
  tickersById := tickersById s; idsByTicker := idsByTicker s |}.
Definition set_feeds (m : gmap string (PriceFeed D)) (s : service) : service := {|
  conn := conn s; marketsByTicker := marketsByTicker s; lastFeedByTicker := m;
  tickersById := tickersById s; idsByTicker := idsByTicker s |}.
Definition set_ids (byId : gmap Z string) (byTicker : gmap string Z) (s : service) : service := {|
  conn := conn s; marketsByTicker := marketsByTicker s; lastFeedByTicker := lastFeedByTicker s;
  tickersById := byId; idsByTicker := byTicker |}.

Definition write (j : json) : action service error () := λ s,
  let '(c, o) := WriteJSON j (conn s) in (set_conn c s, o).

Definition addMarkets (markets : list FeedMarket) (s : service) : service :=
  set_markets (foldl (λ m mkt, <[fm_Ticker mkt := mkt]> m) (marketsByTicker s) markets) s.
Definition removeMarkets (markets : list FeedMarket) (s : service) : service :=
  set_markets (foldl (λ m mkt, delete (fm_Ticker mkt) m) (marketsByTicker s) markets) s.
Definition getMarkets (s : service) : list FeedMarket := range_values (marketsByTicker s).
Definition getMarketByTicker (s : service) (ticker : string) : option FeedMarket :=
  marketsByTicker s !! ticker.
Definition getMarketTickers (s : service) : list string := (range_items (marketsByTicker s)).*1.
Definition updatePriceFeed (ticker : string) (feed : PriceFeed D) (s : service) : service :=
  if bool_decide (ticker = "") then s else set_feeds (<[ticker := feed]> (lastFeedByTicker s)) s.
Definition getPriceFeed (s : service) (ticker : string) : option (PriceFeed D) :=
  lastFeedByTicker s !! ticker.
Definition removeFeeds (tickers : list string) (s : service) : service :=
  set_feeds (foldl (λ m t, delete t m) (lastFeedByTicker s) tickers) s.

(** What the three services do differently. *)
Record exchange := {
  subscribe : list string → action service error ();
  unsubscribe : list string → action service error ();
  removeTickers : list string → service → service;
  parseFeed : option json → action service error (option (PriceFeed D)) }.

Definition SubscribeMarkets (ex : exchange) (markets : list FeedMarket) : action service error () :=
  s ← get_state;
  let marketsToAdd := filter (λ mkt, getMarketByTicker s (fm_Ticker mkt) = None) markets in
  _ ← subscribe ex (fm_Ticker <$> marketsToAdd);
  s ← get_state;
  put_state (addMarkets marketsToAdd s).

Definition UnsubscribeMarkets (ex : exchange) (markets : list FeedMarket) : action service error () :=
  s ← get_state;
  let marketsToRemove := filter (λ mkt, is_Some (getMarketByTicker s (fm_Ticker mkt))) markets in
  let tickers := fm_Ticker <$> marketsToRemove in
  _ ← unsubscribe ex tickers;
  s ← get_state;
  put_state (removeTickers ex tickers (removeMarkets marketsToRemove (removeFeeds tickers s))).

Definition ListSubscriptions (s : service) : list FeedMarket := getMarkets s.

(** One round of the loop of [start]: what is sent on the channel. *)
Definition on_message (ex : exchange) (msg : option json) : action service error (option (PriceFeed D)) :=
  priceFeed ← parseFeed ex msg;
  match priceFeed with
  | None => mret None
  | Some feed =>
      let ticker := fm_Ticker (pf_Market feed) in
      s ← get_state;
      if match getPriceFeed s ticker with
         | Some lastFeed => dEqual (pf_BasePrice feed) (pf_BasePrice lastFeed)
         | None => false
         end
      then mret None
      else _ ← put_state (updatePriceFeed ticker feed s); mret (Some feed)
  end.

Definition resubscribe (ex : exchange) : action service error () :=
  s ← get_state;
  match getMarketTickers s with
  | [] => mret ()
  | tickers => subscribe ex tickers
  end.

Definition maxReconnectionAttempts : nat := 3.
(** [dial n] is the connection the attempt [n] returns, if any. *)
Definition first_connection (dial : nat → option C) : option C :=
  head (omap dial (seq 0 maxReconnectionAttempts)).
Definition reconnect (ex : exchange) (dial : nat → option C) : action service error () :=
  match first_connection dial with
  | None => lift (Panic LogFatal)
  | Some c =>
      s ← get_state;
      _ ← put_state (set_conn c s);
      res ← try (resubscribe ex);
      match res with inl _ => mret () | inr _ => lift (Panic LogFatal) end
  end.

(** The feed of a price given for one base asset. *)
Definition feed_of (mkt : FeedMarket) (basePrice quotePrice : D) : PriceFeed D :=
  {| pf_Market := mkt; pf_BasePrice := basePrice; pf_QuotePrice := quotePrice |}.

(** ** Kraken *)
Definition kraken_message (event : string) (tickers : list string) : json :=
  JObject [("event", JString event); ("pair", JArray (JString <$> tickers));
           ("subscription", JObject [("name", JString "ticker")])]%string.
(** [decimal.NewFromInt(1).Div(quotePrice).Round(8)] *)
Definition inverse_rounded (quotePrice : D) : outcome error D :=
  p ← Mathutil.DivDecimal (NewFromInt 1) quotePrice; Ret (dRound p 8).
Definition kraken_parse (s : service) (msg : option json) : outcome error (option (PriceFeed D)) :=
  match
    i ← Unmarshal_array msg;
    if bool_decide (length i = 4%nat) then
      ticker ← as_string (i !! 3%nat);
      mkt ← getMarketByTicker s ticker;
      ii ← as_object (i !! 1%nat);
      iii ← as_array (field ii "c");
      priceStr ← as_string (head iii);
      quotePrice ← NewFromString priceStr;
      Some (mkt, quotePrice)
    else None
  with
  | None => Ret None
  | Some (mkt, quotePrice) =>
      basePrice ← inverse_rounded quotePrice; Ret (Some (feed_of mkt basePrice quotePrice))
  end.
Definition kraken : exchange := {|
  subscribe tickers := write (kraken_message "subscribe" tickers);
  unsubscribe tickers := write (kraken_message "unsubscribe" tickers);
  removeTickers _ s := s;
  parseFeed msg := s ← get_state; lift (kraken_parse s msg) |}.

(** ** Coinbase *)
Definition coinbase_message (type : string) (tickers : list string) : json :=
  JObject [("type", JString type); ("product_ids", JArray (JString <$> tickers));
           ("channels", JArray [JString "heartbeat"; JString "ticker"])]%string.
Definition coinbase_parse (s : service) (buf : option json) : outcome error (option (PriceFeed D)) :=
  match
    msg ← Unmarshal_object buf;
    e ← as_string (field msg "type");
    if bool_decide (e = "ticker"%string) then
      ticker ← as_string (field msg "product_id");
      priceStr ← as_string (field msg "price");
      quotePrice ← NewFromString priceStr;
      Some (ticker, quotePrice)
    else None
  with
  | None => Ret None
  | Some (ticker, quotePrice) =>
      basePrice ← inverse_rounded quotePrice;
      Ret (mkt ← getMarketByTicker s ticker; Some (feed_of mkt basePrice quotePrice))
  end.
Definition write_wrapped (format : string) (j : json) : action service error () :=
  res ← try (write j); match res with inl _ => mret () | inr _ => lift (Err (Errorf format)) end.
Definition coinbase : exchange := {|
  subscribe tickers := write_wrapped "cannot subscribe to given markets: %s" (coinbase_message "subscribe" tickers);
  unsubscribe tickers :=
    write_wrapped "cannot unsubscribe to given markets: %s" (coinbase_message "unsubscribe" tickers);
  removeTickers _ s := s;
  parseFeed msg := s ← get_state; lift (coinbase_parse s msg) |}.

(** ** Bitfinex *)
Definition addTickers (id : Z) (ticker : string) (s : service) : service :=
  set_ids (<[id := ticker]> (tickersById s)) (<[ticker := id]> (idsByTicker s)) s.
Definition getTicker (s : service) (id : Z) : option string := tickersById s !! id.
Definition getTickerId (s : service) (ticker : string) : option Z := idsByTicker s !! ticker.

Fixpoint bitfinex_subscribe (tickers : list string) : action service error () :=
  match tickers with
  | [] => mret ()
  | ticker :: tickers =>
      _ ← write_wrapped "cannot subscribe to market %s: %s"
            (JObject [("event", JString "subscribe"); ("channel", JString "ticker");
                      ("symbol", JString ("t" +:+ ticker))]%string);
      bitfinex_subscribe tickers
  end.
Fixpoint bitfinex_unsubscribe (tickers : list string) : action service error () :=
  match tickers with
  | [] => mret ()
  | ticker :: tickers =>
      s ← get_state;
      _ ← match getTickerId s ticker with
          | None => mret ()
          | Some id => write_wrapped "cannot unsubscribe to given markets: %s"
                         (JObject [("event", JString "unsubscribe"); ("chanId", JNumber id 0)]%string)
          end;
      bitfinex_unsubscribe tickers
  end.
Definition bitfinex_removeTickers (tickers : list string) (s : service) : service :=
  foldl (λ s ticker,
    match idsByTicker s !! ticker with
    | Some id => set_ids (delete id (tickersById s)) (delete ticker (idsByTicker s)) s
    | None => s
    end) s tickers.

(** Registers the id of a ticker; the only other outcome is a panic, the
    errors are only logged. *)
Definition parseSubscriptionResponseMsg (m : list (string * json)) : action service error () :=
  match as_string (field m "event") with
  | None => mret ()
  | Some e =>
      if bool_decide (e = "error"%string) then
        _ ← lift (must (as_string (field m "pair"))); _ ← lift (must (as_string (field m "msg"))); mret ()
      else if bool_decide (e = "subscribed"%string ∧ as_string (field m "channel") = Some "ticker"%string) then
        s ← get_state;
        match ticker ← as_string (field m "pair"); _ ← getMarketByTicker s ticker; Some ticker with
        | None => mret ()
        | Some ticker =>
            c ← lift (must (as_number (field m "chanId")));
            put_state (addTickers (float_int c) ticker s)
        end
      else mret ()
  end.
Definition bitfinex_parse (s : service) (i : list json) : outcome error (option (PriceFeed D)) :=
  match
    if bool_decide (length i = 2%nat) then
      c ← as_number (i !! 0%nat);
      ticker ← getTicker s (float_int c);
      mkt ← getMarketByTicker s ticker;
      ii ← as_array (i !! 1%nat);
      if bool_decide (length ii < 10)%nat then None
      else p ← as_number (ii !! 6%nat); Some (mkt, p)
    else None
  with
  | None => Ret None
  | Some (mkt, p) =>
      let quotePrice := dRound (NewFromFloat p.1 p.2) 8 in
      basePrice ← Mathutil.DivDecimal (NewFromInt 1) quotePrice;
      Ret (Some (feed_of mkt basePrice quotePrice))
  end.
Definition bitfinex : exchange := {|
  subscribe := bitfinex_subscribe;
  unsubscribe := bitfinex_unsubscribe;
  removeTickers := bitfinex_removeTickers;
  parseFeed msg :=
    match Unmarshal_object msg, Unmarshal_array msg with
    | Some m, _ => _ ← parseSubscriptionResponseMsg m; mret None
    | None, Some i => s ← get_state; lift (bitfinex_parse s i)
    | None, None => mret None
    end |}.
End services.
Arguments service D C : clear implicits.
Arguments exchange D C : clear implicits.

(** * Theorems *)

Section exchange_theorems.
Context {D : Type} `{DecimalLaws D} {C : Type} `{WsConn C} `{MapOrder}.
Abbreviation Sv := (service D C).
Implicit Types (s : Sv) (ex : exchange D C).

(** Markets and last feeds are left alone. *)
Definition same_maps s s' : Prop :=
  marketsByTicker s' = marketsByTicker s ∧ lastFeedByTicker s' = lastFeedByTicker s.

(** What the shared code relies on: only [parseFeed] and the ids may touch
    the ids, nothing touches the markets; a parsed feed is of a subscribed
    market, and its base price is the inverse of the quote price. *)
Class ExchangeOk ex : Prop := {
  subscribe_frame l s s' o : subscribe ex l s = (s', o) → same_maps s s';
  unsubscribe_frame l s s' o : unsubscribe ex l s = (s', o) → same_maps s s';
  removeTickers_frame l s : same_maps s (removeTickers ex l s);
  parse_frame msg s s' o : parseFeed ex msg s = (s', o) → same_maps s s';
  parse_sound msg s s' feed : parseFeed ex msg s = (s', Ret (Some feed)) →
    (∃ t, marketsByTicker s !! t = Some (pf_Market feed)) ∧
    ¬ (dval (pf_QuotePrice feed) == 0)%Q ∧
    (dval (pf_BasePrice feed) == round_at 8 (1 / dval (pf_QuotePrice feed)))%Q;
}.

Lemma same_maps_refl s : same_maps s s.
Proof. done. Qed.
Lemma same_maps_trans s1 s2 s3 : same_maps s1 s2 → same_maps s2 s3 → same_maps s1 s3.
Proof. unfold same_maps. intros [-> ->] [-> ->]. done. Qed.

Lemma write_frame j s s' o : write j s = (s', o) → same_maps s s'.
Proof. unfold write. destruct (WriteJSON j (conn s)). by intros [= <- <-]. Qed.
Lemma write_wrapped_frame f j s s' o : write_wrapped f j s = (s', o) → same_maps s s'.
Proof.
  unfold write_wrapped, mbind, action_bind, try. destruct (write j s) as [s1 o1] eqn:E.
  apply write_frame in E. destruct o1; by intros [= <- <-].
Qed.

(** ** Prices *)
Lemma div_one (q p : D) : Mathutil.DivDecimal (NewFromInt 1) q = Ret p →
  ¬ (dval q == 0)%Q ∧ (dval p == round_at 8 (1 / dval q))%Q.
Proof.
  unfold Mathutil.DivDecimal. destruct (dIsZero q) eqn:E; dec_facts; [done|]. intros [= <-].
  split; [done|]. rewrite val_quo, val_int by done. done.
Qed.
Lemma round_at_idem n q : (round_at n (round_at n q) == round_at n q)%Q.
Proof. unfold round_at at 2. rewrite round_at_ten by lia. done. Qed.
Lemma inverse_rounded_Ret (q p : D) : inverse_rounded q = Ret p →
  ¬ (dval q == 0)%Q ∧ (dval p == round_at 8 (1 / dval q))%Q.
Proof.
  unfold inverse_rounded. intros (p0 & [Hq Hp]%div_one & [= <-])%bind_Ret_inv. split; [done|].
  rewrite val_round, Hp. apply round_at_idem.
Qed.

#[global] Instance kraken_ok : ExchangeOk kraken.
Proof.
  split; cbn; try (intros; by eapply write_frame); try done.
  - intros msg s s' o. unfold mbind, action_bind, lift; cbn. by intros [= <- <-].
  - intros msg s s' feed. unfold mbind, action_bind, lift; cbn. intros [= <- E]. revert E.
    unfold kraken_parse. destruct (_ : option (FeedMarket * D)) as [[mkt q]|] eqn:Em; [|done].
    intros (p & Hp & [= <-])%bind_Ret_inv. apply inverse_rounded_Ret in Hp as [? ?]. cbn.
    split_and!; [|done..]. simplify_option_eq. eauto.
Qed.

#[global] Instance coinbase_ok : ExchangeOk coinbase.
Proof.
  split; cbn; try (intros; by eapply write_wrapped_frame); try done.
  - intros msg s s' o. unfold mbind, action_bind, lift; cbn. by intros [= <- <-].
  - intros msg s s' feed. unfold mbind, action_bind, lift; cbn. intros [= <- E]. revert E.
    unfold coinbase_parse. destruct (_ : option (string * D)) as [[t q]|]; [|done].
    intros (p & Hp & HR)%bind_Ret_inv. apply inverse_rounded_Ret in Hp as [? ?].
    injection HR as HR. simplify_option_eq. split_and!; [eauto|done..].
Qed.

Lemma bitfinex_subscribe_frame l s s' o : bitfinex_subscribe l s = (s', o) → same_maps s s'.
Proof.
  revert s. induction l as [|t l IH]; intros s; cbn; [by intros [= <- <-]|].
  unfold mbind, action_bind. destruct (write_wrapped _ _ s) as [s1 o1] eqn:E. apply write_wrapped_frame in E.
  destruct o1; intros HR; simplify_eq; [|done..]. apply IH in HR. by eapply same_maps_trans.
Qed.
Lemma bitfinex_unsubscribe_frame l s s' o : bitfinex_unsubscribe l s = (s', o) → same_maps s s'.
Proof.
  revert s. induction l as [|t l IH]; intros s; cbn; [by intros [= <- <-]|].
  unfold mbind, action_bind; cbn. destruct (getTickerId s t) as [id|]; [|apply IH].
  destruct (write_wrapped _ _ s) as [s1 o1] eqn:E. apply write_wrapped_frame in E.
  destruct o1; intros HR; simplify_eq; [|done..]. apply IH in HR. by eapply same_maps_trans.
Qed.
Lemma bitfinex_removeTickers_frame l s : same_maps s (bitfinex_removeTickers l s).
Proof.
  unfold bitfinex_removeTickers. revert s. induction l as [|t l IH]; intros s; cbn; [done|].
  eapply same_maps_trans; [|apply IH]. by destruct (idsByTicker s !! t).
Qed.
Lemma subscription_response_frame m s s' o : parseSubscriptionResponseMsg m s = (s', o) → same_maps s s'.
Proof.
  unfold parseSubscriptionResponseMsg, mbind, action_bind, lift, must, mret, action_ret, put_state.
  destruct (as_string (field m "event")); cbn; [|by intros [= <- <-]].
  repeat case_match; intros; simplify_eq; done.
Qed.

#[global] Instance bitfinex_ok : ExchangeOk bitfinex.
Proof.
  split; cbn.
  - apply bitfinex_subscribe_frame.
  - apply bitfinex_unsubscribe_frame.
  - apply bitfinex_removeTickers_frame.
  - intros msg s s' o. destruct (Unmarshal_object msg), (Unmarshal_array msg);
      unfold mbind, action_bind, lift; cbn; try (by intros [= <- <-]);
      destruct (parseSubscriptionResponseMsg _ s) as [s1 o1] eqn:E; apply subscription_response_frame in E;
      destruct o1; by intros [= <- <-].
  - intros msg s s' feed. destruct (Unmarshal_object msg), (Unmarshal_array msg) as [i|];
      unfold mbind, action_bind, lift; cbn; try (destruct (parseSubscriptionResponseMsg _ s) as [? []]; done);
      [|done]. intros [= <- E]. revert E.
    unfold bitfinex_parse. destruct (_ : option (FeedMarket * (Z * Z))) as [[mkt q]|] eqn:Em; [|done].
    intros (p & Hp & [= <-])%bind_Ret_inv. apply div_one in Hp as [? ?]. cbn.
    split_and!; [|done..]. simplify_option_eq. eauto.
Qed.

(** ** Subscriptions *)

Lemma addMarkets_lookup l (m : gmap string FeedMarket) t :
  foldl (λ m mkt, <[fm_Ticker mkt := mkt]> m) m l !! t
  = match last (filter (λ mkt, fm_Ticker mkt = t) l) with Some mkt => Some mkt | None => m !! t end.
Proof.
  induction l as [|x l IH] using rev_ind; [done|].
  rewrite foldl_snoc, filter_app, filter_cons, filter_nil. case_decide as E.
  - by rewrite last_snoc, E, lookup_insert_eq.
  - by rewrite app_nil_r, lookup_insert_ne.
Qed.
Lemma removeMarkets_lookup {V} (l : list string) (m : gmap string V) t :
  foldl (λ m t, delete t m) m l !! t = if decide (t ∈ l) then None else m !! t.
Proof.
  revert m. induction l as [|x l IH]; intros m; [done|]. cbn [foldl]. rewrite IH.
  destruct (decide (t = x)) as [->|].
  - rewrite lookup_delete_eq. by case_decide; rewrite ?decide_True by left.
  - rewrite lookup_delete_ne by done. repeat case_decide; set_solver.
Qed.
Lemma filter_none {A} (P : A → Prop) `{!∀ x, Decision (P x)} l : (∀ x, ¬ P x) → filter P l = [].
Proof. intros HP. induction l as [|x l IH]; [done|]. by rewrite filter_cons_False, IH. Qed.
Lemma foldl_fmap {A B X} (f : X → B → X) (g : A → B) (l : list A) x :
  foldl (λ x a, f x (g a)) x l = foldl f x (g <$> l).
Proof. revert x. induction l as [|a l IH]; intros x; [done | apply IH]. Qed.

(** Tickers index their markets, and a last feed belongs to a subscribed
    market. *)
Definition service_ok s : Prop :=
  (∀ t m, marketsByTicker s !! t = Some m → fm_Ticker m = t) ∧
  (∀ t f, lastFeedByTicker s !! t = Some f → marketsByTicker s !! t = Some (pf_Market f)).

Lemma service_ok_frame s s' : same_maps s s' → service_ok s → service_ok s'.
Proof. unfold service_ok. by intros [-> ->]. Qed.

(** [SubscribeMarkets] that returns adds the markets whose ticker is new. *)
Lemma SubscribeMarkets_cases ex `{!ExchangeOk ex} l s s' o : SubscribeMarkets ex l s = (s', o) →
  lastFeedByTicker s' = lastFeedByTicker s ∧
  match o with
  | Ret _ => ∀ t, marketsByTicker s' !! t =
      match marketsByTicker s !! t with
      | Some m => Some m
      | None => last (filter (λ mkt, fm_Ticker mkt = t) l)
      end
  | _ => marketsByTicker s' = marketsByTicker s
  end.
Proof.
  unfold SubscribeMarkets, mbind, action_bind; cbn.
  destruct (subscribe _ _ s) as [s1 o1] eqn:E. apply subscribe_frame in E as [Hm Hf].
  destruct o1; [|by intros [= <- <-]..]. unfold put_state. intros [= <- <-]. cbn. split; [done|].
  intros t. rewrite addMarkets_lookup, Hm, list_filter_filter.
  rewrite (list_filter_iff _ (λ mkt, fm_Ticker mkt = t ∧ marketsByTicker s !! t = None)) by naive_solver.
  destruct (marketsByTicker s !! t) as [m|] eqn:Et.
  - rewrite filter_none; [done|]. naive_solver.
  - rewrite (list_filter_iff _ (λ mkt, fm_Ticker mkt = t)) by naive_solver. by destruct (last _).
Qed.

(** [UnsubscribeMarkets] that returns drops their tickers and last feeds. *)
Lemma UnsubscribeMarkets_cases ex `{!ExchangeOk ex} l s s' o : UnsubscribeMarkets ex l s = (s', o) →
  match o with
  | Ret _ => ∀ t,
      marketsByTicker s' !! t = (if decide (t ∈ fm_Ticker <$> l) then None else marketsByTicker s !! t) ∧
      lastFeedByTicker s' !! t =
        (if decide (t ∈ fm_Ticker <$> l ∧ is_Some (marketsByTicker s !! t)) then None
         else lastFeedByTicker s !! t)
  | _ => same_maps s s'
  end.
Proof.
  unfold UnsubscribeMarkets, mbind, action_bind; cbn.
  destruct (unsubscribe _ _ s) as [s1 o1] eqn:E. apply unsubscribe_frame in E as [Hm Hf].
  destruct o1; [|by intros [= <- <-]..]. unfold put_state. intros [= <- <-]. intros t.
  set (l' := filter _ l). destruct (removeTickers_frame (ex := ex) (fm_Ticker <$> l')
    (removeMarkets l' (removeFeeds (fm_Ticker <$> l') s1))) as [-> ->].
  cbn. rewrite (foldl_fmap (λ m t, delete t m) fm_Ticker), !removeMarkets_lookup, Hm, Hf.
  assert (t ∈ fm_Ticker <$> l' ↔ t ∈ fm_Ticker <$> l ∧ is_Some (marketsByTicker s !! t)) as Hl'.
  { unfold l'. rewrite !list_elem_of_fmap. setoid_rewrite list_elem_of_filter.
    unfold getMarketByTicker. split; [intros (x & -> & ? & ?); eauto | intros [(x & -> & ?) ?]; eauto]. }
  split; [|by repeat case_decide; tauto].
  destruct (decide (t ∈ fm_Ticker <$> l')) as [Ha|Ha], (decide (t ∈ fm_Ticker <$> l)) as [Hb|Hb];
    try done; [tauto|].
  destruct (marketsByTicker s !! t) eqn:Et; [|done]. destruct Ha. apply Hl'. eauto.
Qed.

(** ** Reachable services *)
Inductive exchange_op :=
  | OpSubscribe (markets : list FeedMarket)
  | OpUnsubscribe (markets : list FeedMarket)
  | OpMessage (msg : option json)
  | OpReconnect (dial : nat → option C).

Definition run_exchange_op ex (op : exchange_op) : action Sv error (option (PriceFeed D)) :=
  match op with
  | OpSubscribe l => _ ← SubscribeMarkets ex l; mret None
  | OpUnsubscribe l => _ ← UnsubscribeMarkets ex l; mret None
  | OpMessage msg => on_message ex msg
  | OpReconnect dial => _ ← reconnect ex dial; mret None
  end.

(** States after any sequence of calls and messages, failed ones included. *)
Inductive exchange_reachable ex : Sv → Prop :=
  | exchange_new c : exchange_reachable ex (NewService c)
  | exchange_step op s s' o :
      exchange_reachable ex s → run_exchange_op ex op s = (s', o) → exchange_reachable ex s'.

Lemma resubscribe_frame ex `{!ExchangeOk ex} s s' o : resubscribe ex s = (s', o) → same_maps s s'.
Proof.
  unfold resubscribe, mbind, action_bind, get_state.
  destruct (getMarketTickers s); [intros [= <- <-]; done | apply subscribe_frame].
Qed.
Lemma reconnect_frame ex `{!ExchangeOk ex} dial s s' o : reconnect ex dial s = (s', o) → same_maps s s'.
Proof.
  unfold reconnect. destruct (first_connection dial) as [c|]; [|by intros [= <- <-]].
  unfold mbind, action_bind, try, put_state, get_state.
  destruct (resubscribe ex (set_conn c s)) as [s1 o1] eqn:E. apply resubscribe_frame in E; [|done].
  destruct o1; by intros [= <- <-].
Qed.

(** What one message may lead to. *)
Lemma on_message_cases ex `{!ExchangeOk ex} msg s s' o : on_message ex msg s = (s', o) →
  same_maps s s' ∧ (∀ f, o ≠ Ret (Some f)) ∨
  ∃ f s1, parseFeed ex msg s = (s1, Ret (Some f)) ∧ o = Ret (Some f) ∧
    s' = updatePriceFeed (fm_Ticker (pf_Market f)) f s1 ∧ same_maps s s1 ∧
    ∀ f0, lastFeedByTicker s !! fm_Ticker (pf_Market f) = Some f0 →
      dEqual (pf_BasePrice f) (pf_BasePrice f0) = false.
Proof.
  unfold on_message, mbind, action_bind. destruct (parseFeed ex msg s) as [s1 o1] eqn:E.
  pose proof (parse_frame _ _ _ _ E) as HF. assert (lastFeedByTicker s1 = lastFeedByTicker s) as Hf by apply HF.
  destruct o1 as [[f|]| |]; cbn; try (intros [= <- <-]; left; done).
  unfold getPriceFeed. rewrite Hf. destruct (lastFeedByTicker s !! _) as [f0|] eqn:E0.
  - destruct (dEqual _ _) eqn:Ed; intros [= <- <-]; [by left|].
    right. exists f, s1. split_and!; try done. congruence.
  - intros [= <- <-]. right. exists f, s1. split_and!; try done. intros f0. by rewrite E0.
Qed.

Lemma then_none {A} (m : action Sv error ()) s s' (o : outcome error (option A)) :
  (_ ← m; mret None) s = (s', o) → ∃ o1, m s = (s', o1).
Proof. unfold mbind, action_bind. destruct (m s) as [s1 []]; intros [= <- <-]; eauto. Qed.

Lemma exchange_step_ok ex `{!ExchangeOk ex} op s s' o :
  service_ok s → run_exchange_op ex op s = (s', o) → service_ok s'.
Proof.
  intros [HT HL]. destruct op as [l|l|msg|dial]; cbn.
  - intros [o1 [Hf Hm]%SubscribeMarkets_cases]%then_none; [|done]. unfold service_ok. rewrite Hf.
    destruct o1; [|by rewrite Hm..]. split; intros t m; rewrite Hm.
    + destruct (marketsByTicker s !! t) eqn:Et; [naive_solver|].
      intros Hl%last_Some_elem_of. by apply list_elem_of_filter in Hl as [? _].
    + intros Ht. by rewrite (HL t m Ht).
  - intros [o1 E%UnsubscribeMarkets_cases]%then_none; [|done].
    destruct o1; [|by eapply service_ok_frame..]. split; intros t m; rewrite ?(proj1 (E t)), ?(proj2 (E t)).
    + case_decide; [done | apply HT].
    + case_decide as Hd; [done|]. intros Ht. apply HL in Ht. case_decide; [|done]. destruct Hd. eauto.
  - intros [[HF _]|(f & s1 & HP & _ & -> & [Hm Hf] & _)]%on_message_cases; [by eapply service_ok_frame| |done].
    unfold updatePriceFeed. case_bool_decide; [by apply (service_ok_frame s)|].
    split; cbn; rewrite Hm; [done|]. intros t g. rewrite Hf, lookup_insert_Some.
    intros [[<- <-]|[_ Ht]]; [|by apply HL].
    apply parse_sound in HP as ((t & Ht) & _). by rewrite (HT _ _ Ht).
  - intros [o1 E%reconnect_frame]%then_none; [|done]. by eapply service_ok_frame.
Qed.

Lemma exchange_reachable_ok ex `{!ExchangeOk ex} s : exchange_reachable ex s → service_ok s.
Proof. induction 1; [done | by eapply exchange_step_ok]. Qed.

Lemma the_exchanges_ok ex : ex ∈ [kraken; coinbase; bitfinex] → ExchangeOk ex.
Proof.
  rewrite !elem_of_cons. intros [->|[->|[->|[]%not_elem_of_nil]]]; typeclasses eauto.
Qed.

(** whatever calls and messages, in whatever order, malformed ones, failed
    writes and reconnections included, a service of any of the three exchanges
    sends a price only for a market that is subscribed under the ticker, with a
    non-zero quote price and its inverse to eight digits as base price, and only
    when the base price differs from the last one it sent for that ticker; it then
    remembers the price, and the other tickers' are left alone. *)
Theorem exchange_feeds_correct ex s s' msg f :
  ex ∈ [kraken; coinbase; bitfinex] → exchange_reachable ex s →
  on_message ex msg s = (s', Ret (Some f)) →
  let ticker := fm_Ticker (pf_Market f) in
  marketsByTicker s !! ticker = Some (pf_Market f) ∧
  ¬ (dval (pf_QuotePrice f) == 0)%Q ∧
  (dval (pf_BasePrice f) == round_at 8 (1 / dval (pf_QuotePrice f)))%Q ∧
  (∀ f0, lastFeedByTicker s !! ticker = Some f0 → ¬ (dval (pf_BasePrice f) == dval (pf_BasePrice f0))%Q) ∧
  (ticker ≠ ""%string → lastFeedByTicker s' !! ticker = Some f) ∧
  (∀ t, t ≠ ticker → lastFeedByTicker s' !! t = lastFeedByTicker s !! t) ∧
  marketsByTicker s' = marketsByTicker s.
Proof.
  intros Hex%the_exchanges_ok [HT _]%exchange_reachable_ok; [|done]. intros HM ticker.
  apply on_message_cases in HM as [[_ Hn]|(f' & s1 & HP & [= <-] & -> & [Hm Hf] & HD)];
    [by destruct (Hn f)| |done].
  destruct (parse_sound _ _ _ _ HP) as ((t & Ht) & Hq & Hb).
  assert (ticker = t) as Htk by apply (HT _ _ Ht). rewrite Htk.
  split_and!; try done.
  - intros f0 Hf0. apply dEqual_false, HD. by fold ticker; rewrite Htk.
  - intros Hne. fold ticker. rewrite Htk. unfold updatePriceFeed. rewrite bool_decide_false by done.
    apply lookup_insert_eq.
  - intros t' Hne. fold ticker. rewrite Htk. unfold updatePriceFeed. case_bool_decide; [by rewrite Hf|].
    cbn. by rewrite lookup_insert_ne, Hf.
  - fold ticker. unfold updatePriceFeed. case_bool_decide; done.
Qed.

Lemma subscribe_one ex s s' m o : ex ∈ [kraken; coinbase; bitfinex] →
  SubscribeMarkets ex [m] s = (s', o) →
  lastFeedByTicker s' = lastFeedByTicker s ∧
  marketsByTicker s' = match o, marketsByTicker s !! fm_Ticker m with
                       | Ret _, None => <[fm_Ticker m := m]> (marketsByTicker s)
                       | _, _ => marketsByTicker s
                       end.
Proof.
  intros Hex%the_exchanges_ok.
  intros [Hf Hm]%SubscribeMarkets_cases; [|done]. split; [done|]. destruct o; [|done..].
  apply map_eq. intros t. rewrite Hm. rewrite filter_cons, filter_nil.
  destruct (decide (fm_Ticker m = t)) as [<-|Hne].
  - destruct (marketsByTicker s !! fm_Ticker m) eqn:E; [by rewrite E|]. by rewrite lookup_insert_eq.
  - destruct (marketsByTicker s !! fm_Ticker m); [|rewrite lookup_insert_ne by done];
      by destruct (marketsByTicker s !! t).
Qed.

Lemma unsubscribe_one ex s s' m o : ex ∈ [kraken; coinbase; bitfinex] →
  UnsubscribeMarkets ex [m] s = (s', o) →
  marketsByTicker s' = match o with
                       | Ret _ => delete (fm_Ticker m) (marketsByTicker s)
                       | _ => marketsByTicker s
                       end ∧
  (o = Ret () → is_Some (marketsByTicker s !! fm_Ticker m) →
     lastFeedByTicker s' = delete (fm_Ticker m) (lastFeedByTicker s)).
Proof.
  intros Hex%the_exchanges_ok.
  intros E%UnsubscribeMarkets_cases; [|done]. destruct o as [[]| |]; [|by destruct E..]. split.
  - apply map_eq. intros t. rewrite (proj1 (E t)). cbn. case_decide as Hd.
    + apply list_elem_of_singleton in Hd as ->. by rewrite lookup_delete_eq.
    + rewrite lookup_delete_ne; [done|]. intros <-. apply Hd. by left.
  - intros _ Hs. apply map_eq. intros t. rewrite (proj2 (E t)). cbn. case_decide as Hd.
    + destruct Hd as [->%list_elem_of_singleton _]. by rewrite lookup_delete_eq.
    + rewrite lookup_delete_ne; [done|]. intros <-. apply Hd. split; [by left | done].
Qed.

(** subscriptions are a map from tickers to markets.  Subscribing a market
    that succeeds adds it, unless its ticker is subscribed already, for this or
    for another market: then nothing changes.  Unsubscribing removes the ticker
    whatever market holds it, together with its last price.  A failed call changes
    nothing.  ListSubscriptions lists the markets of the map. *)
Theorem exchange_subscriptions ex s s' m o : ex ∈ [kraken; coinbase; bitfinex] →
  (SubscribeMarkets ex [m] s = (s', o) →
     lastFeedByTicker s' = lastFeedByTicker s ∧
     marketsByTicker s' = match o, marketsByTicker s !! fm_Ticker m with
                          | Ret _, None => <[fm_Ticker m := m]> (marketsByTicker s)
                          | _, _ => marketsByTicker s
                          end) ∧
  (UnsubscribeMarkets ex [m] s = (s', o) →
     marketsByTicker s' = match o with
                          | Ret _ => delete (fm_Ticker m) (marketsByTicker s)
                          | _ => marketsByTicker s
                          end ∧
     (o = Ret () → is_Some (marketsByTicker s !! fm_Ticker m) →
        lastFeedByTicker s' = delete (fm_Ticker m) (lastFeedByTicker s))) ∧
  ListSubscriptions s ≡ₚ (map_to_list (marketsByTicker s)).*2.
Proof.
  intros Hex. split_and!; [by apply subscribe_one | by apply unsubscribe_one|].
  unfold ListSubscriptions, getMarkets, range_values, range_items. by rewrite range_order_perm.
Qed.

(** ** Messages *)

(** The last price of a ticker in the documented format of each exchange; the
    values not read are arbitrary. *)
Definition kraken_ticker_message (id rest : json) (ticker price : string) (name : json) : json :=
  JArray [id; JObject [("c", JArray [JString price; rest])]; name; JString ticker]%string.
Definition coinbase_ticker_message (ticker price : string) : json :=
  JObject [("type", JString "ticker"); ("product_id", JString ticker); ("price", JString price)]%string.
Definition bitfinex_ticker_message (id : Z) (before after : list json) (m e : Z) : json :=
  JArray [JNumber id 0; JArray (before ++ JNumber m e :: after)].
Definition bitfinex_subscribed_message (id : Z) (ticker : string) : json :=
  JObject [("event", JString "subscribed"); ("channel", JString "ticker"); ("chanId", JNumber id 0);
           ("pair", JString ticker)]%string.

Lemma field_kraken (v : json) : field [("c", v)]%string "c" = Some v.
Proof. done. Qed.
Lemma field_coinbase (t p : json) :
  let o := [("type", JString "ticker"); ("product_id", t); ("price", p)]%string in
  field o "type" = Some (JString "ticker") ∧ field o "product_id" = Some t ∧ field o "price" = Some p.
Proof. done. Qed.
Lemma field_bitfinex (c t : json) :
  let o := [("event", JString "subscribed"); ("channel", JString "ticker"); ("chanId", c); ("pair", t)]%string in
  field o "event" = Some (JString "subscribed") ∧ field o "channel" = Some (JString "ticker") ∧
  field o "chanId" = Some c ∧ field o "pair" = Some t.
Proof. done. Qed.

Lemma div_one_total (q : D) : ¬ (dval q == 0)%Q → ∃ p, Mathutil.DivDecimal (NewFromInt 1) q = Ret p.
Proof. intros Hq. unfold Mathutil.DivDecimal. destruct (dIsZero q) eqn:E; dec_facts; [done | eauto]. Qed.
Lemma inverse_rounded_total (q : D) : ¬ (dval q == 0)%Q → ∃ p, inverse_rounded q = Ret p.
Proof. intros [p Hp]%div_one_total. unfold inverse_rounded. rewrite Hp. eauto. Qed.

(** the ticker messages of the three exchanges are understood: for a
    subscribed ticker, the message with a non-zero price yields the feed of its market
    with exactly that price, as a decimal string for Kraken and Coinbase, and
    rounded to eight digits for Bitfinex, where the channel id stands for
    the ticker once the exchange has announced it. *)
Theorem ticker_messages_parsed s ticker mkt (d : D) : marketsByTicker s !! ticker = Some mkt →
  ¬ (dval d == 0)%Q →
  (∀ id rest name, ∃ f,
     parseFeed kraken (Some (kraken_ticker_message id rest ticker (dString d) name)) s = (s, Ret (Some f)) ∧
     pf_Market f = mkt ∧ (dval (pf_QuotePrice f) == dval d)%Q) ∧
  (∃ f, parseFeed coinbase (Some (coinbase_ticker_message ticker (dString d))) s = (s, Ret (Some f)) ∧
     pf_Market f = mkt ∧ (dval (pf_QuotePrice f) == dval d)%Q) ∧
  (∀ id before after m e,
     length before = 6%nat → (3 ≤ length after)%nat → ¬ (round_at 8 (dval (NewFromFloat m e)) == 0)%Q →
     ∃ s1 f, parseFeed bitfinex (Some (bitfinex_subscribed_message id ticker)) s = (s1, Ret None) ∧
       parseFeed bitfinex (Some (bitfinex_ticker_message id before after m e)) s1 = (s1, Ret (Some f)) ∧
       pf_Market f = mkt ∧ (dval (pf_QuotePrice f) == round_at 8 (dval (NewFromFloat m e)))%Q).
Proof.
  intros Ht Hd. destruct (string_val d) as (d' & Hs & Hd').
  destruct (inverse_rounded_total d') as [p Hp]; [by rewrite Hd'|]. split_and!.
  - intros id rest name. exists (feed_of mkt p d'). split; [|done].
    change ((s, kraken_parse s (Some (kraken_ticker_message id rest ticker (dString d) name))) =
      (s, Ret (Some (feed_of mkt p d')))). f_equal. unfold kraken_parse. cbn -[field].
    unfold getMarketByTicker. rewrite Ht. cbn -[field]. rewrite field_kraken, bool_decide_true by done. cbn.
    rewrite Hs. cbn. by rewrite Hp.
  - exists (feed_of mkt p d'). split; [|done].
    change ((s, coinbase_parse s (Some (coinbase_ticker_message ticker (dString d)))) =
      (s, Ret (Some (feed_of mkt p d')))). f_equal. unfold coinbase_parse. cbn -[field].
    destruct (field_coinbase (JString ticker) (JString (dString d))) as (-> & -> & ->). cbn.
    rewrite bool_decide_true, Hs by done. cbn. rewrite Hp. cbn. unfold getMarketByTicker. by rewrite Ht.
  - intros id before after m e Hl Ha Hm.
    destruct (div_one_total (dRound (NewFromFloat m e) 8)) as [q Hq]; [by rewrite val_round|].
    exists (addTickers id ticker s), (feed_of mkt q (dRound (NewFromFloat m e) 8)).
    split; [|split; [|split; [done | by cbn; rewrite val_round]]].
    + cbn -[field]. unfold parseSubscriptionResponseMsg.
      destruct (field_bitfinex (JNumber id 0) (JString ticker)) as (-> & -> & -> & ->).
      cbn -[field]. rewrite bool_decide_false, bool_decide_true by done.
      unfold mbind, action_bind, get_state. cbn. unfold getMarketByTicker. rewrite Ht.
      unfold lift, float_int; cbn. by rewrite Z.mul_1_r.
    + change ((addTickers id ticker s, bitfinex_parse (addTickers id ticker s)
        [JNumber id 0; JArray (before ++ JNumber m e :: after)]) =
        (addTickers id ticker s, Ret (Some (feed_of mkt q (dRound (NewFromFloat m e) 8))))). f_equal.
      unfold bitfinex_parse; cbn. rewrite bool_decide_true by done. unfold float_int; cbn. rewrite Z.mul_1_r.
      unfold getTicker; cbn. rewrite lookup_insert_eq. cbn. unfold getMarketByTicker; cbn. rewrite Ht. cbn.
      rewrite bool_decide_false by (rewrite length_app; cbn; lia).
      rewrite lookup_app_r, Hl by lia. cbn. by rewrite Hq.
Qed.
End exchange_theorems.

(** * Witnesses *)
Module ExchangeExamples.

(** A connection that records what is written. *)
#[global] Instance log_conn : WsConn (list json) := { WriteJSON j c := (c ++ [j], Ret ()) }.

Definition lbtc_usdt : FeedMarket :=
  {| fm_BaseAsset := "lbtc"; fm_QuoteAsset := "usdt"; fm_Ticker := "XBT/USDT" |}.
Definition started : service Fixed.t (list json) := NewService [].
Definition subscribed : service Fixed.t (list json) := fst (SubscribeMarkets kraken [lbtc_usdt] started).
Definition price_message : json :=
  kraken_ticker_message (JNumber 340 0) JNull "XBT/USDT" (dString (Fixed.mk 20000 0)) (JString "ticker").

Lemma subscribed_reachable : exchange_reachable kraken subscribed.
Proof.
  eapply (exchange_step _ (OpSubscribe [lbtc_usdt])); [apply (exchange_new _ [])|]. vm_compute. reflexivity.
Qed.

(** The feed of the message, and the service that remembers it. *)
Definition price_feed : PriceFeed Fixed.t :=
  match snd (on_message kraken (Some price_message) subscribed) with
  | Ret (Some f) => f
  | _ => feed_of lbtc_usdt (Fixed.mk 0 0) (Fixed.mk 0 0)
  end.

Lemma exchange_feeds_correct_witness :
  on_message kraken (Some price_message) subscribed
  = (fst (on_message kraken (Some price_message) subscribed), Ret (Some price_feed)) ∧
  (dval (pf_BasePrice price_feed) == round_at 8 (1 / dval (pf_QuotePrice price_feed)))%Q.
Proof.
  assert (on_message kraken (Some price_message) subscribed
    = (fst (on_message kraken (Some price_message) subscribed), Ret (Some price_feed))) as E
    by (vm_compute; reflexivity).
  split; [exact E|]. apply (exchange_feeds_correct kraken subscribed
    (fst (on_message kraken (Some price_message) subscribed)) (Some price_message) price_feed);
    [left | exact subscribed_reachable | exact E].
Defined.

Lemma exchange_subscriptions_witness :
  marketsByTicker subscribed = {["XBT/USDT" := lbtc_usdt]}%string ∧
  marketsByTicker (fst (UnsubscribeMarkets kraken [lbtc_usdt] subscribed)) = ∅.
Proof.
  split; [reflexivity|].
  refine (eq_trans (proj1 (proj1 (proj2 (exchange_subscriptions kraken subscribed
    (fst (UnsubscribeMarkets kraken [lbtc_usdt] subscribed)) lbtc_usdt (Ret ()) _)) _)) _).
  - left.
  - vm_compute. reflexivity.
  - reflexivity.
Defined.

Lemma ticker_messages_parsed_witness :
  ∃ f, parseFeed coinbase (Some (coinbase_ticker_message "XBT/USDT" (dString (Fixed.mk 20000 0)))) subscribed
    = (subscribed, Ret (Some f)) ∧ pf_Market f = lbtc_usdt.
Proof.
  destruct (ticker_messages_parsed subscribed "XBT/USDT" lbtc_usdt (Fixed.mk 20000 0)) as (_ & (f & E & Hm & _) & _).
  - reflexivity.
  - vm_compute. discriminate.
  - exists f. split; [exact E | exact Hm].
Defined.
End ExchangeExamples.
