(* ===== verification/Repos.v ===== *)
(** The repositories: the interfaces of internal/core/domain/*_repository.go
    and the in-memory implementation of
    internal/infrastructure/storage/db/inmemory.

    Every method but GetTradeById, which only reads one map entry, holds the
    store's lock for its whole duration, so each is one step on the store.  A store is the record of its Go maps; map iteration
    order comes from [MapOrder]. *)

From Stdlib Require Import ZArith Lia.
From stdpp Require Import base tactics strings list gmap sorting.
From S2P Require Import Prelude Errors Decimal Market Trade.

(** [[]byte(s)] *)
Fixpoint string_bytes (s : string) : bytes :=
  match s with
  | EmptyString => []
  | String c r => Z.of_nat (Ascii.nat_of_ascii c) :: string_bytes r
  end.

Record Deposit := {
  dp_AccountName : string; dp_TxID : string;
  dp_TotAmountPerAsset : gmap string Z; dp_Timestamp : Z }.
Record Withdrawal := {
  wd_AccountName : string; wd_TxID : string;
  wd_TotAmountPerAsset : gmap string Z; wd_Timestamp : Z }.

(** * Interfaces *)

(** domain.MarketRepository over a store of type [S]. *)
Class MarketRepository (S : Type) := {
  AddMarket : Market → action S error ();
  GetMarketByName : S → string → outcome error Market;
  GetMarketByAssets : S → string → string → outcome error Market;
  GetTradableMarkets : S → outcome error (list Market);
  GetAllMarkets : S → outcome error (list Market);
  UpdateMarket : string → (Market → outcome error Market) → action S error ();
  OpenMarket : string → action S error ();
  CloseMarket : string → action S error ();
  UpdateMarketPrice : string → MarketPrice → action S error ();
  DeleteMarket : string → action S error ();
}.

(** What the services rely on: a market that was added or updated is found
    under its name and its assets, and other names are left alone. *)
Class MarketRepositoryLaws (S : Type) `{MarketRepository S} : Prop := {
  add_found s s' m : AddMarket m s = (s', Ret ()) →
    GetMarketByName s' (Name m) = Ret m ∧
    GetMarketByAssets s' (BaseAsset m) (QuoteAsset m) = Ret m;
  add_fresh s s' m o : AddMarket m s = (s', o) →
    (∃ m', GetMarketByName s (Name m) = Ret m') → s' = s ∧ ∃ e, o = Err e;
  update_found s s' n f : UpdateMarket n f s = (s', Ret ()) →
    ∃ m m', GetMarketByName s n = Ret m ∧ f m = Ret m' ∧
      GetMarketByName s' n = Ret m' ∧
      GetMarketByAssets s' (BaseAsset m') (QuoteAsset m') = Ret m';
  update_frame s s' n n' f o : UpdateMarket n f s = (s', o) → n' ≠ n →
    GetMarketByName s' n' = GetMarketByName s n';
  update_error s s' n f o : UpdateMarket n f s = (s', o) → o ≠ Ret () → s' = s;
}.

(** domain.TradeRepository over a store of type [S]. *)
Class TradeRepository (S : Type) := {
  AddTrade : Trade → action S error ();
  GetTradeById : S → string → outcome error Trade;
  GetAllTrades : S → option Page → outcome error (list Trade);
  GetAllTradesByMarket : S → string → option Page → outcome error (list Trade);
  GetCompletedTradesByMarket : S → string → option Page → outcome error (list Trade);
  GetTradeBySwapAcceptId : S → string → outcome error Trade;
  GetTradeByTxId : S → string → outcome error (option Trade);
  UpdateTrade : string → (Trade → outcome error Trade) → action S error ();
}.

(** * In-memory markets *)
Module InmemoryMarket.
Section defs.
Context {D : Type} `{DecimalOps D} `{MapOrder}.
(** sha256.Sum256 *)
Variable Sum256 : bytes → bytes.

Record store := { markets : gmap string Market; nameByAssetsKey : gmap string string }.

Definition NewMarketRepositoryImpl : store := {| markets := ∅; nameByAssetsKey := ∅ |}.

Definition keyFromAssets (baseAsset quoteAsset : string) : string :=
  hex_EncodeToString (Sum256 (string_bytes (baseAsset +:+ quoteAsset))).

Definition set_market (name : string) (m : Market) (s : store) : store :=
  {| markets := <[name := m]> (markets s); nameByAssetsKey := nameByAssetsKey s |}.
Definition set_key (key name : string) (s : store) : store :=
  {| markets := markets s; nameByAssetsKey := <[key := name]> (nameByAssetsKey s) |}.

Definition getMarketByName (s : store) (name : string) : outcome error Market :=
  match markets s !! name with
  | Some m => Ret m
  | None => Err (Errorf "market with name %s not found")
  end.

(** A name that is indexed but no longer stored yields the zero market. *)
Definition getMarketByAssets (s : store) (baseAsset quoteAsset : string) : outcome error Market :=
  match nameByAssetsKey s !! keyFromAssets baseAsset quoteAsset with
  | Some name => Ret (default zero_Market (markets s !! name))
  | None => Err (Errorf "market with assets %s %s not found")
  end.

Definition createMarket (market : Market) : action store error () := λ s,
  match getMarketByName s (Name market) with
  | Ret _ => (s, Err (Errorf "market with assets %s %s already exists"))
  | _ =>
      let key := keyFromAssets (BaseAsset market) (QuoteAsset market) in
      (set_key key (Name market) (set_market (Name market) market s), Ret ())
  end.

Definition getTradableMarkets (s : store) : outcome error (list Market) :=
  Ret (filter (λ m, IsTradable m = true) (range_values (markets s))).
Definition getAllMarkets (s : store) : outcome error (list Market) := Ret (range_values (markets s)).

Definition updateMarket (marketName : string) (updateFn : Market → outcome error Market)
    : action store error () := λ s,
  match currentMarket ← getMarketByName s marketName; updateFn currentMarket with
  | Ret m =>
      let key := keyFromAssets (BaseAsset m) (QuoteAsset m) in
      (set_key key marketName (set_market marketName m s), Ret ())
  | Err e => (s, Err e)
  | Panic p => (s, Panic p)
  end.

Definition openMarket (marketName : string) : action store error () := λ s,
  match getMarketByName s marketName with
  | Ret m =>
      if IsTradable m then (s, Ret ())
      else match MakeTradable (D := D) m with
           | Ret m' => (set_market marketName m' s, Ret ())
           | Err e => (s, Err e)
           | Panic p => (s, Panic p)
           end
  | Err e => (s, Err e)
  | Panic p => (s, Panic p)
  end.

Definition closeMarket (marketName : string) : action store error () := λ s,
  match getMarketByName s marketName with
  | Ret m =>
      if negb (IsTradable m) then (s, Ret ())
      else (set_market marketName (MakeNotTradable m) s, Ret ())
  | Err e => (s, Err e)
  | Panic p => (s, Panic p)
  end.

Definition updateMarketPrice (marketName : string) (price : MarketPrice)
    : action store error () := λ s,
  match m ← getMarketByName s marketName;
        ChangePrice (D := D) (GetBasePrice price) (GetQuotePrice price) m with
  | Ret m => (set_market marketName m s, Ret ())
  | Err e => (s, Err e)
  | Panic p => (s, Panic p)
  end.

Definition deleteMarket (marketName : string) : action store error () := λ s,
  match markets s !! marketName with
  | None => (s, Err (Errorf "market with name %s not found"))
  | Some _ =>
      ({| markets := delete marketName (markets s); nameByAssetsKey := nameByAssetsKey s |}, Ret ())
  end.

#[global] Instance repository : MarketRepository store := {
  AddMarket := createMarket;
  GetMarketByName := getMarketByName;
  GetMarketByAssets := getMarketByAssets;
  GetTradableMarkets := getTradableMarkets;
  GetAllMarkets := getAllMarkets;
  UpdateMarket := updateMarket;
  OpenMarket := openMarket;
  CloseMarket := closeMarket;
  UpdateMarketPrice := updateMarketPrice;
  DeleteMarket := deleteMarket;
}.
End defs.
End InmemoryMarket.

(** * In-memory trades *)
Module InmemoryTrade.
Section defs.
Context `{MapOrder}.

Record store := {
  trades : gmap string Trade;
  tradesBySwapAcceptId : gmap string string;
  tradesByMarket : gmap string (list string) }.

Definition NewTradeRepositoryImpl : store :=
  {| trades := ∅; tradesBySwapAcceptId := ∅; tradesByMarket := ∅ |}.

Definition addTrade (trade : Trade) : action store error () := λ s,
  match trades s !! tr_Id trade with
  | Some _ => (s, Err (Errorf "trade with id %s already exists"))
  | None =>
      ({| trades := <[tr_Id trade := trade]> (trades s);
          tradesBySwapAcceptId := tradesBySwapAcceptId s;
          tradesByMarket :=
            <[tr_MarketName trade :=
                default [] (tradesByMarket s !! tr_MarketName trade) ++ [tr_Id trade]]>
              (tradesByMarket s) |}, Ret ())
  end.

Definition getTrade (s : store) (id : string) : outcome error Trade :=
  match trades s !! id with
  | Some t => Ret t
  | None => Err (Errorf "trade with id %s not found")
  end.

(** Sorting compares SwapRequest.Timestamp through the pointer: with two or
    more trades every one of them is read, and a nil SwapRequest panics. *)
Definition request_time (t : Trade) : Z :=
  match tr_SwapRequest t with Some r => sw_Timestamp r | None => 0 end.
Definition sort_trades (l : list Trade) : outcome error (list Trade) :=
  if (2 <=? length l)%nat && bool_decide (Exists (λ t, tr_SwapRequest t = None) l)
  then Panic NilDereference
  else Ret (sort_desc request_time l).

Definition getAllTrades (s : store) (page : option Page) : outcome error (list Trade) :=
  l ← sort_trades (range_values (trades s));
  Ret (match page with None => l | Some p => page_window p l end).

Definition tradesFromIds (ts : gmap string Trade) (tradeIds : list string) (page : option Page)
    : outcome error (list Trade) :=
  l ← sort_trades ((λ id, default (zero_Trade "") (ts !! id)) <$> tradeIds);
  paginate page l.

Definition getAllTradesByMarket (s : store) (marketName : string) (page : option Page)
    : outcome error (list Trade) :=
  match tradesByMarket s !! marketName with
  | None => Ret []
  | Some tradeIds => tradesFromIds (trades s) tradeIds page
  end.

Definition getCompletedTradesByMarket (s : store) (marketName : string) (page : option Page)
    : outcome error (list Trade) :=
  l ← getAllTradesByMarket s marketName page;
  Ret (filter (λ t, TradeStatusCodeCompleted ≤ Code (tr_Status t) ∧ Failed (tr_Status t) = false)%Z l).

Definition getTradeByTxId (s : store) (txid : string) : outcome error (option Trade) :=
  l ← getAllTrades s None;
  Ret (snd <$> list_find (λ t, tr_TxId t = txid) l).

Definition getTradeBySwapAcceptId (s : store) (swapAcceptId : string) : outcome error Trade :=
  match tradesBySwapAcceptId s !! swapAcceptId with
  | Some id => Ret (default (zero_Trade "") (trades s !! id))
  | None => Err (Errorf "trade with swap accept id %s not found")
  end.

Definition contain (l : list string) (id : string) : bool := bool_decide (id ∈ l).

Definition addTradeByMarket (key val : string) (m : gmap string (list string))
    : gmap string (list string) :=
  match m !! key with
  | None => <[key := [val]]> m
  | Some l => if contain l val then m else <[key := l ++ [val]]> m
  end.

Definition updateTrade (tradeId : string) (updateFn : Trade → outcome error Trade)
    : action store error () := λ s,
  match getTrade s tradeId with
  | Ret currentTrade =>
      match updateFn currentTrade with
      | Ret updatedTrade =>
          let byAccept :=
            match tr_SwapAccept updatedTrade with
            | Some a =>
                match tradesBySwapAcceptId s !! sw_Id a with
                | Some _ => tradesBySwapAcceptId s
                | None => <[sw_Id a := tr_Id currentTrade]> (tradesBySwapAcceptId s)
                end
            | None => tradesBySwapAcceptId s
            end in
          ({| trades := <[tr_Id updatedTrade := updatedTrade]> (trades s);
              tradesBySwapAcceptId := byAccept;
              tradesByMarket := addTradeByMarket (tr_MarketName updatedTrade)
                                  (tr_Id currentTrade) (tradesByMarket s) |}, Ret ())
      | Err e => (s, Err e)
      | Panic p => (s, Panic p)
      end
  | Err e => (s, Err e)
  | Panic p => (s, Panic p)
  end.

#[global] Instance repository : TradeRepository store := {
  AddTrade := addTrade;
  GetTradeById := getTrade;
  GetAllTrades := getAllTrades;
  GetAllTradesByMarket := getAllTradesByMarket;
  GetCompletedTradesByMarket := getCompletedTradesByMarket;
  GetTradeBySwapAcceptId := getTradeBySwapAcceptId;
  GetTradeByTxId := getTradeByTxId;
  UpdateTrade := updateTrade;
}.
End defs.
End InmemoryTrade.

(** * In-memory deposits and withdrawals *)
Module InmemoryTxs.
Section defs.
Context `{MapOrder}.
(** btcutil.Hash160 *)
Variable Hash160 : bytes → bytes.

Definition Deposit_Key (d : Deposit) : string :=
  hex_EncodeToString (Hash160 (string_bytes (dp_AccountName d +:+ ":" +:+ dp_TxID d))).

(** Adds what is not there yet; returns the new store and the count. *)
Definition add_missing {V} (key : V → string) (l : list V) (m : gmap string V)
    : gmap string V * Z :=
  foldl (λ '(m, n) v, match m !! key v with
                      | Some _ => (m, n)
                      | None => (<[key v := v]> m, n + 1)%Z
                      end) (m, 0%Z) l.

Definition AddDeposits (deposits : list Deposit) : action (gmap string Deposit) error Z := λ s,
  let '(s', count) := add_missing Deposit_Key deposits s in (s', Ret count).
Definition AddWithdrawals (withdrawals : list Withdrawal)
    : action (gmap string Withdrawal) error Z := λ s,
  let '(s', count) := add_missing wd_TxID withdrawals s in (s', Ret count).

Definition GetDepositsForAccount (s : gmap string Deposit) (accountName : string)
    (page : option Page) : outcome error (list Deposit) :=
  paginate page (sort_desc dp_Timestamp
    (filter (λ d, dp_AccountName d = accountName) (range_values s))).
Definition GetAllDeposits (s : gmap string Deposit) (page : option Page)
    : outcome error (list Deposit) :=
  paginate page (sort_desc dp_Timestamp (range_values s)).
Definition GetWithdrawalsForAccount (s : gmap string Withdrawal) (accountName : string)
    (page : option Page) : outcome error (list Withdrawal) :=
  paginate page (sort_desc wd_Timestamp
    (filter (λ w, wd_AccountName w = accountName) (range_values s))).
Definition GetAllWithdrawals (s : gmap string Withdrawal) (page : option Page)
    : outcome error (list Withdrawal) :=
  paginate page (sort_desc wd_Timestamp (range_values s)).
End defs.
End InmemoryTxs.

(** * Theorems: markets *)

Section market_laws.
Context {D : Type} `{DecimalOps D} `{MapOrder}.
Variable Sum256 : bytes → bytes.
Import InmemoryMarket.
Implicit Types (s : store) (m : Market).

Lemma getMarketByName_Ret s n m : getMarketByName s n = Ret m ↔ markets s !! n = Some m.
Proof. unfold getMarketByName. destruct (markets s !! n); naive_solver. Qed.

(** Storing a market under a name and indexing its assets makes it findable. *)
Lemma set_found s n m :
  let s' := set_key (keyFromAssets Sum256 (BaseAsset m) (QuoteAsset m)) n (set_market n m s) in
  getMarketByName s' n = Ret m ∧ getMarketByAssets Sum256 s' (BaseAsset m) (QuoteAsset m) = Ret m.
Proof.
  cbn. unfold getMarketByName, getMarketByAssets; cbn. by rewrite !lookup_insert_eq; cbn; rewrite ?lookup_insert_eq.
Qed.

Lemma createMarket_inv s s' m o : createMarket Sum256 m s = (s', o) →
  match markets s !! Name m with
  | Some _ => s' = s ∧ ∃ e, o = Err e
  | None => s' = set_key (keyFromAssets Sum256 (BaseAsset m) (QuoteAsset m)) (Name m)
                   (set_market (Name m) m s) ∧ o = Ret ()
  end.
Proof. unfold createMarket, getMarketByName. destruct (_ !! _); naive_solver. Qed.

Lemma updateMarket_inv s s' n f o : updateMarket Sum256 n f s = (s', o) →
  (∃ m m', markets s !! n = Some m ∧ f m = Ret m' ∧ o = Ret () ∧
     s' = set_key (keyFromAssets Sum256 (BaseAsset m') (QuoteAsset m')) n (set_market n m' s))
  ∨ (s' = s ∧ o ≠ Ret ()).
Proof.
  unfold updateMarket, getMarketByName. destruct (markets s !! n) as [m|] eqn:E; cbn; [|naive_solver].
  destruct (f m) eqn:Ef; naive_solver.
Qed.

Lemma laws_add_found s s' m : createMarket Sum256 m s = (s', Ret ()) →
  getMarketByName s' (Name m) = Ret m ∧
  getMarketByAssets Sum256 s' (BaseAsset m) (QuoteAsset m) = Ret m.
Proof.
  intros HC%createMarket_inv. destruct (markets s !! Name m); [naive_solver|].
  destruct HC as [-> _]. apply set_found.
Qed.

Lemma laws_update_frame s s' n n' f o : updateMarket Sum256 n f s = (s', o) → n' ≠ n →
  getMarketByName s' n' = getMarketByName s n'.
Proof.
  intros [(m & m' & _ & _ & _ & ->) | [-> _]]%updateMarket_inv Hn; [|done].
  unfold getMarketByName; cbn. by rewrite lookup_insert_ne.
Qed.

Lemma laws_add_fresh s s' m o : createMarket Sum256 m s = (s', o) →
  (∃ m', getMarketByName s (Name m) = Ret m') → s' = s ∧ ∃ e, o = Err e.
Proof. intros HC%createMarket_inv [m' Hm%getMarketByName_Ret]. by rewrite Hm in HC. Qed.

Lemma laws_update_found s s' n f : updateMarket Sum256 n f s = (s', Ret ()) →
  ∃ m m', getMarketByName s n = Ret m ∧ f m = Ret m' ∧ getMarketByName s' n = Ret m' ∧
    getMarketByAssets Sum256 s' (BaseAsset m') (QuoteAsset m') = Ret m'.
Proof.
  intros [(m & m' & Hm & Hf & _ & ->) | [_ ?]]%updateMarket_inv; [|done].
  exists m, m'. split; [by apply getMarketByName_Ret|]. split; [done|]. apply set_found.
Qed.

Lemma laws_update_error s s' n f o : updateMarket Sum256 n f s = (s', o) → o ≠ Ret () → s' = s.
Proof. by intros [(m & m' & _ & _ & -> & _) | [-> _]]%updateMarket_inv. Qed.

Lemma inmemory_lawful : MarketRepositoryLaws (H := repository (D := D) Sum256) store.
Proof.
  split; cbn; [apply laws_add_found | apply laws_add_fresh | apply laws_update_found
    | apply laws_update_frame | apply laws_update_error].
Qed.

(** the in-memory market repository keeps the promises the services rely
    on: an added or updated market is found by name and by assets, a name is
    never overwritten by AddMarket, a failed operation changes nothing, and
    updating a market leaves the others alone. *)
Theorem inmemory_market_lawful : MarketRepositoryLaws (H := repository (D := D) Sum256) store.
Proof. apply inmemory_lawful. Qed.

(** Deleting a market leaves its asset pair in the index: looking the pair
    up afterwards does not fail, it returns a market with no assets, no name and
    strategy 0.  This holds for every market and every store. *)
Theorem deleted_market_still_indexed s s1 m :
  createMarket Sum256 m s = (s1, Ret ()) →
  ∃ s2, deleteMarket (Name m) s1 = (s2, Ret ()) ∧
    getMarketByName s2 (Name m) = Err (Errorf "market with name %s not found") ∧
    getMarketByAssets Sum256 s2 (BaseAsset m) (QuoteAsset m) = Ret zero_Market.
Proof.
  intros HC%createMarket_inv. destruct (markets s !! Name m) eqn:Hm; [naive_solver|].
  destruct HC as [-> _]. unfold deleteMarket; cbn. rewrite lookup_insert_eq.
  eexists. split; [done|]. unfold getMarketByName, getMarketByAssets; cbn.
  by rewrite lookup_insert_eq, lookup_delete_eq.
Qed.

#[global] Instance inmemory_market_laws : MarketRepositoryLaws (H := repository (D := D) Sum256) store.
Proof. apply inmemory_lawful. Qed.
End market_laws.

Lemma deleted_market_still_indexed_witness :
  ∃ s2, InmemoryMarket.deleteMarket "lbtc-usdt"
      (fst (InmemoryMarket.createMarket (λ b, b) MarketExamples.balanced
              InmemoryMarket.NewMarketRepositoryImpl)) = (s2, Ret ()) ∧
    InmemoryMarket.getMarketByAssets (λ b, b) s2 MarketExamples.base MarketExamples.quote
      = Ret zero_Market.
Proof.
  destruct (deleted_market_still_indexed (λ b, b) InmemoryMarket.NewMarketRepositoryImpl
    (fst (InmemoryMarket.createMarket (λ b, b) MarketExamples.balanced
            InmemoryMarket.NewMarketRepositoryImpl)) MarketExamples.balanced)
    as (s2 & H1 & _ & H2); [reflexivity|].
  exists s2. split; [exact H1 | exact H2].
Defined.

(** * Theorems: trades *)

Section trade_laws.
Context `{MapOrder}.
Import InmemoryTrade.

Lemma getTrade_Ret s id t : getTrade s id = Ret t ↔ trades s !! id = Some t.
Proof. unfold getTrade. destruct (trades s !! id); naive_solver. Qed.

(** a trade stored by UpdateTrade is found under its id and, once accepted,
    under the id of its swap accept message, unless that id already belongs to
    another trade. *)
Theorem updated_trade_found s s' id f :
  updateTrade id f s = (s', Ret ()) →
  ∃ t t', trades s !! id = Some t ∧ f t = Ret t' ∧
    (tr_Id t = id → tr_Id t' = id → getTrade s' id = Ret t' ∧
      ∀ a, tr_SwapAccept t' = Some a →
        tradesBySwapAcceptId s !! sw_Id a = None ∨ tradesBySwapAcceptId s !! sw_Id a = Some id →
        getTradeBySwapAcceptId s' (sw_Id a) = Ret t').
Proof.
  intros HU. unfold updateTrade in HU. go_inv HU.
  match goal with G : getTrade s id = Ret ?t, F : f ?t = Ret ?t' |- _ =>
    exists t, t'; split; [by apply getTrade_Ret|]; split; [done|] end.
  intros Ht Ht'. unfold getTrade, getTradeBySwapAcceptId; cbn. rewrite Ht', lookup_insert_eq.
  split; [done|]. intros sa Hsa [Hn|Hs]; rewrite Hsa.
  - rewrite Hn, lookup_insert_eq. cbn. by rewrite Ht, lookup_insert_eq.
  - rewrite Hs, Hs. cbn. by rewrite lookup_insert_eq.
Qed.

(** AddTrade does not index the swap accept id: a trade that is stored
    already accepted, as TradePropose stores it, cannot be found by that id. *)
Theorem added_trade_not_indexed s s' t a :
  addTrade t s = (s', Ret ()) → tr_SwapAccept t = Some a →
  tradesBySwapAcceptId s !! sw_Id a = None →
  getTrade s' (tr_Id t) = Ret t ∧
  getTradeBySwapAcceptId s' (sw_Id a) = Err (Errorf "trade with swap accept id %s not found").
Proof.
  intros HA _ Hn. unfold addTrade in HA. go_inv HA.
  unfold getTrade, getTradeBySwapAcceptId; cbn. by rewrite lookup_insert_eq, Hn.
Qed.

Lemma sort_trades_spec l :
  match sort_trades l with
  | Ret l' => l' ≡ₚ l ∧ StronglySorted (desc request_time) l' ∧
      (2 ≤ length l → ∀ t, t ∈ l → is_Some (tr_SwapRequest t))
  | Err _ => False
  | Panic p => p = NilDereference ∧ 2 ≤ length l ∧ ∃ t, t ∈ l ∧ tr_SwapRequest t = None
  end.
Proof.
  unfold sort_trades. destruct (_ && _) eqn:E.
  - apply andb_true_iff in E as [E1%Nat.leb_le E2%bool_decide_eq_true].
    apply Exists_exists in E2 as (t & Ht & ?). eauto.
  - split; [apply sort_desc_perm|]. split; [apply sort_desc_sorted|].
    intros Hl%Nat.leb_le. rewrite Hl in E. apply bool_decide_eq_false in E.
    intros t Ht. destruct (tr_SwapRequest t) eqn:Et; [done|]. destruct E.
    apply Exists_exists. eauto.
Qed.

(** GetAllTrades panics exactly when the store holds at least two trades
    and one of them has no swap request; otherwise it returns every trade once,
    most recent request first. *)
Theorem get_all_trades_correct s :
  match getAllTrades s None with
  | Ret l => l ≡ₚ range_values (trades s) ∧ StronglySorted (desc request_time) l ∧
      (2 ≤ size (trades s) → ∀ id t, trades s !! id = Some t → is_Some (tr_SwapRequest t))
  | Err _ => False
  | Panic p => p = NilDereference ∧ 2 ≤ size (trades s) ∧
      ∃ id t, trades s !! id = Some t ∧ tr_SwapRequest t = None
  end.
Proof.
  unfold getAllTrades. pose proof (sort_trades_spec (range_values (trades s))) as Hs.
  rewrite range_values_length in Hs. destruct (sort_trades _) as [l|e|p]; cbn; [|done|].
  - destruct Hs as (? & ? & Hs). split_and!; [done..|]. intros Hl id t Ht.
    apply Hs; [done|]. apply range_values_elem. eauto.
  - destruct Hs as (-> & ? & t & [id Ht]%range_values_elem & ?). eauto 6.
Qed.
End trade_laws.

(** * Theorems: deposits and withdrawals *)

Section tx_laws.
Context `{MapOrder}.
Import InmemoryTxs.

(** What add_missing does, whatever the key. *)
Lemma add_missing_spec {V} (key : V → string) l m m' n :
  add_missing key l m = (m', n) →
  (∀ k v, m !! k = Some v → m' !! k = Some v) ∧
  (∀ v, v ∈ l → is_Some (m' !! key v)) ∧
  (∀ k v, m' !! k = Some v → m !! k = Some v ∨ (v ∈ l ∧ key v = k)) ∧
  n = (Z.of_nat (size m') - Z.of_nat (size m))%Z.
Proof.
  unfold add_missing.
  assert (∀ l (m : gmap string V) c m' n,
    foldl (λ '(m, n) v, match m !! key v with
                        | Some _ => (m, n) | None => (<[key v := v]> m, n + 1)%Z end) (m, c) l = (m', n) →
    (∀ k v, m !! k = Some v → m' !! k = Some v) ∧ (∀ v, v ∈ l → is_Some (m' !! key v)) ∧
    (∀ k v, m' !! k = Some v → m !! k = Some v ∨ (v ∈ l ∧ key v = k)) ∧
    n = (c + Z.of_nat (size m') - Z.of_nat (size m))%Z) as Hgen; [|intros HF; specialize (Hgen _ _ _ _ _ HF)].
  2: { destruct Hgen as (? & ? & ? & ?). by split_and!. }
  clear. intros l. induction l as [|x l IH]; intros m c m' n; cbn.
  { intros [= <- <-]. split_and!; [done | set_solver | auto | lia]. }
  destruct (m !! key x) as [w|] eqn:E; intros HF; apply IH in HF as (A & B & C & ->).
  - split_and!; [done | | | done].
    + intros v [->|?]%elem_of_cons; [eauto | auto].
    + intros k v Hk. destruct (C k v Hk) as [|[? ?]]; [auto | right; split; [by right | done]].
  - split_and!.
    + intros k v Hk. apply A. rewrite lookup_insert_ne; [done|congruence].
    + intros v [->|?]%elem_of_cons; [|auto]. exists x. apply A. apply lookup_insert_eq.
    + intros k v Hk. destruct (C k v Hk) as [Hi|[? ?]]; [|right; split; [by right | done]].
      destruct (decide (key x = k)) as [<-|Hne].
      * rewrite lookup_insert_eq in Hi. injection Hi as ->. right. split; [by left | done].
      * rewrite lookup_insert_ne in Hi by done. auto.
    + rewrite map_size_insert_None by done. lia.
Qed.

(** Adding what is already there changes nothing. *)
Lemma add_missing_present {V} (key : V → string) l (m : gmap string V) c :
  (∀ v, v ∈ l → is_Some (m !! key v)) →
  foldl (λ '(m, n) v, match m !! key v with
                      | Some _ => (m, n) | None => (<[key v := v]> m, n + 1)%Z end) (m, c) l = (m, c).
Proof.
  induction l as [|x l IH]; cbn; intros Hl; [done|].
  destruct (Hl x) as [w ->]; [by left|]. apply IH. intros. apply Hl. by right.
Qed.

(** AddDeposits never replaces a stored deposit, stores one deposit for
    every account and transaction of the batch, counts exactly the new ones, and
    adding the same batch again is a no-op that counts zero. *)
Theorem add_deposits_correct Hash160 l s s' o :
  AddDeposits Hash160 l s = (s', o) →
  (∀ k d, s !! k = Some d → s' !! k = Some d) ∧
  (∀ d, d ∈ l → is_Some (s' !! Deposit_Key Hash160 d)) ∧
  (∀ k d, s' !! k = Some d → s !! k = Some d ∨ (d ∈ l ∧ Deposit_Key Hash160 d = k)) ∧
  o = Ret (Z.of_nat (size s') - Z.of_nat (size s))%Z ∧
  AddDeposits Hash160 l s' = (s', Ret 0%Z).
Proof.
  unfold AddDeposits. destruct (add_missing _ l s) as [m n] eqn:E. intros [= <- <-].
  apply add_missing_spec in E as (A & B & C & ->). split_and!; try done.
  unfold add_missing. by rewrite add_missing_present.
Qed.

(** Withdrawals are stored under the transaction id alone: when one
    transaction withdraws from two accounts, only the first withdrawal is kept
    and the second account has none. *)
Theorem second_withdrawal_dropped w1 w2 :
  wd_TxID w1 = wd_TxID w2 → wd_AccountName w1 ≠ wd_AccountName w2 →
  ∃ s, AddWithdrawals [w1; w2] ∅ = (s, Ret 1%Z) ∧
    GetWithdrawalsForAccount s (wd_AccountName w1) None = Ret [w1] ∧
    GetWithdrawalsForAccount s (wd_AccountName w2) None = Ret [].
Proof.
  intros Ht Ha. exists {[wd_TxID w1 := w1]}. unfold AddWithdrawals, add_missing; cbn.
  rewrite lookup_empty, <- Ht, lookup_insert_eq. split; [done|].
  assert (range_values ({[wd_TxID w1 := w1]} : gmap string Withdrawal) = [w1]) as E.
  { unfold range_values, range_items. rewrite map_to_list_singleton.
    pose proof (range_order_perm [(wd_TxID w1, w1)]) as P.
    by apply Permutation_singleton_r in P as ->. }
  unfold GetWithdrawalsForAccount. rewrite E. unfold filter; cbn. split.
  - by rewrite decide_True.
  - by rewrite decide_False.
Qed.

(** the pages of an account's deposits partition them: listed newest
    first, pages 1 to k of size n put together are the first k*n deposits of the
    unpaged list, whatever the page size. *)
Theorem deposit_pages_partition s account (k : nat) (n : Z) all :
  (0 ≤ n)%Z → (Z.of_nat k * n < 2 ^ 63)%Z →
  GetDepositsForAccount s account None = Ret all →
  StronglySorted (desc dp_Timestamp) all ∧
  ∃ pages, Forall2 (λ i p, GetDepositsForAccount s account
                       (Some {| page_Number := Z.of_nat (S i); page_Size := n |}) = Ret p)
             (seq 0 k) pages ∧
    concat pages = take (k * Z.to_nat n) all.
Proof.
  intros Hn Hk. unfold GetDepositsForAccount; cbn. intros [= <-].
  split; [apply sort_desc_sorted|]. set (all := sort_desc _ _).
  exists ((λ i, page_window {| page_Number := Z.of_nat (S i); page_Size := n |} all) <$> seq 0 k).
  split; [|by apply pages_prefix].
  apply Forall2_fmap_r, Forall_Forall2_diag, Forall_forall. intros i _. cbn.
  by destruct (Z.ltb_spec n 0); [lia|].
Qed.
End tx_laws.

(** * Examples *)
Module RepoExamples.
Import InmemoryTrade InmemoryTxs TradeExamples.

Definition accepted : option Trade := run [OpP; OpA] (NewTrade "id").

(** A store that holds the accepted trade, added or updated in place. *)
Definition accepted_trade : Trade := default (NewTrade "id") accepted.
Definition proposed_store : InmemoryTrade.store :=
  fst (addTrade (default (NewTrade "id") (run [OpP] (NewTrade "id"))) NewTradeRepositoryImpl).

Lemma updated_trade_found_witness :
  ∃ s', updateTrade "id" (λ _, Ret accepted_trade) proposed_store = (s', Ret ()) ∧
    getTradeBySwapAcceptId s' "acc" = Ret accepted_trade.
Proof.
  eexists. split; [reflexivity|].
  destruct (updated_trade_found proposed_store
    (fst (updateTrade "id" (λ _, Ret accepted_trade) proposed_store)) "id" (λ _, Ret accepted_trade))
    as (t & t' & Ht & [= <-] & Hok); [reflexivity|].
  injection Ht as <-. destruct (Hok eq_refl eq_refl) as [_ Ha].
  apply (Ha {| sw_Id := "acc"; sw_Message := [2%Z]; sw_Timestamp := 1001 |});
    [reflexivity | left; reflexivity].
Defined.

Lemma added_trade_not_indexed_witness :
  getTradeBySwapAcceptId (fst (addTrade accepted_trade NewTradeRepositoryImpl)) "acc"
  = Err (Errorf "trade with swap accept id %s not found").
Proof.
  eapply (added_trade_not_indexed NewTradeRepositoryImpl
    (fst (addTrade accepted_trade NewTradeRepositoryImpl)) accepted_trade
    {| sw_Id := "acc"; sw_Message := [2%Z]; sw_Timestamp := 1001 |}); reflexivity.
Defined.

Definition dep (acc tx : string) (t : Z) : Deposit :=
  {| dp_AccountName := acc; dp_TxID := tx; dp_TotAmountPerAsset := ∅; dp_Timestamp := t |}.
Definition deposits : list Deposit := [dep "a" "t1" 10; dep "a" "t2" 30; dep "a" "t3" 20].
Definition deposit_store : gmap string Deposit := fst (AddDeposits (λ b, b) deposits ∅).

Lemma add_deposits_correct_witness :
  ∃ s', AddDeposits (λ b, b) [dep "a" "t1" 99; dep "b" "t1" 40] deposit_store = (s', Ret 1%Z) ∧
    AddDeposits (λ b, b) [dep "a" "t1" 99; dep "b" "t1" 40] s' = (s', Ret 0%Z).
Proof.
  eexists. split; [reflexivity|].
  eapply (add_deposits_correct (λ b, b) [dep "a" "t1" 99; dep "b" "t1" 40] deposit_store).
  reflexivity.
Defined.

Lemma second_withdrawal_dropped_witness :
  let w a := {| wd_AccountName := a; wd_TxID := "t"; wd_TotAmountPerAsset := ∅;
                wd_Timestamp := 1 |} in
  ∃ s, AddWithdrawals [w "a"; w "b"] ∅ = (s, Ret 1%Z) ∧ GetWithdrawalsForAccount s "b" None = Ret [].
Proof.
  intros w. destruct (second_withdrawal_dropped (w "a"%string) (w "b"%string)) as (s & ? & _ & ?);
    [reflexivity | discriminate |]. by exists s.
Defined.

Lemma deposit_pages_partition_witness :
  ∃ pages, concat pages = [dep "a" "t2" 30; dep "a" "t3" 20; dep "a" "t1" 10] ∧ length pages = 2.
Proof.
  destruct (deposit_pages_partition deposit_store "a" 2 2
    [dep "a" "t2" 30; dep "a" "t3" 20; dep "a" "t1" 10]) as (_ & pages & Hp & Hc);
    [lia | lia | vm_compute; reflexivity |].
  exists pages. split; [rewrite Hc; reflexivity|]. by apply Forall2_length in Hp.
Defined.
End RepoExamples.
