(* ===== verification/Badger.v ===== *)
(** internal/infrastructure/storage/db/badger: the repositories kept on disk.

    badgerhold, the embedded database, is the class [BadgerHold] of stores of
    records of one type, with its documented behaviour in [BadgerHoldLaws].  The
    context values that would select a transaction are set nowhere
    in the repository, so every operation runs on the store itself.  Modules
    [BadgerMarket], [BadgerTrade] and [BadgerTxs] hold the repositories. *)

From Stdlib Require Import ZArith Lia.
From stdpp Require Import base tactics strings list gmap sorting.
From S2P Require Import Prelude Errors Decimal Market Trade Repos.

(** * badgerhold *)

(** What the code asks of a query: the criteria, the arguments of Skip and
    Limit when they are called, and the field of SortBy when the result is sorted
    by it and reversed. *)
Record Query (V : Type) := {
  q_where : V → bool;
  q_page : option (Z * Z);
  q_sort : option (V → Z) }.
Arguments q_where {V} _.
Arguments q_page {V} _.
Arguments q_sort {V} _.

Definition all_records {V} : Query V := {| q_where := λ _, true; q_page := None; q_sort := None |}.
Definition Where {V} (p : V → bool) : Query V := {| q_where := p; q_page := None; q_sort := None |}.
(** [query.SortBy(field).Reverse()] *)
Definition sort_reverse {V} (field : V → Z) (q : Query V) : Query V :=
  {| q_where := q_where q; q_page := q_page q; q_sort := Some field |}.

(** [if page != nil { query.Skip(offset).Limit(size) }], the offset in int64. *)
Definition with_page {V} (page : option Page) (q : Query V) : Query V :=
  match page with
  | None => q
  | Some p => {| q_where := q_where q; q_page := Some (startIndex p, page_Size p); q_sort := q_sort q |}
  end.

Class BadgerHold (V S : Type) := {
  bh_Get : S → string → outcome error V;
  bh_Insert : string → V → action S error ();
  bh_Update : string → V → action S error ();
  bh_Upsert : string → V → action S error ();
  bh_Delete : string → action S error ();
  bh_Find : S → Query V → outcome error (list V);
}.

(** The documented effect of the writes on the records. *)
Definition insert_spec {V} (k : string) (v : V) (m : gmap string V) : gmap string V * outcome error () :=
  match m !! k with Some _ => (m, Err ErrKeyExists) | None => (<[k := v]> m, Ret ()) end.
Definition update_spec {V} (k : string) (v : V) (m : gmap string V) : gmap string V * outcome error () :=
  match m !! k with Some _ => (<[k := v]> m, Ret ()) | None => (m, Err ErrNotFound) end.
Definition upsert_spec {V} (k : string) (v : V) (m : gmap string V) : gmap string V * outcome error () :=
  (<[k := v]> m, Ret ()).
Definition delete_spec {V} (k : string) (m : gmap string V) : gmap string V * outcome error () :=
  match m !! k with Some _ => (delete k m, Ret ()) | None => (m, Err ErrNotFound) end.

(** Failures of the disk, conflicts of transactions: any error but the two that
    report on a key. *)
Definition storage_error (e : error) : Prop := e ≠ ErrNotFound ∧ e ≠ ErrKeyExists.

(** Records from [skip] on, [limit] of them. *)
Definition query_window {V} (page : option (Z * Z)) (l : list V) : list V :=
  match page with
  | None => l
  | Some (skip, limit) => take (Z.to_nat limit) (drop (Z.to_nat skip) l)
  end.
(** Negative arguments are refused by badgerhold, a limit of zero is not
    documented: nothing is assumed of them. *)
Definition valid_window (page : option (Z * Z)) : Prop :=
  match page with None => True | Some (skip, limit) => (0 ≤ skip ∧ 0 < limit)%Z end.

Definition map_values {V} (m : gmap string V) : list V := (map_to_list m).*2.

(** A write does what is documented, or fails and leaves the records alone. *)
Definition write_ok {V S} (records : S → gmap string V) (available : S → Prop)
    (write : action S error ()) (spec : gmap string V → gmap string V * outcome error ()) : Prop :=
  ∀ s s' o, write s = (s', o) →
    ((records s', o) = spec (records s) ∧ (available s → available s')) ∨
    (¬ available s ∧ records s' = records s ∧ ∃ e, storage_error e ∧ o = Err e).

(** [records s] are the records of a store; [available s] says that no
    operation fails for the disk or for a conflict, now or later. *)
Class BadgerHoldLaws (V S : Type) `{BadgerHold V S} := {
  records : S → gmap string V;
  available : S → Prop;
  Get_law s k :
    bh_Get s k = match records s !! k with Some v => Ret v | None => Err ErrNotFound end ∨
    (¬ available s ∧ ∃ e, storage_error e ∧ bh_Get s k = Err e);
  Insert_law k v : write_ok records available (bh_Insert k v) (insert_spec k v);
  Update_law k v : write_ok records available (bh_Update k v) (update_spec k v);
  Upsert_law k v : write_ok records available (bh_Upsert k v) (upsert_spec k v);
  Delete_law k : write_ok records available (bh_Delete k) (delete_spec k);
  (** The matching records come in an order that does not depend on the page,
      descending when sorted and reversed. *)
  Find_law s where_ sort : ∃ l,
    l ≡ₚ filter (λ v, where_ v = true) (map_values (records s)) ∧
    match sort with Some field => StronglySorted (desc field) l | None => True end ∧
    ∀ page, valid_window page →
      let q := {| q_where := where_; q_page := page; q_sort := sort |} in
      bh_Find s q = Ret (query_window page l) ∨
      (¬ available s ∧ ∃ e, storage_error e ∧ bh_Find s q = Err e);
}.

Lemma map_values_fmap {V W} (g : V → W) (m : gmap string V) : map_values (g <$> m) = g <$> map_values m.
Proof. unfold map_values. by rewrite map_to_list_fmap, <- !list_fmap_compose. Qed.
Lemma map_values_elem {V} (m : gmap string V) v : v ∈ map_values m ↔ ∃ k, m !! k = Some v.
Proof.
  unfold map_values. rewrite list_elem_of_fmap. split.
  - intros ([k x] & -> & Hk%elem_of_map_to_list). by exists k.
  - intros [k Hk]. exists (k, v). by rewrite elem_of_map_to_list.
Qed.
Lemma filter_fmap {V W} (p : W → bool) (p' : V → bool) (g : V → W) (l : list V) :
  (∀ v, p (g v) = p' v) → filter (λ w, p w = true) (g <$> l) = g <$> filter (λ v, p' v = true) l.
Proof.
  intros Hp. induction l as [|v l IH]; [done|]. rewrite fmap_cons, !filter_cons, Hp, IH.
  by destruct (decide _).
Qed.

(** ** The operations of an available store *)
Section available.
Context {V S : Type} `{BadgerHoldLaws V S}.

Lemma avail_Get (s : S) k :
  available s → bh_Get s k = match records s !! k with Some v => Ret v | None => Err ErrNotFound end.
Proof. intros Ha. destruct (Get_law s k) as [E|[? _]]; [exact E | done]. Qed.

Lemma avail_write (write : action S error ()) spec (s s' : S) o :
  write_ok records available write spec → available s → write s = (s', o) →
  (records s', o) = spec (records s) ∧ available s'.
Proof. intros Hw Ha E. destruct (Hw _ _ _ E) as [[? ?]|[? _]]; [by auto | done]. Qed.

Lemma avail_Insert k v (s s' : S) o :
  available s → bh_Insert k v s = (s', o) → (records s', o) = insert_spec k v (records s) ∧ available s'.
Proof. apply avail_write, Insert_law. Qed.
Lemma avail_Update k v (s s' : S) o :
  available s → bh_Update k v s = (s', o) → (records s', o) = update_spec k v (records s) ∧ available s'.
Proof. apply avail_write, Update_law. Qed.
Lemma avail_Upsert k v (s s' : S) o :
  available s → bh_Upsert k v s = (s', o) → (records s', o) = upsert_spec k v (records s) ∧ available s'.
Proof. apply avail_write, Upsert_law. Qed.
Lemma avail_Delete k (s s' : S) o :
  available s → bh_Delete k s = (s', o) → (records s', o) = delete_spec k (records s) ∧ available s'.
Proof. apply avail_write, Delete_law. Qed.

Lemma avail_Find (s : S) where_ sort :
  available s → ∃ l,
    l ≡ₚ filter (λ v, where_ v = true) (map_values (records s)) ∧
    match sort with Some field => StronglySorted (desc field) l | None => True end ∧
    ∀ page, valid_window page →
      bh_Find s {| q_where := where_; q_page := page; q_sort := sort |} = Ret (query_window page l).
Proof.
  intros Ha. destruct (Find_law s where_ sort) as (l & HP & HS & HF). exists l.
  split; [done|]. split; [done|]. intros page Hp. destruct (HF page Hp) as [E|[? _]]; done.
Qed.
End available.

(** * Markets *)
Module BadgerMarket.
Section defs.
Context {D : Type} `{DecimalOps D} {MS PS : Type} `{BadgerHold Market MS} `{BadgerHold MarketPrice PS}.

Record store := { markets : MS; priceStore : PS }.

Definition on_store {A} (m : action MS error A) : action store error A := λ s,
  let '(ms, o) := m (markets s) in ({| markets := ms; priceStore := priceStore s |}, o).
Definition on_prices {A} (m : action PS error A) : action store error A := λ s,
  let '(ps, o) := m (priceStore s) in ({| markets := markets s; priceStore := ps |}, o).

Definition with_price (p : MarketPrice) (m : Market) : Market := set_Strategy (StrategyType m) p m.

Definition getMarketPrice (s : store) (marketName : string) : outcome error MarketPrice :=
  match bh_Get (priceStore s) marketName with
  | Err _ => Err (Errorf "failed to get price for market %s: %s")
  | o => o
  end.

Definition updateMarketPrice (marketName : string) (price : MarketPrice) : action store error () :=
  res ← try (on_prices (bh_Upsert marketName price));
  match res with
  | inl _ => mret ()
  | inr _ => lift (Err (Errorf "failed to update price for market %s: %s"))
  end.

(** Every error of Insert but ErrKeyExists is ignored. *)
Definition insertMarket (market : Market) : action store error () :=
  res ← try (on_store (bh_Insert (Name market) market));
  match res with
  | inr ErrKeyExists => lift (Err (Errorf "market with assets %s %s already exists"))
  | _ => updateMarketPrice (Name market) (Price market)
  end.

Definition getMarket (s : store) (marketName : string) : outcome error Market :=
  match bh_Get (markets s) marketName with
  | Err ErrNotFound => Err (Errorf "market with name %s not found")
  | o => market ← o; price ← getMarketPrice s (Name market); Ret (with_price price market)
  end.

(** The price is cleared: it lives in the price store. *)
Definition updateMarket (market : Market) : action store error () :=
  let market := with_price empty_price market in
  res ← try (on_store (bh_Update (Name market) market));
  match res with
  | inl _ => mret ()
  | inr _ => lift (Err (Errorf "failed to update market %s: %s"))
  end.

Fixpoint fill_prices (s : store) (ms : list Market) : outcome error (list Market) :=
  match ms with
  | [] => Ret []
  | m :: ms => price ← getMarketPrice s (Name m); ms ← fill_prices s ms; Ret (with_price price m :: ms)
  end.
(** A failing Find leaves the slice empty. *)
Definition findMarkets (s : store) (query : Query Market) : outcome error (list Market) :=
  ms ← bh_Find (markets s) query; fill_prices s ms.

Definition GetMarketByAssets (s : store) (baseAsset quoteAsset : string) : outcome error Market :=
  ms ← findMarkets s (Where (λ m, bool_decide (BaseAsset m = baseAsset ∧ QuoteAsset m = quoteAsset)));
  match ms with
  | [] => Err (Errorf "market with assets %s %s not found")
  | m :: _ => Ret m
  end.

Definition GetTradableMarkets (s : store) : outcome error (list Market) :=
  findMarkets s (Where Tradable).
Definition GetAllMarkets (s : store) : outcome error (list Market) := findMarkets s all_records.

Definition UpdateMarket (marketName : string) (updateFn : Market → outcome error Market)
    : action store error () :=
  s ← get_state;
  currentMarket ← lift (getMarket s marketName);
  updatedMarket ← lift (updateFn currentMarket);
  updateMarket updatedMarket.

Definition OpenMarket (marketName : string) : action store error () :=
  s ← get_state;
  market ← lift (getMarket s marketName);
  if IsTradable market then mret ()
  else market ← lift (MakeTradable (D := D) market); updateMarket market.

Definition CloseMarket (marketName : string) : action store error () :=
  s ← get_state;
  market ← lift (getMarket s marketName);
  if negb (IsTradable market) then mret () else updateMarket (MakeNotTradable market).

(** The test on the error is the negation of the one the message suggests; the
    price is not deleted. *)
Definition DeleteMarket (marketName : string) : action store error () :=
  res ← try (on_store (bh_Delete marketName));
  match res with
  | inl _ => mret ()
  | inr ErrNotFound => lift (Err ErrNotFound)
  | inr _ => lift (Err (Errorf "market with name %s not found"))
  end.

#[global] Instance repository : MarketRepository store := {
  Repos.AddMarket := insertMarket;
  Repos.GetMarketByName := getMarket;
  Repos.GetMarketByAssets := GetMarketByAssets;
  Repos.GetTradableMarkets := GetTradableMarkets;
  Repos.GetAllMarkets := GetAllMarkets;
  Repos.UpdateMarket := UpdateMarket;
  Repos.OpenMarket := OpenMarket;
  Repos.CloseMarket := CloseMarket;
  Repos.UpdateMarketPrice := updateMarketPrice;
  Repos.DeleteMarket := DeleteMarket;
}.
End defs.
Arguments store : clear implicits.
End BadgerMarket.

(** * Trades *)
Module BadgerTrade.
Section defs.
Context {S : Type} `{BadgerHold Trade S}.

Definition insertTrade (trade : Trade) : action S error () :=
  res ← try (bh_Insert (tr_Id trade) trade);
  match res with
  | inl _ => mret ()
  | inr ErrKeyExists => lift (Err (Errorf "trade with id %s already exists"))
  | inr e => lift (Err e)
  end.

Definition getTrade (s : S) (id : string) : outcome error Trade :=
  match bh_Get s id with
  | Err ErrNotFound => Err (Errorf "trade with id %s not found")
  | o => o
  end.

(** [less i j] of sort.SliceStable; for trades that have a request, which
    every stored trade has, it is the order of descending timestamps. *)
Definition newer (t u : Trade) : bool :=
  match tr_SwapRequest t, tr_SwapRequest u with
  | Some r, Some q => (sw_Timestamp q <? sw_Timestamp r)%Z
  | _, _ => false
  end.
Fixpoint insert_newer (x : Trade) (l : list Trade) : list Trade :=
  match l with
  | [] => [x]
  | y :: l' => if newer y x then y :: insert_newer x l' else x :: l
  end.
Definition sort_newest (l : list Trade) : list Trade := foldr insert_newer [] l.

Definition findTrades (s : S) (query : Query Trade) : outcome error (list Trade) :=
  trades ← bh_Find s query; Ret (sort_newest trades).

Definition GetAllTrades (s : S) (page : option Page) : outcome error (list Trade) :=
  findTrades s (with_page page all_records).
Definition GetAllTradesByMarket (s : S) (marketName : string) (page : option Page)
    : outcome error (list Trade) :=
  findTrades s (with_page page (Where (λ t, bool_decide (tr_MarketName t = marketName)))).
Definition is_completed (t : Trade) : bool :=
  (TradeStatusCodeCompleted <=? Code (tr_Status t))%Z && negb (Failed (tr_Status t)).
Definition GetCompletedTradesByMarket (s : S) (marketName : string) (page : option Page)
    : outcome error (list Trade) :=
  findTrades s (with_page page
    (Where (λ t, bool_decide (tr_MarketName t = marketName) && is_completed t))).

Definition has_accept_id (swapAcceptId : string) (t : Trade) : bool :=
  match tr_SwapAccept t with Some a => bool_decide (sw_Id a = swapAcceptId) | None => false end.
Definition GetTradeBySwapAcceptId (s : S) (swapAcceptId : string) : outcome error Trade :=
  trades ← findTrades s (Where (has_accept_id swapAcceptId));
  match trades with
  | [] => Err (Errorf "trade with swap accept id %s not found")
  | t :: _ => Ret t
  end.
Definition GetTradeByTxId (s : S) (txId : string) : outcome error (option Trade) :=
  trades ← findTrades s (Where (λ t, bool_decide (tr_TxId t = txId)));
  Ret (head trades).

Definition isTransactionConflict (e : error) : bool := bool_decide (e = ErrConflict).

(** The loop that repeats the write on a conflict; [None] when [fuel] rounds
    were not enough. *)
Fixpoint updateTrade_loop (fuel : nat) (id : string) (trade : Trade) (s : S)
    : option (S * outcome error ()) :=
  match fuel with
  | 0 => None
  | Datatypes.S fuel =>
      match bh_Update id trade s with
      | (s', Err e) => if isTransactionConflict e then updateTrade_loop fuel id trade s'
                       else Some (s', Err e)
      | r => Some r
      end
  end.
Definition UpdateTrade (fuel : nat) (id : string) (updateFn : Trade → outcome error Trade) (s : S)
    : option (S * outcome error ()) :=
  match currentTrade ← getTrade s id; updateFn currentTrade with
  | Ret updatedTrade => updateTrade_loop fuel (tr_Id updatedTrade) updatedTrade s
  | Err e => Some (s, Err e)
  | Panic p => Some (s, Panic p)
  end.
End defs.
End BadgerTrade.

(** * Deposits and withdrawals *)
Module BadgerTxs.
Section defs.
Context {V S : Type} `{BadgerHold V S}.

(** insertDeposit and insertWithdrawal, under the key of the record. *)
Definition insert_one (key : V → string) (v : V) : action S error bool :=
  res ← try (bh_Insert (key v) v);
  match res with
  | inl _ => mret true
  | inr ErrKeyExists => mret false
  | inr e => lift (Err e)
  end.
(** insertDeposits and insertWithdrawals: the count of the new ones. *)
Fixpoint insert_all (key : V → string) (l : list V) (count : Z) : action S error Z :=
  match l with
  | [] => mret count
  | v :: l => ok ← insert_one key v; insert_all key l (if ok : bool then count + 1 else count)%Z
  end.
(** findDeposits and findWithdrawals *)
Definition find_sorted (timestamp : V → Z) (s : S) (query : Query V) : outcome error (list V) :=
  bh_Find s (sort_reverse timestamp query).
Definition get_all (timestamp : V → Z) (s : S) (page : option Page) : outcome error (list V) :=
  find_sorted timestamp s (with_page page all_records).
Definition get_for_account (accountName : V → string) (timestamp : V → Z) (s : S) (account : string)
    (page : option Page) : outcome error (list V) :=
  find_sorted timestamp s (with_page page (Where (λ v, bool_decide (accountName v = account)))).
End defs.

Section repositories.
Context {S : Type} `{BadgerHold Deposit S} {T : Type} `{BadgerHold Withdrawal T}.
Variable Hash160 : bytes → bytes.

Definition AddDeposits (deposits : list Deposit) : action S error Z :=
  insert_all (InmemoryTxs.Deposit_Key Hash160) deposits 0.
Definition GetDepositsForAccount (s : S) : string → option Page → outcome error (list Deposit) :=
  get_for_account dp_AccountName dp_Timestamp s.
Definition GetAllDeposits (s : S) : option Page → outcome error (list Deposit) :=
  get_all dp_Timestamp s.
Definition AddWithdrawals (withdrawals : list Withdrawal) : action T error Z :=
  insert_all wd_TxID withdrawals 0.
Definition GetWithdrawalsForAccount (s : T) : string → option Page → outcome error (list Withdrawal) :=
  get_for_account wd_AccountName wd_Timestamp s.
Definition GetAllWithdrawals (s : T) : option Page → outcome error (list Withdrawal) :=
  get_all wd_Timestamp s.
End repositories.
End BadgerTxs.
