(* ===== verification/BadgerCorrect.v ===== *)
(** The badger repositories are correct: the market store implements a map
    from names to markets and answers as the in-memory store of Repos.v does, trades
    and transactions are found as they were stored, and the loop that updates a
    trade ends.  Where the two market stores differ is stated too. *)

From Stdlib Require Import ZArith Lia.
From stdpp Require Import base tactics strings list gmap sorting.
From S2P Require Import Prelude Errors Decimal Market Trade Repos Badger.

(** * Theorems: markets *)

(** The operations of domain.MarketRepository, as data. *)
Inductive market_op :=
  | OpAdd (m : Market)
  | OpGet (name : string)
  | OpGetByAssets (baseAsset quoteAsset : string)
  | OpGetTradable
  | OpGetAll
  | OpUpdate (name : string) (f : Market → outcome error Market)
  | OpOpen (name : string)
  | OpClose (name : string)
  | OpPrice (name : string) (price : MarketPrice)
  | OpDelete (name : string).

Inductive market_result :=
  | RDone
  | RMarket (m : Market)
  | RMarkets (l : list Market).

(** Runs an operation on any repository. *)
Definition run_market_op {S} `{MarketRepository S} (op : market_op) : action S error market_result :=
  let unit_op (m : action S error ()) := _ ← m; mret RDone in
  match op with
  | OpAdd m => unit_op (AddMarket m)
  | OpGet n => s ← get_state; m ← lift (GetMarketByName s n); mret (RMarket m)
  | OpGetByAssets b q => s ← get_state; m ← lift (GetMarketByAssets s b q); mret (RMarket m)
  | OpGetTradable => s ← get_state; l ← lift (GetTradableMarkets s); mret (RMarkets l)
  | OpGetAll => s ← get_state; l ← lift (GetAllMarkets s); mret (RMarkets l)
  | OpUpdate n f => unit_op (UpdateMarket n f)
  | OpOpen n => unit_op (OpenMarket n)
  | OpClose n => unit_op (CloseMarket n)
  | OpPrice n p => unit_op (UpdateMarketPrice n p)
  | OpDelete n => unit_op (DeleteMarket n)
  end.

Section market_spec.
Context {D : Type} `{DecimalOps D}.
Implicit Types (A : gmap string Market).

(** A repository seen as a map from names to markets: what each operation may
    return and what it makes of the map. *)
Definition market_op_spec (op : market_op) (A A' : gmap string Market)
    (o : outcome error market_result) : Prop :=
  match op with
  | OpAdd m =>
      match A !! Name m with
      | Some _ => A' = A ∧ o = Err (Errorf "market with assets %s %s already exists")
      | None => A' = <[Name m := m]> A ∧ o = Ret RDone
      end
  | OpGet n => A' = A ∧ o = match A !! n with
      | Some m => Ret (RMarket m)
      | None => Err (Errorf "market with name %s not found")
      end
  | OpGetByAssets b q => A' = A ∧
      ((∃ n m, o = Ret (RMarket m) ∧ A !! n = Some m ∧ BaseAsset m = b ∧ QuoteAsset m = q) ∨
       (o = Err (Errorf "market with assets %s %s not found") ∧
        ∀ n m, A !! n = Some m → ¬ (BaseAsset m = b ∧ QuoteAsset m = q)))
  | OpGetTradable => A' = A ∧ ∃ l, o = Ret (RMarkets l) ∧
      l ≡ₚ filter (λ m, Tradable m = true) (map_values A)
  | OpGetAll => A' = A ∧ ∃ l, o = Ret (RMarkets l) ∧ l ≡ₚ map_values A
  | OpUpdate n f =>
      match A !! n with
      | None => A' = A ∧ o = Err (Errorf "market with name %s not found")
      | Some m =>
          match f m with
          | Ret m' => A' = <[n := BadgerMarket.with_price (Price m) m']> A ∧ o = Ret RDone
          | Err e => A' = A ∧ o = Err e
          | Panic p => A' = A ∧ o = Panic p
          end
      end
  | OpOpen n =>
      match A !! n with
      | None => A' = A ∧ o = Err (Errorf "market with name %s not found")
      | Some m =>
          if IsTradable m then A' = A ∧ o = Ret RDone
          else match MakeTradable (D := D) m with
               | Ret m' => A' = <[n := m']> A ∧ o = Ret RDone
               | Err e => A' = A ∧ o = Err e
               | Panic p => A' = A ∧ o = Panic p
               end
      end
  | OpClose n =>
      match A !! n with
      | None => A' = A ∧ o = Err (Errorf "market with name %s not found")
      | Some m => A' = (if IsTradable m then <[n := MakeNotTradable m]> A else A) ∧ o = Ret RDone
      end
  | OpPrice n p => A' = alter (BadgerMarket.with_price p) n A ∧ o = Ret RDone
  | OpDelete n =>
      A' = delete n A ∧ o = match A !! n with Some _ => Ret RDone | None => Err ErrNotFound end
  end.
End market_spec.

Lemma MakeTradable_Ret {D} `{DecimalOps D} m m' : MakeTradable (D := D) m = Ret m' → m' = set_Tradable true m.
Proof. unfold MakeTradable. intros HM. go_inv HM; done. Qed.
Lemma list_filter_all {V} (l : list V) : filter (λ _, true = true) l = l.
Proof. induction l as [|x l IH]; [done|]. by rewrite filter_cons_True, IH. Qed.

Section market_refinement.
Context {D : Type} `{DecimalOps D} {MS PS : Type} `{!BadgerHold Market MS} `{!BadgerHold MarketPrice PS}.
Context `{!BadgerHoldLaws Market MS} `{!BadgerHoldLaws MarketPrice PS}.
Import BadgerMarket.
Implicit Types (s : store MS PS) (m : Market).

(** The store as a map: each market with the price of the price store. *)
Definition view s : gmap string Market :=
  map_imap (λ n m, p ← records (priceStore s) !! n; Some (with_price p m)) (records (markets s)).

(** Markets are stored under their names and every one has a price; both
    databases work. *)
Definition store_ok s : Prop :=
  (∀ n m, records (markets s) !! n = Some m → Name m = n ∧ is_Some (records (priceStore s) !! n)) ∧
  available (markets s) ∧ available (priceStore s).

Lemma view_lookup s n :
  view s !! n = m ← records (markets s) !! n; p ← records (priceStore s) !! n; Some (with_price p m).
Proof. apply map_lookup_imap. Qed.

Lemma view_Some s n m :
  store_ok s → records (markets s) !! n = Some m →
  ∃ p, records (priceStore s) !! n = Some p ∧ Name m = n ∧ view s !! n = Some (with_price p m).
Proof.
  intros (HI & _) Hm. destruct (HI n m Hm) as [Hn [p Hp]]. exists p. rewrite view_lookup, Hm, Hp. done.
Qed.

Lemma view_None s n : store_ok s → view s !! n = None ↔ records (markets s) !! n = None.
Proof.
  intros Hok. destruct (records (markets s) !! n) as [m|] eqn:Hm.
  - destruct (view_Some s n m Hok Hm) as (p & _ & _ & ->). done.
  - rewrite view_lookup, Hm. done.
Qed.

Lemma view_name s n m : store_ok s → view s !! n = Some m → Name m = n.
Proof.
  intros Hok Hv. destruct (records (markets s) !! n) as [m0|] eqn:Hm.
  - destruct (view_Some s n m0 Hok Hm) as (p & _ & Hn & E). rewrite Hv in E. by injection E as ->.
  - apply (view_None s n Hok) in Hm. by rewrite Hm in Hv.
Qed.

Lemma with_price_twice p q m : with_price p (with_price q m) = with_price p m.
Proof. done. Qed.
Lemma with_price_id m : with_price (Price m) m = m.
Proof. by destruct m. Qed.

Lemma getMarketPrice_ok s n : store_ok s →
  getMarketPrice s n = match records (priceStore s) !! n with
    | Some p => Ret p | None => Err (Errorf "failed to get price for market %s: %s") end.
Proof. intros (_ & _ & Ha). unfold getMarketPrice. rewrite (avail_Get _ n Ha). by destruct (_ !! n). Qed.

Lemma getMarket_ok s n : store_ok s →
  getMarket s n = match view s !! n with
    | Some m => Ret m | None => Err (Errorf "market with name %s not found") end.
Proof.
  intros Hok. unfold getMarket. rewrite (avail_Get _ n) by apply Hok.
  destruct (records (markets s) !! n) as [m|] eqn:Hm.
  - destruct (view_Some s n m Hok Hm) as (p & Hp & Hn & ->). cbn.
    rewrite getMarketPrice_ok, Hn, Hp by done. done.
  - by rewrite (proj2 (view_None s n Hok) Hm).
Qed.

(** [updateMarket] of a market that is stored changes it and keeps its price. *)
Lemma updateMarket_ok s n m m' : store_ok s →
  view s !! n = Some m → Name m' = n →
  ∃ s', updateMarket m' s = (s', Ret ()) ∧ store_ok s' ∧ view s' = <[n := with_price (Price m) m']> (view s).
Proof.
  intros Hok Hv Hn. unfold updateMarket, mbind, action_bind, try, on_store. cbn [Name with_price set_Strategy].
  destruct (bh_Update (Name m') (with_price empty_price m') (markets s)) as [ms o] eqn:HU.
  destruct (avail_Update _ _ _ _ _ (proj1 (proj2 Hok)) HU) as [HR Ha]. unfold update_spec in HR.
  rewrite Hn in HR. destruct (records (markets s) !! n) as [m0|] eqn:Hm.
  2:{ apply (view_None s n Hok) in Hm. by rewrite Hm in Hv. }
  destruct (view_Some s n m0 Hok Hm) as (p & Hp & _ & Hv'). rewrite Hv in Hv'. injection Hv' as ->.
  injection HR as HR ->. eexists. split; [reflexivity|]. split.
  - split; cbn; [|split; [done | apply Hok]]. intros k mk. rewrite HR.
    destruct (decide (k = n)) as [->|].
    + rewrite lookup_insert_eq. intros [= <-]. by rewrite Hp.
    + rewrite lookup_insert_ne by done. apply Hok.
  - apply map_eq. intros k. rewrite view_lookup. cbn. rewrite HR.
    destruct (decide (k = n)) as [->|].
    + by rewrite !lookup_insert_eq, Hp.
    + rewrite !lookup_insert_ne by done. by rewrite view_lookup.
Qed.

Lemma updateMarketPrice_ok s n p : store_ok s →
  ∃ s', updateMarketPrice n p s = (s', Ret ()) ∧ store_ok s' ∧ view s' = alter (with_price p) n (view s) ∧
    records (markets s') = records (markets s) ∧ records (priceStore s') = <[n := p]> (records (priceStore s)).
Proof.
  intros Hok. unfold updateMarketPrice, mbind, action_bind, try, on_prices.
  destruct (bh_Upsert n p (priceStore s)) as [ps o] eqn:HU.
  destruct (avail_Upsert _ _ _ _ _ (proj2 (proj2 Hok)) HU) as [HR Ha]. injection HR as HR ->.
  eexists. split; [reflexivity|]. split; [|split; [|done]].
  - split; cbn; [|split; [apply Hok | done]]. intros k mk Hk. rewrite HR, lookup_insert_is_Some'.
    destruct (proj1 Hok k mk Hk). auto.
  - apply map_eq. intros k. rewrite view_lookup. cbn. rewrite HR. destruct (decide (k = n)) as [->|].
    + rewrite lookup_insert_eq, lookup_alter_eq, view_lookup.
      destruct (records (markets s) !! n) as [m|] eqn:Hm; [|done]. cbn.
      destruct (view_Some s n m Hok Hm) as (q & -> & _ & _). done.
    + by rewrite lookup_insert_ne, lookup_alter_ne, view_lookup by done.
Qed.

(** A successful insertion, with its price, adds the market. *)
Lemma insertMarket_ok s m : store_ok s →
  ∃ s' o, insertMarket m s = (s', o) ∧ store_ok s' ∧
    match view s !! Name m with
    | Some _ => view s' = view s ∧ o = Err (Errorf "market with assets %s %s already exists")
    | None => view s' = <[Name m := m]> (view s) ∧ o = Ret ()
    end.
Proof.
  intros Hok. unfold insertMarket, mbind at 1, action_bind at 1, try at 1, on_store.
  destruct (bh_Insert (Name m) m (markets s)) as [ms o] eqn:HI.
  destruct (avail_Insert _ _ _ _ _ (proj1 (proj2 Hok)) HI) as [HR Ha]. unfold insert_spec in HR.
  destruct (records (markets s) !! Name m) as [m0|] eqn:Hm; injection HR as HR ->.
  - destruct (view_Some s _ _ Hok Hm) as (p & _ & _ & ->).
    eexists _, _. split; [reflexivity|].
    split; [|split; [|done]].
    + split; cbn; [rewrite HR; apply Hok | split; [done | apply Hok]].
    + unfold view; cbn. by rewrite HR.
  - rewrite (proj2 (view_None s _ Hok) Hm). unfold updateMarketPrice, mbind, action_bind, try, on_prices; cbn.
    destruct (bh_Upsert (Name m) (Price m) (priceStore s)) as [ps o] eqn:HU.
    destruct (avail_Upsert _ _ _ _ _ (proj2 (proj2 Hok)) HU) as [HP Hb]. injection HP as HP ->.
    eexists _, _. split; [reflexivity|]. split; [|split; [|done]].
    + split; cbn; [|done]. intros k mk. rewrite HR, HP, lookup_insert_is_Some', lookup_insert_Some.
      intros [[<- <-]|[Hne Hk]]; [by auto|]. destruct (proj1 Hok k mk Hk). auto.
    + apply map_eq. intros k. rewrite view_lookup. cbn. rewrite HR, HP.
      destruct (decide (k = Name m)) as [->|].
      * rewrite !lookup_insert_eq. cbn. by rewrite with_price_id.
      * by rewrite !lookup_insert_ne, view_lookup by done.
Qed.

Lemma DeleteMarket_ok s n : store_ok s →
  ∃ s', DeleteMarket n s = (s', match view s !! n with Some _ => Ret () | None => Err ErrNotFound end) ∧
    store_ok s' ∧ view s' = delete n (view s).
Proof.
  intros Hok. unfold DeleteMarket, mbind, action_bind, try, on_store.
  destruct (bh_Delete n (markets s)) as [ms o] eqn:HD.
  destruct (avail_Delete _ _ _ _ (proj1 (proj2 Hok)) HD) as [HR Ha]. unfold delete_spec in HR.
  destruct (records (markets s) !! n) as [m0|] eqn:Hm; injection HR as HR ->.
  - destruct (view_Some s _ _ Hok Hm) as (p & _ & _ & ->).
    eexists. split; [reflexivity|]. split.
    + split; cbn; [|split; [done | apply Hok]]. intros k mk. rewrite HR, lookup_delete_Some.
      intros [_ Hk]. by apply Hok.
    + apply map_eq. intros k. rewrite view_lookup. cbn. rewrite HR. destruct (decide (k = n)) as [->|].
      * by rewrite !lookup_delete_eq.
      * by rewrite !lookup_delete_ne, view_lookup by done.
  - pose proof (proj2 (view_None s n Hok) Hm) as Hv. rewrite Hv. eexists. split; [reflexivity|]. split.
    + split; cbn; [rewrite HR; apply Hok | split; [done | apply Hok]].
    + rewrite delete_id by done. unfold view; cbn. by rewrite HR.
Qed.

Definition priced s (m : Market) : Market :=
  with_price (default empty_price (records (priceStore s) !! Name m)) m.

Lemma view_priced s : store_ok s → view s = priced s <$> records (markets s).
Proof.
  intros Hok. apply map_eq. intros n. rewrite lookup_fmap.
  destruct (records (markets s) !! n) as [m|] eqn:Hm.
  - destruct (view_Some s n m Hok Hm) as (p & Hp & Hn & ->). cbn. unfold priced. by rewrite Hn, Hp.
  - by apply view_None.
Qed.

Lemma fill_prices_ok s l : store_ok s →
  (∀ m, m ∈ l → ∃ n, records (markets s) !! n = Some m) → fill_prices s l = Ret (priced s <$> l).
Proof.
  intros Hok. induction l as [|m l IH]; intros Hl; [done|]. cbn [fill_prices].
  destruct (Hl m) as [n Hm]; [left|]. destruct (view_Some s n m Hok Hm) as (p & Hp & Hn & _).
  rewrite getMarketPrice_ok, Hn, Hp by done. cbn.
  rewrite IH by (intros; apply Hl; by right). cbn. unfold priced. by rewrite Hn, Hp.
Qed.

(** A query that does not look at prices finds the markets of the view. *)
Lemma findMarkets_ok s (p : Market → bool) : store_ok s → (∀ q m, p (with_price q m) = p m) →
  ∃ l, findMarkets s (Where p) = Ret l ∧ l ≡ₚ filter (λ m, p m = true) (map_values (view s)).
Proof.
  intros Hok Hp. destruct (avail_Find (markets s) p None) as (l & HP & _ & HF); [apply Hok|].
  exists (priced s <$> l). unfold findMarkets, Where. rewrite HF by done. cbn. split.
  - apply fill_prices_ok; [done|]. intros m Hm. rewrite HP in Hm.
    apply list_elem_of_filter in Hm as [_ Hm]. by apply map_values_elem.
  - rewrite HP, view_priced by done. rewrite map_values_fmap.
    rewrite (filter_fmap p p) by (intros m; apply Hp). done.
Qed.

Lemma run_unit_op {S} (m : action S error ()) (s s' : S) o :
  m s = (s', o) → (_ ← m; mret RDone) s = (s', _ ← o; Ret RDone).
Proof. intros E. unfold mbind, action_bind. rewrite E. by destruct o as [[]| |]. Qed.

Lemma OpenMarket_ok s n : store_ok s →
  ∃ s' o, OpenMarket (D := D) n s = (s', o) ∧ store_ok s' ∧
    market_op_spec (D := D) (OpOpen n) (view s) (view s') (_ ← o; Ret RDone).
Proof.
  intros Hok. unfold OpenMarket, get_state, lift, mbind at 1 2, action_bind at 1 2. cbn.
  rewrite getMarket_ok by done. destruct (view s !! n) as [m|] eqn:Hv; [|eauto 10].
  destruct (IsTradable m); [eauto 10|]. unfold mbind at 1, action_bind at 1.
  destruct (MakeTradable m) as [m'|e|p] eqn:HM; [|eauto 10..].
  apply MakeTradable_Ret in HM as ->.
  destruct (view_name s n m Hok Hv).
  destruct (updateMarket_ok s _ m (set_Tradable true m) Hok Hv eq_refl) as (s' & E & Hok' & HV).
  exists s', (Ret ()). split_and!; [done..|]. by destruct m.
Qed.

Lemma CloseMarket_ok s n : store_ok s →
  ∃ s' o, CloseMarket n s = (s', o) ∧ store_ok s' ∧
    market_op_spec (D := D) (OpClose n) (view s) (view s') (_ ← o; Ret RDone).
Proof.
  intros Hok. unfold CloseMarket, get_state, lift, mbind at 1 2, action_bind at 1 2. cbn.
  rewrite getMarket_ok by done. destruct (view s !! n) as [m|] eqn:Hv; [|eauto 10].
  destruct (IsTradable m); cbn; [|eauto 10]. destruct (view_name s n m Hok Hv).
  destruct (updateMarket_ok s _ m (MakeNotTradable m) Hok Hv eq_refl) as (s' & E & Hok' & HV).
  exists s', (Ret ()). split_and!; [done..|]. by destruct m.
Qed.

Lemma UpdateMarket_ok s n f : store_ok s → (∀ m m', f m = Ret m' → Name m' = Name m) →
  ∃ s' o, UpdateMarket n f s = (s', o) ∧ store_ok s' ∧
    market_op_spec (D := D) (OpUpdate n f) (view s) (view s') (_ ← o; Ret RDone).
Proof.
  intros Hok Hf. unfold UpdateMarket, get_state, lift, mbind at 1 2 3, action_bind at 1 2 3. cbn.
  rewrite getMarket_ok by done. destruct (view s !! n) as [m|] eqn:Hv; [|eauto 10].
  destruct (f m) as [m'| |] eqn:Efm; [|eauto 10..].
  pose proof (view_name s n m Hok Hv). pose proof (Hf _ _ Efm).
  destruct (updateMarket_ok s n m m' Hok Hv) as (s' & E & Hok' & HV); [congruence|].
  exists s', (Ret ()). split_and!; done.
Qed.

Lemma GetMarketByAssets_ok s b q : store_ok s →
  market_op_spec (D := D) (OpGetByAssets b q) (view s) (view s)
    (m ← GetMarketByAssets s b q; Ret (RMarket m)).
Proof.
  intros Hok. split; [done|]. unfold GetMarketByAssets.
  destruct (findMarkets_ok s (λ m, bool_decide (BaseAsset m = b ∧ QuoteAsset m = q)) Hok) as (l & -> & HP);
    [done|]. cbn. destruct l as [|m l]; cbn.
  - right. split; [done|]. intros n m Hv Hbq. apply (not_elem_of_nil m). rewrite HP.
    apply list_elem_of_filter. rewrite bool_decide_eq_true, map_values_elem. eauto.
  - left. assert (m ∈ m :: l) as Hm by left. rewrite HP in Hm.
    apply list_elem_of_filter in Hm as [[Hb Hq]%bool_decide_eq_true [n Hn]%map_values_elem]. eauto 10.
Qed.

Lemma badger_market_step op s :
  match op with OpUpdate _ f => ∀ m m', f m = Ret m' → Name m' = Name m | _ => True end →
  store_ok s →
  ∃ s' o, run_market_op (H := repository (D := D)) op s = (s', o) ∧ store_ok s' ∧
    market_op_spec (D := D) op (view s) (view s') o.
Proof.
  intros Hop Hok. destruct op as [m|n|b q| | |n f|n|n|n p|n]; cbn -[market_op_spec].
  - destruct (insertMarket_ok s m Hok) as (s' & o & E & Hok' & HV).
    exists s', (_ ← o; Ret RDone). split; [by apply run_unit_op|]. split; [done|]. cbn.
    destruct (view s !! Name m); by destruct HV as [? ->].
  - exists s, (m ← getMarket s n; Ret (RMarket m)). split; [unfold mbind, action_bind, lift; cbn; by destruct (getMarket s n)|].
    split; [done|]. rewrite getMarket_ok by done. cbn. by destruct (view s !! n).
  - exists s, (m ← GetMarketByAssets s b q; Ret (RMarket m)).
    split; [unfold mbind, action_bind, lift; cbn; by destruct (GetMarketByAssets s b q)|].
    split; [done | by apply GetMarketByAssets_ok].
  - destruct (findMarkets_ok s Tradable Hok) as (l & E & HP); [done|].
    exists s, (Ret (RMarkets l)). unfold GetTradableMarkets, mbind, action_bind, lift; cbn. rewrite E. eauto 10.
  - destruct (findMarkets_ok s (λ _, true) Hok) as (l & E & HP); [done|].
    exists s, (Ret (RMarkets l)). unfold GetAllMarkets, mbind, action_bind, lift, all_records; cbn.
    unfold Where in E. rewrite E. split_and!; [done..|]. exists l. split; [done|].
    by rewrite list_filter_all in HP.
  - destruct (UpdateMarket_ok s n f Hok Hop) as (s' & o & E & ? & ?).
    exists s', (_ ← o; Ret RDone). split; [by apply run_unit_op | done].
  - destruct (OpenMarket_ok s n Hok) as (s' & o & E & ? & ?).
    exists s', (_ ← o; Ret RDone). split; [by apply run_unit_op | done].
  - destruct (CloseMarket_ok s n Hok) as (s' & o & E & ? & ?).
    exists s', (_ ← o; Ret RDone). split; [by apply run_unit_op | done].
  - destruct (updateMarketPrice_ok s n p Hok) as (s' & E & ? & ? & _).
    exists s', (Ret RDone). split; [by apply (run_unit_op _ _ _ _ E) | done].
  - destruct (DeleteMarket_ok s n Hok) as (s' & E & ? & ?).
    eexists s', _. split; [by apply run_unit_op|]. split; [done|]. cbn. by destruct (view s !! n).
Qed.

(** the badger market repository implements a map from names to
    markets.  On databases that work, with every market stored under its name and
    priced, each operation keeps this state, returns what the map prescribes and
    changes the map as prescribed; in particular an update keeps the price
    whatever the update function says, and a price is stored without any check.
    Update functions keep the name of the market, as all of the daemon's do. *)
Theorem badger_market_refines op s :
  match op with OpUpdate _ f => ∀ m m', f m = Ret m' → Name m' = Name m | _ => True end →
  store_ok s →
  ∃ s' o, run_market_op (H := repository (D := D)) op s = (s', o) ∧ store_ok s' ∧
    market_op_spec (D := D) op (view s) (view s') o.
Proof. apply badger_market_step. Qed.
End market_refinement.

(** ** The two market repositories agree *)
Section market_equivalence.
Context {D : Type} `{DecimalOps D} `{MapOrder} {MS PS : Type}.
Context `{!BadgerHold Market MS} `{!BadgerHold MarketPrice PS}.
Context `{!BadgerHoldLaws Market MS} `{!BadgerHoldLaws MarketPrice PS}.
Variable Sum256 : bytes → bytes.

(** Everything but prices and the lookup by assets, where the two differ. *)
Definition common (op : market_op) : Prop :=
  match op with
  | OpPrice _ _ | OpGetByAssets _ _ => False
  | OpUpdate _ f => ∀ m m', f m = Ret m' → Name m' = Name m ∧ Price m' = Price m
  | _ => True
  end.

(** Lists in any order; the errors of deleting a missing market differ. *)
Definition same_answer (op : market_op) (o1 o2 : outcome error market_result) : Prop :=
  match op with
  | OpGetAll | OpGetTradable => ∃ l1 l2, o1 = Ret (RMarkets l1) ∧ o2 = Ret (RMarkets l2) ∧ l1 ≡ₚ l2
  | OpDelete _ => o1 = o2 ∨ ∃ e1 e2, o1 = Err e1 ∧ o2 = Err e2
  | _ => o1 = o2
  end.

(** A client's calls one after the other, errors included. *)
Fixpoint answers {S} {R : MarketRepository S} (ops : list market_op) (s : S)
    : S * list (outcome error market_result) :=
  match ops with
  | [] => (s, [])
  | op :: ops =>
      let '(s, o) := run_market_op op s in let '(s, l) := answers ops s in (s, o :: l)
  end.

Lemma range_values_map_values {V} (m : gmap string V) : range_values m ≡ₚ map_values m.
Proof. unfold range_values, range_items, map_values. by rewrite range_order_perm. Qed.

(** The spec determines the answer and the next map. *)
Lemma spec_deterministic op A A1 A2 o1 o2 : common op →
  market_op_spec (D := D) op A A1 o1 → market_op_spec (D := D) op A A2 o2 → A1 = A2 ∧ same_answer op o1 o2.
Proof.
  destruct op; cbn; intros Hop H1 H2; try done.
  - destruct (A !! Name m); naive_solver.
  - naive_solver.
  - destruct H1 as (-> & l1 & -> & HP1), H2 as (-> & l2 & -> & HP2). split; [done|].
    exists l1, l2. split_and!; [done..|]. by rewrite HP1, HP2.
  - destruct H1 as (-> & l1 & -> & HP1), H2 as (-> & l2 & -> & HP2). split; [done|].
    exists l1, l2. split_and!; [done..|]. by rewrite HP1, HP2.
  - destruct (A !! name) as [m|]; [destruct (f m)|]; naive_solver.
  - destruct (A !! name) as [m|]; [destruct (IsTradable m); [|destruct (MakeTradable m)]|]; naive_solver.
  - destruct (A !! name); naive_solver.
  - naive_solver.
Qed.

(** The in-memory store follows the same specification, but for the error of
    deleting a missing market. *)
Lemma inmemory_follows_spec op (s : InmemoryMarket.store) : common op →
  ∃ s' o o', run_market_op (H := InmemoryMarket.repository (D := D) Sum256) op s = (s', o) ∧
    market_op_spec (D := D) op (InmemoryMarket.markets s) (InmemoryMarket.markets s') o' ∧
    same_answer op o o'.
Proof.
  intros Hop.
  assert (∀ s' o, run_market_op (H := InmemoryMarket.repository (D := D) Sum256) op s = (s', o) →
            market_op_spec (D := D) op (InmemoryMarket.markets s) (InmemoryMarket.markets s') o →
            same_answer op o o →
            ∃ s' o o', run_market_op (H := InmemoryMarket.repository (D := D) Sum256) op s = (s', o) ∧
              market_op_spec (D := D) op (InmemoryMarket.markets s) (InmemoryMarket.markets s') o' ∧
              same_answer op o o') as Hdone by (intros; eauto 10).
  destruct op; cbn in Hop; try done;
    cbn [run_market_op AddMarket GetMarketByName GetTradableMarkets GetAllMarkets UpdateMarket OpenMarket
         CloseMarket DeleteMarket InmemoryMarket.repository] in *.
  - eapply Hdone; [apply run_unit_op, surjective_pairing| |done]. cbn.
    unfold InmemoryMarket.createMarket, InmemoryMarket.getMarketByName.
    by destruct (InmemoryMarket.markets s !! Name m).
  - eapply Hdone; [apply surjective_pairing| |done].
    unfold mbind, action_bind, lift, get_state, InmemoryMarket.getMarketByName; cbn.
    by destruct (InmemoryMarket.markets s !! name).
  - eapply Hdone; [reflexivity| |cbn; eauto 10]. cbn. split; [done|]. eexists. split; [done|].
    by rewrite range_values_map_values.
  - eapply Hdone; [reflexivity| |cbn; eauto 10]. cbn. split; [done|]. eexists. split; [done|].
    by rewrite range_values_map_values.
  - eapply Hdone; [apply run_unit_op, surjective_pairing| |done]. cbn.
    unfold InmemoryMarket.updateMarket, InmemoryMarket.getMarketByName.
    destruct (InmemoryMarket.markets s !! name) as [m|]; cbn; [|done].
    destruct (f m) as [m'| |] eqn:Ef; cbn; [|done..].
    destruct (Hop _ _ Ef) as [_ <-]. by rewrite with_price_id.
  - eapply Hdone; [apply run_unit_op, surjective_pairing| |done]. cbn.
    unfold InmemoryMarket.openMarket, InmemoryMarket.getMarketByName.
    destruct (InmemoryMarket.markets s !! name) as [m|]; cbn; [|done].
    destruct (IsTradable m); [done|]. by destruct (MakeTradable m).
  - eapply Hdone; [apply run_unit_op, surjective_pairing| |done]. cbn.
    unfold InmemoryMarket.closeMarket, InmemoryMarket.getMarketByName.
    destruct (InmemoryMarket.markets s !! name) as [m|]; cbn; [|done]. by destruct (IsTradable m).
  - unfold InmemoryMarket.deleteMarket, mbind, action_bind.
    destruct (InmemoryMarket.markets s !! name) as [m|] eqn:E; cbn.
    + eexists _, _, (Ret RDone). split; [done|]. rewrite E. cbn. auto.
    + eexists _, _, (Err ErrNotFound). split; [done|]. rewrite E, delete_id by done. cbn. eauto 10.
Qed.

Lemma same_answer_trans op o1 o2 o3 :
  same_answer op o1 o2 → same_answer op o3 o2 → same_answer op o1 o3.
Proof.
  destruct op; cbn; try (by intros -> ->); try naive_solver.
  all: intros (l1 & l2 & -> & -> & HP) (l3 & l2' & -> & [= <-] & HP'); exists l1, l3; split_and!; [done..|]; by rewrite HP, HP'.
Qed.

(** C18: the two implementations of the market repository are
    interchangeable for their clients, apart from prices and the lookup by assets.
    Starting from stores that hold the same markets, any sequence of
    calls that adds, reads, lists, updates (keeping name and price), opens, closes
    and deletes markets gets the same answers from the in-memory store and from
    the badger store, lists up to order and the error of deleting a
    missing market up to its text; and afterwards they still hold the same
    markets. *)
Theorem market_stores_agree ops (s : InmemoryMarket.store) (b : BadgerMarket.store MS PS) :
  Forall common ops → store_ok b → view b = InmemoryMarket.markets s →
  let '(s', l1) := answers (R := InmemoryMarket.repository (D := D) Sum256) ops s in
  let '(b', l2) := answers (R := BadgerMarket.repository (D := D)) ops b in
  Forall2 (λ op '(o1, o2), same_answer op o1 o2) ops (zip l1 l2) ∧
  length l1 = length l2 ∧ view b' = InmemoryMarket.markets s' ∧ store_ok b'.
Proof.
  revert s b. induction ops as [|op ops IH]; intros s b Hops Hok HV; cbn.
  { by split_and!. }
  apply Forall_cons in Hops as [Hop Hops].
  destruct (inmemory_follows_spec op s Hop) as (s1 & o1 & o1' & -> & HS1 & HA1).
  destruct (badger_market_step op b) as (b1 & o2 & -> & Hok1 & HS2); [|done|].
  { destruct op; cbn in Hop; try done. naive_solver. }
  rewrite HV in HS2. destruct (spec_deterministic op _ _ _ _ _ Hop HS2 HS1) as [HV1 HA2].
  specialize (IH s1 b1 Hops Hok1 HV1). cbn in IH.
  destruct (answers ops s1) as [s' l1], (answers ops b1) as [b' l2].
  destruct IH as (HF & HL & ? & ?). cbn. split_and!; [|by f_equal|done|done].
  constructor; [|done]. by eapply same_answer_trans.
Qed.
End market_equivalence.

(** ** Where they differ *)
Section market_differences.
Context {D : Type} `{DecimalOps D} {MS PS : Type}.
Context `{!BadgerHold Market MS} `{!BadgerHold MarketPrice PS}.
Context `{!BadgerHoldLaws Market MS} `{!BadgerHoldLaws MarketPrice PS}.
Import BadgerMarket.
Variable Sum256 : bytes → bytes.

(** Making a market's strategy pluggable resets its price, so that it cannot be
    opened before a new price is set; the in-memory store keeps that
    promise.  The badger store drops the reset: the market opens at once
    with the price it had before. *)
Theorem stale_price_after_strategy_change (s : store MS PS) (i : InmemoryMarket.store) n m :
  store_ok s → view s !! n = Some m → InmemoryMarket.markets i !! n = Some m →
  Tradable m = false → IsStrategyPluggable m = false → price_IsZero (D := D) (Price m) = false →
  price_IsZero (D := D) empty_price = true →
  (∃ s1 s2, UpdateMarket n MakeStrategyPluggable s = (s1, Ret ()) ∧
     OpenMarket (D := D) n s1 = (s2, Ret ()) ∧
     ∃ m2, view s2 !! n = Some m2 ∧ IsStrategyPluggable m2 = true ∧ IsTradable m2 = true ∧
       Price m2 = Price m) ∧
  ∃ i1, InmemoryMarket.updateMarket Sum256 n MakeStrategyPluggable i = (i1, Ret ()) ∧
    InmemoryMarket.openMarket (D := D) n i1 = (i1, Err ErrMarketNotPriced).
Proof.
  intros Hok Hv Hi Ht Hs Hp H0.
  assert (MakeStrategyPluggable m = Ret (set_Strategy StrategyTypePluggable empty_price m)) as HM.
  { unfold MakeStrategyPluggable, IsTradable. by rewrite Ht. }
  split.
  - destruct (UpdateMarket_ok (D := D) s n MakeStrategyPluggable Hok) as (s1 & o1 & E1 & Hok1 & HV1).
    { unfold MakeStrategyPluggable. intros m1 m2 HM'. by go_inv HM'. }
    cbn in HV1. rewrite Hv, HM in HV1. destruct HV1 as [HV1 Ho1].
    destruct (OpenMarket_ok (D := D) s1 n Hok1) as (s2 & o2 & E2 & Hok2 & HV2). cbn in HV2.
    rewrite HV1, lookup_insert_eq in HV2. unfold IsTradable at 1 in HV2. cbn in HV2. rewrite Ht in HV2.
    unfold MakeTradable in HV2. cbn in HV2. rewrite Hp, ?andb_false_r in HV2.
    destruct HV2 as [HV2 Ho2]. exists s1, s2.
    split; [by destruct o1 as [[]| |]|]. split; [by destruct o2 as [[]| |]|].
    eexists. rewrite HV2, lookup_insert_eq. split_and!; done.
  - unfold InmemoryMarket.updateMarket, InmemoryMarket.getMarketByName. rewrite Hi. cbn. rewrite HM.
    eexists. split; [done|]. unfold InmemoryMarket.openMarket, InmemoryMarket.getMarketByName.
    cbn. rewrite lookup_insert_eq. unfold IsTradable. cbn. rewrite Ht.
    unfold MakeTradable, IsStrategyPluggable. cbn. by rewrite H0.
Qed.

(** A disk failure while a market is inserted is reported as a success:
    AddMarket returns no error, and the market is not there. *)
Theorem failed_insert_reported_as_success (s : store MS PS) m ms e :
  bh_Insert (Name m) m (markets s) = (ms, Err e) → storage_error e → available (priceStore s) →
  records ms = records (markets s) →
  ∃ s', insertMarket m s = (s', Ret ()) ∧ records (markets s') = records (markets s).
Proof.
  intros HI [_ He] Ha HR. unfold insertMarket, mbind at 1, action_bind at 1, try at 1, on_store. rewrite HI.
  unfold updateMarketPrice, mbind, action_bind, try, on_prices.
  destruct (bh_Upsert (Name m) (Price m) (priceStore s)) as [ps o] eqn:HU.
  destruct (avail_Upsert _ _ _ _ _ Ha HU) as [HP _]. injection HP as _ ->.
  destruct e; try done; cbn; rewrite HU; eexists; split; done.
Qed.
End market_differences.

(** * Theorems: trades *)
Section trade_theorems.
Context {S : Type} `{!BadgerHold Trade S} `{!BadgerHoldLaws Trade S}.
Import BadgerTrade.
Implicit Types (s : S) (t : Trade).

Definition requested (t : Trade) : Prop := is_Some (tr_SwapRequest t).

Lemma insert_newer_desc t l : requested t → Forall requested l →
  insert_newer t l = insert_desc InmemoryTrade.request_time t l.
Proof.
  intros [r Hr] Hl. induction Hl as [|u l [q Hq] Hl IH]; [done|]. cbn.
  unfold newer. rewrite Hq, Hr. unfold InmemoryTrade.request_time. rewrite Hq, Hr.
  rewrite IH. destruct (Z.ltb_spec (sw_Timestamp r) (sw_Timestamp q)), (Z.leb_spec (sw_Timestamp q) (sw_Timestamp r));
    done || lia.
Qed.

Lemma insert_newer_perm t l : insert_newer t l ≡ₚ t :: l.
Proof.
  induction l as [|u l IH]; [done|]. cbn. destruct (newer u t); [|done]. rewrite IH. apply Permutation_swap.
Qed.
Lemma sort_newest_perm l : sort_newest l ≡ₚ l.
Proof.
  induction l as [|t l IH]; [done|]. change (sort_newest (t :: l)) with (insert_newer t (sort_newest l)).
  by rewrite insert_newer_perm, IH.
Qed.

(** On trades that have a request the sort is the one of the in-memory store. *)
Lemma sort_newest_desc l : Forall requested l → sort_newest l = sort_desc InmemoryTrade.request_time l.
Proof.
  induction 1 as [|t l Ht Hl IH]; [done|].
  change (sort_newest (t :: l)) with (insert_newer t (sort_newest l)).
  change (sort_desc InmemoryTrade.request_time (t :: l))
    with (insert_desc InmemoryTrade.request_time t (sort_desc InmemoryTrade.request_time l)).
  rewrite <- IH. apply insert_newer_desc; [done|]. by rewrite sort_newest_perm.
Qed.

(** Pages with a positive size whose bounds fit an int64. *)
Lemma page_window_query {V} n z (l : list V) : (1 ≤ n)%Z → (0 < z)%Z → (n * z < 2 ^ 63)%Z →
  let p := {| page_Number := n; page_Size := z |} in
  valid_window (Some (startIndex p, page_Size p)) ∧
  query_window (Some (startIndex p, page_Size p)) l = page_window p l.
Proof.
  intros Hn Hz Hlt p. assert (startIndex p = (n - 1) * z)%Z as HS.
  { unfold startIndex, p; cbn. rewrite (i64_id (n * z)) by (unfold is_i64; nia).
    rewrite i64_id by (unfold is_i64; nia). lia. }
  split; [cbn; rewrite HS; nia|]. unfold p at 3. rewrite page_window_slice by lia.
  unfold query_window. by rewrite HS.
Qed.

(** What findTrades returns for a query with or without a page. *)
Lemma findTrades_ok s p : available s → ∃ l,
  l ≡ₚ filter (λ t, p t = true) (map_values (records s)) ∧
  findTrades s (Where p) = Ret (sort_newest l) ∧
  ∀ n z, (1 ≤ n)%Z → (0 < z)%Z → (n * z < 2 ^ 63)%Z →
    let page := {| page_Number := n; page_Size := z |} in
    findTrades s (with_page (Some page) (Where p)) = Ret (sort_newest (page_window page l)).
Proof.
  intros Ha. destruct (avail_Find s p None Ha) as (l & HP & _ & HF). exists l. split; [done|].
  unfold findTrades, Where, with_page; cbn. rewrite HF by done. split; [done|].
  intros n z Hn Hz Hlt. destruct (page_window_query n z l Hn Hz Hlt) as [HV HW].
  rewrite HF by done. cbn in *. by rewrite HW.
Qed.

(** A found trade, when at most one stored trade matches. *)
Lemma findTrades_unique s p k t : available s → records s !! k = Some t → p t = true →
  (∀ k' t', records s !! k' = Some t' → p t' = true → t' = t) →
  ∃ l, findTrades s (Where p) = Ret (t :: l).
Proof.
  intros Ha Hk Hp Hu. destruct (findTrades_ok s p Ha) as (l & HP & E & _). rewrite E.
  assert (∀ x, x ∈ sort_newest l ↔ p x = true ∧ ∃ k, records s !! k = Some x) as Hin.
  { intros x. by rewrite sort_newest_perm, HP, list_elem_of_filter, map_values_elem. }
  destruct (sort_newest l) as [|x l'].
  - destruct (not_elem_of_nil t). apply Hin. eauto.
  - destruct (proj1 (Hin x)) as [Hx [k' Hk']]; [left|]. rewrite (Hu _ _ Hk' Hx). eauto.
Qed.

Lemma insertTrade_ok s t : available s →
  ∃ s' o, insertTrade t s = (s', o) ∧ available s' ∧
    match records s !! tr_Id t with
    | Some _ => records s' = records s ∧ o = Err (Errorf "trade with id %s already exists")
    | None => o = Ret () ∧ getTrade s' (tr_Id t) = Ret t ∧
        (∀ k, k ≠ tr_Id t → getTrade s' k = getTrade s k) ∧
        ∀ a, tr_SwapAccept t = Some a →
          (∀ k u, records s !! k = Some u → has_accept_id (sw_Id a) u = false) →
          GetTradeBySwapAcceptId s' (sw_Id a) = Ret t
    end.
Proof.
  intros Ha.
  unfold insertTrade, mbind, action_bind, try.
  destruct (bh_Insert (tr_Id t) t s) as [s' o] eqn:HI.
  destruct (avail_Insert _ _ _ _ _ Ha HI) as [HR Ha']. unfold insert_spec in HR.
  destruct (records s !! tr_Id t) as [u|] eqn:Hu; injection HR as HR ->; [by eauto 10|].
  exists s', (Ret ()). split_and!; [done..| | |].
  - unfold getTrade. rewrite avail_Get, HR, lookup_insert_eq by done. done.
  - intros k Hk. unfold getTrade. rewrite !avail_Get, HR, lookup_insert_ne by done. done.
  - intros a Hacc Hnone. unfold GetTradeBySwapAcceptId.
    destruct (findTrades_unique s' (has_accept_id (sw_Id a)) (tr_Id t) t Ha') as [l ->].
    + by rewrite HR, lookup_insert_eq.
    + unfold has_accept_id. rewrite Hacc. by apply bool_decide_eq_true.
    + intros k u. rewrite HR, lookup_insert_Some. intros [[_ <-]|[_ Hk]] Hh; [done|].
      rewrite (Hnone k u Hk) in Hh. done.
    + done.
Qed.

(** the badger trade repository finds what was stored.  On a working
    database, after a successful AddTrade the trade is found by its
    id and, unless another trade has the same one, by the id of its
    swap accept message (which the in-memory store misses); a trade whose id is taken
    is refused and changes nothing; the completed trades of a market are
    exactly those, newest first; and the pages of the list of all trades
    contain every trade once, each page sorted on its own. *)
Theorem badger_trades_correct s : available s → (∀ k t, records s !! k = Some t → requested t) →
  (∀ t, ∃ s' o, insertTrade t s = (s', o) ∧ available s' ∧
     match records s !! tr_Id t with
     | Some _ => records s' = records s ∧ o = Err (Errorf "trade with id %s already exists")
     | None => o = Ret () ∧ getTrade s' (tr_Id t) = Ret t ∧
         (∀ k, k ≠ tr_Id t → getTrade s' k = getTrade s k) ∧
         ∀ a, tr_SwapAccept t = Some a →
           (∀ k u, records s !! k = Some u → has_accept_id (sw_Id a) u = false) →
           GetTradeBySwapAcceptId s' (sw_Id a) = Ret t
     end) ∧
  (∀ name, ∃ l, GetCompletedTradesByMarket s name None = Ret l ∧
     StronglySorted (desc InmemoryTrade.request_time) l ∧
     l ≡ₚ filter (λ t, bool_decide (tr_MarketName t = name) && is_completed t = true)
           (map_values (records s))) ∧
  ∃ all, all ≡ₚ map_values (records s) ∧
    ∀ n z, (1 ≤ n)%Z → (0 < z)%Z → (n * z < 2 ^ 63)%Z →
      let page := {| page_Number := n; page_Size := z |} in
      GetAllTrades s (Some page) = Ret (sort_desc InmemoryTrade.request_time (page_window page all)).
Proof.
  intros Ha Hreq. split_and!.
  - intros t. by apply insertTrade_ok.
  - intros name. unfold GetCompletedTradesByMarket, with_page.
    destruct (findTrades_ok s (λ t, bool_decide (tr_MarketName t = name) && is_completed t) Ha)
      as (l & HP & -> & _).
    assert (Forall requested l) as HF.
    { rewrite HP. apply Forall_forall. intros t [_ [k Hk]%map_values_elem]%list_elem_of_filter. eauto. }
    eexists. split; [done|]. rewrite sort_newest_desc by done.
    split; [apply sort_desc_sorted | by rewrite sort_desc_perm].
  - destruct (findTrades_ok s (λ _, true) Ha) as (l & HP & _ & HF). exists l.
    rewrite list_filter_all in HP. split; [done|]. intros n z Hn Hz Hlt. cbn.
    unfold GetAllTrades. change all_records with (Where (V := Trade) (λ _, true)).
    rewrite HF by done. rewrite sort_newest_desc; [done|].
    assert (Forall requested l) as Hl.
    { rewrite HP. apply Forall_forall. intros t [k Hk]%map_values_elem. eauto. }
    rewrite page_window_slice by lia. by apply Forall_take, Forall_drop.
Qed.
End trade_theorems.

(** ** Updating a trade *)
Section trade_updates.
Context {S : Type} `{!BadgerHold Trade S} `{!BadgerHoldLaws Trade S}.
Import BadgerTrade.
Implicit Types (s : S) (t : Trade).

(** Writes that other transactions are going to win against this store's
    before one of its own gets through. *)
Variable conflicts : S → nat.
Hypothesis conflicts_decrease : ∀ k t s s', bh_Update k t s = (s', Err ErrConflict) → conflicts s' < conflicts s.

(** What one update of the stored trade may end with. *)
Definition update_result (id : string) (t : Trade) (s s' : S) (o : outcome error ()) : Prop :=
  match o with
  | Ret _ => is_Some (records s !! id) ∧ records s' = <[id := t]> (records s)
  | Err e => records s' = records s ∧ e ≠ ErrConflict ∧
      (e = ErrNotFound ∧ records s !! id = None ∨ storage_error e ∧ ¬ available s)
  | Panic _ => False
  end.

Lemma updateTrade_loop_ends id t fuel s : conflicts s < fuel →
  ∃ s' o, updateTrade_loop fuel id t s = Some (s', o) ∧ update_result id t s s' o.
Proof.
  revert s. induction fuel as [|fuel IH]; intros s Hf; [lia|]. cbn.
  destruct (bh_Update id t s) as [s1 o1] eqn:HU.
  destruct (Update_law id t _ _ _ HU) as [[HR _]|(Ha & HR & e & He & ->)].
  - unfold update_spec in HR. destruct (records s !! id) eqn:Hid; injection HR as HR ->; cbn.
    + eexists _, _. split; [done|]. cbn. by rewrite Hid.
    + eexists _, _. split; [done|]. cbn. auto.
  - unfold isTransactionConflict. case_bool_decide as Hc.
    + subst e. destruct (IH s1) as (s' & o & E & HRes).
      { apply conflicts_decrease in HU. lia. }
      exists s', o. split; [done|]. unfold update_result in *. rewrite HR in HRes.
      destruct o; [done| |done]. destruct HRes as (? & ? & [?|[? _]]); auto.
    + eexists _, _. split; [done|]. cbn. auto.
Qed.

(** UpdateTrade ends.  The loop that repeats the write after a
    conflict leaves as soon as the store stops losing against other transactions:
    one round more than the conflicts to come is enough.  The trade found under the
    id is replaced by what the update function makes of it, and on any error
    (trade or key not found, the function's own, the disk) the records are
    unchanged; a conflict is never returned unless the function returns it. *)
Theorem update_trade_ends id f s :
  ∃ s' o, UpdateTrade (1 + conflicts s) id f s = Some (s', o) ∧
    match o with
    | Ret _ => ∃ t t', records s !! id = Some t ∧ f t = Ret t' ∧
        records s' = <[tr_Id t' := t']> (records s)
    | Err e => records s' = records s ∧ (e = ErrConflict → ¬ available s ∨ ∃ t, f t = Err ErrConflict)
    | Panic _ => records s' = records s ∧ ∃ t p, f t = Panic p
    end ∧
    (available s → records s !! id = None → o = Err (Errorf "trade with id %s not found")).
Proof.
  unfold UpdateTrade, getTrade.
  destruct (Get_law s id) as [E|(Ha & e & [He _] & E)]; rewrite E.
  2:{ destruct e; try done; eexists _, _; (split; [done|]; cbn; split; [auto | done]). }
  destruct (records s !! id) as [t|] eqn:Hid; cbn.
  2:{ eexists _, _. split; [done|]. cbn. naive_solver. }
  destruct (f t) as [t'|e|p] eqn:Hf; cbn [mbind outcome_bind].
  2-3: eexists _, _; (split; [done|]); cbn; naive_solver.
  destruct (updateTrade_loop_ends (tr_Id t') t' (1 + conflicts s) s) as (s' & o & EL & HRes); [lia|].
  exists s', o. split; [done|]. split; [|done].
  destruct o as [[]|e|p]; cbn in HRes; [|naive_solver|done].
  exists t, t'. naive_solver.
Qed.

(** Reading and writing are separate transactions: when two updates of one trade
    both read before either writes, both succeed and the first one is lost. *)
Theorem concurrent_update_lost id s t t1 t2 :
  available s → records s !! id = Some t →
  bh_Get s id = Ret t ∧
  ∃ s1 s2, updateTrade_loop 1 id t1 s = Some (s1, Ret ()) ∧
    updateTrade_loop 1 id t2 s1 = Some (s2, Ret ()) ∧ getTrade s2 id = Ret t2.
Proof.
  intros Ha Hid. rewrite avail_Get, Hid by done. split; [done|]. cbn.
  destruct (bh_Update id t1 s) as [s1 o1] eqn:H1.
  destruct (avail_Update _ _ _ _ _ Ha H1) as [HR1 Ha1]. unfold update_spec in HR1. rewrite Hid in HR1.
  injection HR1 as HR1 ->. exists s1.
  destruct (bh_Update id t2 s1) as [s2 o2] eqn:H2.
  destruct (avail_Update _ _ _ _ _ Ha1 H2) as [HR2 Ha2]. unfold update_spec in HR2.
  rewrite HR1, lookup_insert_eq in HR2. injection HR2 as HR2 ->. exists s2. split_and!; [done..|].
  unfold getTrade. by rewrite avail_Get, HR2, lookup_insert_eq.
Qed.
End trade_updates.

(** * Theorems: deposits and withdrawals *)
Section txs_theorems.
Context {V S : Type} `{!BadgerHold V S} `{!BadgerHoldLaws V S}.
Import BadgerTxs.

Lemma insert_one_cases key (v : V) (s s' : S) o : insert_one key v s = (s', o) →
  (records s' = records s ∧ ∃ e, o = Err e ∧ storage_error e ∧ ¬ available s) ∨
  ((available s → available s') ∧
   match records s !! key v with
   | Some _ => records s' = records s ∧ o = Ret false
   | None => records s' = <[key v := v]> (records s) ∧ o = Ret true
   end).
Proof.
  unfold insert_one, mbind, action_bind, try. destruct (bh_Insert (key v) v s) as [s1 o1] eqn:HI.
  destruct (Insert_law _ _ _ _ _ HI) as [[HR Ha]|(Ha & HR & e & He & ->)].
  - unfold insert_spec in HR. destruct (records s !! key v); injection HR as HR ->; intros [= <- <-]; auto.
  - destruct He as [He1 He2]. intros E. left. destruct e; try done; injection E as <- <-;
      (split; [done|]; eexists; split_and!; done).
Qed.

(** One more record in front. *)
Lemma add_missing_cons (key : V → string) v l m :
  InmemoryTxs.add_missing key (v :: l) m =
  match m !! key v with
  | Some _ => InmemoryTxs.add_missing key l m
  | None => let r := InmemoryTxs.add_missing key l (<[key v := v]> m) in (fst r, 1 + snd r)%Z
  end.
Proof.
  unfold InmemoryTxs.add_missing.
  match goal with |- context [foldl ?f _ (v :: l)] => set (add := f) end.
  assert (∀ l c m, foldl add (m, c) l
    = let r := foldl add (m, 0%Z) l in (fst r, c + snd r)%Z) as Hfold.
  { clear. induction l as [|w l IH]; intros c m'; cbn; [by rewrite Z.add_0_r|].
    destruct (m' !! key w); [apply IH|]. rewrite (IH (c + 1)%Z), (IH 1%Z). cbn. f_equal. lia. }
  cbn. destruct (m !! key v); [done|]. apply Hfold.
Qed.

(** Inserting one by one is the loop of the in-memory store, as far as the disk
    works. *)
Lemma insert_all_add_missing key l count (s s' : S) o : insert_all key l count s = (s', o) →
  ∃ l1 l2, l = l1 ++ l2 ∧ records s' = fst (InmemoryTxs.add_missing key l1 (records s)) ∧
    match o with
    | Ret n => l2 = [] ∧ n = (count + snd (InmemoryTxs.add_missing key l (records s)))%Z
    | Err e => l2 ≠ [] ∧ storage_error e ∧ ¬ available s
    | Panic _ => False
    end.
Proof.
  revert count s. induction l as [|v l IH]; intros count s; cbn [insert_all].
  { intros [= <- <-]. exists [], []. cbn. by rewrite Z.add_0_r. }
  unfold mbind, action_bind. destruct (insert_one key v s) as [s1 o1] eqn:H1.
  destruct (insert_one_cases _ _ _ _ _ H1) as [(HR & e & -> & He & Ha)|(Ha & HR)].
  { intros [= <- <-]. exists [], (v :: l). by split_and!. }
  rewrite add_missing_cons.
  destruct (records s !! key v) eqn:Hk; destruct HR as [HR ->]; intros (l1 & l2 & -> & HRec & Ho)%IH;
    exists (v :: l1), l2; (split; [done|]); rewrite HR in HRec, Ho; rewrite add_missing_cons, Hk; cbn.
  all: split; [done|]; destruct o; [|naive_solver|done]; destruct Ho as [-> ->]; split; [done|]; cbn; lia.
Qed.

(** deposits and withdrawals in badger.  A call that returns has added
    exactly what the in-memory store adds, the records whose key is new, and
    returns their number; it always returns on a working database.  When the disk
    fails, the records before the failing one stay added.  Lists come newest
    first: the pages are those of one list of all the records (of the account)
    sorted by timestamp. *)
Theorem badger_txs_correct (key : V → string) (account : V → string) (timestamp : V → Z) (s : S) :
  (∀ l s' o, insert_all key l 0 s = (s', o) →
     ∃ l1 l2, l = l1 ++ l2 ∧ records s' = fst (InmemoryTxs.add_missing key l1 (records s)) ∧
       match o with
       | Ret n => l2 = [] ∧ n = snd (InmemoryTxs.add_missing key l (records s))
       | Err e => l2 ≠ [] ∧ ¬ available s
       | Panic _ => False
       end) ∧
  (available s → ∀ name, ∃ all,
     all ≡ₚ filter (λ v, account v = name) (map_values (records s)) ∧
     StronglySorted (desc timestamp) all ∧
     get_for_account account timestamp s name None = Ret all ∧
     ∀ n z, (1 ≤ n)%Z → (0 < z)%Z → (n * z < 2 ^ 63)%Z →
       let page := {| page_Number := n; page_Size := z |} in
       get_for_account account timestamp s name (Some page) = Ret (page_window page all)).
Proof.
  split.
  - intros l s' o (l1 & l2 & -> & HR & Ho)%insert_all_add_missing. exists l1, l2. split_and!; [done..|].
    destruct o; naive_solver.
  - intros Ha name. unfold get_for_account, find_sorted, with_page, sort_reverse, Where; cbn.
    destruct (avail_Find s (λ v, bool_decide (account v = name)) (Some timestamp) Ha) as (l & HP & HS & HF).
    exists l. split_and!; [|done|by rewrite HF|].
    + rewrite HP. rewrite (list_filter_iff _ (λ v, account v = name)); [done|].
      intros v. apply bool_decide_eq_true.
    + intros n z Hn Hz Hlt. destruct (page_window_query n z l Hn Hz Hlt) as [HV HW].
      rewrite HF by done. cbn in *. by rewrite HW.
Qed.
End txs_theorems.

(** * Witnesses *)
Module BadgerExamples.
Import MarketExamples.

(** A database in memory that loses the next [pending] updates to other
    transactions. *)
Record disk (V : Type) := { recs : gmap string V; pending : nat }.
Arguments recs {V} _.
Arguments pending {V} _.

Definition write {V} (spec : gmap string V → gmap string V * outcome error ()) : action (disk V) error () :=
  λ s, let '(m, o) := spec (recs s) in ({| recs := m; pending := pending s |}, o).
Definition find {V} (s : disk V) (q : Query V) : outcome error (list V) :=
  let l := filter (λ v, q_where q v = true) (map_values (recs s)) in
  Ret (query_window (q_page q) (match q_sort q with Some key => sort_desc key l | None => l end)).

#[global] Instance disk_hold V : BadgerHold V (disk V) := {
  bh_Get s k := match recs s !! k with Some v => Ret v | None => Err ErrNotFound end;
  bh_Insert k v := write (insert_spec k v);
  bh_Update k v s :=
    match pending s with
    | 0 => write (update_spec k v) s
    | S n => ({| recs := recs s; pending := n |}, Err ErrConflict)
    end;
  bh_Upsert k v := write (upsert_spec k v);
  bh_Delete k := write (delete_spec k);
  bh_Find := find;
}.

Lemma write_lawful {V} (spec : gmap string V → gmap string V * outcome error ()) :
  write_ok recs (λ s, pending s = 0) (write spec) spec.
Proof. intros s s' o. unfold write. destruct (spec (recs s)). intros [= <- <-]. left. done. Qed.

#[global] Instance disk_laws V : BadgerHoldLaws V (disk V).
Proof.
  refine {| records := recs; available s := pending s = 0 |}; try (intros; apply write_lawful).
  - auto.
  - intros k v s s' o. cbn. destruct (pending s) as [|n] eqn:E.
    + intros HW. destruct (write_lawful _ _ _ _ HW) as [H|[Hn _]]; [rewrite E in H; by left | destruct (Hn E)].
    + intros [= <- <-]. right. cbn. split; [lia|]. split; [done|]. by exists ErrConflict.
  - intros s w sort. set (l := filter (λ v, w v = true) (map_values (recs s))).
    exists (match sort with Some key => sort_desc key l | None => l end). split_and!.
    + destruct sort; [apply sort_desc_perm | done].
    + destruct sort; [apply sort_desc_sorted | done].
    + intros page _. left. done.
Defined.

Definition empty_disk {V} : disk V := {| recs := ∅; pending := 0 |}.
Definition empty_store : BadgerMarket.store (disk Market) (disk MarketPrice) :=
  {| BadgerMarket.markets := empty_disk; BadgerMarket.priceStore := empty_disk |}.
Lemma empty_store_ok : store_ok empty_store.
Proof. by split_and!; [intros n m [=]|..]. Qed.

Definition closed : Market := MakeNotTradable pluggable.

(** A market is added and its strategy changed: the price does not change. *)
Definition holding_closed := fst (run_market_op (H := BadgerMarket.repository (D := Fixed.t)) (OpAdd closed) empty_store).
Lemma holding_closed_ok : store_ok holding_closed ∧ view holding_closed = {["lbtc-usdt" := closed]}%string.
Proof.
  destruct (badger_market_step (D := Fixed.t) (OpAdd closed) empty_store I empty_store_ok)
    as (s & o & E & Hok & HV).
  unfold holding_closed. rewrite E. split; [done|]. cbn [fst]. by destruct HV as [-> _].
Qed.

Lemma badger_market_refines_witness :
  ∃ s', fst (run_market_op (H := BadgerMarket.repository (D := Fixed.t))
               (OpUpdate "lbtc-usdt" MakeStrategyPluggable) holding_closed) = s' ∧
    store_ok s' ∧ Price <$> view s' !! "lbtc-usdt"%string = Some (Price closed).
Proof.
  destruct holding_closed_ok as [Hok HV].
  destruct (badger_market_refines (D := Fixed.t) (OpUpdate "lbtc-usdt" MakeStrategyPluggable) holding_closed)
    as (s' & o & E & Hok' & HS).
  - intros m m'. unfold MakeStrategyPluggable. destruct (IsTradable m); [discriminate|]. by intros [= <-].
  - exact Hok.
  - exists s'. rewrite E. split; [reflexivity|]. split; [exact Hok'|].
    rewrite HV in HS. destruct HS as [-> _]. reflexivity.
Defined.

Definition calls : list market_op :=
  [OpAdd closed; OpOpen "lbtc-usdt"; OpAdd closed; OpGetTradable; OpClose "lbtc-usdt";
   OpUpdate "lbtc-usdt" (ChangeFixedFee 100 200); OpGet "lbtc-usdt"; OpDelete "lbtc-usdt"; OpDelete "other"].

Lemma calls_common : Forall common calls.
Proof.
  unfold calls. rewrite !Forall_cons. split_and!; try exact I; [|by apply Forall_nil].
  intros m m'. unfold ChangeFixedFee. intros HC. by go_inv HC.
Qed.

Lemma market_stores_agree_witness :
  let '(_, l1) := answers (R := InmemoryMarket.repository (D := Fixed.t) (λ b, b)) calls
                    InmemoryMarket.NewMarketRepositoryImpl in
  let '(_, l2) := answers (R := BadgerMarket.repository (D := Fixed.t)) calls empty_store in
  Forall2 (λ op '(o1, o2), same_answer op o1 o2) calls (zip l1 l2).
Proof.
  pose proof (market_stores_agree (D := Fixed.t) (λ b, b) calls InmemoryMarket.NewMarketRepositoryImpl
    empty_store) as HA.
  destruct (answers (R := InmemoryMarket.repository (D := Fixed.t) (λ b, b)) calls
              InmemoryMarket.NewMarketRepositoryImpl) as [s' l1].
  destruct (answers (R := BadgerMarket.repository (D := Fixed.t)) calls empty_store) as [b' l2].
  apply HA; [exact calls_common | exact empty_store_ok | reflexivity].
Defined.

(** The accepted trade of RepoExamples is found by its accept id here. *)
Lemma badger_trades_correct_witness :
  ∃ s', BadgerTrade.insertTrade RepoExamples.accepted_trade empty_disk = (s', Ret ()) ∧
    BadgerTrade.GetTradeBySwapAcceptId s' "acc" = Ret RepoExamples.accepted_trade.
Proof.
  destruct (badger_trades_correct (S := disk Trade) empty_disk) as [HA _];
    [reflexivity | intros k t Hk; discriminate Hk|].
  destruct (HA RepoExamples.accepted_trade) as (s' & o & E & _ & -> & _ & _ & Hacc).
  exists s'. split; [exact E|].
  apply (Hacc {| sw_Id := "acc"; sw_Message := [2%Z]; sw_Timestamp := 1001 |}); [reflexivity|].
  intros k u Hk. discriminate Hk.
Defined.

(** Two conflicts, three rounds. *)
Lemma update_trade_ends_witness :
  let s : disk Trade := {| recs := {["id" := RepoExamples.accepted_trade]}%string; pending := 2 |} in
  ∃ s' o, BadgerTrade.UpdateTrade 3 "id" (λ t, Ret t) s = Some (s', o) ∧
    match o with Ret _ => records s' = recs s | _ => True end.
Proof.
  intros s. destruct (update_trade_ends (S := disk Trade) pending) with (id := "id"%string)
    (f := λ t : Trade, Ret (E := error) t) (s := s) as (s' & o & E & HO & _).
  - intros k t [m [|n]] s1; cbn; [|intros [= <-]; cbn; lia].
    unfold write, update_spec. cbn. destruct (m !! k); discriminate.
  - exists s', o. split; [exact E|]. destruct o; [|exact I..].
    destruct HO as (t & t' & Ht & [= <-] & HR). rewrite HR. cbn in Ht.
    apply lookup_singleton_Some in Ht as [_ <-]. reflexivity.
Defined.

Lemma badger_txs_correct_witness :
  ∃ s' n, BadgerTxs.AddDeposits (λ b, b) RepoExamples.deposits (S := disk Deposit) empty_disk = (s', Ret n) ∧
    n = 3%Z.
Proof.
  destruct (badger_txs_correct (S := disk Deposit) (InmemoryTxs.Deposit_Key (λ b, b)) dp_AccountName
    dp_Timestamp empty_disk) as [HA _].
  destruct (BadgerTxs.AddDeposits (λ b, b) RepoExamples.deposits (S := disk Deposit) empty_disk)
    as [s' o] eqn:E.
  destruct (HA _ _ _ E) as (l1 & l2 & _ & _ & HO). destruct o as [n|e|p].
  - exists s', n. split; [reflexivity|]. destruct HO as [_ ->]. vm_compute. reflexivity.
  - destruct HO as [_ []]. reflexivity.
  - destruct HO.
Defined.

Definition repriced : Market := BadgerMarket.with_price (Price pluggable) (MakeNotTradable balanced).
Definition holding_repriced : BadgerMarket.store (disk Market) (disk MarketPrice) :=
  {| BadgerMarket.markets := {| recs := {["lbtc-usdt" := repriced]}%string; pending := 0 |};
     BadgerMarket.priceStore := {| recs := {["lbtc-usdt" := Price repriced]}%string; pending := 0 |} |}.
Lemma holding_repriced_ok : store_ok holding_repriced.
Proof.
  split_and!; [|done..]. intros n m. cbn. intros [<- <-]%lookup_singleton_Some. split; [done|].
  cbn. rewrite lookup_singleton_eq. by eexists.
Qed.

Lemma stale_price_after_strategy_change_witness :
  ∃ s1 s2, BadgerMarket.UpdateMarket "lbtc-usdt" MakeStrategyPluggable holding_repriced = (s1, Ret ()) ∧
    BadgerMarket.OpenMarket (D := Fixed.t) "lbtc-usdt" s1 = (s2, Ret ()).
Proof.
  destruct (stale_price_after_strategy_change (D := Fixed.t) (λ b, b) holding_repriced
    (InmemoryMarket.set_market "lbtc-usdt" repriced InmemoryMarket.NewMarketRepositoryImpl)
    "lbtc-usdt" repriced) as [(s1 & s2 & E1 & E2 & _) _];
    [exact holding_repriced_ok | reflexivity..|].
  exists s1, s2. split; [exact E1 | exact E2].
Defined.
End BadgerExamples.
