(* ===== verification/Feeder.v ===== *)
(** The price feeds: internal/infrastructure/price-feeder (the feeder and its
    store) and internal/core/application/feeder (the service that applies the
    prices to the markets).

    A source, that is a client of an exchange, is anything with the class
    [PriceFeeder]; [PriceFeederLaws] is what the feeder relies on, and the services of
    Exchange.v provide it.  Module [Pipe] is the path of a price from the client to
    the daemon through two channels and the goroutine between them. *)

From Stdlib Require Import ZArith QArith Lia.
From stdpp Require Import base tactics strings list gmap sets.
From S2P Require Import Prelude Errors Decimal Formula Market Trade Repos Badger BadgerCorrect Exchange.
Local Open Scope nat_scope.

(** * Interfaces *)

(** pricefeeder.PriceFeeder; Start and Stop only spawn and end its goroutine. *)
Class PriceFeeder (X : Type) := {
  SubscribeMarkets : list FeedMarket → action X error ();
  UnsubscribeMarkets : list FeedMarket → action X error ();
  ListSubscriptions : X → list FeedMarket;
}.

(** The subscriptions of a source are a map from tickers to markets. *)
Class PriceFeederLaws (X : Type) `{PriceFeeder X} := {
  subs : X → gmap string FeedMarket;
  subscribe_law m x x' o : SubscribeMarkets [m] x = (x', o) →
    subs x' = match o, subs x !! fm_Ticker m with
              | Ret _, None => <[fm_Ticker m := m]> (subs x)
              | _, _ => subs x
              end;
  unsubscribe_law m x x' o : UnsubscribeMarkets [m] x = (x', o) →
    subs x' = match o with Ret _ => delete (fm_Ticker m) (subs x) | _ => subs x end;
  list_law x : ListSubscriptions x = [] ↔ subs x = ∅;
}.

(** The exchanges behind the three sources. *)
Inductive source_name := Kraken | Bitfinex | Coinbase.
Record source (D C : Type) := { src_name : source_name; src_service : service D C }.
Arguments src_name {D C} _.
Arguments src_service {D C} _.

Section sources.
Context {D : Type} `{DecimalOps D} {C : Type} `{WsConn C} `{MapOrder}.

Definition exchange_of (n : source_name) : exchange D C :=
  match n with Kraken => kraken | Bitfinex => bitfinex | Coinbase => coinbase end.
Definition on_service {A} (m : exchange D C → action (service D C) error A) : action (source D C) error A :=
  λ x, let '(s, o) := m (exchange_of (src_name x)) (src_service x) in
       ({| src_name := src_name x; src_service := s |}, o).
#[global] Instance source_feeder : PriceFeeder (source D C) := {
  SubscribeMarkets l := on_service (λ ex, Exchange.SubscribeMarkets ex l);
  UnsubscribeMarkets l := on_service (λ ex, Exchange.UnsubscribeMarkets ex l);
  ListSubscriptions x := Exchange.ListSubscriptions (src_service x);
}.
End sources.

(** * The store *)

Record PriceFeedInfo := {
  pi_ID : string; pi_Base : string; pi_Quote : string;
  pi_Source : string; pi_Ticker : string; pi_Started : bool }.

Definition krakenSource : string := "kraken".
Definition bitfinexSource : string := "bitfinex".
Definition coinbaseSource : string := "coinbase".
(** The keys of feederFactory. *)
Definition is_source (source : string) : bool :=
  bool_decide (source ∈ [krakenSource; bitfinexSource; coinbaseSource]).

(** [market] is nil or the assets of a market, [id] a fresh uuid. *)
Definition NewPriceFeedInfo (id : string) (market : option (string * string)) (source ticker : string)
    : outcome error PriceFeedInfo :=
  match market with
  | None => Err (Errorf "missing market")
  | Some (base, quote) =>
      if bool_decide (source = "") then Err (Errorf "missing price source")
      else if negb (is_source source) then Err (Errorf "unknown price source")
      else if bool_decide (ticker = "") then Err (Errorf "missing market ticker")
      else Ret {| pi_ID := id; pi_Base := base; pi_Quote := quote; pi_Source := source;
                  pi_Ticker := ticker; pi_Started := false |}
  end.

Definition feed_market (f : PriceFeedInfo) : FeedMarket :=
  {| fm_BaseAsset := pi_Base f; fm_QuoteAsset := pi_Quote f; fm_Ticker := pi_Ticker f |}.
Definition toMarketList (f : PriceFeedInfo) : list FeedMarket := [feed_market f].
Definition set_started (b : bool) (f : PriceFeedInfo) : PriceFeedInfo :=
  {| pi_ID := pi_ID f; pi_Base := pi_Base f; pi_Quote := pi_Quote f; pi_Source := pi_Source f;
     pi_Ticker := pi_Ticker f; pi_Started := b |}.

Module FeedStore.
Section defs.
Context {S : Type} `{BadgerHold PriceFeedInfo S}.

Definition same_market (f g : PriceFeedInfo) : bool :=
  bool_decide (pi_Base g = pi_Base f ∧ pi_Quote g = pi_Quote f).
Definition findPriceFeed (s : S) (query : Query PriceFeedInfo) : outcome error (option PriceFeedInfo) :=
  l ← bh_Find s query; Ret (head l).
Definition AddPriceFeed (f : PriceFeedInfo) : action S error () :=
  s ← get_state;
  pf ← lift (findPriceFeed s (Where (same_market f)));
  match pf with
  | Some _ => lift (Err (Errorf "price feed already exists"))
  | None =>
      res ← try (bh_Insert (pi_ID f) f);
      match res with
      | inl _ => mret ()
      | inr ErrKeyExists => lift (Err (Errorf "price feed already exists"))
      | inr e => lift (Err e)
      end
  end.
Definition GetPriceFeed (s : S) (id : string) : outcome error PriceFeedInfo :=
  match bh_Get s id with
  | Err ErrNotFound => Err (Errorf "price feed not found")
  | o => o
  end.
Definition UpdatePriceFeed (id : string) (updateFn : PriceFeedInfo → outcome error PriceFeedInfo)
    : action S error () :=
  s ← get_state;
  priceFeed ← lift (GetPriceFeed s id);
  updatedPriceFeed ← lift (updateFn priceFeed);
  bh_Update id updatedPriceFeed.
Definition RemovePriceFeed (id : string) : action S error () :=
  res ← try (bh_Delete id);
  match res with
  | inr ErrNotFound => mret ()
  | inl _ => mret ()
  | inr e => lift (Err e)
  end.
Definition GetAllPriceFeeds (s : S) : outcome error (list PriceFeedInfo) := bh_Find s all_records.
End defs.
End FeedStore.

(** * The feeder *)
Section feeder.
Context {S : Type} `{BadgerHold PriceFeedInfo S} {X : Type} `{PriceFeeder X} {W : Type}.
(** The factories of the sources: they dial the exchange, and may fail. *)
Variable dial : string → action W error X.

(** Channels are numbered; [fs_closed] are those that have been closed. *)
Record FState := {
  fs_store : S;
  sources : gmap string X;
  feedChBySource : gmap string nat;
  activeFeeds : gset string;
  fs_world : W;
  fs_next : nat;
  fs_closed : gset nat }.

Definition NewFeeder (store : S) (w : W) : FState := {|
  fs_store := store; sources := ∅; feedChBySource := ∅; activeFeeds := ∅; fs_world := w;
  fs_next := 0; fs_closed := ∅ |}.

Definition set_store (st : S) (s : FState) : FState := {|
  fs_store := st; sources := sources s; feedChBySource := feedChBySource s; activeFeeds := activeFeeds s;
  fs_world := fs_world s; fs_next := fs_next s; fs_closed := fs_closed s |}.
Definition set_sources (m : gmap string X) (s : FState) : FState := {|
  fs_store := fs_store s; sources := m; feedChBySource := feedChBySource s; activeFeeds := activeFeeds s;
  fs_world := fs_world s; fs_next := fs_next s; fs_closed := fs_closed s |}.
Definition set_active (a : gset string) (s : FState) : FState := {|
  fs_store := fs_store s; sources := sources s; feedChBySource := feedChBySource s; activeFeeds := a;
  fs_world := fs_world s; fs_next := fs_next s; fs_closed := fs_closed s |}.

Definition on_feed_store {A} (m : action S error A) : action FState error A := λ s,
  let '(st, o) := m (fs_store s) in (set_store st s, o).
Definition read_feeds {A} (f : S → outcome error A) : action FState error A := λ s, (s, f (fs_store s)).
(** A call on the client of a source; calling a missing one is a nil call. *)
Definition on_source {A} (src : string) (m : action X error A) : action FState error A := λ s,
  match sources s !! src with
  | None => (s, Panic NilDereference)
  | Some x => let '(x, o) := m x in (set_sources (<[src := x]> (sources s)) s, o)
  end.

Definition addActiveFeed (id : string) : action FState error () := λ s,
  (set_active ({[id]} ∪ activeFeeds s) s, Ret ()).
Definition removeActiveFeed (id : string) : action FState error () := λ s,
  (set_active (activeFeeds s ∖ {[id]}) s, Ret ()).
Definition isActiveFeed (s : FState) (id : string) : bool := bool_decide (id ∈ activeFeeds s).

(** The client of a source, dialled when there is none, and its channel; a
    source without factory is a nil function. *)
Definition getPriceFeederBySource (src : string) : action FState error nat := λ s,
  match sources s !! src with
  | Some _ => (s, Ret (default 0 (feedChBySource s !! src)))
  | None =>
      if negb (is_source src) then (s, Panic NilDereference)
      else
        let '(w, o) := dial src (fs_world s) in
        match o with
        | Ret x =>
            ({| fs_store := fs_store s; sources := <[src := x]> (sources s);
                feedChBySource := <[src := fs_next s]> (feedChBySource s); activeFeeds := activeFeeds s;
                fs_world := w; fs_next := 1 + fs_next s; fs_closed := fs_closed s |}, Ret (fs_next s))
        | Err e =>
            ({| fs_store := fs_store s; sources := sources s; feedChBySource := feedChBySource s;
                activeFeeds := activeFeeds s; fs_world := w; fs_next := fs_next s;
                fs_closed := fs_closed s |}, Err e)
        | Panic p => (s, Panic p)
        end
  end.

(** Closing a closed channel panics. *)
Definition removePriceFeederBySource (src : string) : action FState error () := λ s,
  match sources s !! src with
  | None => (s, Ret ())
  | Some _ =>
      match feedChBySource s !! src with
      | None => (s, Panic NilDereference)
      | Some ch =>
          if bool_decide (ch ∈ fs_closed s) then (s, Panic ClosedChannel)
          else ({| fs_store := fs_store s; sources := delete src (sources s);
                   feedChBySource := delete src (feedChBySource s); activeFeeds := activeFeeds s;
                   fs_world := fs_world s; fs_next := fs_next s;
                   fs_closed := {[ch]} ∪ fs_closed s |}, Ret ())
      end
  end.

Definition fd_AddPriceFeed (id : string) (market : option (string * string)) (source ticker : string)
    : action FState error string :=
  priceFeed ← lift (NewPriceFeedInfo id market source ticker);
  _ ← on_feed_store (FeedStore.AddPriceFeed priceFeed);
  mret (pi_ID priceFeed).

Definition fd_StartPriceFeed (id : string) : action FState error nat :=
  feed ← read_feeds (λ st, FeedStore.GetPriceFeed st id);
  s ← get_state;
  if isActiveFeed s id then lift (Err (Errorf "price feed already started"))
  else
    feedCh ← getPriceFeederBySource (pi_Source feed);
    _ ← on_source (pi_Source feed) (SubscribeMarkets (toMarketList feed));
    let feed := set_started true feed in
    _ ← on_feed_store (FeedStore.UpdatePriceFeed id (λ _, Ret feed));
    _ ← addActiveFeed (pi_ID feed);
    mret feedCh.

Definition fd_StopPriceFeed (id : string) : action FState error () :=
  feed ← read_feeds (λ st, FeedStore.GetPriceFeed st id);
  if negb (pi_Started feed) then mret ()
  else
    let feed := set_started false feed in
    _ ← on_feed_store (FeedStore.UpdatePriceFeed id (λ _, Ret feed));
    _ ← getPriceFeederBySource (pi_Source feed);
    _ ← on_source (pi_Source feed) (UnsubscribeMarkets (toMarketList feed));
    s ← get_state;
    _ ← (if bool_decide (ListSubscriptions <$> sources s !! pi_Source feed = Some [])
         then removePriceFeederBySource (pi_Source feed) else mret () : action FState error ());
    removeActiveFeed id.

Definition change_feed (source ticker : string) (f : PriceFeedInfo) : PriceFeedInfo :=
  {| pi_ID := pi_ID f; pi_Base := pi_Base f; pi_Quote := pi_Quote f;
     pi_Source := if bool_decide (source = "") then pi_Source f else source;
     pi_Ticker := if bool_decide (ticker = "") then pi_Ticker f else ticker;
     pi_Started := pi_Started f |}.
Definition fd_UpdatePriceFeed (id source ticker : string) : action FState error () :=
  if bool_decide (source = "" ∧ ticker = "") then
    lift (Err (Errorf "missing price source and/or market ticker"))
  else if negb (bool_decide (source = "")) && negb (is_source source) then
    lift (Err (Errorf "unknown price source"))
  else on_feed_store (FeedStore.UpdatePriceFeed id (λ f, Ret (change_feed source ticker f))).

Definition fd_RemovePriceFeed (id : string) : action FState error () :=
  on_feed_store (FeedStore.RemovePriceFeed id).
Definition fd_ListSources : list string := [krakenSource; bitfinexSource; coinbaseSource].
End feeder.
Arguments FState S X W : clear implicits.

(** * The application service *)
Section application.
Context {S : Type} `{BadgerHold PriceFeedInfo S} {X : Type} `{PriceFeeder X} {W : Type}.
Context {M : Type} `{MarketRepository M} {D : Type} `{DecimalOps D}.
Variable dial : string → action W error X.

(** [ap_listeners]: the channels a goroutine of StartPriceFeed reads from. *)
Record AppState := { ap_feeder : FState S X W; ap_markets : M; ap_listeners : list nat }.

Definition on_feeder {A} (m : action (FState S X W) error A) : action AppState error A := λ s,
  let '(f, o) := m (ap_feeder s) in
  ({| ap_feeder := f; ap_markets := ap_markets s; ap_listeners := ap_listeners s |}, o).
Definition read_app_markets {A} (f : M → outcome error A) : action AppState error A := λ s,
  (s, f (ap_markets s)).
Definition add_listener (ch : nat) : action AppState error () := λ s,
  ({| ap_feeder := ap_feeder s; ap_markets := ap_markets s; ap_listeners := ap_listeners s ++ [ch] |}, Ret ()).

Definition app_AddPriceFeed (id : string) (market : option (string * string)) (source ticker : string)
    : action AppState error string := on_feeder (fd_AddPriceFeed id market source ticker).

Definition app_StartPriceFeed (id : string) : action AppState error () :=
  priceFeed ← on_feeder (read_feeds (λ st, FeedStore.GetPriceFeed st id));
  market ← read_app_markets (λ ms, GetMarketByAssets ms (pi_Base priceFeed) (pi_Quote priceFeed));
  if negb (IsStrategyPluggable market) then lift (Err (Errorf "market strategy must be pluggable"))
  else
    ch ← on_feeder (fd_StartPriceFeed dial id);
    add_listener ch.

(** What a listener does with one price: the errors are dropped or logged. *)
Definition toDomain (feed : PriceFeed D) : MarketPrice :=
  {| BasePrice := dString (pf_BasePrice feed); QuotePrice := dString (pf_QuotePrice feed) |}.
Definition on_price (feed : PriceFeed D) : action AppState error () := λ s,
  let mkt := pf_Market feed in
  match GetMarketByAssets (ap_markets s) (fm_BaseAsset mkt) (fm_QuoteAsset mkt) with
  | Err _ => (s, Ret ())
  | Panic p => (s, Panic p)
  | Ret market =>
      let '(ms, o) := UpdateMarketPrice (Name market) (toDomain feed) (ap_markets s) in
      ({| ap_feeder := ap_feeder s; ap_markets := ms; ap_listeners := ap_listeners s |},
       match o with Panic p => Panic p | _ => Ret () end)
  end.

Definition app_StopPriceFeed (id : string) : action AppState error () := on_feeder (fd_StopPriceFeed dial id).

Definition app_UpdatePriceFeed (id source ticker : string) : action AppState error () :=
  priceFeed ← on_feeder (read_feeds (λ st, FeedStore.GetPriceFeed st id));
  if pi_Started priceFeed then lift (Err (Errorf "price feed must be stopped to be updated"))
  else on_feeder (fd_UpdatePriceFeed id source ticker).

Definition app_RemovePriceFeed (id : string) : action AppState error () :=
  priceFeed ← on_feeder (read_feeds (λ st, FeedStore.GetPriceFeed st id));
  if pi_Started priceFeed then lift (Err (Errorf "price feed must be stopped to be removed"))
  else
    market ← read_app_markets (λ ms, GetMarketByAssets ms (pi_Base priceFeed) (pi_Quote priceFeed));
    if IsStrategyPluggable market
    then lift (Err (Errorf "market strategy must be changed from pluggable to remove a price feed"))
    else on_feeder (fd_RemovePriceFeed id).

(** The feeds that were started when the daemon stopped are started again. *)
Fixpoint start_all (feeds : list PriceFeedInfo) : action AppState error () :=
  match feeds with
  | [] => mret ()
  | f :: feeds => _ ← (if pi_Started f then app_StartPriceFeed (pi_ID f) else mret () : action AppState error ());
                  start_all feeds
  end.
Definition startPriceFeeds : action AppState error () :=
  feeds ← on_feeder (read_feeds FeedStore.GetAllPriceFeeds); start_all feeds.
End application.
Arguments AppState S X W M : clear implicits.

(** * Theorems: sources *)

Section source_laws.
Context {D : Type} `{DecimalLaws D} {C : Type} `{WsConn C} `{MapOrder}.

Lemma exchange_of_the_three n : exchange_of (D := D) (C := C) n ∈ [kraken; coinbase; bitfinex].
Proof. rewrite !elem_of_cons. destruct n; cbn; auto. Qed.

(** The clients of the exchanges are sources the feeder can rely on. *)
#[global] Instance source_laws : PriceFeederLaws (source D C).
Proof.
  refine {| subs x := marketsByTicker (src_service x) |}; cbn; unfold on_service.
  - intros m x x' o. destruct (Exchange.SubscribeMarkets _ _ _) as [s1 o1] eqn:E. intros [= <- <-]. cbn.
    by apply (subscribe_one _ _ _ _ _ (exchange_of_the_three (src_name x))) in E as [_ ?].
  - intros m x x' o. destruct (Exchange.UnsubscribeMarkets _ _ _) as [s1 o1] eqn:E. intros [= <- <-]. cbn.
    by apply (unsubscribe_one _ _ _ _ _ (exchange_of_the_three (src_name x))) in E as [? _].
  - intros x. split.
    + intros E%(f_equal length). unfold Exchange.ListSubscriptions, getMarkets in E.
      rewrite range_values_length in E. by apply map_size_empty_inv.
    + intros E. apply nil_length_inv. unfold Exchange.ListSubscriptions, getMarkets.
      rewrite range_values_length, E. done.
Defined.
End source_laws.

(** * Theorems: the store *)
Section store_theorems.
Context {S : Type} `{!BadgerHold PriceFeedInfo S} `{!BadgerHoldLaws PriceFeedInfo S}.
Implicit Types (st : S) (f : PriceFeedInfo).

Lemma GetPriceFeed_Ret st id f : FeedStore.GetPriceFeed st id = Ret f → records st !! id = Some f.
Proof.
  unfold FeedStore.GetPriceFeed. destruct (Get_law st id) as [->|(_ & e & _ & ->)].
  - destruct (records st !! id); [by intros [= <-] | done].
  - by destruct e.
Qed.

(** A feed is added when no other feed has its id or its market. *)
Lemma AddPriceFeed_cases f st st' o : FeedStore.AddPriceFeed f st = (st', o) →
  (o = Ret () ∧ records st' = <[pi_ID f := f]> (records st) ∧
   ∀ id g, records st !! id = Some g → id ≠ pi_ID f ∧ FeedStore.same_market f g = false) ∨
  (records st' = records st ∧ ∃ e, o = Err e).
Proof.
  unfold FeedStore.AddPriceFeed, mbind at 1 2, action_bind at 1 2, get_state, lift, FeedStore.findPriceFeed.
  destruct (Find_law st (FeedStore.same_market f) None) as (l & HP & _ & HF).
  unfold Where. destruct (HF None I) as [->|(_ & e & _ & ->)]; [|naive_solver]. cbn.
  destruct l as [|g l]; cbn; [|naive_solver]. unfold mbind, action_bind, try.
  destruct (bh_Insert (pi_ID f) f st) as [st1 o1] eqn:HI.
  destruct (Insert_law _ _ _ _ _ HI) as [[HR _]|(_ & HR & e & He & ->)].
  - unfold insert_spec in HR. destruct (records st !! pi_ID f) eqn:Hid; injection HR as HR ->;
      intros [= <- <-]; [naive_solver|].
    left. split_and!; [done..|]. intros id g Hg. split; [congruence|].
    destruct (FeedStore.same_market f g) eqn:Em; [|done]. destruct (not_elem_of_nil g).
    rewrite HP, list_elem_of_filter, map_values_elem. eauto.
  - destruct He as [_ He]. intros E. right. destruct e; try done; injection E as <- <-; eauto.
Qed.

(** An update whose function does not fail. *)
Lemma UpdatePriceFeed_cases id (g : PriceFeedInfo → PriceFeedInfo) st st' o :
  FeedStore.UpdatePriceFeed id (λ f, Ret (g f)) st = (st', o) →
  (o = Ret () ∧ ∃ f, records st !! id = Some f ∧ records st' = <[id := g f]> (records st)) ∨
  (records st' = records st ∧ o ≠ Ret ()).
Proof.
  unfold FeedStore.UpdatePriceFeed, mbind, action_bind, get_state, lift.
  destruct (FeedStore.GetPriceFeed st id) as [f| |] eqn:E; [|naive_solver..].
  apply GetPriceFeed_Ret in E. intros HU.
  destruct (Update_law _ _ _ _ _ HU) as [[HR _]|(_ & HR & e & _ & ->)]; [|naive_solver].
  unfold update_spec in HR. rewrite E in HR. injection HR as HR ->. naive_solver.
Qed.

Lemma RemovePriceFeed_cases id st st' o : FeedStore.RemovePriceFeed id st = (st', o) →
  records st' = delete id (records st) ∨ records st' = records st ∧ o ≠ Ret ().
Proof.
  unfold FeedStore.RemovePriceFeed, mbind, action_bind, try.
  destruct (bh_Delete id st) as [st1 o1] eqn:HD.
  destruct (Delete_law _ _ _ _ HD) as [[HR _]|(_ & HR & e & [He _] & ->)].
  - unfold delete_spec in HR. destruct (records st !! id) eqn:Hid; injection HR as HR ->;
      intros [= <- <-]; left; [done|]. by rewrite delete_id.
  - intros E. right. destruct e; try done; injection E as <- <-; done.
Qed.
End store_theorems.

(** * Theorems: the feeder *)
Section feeder_theorems.
Context {S : Type} `{!BadgerHold PriceFeedInfo S} `{!BadgerHoldLaws PriceFeedInfo S}.
Context {X : Type} `{!PriceFeeder X} `{!PriceFeederLaws X} {W : Type}.
Variable dial : string → action W error X.
Abbreviation Fd := (FState S X W).
Implicit Types (s : Fd) (f : PriceFeedInfo).

Definition feeds s : gmap string PriceFeedInfo := records (fs_store s).

(** Feeds are stored under their id, with a known source, one per market. *)
Definition feeds_ok (m : gmap string PriceFeedInfo) : Prop :=
  (∀ id f, m !! id = Some f → pi_ID f = id ∧ is_source (pi_Source f) = true ∧ pi_Ticker f ≠ ""%string) ∧
  (∀ id1 id2 f1 f2, m !! id1 = Some f1 → m !! id2 = Some f2 → FeedStore.same_market f1 f2 = true → id1 = id2).

(** Every connected source has a channel of its own, which is open. *)
Definition channels_ok s : Prop :=
  (∀ src, is_Some (sources s !! src) ↔ is_Some (feedChBySource s !! src)) ∧
  (∀ src ch, feedChBySource s !! src = Some ch → ch < fs_next s ∧ ch ∉ fs_closed s) ∧
  (∀ src1 src2 ch, feedChBySource s !! src1 = Some ch → feedChBySource s !! src2 = Some ch → src1 = src2) ∧
  (∀ ch, ch ∈ fs_closed s → ch < fs_next s).

Definition feeder_ok s : Prop := feeds_ok (feeds s) ∧ channels_ok s.

Lemma feeds_ok_insert m id f f0 : feeds_ok m → m !! id = Some f0 →
  pi_ID f = pi_ID f0 → pi_Base f = pi_Base f0 → pi_Quote f = pi_Quote f0 →
  is_source (pi_Source f) = true → pi_Ticker f ≠ ""%string → feeds_ok (<[id := f]> m).
Proof.
  intros [H1 H2] Hid HI HB HQ HS HT. split.
  - intros id' f'. rewrite lookup_insert_Some. intros [[<- <-]|[_ Hf]]; [|by apply H1].
    rewrite HI. destruct (H1 _ _ Hid). done.
  - intros id1 id2 f1 f2. rewrite !lookup_insert_Some. unfold FeedStore.same_market in *.
    intros [[<- <-]|[_ E1]] [[<- <-]|[_ E2]]; [done| | |].
    + rewrite HB, HQ. by apply (H2 _ _ f0 f2).
    + rewrite HB, HQ. by apply (H2 _ _ f1 f0).
    + by apply (H2 _ _ f1 f2).
Qed.

Lemma feeds_ok_new m f : feeds_ok m → is_source (pi_Source f) = true → pi_Ticker f ≠ ""%string →
  (∀ id g, m !! id = Some g → id ≠ pi_ID f ∧ FeedStore.same_market f g = false) →
  feeds_ok (<[pi_ID f := f]> m).
Proof.
  intros [H1 H2] HS HT HN. split.
  - intros id' f'. rewrite lookup_insert_Some. intros [[<- <-]|[_ Hf]]; [done | by apply H1].
  - intros id1 id2 f1 f2. rewrite !lookup_insert_Some.
    intros [[<- <-]|[_ E1]] [[<- <-]|[_ E2]]; [done| | |].
    + destruct (HN _ _ E2) as [_ ->]. done.
    + destruct (HN _ _ E1) as [_ Hn]. unfold FeedStore.same_market in *.
      intros [? ?]%bool_decide_eq_true. apply bool_decide_eq_false in Hn. naive_solver.
    + by apply (H2 _ _ f1 f2).
Qed.

Lemma feeds_ok_delete m id : feeds_ok m → feeds_ok (delete id m).
Proof.
  intros [H1 H2]. split.
  - intros id' f [_ Hf]%lookup_delete_Some. by apply H1.
  - intros id1 id2 f1 f2 [_ E1]%lookup_delete_Some [_ E2]%lookup_delete_Some. by apply (H2 _ _ f1 f2).
Qed.

(** ** The calls inside the operations *)

Lemma on_source_cases {A} src (m : action X error A) s s' o : on_source src m s = (s', o) →
  (sources s !! src = None ∧ s' = s ∧ o = Panic NilDereference) ∨
  ∃ x x', sources s !! src = Some x ∧ m x = (x', o) ∧ s' = set_sources (<[src := x']> (sources s)) s.
Proof.
  unfold on_source. destruct (sources s !! src) as [x|]; [|naive_solver].
  destruct (m x) as [x' o'] eqn:E. intros [= <- <-]. right. by exists x, x'.
Qed.

Lemma channels_ok_sources src x' s : channels_ok s → is_Some (sources s !! src) →
  channels_ok (set_sources (<[src := x']> (sources s)) s).
Proof.
  intros (H1 & H2) Hs. split; [|done]. cbn. intros src'. rewrite <- H1, lookup_insert_is_Some'.
  split; [|by auto]. intros [<-|?]; done.
Qed.

Lemma getPriceFeeder_cases src s s' o : channels_ok s → getPriceFeederBySource dial src s = (s', o) →
  channels_ok s' ∧ fs_store s' = fs_store s ∧ activeFeeds s' = activeFeeds s ∧
  match o with
  | Ret ch => feedChBySource s' !! src = Some ch ∧ is_Some (sources s' !! src)
  | _ => sources s' = sources s
  end.
Proof.
  intros (H1 & H2 & H3 & H4). unfold getPriceFeederBySource. destruct (sources s !! src) as [x|] eqn:Hx.
  { intros [= <- <-]. assert (is_Some (feedChBySource s !! src)) as [ch Hch] by (apply H1; eauto).
    rewrite Hch. cbn. split_and!; eauto; by split_and!. }
  destruct (is_source src); cbn; [|intros [= <- <-]; by split_and!].
  destruct (dial src (fs_world s)) as [w [x|e|p]]; intros [= <- <-]; cbn;
    [|split_and!; try done; by split_and!..].
  split_and!; try done; [|by rewrite lookup_insert_eq | rewrite lookup_insert_eq; eauto].
  assert (∀ src' ch, feedChBySource s !! src' = Some ch → ch ≠ fs_next s) as Hfresh.
  { intros src' ch Hch. apply H2 in Hch as [? _]. lia. }
  split_and!; cbn.
  - intros src'. rewrite !lookup_insert_is_Some', H1. done.
  - intros src' ch. rewrite lookup_insert_Some. intros [[<- <-]|[_ Hch]].
    + split; [lia|]. intros Hc%H4. lia.
    + destruct (H2 _ _ Hch). split; [lia | done].
  - intros src1 src2 ch. rewrite !lookup_insert_Some.
    intros [[<- <-]|[_ E1]] [[<- E]|[_ E2]]; [done|..].
    + by destruct (Hfresh _ _ E2).
    + subst ch. by destruct (Hfresh _ _ E1).
    + by apply H3 with ch.
  - intros ch Hch%H4. lia.
Qed.

Lemma removePriceFeeder_cases src s s' o : channels_ok s → removePriceFeederBySource src s = (s', o) →
  channels_ok s' ∧ o = Ret () ∧ fs_store s' = fs_store s ∧ activeFeeds s' = activeFeeds s ∧
  sources s' = delete src (sources s).
Proof.
  intros (H1 & H2 & H3 & H4). unfold removePriceFeederBySource. destruct (sources s !! src) as [x|] eqn:Hx.
  2:{ intros [= <- <-]. rewrite delete_id by done. by split_and!. }
  destruct (feedChBySource s !! src) as [ch|] eqn:Hch.
  2:{ assert (is_Some (feedChBySource s !! src)) as [? ?] by (apply H1; eauto). congruence. }
  destruct (H2 _ _ Hch) as [Hlt Hopen]. rewrite bool_decide_false by done. intros [= <- <-]. cbn.
  split_and!; try done. split_and!; cbn.
  - intros src'. rewrite !lookup_delete_is_Some, H1. done.
  - intros src' c [Hne Hc]%lookup_delete_Some. destruct (H2 _ _ Hc). split; [done|].
    rewrite not_elem_of_union, not_elem_of_singleton. split; [|done]. intros ->. by destruct Hne; eauto.
  - intros src1 src2 c [_ E1]%lookup_delete_Some [_ E2]%lookup_delete_Some. by apply H3 with c.
  - intros c. rewrite elem_of_union, elem_of_singleton. intros [->|Hc]; [done | by apply H4].
Qed.

(** ** The operations *)

(** What StartPriceFeed does, on every branch. *)
Lemma StartPriceFeed_cases id s s' o : feeder_ok s → fd_StartPriceFeed dial id s = (s', o) →
  feeder_ok s' ∧
  match o with
  | Ret ch => ∃ f x, feeds s !! id = Some f ∧ id ∉ activeFeeds s ∧
      feeds s' = <[id := set_started true f]> (feeds s) ∧ activeFeeds s' = {[id]} ∪ activeFeeds s ∧
      feedChBySource s' !! pi_Source f = Some ch ∧ sources s' !! pi_Source f = Some x ∧
      is_Some (subs x !! pi_Ticker f)
  | _ => feeds s' = feeds s ∧ activeFeeds s' = activeFeeds s
  end.
Proof.
  intros [HF HC]. unfold fd_StartPriceFeed, read_feeds, mbind at 1 2, action_bind at 1 2, get_state.
  destruct (FeedStore.GetPriceFeed (fs_store s) id) as [f| |] eqn:EG; [|by intros [= <- <-]..].
  apply GetPriceFeed_Ret in EG. unfold isActiveFeed. case_bool_decide as Ha; [by intros [= <- <-]|].
  destruct (proj1 HF _ _ EG) as (Hid & Hsrc & Htk).
  unfold mbind at 1, action_bind at 1. destruct (getPriceFeederBySource dial (pi_Source f) s) as [s1 o1] eqn:E1.
  apply getPriceFeeder_cases in E1 as (HC1 & Hst1 & Hact1 & Ho1); [|done].
  assert (feeds s1 = feeds s) as Hfd1 by (unfold feeds; by rewrite Hst1).
  assert (feeder_ok s1) as Hok1 by (split; [by rewrite Hfd1 | done]).
  destruct o1 as [ch| |]; [|by intros [= <- <-]..]. destruct Ho1 as [Hch [x Hx]].
  unfold mbind at 1, action_bind at 1. destruct (on_source _ _ s1) as [s2 o2] eqn:E2.
  apply on_source_cases in E2 as [(? & _ & _)|(x0 & x' & Hx0 & Hsub & ->)]; [congruence|].
  rewrite Hx in Hx0. injection Hx0 as <-. apply subscribe_law in Hsub.
  set (s2 := set_sources _ s1). assert (channels_ok s2) as HC2 by (apply channels_ok_sources; eauto).
  assert (feeder_ok s2) as Hok2 by (split; [unfold feeds; cbn; by rewrite Hst1 | done]).
  destruct o2 as [[]| |]; [|by intros [= <- <-]..].
  unfold mbind at 1, action_bind at 1, on_feed_store. cbn [fs_store s2 set_sources].
  destruct (FeedStore.UpdatePriceFeed id _ _) as [st3 o3] eqn:E3.
  apply (UpdatePriceFeed_cases id (λ _, set_started true f)) in E3 as [(-> & f' & Hf' & HR)|[HR Hn]].
  2:{ assert (feeds_ok (records st3)) by (rewrite HR, Hst1; done).
      destruct o3 as [[]| |]; [done|..]; intros [= <- <-]; unfold feeder_ok, feeds; cbn; rewrite HR, Hst1; by split_and!. }
  rewrite Hst1 in Hf', HR. intros [= <- <-]. cbn. unfold feeder_ok, feeds; cbn. rewrite HR. split.
  - split; [|done]. apply feeds_ok_insert with f; done.
  - exists f, x'. rewrite Hid, Hact1, lookup_insert_eq. split_and!; try done.
    destruct (subs x !! fm_Ticker (feed_market f)) as [m|] eqn:Es; rewrite Hsub; cbn in *; [by rewrite Es|].
    rewrite lookup_insert_eq. eauto.
Qed.

(** What StopPriceFeed does, on every branch. *)
Lemma StopPriceFeed_cases id s s' o : feeder_ok s → fd_StopPriceFeed dial id s = (s', o) →
  feeder_ok s' ∧
  match o with
  | Ret _ =>
      (s' = s ∧ ∃ f, feeds s !! id = Some f ∧ pi_Started f = false) ∨
      ∃ f, feeds s !! id = Some f ∧ pi_Started f = true ∧
        feeds s' = <[id := set_started false f]> (feeds s) ∧ activeFeeds s' = activeFeeds s ∖ {[id]} ∧
        (∀ x, sources s' !! pi_Source f = Some x → subs x ≠ ∅ ∧ subs x !! pi_Ticker f = None)
  | _ => activeFeeds s' = activeFeeds s ∧
      (feeds s' = feeds s ∨ ∃ f, feeds s !! id = Some f ∧ feeds s' = <[id := set_started false f]> (feeds s))
  end.
Proof.
  intros [HF HC]. unfold fd_StopPriceFeed, read_feeds, mbind at 1, action_bind at 1.
  destruct (FeedStore.GetPriceFeed (fs_store s) id) as [f| |] eqn:EG;
    [|by intros [= <- <-]; split_and!; auto..].
  apply GetPriceFeed_Ret in EG. destruct (pi_Started f) eqn:Hstart; cbn [negb];
    [|intros [= <- <-]; split; [done|]; left; eauto].
  destruct (proj1 HF _ _ EG) as (Hid & Hsrc & Htk).
  unfold mbind at 1, action_bind at 1, on_feed_store.
  destruct (FeedStore.UpdatePriceFeed id _ _) as [st1 o1] eqn:E1.
  apply (UpdatePriceFeed_cases id (λ _, set_started false f)) in E1 as [(-> & f' & Hf' & HR)|[HR Hn]].
  2:{ destruct o1 as [[]| |]; [done|..]; intros [= <- <-]; unfold feeder_ok, feeds; cbn; rewrite HR;
        split_and!; auto. }
  set (s1 := set_store st1 s).
  assert (feeder_ok s1) as Hok1.
  { split; [|done]. unfold feeds, s1; cbn. rewrite HR. by apply feeds_ok_insert with f. }
  assert (feeds s1 = <[id := set_started false f]> (feeds s)) as Hfd1 by done.
  unfold mbind at 1, action_bind at 1. cbn [pi_Source set_started].
  destruct (getPriceFeederBySource dial (pi_Source f) s1) as [s2 o2] eqn:E2.
  apply getPriceFeeder_cases in E2 as (HC2 & Hst2 & Hact2 & Ho2); [|apply Hok1].
  assert (feeds s2 = feeds s1) as Hfd2 by (unfold feeds; by rewrite Hst2).
  assert (feeder_ok s2) as Hok2 by (split; [rewrite Hfd2; apply Hok1 | done]).
  assert (feeds s2 = feeds s ∨ ∃ f, feeds s !! id = Some f ∧
    feeds s2 = <[id := set_started false f]> (feeds s)) as Hfail by (right; exists f; by rewrite Hfd2).
  destruct o2 as [ch| |]; [|by intros [= <- <-]..]. destruct Ho2 as [Hch [x Hx]].
  unfold mbind at 1, action_bind at 1. destruct (on_source _ _ s2) as [s3 o3] eqn:E3.
  apply on_source_cases in E3 as [(? & _ & _)|(x0 & x' & Hx0 & Hsub & ->)]; [congruence|].
  rewrite Hx in Hx0. injection Hx0 as <-. apply unsubscribe_law in Hsub.
  set (s3 := set_sources _ s2). assert (channels_ok s3) as HC3 by (apply channels_ok_sources; eauto).
  assert (feeder_ok s3) as Hok3 by (split; [exact (proj1 Hok2) | done]).
  destruct o3 as [[]| |]; [|intros [= <- <-]; by split_and!..].
  unfold mbind at 1, action_bind at 1, get_state. unfold mbind, action_bind. cbn [sources s3 set_sources].
  rewrite lookup_insert_eq. cbn [fmap option_fmap option_map]. case_bool_decide as Hl.
  - destruct (removePriceFeederBySource (pi_Source f) s3) as [s4 o4] eqn:E4.
    apply removePriceFeeder_cases in E4 as (HC4 & -> & Hst4 & Hact4 & Hs4); [|done].
    intros [= <- <-]. assert (feeds s4 = feeds s2) as Hfd4 by (unfold feeds; by rewrite Hst4). split.
    + split; [|done]. change (feeds (set_active (activeFeeds s4 ∖ {[id]}) s4)) with (feeds s4).
      rewrite Hfd4. apply Hok2.
    + right. exists f. change (feeds (set_active (activeFeeds s4 ∖ {[id]}) s4)) with (feeds s4). cbn.
      rewrite Hfd4, Hfd2, Hact4, Hs4, lookup_delete_eq. cbn. rewrite Hact2. by split_and!.
  - intros [= <- <-]. split; [by split; [exact (proj1 Hok3)|]|]. right. exists f. cbn.
    split_and!; [done..|exact (eq_trans Hfd2 Hfd1)| by rewrite Hact2 |].
    intros y. rewrite lookup_insert_eq. intros [= <-]. rewrite Hsub. cbn. split.
    + intros He. apply Hl. f_equal. apply list_law. by rewrite Hsub.
    + apply lookup_delete_eq.
Qed.

Lemma NewPriceFeedInfo_Ret id market source ticker f : NewPriceFeedInfo id market source ticker = Ret f →
  pi_ID f = id ∧ pi_Source f = source ∧ pi_Ticker f = ticker ∧ is_source source = true ∧
  ticker ≠ ""%string ∧ pi_Started f = false ∧ market = Some (pi_Base f, pi_Quote f).
Proof.
  unfold NewPriceFeedInfo. destruct market as [[b q]|]; [|done].
  destruct (is_source source) eqn:Es; cbn; repeat case_bool_decide; try done. intros [= <-]. by split_and!.
Qed.

Lemma change_feed_ok source ticker f : (source = ""%string ∨ is_source source = true) →
  is_source (pi_Source f) = true → pi_Ticker f ≠ ""%string →
  is_source (pi_Source (change_feed source ticker f)) = true ∧ pi_Ticker (change_feed source ticker f) ≠ ""%string.
Proof. intros Hs HS HT. split; cbn; case_bool_decide; try done. by destruct Hs. Qed.

(** The operations, as data. *)
Inductive feeder_op :=
  | FAdd (id : string) (market : option (string * string)) (source ticker : string)
  | FStart (id : string)
  | FStop (id : string)
  | FUpdate (id source ticker : string)
  | FRemove (id : string).

Definition run_feeder_op (op : feeder_op) : action Fd error () :=
  match op with
  | FAdd id market source ticker => _ ← fd_AddPriceFeed id market source ticker; mret ()
  | FStart id => _ ← fd_StartPriceFeed dial id; mret ()
  | FStop id => fd_StopPriceFeed dial id
  | FUpdate id source ticker => fd_UpdatePriceFeed id source ticker
  | FRemove id => fd_RemovePriceFeed id
  end.

Lemma then_unit {A} (m : action Fd error A) s s' o : (_ ← m; mret ()) s = (s', o) → ∃ o1, m s = (s', o1).
Proof. unfold mbind, action_bind. destruct (m s) as [s1 []]; intros [= <- <-]; eauto. Qed.

Lemma set_store_ok st s : feeder_ok s → feeds_ok (records st) → feeder_ok (set_store st s).
Proof. by intros [_ HC] HF. Qed.

Lemma feeder_step_ok op s s' o : feeder_ok s → run_feeder_op op s = (s', o) → feeder_ok s'.
Proof.
  intros Hok. destruct op as [id market src tk|id|id|id src tk|id]; cbn.
  - intros [o1 E]%then_unit. revert E. unfold fd_AddPriceFeed, mbind, action_bind, lift, on_feed_store.
    destruct (NewPriceFeedInfo id market src tk) as [f| |] eqn:EN; [|by intros [= <- <-]..].
    apply NewPriceFeedInfo_Ret in EN as (Hid & Hs & Ht & Hsrc & Htk & _).
    destruct (FeedStore.AddPriceFeed f (fs_store s)) as [st o2] eqn:EA. intros E.
    assert (s' = set_store st s) as -> by (destruct o2; by injection E).
    apply set_store_ok; [done|]. apply AddPriceFeed_cases in EA as [(_ & HR & HN)|[HR _]]; rewrite HR; [|apply Hok].
    apply feeds_ok_new; [apply Hok | congruence..|done].
  - intros [o1 E]%then_unit. by apply StartPriceFeed_cases in E as [? _].
  - intros E. by apply StopPriceFeed_cases in E as [? _].
  - unfold fd_UpdatePriceFeed. case_bool_decide; [by intros [= <- <-]|].
    destruct (negb (bool_decide (src = ""%string)) && negb (is_source src)) eqn:Es; [by intros [= <- <-]|].
    unfold on_feed_store. destruct (FeedStore.UpdatePriceFeed id _ (fs_store s)) as [st o1] eqn:EU.
    intros [= <- <-]. apply set_store_ok; [done|].
    apply (UpdatePriceFeed_cases id (change_feed src tk)) in EU as [(_ & f & Hf & HR)|[HR _]]; rewrite HR; [|apply Hok].
    destruct (proj1 (proj1 Hok) _ _ Hf) as (? & HS & HT). destruct (change_feed_ok src tk f) as [? ?]; [|done..|].
    { destruct (bool_decide (src = ""%string)) eqn:Eb; [left; by apply bool_decide_eq_true in Eb|].
      right. by destruct (is_source src). }
    apply feeds_ok_insert with f; try done. apply Hok.
  - unfold fd_RemovePriceFeed, on_feed_store.
    destruct (FeedStore.RemovePriceFeed id (fs_store s)) as [st o1] eqn:ER. intros [= <- <-].
    apply set_store_ok; [done|]. apply RemovePriceFeed_cases in ER as [->|[-> _]]; [|apply Hok].
    apply feeds_ok_delete, Hok.
Qed.

(** States after any sequence of operations on an empty store, failed ones
    included. *)
Inductive feeder_reachable : Fd → Prop :=
  | feeder_new st w : records st = ∅ → feeder_reachable (NewFeeder st w)
  | feeder_step op s s' o :
      feeder_reachable s → run_feeder_op op s = (s', o) → feeder_reachable s'.

Lemma feeder_reachable_inv s : feeder_reachable s → feeder_ok s.
Proof.
  induction 1 as [st w Hst|]; [|by eapply feeder_step_ok].
  split; [unfold feeds; cbn; rewrite Hst; split; [intros id f|intros id1 id2 f1 f2]; by rewrite lookup_empty|].
  split_and!; cbn.
  - intros src. rewrite !lookup_empty. split; by intros [? [=]].
  - intros src ch. by rewrite lookup_empty.
  - intros src1 src2 ch. by rewrite lookup_empty.
  - intros ch. set_solver.
Qed.


(** starting and stopping a feed.  A start that succeeds marks the stored
    feed as started, makes it active and leaves its ticker subscribed at its
    source, and returns the channel of that source; it was not active before.  A stop
    that succeeds on a started feed marks it stopped and inactive, and its
    ticker is gone from the source, which is disconnected when nothing else is
    subscribed there.  A start that fails leaves the feeds as they were. *)
Theorem start_stop_correct id s s' :
  feeder_reachable s →
  (∀ ch, fd_StartPriceFeed dial id s = (s', Ret ch) →
     ∃ f x, feeds s !! id = Some f ∧ id ∉ activeFeeds s ∧
       feeds s' = <[id := set_started true f]> (feeds s) ∧ activeFeeds s' = {[id]} ∪ activeFeeds s ∧
       feedChBySource s' !! pi_Source f = Some ch ∧ sources s' !! pi_Source f = Some x ∧
       is_Some (subs x !! pi_Ticker f)) ∧
  (∀ o, fd_StartPriceFeed dial id s = (s', o) → (∀ ch, o ≠ Ret ch) →
     feeds s' = feeds s ∧ activeFeeds s' = activeFeeds s) ∧
  (fd_StopPriceFeed dial id s = (s', Ret ()) →
     ∃ f, feeds s !! id = Some f ∧
       if pi_Started f then
         feeds s' = <[id := set_started false f]> (feeds s) ∧ activeFeeds s' = activeFeeds s ∖ {[id]} ∧
         (∀ x, sources s' !! pi_Source f = Some x → subs x ≠ ∅ ∧ subs x !! pi_Ticker f = None)
       else s' = s).
Proof.
  intros Hok%feeder_reachable_inv. split_and!.
  - intros ch E. by apply StartPriceFeed_cases in E as [_ ?].
  - intros o E Ho. apply StartPriceFeed_cases in E as [_ Hc]; [|done]. by destruct o; [destruct (Ho a)|..].
  - intros E. apply StopPriceFeed_cases in E as [_ [(-> & f & Hf & Hs)|(f & Hf & Hs & ?)]]; [| |done].
    + exists f. by rewrite Hs.
    + exists f. by rewrite Hs.
Qed.

(** When the exchange cannot be told to unsubscribe, the feed is left marked as
    stopped and still active: from then on it can neither be stopped (nothing
    happens) nor started (it is refused as already started). *)
Theorem failed_stop_wedges id s f x x' e :
  available (fs_store s) → feeds s !! id = Some f → pi_Started f = true → id ∈ activeFeeds s →
  sources s !! pi_Source f = Some x → UnsubscribeMarkets (toMarketList f) x = (x', Err e) →
  ∃ s1, fd_StopPriceFeed dial id s = (s1, Err e) ∧
    fd_StopPriceFeed dial id s1 = (s1, Ret ()) ∧
    fd_StartPriceFeed dial id s1 = (s1, Err (Errorf "price feed already started")).
Proof.
  intros Ha Hf Hs Hact Hx HU.
  assert (∀ st, available st → FeedStore.GetPriceFeed st id =
    match records st !! id with Some f => Ret f | None => Err (Errorf "price feed not found") end) as HG.
  { intros st Hst. unfold FeedStore.GetPriceFeed. rewrite avail_Get by done. by destruct (records st !! id). }
  destruct (bh_Update id (set_started false f) (fs_store s)) as [st o] eqn:EU.
  destruct (avail_Update _ _ _ _ _ Ha EU) as [HR Ha']. unfold update_spec in HR.
  unfold feeds in Hf. rewrite Hf in HR. injection HR as HR ->.
  exists (set_sources (<[pi_Source f := x']> (sources s)) (set_store st s)). split_and!.
  - unfold fd_StopPriceFeed, FeedStore.UpdatePriceFeed, getPriceFeederBySource, on_source, on_feed_store,
      read_feeds, mbind, action_bind, get_state, lift.
    rewrite !HG, !Hf by done. rewrite Hs. cbn. rewrite HG, Hf, EU by done. cbn. rewrite Hx. cbn. rewrite ?Hx.
    unfold toMarketList in *. change (feed_market (set_started false f)) with (feed_market f). by rewrite HU.
  - unfold fd_StopPriceFeed, read_feeds, mbind, action_bind. cbn.
    by rewrite HG, HR, lookup_insert_eq.
  - unfold fd_StartPriceFeed, read_feeds, mbind, action_bind, isActiveFeed. cbn.
    rewrite HG, HR, lookup_insert_eq by done. by rewrite bool_decide_true.
Qed.

(** Two markets that use the same ticker of the same source: starting the feed of
    the second succeeds, and the ticker stays with the first one, so that by
    exchange_feeds_correct no price is ever sent for the second. *)
Theorem shared_ticker_starves id s s' ch f x m :
  feeder_ok s → fd_StartPriceFeed dial id s = (s', Ret ch) → feeds s !! id = Some f →
  sources s !! pi_Source f = Some x → subs x !! pi_Ticker f = Some m → m ≠ feed_market f →
  ∃ x', sources s' !! pi_Source f = Some x' ∧ subs x' !! pi_Ticker f = Some m.
Proof.
  intros Hok HS Hf Hx Hm _. revert HS.
  unfold fd_StartPriceFeed, read_feeds, mbind at 1 2, action_bind at 1 2, get_state.
  destruct (FeedStore.GetPriceFeed (fs_store s) id) as [f0| |] eqn:EG; [|done..].
  apply GetPriceFeed_Ret in EG. unfold feeds in Hf. rewrite Hf in EG. injection EG as <-.
  destruct (isActiveFeed s id); [done|].
  unfold mbind at 1, action_bind at 1. unfold getPriceFeederBySource at 1. rewrite Hx.
  unfold mbind at 1, action_bind at 1. unfold on_source. rewrite Hx.
  destruct (SubscribeMarkets (toMarketList f) x) as [x1 o1] eqn:ES. apply subscribe_law in ES.
  cbn in ES. rewrite Hm in ES.
  destruct o1 as [[]| |]; [|done..]. unfold mbind, action_bind, on_feed_store.
  destruct (FeedStore.UpdatePriceFeed _ _ _) as [st [[]| |]]; [|done..]. intros [= <- <-]. cbn.
  exists x1. rewrite lookup_insert_eq. split; [done|]. by rewrite ES.
Qed.
End feeder_theorems.

(** * Theorems: the application service *)
Section application_theorems.
Context {S : Type} `{!BadgerHold PriceFeedInfo S} `{!BadgerHoldLaws PriceFeedInfo S}.
Context {X : Type} `{!PriceFeeder X} `{!PriceFeederLaws X} {W : Type}.
Context {M : Type} `{!MarketRepository M} {D : Type} `{!DecimalOps D}.
Variable dial : string → action W error X.
Abbreviation As := (AppState S X W M).
Implicit Types (s : As).

(** The listener stores the price of a market it finds, and drops the others. *)
Lemma on_price_cases (feed : PriceFeed D) s s' o : on_price feed s = (s', o) →
  ap_feeder s' = ap_feeder s ∧ ap_listeners s' = ap_listeners s ∧
  match GetMarketByAssets (ap_markets s) (fm_BaseAsset (pf_Market feed)) (fm_QuoteAsset (pf_Market feed)) with
  | Ret market => ∃ o', UpdateMarketPrice (Name market) (toDomain feed) (ap_markets s) = (ap_markets s', o')
  | _ => ap_markets s' = ap_markets s
  end.
Proof.
  unfold on_price. destruct (GetMarketByAssets _ _ _) as [m| |]; [|by intros [= <- <-]..].
  destruct (UpdateMarketPrice _ _ _) as [ms o1] eqn:E. intros [= <- <-]. split_and!; try done. by exists o1.
Qed.

(** the guards of the service.  A feed is started only for a market whose
    strategy is pluggable, and a listener then reads the channel of its source; it
    is updated or removed only while it is stopped, and removed only when its
    market is not pluggable any more.  The market store is never touched by these
    operations. *)
Theorem feeder_service_guards id source ticker s s' :
  (app_StartPriceFeed dial id s = (s', Ret ()) →
     ∃ f m ch fd, records (fs_store (ap_feeder s)) !! id = Some f ∧
       GetMarketByAssets (ap_markets s) (pi_Base f) (pi_Quote f) = Ret m ∧ IsStrategyPluggable m = true ∧
       fd_StartPriceFeed dial id (ap_feeder s) = (fd, Ret ch) ∧
       s' = {| ap_feeder := fd; ap_markets := ap_markets s; ap_listeners := ap_listeners s ++ [ch] |}) ∧
  (app_UpdatePriceFeed id source ticker s = (s', Ret ()) →
     ∃ f, records (fs_store (ap_feeder s)) !! id = Some f ∧ pi_Started f = false ∧
       ap_markets s' = ap_markets s) ∧
  (app_RemovePriceFeed id s = (s', Ret ()) →
     ∃ f m, records (fs_store (ap_feeder s)) !! id = Some f ∧ pi_Started f = false ∧
       GetMarketByAssets (ap_markets s) (pi_Base f) (pi_Quote f) = Ret m ∧
       IsStrategyPluggable m = false ∧ ap_markets s' = ap_markets s).
Proof.
  split_and!.
  - unfold app_StartPriceFeed. intros E. apply action_bind_Ret in E as (s1 & f & E1 & E).
    unfold on_feeder, read_feeds in E1. destruct s as [fd ms ls]. cbn in *. injection E1 as <- E1.
    apply GetPriceFeed_Ret in E1. apply action_bind_Ret in E as (s2 & m & [= <- E2] & E).
    destruct (IsStrategyPluggable m) eqn:Em; cbn in E; [|done].
    apply action_bind_Ret in E as (s3 & ch & E3 & [= <-]). unfold on_feeder in E3. cbn in E3.
    destruct (fd_StartPriceFeed dial id fd) as [fd' o'] eqn:E4. injection E3 as <- ->. cbn.
    exists f, m, ch, fd'. by split_and!.
  - unfold app_UpdatePriceFeed. intros E. apply action_bind_Ret in E as (s1 & f & E1 & E).
    unfold on_feeder, read_feeds in E1. destruct s as [fd ms ls]. cbn in *. injection E1 as <- E1.
    apply GetPriceFeed_Ret in E1. exists f. destruct (pi_Started f); [done|].
    unfold on_feeder in E. destruct (fd_UpdatePriceFeed _ _ _ _) as [fd' o']. injection E as <- _. by split_and!.
  - unfold app_RemovePriceFeed. intros E. apply action_bind_Ret in E as (s1 & f & E1 & E).
    unfold on_feeder, read_feeds in E1. destruct s as [fd ms ls]. cbn in *. injection E1 as <- E1.
    apply GetPriceFeed_Ret in E1. destruct (pi_Started f) eqn:Es; [done|].
    apply action_bind_Ret in E as (s2 & m & [= <- E2] & E). destruct (IsStrategyPluggable m) eqn:Em; [done|].
    unfold on_feeder in E. destruct (fd_RemovePriceFeed _ _) as [fd' o']. injection E as <- _.
    exists f, m. by split_and!.
Qed.

(** A feed that is marked as started while its market is not pluggable makes the
    start-up fail: the feeds after it are not started, and the service is not
    created. *)
Theorem startup_fails_on_changed_strategy s f m fs1 fs2 :
  available (fs_store (ap_feeder s)) →
  records (fs_store (ap_feeder s)) !! pi_ID f = Some f → pi_Started f = true →
  GetMarketByAssets (ap_markets s) (pi_Base f) (pi_Quote f) = Ret m → IsStrategyPluggable m = false →
  Forall (λ g, pi_Started g = false) fs1 →
  start_all dial (fs1 ++ f :: fs2) s = (s, Err (Errorf "market strategy must be pluggable")).
Proof.
  intros Ha Hf Hs Hm Hp Hfs1. induction Hfs1 as [|g fs1 Hg _ IH]; cbn.
  - rewrite Hs. unfold app_StartPriceFeed, on_feeder, read_feeds, read_app_markets, mbind, action_bind, lift.
    unfold FeedStore.GetPriceFeed. rewrite avail_Get, Hf by done. destruct s; cbn in *. by rewrite Hm, Hp.
  - by rewrite Hg.
Qed.
End application_theorems.

(** * From the exchange to the daemon

    The client of an exchange sends its prices on [ext], the goroutine of
    getPriceFeederBySource forwards them to [int], which the listeners read; both
    channels hold 20 prices.  removePriceFeederBySource closes [ext] (through
    Stop) and then [int]. *)
Module Pipe.
Section pipe.
Context {A : Type}.

Definition capacity : nat := 20.

Inductive forwarder := Receiving | Sending (a : A) | Returned | Panicked (a : A).

Record state := {
  ext : list A; ext_closed : bool;
  fwd : forwarder;
  int : list A; int_closed : bool;
  emitted : list A;      (* everything the client has sent *)
  delivered : list A     (* everything the listeners have read *) }.

Definition init : state := {|
  ext := []; ext_closed := false; fwd := Receiving; int := []; int_closed := false;
  emitted := []; delivered := [] |}.

Definition move (e : list A) (f : forwarder) (i : list A) (s : state) : state := {|
  ext := e; ext_closed := ext_closed s; fwd := f; int := i; int_closed := int_closed s;
  emitted := emitted s; delivered := delivered s |}.

Inductive step (s : state) : state → Prop :=
  | step_emit a : ext_closed s = false → length (ext s) < capacity →
      step s {| ext := ext s ++ [a]; ext_closed := false; fwd := fwd s; int := int s;
                int_closed := int_closed s; emitted := emitted s ++ [a]; delivered := delivered s |}
  | step_receive a e : fwd s = Receiving → ext s = a :: e → step s (move e (Sending a) (int s) s)
  | step_range_ends : fwd s = Receiving → ext s = [] → ext_closed s = true →
      step s (move [] Returned (int s) s)
  | step_send a : fwd s = Sending a → int_closed s = false → length (int s) < capacity →
      step s (move (ext s) Receiving (int s ++ [a]) s)
  | step_send_closed a : fwd s = Sending a → int_closed s = true →
      step s (move (ext s) (Panicked a) (int s) s)
  | step_deliver a i : int s = a :: i →
      step s {| ext := ext s; ext_closed := ext_closed s; fwd := fwd s; int := i;
                int_closed := int_closed s; emitted := emitted s; delivered := delivered s ++ [a] |}
  | step_stop : ext_closed s = false →
      step s {| ext := ext s; ext_closed := true; fwd := fwd s; int := int s;
                int_closed := int_closed s; emitted := emitted s; delivered := delivered s |}
  | step_close : ext_closed s = true → int_closed s = false →
      step s {| ext := ext s; ext_closed := true; fwd := fwd s; int := int s;
                int_closed := true; emitted := emitted s; delivered := delivered s |}.

(** The price the forwarder holds. *)
Definition held (f : forwarder) : list A :=
  match f with Sending a => [a] | Panicked a => [a] | _ => [] end.

Definition in_order (s : state) : Prop :=
  emitted s = delivered s ++ int s ++ held (fwd s) ++ ext s ∧
  length (int s) ≤ capacity ∧ length (ext s) ≤ capacity ∧
  (int_closed s = true → ext_closed s = true) ∧
  match fwd s with
  | Panicked _ => int_closed s = true
  | Returned => ext s = [] ∧ ext_closed s = true
  | _ => True
  end.

Lemma in_order_step s s' : in_order s → step s s' → in_order s'.
Proof.
  intros (HE & Hi & He & HC & HF) Hs. unfold in_order.
  inversion Hs as [a Hn Hl|a e Hf Hx|Hf Hx Hc|a Hf Hn Hl|a Hf Hc|a i Hx|Hn|Hc Hn]; subst; cbn in *;
    try rewrite Hf in *; try rewrite Hx in *; cbn in *; rewrite ?length_app in *; cbn.
  - split_and!; try done; [by rewrite HE, <- !app_assoc | lia | by intros; rewrite <- Hn; apply HC |].
    destruct (fwd s); try done. destruct HF. congruence.
  - split_and!; try done; lia.
  - split_and!; done.
  - rewrite HE, <- !app_assoc. split_and!; try done; lia.
  - split_and!; done.
  - split_and!; try done; [by rewrite HE, <- !app_assoc | lia].
  - split_and!; try done. destruct (fwd s); try done. by destruct HF.
  - split_and!; try done. destruct (fwd s); try done. by destruct HF.
Qed.

Lemma in_order_reachable s : rtc step init s → in_order s.
Proof.
  intros HR. assert (in_order init) as H0 by (split_and!; cbn; try done; unfold capacity; lia).
  revert H0. induction HR; eauto using in_order_step.
Qed.

(** prices reach the listeners in the order the exchange client sent them,
    none twice and none skipped: what was sent is what was delivered, then what
    waits in the inner channel, then the price the forwarder holds, then what
    waits in the outer one; the channels never hold more than their capacity,
    and a forwarder that returned has left nothing behind.  The forwarder panics
    only when it sends on the inner channel after it was closed, which does
    happen: stopping a source while a price is on its way kills the process. *)
Theorem prices_in_order :
  (∀ s, rtc step init s →
     emitted s = delivered s ++ int s ++ held (fwd s) ++ ext s ∧
     length (int s) ≤ capacity ∧ length (ext s) ≤ capacity ∧
     (fwd s = Returned → ext s = []) ∧
     (∀ a, fwd s = Panicked a → int_closed s = true)) ∧
  (∀ a, ∃ s, rtc step init s ∧ fwd s = Panicked a).
Proof.
  split.
  - intros s (HE & Hi & He & _ & HF)%in_order_reachable. split_and!; try done.
    + intros E. rewrite E in HF. by destruct HF.
    + intros a E. by rewrite E in HF.
  - intros a. eexists. split.
    + eapply rtc_l; [apply (step_emit _ a); [done | unfold capacity; cbn; lia]|].
      eapply rtc_l; [eapply step_receive; reflexivity|].
      eapply rtc_l; [apply step_stop; reflexivity|].
      eapply rtc_l; [apply step_close; reflexivity|].
      eapply rtc_l; [eapply step_send_closed; reflexivity|]. apply rtc_refl.
    + done.
Qed.
End pipe.
End Pipe.

(** * Witnesses *)
Module FeederExamples.
Import BadgerExamples ExchangeExamples.

Abbreviation St := (FState (disk PriceFeedInfo) (source Fixed.t (list json)) ()).
Definition connect (src : string) : action () error (source Fixed.t (list json)) := λ w,
  (w, Ret {| src_name := if bool_decide (src = krakenSource) then Kraken else Coinbase;
             src_service := NewService [] |}).

Definition feeder0 : St := NewFeeder empty_disk ().
Definition added : St :=
  fst (run_feeder_op connect (FAdd "feed1" (Some ("lbtc", "usdt")) "kraken" "XBT/USDT")%string feeder0).
Definition running : St := fst (run_feeder_op connect (FStart "feed1") added).

Lemma added_reachable : feeder_reachable connect added.
Proof. eapply feeder_step; [apply (feeder_new connect empty_disk ()); reflexivity | apply surjective_pairing]. Qed.
Lemma running_reachable : feeder_reachable connect running.
Proof. eapply feeder_step; [apply added_reachable | apply surjective_pairing]. Qed.


Lemma start_stop_correct_witness :
  ∃ f x, feeds added !! "feed1"%string = Some f ∧ feeds running = <["feed1" := set_started true f]> (feeds added) ∧
    sources running !! pi_Source f = Some x ∧ is_Some (subs x !! pi_Ticker f).
Proof.
  destruct (start_stop_correct connect "feed1" added running added_reachable) as [HS _].
  destruct (HS 0) as (f & x & Hf & _ & HR & _ & _ & Hx & Ht).
  - vm_compute. reflexivity.
  - exists f, x. split; [exact Hf|]. split; [exact HR|]. split; [exact Hx | exact Ht].
Defined.

Definition pluggable_store : InmemoryMarket.store :=
  fst (InmemoryMarket.createMarket (λ b, b) {|
    BaseAsset := "lbtc"; QuoteAsset := "usdt"; Name := "m"; BaseAssetPrecision := 8; QuoteAssetPrecision := 8;
    PercentageFee := zero_fee; FixedFee := zero_fee; Tradable := false;
    StrategyType := StrategyTypePluggable; Price := empty_price |} InmemoryMarket.NewMarketRepositoryImpl).
#[local] Instance market_repo : MarketRepository InmemoryMarket.store :=
  InmemoryMarket.repository (D := Fixed.t) (λ b, b).
Definition app0 : AppState (disk PriceFeedInfo) (source Fixed.t (list json)) () InmemoryMarket.store :=
  {| ap_feeder := added; ap_markets := pluggable_store; ap_listeners := [] |}.
Definition app1 := fst (app_StartPriceFeed connect "feed1" app0).

Lemma feeder_service_guards_witness :
  app_StartPriceFeed connect "feed1" app0 = (app1, Ret ()) ∧
  ∃ m, GetMarketByAssets pluggable_store "lbtc" "usdt" = Ret m ∧ IsStrategyPluggable m = true.
Proof.
  assert (app_StartPriceFeed connect "feed1" app0 = (app1, Ret ())) as E by (vm_compute; reflexivity).
  split; [exact E|].
  destruct (proj1 (feeder_service_guards connect "feed1" "" "" app0 app1) E)
    as (f & m & ch & fd & Hf & Hm & Hp & _).
  exists m. split; [|exact Hp].
  assert (f = {| pi_ID := "feed1"; pi_Base := "lbtc"; pi_Quote := "usdt"; pi_Source := "kraken";
    pi_Ticker := "XBT/USDT"; pi_Started := false |}) as -> by (vm_compute in Hf; injection Hf as <-; reflexivity).
  exact Hm.
Defined.
End FeederExamples.
