(* ===== verification/SecureStore.v ===== *)
(** pkg/securestore/bolt: the encrypted key-value store that keeps the
    webhooks.

    The database (bbolt, through kvdb) is the class [Bolt]: a tree of buckets
    changed by transactions; the cipher (snacl) is the class [Snacl].  The goroutines
    of updateEncryptedDb write the keys in any order ([MapOrder]). *)

From Stdlib Require Import ZArith Lia Ascii.
From stdpp Require Import base tactics strings list gmap.
From S2P Require Import Prelude Errors Decimal Market Trade Repos.
Local Open Scope nat_scope.

(** * The database *)

(** What a key of the root bucket holds: a value or a nested bucket. *)
Inductive entry :=
  | Value (v : bytes)
  | Bucket (b : gmap string bytes).
Abbreviation tree := (gmap string entry).

(** Transactions on the root bucket, which exists since the store was opened. *)
Class Bolt (DB : Type) := {
  db_tree : DB → tree;
  db_Update : (tree → outcome error tree) → action DB error ();
}.

(** A transaction is committed as a whole or leaves the tree as it was; while
    the database is available it fails only if its body does. *)
Class BoltLaws (DB : Type) `{Bolt DB} := {
  db_available : DB → Prop;
  db_Update_law f s s' o : db_Update f s = (s', o) →
    (db_available s → db_available s') ∧
    match f (db_tree s) with
    | Ret t => (o = Ret () ∧ db_tree s' = t) ∨
               (¬ db_available s ∧ (∃ e, o = Err e) ∧ db_tree s' = db_tree s)
    | Err e => (o = Err e ∨ ¬ db_available s ∧ ∃ e, o = Err e) ∧ db_tree s' = db_tree s
    | Panic p => (o = Panic p ∨ ¬ db_available s ∧ ∃ e, o = Err e) ∧ db_tree s' = db_tree s
    end;
}.

(** * The cipher *)

(** snacl.SecretKey: a key derived from a password and a random salt; what is
    stored of it does not contain the key.  [rnd] is the randomness used;
    [Unmarshal_DeriveKey] reads what is stored and derives the key. *)
Class Snacl (K : Type) := {
  NewSecretKey : Z → bytes → K;
  Marshal : K → bytes;
  Unmarshal_DeriveKey : bytes → bytes → outcome error K;
  Encrypt : Z → K → bytes → bytes;
  Decrypt : K → bytes → outcome error bytes;
}.

Class SnaclLaws (K : Type) `{Snacl K} : Prop := {
  derive_right rnd pw : Unmarshal_DeriveKey (Marshal (NewSecretKey rnd pw)) pw = Ret (NewSecretKey rnd pw);
  derive_wrong rnd pw pw' : pw' ≠ pw →
    ∃ e, Unmarshal_DeriveKey (Marshal (NewSecretKey rnd pw)) pw' = Err e;
  decrypt_encrypt rnd k v : Decrypt k (Encrypt rnd k v) = Ret v;
  decrypt_other rnd k k' v : k ≠ k' → ∃ e, Decrypt k' (Encrypt rnd k v) = Err e;
  encrypt_nonempty rnd k v : Encrypt rnd k v ≠ [];
  marshal_nonempty k : Marshal k ≠ [];
  decrypt_no_panic k c p : Decrypt k c ≠ Panic p;
}.

(** * The store *)

Definition ErrStoreLocked : error := Errorf "store is locked".
Definition ErrPasswordRequired : error := Errorf "password must not be null".
Definition ErrInvalidPassword : error := Errorf "password is not valid".
Definition ErrEncKeyNotFound : error := Errorf "store encryption key not found".
Definition ErrBucketNotFound : error := Errorf "bucket not found".
Definition ErrMissingBucketKey : error := Errorf "missing bucket key".
Definition ErrForbiddenBucketKey : error := Errorf "bucket key is not allowed".
Definition ErrMissingDataKey : error := Errorf "missing data key".
Definition ErrForbiddenDataKey : error := Errorf "data key is not allowed".
Definition ErrMissingData : error := Errorf "missing data to add".
(** bbolt: an empty key; a value where a bucket is expected or the other way round. *)
Definition ErrKeyRequired : error := Errorf "key required".
Definition ErrIncompatibleValue : error := Errorf "incompatible value".

Definition encryptionKeyID : string := "enckey".

Section store.
Context {DB : Type} `{Bolt DB} {K : Type} `{Snacl K} `{MapOrder}.

Record boltSecureStorage := { db : DB; encKey : option K }.

Definition IsLocked (s : boltSecureStorage) : bool := bool_decide (encKey s = None).
Definition Lock (s : boltSecureStorage) : boltSecureStorage := {| db := db s; encKey := None |}.

Definition on_db {A} (m : action DB error A) : action boltSecureStorage error A := λ s,
  let '(d, o) := m (db s) in ({| db := d; encKey := encKey s |}, o).
Definition set_key (k : K) : action boltSecureStorage error () := λ s,
  ({| db := db s; encKey := Some k |}, Ret ()).

(** Entries of a bucket; a nil bucket key is the root bucket. *)
Definition nested (t : tree) (bucketKey : string) : outcome error (gmap string bytes) :=
  match t !! bucketKey with Some (Bucket b) => Ret b | _ => Err ErrBucketNotFound end.
Definition bucket_put (bucketKey key : string) (v : bytes) (t : tree) : outcome error tree :=
  if bool_decide (key = "") then Err ErrKeyRequired
  else if bool_decide (bucketKey = "") then
    match t !! key with
    | Some (Bucket _) => Err ErrIncompatibleValue
    | _ => Ret (<[key := Value v]> t)
    end
  else b ← nested t bucketKey; Ret (<[bucketKey := Bucket (<[key := v]> b)]> t).
Definition bucket_get (bucketKey key : string) (t : tree) : outcome error (option bytes) :=
  if bool_decide (bucketKey = "") then
    Ret (match t !! key with Some (Value v) => Some v | _ => None end)
  else b ← nested t bucketKey; Ret (b !! key).
Definition bucket_delete (bucketKey key : string) (t : tree) : outcome error tree :=
  if bool_decide (bucketKey = "") then
    match t !! key with
    | Some (Bucket _) => Err ErrIncompatibleValue
    | _ => Ret (delete key t)
    end
  else b ← nested t bucketKey; Ret (<[bucketKey := Bucket (delete key b)]> t).
(** The key-value pairs of a bucket, nested buckets left out. *)
Definition bucket_pairs (bucketKey : string) (t : tree) : outcome error (gmap string bytes) :=
  if bool_decide (bucketKey = "") then
    Ret (omap (λ e, match e with Value v => Some v | Bucket _ => None end) t)
  else nested t bucketKey.

(** The stored encryption key, if any ([len(dbKey) > 0]). *)
Definition stored_key (t : tree) : option bytes :=
  match t !! encryptionKeyID with Some (Value (b :: bs)) => Some (b :: bs) | _ => None end.

(** [password] is nil or a password; [rnd] is the randomness of a new key. *)
Definition CreateUnlock (rnd : Z) (password : option bytes) : action boltSecureStorage error () := λ s,
  if negb (IsLocked s) then (s, Ret ())
  else match password with
       | None => (s, Err ErrPasswordRequired)
       | Some pw =>
           match stored_key (db_tree (db s)) with
           | Some dbKey =>
               match Unmarshal_DeriveKey dbKey pw with
               | Ret k => set_key k s
               | Err _ => (s, Err ErrInvalidPassword)
               | Panic p => (s, Panic p)
               end
           | None =>
               let k := NewSecretKey rnd pw in
               (_ ← on_db (db_Update (bucket_put "" encryptionKeyID (Marshal k))); set_key k) s
           end
       end.

Definition locked {A} (m : K → action boltSecureStorage error A) : action boltSecureStorage error A := λ s,
  match encKey s with None => (s, Err ErrStoreLocked) | Some k => m k s end.
Definition check_bucket_key {A} (key : string) (m : action boltSecureStorage error A)
    : action boltSecureStorage error A :=
  if bool_decide (key = "") then lift (Err ErrMissingBucketKey)
  else if bool_decide (key = encryptionKeyID) then lift (Err ErrForbiddenBucketKey) else m.
Definition check_data_key {A} (key : string) (m : action boltSecureStorage error A)
    : action boltSecureStorage error A :=
  if bool_decide (key = "") then lift (Err ErrMissingDataKey)
  else if bool_decide (key = encryptionKeyID) then lift (Err ErrForbiddenDataKey) else m.

Definition CreateBucket (key : string) : action boltSecureStorage error () :=
  locked (λ _, check_bucket_key key (on_db (db_Update (λ t,
    match t !! key with
    | Some (Bucket _) => Ret t
    | Some (Value _) => Err ErrIncompatibleValue
    | None => Ret (<[key := Bucket ∅]> t)
    end)))).

Definition AddToBucket (rnd : Z) (bucketKey key : string) (value : bytes) : action boltSecureStorage error () :=
  locked (λ k, check_data_key key
    (if bool_decide (value = []) then lift (Err ErrMissingData)
     else on_db (db_Update (bucket_put bucketKey key (Encrypt rnd k value))))).

(** A missing or empty entry is nil. *)
Definition GetFromBucket (bucketKey key : string) : action boltSecureStorage error (option bytes) :=
  locked (λ k, check_data_key key (
    s ← get_state;
    encryptedValue ← lift (bucket_get bucketKey key (db_tree (db s)));
    match encryptedValue with
    | None | Some [] => mret None
    | Some c => v ← lift (Decrypt k c); mret (Some v)
    end)).

Fixpoint decrypt_all (k : K) (l : list (string * bytes)) : outcome error (gmap string bytes) :=
  match l with
  | [] => Ret ∅
  | (key, c) :: l =>
      if bool_decide (key = encryptionKeyID) then decrypt_all k l
      else v ← Decrypt k c; m ← decrypt_all k l; Ret (<[key := v]> m)
  end.
Definition GetAllFromBucket (bucketKey : string) : action boltSecureStorage error (gmap string bytes) :=
  locked (λ k,
    s ← get_state;
    pairs ← lift (bucket_pairs bucketKey (db_tree (db s)));
    lift (decrypt_all k (map_to_list pairs))).

Definition is_bucket (e : entry) : bool := match e with Bucket _ => true | Value _ => false end.
Definition ListBuckets (s : boltSecureStorage) : list string :=
  (filter (λ ke, is_bucket ke.2 = true) (map_to_list (db_tree (db s)))).*1.

Definition RemoveFromBucket (bucketKey key : string) : action boltSecureStorage error () :=
  locked (λ _, check_data_key key (on_db (db_Update (bucket_delete bucketKey key)))).
Definition RemoveBucket (key : string) : action boltSecureStorage error () :=
  locked (λ _, check_bucket_key key (on_db (db_Update (λ t,
    match t !! key with
    | Some (Bucket _) => Ret (delete key t)
    | _ => Err ErrBucketNotFound
    end)))).

(** ** Changing the password *)

(** [strings.Split(k, "_")]: the first two pieces, [kk[0]] and [kk[1]]. *)
Fixpoint cut (s : string) : string * option string :=
  match s with
  | EmptyString => ("", None)
  | String c r =>
      if bool_decide (c = "_"%char) then ("", Some r)
      else let '(a, b) := cut r in (String c a, b)
  end%string.
Definition split_key (k : string) : outcome error (string * string) :=
  match cut k with
  | (_, None) => Panic IndexOutOfRange
  | (bucketKey, Some rest) => Ret (bucketKey, fst (cut rest))
  end.
Definition joined_key (bucketKey key : string) : string := bucketKey +:+ "_" +:+ key.

(** The data of every bucket under the joined keys; the goroutines that read the
    buckets answer in any order.  The error of a bucket ends
    the collection, but the variable that is returned is another one, which is
    nil ([None] here). *)
Fixpoint collect (bucketKeys : list string) (s : boltSecureStorage) : option (list (string * bytes)) :=
  match bucketKeys with
  | [] => Some []
  | b :: bs =>
      match snd (GetAllFromBucket b s) with
      | Ret data => rest ← collect bs s; Some (((λ kv, (joined_key b kv.1, kv.2)) <$> map_to_list data) ++ rest)
      | _ => None
      end
  end.
(** One goroutine: the value goes where the split of its joined key says; a
    missing bucket is a nil pointer, the errors of Put and Batch are ignored. *)
Definition rewrite_one (rnd : Z) (newKey : K) (kv : string * bytes) : action DB error () := λ d,
  match split_key kv.1 with
  | Ret (bucketKey, key) =>
      let put := db_Update (λ t,
        match (if bool_decide (bucketKey = "") then Ret ∅ else nested t bucketKey) with
        | Err _ => Panic NilDereference
        | _ => match bucket_put bucketKey key (Encrypt rnd newKey kv.2) t with Err _ => Ret t | o => o end
        end) in
      match put d with (d, Panic p) => (d, Panic p) | (d, _) => (d, Ret ()) end
  | Err e => (d, Err e)
  | Panic p => (d, Panic p)
  end.
Fixpoint rewrite_all (rnd : Z) (newKey : K) (l : list (string * bytes)) : action DB error () :=
  match l with
  | [] => mret ()
  | kv :: l => _ ← rewrite_one rnd newKey kv; rewrite_all rnd newKey l
  end.
Definition updateEncryptedDb (rnd : Z) (newKey : K) : action boltSecureStorage error () := λ s,
  match collect (range_order (ListBuckets s ++ [""%string])) s with
  | None => (s, Ret ())
  | Some l => on_db (rewrite_all rnd newKey (range_items (list_to_map l))) s
  end.

Definition ChangePassword (rnd : Z) (oldPw newPw : option bytes) : action boltSecureStorage error () :=
  match oldPw, newPw with
  | Some oldPw, Some newPw =>
      let encKeyNew := NewSecretKey rnd newPw in
      s ← get_state;
      _ ← lift (match stored_key (db_tree (db s)) with
                | None => Err ErrEncKeyNotFound
                | Some dbKey => Unmarshal_DeriveKey dbKey oldPw
                end);
      _ ← updateEncryptedDb rnd encKeyNew;
      _ ← on_db (db_Update (bucket_put "" encryptionKeyID (Marshal encKeyNew)));
      set_key encKeyNew
  | _, _ => lift (Err ErrPasswordRequired)
  end.
End store.
Arguments boltSecureStorage DB K : clear implicits.

(** * Theorems *)
Section store_theorems.
Context {DB : Type} `{!Bolt DB} `{!BoltLaws DB} {K : Type} `{!Snacl K} `{!SnaclLaws K} `{!EqDecision K} `{MapOrder}.
Abbreviation St := (boltSecureStorage DB K).
Implicit Types (s : St) (t : tree) (k : K).

(** Every value was encrypted with the key, and is not empty. *)
Definition sealed_with k (m : gmap string bytes) : Prop :=
  ∀ key c, m !! key = Some c → key ≠ ""%string ∧ key ≠ encryptionKeyID ∧
    ∃ rnd v, v ≠ [] ∧ c = Encrypt rnd k v.
Definition root_values t : gmap string bytes :=
  delete encryptionKeyID (omap (λ e, match e with Value v => Some v | Bucket _ => None end) t).
Definition sealed k t : Prop :=
  sealed_with k (root_values t) ∧
  ∀ b e, t !! b = Some e → b ≠ ""%string ∧ ∀ m, e = Bucket m → b ≠ encryptionKeyID ∧ sealed_with k m.

(** The plain text of the nested buckets. *)
Definition plain k (c : bytes) : bytes := match Decrypt k c with Ret v => v | _ => [] end.
Definition secrets k t : gmap string (gmap string bytes) :=
  omap (λ e, match e with Bucket m => Some (plain k <$> m) | Value _ => None end) t.

(** A store set up with password [pw]: its key is stored, opens with the
    password, and seals every value; in memory there is that key or none. *)
Definition ready s (rnd : Z) (pw : bytes) : Prop :=
  let k := NewSecretKey rnd pw in
  db_tree (db s) !! encryptionKeyID = Some (Value (Marshal k)) ∧
  sealed k (db_tree (db s)) ∧ (encKey s = None ∨ encKey s = Some k) ∧ db_available (db s).

Lemma plain_encrypt rnd k v : plain k (Encrypt rnd k v) = v.
Proof. unfold plain. by rewrite decrypt_encrypt. Qed.

Lemma secrets_lookup k t b :
  secrets k t !! b = match t !! b with Some (Bucket m) => Some (plain k <$> m) | _ => None end.
Proof. unfold secrets. rewrite lookup_omap. by destruct (t !! b) as [[]|]. Qed.

Lemma secrets_insert k t b m : secrets k (<[b := Bucket m]> t) = <[b := plain k <$> m]> (secrets k t).
Proof.
  apply map_eq. intros b'. rewrite secrets_lookup. destruct (decide (b' = b)) as [->|].
  - by rewrite !lookup_insert_eq.
  - by rewrite !lookup_insert_ne, secrets_lookup by done.
Qed.

Lemma nested_secrets k t b m' : secrets k t !! b = Some m' →
  ∃ m, nested t b = Ret m ∧ t !! b = Some (Bucket m) ∧ m' = plain k <$> m.
Proof.
  rewrite secrets_lookup. unfold nested. destruct (t !! b) as [[|m]|]; [done| |done]. intros [= <-]. by exists m.
Qed.
Lemma nested_missing k t b : secrets k t !! b = None → nested t b = Err ErrBucketNotFound.
Proof. rewrite secrets_lookup. unfold nested. by destruct (t !! b) as [[|m]|]. Qed.

Lemma root_values_bucket t b m : root_values (<[b := Bucket m]> t) = delete b (root_values t).
Proof.
  unfold root_values. rewrite omap_insert_None by done. by rewrite delete_delete.
Qed.

(** Changing a nested bucket keeps the rest sealed. *)
Lemma sealed_bucket k t b m : sealed k t → b ≠ ""%string → b ≠ encryptionKeyID → sealed_with k m →
  sealed k (<[b := Bucket m]> t).
Proof.
  intros [HR HB] Hb1 Hb2 Hm. split.
  - rewrite root_values_bucket. intros key c [_ Hc]%lookup_delete_Some. by apply HR.
  - intros b' e. rewrite lookup_insert_Some. intros [[<- <-]|[_ He]]; [|by apply HB].
    split; [done|]. by intros m' [= <-].
Qed.
Lemma sealed_lookup k t b m : sealed k t → t !! b = Some (Bucket m) →
  b ≠ ""%string ∧ b ≠ encryptionKeyID ∧ sealed_with k m.
Proof. intros [_ HB] Hb. destruct (HB _ _ Hb) as [? Hm]. destruct (Hm m eq_refl). done. Qed.

Lemma avail_db (f : tree → outcome error tree) (d d' : DB) o : db_available d → db_Update f d = (d', o) →
  db_available d' ∧
  match f (db_tree d) with
  | Ret t => o = Ret () ∧ db_tree d' = t
  | Err e => o = Err e ∧ db_tree d' = db_tree d
  | Panic p => o = Panic p ∧ db_tree d' = db_tree d
  end.
Proof.
  intros Ha E. destruct (db_Update_law _ _ _ _ E) as [Ha' Hf]. split; [by apply Ha'|].
  destruct (f (db_tree d)); naive_solver.
Qed.

(** ** The operations of an unlocked store *)
Definition unlocked s : Prop := ∃ rnd pw, ready s rnd pw ∧ encKey s = Some (NewSecretKey rnd pw).
Definition contents s : gmap string (gmap string bytes) :=
  match encKey s with Some k => secrets k (db_tree (db s)) | None => ∅ end.
Definition good_key (key : string) : Prop := key ≠ ""%string ∧ key ≠ encryptionKeyID.

Lemma check_data_key_good {A} key (m : action St error A) : good_key key → check_data_key key m = m.
Proof. intros [? ?]. unfold check_data_key. by rewrite !bool_decide_false. Qed.
Lemma check_bucket_key_good {A} key (m : action St error A) : good_key key → check_bucket_key key m = m.
Proof. intros [? ?]. unfold check_bucket_key. by rewrite !bool_decide_false. Qed.

(** The root bucket keeps no values of its own besides the encryption key. *)
Definition no_root s : Prop := root_values (db_tree (db s)) = ∅.
(** After an operation the store is unlocked with the same key. *)
Definition stays s s' : Prop := unlocked s' ∧ encKey s' = encKey s ∧ (no_root s → no_root s').

(** An update that replaces a nested bucket. *)
Lemma update_bucket s b m (f : tree → outcome error tree) : unlocked s →
  (∀ rnd pw, ready s rnd pw → b ≠ ""%string ∧ b ≠ encryptionKeyID ∧ sealed_with (NewSecretKey rnd pw) m) →
  f (db_tree (db s)) = Ret (<[b := Bucket m]> (db_tree (db s))) →
  ∃ s', on_db (db_Update f) s = (s', Ret ()) ∧ stays s s' ∧
    ∀ k, encKey s = Some k → contents s' = <[b := plain k <$> m]> (contents s).
Proof.
  intros (rnd & pw & Hr & Hk) Hm Hf. destruct Hr as (Henc & Hseal & Hmem & Ha) eqn:Er. clear Er.
  destruct (Hm rnd pw Hr) as (Hb1 & Hb2 & Hms).
  unfold on_db. destruct (db_Update f (db s)) as [d o] eqn:E.
  destruct (avail_db _ _ _ _ Ha E) as [Ha' Ho]. rewrite Hf in Ho. destruct Ho as [-> Ht].
  eexists. split; [done|]. split; [split_and!|].
  - exists rnd, pw. split; [|done]. unfold ready; cbn. rewrite Ht. split_and!; try done.
    + by rewrite lookup_insert_ne.
    + by apply sealed_bucket.
  - done.
  - unfold no_root; cbn. intros Hroot. by rewrite Ht, root_values_bucket, Hroot, delete_empty.
  - intros k Hk'. unfold contents; cbn. rewrite Hk', Ht. apply secrets_insert.
Qed.

Lemma unlocked_key s : unlocked s → ∃ k, encKey s = Some k ∧ sealed k (db_tree (db s)).
Proof. intros (rnd & pw & (_ & Hs & _) & Hk). eauto. Qed.

Lemma contents_lookup s k b : encKey s = Some k →
  contents s !! b = match db_tree (db s) !! b with Some (Bucket m) => Some (plain k <$> m) | _ => None end.
Proof. intros Hk. unfold contents. rewrite Hk. apply secrets_lookup. Qed.

Lemma AddToBucket_ok rnd b key v s m : unlocked s → good_key key → v ≠ [] → contents s !! b = Some m →
  ∃ s', AddToBucket rnd b key v s = (s', Ret ()) ∧ stays s s' ∧ contents s' = <[b := <[key := v]> m]> (contents s).
Proof.
  intros Hu Hkey Hv Hb. destruct (unlocked_key s Hu) as (k & Hk & Hseal).
  unfold AddToBucket, locked. rewrite Hk, check_data_key_good, bool_decide_false by done.
  unfold contents in Hb. rewrite Hk in Hb.
  destruct (nested_secrets _ _ _ _ Hb) as (m0 & Hn & Ht & ->).
  destruct (sealed_lookup _ _ _ _ Hseal Ht) as (Hb1 & Hb2 & Hm0).
  destruct (update_bucket s b (<[key := Encrypt rnd k v]> m0) (bucket_put b key (Encrypt rnd k v)) Hu)
    as (s' & E & Hu' & HC).
  - intros rnd' pw' Hr. split_and!; [done..|].
    assert (k = NewSecretKey rnd' pw') as <-.
    { destruct Hr as (_ & _ & [?|?] & _); congruence. }
    intros key' c. rewrite lookup_insert_Some. intros [[<- <-]|[_ Hc]]; [|by apply Hm0].
    destruct Hkey. split_and!; try done. by exists rnd, v.
  - unfold bucket_put. destruct Hkey. by rewrite !bool_decide_false, Hn.
  - exists s'. split_and!; [done..|]. rewrite (HC k Hk), fmap_insert, plain_encrypt. done.
Qed.

Lemma GetFromBucket_ok b key s : unlocked s → good_key key → b ≠ ""%string →
  GetFromBucket b key s = (s, match contents s !! b with
    | Some m => Ret (m !! key) | None => Err ErrBucketNotFound end).
Proof.
  intros Hu Hkey Hb. destruct (unlocked_key s Hu) as (k & Hk & Hseal).
  unfold GetFromBucket, locked. rewrite Hk, check_data_key_good by done.
  unfold mbind, action_bind, get_state, lift, bucket_get. rewrite bool_decide_false by done.
  unfold contents. rewrite Hk. destruct (secrets k (db_tree (db s)) !! b) as [m|] eqn:Eb.
  - destruct (nested_secrets _ _ _ _ Eb) as (m0 & -> & Ht & ->). cbn. rewrite lookup_fmap.
    destruct (m0 !! key) as [c|] eqn:Ec; [|done]. cbn.
    destruct (sealed_lookup _ _ _ _ Hseal Ht) as (_ & _ & Hm0).
    destruct (Hm0 _ _ Ec) as (_ & _ & rnd & v & Hv & ->). rewrite plain_encrypt, decrypt_encrypt.
    pose proof (encrypt_nonempty rnd k v). by destruct (Encrypt rnd k v).
  - by rewrite (nested_missing k).
Qed.

Lemma RemoveFromBucket_ok b key s m : unlocked s → good_key key → contents s !! b = Some m →
  ∃ s', RemoveFromBucket b key s = (s', Ret ()) ∧ stays s s' ∧ contents s' = <[b := delete key m]> (contents s).
Proof.
  intros Hu Hkey Hb. destruct (unlocked_key s Hu) as (k & Hk & Hseal).
  unfold RemoveFromBucket, locked. rewrite Hk, check_data_key_good by done.
  unfold contents in Hb. rewrite Hk in Hb.
  destruct (nested_secrets _ _ _ _ Hb) as (m0 & Hn & Ht & ->).
  destruct (sealed_lookup _ _ _ _ Hseal Ht) as (Hb1 & Hb2 & Hm0).
  destruct (update_bucket s b (delete key m0) (bucket_delete b key) Hu) as (s' & E & Hu' & HC).
  - intros rnd' pw' Hr. split_and!; [done..|].
    assert (k = NewSecretKey rnd' pw') as <-.
    { destruct Hr as (_ & _ & [?|?] & _); congruence. }
    intros key' c [_ Hc]%lookup_delete_Some. by apply Hm0.
  - unfold bucket_delete. by rewrite bool_decide_false, Hn.
  - exists s'. split_and!; [done..|]. by rewrite (HC k Hk), fmap_delete.
Qed.

Lemma decrypt_all_ok k l : NoDup l.*1 →
  (∀ key c, (key, c) ∈ l → key ≠ encryptionKeyID → ∃ rnd v, c = Encrypt rnd k v) →
  decrypt_all k l = Ret (plain k <$> delete encryptionKeyID (list_to_map l)).
Proof.
  induction l as [|[key c] l IH]; cbn; intros Hnd Hl; [by rewrite delete_empty, fmap_empty|].
  apply NoDup_cons in Hnd as [_ Hnd].
  specialize (IH Hnd (λ key c Hin, Hl key c (list_elem_of_further _ _ _ Hin))).
  case_bool_decide as Hk; [subst key; by rewrite IH, delete_insert_eq|].
  destruct (Hl key c) as (rnd & v & ->); [left|done|]. rewrite decrypt_encrypt, IH. cbn.
  by rewrite delete_insert_ne, fmap_insert, plain_encrypt.
Qed.

Lemma GetAllFromBucket_ok b s : unlocked s → b ≠ ""%string →
  GetAllFromBucket b s = (s, match contents s !! b with Some m => Ret m | None => Err ErrBucketNotFound end).
Proof.
  intros Hu Hb. destruct (unlocked_key s Hu) as (k & Hk & Hseal).
  unfold GetAllFromBucket, locked. rewrite Hk.
  unfold mbind, action_bind, get_state, lift, bucket_pairs. rewrite bool_decide_false by done.
  unfold contents. rewrite Hk. destruct (secrets k (db_tree (db s)) !! b) as [m|] eqn:Eb.
  - destruct (nested_secrets _ _ _ _ Eb) as (m0 & -> & Ht & ->). cbn.
    destruct (sealed_lookup _ _ _ _ Hseal Ht) as (_ & _ & Hm0).
    rewrite decrypt_all_ok, list_to_map_to_list; [|apply NoDup_fst_map_to_list|].
    + rewrite delete_id; [done|]. destruct (m0 !! encryptionKeyID) eqn:E; [|done].
      by destruct (Hm0 _ _ E) as (_ & [] & _).
    + intros key c Hc%elem_of_map_to_list. destruct (Hm0 _ _ Hc) as (_ & ? & rnd & v & _ & ->). eauto.
  - by rewrite (nested_missing k).
Qed.

Lemma CreateBucket_ok b s : unlocked s → good_key b → (∀ v, db_tree (db s) !! b ≠ Some (Value v)) →
  ∃ s', CreateBucket b s = (s', Ret ()) ∧ stays s s' ∧
    contents s' = <[b := default ∅ (contents s !! b)]> (contents s).
Proof.
  intros Hu Hkey Hval. destruct (unlocked_key s Hu) as (k & Hk & Hseal).
  unfold CreateBucket, locked. rewrite Hk, check_bucket_key_good by done.
  set (m := match db_tree (db s) !! b with Some (Bucket m) => m | _ => ∅ end).
  destruct (update_bucket s b m (λ t, match t !! b with
      | Some (Bucket _) => Ret t | Some (Value _) => Err ErrIncompatibleValue
      | None => Ret (<[b := Bucket ∅]> t) end) Hu) as (s' & E & Hu' & HC).
  - intros rnd' pw' Hr. destruct Hkey. split_and!; [done..|].
    assert (k = NewSecretKey rnd' pw') as <-.
    { destruct Hr as (_ & _ & [?|?] & _); congruence. }
    unfold m. destruct (db_tree (db s) !! b) as [[v|m0]|] eqn:Eb; [by destruct (Hval v)| |intros ? ? [=]].
    by eapply sealed_lookup.
  - unfold m. destruct (db_tree (db s) !! b) as [[v|m0]|] eqn:Eb; [by destruct (Hval v)| |done].
    by rewrite insert_id.
  - exists s'. split_and!; [done..|]. rewrite (HC k Hk), (contents_lookup s k b Hk). f_equal. unfold m.
    destruct (db_tree (db s) !! b) as [[v|m0]|] eqn:Eb; [by destruct (Hval v)|done|]. cbn. apply fmap_empty.
Qed.


Lemma stored_key_ready s rnd pw : ready s rnd pw →
  stored_key (db_tree (db s)) = Some (Marshal (NewSecretKey rnd pw)).
Proof.
  intros (Henc & _). unfold stored_key. rewrite Henc. pose proof (marshal_nonempty (NewSecretKey rnd pw)).
  by destruct (Marshal (NewSecretKey rnd pw)).
Qed.

Lemma CreateUnlock_right s rnd rnd' pw : ready s rnd pw → encKey s = None →
  CreateUnlock rnd' (Some pw) s = ({| db := db s; encKey := Some (NewSecretKey rnd pw) |}, Ret ()).
Proof.
  intros Hr Hl. unfold CreateUnlock, IsLocked. rewrite bool_decide_true, (stored_key_ready _ _ _ Hr) by done. cbn [negb].
  by rewrite derive_right.
Qed.
Lemma CreateUnlock_wrong s rnd rnd' pw pw' : ready s rnd pw → encKey s = None → pw' ≠ pw →
  CreateUnlock rnd' (Some pw') s = (s, Err ErrInvalidPassword).
Proof.
  intros Hr Hl Hpw. unfold CreateUnlock, IsLocked. rewrite bool_decide_true, (stored_key_ready _ _ _ Hr) by done.
  cbn [negb]. by destruct (derive_wrong rnd pw pw' Hpw) as [e ->].
Qed.
Lemma ready_lock s rnd pw : ready s rnd pw → ready (Lock s) rnd pw.
Proof. intros (? & ? & _ & ?). split_and!; auto. Qed.
Lemma ready_key s rnd pw : ready s rnd pw → ready {| db := db s; encKey := Some (NewSecretKey rnd pw) |} rnd pw.
Proof. intros (? & ? & _ & ?). split_and!; auto. Qed.

(** the password protects the store and gives everything back.  A store
    that is locked stays locked for every wrong password, with its database as it was;
    the right password unlocks it with exactly the contents it had when it was
    locked. *)
Theorem password_protects s rnd rnd' pw :
  unlocked s → ready s rnd pw →
  (∀ pw', pw' ≠ pw → CreateUnlock rnd' (Some pw') (Lock s) = (Lock s, Err ErrInvalidPassword)) ∧
  CreateUnlock rnd' None (Lock s) = (Lock s, Err ErrPasswordRequired) ∧
  ∃ s', CreateUnlock rnd' (Some pw) (Lock s) = (s', Ret ()) ∧ unlocked s' ∧ contents s' = contents s.
Proof.
  intros Hu Hr. pose proof (ready_lock _ _ _ Hr) as Hrl. split_and!.
  - intros pw' Hpw. by eapply CreateUnlock_wrong.
  - done.
  - rewrite (CreateUnlock_right _ _ _ _ Hrl) by done. eexists. split; [done|]. split.
    + exists rnd, pw. split; [|done]. by apply ready_key.
    + unfold contents; cbn. destruct (unlocked_key s Hu) as (k & Hk & _).
      destruct Hr as (_ & _ & [?|Hk'] & _); [congruence|]. by rewrite Hk'.
Qed.

(** ** Changing the password *)

Lemma cut_no_sep a : ¬ In "_"%char (String.list_ascii_of_string (fst (cut a))).
Proof.
  induction a as [|c a IH]; cbn; [tauto|]. case_bool_decide as Hc; cbn; [tauto|].
  destruct (cut a) as [x y]. cbn in *. naive_solver.
Qed.

(** ChangePassword on a locked store: nothing can be decrypted, the error of it
    is dropped, and the new key replaces the one that sealed the values; every
    value of the nested buckets is lost. *)
Theorem change_password_when_locked_loses_all s rnd0 rnd pw pw' b key m c :
  ready s rnd0 pw → encKey s = None → NewSecretKey rnd0 pw ≠ NewSecretKey rnd pw' →
  db_tree (db s) !! b = Some (Bucket m) → m !! key = Some c →
  ∃ s', ChangePassword rnd (Some pw) (Some pw') s = (s', Ret ()) ∧
    ∃ e, snd (GetFromBucket b key s') = Err e.
Proof.
  intros Hr Hl Hne Hb Hc. pose proof (stored_key_ready _ _ _ Hr) as Hsk.
  destruct Hr as (Henc & Hseal & _ & Ha).
  destruct (sealed_lookup _ _ _ _ Hseal Hb) as (Hb1 & Hb2 & Hm).
  destruct (Hm _ _ Hc) as (Hk1 & Hk2 & r & v & Hv & ->).
  unfold ChangePassword, mbind, action_bind, get_state, lift. rewrite Hsk, derive_right.
  assert (collect (range_order (ListBuckets s ++ [""%string])) s = None) as Hcol.
  { assert (∀ x, snd (GetAllFromBucket x s) = Err ErrStoreLocked) as Hg.
    { intros x. unfold GetAllFromBucket, locked. by rewrite Hl. }
    assert (""%string ∈ range_order (ListBuckets s ++ [""%string])) as Hin by (rewrite range_order_perm; set_solver).
    destruct (range_order (ListBuckets s ++ [""%string])); [by apply not_elem_of_nil in Hin|]. cbn. by rewrite Hg. }
  unfold updateEncryptedDb. rewrite Hcol. unfold on_db.
  destruct (db_Update (bucket_put "" encryptionKeyID (Marshal (NewSecretKey rnd pw'))) (db s)) as [d o] eqn:E.
  destruct (avail_db _ _ _ _ Ha E) as [_ Ho]. unfold bucket_put in Ho. rewrite Henc in Ho. cbn in Ho.
  destruct Ho as [-> Ht]. eexists. split; [done|]. unfold GetFromBucket, locked. cbn.
  rewrite check_data_key_good by done. unfold mbind, action_bind, get_state, lift, bucket_get; cbn.
  rewrite bool_decide_false by done. unfold nested. rewrite Ht, lookup_insert_ne, Hb by done. cbn. rewrite Hc.
  destruct (decrypt_other r _ _ v Hne) as [e He]. pose proof (encrypt_nonempty r (NewSecretKey rnd0 pw) v).
  destruct (Encrypt r (NewSecretKey rnd0 pw) v) eqn:Ee; [done|]. rewrite He. cbn. eauto.
Qed.

(** *** Where a value is written *)
Definition sep_free (a : string) : Prop := ¬ In "_"%char (String.list_ascii_of_string a).
Definition target (jk : string) : string * string :=
  match cut jk with (b, Some r) => (b, fst (cut r)) | (b, None) => (b, ""%string) end.

Lemma cut_joined b r : sep_free b → cut (b +:+ "_" +:+ r) = (b, Some r).
Proof.
  unfold sep_free. induction b as [|c b IH]; intros Hb; [done|]. cbn in Hb.
  change (String c b +:+ "_" +:+ r) with (String c (b +:+ "_" +:+ r)). cbn [cut].
  rewrite bool_decide_false by naive_solver. rewrite IH by tauto. done.
Qed.
Lemma cut_sep_free a : sep_free a → cut a = (a, None).
Proof.
  unfold sep_free. induction a as [|c a IH]; cbn; intros Ha; [done|].
  rewrite bool_decide_false by naive_solver. rewrite IH by tauto. done.
Qed.
Lemma target_joined b key : sep_free b → target (joined_key b key) = (b, fst (cut key)).
Proof. intros Hb. unfold target, joined_key. by rewrite cut_joined. Qed.
Lemma target_sep_free b key : sep_free b → sep_free key → target (joined_key b key) = (b, key).
Proof. intros Hb Hk. rewrite target_joined by done. by rewrite cut_sep_free. Qed.
Lemma target_no_sep jk b key : target jk = (b, key) → sep_free key.
Proof.
  unfold target. destruct (cut jk) as [x [r|]]; intros [= <- <-]; [apply cut_no_sep | intros []].
Qed.

(** The encrypted pairs of the root bucket or of a nested one. *)
Definition raw t (b : string) : gmap string bytes :=
  if bool_decide (b = ""%string) then root_values t
  else match t !! b with Some (Bucket m) => m | _ => ∅ end.
Definition has_bucket t (b : string) : Prop := ∃ m, t !! b = Some (Bucket m).
(** The two trees have the same buckets, and the same stored key. *)
Definition same_shape t t' : Prop :=
  (∀ b, has_bucket t b ↔ has_bucket t' b) ∧ t' !! ""%string = t !! ""%string ∧
  t' !! encryptionKeyID = t !! encryptionKeyID.

Lemma same_shape_trans t1 t2 t3 : same_shape t1 t2 → same_shape t2 t3 → same_shape t1 t3.
Proof.
  intros (H1 & E1 & E2) (H3 & E3 & E4). split_and!; [|congruence..]. intros b. by rewrite H1, H3.
Qed.

Lemma has_bucket_insert_value t key v b : (∀ m, t !! key ≠ Some (Bucket m)) →
  has_bucket (<[key := Value v]> t) b ↔ has_bucket t b.
Proof.
  intros Hk. unfold has_bucket. destruct (decide (b = key)) as [->|].
  - rewrite lookup_insert_eq. naive_solver.
  - by rewrite lookup_insert_ne.
Qed.
Lemma root_values_value t key v : key ≠ encryptionKeyID →
  root_values (<[key := Value v]> t) = <[key := v]> (root_values t).
Proof.
  intros Hk. unfold root_values. rewrite (omap_insert_Some _ _ _ _ v) by done. by rewrite delete_insert_ne.
Qed.
Lemma raw_value t b key v : key ≠ encryptionKeyID → (∀ m, t !! key ≠ Some (Bucket m)) →
  raw (<[key := Value v]> t) b = if bool_decide (b = ""%string) then <[key := v]> (raw t b) else raw t b.
Proof.
  intros Hk Hn. unfold raw. case_bool_decide; [by apply root_values_value|].
  destruct (decide (b = key)) as [->|]; [|by rewrite lookup_insert_ne].
  rewrite lookup_insert_eq. destruct (t !! key) as [[|m]|] eqn:E; [done| |done]. by destruct (Hn m).
Qed.
Lemma raw_bucket t b b' m : b ≠ ""%string → has_bucket t b →
  raw (<[b := Bucket m]> t) b' = if bool_decide (b' = b) then m else raw t b'.
Proof.
  intros Hb [m0 Hm0]. unfold raw. destruct (decide (b' = ""%string)) as [->|].
  - rewrite bool_decide_true, bool_decide_false by done. rewrite root_values_bucket. apply delete_id.
    unfold root_values. destruct (decide (b = encryptionKeyID)) as [->|]; [apply lookup_delete_eq|].
    by rewrite lookup_delete_ne, lookup_omap, Hm0.
  - rewrite bool_decide_false by done. case_bool_decide as Hd.
    + subst. by rewrite lookup_insert_eq.
    + by rewrite lookup_insert_ne.
Qed.

(** One goroutine of the re-encryption writes one pair. *)
Lemma rewrite_one_ok rnd k' jk v b key (d : DB) :
  db_available d → is_Some (snd (cut jk)) → target jk = (b, key) →
  (if bool_decide (b = ""%string) then key ≠ encryptionKeyID ∧ ∀ m, db_tree d !! key ≠ Some (Bucket m)
   else b ≠ encryptionKeyID ∧ has_bucket (db_tree d) b) →
  ∃ d', rewrite_one rnd k' (jk, v) d = (d', Ret ()) ∧ db_available d' ∧
    same_shape (db_tree d) (db_tree d') ∧
    ∀ b' key', raw (db_tree d') b' !! key' =
      if bool_decide (b' = b ∧ key' = key ∧ key ≠ ""%string) then Some (Encrypt rnd k' v)
      else raw (db_tree d) b' !! key'.
Proof.
  intros Ha Hcut HT Hb. unfold rewrite_one, split_key. cbn [fst snd].
  unfold target in HT. destruct (cut jk) as [b0 [r|]] eqn:Ec; [|by destruct Hcut]. injection HT as -> HT. rewrite HT.
  clear HT Ec Hcut jk r.
  set (f := λ t : tree, _). destruct (db_Update f d) as [d' o] eqn:E.
  destruct (avail_db _ _ _ _ Ha E) as [Ha' Ho].
  assert (∃ t', f (db_tree d) = Ret t' ∧ same_shape (db_tree d) t' ∧
    ∀ b' key', raw t' b' !! key' =
      if bool_decide (b' = b ∧ key' = key ∧ key ≠ ""%string) then Some (Encrypt rnd k' v)
      else raw (db_tree d) b' !! key') as (t' & Hf & HS & HR).
  2:{ rewrite Hf in Ho. destruct Ho as [-> <-]. exists d'. by split_and!. }
  clear E Ho d' Ha'. unfold f, bucket_put. destruct (decide (key = ""%string)) as [->|Hk].
  { exists (db_tree d). rewrite (bool_decide_true (""%string = ""%string)) by done. split_and!; try done.
    - case_bool_decide; [done|]. destruct Hb as [_ [m Hm]]. unfold nested. by rewrite Hm.
    - intros b' key'. rewrite bool_decide_false; [done|]. naive_solver. }
  rewrite (bool_decide_false (key = ""%string)) by done. case_bool_decide as Hb0.
  - subst b. destruct Hb as [Hke Hkb].
    exists (<[key := Value (Encrypt rnd k' v)]> (db_tree d)). split_and!.
    + destruct (db_tree d !! key) as [[|m]|] eqn:Ek; [done|by destruct (Hkb m)|done].
    + split_and!; [|by rewrite lookup_insert_ne..]. intros b. by rewrite has_bucket_insert_value.
    + intros b' key'. rewrite raw_value by done. case_bool_decide as Hb'.
      * subst. destruct (decide (key' = key)) as [->|].
        -- by rewrite lookup_insert_eq, bool_decide_true.
        -- rewrite lookup_insert_ne, bool_decide_false by naive_solver. done.
      * rewrite bool_decide_false by naive_solver. done.
  - destruct Hb as [Hbe [m Hm]]. unfold nested. rewrite Hm.
    exists (<[b := Bucket (<[key := Encrypt rnd k' v]> m)]> (db_tree d)). split_and!; [done| |].
    + split_and!; [|by rewrite lookup_insert_ne..]. intros b'. unfold has_bucket.
      destruct (decide (b' = b)) as [->|]; [rewrite lookup_insert_eq; naive_solver | by rewrite lookup_insert_ne].
    + intros b' key'. rewrite raw_bucket by (try done; by exists m). case_bool_decide as Hb'.
      * subst b'. unfold raw at 1. rewrite (bool_decide_false (b = ""%string)), Hm by done.
        destruct (decide (key' = key)) as [->|].
        -- by rewrite lookup_insert_eq, bool_decide_true.
        -- rewrite lookup_insert_ne, bool_decide_false by naive_solver. done.
      * rewrite bool_decide_false by naive_solver. done.
Qed.

Definition target_ok t (bk : string * string) : Prop :=
  if bool_decide (bk.1 = ""%string) then bk.2 ≠ encryptionKeyID ∧ ∀ m, t !! bk.2 ≠ Some (Bucket m)
  else bk.1 ≠ encryptionKeyID ∧ has_bucket t bk.1.

Lemma target_ok_shape t t' bk : same_shape t t' → target_ok t bk → target_ok t' bk.
Proof.
  intros (HB & _ & _). unfold target_ok. case_bool_decide; [|by rewrite HB].
  intros [? Hn]. split; [done|]. intros m Hm. destruct (proj2 (HB bk.2)) as [m' Hm']; [by exists m|].
  by destruct (Hn m').
Qed.

(** The goroutines write their pairs and nothing else. *)
Lemma rewrite_all_ok rnd k' l (d : DB) :
  db_available d →
  (∀ jk v, (jk, v) ∈ l → is_Some (snd (cut jk)) ∧ target_ok (db_tree d) (target jk)) →
  ∃ d', rewrite_all rnd k' l d = (d', Ret ()) ∧ db_available d' ∧ same_shape (db_tree d) (db_tree d') ∧
    (∀ b key, (∀ jk v, (jk, v) ∈ l → target jk ≠ (b, key)) →
       raw (db_tree d') b !! key = raw (db_tree d) b !! key) ∧
    (NoDup (target <$> l.*1) → ∀ jk v, (jk, v) ∈ l → (target jk).2 ≠ ""%string →
       raw (db_tree d') (target jk).1 !! (target jk).2 = Some (Encrypt rnd k' v)).
Proof.
  revert d. induction l as [|[jk v] l IH]; intros d Ha Hl; cbn.
  { exists d. split_and!; try done. intros _ jk v Hin. by apply not_elem_of_nil in Hin. }
  destruct (Hl jk v) as [Hc Ht]; [left|]. destruct (target jk) as [b key] eqn:Etg.
  destruct (rewrite_one_ok rnd k' jk v b key d Ha Hc Etg Ht) as (d1 & E1 & Ha1 & HS1 & HR1).
  destruct (IH d1 Ha1) as (d' & E2 & Ha2 & HS2 & HF2 & HH2).
  { intros jk' v' Hin. destruct (Hl jk' v') as [? ?]; [by right|]. split; [done|]. by eapply target_ok_shape. }
  exists d'. unfold mbind, action_bind. rewrite E1. split_and!; [done..|by eapply same_shape_trans| |].
  - intros b' key' Hn. rewrite HF2 by (intros; apply (Hn jk0 v0); by right).
    rewrite HR1, bool_decide_false; [done|]. intros (-> & -> & _). by apply (Hn jk v); [left|].
  - intros Hnd jk' v' Hin Hne. apply NoDup_cons in Hnd as [Hnin Hnd].
    apply elem_of_cons in Hin as [[= -> ->]|Hin]; [|by apply HH2].
    rewrite Etg in *. cbn in *. rewrite HF2.
    + rewrite HR1, bool_decide_true by done. done.
    + intros jk0 v0 Hin0 E0. apply Hnin. apply list_elem_of_fmap. exists jk0. split; [congruence|].
      apply list_elem_of_fmap. by exists (jk0, v0).
Qed.

Lemma ListBuckets_spec s b : b ∈ ListBuckets s ↔ has_bucket (db_tree (db s)) b.
Proof.
  unfold ListBuckets, has_bucket. rewrite list_elem_of_fmap. setoid_rewrite list_elem_of_filter. split.
  - intros ([b' e] & -> & He & Hin%elem_of_map_to_list). destruct e as [|m]; [done|]. by exists m.
  - intros [m Hm]. exists (b, Bucket m). by rewrite elem_of_map_to_list.
Qed.

Lemma GetAll_root k s : encKey s = Some k → sealed k (db_tree (db s)) →
  snd (GetAllFromBucket "" s) = Ret (plain k <$> raw (db_tree (db s)) "").
Proof.
  intros Hk [HR _]. unfold GetAllFromBucket, locked. rewrite Hk.
  unfold mbind, action_bind, get_state, lift, bucket_pairs. rewrite bool_decide_true by done. cbn [snd].
  rewrite decrypt_all_ok, list_to_map_to_list; [done|apply NoDup_fst_map_to_list|].
  intros key c Hc%elem_of_map_to_list Hne. destruct (HR key c) as (_ & _ & rnd & v & _ & ->); [|eauto].
  unfold root_values. by rewrite lookup_delete_ne.
Qed.

(** What is collected: every pair of the listed buckets, decrypted. *)
Lemma collect_ok k s bs : unlocked s → encKey s = Some k →
  (∀ b, b ∈ bs → b = ""%string ∨ has_bucket (db_tree (db s)) b) →
  ∃ l, collect bs s = Some l ∧
    ∀ jk v, (jk, v) ∈ l ↔ ∃ b key c, b ∈ bs ∧ jk = joined_key b key ∧
      raw (db_tree (db s)) b !! key = Some c ∧ v = plain k c.
Proof.
  intros Hu Hk. assert (sealed k (db_tree (db s))) as Hseal.
  { destruct (unlocked_key s Hu) as (k' & Hk' & ?). by simplify_eq. }
  induction bs as [|b bs IH]; intros Hbs; cbn.
  { exists []. split; [done|]. intros jk v. split; [by intros ?%not_elem_of_nil|].
    by intros (b & key & c & ?%not_elem_of_nil & _). }
  destruct IH as (l & Hl & Hin); [intros; apply Hbs; by right|].
  assert (snd (GetAllFromBucket b s) = Ret (plain k <$> raw (db_tree (db s)) b)) as ->.
  { destruct (decide (b = ""%string)) as [->|Hne]; [by apply GetAll_root|].
    destruct (Hbs b) as [?|[m Hm]]; [left|done|]. rewrite GetAllFromBucket_ok by done.
    rewrite (contents_lookup s k b Hk), Hm. unfold raw. by rewrite bool_decide_false, Hm. }
  rewrite Hl. eexists. split; [done|]. intros jk v. rewrite elem_of_app, Hin, list_elem_of_fmap. split.
  - intros [([key x] & [= -> ->] & (c & <- & Hc)%elem_of_map_to_list%lookup_fmap_Some)|(b' & key & c & ? & ?)].
    + exists b, key, c. split_and!; try done. left.
    + exists b', key, c. split; [by right | done].
  - intros (b' & key & c & [->|Hb']%elem_of_cons & -> & Hc & ->); [left|right; eauto 10].
    exists (key, plain k c). split; [done|]. apply elem_of_map_to_list. by rewrite lookup_fmap, Hc.
Qed.

(** A bucket of the store, the root bucket included. *)
Definition any_bucket t (b : string) : Prop := b = ""%string ∨ has_bucket t b.

Lemma raw_enckey t b v : ¬ has_bucket t encryptionKeyID → raw (<[encryptionKeyID := Value v]> t) b = raw t b.
Proof.
  intros Hn. unfold raw. case_bool_decide.
  - unfold root_values. rewrite (omap_insert_Some _ _ _ _ v) by done. by rewrite delete_insert_eq.
  - destruct (decide (b = encryptionKeyID)) as [->|]; [|by rewrite lookup_insert_ne].
    rewrite lookup_insert_eq. destruct (t !! encryptionKeyID) as [[|m]|] eqn:E; [done| |done].
    destruct Hn. by exists m.
Qed.

Lemma sealed_raw k t : sealed k t ↔
  t !! ""%string = None ∧ ¬ has_bucket t encryptionKeyID ∧ ∀ b, any_bucket t b → sealed_with k (raw t b).
Proof.
  unfold raw. split.
  - intros Hs. pose proof Hs as [HR HB]. split_and!.
    + destruct (t !! ""%string) eqn:E; [|done]. by destruct (HB _ _ E).
    + intros [m Hm]. by destruct (sealed_lookup _ _ _ _ Hs Hm) as (_ & [] & _).
    + intros b [->|[m Hm]]; [by rewrite bool_decide_true|].
      destruct (sealed_lookup _ _ _ _ Hs Hm) as (? & _ & ?). by rewrite bool_decide_false, Hm.
  - intros (H0 & He & Hs). split; [specialize (Hs ""%string); rewrite bool_decide_true in Hs by done; apply Hs; by left|].
    intros b e Hb. assert (b ≠ ""%string) as Hne by congruence. split; [done|]. intros m ->. split.
    + intros ->. apply He. by exists m.
    + specialize (Hs b). rewrite bool_decide_false, Hb in Hs by done. apply Hs. right. by exists m.
Qed.

Lemma secrets_raw k t b : t !! ""%string = None →
  secrets k t !! b = match t !! b with Some (Bucket _) => Some (plain k <$> raw t b) | _ => None end.
Proof.
  intros H0. rewrite secrets_lookup. destruct (t !! b) as [[|m]|] eqn:E; [done| |done].
  unfold raw. rewrite bool_decide_false, E by congruence. done.
Qed.

Lemma root_pair_value t key c : raw t "" !! key = Some c → key ≠ encryptionKeyID ∧ t !! key = Some (Value c).
Proof.
  unfold raw, root_values. rewrite bool_decide_true by done. intros [Hne Ho]%lookup_delete_Some.
  rewrite lookup_omap in Ho. destruct (t !! key) as [[v|]|]; cbn in Ho; simplify_eq. done.
Qed.

(** What ChangePassword does to an unlocked store whose buckets have no "_" in
    their names: it writes every value, encrypted with the new key, under the
    part of its key before the first "_". *)
Lemma ChangePassword_run s rnd0 pw rnd pw' :
  let k := NewSecretKey rnd0 pw in let k' := NewSecretKey rnd pw' in let t := db_tree (db s) in
  ready s rnd0 pw → encKey s = Some k → (∀ b, has_bucket t b → sep_free b) →
  (∀ key, is_Some (raw t "" !! key) → target_ok t (""%string, fst (cut key))) →
  ∃ s', ChangePassword rnd (Some pw) (Some pw') s = (s', Ret ()) ∧ encKey s' = Some k' ∧
    db_available (db s') ∧ db_tree (db s') !! encryptionKeyID = Some (Value (Marshal k')) ∧
    (∀ b, has_bucket t b ↔ has_bucket (db_tree (db s')) b) ∧
    db_tree (db s') !! ""%string = t !! ""%string ∧
    (∀ b key, (∀ b' key', any_bucket t b' → is_Some (raw t b' !! key') → (b', fst (cut key')) ≠ (b, key)) →
       raw (db_tree (db s')) b !! key = raw t b !! key) ∧
    ((∀ b key, any_bucket t b → is_Some (raw t b !! key) → sep_free key) →
     ∀ b key c, any_bucket t b → raw t b !! key = Some c → key ≠ ""%string →
       raw (db_tree (db s')) b !! key = Some (Encrypt rnd k' (plain k c))).
Proof.
  intros k k' t Hr Hk Hsep Hroot. pose proof (stored_key_ready _ _ _ Hr) as Hsk.
  assert (unlocked s) as Hu by (by exists rnd0, pw).
  destruct Hr as (Henc & Hseal & _ & Ha). fold t in Henc, Hseal, Hsk.
  destruct (proj1 (sealed_raw _ _) Hseal) as (H0 & He & _).
  assert (∀ b, any_bucket t b → sep_free b) as Hfree by (intros b [->|?]; [intros []|by apply Hsep]).
  destruct (collect_ok k s (range_order (ListBuckets s ++ [""%string])) Hu Hk) as (l & Hcol & Hin).
  { intros b. rewrite range_order_perm. intros [Hb|Hb]%elem_of_app; [right; by apply ListBuckets_spec|left; by apply list_elem_of_singleton in Hb]. }
  fold t in Hin. assert (∀ b, b ∈ range_order (ListBuckets s ++ [""%string]) ↔ any_bucket t b) as Hany.
  { intros b. rewrite range_order_perm, elem_of_app, ListBuckets_spec, list_elem_of_singleton. unfold any_bucket. tauto. }
  set (pairs := range_items (list_to_map (M := gmap string bytes) l)).
  assert (∀ jk v, (jk, v) ∈ pairs → (jk, v) ∈ l) as Hsub.
  { intros jk v. unfold pairs, range_items. rewrite range_order_perm, elem_of_map_to_list.
    apply elem_of_list_to_map_2. }
  destruct (rewrite_all_ok rnd k' pairs (db s) Ha) as (d & E & Ha' & (HSb & HS0 & HSe) & HF & HH).
  { intros jk v (b & key & c & Hb%Hany & -> & Hc & ->)%Hsub%Hin. rewrite target_joined by auto.
    split; [unfold joined_key; rewrite cut_joined by auto; by eexists|].
    destruct (decide (b = ""%string)) as [->|Hne]; [apply Hroot; eauto|].
    unfold target_ok; cbn. rewrite bool_decide_false by done. destruct Hb as [?|Hb]; [done|]. split; [|done].
    by intros ->. }
  fold t in HSb, HS0, HSe, HF.
  unfold ChangePassword, mbind, action_bind, get_state, lift. fold t. rewrite Hsk, derive_right.
  unfold updateEncryptedDb. rewrite Hcol. unfold on_db. fold pairs. fold k'. rewrite E. cbn [db encKey].
  destruct (db_Update (bucket_put "" encryptionKeyID (Marshal k')) d) as [d' o] eqn:E'.
  destruct (avail_db _ _ _ _ Ha' E') as [Ha'' Ho]. unfold bucket_put in Ho.
  rewrite HSe, Henc in Ho. cbn in Ho. destruct Ho as [-> Ht'].
  assert (¬ has_bucket (db_tree d) encryptionKeyID) as He' by (by rewrite <- HSb).
  eexists. split; [done|]. cbn. rewrite Ht'. split_and!; try done.
  - by rewrite lookup_insert_eq.
  - intros b. rewrite HSb, has_bucket_insert_value; [done|]. intros m Hm. apply He'. by exists m.
  - by rewrite lookup_insert_ne, HS0.
  - intros b key Hn. rewrite raw_enckey by done. apply HF. intros jk v (b' & key' & c & Hb%Hany & -> & Hc & ->)%Hsub%Hin.
    rewrite target_joined by auto. apply Hn; [done | eauto].
  - intros Hclean b key c Hb Hc Hne. rewrite raw_enckey by done.
    assert (∀ b' key', any_bucket t b' → is_Some (raw t b' !! key') → target (joined_key b' key') = (b', key')) as Htg.
    { intros b' key' Hb' Hk'. apply target_sep_free; [by auto | by eapply Hclean]. }
    assert ((joined_key b key, plain k c) ∈ pairs) as Hp.
    { unfold pairs, range_items. rewrite range_order_perm, elem_of_map_to_list.
      apply elem_of_list_to_map_1'; [|apply Hin; exists b, key, c; by rewrite Hany].
      intros v' (b' & key' & c' & Hb'%Hany & Hj & Hc' & ->)%Hin.
      assert ((b, key) = (b', key')) as [= <- <-].
      { rewrite <- (Htg b key), <- (Htg b' key') by eauto. by rewrite Hj. }
      congruence. }
    assert (NoDup (target <$> pairs.*1)) as Hnd.
    { apply NoDup_fmap_2_strong.
      - intros jk1 jk2 ([? v1] & -> & H1)%list_elem_of_fmap ([? v2] & -> & H2)%list_elem_of_fmap. cbn.
        apply Hsub, Hin in H1 as (b1 & key1 & c1 & Hb1%Hany & -> & Hc1 & _).
        apply Hsub, Hin in H2 as (b2 & key2 & c2 & Hb2%Hany & -> & Hc2 & _).
        rewrite !Htg by eauto. congruence.
      - unfold pairs, range_items. rewrite range_order_perm. apply NoDup_fst_map_to_list. }
    pose proof (HH Hnd _ _ Hp) as Hh. rewrite Htg in Hh by eauto. by apply Hh.
Qed.

(** No name of a bucket and no key of the store has a "_". *)
Definition clean_names t : Prop :=
  (∀ b, has_bucket t b → sep_free b) ∧ ∀ b key, any_bucket t b → is_Some (raw t b !! key) → sep_free key.

Lemma clean_root_targets t : clean_names t →
  ∀ key, is_Some (raw t "" !! key) → target_ok t (""%string, fst (cut key)).
Proof.
  intros [_ Hk] key [c Hc]. rewrite cut_sep_free by (eapply Hk; [by left | eauto]).
  destruct (root_pair_value _ _ _ Hc) as [Hne Hv]. unfold target_ok; cbn. rewrite bool_decide_true by done.
  split; [done|]. intros m Hm. congruence.
Qed.

Lemma same_contents t t' k k' : t !! ""%string = None → t' !! ""%string = None →
  (∀ b, has_bucket t b ↔ has_bucket t' b) →
  (∀ b, has_bucket t b → plain k' <$> raw t' b = plain k <$> raw t b) → secrets k' t' = secrets k t.
Proof.
  intros H0 H0' HB HR. apply map_eq. intros b. rewrite !secrets_raw by done.
  specialize (HB b). specialize (HR b). unfold has_bucket in *.
  destruct (t !! b) as [[|m]|], (t' !! b) as [[|m']|]; try done;
    try (destruct (proj1 HB); [by eexists | done]); try (destruct (proj2 HB); [by eexists | done]).
  f_equal. apply HR. by eexists.
Qed.

Lemma ChangePassword_ok s rnd0 pw rnd pw' :
  ready s rnd0 pw → encKey s = Some (NewSecretKey rnd0 pw) → clean_names (db_tree (db s)) →
  ∃ s', ChangePassword rnd (Some pw) (Some pw') s = (s', Ret ()) ∧ ready s' rnd pw' ∧
    encKey s' = Some (NewSecretKey rnd pw') ∧ contents s' = contents s ∧ (no_root s → no_root s').
Proof.
  intros Hr Hk Hclean.
  pose proof Hr as (_ & Hseal & _ & _). pose proof (proj1 (sealed_raw _ _) Hseal) as (H0 & He & Hsw).
  destruct (ChangePassword_run s rnd0 pw rnd pw' Hr Hk (proj1 Hclean) (clean_root_targets _ Hclean))
    as (s' & E & Hk' & Ha & Henc & HB & H0' & HF & HH).
  set (t := db_tree (db s)) in *. set (t' := db_tree (db s')) in *. set (k := NewSecretKey rnd0 pw) in *.
  assert (∀ b, any_bucket t b → raw t' b = (λ c, Encrypt rnd (NewSecretKey rnd pw') (plain k c)) <$> raw t b) as Hraw.
  { intros b Hb. apply map_eq. intros key. rewrite lookup_fmap. destruct (raw t b !! key) as [c|] eqn:Ec; cbn.
    - apply HH; [by apply Hclean|done..|]. by destruct (Hsw b Hb _ _ Ec).
    - rewrite HF; [done|]. intros b' key' Hb' Hkey'. rewrite cut_sep_free by (by eapply Hclean).
      intros [= -> ->]. rewrite Ec in Hkey'. by destruct Hkey'. }
  exists s'. split_and!; [done| |done| |].
  - split_and!; [done| |by right|done]. apply sealed_raw. fold t'. split_and!; [by rewrite H0' | by rewrite <- HB |].
    intros b Hb. rewrite Hraw by (destruct Hb as [->|Hb]; [by left | right; by apply HB]).
    intros key c (c0 & <- & Hc)%lookup_fmap_Some.
    destruct (Hsw b) with (key := key) (c := c0) as (? & ? & r & v & Hv & ->);
      [destruct Hb as [->|Hb]; [by left | right; by apply HB] | done |].
    rewrite plain_encrypt. eauto 10.
  - unfold contents. rewrite Hk, Hk'. fold t t'. apply same_contents; [done | by rewrite H0' | done |].
    intros b Hb. rewrite Hraw by (by right). rewrite <- map_fmap_compose. apply map_fmap_ext.
    intros key c Hc. cbn. apply plain_encrypt.
  - unfold no_root. fold t t'. intros Hn. specialize (Hraw ""%string (or_introl eq_refl)).
    unfold raw in Hraw. rewrite !bool_decide_true, Hn, fmap_empty in Hraw by done. done.
Qed.

(** changing the password keeps everything: in a store that is unlocked and
    uses no "_" in the names of its buckets and keys, ChangePassword with the right
    old password succeeds, the store is then set up with the new password and the
    values are the ones it had before; a wrong old password, or a missing one, is
    refused and nothing changes. *)
Theorem change_password_correct s rnd0 pw rnd pw' :
  ready s rnd0 pw → encKey s = Some (NewSecretKey rnd0 pw) → clean_names (db_tree (db s)) →
  (∃ s', ChangePassword rnd (Some pw) (Some pw') s = (s', Ret ()) ∧ ready s' rnd pw' ∧
     encKey s' = Some (NewSecretKey rnd pw') ∧ contents s' = contents s) ∧
  (∀ old, old ≠ pw → ∃ e, ChangePassword rnd (Some old) (Some pw') s = (s, Err e)) ∧
  ChangePassword rnd None (Some pw') s = (s, Err ErrPasswordRequired) ∧
  ChangePassword rnd (Some pw) None s = (s, Err ErrPasswordRequired).
Proof.
  intros Hr Hk Hclean. split_and!; [|intros old Hold|done..].
  - destruct (ChangePassword_ok s rnd0 pw rnd pw' Hr Hk Hclean) as (s' & ? & ? & ? & ? & _). by exists s'.
  - destruct (derive_wrong rnd0 pw old Hold) as [e He]. exists e.
    unfold ChangePassword, mbind, action_bind, get_state, lift. by rewrite (stored_key_ready _ _ _ Hr), He.
Qed.

(** Changing the password loses the values whose key has a "_", as the topics
    TRADE_SETTLED and ACCOUNT_LOW_BALANCE: the joined key is split at every "_"
    and the value is written under the first piece of its key. *)
Theorem change_password_loses_joined_keys s rnd0 pw rnd pw' b key :
  ready s rnd0 pw → encKey s = Some (NewSecretKey rnd0 pw) → NewSecretKey rnd0 pw ≠ NewSecretKey rnd pw' →
  (∀ b, has_bucket (db_tree (db s)) b → sep_free b) → raw (db_tree (db s)) "" = ∅ →
  has_bucket (db_tree (db s)) b → is_Some (raw (db_tree (db s)) b !! key) → ¬ sep_free key →
  ∃ s', ChangePassword rnd (Some pw) (Some pw') s = (s', Ret ()) ∧
    ∃ e, snd (GetFromBucket b key s') = Err e.
Proof.
  intros Hr Hk Hne Hsep Hroot Hb [c Hc] Hkey. pose proof Hr as (_ & Hseal & _ & _).
  pose proof (proj1 (sealed_raw _ _) Hseal) as (H0 & _ & Hsw).
  destruct (ChangePassword_run s rnd0 pw rnd pw' Hr Hk Hsep) as (s' & E & Hk' & _ & _ & HB & H0' & HF & _).
  { intros key'. rewrite Hroot, lookup_empty. by intros []. }
  exists s'. split; [done|]. destruct (Hsw b) with (key := key) (c := c) as (Hk1 & Hk2 & r & v & _ & ->); [by right|done|].
  assert (raw (db_tree (db s')) b !! key = Some (Encrypt r (NewSecretKey rnd0 pw) v)) as Hc'.
  { rewrite HF; [done|]. intros b' key' _ _ [= _ <-]. by apply Hkey, cut_no_sep. }
  destruct (proj1 (HB b) Hb) as [m Hm]. assert (b ≠ ""%string) as Hb0 by (intros ->; congruence).
  unfold GetFromBucket, locked. rewrite Hk', check_data_key_good by done.
  unfold mbind, action_bind, get_state, lift, bucket_get; cbn. unfold raw in Hc'.
  rewrite bool_decide_false in Hc' |- * by done. unfold nested. rewrite Hm in *. cbn. rewrite Hc'.
  destruct (decrypt_other r _ _ v Hne) as [e He]. pose proof (encrypt_nonempty r (NewSecretKey rnd0 pw) v).
  destruct (Encrypt r (NewSecretKey rnd0 pw) v) eqn:Ee; [done|]. rewrite He. cbn. eauto.
Qed.
End store_theorems.

(** * A database and a cipher *)
Module SecureStoreExamples.

#[export] Instance tree_bolt : Bolt tree := {
  db_tree t := t;
  db_Update f t := match f t with Ret t' => (t', Ret ()) | Err e => (t, Err e) | Panic p => (t, Panic p) end;
}.
#[export] Instance tree_bolt_laws : BoltLaws tree.
Proof.
  refine {| db_available _ := True |}. intros f s s' o. cbn. destruct (f s); intros [= <- <-]; tauto.
Defined.

(** A cipher that writes its key in front of the value. *)
Abbreviation key := (Z * bytes)%type.
Definition header (k : key) : bytes := Z.of_nat (length k.2) :: k.1 :: k.2.
Definition open_value (k : key) (c : bytes) : outcome error bytes :=
  if bool_decide (take (length (header k)) c = header k) then Ret (drop (length (header k)) c)
  else Err (Errorf "decryption failed").
#[export] Instance toy_snacl : Snacl key := {
  NewSecretKey rnd pw := (rnd, pw);
  Marshal k := k.1 :: k.2;
  Unmarshal_DeriveKey c pw :=
    match c with
    | r :: p => if bool_decide (p = pw) then Ret (r, p) else Err (Errorf "invalid password")
    | [] => Err (Errorf "invalid key")
    end;
  Encrypt _ k v := header k ++ v;
  Decrypt := open_value;
}.
Lemma header_inj (k k' : key) v : take (length (header k')) (header k ++ v) = header k' → k = k'.
Proof.
  destruct k as [r p], k' as [r' p']. unfold header. cbn. intros [= Hl -> Hp].
  assert (length p = length p') as Hlen by lia. rewrite <- Hlen, take_app_length in Hp. by subst.
Qed.
#[export] Instance toy_snacl_laws : SnaclLaws key.
Proof.
  split; cbn -[header open_value app]; try done.
  - intros rnd pw. by rewrite bool_decide_true.
  - intros rnd pw pw' Hne. rewrite bool_decide_false by congruence. eauto.
  - intros _ k v. unfold open_value. by rewrite take_app_length, bool_decide_true, drop_app_length.
  - intros _ k k' v Hne. unfold open_value. rewrite bool_decide_false; [eauto|].
    intros E%header_inj. done.
  - intros k c p. unfold open_value. by case_bool_decide.
Qed.

(** A new store, unlocked with the password [7; 7], with one bucket. *)
Definition fresh : boltSecureStorage tree key := {| db := ∅; encKey := None |}.
Definition set_up : boltSecureStorage tree key :=
  fst ((_ ← CreateUnlock 1 (Some [7; 7]%Z); _ ← CreateBucket "subscriptions"; AddToBucket 2 "subscriptions" "id1" [1; 2]%Z) fresh).

Example set_up_runs : snd (GetFromBucket "subscriptions" "id1" set_up) = Ret (Some [1; 2]%Z).
Proof. vm_compute. reflexivity. Qed.

Lemma set_up_sealed : sealed (1, [7; 7])%Z (db_tree (db set_up)).
Proof.
  assert (db_tree (db set_up) = <["subscriptions" := Bucket {["id1" := header (1, [7; 7])%Z ++ [1; 2]%Z]}]>
    {[encryptionKeyID := Value [1; 7; 7]%Z]}) as -> by (vm_compute; reflexivity).
  apply sealed_bucket; [|done|done|].
  - split.
    + intros k c. assert (root_values {[encryptionKeyID := Value [1; 7; 7]%Z]} = ∅) as -> by (vm_compute; reflexivity). done.
    + intros b e [<- <-]%lookup_singleton_Some. done.
  - intros k c [<- <-]%lookup_singleton_Some. split_and!; [done..|]. by exists 0%Z, [1; 2]%Z.
Qed.
Lemma set_up_ready : ready set_up 1 [7; 7]%Z ∧ encKey set_up = Some (1, [7; 7])%Z.
Proof.
  split; [|reflexivity]. split_and!; [vm_compute; reflexivity | apply set_up_sealed | by right | done].
Qed.
Lemma set_up_unlocked : unlocked set_up.
Proof. exists 1%Z, [7; 7]%Z. apply set_up_ready. Qed.
Lemma set_up_clean : clean_names (db_tree (db set_up)).
Proof.
  assert (∀ b, has_bucket (db_tree (db set_up)) b → b = "subscriptions") as Hb.
  { intros b [m Hm]. assert (b ∈ ListBuckets set_up) as Hin by (apply ListBuckets_spec; by exists m).
    assert (ListBuckets set_up = ["subscriptions"]) as E by (vm_compute; reflexivity).
    rewrite E in Hin. by apply list_elem_of_singleton in Hin. }
  split.
  - intros b ->%Hb. intros Hin. cbn in Hin. intuition discriminate.
  - intros b k [->| ->%Hb] [c Hc].
    + assert (raw (db_tree (db set_up)) "" = ∅) as E by (vm_compute; reflexivity). by rewrite E in Hc.
    + assert (raw (db_tree (db set_up)) "subscriptions" = {["id1" := header (1, [7; 7])%Z ++ [1; 2]%Z]}) as E
        by (vm_compute; reflexivity).
      rewrite E in Hc. apply lookup_singleton_Some in Hc as [<- _]. intros Hin. cbn in Hin. intuition discriminate.
Qed.


Lemma password_protects_witness :
  unlocked set_up ∧ ready set_up 1 [7; 7]%Z ∧
  CreateUnlock 5 (Some [8%Z]) (Lock set_up) = (Lock set_up, Err ErrInvalidPassword) ∧
  ∃ s', CreateUnlock 5 (Some [7; 7]%Z) (Lock set_up) = (s', Ret ()) ∧ unlocked s' ∧ contents s' = contents set_up.
Proof.
  destruct set_up_ready as [Hr _]. split; [exact set_up_unlocked|]. split; [exact Hr|].
  destruct (password_protects set_up 1 5 [7; 7]%Z set_up_unlocked Hr) as (Hw & _ & Hu).
  split; [apply Hw; discriminate | exact Hu].
Defined.

Lemma change_password_correct_witness :
  clean_names (db_tree (db set_up)) ∧
  ∃ s', ChangePassword 4 (Some [7; 7]%Z) (Some [8%Z]) set_up = (s', Ret ()) ∧ ready s' 4 [8%Z] ∧
    contents s' = contents set_up.
Proof.
  destruct set_up_ready as [Hr Hk]. split; [exact set_up_clean|].
  destruct (change_password_correct set_up 1 [7; 7]%Z 4 [8%Z] Hr Hk set_up_clean) as ((s' & E & Hr' & _ & C) & _).
  exists s'. split; [exact E|]. split; [exact Hr' | exact C].
Defined.

(** The subscriptions of a topic are gone after a change of the password. *)
Definition with_topic : boltSecureStorage tree key :=
  fst ((_ ← CreateUnlock 1 (Some [7; 7]%Z); _ ← CreateBucket "subscriptionsbyevent";
        AddToBucket 2 "subscriptionsbyevent" "TRADE_SETTLED" [1; 2]%Z) fresh).
Example topic_lost :
  snd (GetFromBucket "subscriptionsbyevent" "TRADE_SETTLED" with_topic) = Ret (Some [1; 2]%Z) ∧
  snd (GetFromBucket "subscriptionsbyevent" "TRADE_SETTLED"
    (fst (ChangePassword 4 (Some [7; 7]%Z) (Some [8%Z]) with_topic))) = Err (Errorf "decryption failed").
Proof. split; vm_compute; reflexivity. Qed.
End SecureStoreExamples.
