(* ===== verification/Pubsub.v ===== *)
(** internal/infrastructure/pubsub: the webhooks of the daemon, kept in the
    encrypted store and notified with HTTP requests.

    The store is the interface [SecureStorage] of pkg/securestore/store.go with
    its laws, which the store of SecureStore.v satisfies.  encoding/json of a
    subscription is the class [SubscriptionJSON]; the HTTP client and the circuit
    breaker (sony/gobreaker) are the class [Network].  The goroutines of Publish
    run one after the other in any order ([MapOrder]). *)

From Stdlib Require Import ZArith Lia Ascii.
From stdpp Require Import base tactics strings list gmap sorting.
From S2P Require Import Prelude Errors Decimal Market Trade Repos SecureStore.
Local Open Scope nat_scope.

(** * The secure storage *)

(** securestore.SecureStorage; the caller's passwords are never nil. *)
Class SecureStorage (S : Type) := {
  ss_IsLocked : S → bool;
  ss_Lock : S → S;
  ss_CreateUnlock : bytes → action S error ();
  ss_ChangePassword : bytes → bytes → action S error ();
  ss_CreateBucket : string → action S error ();
  ss_AddToBucket : string → string → bytes → action S error ();
  ss_GetFromBucket : string → string → action S error (option bytes);
  ss_GetAllFromBucket : string → action S error (gmap string bytes);
  ss_ListBuckets : action S error (list string);
  ss_RemoveFromBucket : string → string → action S error ();
}.

Abbreviation data := (gmap string (gmap string bytes)).
(** No "_" in the names of the buckets and in the keys. *)
Definition clean_data (c : data) : Prop :=
  ∀ b m, c !! b = Some m → sep_free b ∧ ∀ key, is_Some (m !! key) → sep_free key.

(** [holds s pw c]: the store, locked or not, was set up with the password [pw]
    and keeps [c]; [blank s]: it was never set up. *)
Class SecureStorageLaws (S : Type) `{SecureStorage S} := {
  holds : S → bytes → data → Prop;
  blank : S → Prop;
  lock_law s pw c : holds s pw c → holds (ss_Lock s) pw c ∧ ss_IsLocked (ss_Lock s) = true;
  create_law s pw : blank s →
    ∃ s', ss_CreateUnlock pw s = (s', Ret ()) ∧ holds s' pw ∅ ∧ ss_IsLocked s' = false;
  unlock_law s pw c : holds s pw c →
    ∃ s', ss_CreateUnlock pw s = (s', Ret ()) ∧ holds s' pw c ∧ ss_IsLocked s' = false;
  unlock_wrong_law s pw c pw' : holds s pw c → ss_IsLocked s = true → pw' ≠ pw →
    ∃ e, ss_CreateUnlock pw' s = (s, Err e);
  change_law s pw c pw' : holds s pw c → ss_IsLocked s = false → clean_data c →
    ∃ s', ss_ChangePassword pw pw' s = (s', Ret ()) ∧ holds s' pw' c ∧ ss_IsLocked s' = false;
  bucket_law s pw c b : holds s pw c → ss_IsLocked s = false → good_key b →
    ∃ s', ss_CreateBucket b s = (s', Ret ()) ∧ ss_IsLocked s' = false ∧
      holds s' pw (<[b := default ∅ (c !! b)]> c);
  list_law s pw c : holds s pw c →
    ∃ l, ss_ListBuckets s = (s, Ret l) ∧ ∀ b, b ∈ l ↔ is_Some (c !! b);
  add_law s pw c b m key v : holds s pw c → ss_IsLocked s = false → c !! b = Some m →
    good_key key → v ≠ [] →
    ∃ s', ss_AddToBucket b key v s = (s', Ret ()) ∧ ss_IsLocked s' = false ∧
      holds s' pw (<[b := <[key := v]> m]> c);
  get_law s pw c b m key : holds s pw c → ss_IsLocked s = false → c !! b = Some m → good_key key →
    ss_GetFromBucket b key s = (s, Ret (m !! key));
  get_all_law s pw c b m : holds s pw c → ss_IsLocked s = false → c !! b = Some m →
    ss_GetAllFromBucket b s = (s, Ret m);
  remove_law s pw c b m key : holds s pw c → ss_IsLocked s = false → c !! b = Some m → good_key key →
    ∃ s', ss_RemoveFromBucket b key s = (s', Ret ()) ∧ ss_IsLocked s' = false ∧
      holds s' pw (<[b := delete key m]> c);
  locked_law s b key : ss_IsLocked s = true →
    (∃ e, ss_GetFromBucket b key s = (s, Err e)) ∧ ∃ e, ss_GetAllFromBucket b s = (s, Err e);
}.

(** ** The bolt store is one

    [nonce] is the randomness of the next key or encryption; it may depend on the
    state in any way. *)
Section bolt.
Context {DB : Type} `{!Bolt DB} `{!BoltLaws DB} {K : Type} `{!Snacl K} `{!SnaclLaws K} `{!EqDecision K} `{MapOrder}.
Variable nonce : boltSecureStorage DB K → Z.

Definition bolt_storage : SecureStorage (boltSecureStorage DB K) := {|
  ss_IsLocked := IsLocked;
  ss_Lock := Lock;
  ss_CreateUnlock pw s := CreateUnlock (nonce s) (Some pw) s;
  ss_ChangePassword old new s := ChangePassword (nonce s) (Some old) (Some new) s;
  ss_CreateBucket := CreateBucket;
  ss_AddToBucket b key v s := AddToBucket (nonce s) b key v s;
  ss_GetFromBucket := GetFromBucket;
  ss_GetAllFromBucket := GetAllFromBucket;
  ss_ListBuckets s := (s, Ret (ListBuckets s));
  ss_RemoveFromBucket := RemoveFromBucket;
|}.

Definition bolt_holds (s : boltSecureStorage DB K) (pw : bytes) (c : data) : Prop :=
  ∃ rnd, ready s rnd pw ∧ no_root s ∧ secrets (NewSecretKey rnd pw) (db_tree (db s)) = c.
Definition bolt_blank (s : boltSecureStorage DB K) : Prop :=
  db_tree (db s) = ∅ ∧ encKey s = None ∧ db_available (db s).

Lemma bolt_unlocked s pw c : bolt_holds s pw c → IsLocked s = false →
  unlocked s ∧ contents s = c ∧ ∃ rnd, ready s rnd pw ∧ no_root s ∧ encKey s = Some (NewSecretKey rnd pw).
Proof.
  intros (rnd & Hr & Hn & <-) Hl%bool_decide_eq_false. pose proof Hr as (_ & _ & [?|Hk] & _); [done|].
  split; [by exists rnd, pw|]. unfold contents. rewrite Hk. eauto.
Qed.
Lemma bolt_stays s s' pw c c' : bolt_holds s pw c → IsLocked s = false → stays s s' → contents s' = c' →
  IsLocked s' = false ∧ bolt_holds s' pw c'.
Proof.
  intros Hh Hl ((rnd' & pw' & Hr' & Hk') & Hkeep & Hn') <-.
  destruct (bolt_unlocked _ _ _ Hh Hl) as (_ & _ & rnd & Hr & Hn & Hk).
  split; [unfold IsLocked; by rewrite bool_decide_false by congruence|].
  assert (NewSecretKey rnd' pw' = NewSecretKey rnd pw) as E by congruence.
  exists rnd. unfold ready, contents in *. rewrite E in Hr', Hk'. rewrite Hk'. split_and!; try tauto.
Qed.
Lemma bolt_has_bucket s pw c b : bolt_holds s pw c → has_bucket (db_tree (db s)) b ↔ is_Some (c !! b).
Proof.
  intros (rnd & Hr & Hn & <-). rewrite secrets_lookup. unfold has_bucket.
  destruct (db_tree (db s) !! b) as [[v|m]|]; split; intros [x Hx]; naive_solver.
Qed.
Lemma root_not_bucket s m : unlocked s → contents s !! ""%string = Some m → False.
Proof.
  intros Hu. destruct (unlocked_key s Hu) as (k & Hk & Hseal). unfold contents. rewrite Hk, secrets_lookup.
  destruct (db_tree (db s) !! _) as [[|m0]|] eqn:E; [done| |done]. by destruct (sealed_lookup _ _ _ _ Hseal E).
Qed.
Lemma bolt_clean s pw c : bolt_holds s pw c → clean_data c → clean_names (db_tree (db s)).
Proof.
  intros Hh Hc. pose proof Hh as (rnd & _ & Hn & <-). split.
  - intros b Hb. apply (bolt_has_bucket s pw _ b Hh) in Hb as [m Hm]. by destruct (Hc b m Hm).
  - intros b key Hb. destruct (decide (b = ""%string)) as [->|Hne].
    { unfold raw. rewrite bool_decide_true by done. rewrite Hn, lookup_empty. by intros []. }
    destruct Hb as [?|[m Hm]]; [done|]. unfold raw. rewrite bool_decide_false, Hm by done. intros [v Hv].
    destruct (Hc b (plain (NewSecretKey rnd pw) <$> m)) as [_ Hk]; [by rewrite secrets_lookup, Hm|].
    apply Hk. rewrite lookup_fmap, Hv. by eexists.
Qed.
Lemma no_root_value s pw c b v : bolt_holds s pw c → good_key b → db_tree (db s) !! b ≠ Some (Value v).
Proof.
  intros (_ & _ & Hn & _) [_ Hb] Hv. unfold no_root, root_values in Hn.
  apply (f_equal (lookup b)) in Hn. rewrite lookup_delete_ne, lookup_omap, Hv in Hn by done. done.
Qed.

Lemma bolt_create s pw : bolt_blank s →
  ∃ s', CreateUnlock (nonce s) (Some pw) s = (s', Ret ()) ∧ bolt_holds s' pw ∅ ∧ IsLocked s' = false.
Proof.
  intros (Ht & Hl & Ha). unfold CreateUnlock, IsLocked, stored_key. rewrite bool_decide_true, Ht by done. cbn [negb].
  rewrite lookup_empty. unfold mbind, action_bind, on_db.
  destruct (db_Update (bucket_put "" encryptionKeyID (Marshal (NewSecretKey (nonce s) pw))) (db s)) as [d o] eqn:E.
  destruct (avail_db _ _ _ _ Ha E) as [Ha' Ho]. rewrite Ht in Ho. cbn in Ho. destruct Ho as [-> Ht'].
  assert (root_values (db_tree d) = ∅) as Hroot.
  { rewrite Ht'. apply map_eq. intros key. unfold root_values. rewrite lookup_empty.
    destruct (decide (key = encryptionKeyID)) as [->|]; [by rewrite lookup_delete_eq|].
    by rewrite lookup_delete_ne, lookup_omap, lookup_insert_ne. }
  eexists. split; [done|]. split; [|unfold IsLocked; by rewrite bool_decide_false].
  exists (nonce s). split; [|split].
  - split_and!; cbn; [by rewrite Ht', lookup_insert_eq| |by right|done]. split.
    + rewrite Hroot. intros key c Hc. by rewrite lookup_empty in Hc.
    + rewrite Ht'. intros b e [[<- <-]|[_ Hb]]%lookup_insert_Some; [done|]. by rewrite lookup_empty in Hb.
  - done.
  - cbn. apply map_eq. intros b. rewrite secrets_lookup, Ht', lookup_empty.
    destruct (decide (b = encryptionKeyID)) as [->|]; [by rewrite lookup_insert_eq|].
    by rewrite lookup_insert_ne, lookup_empty.
Qed.

Lemma bolt_unlock s pw c : bolt_holds s pw c →
  ∃ s', CreateUnlock (nonce s) (Some pw) s = (s', Ret ()) ∧ bolt_holds s' pw c ∧ IsLocked s' = false.
Proof.
  intros Hh. destruct (IsLocked s) eqn:Hl.
  - pose proof Hl as Hl'%bool_decide_eq_true. destruct Hh as (rnd & Hr & Hn & <-).
    rewrite (CreateUnlock_right _ _ _ _ Hr Hl'). eexists. split; [done|].
    split; [|unfold IsLocked; by rewrite bool_decide_false].
    exists rnd. split; [by apply ready_key | done].
  - exists s. unfold CreateUnlock. by rewrite Hl.
Qed.

#[global] Instance bolt_storage_laws : @SecureStorageLaws _ bolt_storage.
Proof.
  unshelve econstructor; [exact bolt_holds | exact bolt_blank | ..]; cbn; unfold bolt_storage; cbn.
  - intros s pw c (rnd & Hr & Hn & Hs). split; [|done]. exists rnd. split; [by apply ready_lock | done].
  - apply bolt_create.
  - apply bolt_unlock.
  - intros s pw c pw' (rnd & Hr & _) Hl%bool_decide_eq_true Hne. eexists. by eapply CreateUnlock_wrong.
  - intros s pw c pw' Hh Hl Hc. pose proof (bolt_clean _ _ _ Hh Hc) as Hclean.
    destruct (bolt_unlocked _ _ _ Hh Hl) as (_ & <- & rnd & Hr & Hn & Hk).
    destruct (ChangePassword_ok s rnd pw (nonce s) pw' Hr Hk Hclean) as (s' & E & Hr' & Hk' & HC & Hn').
    exists s'. split; [done|]. unfold IsLocked. rewrite Hk', bool_decide_false by done. split; [|done].
    exists (nonce s). split_and!; [done|auto|]. rewrite <- HC. unfold contents. by rewrite Hk'.
  - intros s pw c b Hh Hl Hb. destruct (bolt_unlocked _ _ _ Hh Hl) as (Hu & Hc & _).
    destruct (CreateBucket_ok b s Hu Hb) as (s' & E & Hst & HC); [intros v; by eapply no_root_value|].
    exists s'. split; [done|]. rewrite <- Hc. by eapply bolt_stays.
  - intros s pw c Hh. eexists. split; [done|]. intros b. rewrite ListBuckets_spec. by apply (bolt_has_bucket s pw c).
  - intros s pw c b m key v Hh Hl Hm Hk Hv. destruct (bolt_unlocked _ _ _ Hh Hl) as (Hu & Hc & _). subst c.
    destruct (AddToBucket_ok (nonce s) b key v s m Hu Hk Hv Hm) as (s' & E & Hst & HC).
    exists s'. split; [done|]. by eapply bolt_stays.
  - intros s pw c b m key Hh Hl Hm Hk. destruct (bolt_unlocked _ _ _ Hh Hl) as (Hu & Hc & _). subst c.
    rewrite GetFromBucket_ok, Hm by (try done; intros ->; by eapply root_not_bucket). done.
  - intros s pw c b m Hh Hl Hm. destruct (bolt_unlocked _ _ _ Hh Hl) as (Hu & Hc & _). subst c.
    rewrite GetAllFromBucket_ok, Hm by (try done; intros ->; by eapply root_not_bucket). done.
  - intros s pw c b m key Hh Hl Hm Hk. destruct (bolt_unlocked _ _ _ Hh Hl) as (Hu & Hc & _). subst c.
    destruct (RemoveFromBucket_ok b key s m Hu Hk Hm) as (s' & E & Hst & HC).
    exists s'. split; [done|]. by eapply bolt_stays.
  - intros s b key Hl%bool_decide_eq_true. unfold GetFromBucket, GetAllFromBucket, locked. rewrite Hl. eauto.
Defined.
End bolt.

(** * Subscriptions *)

Record Subscription := { ID : string; Event : string; Endpoint : string; Secret : string }.
#[global] Instance subscription_eq_dec : EqDecision Subscription.
Proof. solve_decision. Defined.

Definition IsSecured (h : Subscription) : bool := negb (bool_decide (Secret h = "")).

(** encoding/json of a subscription. *)
Class SubscriptionJSON := {
  Serialize : Subscription → bytes;
  NewSubscriptionFromBytes : bytes → outcome error Subscription;
}.
(** The strings of a subscription that is valid UTF-8 are read back; the text
    is UTF-8, which has no byte 255. *)
Class SubscriptionJSONLaws `{SubscriptionJSON} := {
  valid_utf8 : Subscription → Prop;
  parse_Serialize sub : valid_utf8 sub → NewSubscriptionFromBytes (Serialize sub) = Ret sub;
  Serialize_nonempty sub : Serialize sub ≠ [];
  Serialize_no_separator sub : 255%Z ∉ Serialize sub;
}.

Definition subsBucket : string := "subscriptions".
Definition subsByEventBucket : string := "subscriptionsbyevent".
Definition separator : Z := 255.
Definition AnyTopic : string := "*".
Definition UnspecifiedTopic : string := "".

(** bytes.Join and bytes.Split with the separator. *)
Fixpoint join_sep (l : list bytes) : bytes :=
  match l with
  | [] => []
  | [x] => x
  | x :: l => x ++ separator :: join_sep l
  end.
Fixpoint split_sep (b : bytes) : list bytes :=
  match b with
  | [] => [[]]
  | z :: b =>
      if bool_decide (z = separator) then [] :: split_sep b
      else match split_sep b with [] => [[z]] | x :: l => (z :: x) :: l end
  end.

(** sort.SliceStable by ID. *)
Definition id_lt (a b : Subscription) : bool :=
  match String.compare (ID a) (ID b) with Lt => true | _ => false end.
Fixpoint insert_sub (x : Subscription) (l : list Subscription) : list Subscription :=
  match l with
  | [] => [x]
  | y :: r => if id_lt y x then y :: insert_sub x r else x :: y :: r
  end.
Definition sort_subs (l : list Subscription) : list Subscription := foldr insert_sub [] l.

(** * The network *)

(** [post url payload headers] gives the status and the body; [cb_Execute] is
    the circuit breaker's; [SignedString] the token signed with a secret. *)
Class Network (W : Type) := {
  post : string → string → gmap string string → action W error (Z * string);
  cb_Execute : action W error () → action W error ();
  SignedString : string → string;
}.
Definition StatusOK : Z := 200.

(** * The service *)
Section service.
Context {S : Type} `{SecureStorage S} `{SubscriptionJSON} {W : Type} `{Network W} `{MapOrder}.
(** url.ParseRequestURI accepts. *)
Variable ParseRequestURI : string → bool.

Record service := { store : S; net : W }.
Definition on_store {A} (m : action S error A) : action service error A := λ s,
  let '(d, o) := m (store s) in ({| store := d; net := net s |}, o).
Definition on_net {A} (m : action W error A) : action service error A := λ s,
  let '(w, o) := m (net s) in ({| store := store s; net := w |}, o).

(** The error is dropped and the zero value used. *)
Definition or_zero {X A} (zero : A) (m : action X error A) : action X error A := λ s,
  match m s with (s', Err _) => (s', Ret zero) | r => r end.
(** [sub, _ := NewSubscriptionFromBytes(buf)], then a field of [sub]. *)
Definition parse_deref (buf : bytes) : outcome error Subscription :=
  match NewSubscriptionFromBytes buf with Err _ => Panic NilDereference | o => o end.

Definition NewSubscription (uuid event endpoint secret : string) : outcome error Subscription :=
  if bool_decide (event = "") then Err (Errorf "missing event")
  else if negb (ParseRequestURI endpoint) then Err (Errorf "invalid webhook endpoint, must be a vald URI")
  else Ret {| ID := uuid; Event := event; Endpoint := endpoint; Secret := secret |}.

Definition getSerializedSubscriptions (topic : string) : action service error (list bytes) :=
  if bool_decide (topic = UnspecifiedTopic) then
    subsByTopic ← on_store (or_zero ∅ (ss_GetAllFromBucket subsByEventBucket));
    mret (concat (split_sep <$> range_values subsByTopic))
  else
    subs ← on_store (or_zero None (ss_GetFromBucket subsByEventBucket topic));
    mret (match subs with None | Some [] => [] | Some l => split_sep l end).

Definition addSubscriptionForTopic (sub : Subscription) : action service error () :=
  subs ← getSerializedSubscriptions (Event sub);
  on_store (ss_AddToBucket subsByEventBucket (Event sub) (join_sep (subs ++ [Serialize sub]))).

Definition addSubscription (sub : Subscription) : action service error string :=
  ss ← on_store (ss_GetFromBucket subsBucket (ID sub));
  match ss with
  | Some _ => mret (ID sub)
  | None =>
      _ ← on_store (ss_AddToBucket subsBucket (ID sub) (Serialize sub));
      _ ← addSubscriptionForTopic sub;
      mret (ID sub)
  end.
Definition addSubscriptionSafe (sub : Subscription) : action service error string :=
  ss ← on_store (ss_GetFromBucket subsBucket (ID sub));
  match ss with
  | Some _ => lift (Err (Errorf "subscription with id %s already exist"))
  | None =>
      _ ← on_store (ss_AddToBucket subsBucket (ID sub) (Serialize sub));
      _ ← addSubscriptionForTopic sub;
      mret (ID sub)
  end.

(** [uuid] is the identifier uuid.New makes. *)
Definition Subscribe (uuid topic endpoint secret : string) : action service error string :=
  sub ← lift (NewSubscription uuid topic endpoint secret);
  addSubscription sub.
Definition SubscribeWithID (uuid id topic endpoint secret : string) : action service error string :=
  _ ← lift (NewSubscription uuid topic endpoint secret);
  if bool_decide (id = "") then lift (Err (Errorf "missing subscription id"))
  else addSubscriptionSafe {| ID := id; Event := topic; Endpoint := endpoint; Secret := secret |}.

(** The index of the subscription, 0 when there is none. *)
Fixpoint find_index (id : string) (subs : list bytes) (i : nat) : outcome error nat :=
  match subs with
  | [] => Ret 0
  | buf :: subs => ss ← parse_deref buf; if bool_decide (ID ss = id) then Ret i else find_index id subs (i + 1)
  end.
(** [append(subs[:index], subs[index+1:]...)]. *)
Definition remove_at {A} (index : nat) (l : list A) : outcome error (list A) :=
  if bool_decide (index + 1 ≤ length l) then Ret (take index l ++ drop (index + 1) l) else Panic IndexOutOfRange.

Definition removeSubscriptionForTopic (sub : Subscription) : action service error () :=
  subs ← getSerializedSubscriptions (Event sub);
  index ← lift (find_index (ID sub) subs 0);
  subs ← lift (remove_at index subs);
  if bool_decide (subs = []) then on_store (ss_RemoveFromBucket subsByEventBucket (Event sub))
  else on_store (ss_AddToBucket subsByEventBucket (Event sub) (join_sep subs)).

Definition removeSubscription (subID : string) : action service error () :=
  buf ← on_store (ss_GetFromBucket subsBucket subID);
  match buf with
  | None => lift (Err (Errorf "webhook not found"))
  | Some buf =>
      _ ← on_store (ss_RemoveFromBucket subsBucket subID);
      sub ← lift (parse_deref buf);
      removeSubscriptionForTopic sub
  end.
Definition Unsubscribe (topic id : string) : action service error () := removeSubscription id.

Fixpoint parse_all (raws : list bytes) : outcome error (list Subscription) :=
  match raws with
  | [] => Ret []
  | buf :: raws => sub ← parse_deref buf; subs ← parse_all raws; Ret (sub :: subs)
  end.
Definition getSubscriptionsForTopic (topic : string) : action service error (list Subscription) :=
  rawSubs ← getSerializedSubscriptions topic;
  subs ← lift (parse_all rawSubs);
  mret (sort_subs subs).
Definition ListSubscriptionsForTopic (topic : string) : action service error (list Subscription) :=
  subs ← getSubscriptionsForTopic topic;
  if bool_decide (topic = AnyTopic) || bool_decide (topic = UnspecifiedTopic) then mret subs
  else subsForAnyTopic ← getSubscriptionsForTopic AnyTopic; mret (subs ++ subsForAnyTopic).

Definition request_headers (sub : Subscription) : gmap string string :=
  let headers := {["Content-Type" := "application/json"]} in
  if IsSecured sub then <["Authorization" := "Bearer " +:+ SignedString (Secret sub)]> headers else headers.
Definition doRequest (sub : Subscription) (payload : string) : action W error () :=
  cb_Execute (
    '(status, resp) ← post (Endpoint sub) payload (request_headers sub);
    if bool_decide (status = StatusOK) then mret () else lift (Err (Errorf resp))).

(** errgroup: every request is made; the first error is the result. *)
Fixpoint do_requests (subs : list Subscription) (payload : string) : action W error () :=
  match subs with
  | [] => mret ()
  | sub :: subs => λ w,
      match doRequest sub payload w with
      | (w, Ret _) => do_requests subs payload w
      | (w, Err e) =>
          match do_requests subs payload w with (w, Panic p) => (w, Panic p) | (w, _) => (w, Err e) end
      | (w, Panic p) => (w, Panic p)
      end
  end.
Definition Publish (topic message : string) : action service error () :=
  subs ← ListSubscriptionsForTopic topic;
  on_net (do_requests (range_order subs) message).

(** ** The store of the subscriptions *)

Definition store_Unlock (password : bytes) : action S error () :=
  _ ← ss_CreateUnlock password;
  buckets ← ss_ListBuckets;
  _ ← (if bool_decide (subsBucket ∈ buckets) then mret () else ss_CreateBucket subsBucket);
  (if bool_decide (subsByEventBucket ∈ buckets) then mret () else ss_CreateBucket subsByEventBucket).
(** [defer s.Lock()]: the store is locked again however the rest ends. *)
Definition defer_Lock (m : action S error ()) : action S error () := λ s,
  let '(s, o) := m s in (ss_Lock s, o).
Definition store_Init (password : bytes) : action S error () :=
  _ ← store_Unlock password;
  defer_Lock (_ ← ss_CreateBucket subsBucket; ss_CreateBucket subsByEventBucket).
End service.
Arguments service S W : clear implicits.

(** * Joining and splitting *)

Lemma split_cons_nonempty b : split_sep b ≠ [].
Proof. destruct b as [|z b]; cbn; [done|]. case_bool_decide; [done|]. by destruct (split_sep b). Qed.

Lemma split_app x b : separator ∉ x → split_sep (x ++ separator :: b) = x :: split_sep b.
Proof.
  induction x as [|z x IH]; cbn; intros Hx; [by rewrite bool_decide_true|].
  rewrite bool_decide_false by set_solver. rewrite IH by set_solver. done.
Qed.
Lemma split_one x : separator ∉ x → split_sep x = [x].
Proof.
  induction x as [|z x IH]; cbn; intros Hx; [done|].
  rewrite bool_decide_false by set_solver. rewrite IH by set_solver. done.
Qed.
Lemma split_join l : l ≠ [] → Forall (λ x, separator ∉ x) l → split_sep (join_sep l) = l.
Proof.
  intros Hne Hl. induction Hl as [|x l Hx Hl IH]; [done|]. destruct l as [|y l]; [by apply split_one|].
  change (join_sep (x :: y :: l)) with (x ++ separator :: join_sep (y :: l)).
  rewrite split_app by done. by rewrite IH.
Qed.
Lemma join_nonempty l : l ≠ [] → Forall (λ x, x ≠ []) l → join_sep l ≠ [].
Proof. destruct l as [|x [|y l]]; [done| |]; intros _ Hl; apply Forall_cons in Hl as [Hx _]; [done|]. cbn. by destruct x. Qed.

Lemma insert_sub_perm x l : insert_sub x l ≡ₚ x :: l.
Proof. induction l as [|y r IH]; cbn; [done|]. destruct (id_lt y x); [|done]. rewrite IH. apply Permutation_swap. Qed.
Lemma sort_subs_perm l : sort_subs l ≡ₚ l.
Proof. induction l as [|x l IH]; cbn; [done|]. by rewrite insert_sub_perm, IH. Qed.

(** Sorted: no element is before one with a smaller ID. *)
Definition id_ordered (a b : Subscription) : Prop := id_lt b a = false.
Lemma id_lt_asym a b : id_lt a b = true → id_lt b a = false.
Proof. unfold id_lt. rewrite String.compare_antisym. by destruct (String.compare (ID b) (ID a)). Qed.
Lemma insert_sub_sorted x l : Sorted id_ordered l → Sorted id_ordered (insert_sub x l).
Proof.
  induction 1 as [|y r Hr IH Hy]; cbn; [repeat constructor|]. destruct (id_lt y x) eqn:E.
  - constructor; [done|]. destruct r as [|z r]; cbn.
    + constructor. by apply id_lt_asym.
    + inversion Hy; subst. destruct (id_lt z x); constructor; [done | by apply id_lt_asym].
  - constructor; [by constructor|]. by constructor.
Qed.
Lemma sort_subs_sorted l : Sorted id_ordered (sort_subs l).
Proof. induction l; cbn; [constructor | by apply insert_sub_sorted]. Qed.

(** * The service implements a map of subscriptions *)
Section refinement.
Context {S : Type} `{!SecureStorage S} `{!SecureStorageLaws S} `{!SubscriptionJSON} `{!SubscriptionJSONLaws}.
Context {W : Type} `{!Network W} `{MapOrder}.
Implicit Types (s : service S W) (subs : gmap string Subscription) (sub : Subscription).

Definition values subs : list Subscription := (map_to_list subs).*2.
Definition topic_subs subs (t : string) : list Subscription := filter (λ x, Event x = t) (values subs).

(** The entry of a topic: its subscriptions in some order, no entry if it has none. *)
Definition entry_of (l : list Subscription) : option bytes :=
  match l with [] => None | _ => Some (join_sep (Serialize <$> l)) end.
Definition wf_sub (id : string) sub : Prop :=
  ID sub = id ∧ good_key id ∧ good_key (Event sub) ∧ valid_utf8 sub.

(** The unlocked store, set up with [pw], keeps the subscriptions [subs]. *)
Record rep_in s (pw : bytes) subs (c : data) (m : gmap string bytes) : Prop := {
  rep_holds : holds (store s) pw c;
  rep_open : ss_IsLocked (store s) = false;
  rep_subs : c !! subsBucket = Some (Serialize <$> subs);
  rep_events : c !! subsByEventBucket = Some m;
  rep_wf id sub : subs !! id = Some sub → wf_sub id sub;
  rep_topic t : ∃ l, l ≡ₚ topic_subs subs t ∧ m !! t = entry_of l;
}.
Definition rep s pw subs : Prop := ∃ c m, rep_in s pw subs c m.

Lemma values_elem subs x : x ∈ values subs ↔ ∃ id, subs !! id = Some x.
Proof.
  unfold values. rewrite list_elem_of_fmap. split.
  - intros ([id y] & -> & Hin%elem_of_map_to_list). eauto.
  - intros [id Hid]. exists (id, x). by rewrite elem_of_map_to_list.
Qed.
Lemma topic_subs_elem subs t x : x ∈ topic_subs subs t ↔ Event x = t ∧ ∃ id, subs !! id = Some x.
Proof. unfold topic_subs. by rewrite list_elem_of_filter, values_elem. Qed.
Lemma topic_subs_insert subs id sub t : subs !! id = None →
  topic_subs (<[id := sub]> subs) t ≡ₚ (if decide (Event sub = t) then [sub] else []) ++ topic_subs subs t.
Proof.
  intros Hid. unfold topic_subs, values. rewrite map_to_list_insert by done. rewrite fmap_cons, filter_cons. cbn.
  by destruct (decide (Event sub = t)).
Qed.
Lemma topic_subs_delete subs id sub t : subs !! id = Some sub →
  topic_subs subs t ≡ₚ (if decide (Event sub = t) then [sub] else []) ++ topic_subs (delete id subs) t.
Proof.
  intros Hid. rewrite <- (insert_delete_id subs id sub Hid) at 1. apply topic_subs_insert, lookup_delete_eq.
Qed.

Lemma split_entry l : l ≠ [] → split_sep (join_sep (Serialize <$> l)) = Serialize <$> l.
Proof.
  intros Hl. apply split_join; [by destruct l|]. apply Forall_fmap, Forall_true. intros x. apply Serialize_no_separator.
Qed.
Lemma entry_nonempty l : l ≠ [] → join_sep (Serialize <$> l) ≠ [].
Proof.
  intros Hl. apply join_nonempty; [by destruct l|]. apply Forall_fmap, Forall_true. intros x. apply Serialize_nonempty.
Qed.
Lemma parse_all_ok l : Forall valid_utf8 l → parse_all (Serialize <$> l) = Ret l.
Proof. induction 1 as [|x l Hx Hl IH]; cbn; [done|]. unfold parse_deref. by rewrite parse_Serialize, IH. Qed.

Lemma on_store_run {A} (m : action S error A) s d o : m (store s) = (d, o) →
  on_store m s = ({| store := d; net := net s |}, o).
Proof. unfold on_store. by intros ->. Qed.
Lemma service_eta s : {| store := store s; net := net s |} = s.
Proof. by destruct s. Qed.

Lemma get_serialized s pw c m t l : holds (store s) pw c → ss_IsLocked (store s) = false →
  c !! subsByEventBucket = Some m → good_key t → m !! t = entry_of l →
  getSerializedSubscriptions t s = (s, Ret (Serialize <$> l)).
Proof.
  intros Hh Ho He [Ht0 Ht1] Hm. unfold getSerializedSubscriptions. rewrite bool_decide_false by done.
  unfold mbind, action_bind. erewrite on_store_run.
  2:{ unfold or_zero. rewrite (get_law _ pw c _ m) by done. done. }
  rewrite service_eta, Hm. unfold mret, action_ret. destruct l as [|x l]; [done|]. unfold entry_of.
  pose proof (entry_nonempty (x :: l)) as Hne. pose proof (split_entry (x :: l)) as Hsp.
  destruct (join_sep (Serialize <$> x :: l)); [by destruct Hne | by rewrite Hsp].
Qed.

Lemma topic_valid s pw subs c m t l : rep_in s pw subs c m → l ≡ₚ topic_subs subs t → Forall valid_utf8 l.
Proof.
  intros Hr Hl. apply Forall_forall. intros x. rewrite Hl, topic_subs_elem. intros [_ [id Hid]].
  by apply (rep_wf _ _ _ _ _ Hr) in Hid as (_ & _ & _ & ?).
Qed.

(** ** Adding *)

Lemma add_for_topic s pw subs c m sub : rep_in s pw subs c m → subs !! ID sub = None → wf_sub (ID sub) sub →
  ∃ d, (_ ← on_store (ss_AddToBucket subsBucket (ID sub) (Serialize sub)); addSubscriptionForTopic sub) s
         = ({| store := d; net := net s |}, Ret ()) ∧
    rep {| store := d; net := net s |} pw (<[ID sub := sub]> subs).
Proof.
  intros Hr Hid Hwf. pose proof Hwf as (_ & Hgid & Hgev & Hutf). pose proof Hr as [Hh Ho Hs He Hw Ht].
  destruct (add_law (store s) pw c subsBucket _ (ID sub) (Serialize sub) Hh Ho Hs Hgid) as (d1 & E1 & Ho1 & Hh1);
    [apply Serialize_nonempty|].
  set (s1 := {| store := d1; net := net s |}). destruct (Ht (Event sub)) as (l & Hl & Hm).
  assert (getSerializedSubscriptions (Event sub) s1 = (s1, Ret (Serialize <$> l))) as Eg.
  { apply (get_serialized s1 pw _ m _ l Hh1 Ho1); [by rewrite lookup_insert_ne|done..]. }
  assert (Serialize <$> l ++ [sub] = (Serialize <$> l) ++ [Serialize sub]) as El by (by rewrite fmap_app).
  destruct (add_law d1 pw _ subsByEventBucket m (Event sub) (join_sep (Serialize <$> l ++ [sub])) Hh1 Ho1)
    as (d2 & E2 & Ho2 & Hh2); [by rewrite lookup_insert_ne|done|apply entry_nonempty; by destruct l|].
  exists d2. unfold addSubscriptionForTopic, mbind, action_bind. rewrite (on_store_run _ _ _ _ E1). fold s1.
  rewrite Eg, <- El. split; [by apply (on_store_run _ s1)|]. eexists _, _. split; cbn; [done..| | | |].
  - by rewrite lookup_insert_ne, lookup_insert_eq, fmap_insert.
  - by rewrite lookup_insert_eq.
  - intros id x. rewrite lookup_insert_Some. intros [[<- <-]|[_ Hx]]; [done | by apply Hw].
  - intros t. destruct (decide (Event sub = t)) as [<-|Hne].
    + exists (l ++ [sub]). rewrite topic_subs_insert, decide_True, lookup_insert_eq by done.
      split; [rewrite Hl; by rewrite Permutation_app_comm|]. by destruct l.
    + destruct (Ht t) as (l' & Hl' & Hm'). exists l'. rewrite topic_subs_insert, decide_False by done.
      by rewrite lookup_insert_ne.
Qed.

Lemma get_sub s pw subs c m id : rep_in s pw subs c m → good_key id →
  on_store (ss_GetFromBucket subsBucket id) s = (s, Ret (Serialize <$> subs !! id)).
Proof.
  intros Hr Hg. erewrite on_store_run.
  2:{ rewrite (get_law _ pw c _ _ _ (rep_holds _ _ _ _ _ Hr) (rep_open _ _ _ _ _ Hr) (rep_subs _ _ _ _ _ Hr)) by done. done. }
  by rewrite service_eta, lookup_fmap.
Qed.

(** The two ways of adding differ only when the ID is taken. *)
Lemma add_ok s pw subs sub : rep s pw subs → wf_sub (ID sub) sub →
  match subs !! ID sub with
  | Some _ => addSubscription sub s = (s, Ret (ID sub)) ∧
              addSubscriptionSafe sub s = (s, Err (Errorf "subscription with id %s already exist"))
  | None => ∃ d, addSubscription sub s = ({| store := d; net := net s |}, Ret (ID sub)) ∧
              addSubscriptionSafe sub s = ({| store := d; net := net s |}, Ret (ID sub)) ∧
              rep {| store := d; net := net s |} pw (<[ID sub := sub]> subs)
  end.
Proof.
  intros (c & m & Hr) Hwf. pose proof (get_sub _ _ _ _ _ (ID sub) Hr (proj1 (proj2 Hwf))) as Hg.
  unfold addSubscription, addSubscriptionSafe, mbind, action_bind. rewrite Hg.
  destruct (subs !! ID sub) eqn:Eid; cbn; [done|].
  destruct (add_for_topic _ _ _ _ _ sub Hr Eid Hwf) as (d & E & Hrep). exists d.
  unfold mbind, action_bind in E.
  destruct (on_store (ss_AddToBucket subsBucket (ID sub) (Serialize sub)) s) as [s1 [[]|e|p]]; [|done..].
  by rewrite E.
Qed.

(** ** Removing *)

Lemma find_index_ok id l n x : Forall valid_utf8 l → x ∈ l → ID x = id →
  ∃ l1 y l2, l = l1 ++ y :: l2 ∧ ID y = id ∧ find_index id (Serialize <$> l) n = Ret (n + length l1).
Proof.
  intros Hl. revert n. induction Hl as [|z l Hz Hl IH]; intros n Hx Hid; [by apply not_elem_of_nil in Hx|].
  cbn. unfold parse_deref. rewrite parse_Serialize by done. cbn. case_bool_decide as Hzid.
  - exists [], z, l. cbn. by rewrite Nat.add_0_r.
  - apply elem_of_cons in Hx as [->|Hx]; [done|]. destruct (IH (n + 1) Hx Hid) as (l1 & y & l2 & -> & Hy & ->).
    exists (z :: l1), y, l2. cbn. split_and!; [done..|]. f_equal. lia.
Qed.
Lemma remove_at_app {A} (l1 l2 : list A) y : remove_at (length l1) (l1 ++ y :: l2) = Ret (l1 ++ l2).
Proof.
  unfold remove_at. rewrite bool_decide_true by (rewrite length_app; cbn; lia).
  rewrite take_app_length, Nat.add_1_r. f_equal. f_equal.
  induction l1; cbn; [done|]. done.
Qed.

Lemma topic_unique s pw subs c m x y : rep_in s pw subs c m → x ∈ values subs → y ∈ values subs → ID x = ID y → x = y.
Proof.
  intros Hr [i Hi]%values_elem [j Hj]%values_elem E.
  destruct (rep_wf _ _ _ _ _ Hr _ _ Hi) as (<- & _). destruct (rep_wf _ _ _ _ _ Hr _ _ Hj) as (<- & _). congruence.
Qed.

(** Removing from the entry of the topic, once the subscription is gone from its bucket. *)
Lemma remove_for_topic d w pw subs c m id sub : rep_in {| store := d; net := w |} pw subs c m → subs !! id = Some sub →
  ∀ d1, holds d1 pw (<[subsBucket := Serialize <$> delete id subs]> c) → ss_IsLocked d1 = false →
  ∃ d2, removeSubscriptionForTopic sub {| store := d1; net := w |} = ({| store := d2; net := w |}, Ret ()) ∧
    rep {| store := d2; net := w |} pw (delete id subs).
Proof.
  intros Hr Hid d1 Hh1 Ho1. pose proof Hr as [_ _ _ He Hw Ht].
  destruct (Hw _ _ Hid) as (Hsid & _ & Hgev & _). destruct (Ht (Event sub)) as (l & Hl & Hm).
  set (s1 := {| store := d1; net := w |}).
  assert ((<[subsBucket := Serialize <$> delete id subs]> c) !! subsByEventBucket = Some m) as He1
    by (by rewrite lookup_insert_ne).
  pose proof (get_serialized s1 pw _ m _ l Hh1 Ho1 He1 Hgev Hm) as Eg.
  assert (sub ∈ l) as Hsub by (rewrite Hl; apply topic_subs_elem; eauto).
  destruct (find_index_ok id l 0 sub (topic_valid _ _ _ _ _ _ _ Hr Hl) Hsub Hsid) as (l1 & y & l2 & -> & Hy & Ef).
  assert (y = sub) as ->.
  { eapply topic_unique; [done| |apply values_elem; eauto|congruence].
    assert (y ∈ topic_subs subs (Event sub)) as Hin by (rewrite <- Hl; set_solver).
    apply topic_subs_elem in Hin as [_ ?]. by apply values_elem. }
  assert (l1 ++ l2 ≡ₚ topic_subs (delete id subs) (Event sub)) as Hl12.
  { rewrite (topic_subs_delete _ _ _ _ Hid), decide_True in Hl by done. rewrite <- Permutation_middle in Hl.
    by apply Permutation_cons_inv in Hl. }
  unfold removeSubscriptionForTopic, mbind, action_bind. rewrite Eg. unfold lift. rewrite Hsid, Ef.
  rewrite fmap_app, fmap_cons, <- (length_fmap Serialize l1). cbn [Nat.add]. rewrite remove_at_app, <- fmap_app.
  assert (∃ d2, (if bool_decide (Serialize <$> l1 ++ l2 = [])
      then on_store (ss_RemoveFromBucket subsByEventBucket (Event sub))
      else on_store (ss_AddToBucket subsByEventBucket (Event sub) (join_sep (Serialize <$> l1 ++ l2)))) s1
      = ({| store := d2; net := w |}, Ret ()) ∧ ss_IsLocked d2 = false ∧
    ∃ m', holds d2 pw (<[subsByEventBucket := m']> (<[subsBucket := Serialize <$> delete id subs]> c)) ∧
      m' !! Event sub = entry_of (l1 ++ l2) ∧ ∀ t, t ≠ Event sub → m' !! t = m !! t)
    as (d2 & E2 & Ho2 & m' & Hh2 & Hm' & Hother).
  { case_bool_decide as Hnil.
    - apply fmap_nil_inv in Hnil. rewrite Hnil.
      destruct (remove_law _ pw _ _ m (Event sub) Hh1 Ho1 He1 Hgev) as (d2 & E2 & Ho2 & Hh2).
      exists d2. split; [by apply (on_store_run _ s1)|]. split; [done|]. eexists. split; [done|].
      split; [by rewrite lookup_delete_eq|]. intros t Hne. by rewrite lookup_delete_ne.
    - destruct (add_law _ pw _ _ m (Event sub) (join_sep (Serialize <$> l1 ++ l2)) Hh1 Ho1 He1 Hgev) as (d2 & E2 & Ho2 & Hh2).
      { apply entry_nonempty. intros E. apply Hnil. by rewrite E. }
      exists d2. split; [by apply (on_store_run _ s1)|]. split; [done|]. eexists. split; [done|].
      split; [|intros t Hne; by rewrite lookup_insert_ne]. rewrite lookup_insert_eq. unfold entry_of.
      by destruct (l1 ++ l2). }
  exists d2. split; [done|]. eexists _, _. split; cbn; [done..| | | |].
  - by rewrite lookup_insert_ne, lookup_insert_eq.
  - by rewrite lookup_insert_eq.
  - intros i x [_ Hx]%lookup_delete_Some. by apply Hw.
  - intros t. destruct (decide (t = Event sub)) as [->|Hne]; [by exists (l1 ++ l2)|].
    destruct (Ht t) as (l' & Hl' & Hmt). exists l'. rewrite Hother by done. split; [|done].
    rewrite Hl', (topic_subs_delete _ _ _ _ Hid), decide_False by done. done.
Qed.

Lemma remove_ok s pw subs id : rep s pw subs → good_key id →
  match subs !! id with
  | Some _ => ∃ d, removeSubscription id s = ({| store := d; net := net s |}, Ret ()) ∧
                rep {| store := d; net := net s |} pw (delete id subs)
  | None => removeSubscription id s = (s, Err (Errorf "webhook not found"))
  end.
Proof.
  intros (c & m & Hr) Hg. unfold removeSubscription, mbind, action_bind. rewrite (get_sub _ _ _ _ _ _ Hr Hg).
  destruct (subs !! id) as [sub|] eqn:Eid; cbn; [|done].
  destruct (remove_law _ pw _ _ _ id (rep_holds _ _ _ _ _ Hr) (rep_open _ _ _ _ _ Hr) (rep_subs _ _ _ _ _ Hr) Hg)
    as (d1 & E1 & Ho1 & Hh1).
  rewrite (on_store_run _ _ _ _ E1). unfold parse_deref, lift.
  rewrite parse_Serialize by (by eapply (rep_wf _ _ _ _ _ Hr)).
  destruct s as [d w]. cbn in *. rewrite <- fmap_delete in Hh1. by eapply remove_for_topic.
Qed.

(** ** Listing *)

Lemma filter_topic_cons (l : list Subscription) t (keys : list string) : t ∉ keys →
  filter (λ x, Event x = t) l ++ filter (λ x, Event x ∈ keys) l ≡ₚ filter (λ x, Event x ∈ t :: keys) l.
Proof.
  intros Ht. induction l as [|x l IH]; [done|]. rewrite !filter_cons.
  destruct (decide (Event x = t)), (decide (Event x ∈ keys)), (decide (Event x ∈ t :: keys));
    try done; try (exfalso; set_solver); cbn [app]; rewrite <- ?Permutation_middle; by rewrite IH.
Qed.
Lemma filter_topics (l : list Subscription) (keys : list string) : NoDup keys →
  concat ((λ t, filter (λ x, Event x = t) l) <$> keys) ≡ₚ filter (λ x, Event x ∈ keys) l.
Proof.
  induction 1 as [|t keys Ht Hnd IH]; cbn -[filter].
  - induction l as [|x l IH]; [done|]. rewrite filter_cons, decide_False by set_solver. done.
  - by rewrite IH, filter_topic_cons.
Qed.
Lemma filter_keep (P : Subscription → Prop) `{!∀ x, Decision (P x)} (l : list Subscription) : (∀ x, x ∈ l → P x) → filter P l = l.
Proof.
  induction l as [|x l IH]; intros Hl; [done|]. rewrite filter_cons, decide_True by (apply Hl; left).
  rewrite IH; [done|]. intros y Hy. apply Hl. by right.
Qed.

Lemma get_all_serialized s pw subs c m : rep_in s pw subs c m →
  ∃ l, l ≡ₚ values subs ∧ getSerializedSubscriptions UnspecifiedTopic s = (s, Ret (Serialize <$> l)).
Proof.
  intros Hr. pose proof Hr as [Hh Ho _ He _ Ht]. unfold getSerializedSubscriptions. rewrite bool_decide_true by done.
  unfold mbind, action_bind. erewrite on_store_run.
  2:{ unfold or_zero. rewrite (get_all_law _ pw c _ m) by done. done. }
  rewrite service_eta. unfold mret, action_ret, range_values.
  assert (∀ kvs : list (string * bytes), (∀ kv, kv ∈ kvs → m !! kv.1 = Some kv.2) →
    ∃ l, l ≡ₚ concat (topic_subs subs <$> kvs.*1) ∧ concat (split_sep <$> kvs.*2) = Serialize <$> l) as Hkvs.
  { induction kvs as [|[t v] kvs IH]; intros Hk; cbn; [by exists []|].
    destruct IH as (l & Hl & E); [intros; apply Hk; by right|]. destruct (Ht t) as (l0 & Hl0 & Hm0).
    assert (m !! t = Some v) as Htv by (apply (Hk (t, v)); left). rewrite Htv in Hm0. exists (l0 ++ l). split; [by rewrite Hl, Hl0|]. rewrite E, fmap_app.
    destruct l0 as [|y l0]; [done|]. unfold entry_of in Hm0. apply Some_inj in Hm0 as ->.
    by rewrite split_entry. }
  destruct (Hkvs (range_items m)) as (l & Hl & E).
  { intros [t v]. unfold range_items. rewrite range_order_perm. apply elem_of_map_to_list. }
  exists l. rewrite E. split; [|done]. rewrite Hl. unfold topic_subs. rewrite filter_topics by apply range_items_keys.
  rewrite filter_keep; [done|]. intros x [id Hid]%values_elem. apply list_elem_of_fmap.
  destruct (Ht (Event x)) as (l0 & Hl0 & Hm0).
  assert (x ∈ l0) as Hx by (rewrite Hl0; apply topic_subs_elem; eauto). destruct l0 as [|y l0]; [by apply not_elem_of_nil in Hx|].
  eexists (Event x, _). split; [done|]. unfold range_items. rewrite range_order_perm. by apply elem_of_map_to_list.
Qed.

Definition of_topic subs (t : string) : list Subscription :=
  if bool_decide (t = UnspecifiedTopic) then values subs else topic_subs subs t.

Lemma get_for_topic s pw subs t : rep s pw subs → t = UnspecifiedTopic ∨ good_key t →
  ∃ l, getSubscriptionsForTopic t s = (s, Ret l) ∧ l ≡ₚ of_topic subs t ∧ Sorted id_ordered l.
Proof.
  intros (c & m & Hr) Ht. pose proof Hr as [Hh Ho _ He Hw Htop].
  assert (∃ l, l ≡ₚ of_topic subs t ∧ getSerializedSubscriptions t s = (s, Ret (Serialize <$> l))) as (l & Hl & E).
  { unfold of_topic. case_bool_decide as Hu; [subst; by eapply get_all_serialized|]. destruct Ht as [|Ht]; [done|].
    destruct (Htop t) as (l & Hl & Hm). exists l. split; [done|]. by eapply get_serialized. }
  exists (sort_subs l). unfold getSubscriptionsForTopic, mbind, action_bind, lift. rewrite E.
  rewrite parse_all_ok. { split_and!; [done | by rewrite sort_subs_perm | apply sort_subs_sorted]. }
  apply Forall_forall. intros x. rewrite Hl. unfold of_topic. intros Hx.
  assert (∃ id, subs !! id = Some x) as [id Hid].
  { case_bool_decide; [by apply values_elem|]. by apply topic_subs_elem in Hx as [_ ?]. }
  by apply Hw in Hid as (_ & _ & _ & ?).
Qed.

Definition and_any subs (t : string) : list Subscription :=
  if bool_decide (t = AnyTopic) || bool_decide (t = UnspecifiedTopic) then [] else topic_subs subs AnyTopic.
Lemma list_ok s pw subs t : rep s pw subs → t = UnspecifiedTopic ∨ good_key t →
  ∃ l1 l2, ListSubscriptionsForTopic t s = (s, Ret (l1 ++ l2)) ∧
    l1 ≡ₚ of_topic subs t ∧ l2 ≡ₚ and_any subs t ∧ Sorted id_ordered l1 ∧ Sorted id_ordered l2.
Proof.
  intros Hr Ht. destruct (get_for_topic s pw subs t Hr Ht) as (l1 & E1 & Hl1 & Hs1). exists l1.
  unfold ListSubscriptionsForTopic, and_any, mbind, action_bind. rewrite E1.
  destruct (bool_decide (t = AnyTopic) || bool_decide (t = UnspecifiedTopic)).
  - exists []. rewrite app_nil_r. split_and!; try done; constructor.
  - destruct (get_for_topic s pw subs AnyTopic Hr) as (l2 & E2 & Hl2 & Hs2); [by right|]. exists l2. by rewrite E2.
Qed.

End refinement.

(** * Publishing *)

Record Request := { req_url : string; req_payload : string; req_headers : gmap string string }.

(** [sent w]: the requests made so far with their answers.  A request is made once;
    the breaker, when it refuses, makes none and returns an error, otherwise it runs
    the function it is given; [cb_closed]: it does not refuse. *)
Class NetworkLaws (W : Type) `{Network W} := {
  sent : W → list (Request * outcome error (Z * string));
  cb_closed : W → Prop;
  post_law url payload h w w' o : post url payload h w = (w', o) →
    sent w' = sent w ++ [({| req_url := url; req_payload := payload; req_headers := h |}, o)] ∧
    ∀ p, o ≠ Panic p;
  cb_law m w w' o : cb_Execute m w = (w', o) →
    (¬ cb_closed w ∧ (∃ e, o = Err e) ∧ sent w' = sent w) ∨
    ∃ w1 w2, sent w1 = sent w ∧ m w1 = (w2, o) ∧ sent w' = sent w2;
}.

Section publish.
Context {S : Type} `{!SecureStorage S} `{!SecureStorageLaws S} `{!SubscriptionJSON} `{!SubscriptionJSONLaws}.
Context {W : Type} `{!Network W} `{!NetworkLaws W} `{MapOrder}.
Implicit Types (s : service S W) (subs : gmap string Subscription) (w : W).

Definition request (payload : string) (sub : Subscription) : Request :=
  {| req_url := Endpoint sub; req_payload := payload; req_headers := request_headers sub |}.
Definition answered_ok (a : outcome error (Z * string)) : Prop := ∃ resp, a = Ret (StatusOK, resp).

Lemma doRequest_ok sub payload w w' o : doRequest sub payload w = (w', o) →
  ((∃ a, sent w' = sent w ++ [(request payload sub, a)] ∧ (o = Ret () → answered_ok a)) ∨
   (sent w' = sent w ∧ (∃ e, o = Err e) ∧ ¬ cb_closed w)) ∧ ∀ p, o ≠ Panic p.
Proof.
  unfold doRequest. intros [(Hc & [e ->] & Hs)|(w1 & w2 & Hs & E & Hs')]%cb_law; [naive_solver|].
  unfold mbind, action_bind in E. destruct (post (Endpoint sub) payload (request_headers sub) w1) as [w3 a] eqn:Ep.
  apply post_law in Ep as [Hp Hn]. rewrite Hs in Hp.
  assert (sent w' = sent w ++ [(request payload sub, a)] ∧ (o = Ret () → answered_ok a) ∧ ∀ p, o ≠ Panic p) as (? & ? & ?);
    [|by split; [left; exists a|]].
  destruct a as [[status resp]|e|p]; [| |by destruct (Hn p)].
  - case_bool_decide as Hok; injection E as <- <-; rewrite Hs', Hp; split_and!; try done.
    intros _. exists resp. by rewrite Hok.
  - injection E as <- <-. by rewrite Hs', Hp.
Qed.

Lemma do_requests_ok l payload w w' o : do_requests l payload w = (w', o) →
  ∃ log, sent w' = sent w ++ log ∧ log.*1 `sublist_of` (request payload <$> l) ∧ (∀ p, o ≠ Panic p) ∧
    (o = Ret () → log.*1 = request payload <$> l ∧ Forall answered_ok log.*2) ∧
    ((∀ w, cb_closed w) → log.*1 = request payload <$> l).
Proof.
  revert w w' o. induction l as [|sub l IH]; intros w w' o; cbn.
  { intros [= <- <-]. exists []. rewrite app_nil_r. split_and!; try done. }
  destruct (doRequest sub payload w) as [w1 o1] eqn:E1. apply doRequest_ok in E1 as [Hd Hp].
  destruct (do_requests l payload w1) as [w2 o2] eqn:E2. apply IH in E2 as (log & Hs & Hsub & Hp2 & Hok & Hcl).
  assert (w' = w2 ∧ (∀ p, o ≠ Panic p) ∧ (o = Ret () → o1 = Ret () ∧ o2 = Ret ()) →
    ∃ log, sent w' = sent w ++ log ∧ log.*1 `sublist_of` (request payload sub :: (request payload <$> l)) ∧ (∀ p, o ≠ Panic p) ∧
      (o = Ret () → log.*1 = request payload sub :: (request payload <$> l) ∧ Forall answered_ok log.*2) ∧
      ((∀ w, cb_closed w) → log.*1 = request payload sub :: (request payload <$> l))) as Hfin.
  { intros (-> & Hpo & Ho). destruct Hd as [(a & Hs1 & Ha)|(Hs1 & [e He] & Hnc)].
    - exists ((request payload sub, a) :: log). rewrite Hs, Hs1, <- app_assoc. cbn. split_and!; try done.
      + by apply sublist_skip.
      + intros [Ho1 Ho2]%Ho. destruct (Hok Ho2) as [-> ?]. split; [done|]. constructor; auto.
      + intros Hall. by rewrite Hcl.
    - exists log. rewrite Hs, Hs1. split_and!; try done.
      + by apply sublist_cons.
      + intros [Ho1 _]%Ho. congruence.
      + intros Hall. by destruct Hnc. }
  destruct o1 as [[]|e|p]; [intros [= <- <-] | | by destruct (Hp p)].
  - apply Hfin. by split_and!.
  - destruct o2 as [[]|e2|p]; [intros [= <- <-]..|by destruct (Hp2 p)]; apply Hfin; by split_and!.
Qed.

Lemma publish_ok s pw subs topic message s' o : rep s pw subs → good_key topic →
  Publish topic message s = (s', o) →
  let targets := topic_subs subs topic ++ and_any subs topic in
  store s' = store s ∧ (∀ p, o ≠ Panic p) ∧
  ∃ log, sent (net s') = sent (net s) ++ log ∧ log.*1 ⊆+ (request message <$> targets) ∧
    (o = Ret () → log.*1 ≡ₚ request message <$> targets ∧ Forall answered_ok log.*2) ∧
    ((∀ w, cb_closed w) → log.*1 ≡ₚ request message <$> targets).
Proof.
  intros Hr Ht E targets. destruct (list_ok s pw subs topic Hr (or_intror Ht)) as (l1 & l2 & El & P1 & P2 & _ & _).
  unfold of_topic in P1. rewrite bool_decide_false in P1 by apply Ht.
  unfold Publish, mbind, action_bind in E. rewrite El in E. unfold on_net in E.
  destruct (do_requests (range_order (l1 ++ l2)) message (net s)) as [w o'] eqn:Ed. injection E as <- <-.
  apply do_requests_ok in Ed as (log & Hs & Hsub & Hp & Hok & Hcl). cbn. split; [done|]. split; [done|].
  assert (request message <$> range_order (l1 ++ l2) ≡ₚ request message <$> targets) as HP.
  { apply fmap_Permutation. rewrite range_order_perm. unfold targets. by rewrite P1, P2. }
  exists log. split_and!; [done| | |].
  - rewrite <- HP. by apply sublist_submseteq.
  - intros Ho. destruct (Hok Ho) as [-> ?]. done.
  - intros Hall. rewrite Hcl by done. done.
Qed.

(** Publish notifies exactly the subscribers.  For a topic and a message, only
    the subscriptions of the topic and those of every topic get a request, each at
    most one, with the message as payload and the token of its secret; when Publish
    returns without an error each of them got its request and answered 200, and while
    the circuit breaker refuses nothing each gets its request even if others fail.
    The subscriptions do not change and nothing panics. *)
Theorem publish_reaches_subscribers s pw subs topic message s' o : rep s pw subs → good_key topic →
  Publish topic message s = (s', o) →
  let targets := topic_subs subs topic ++ and_any subs topic in
  store s' = store s ∧ (∀ p, o ≠ Panic p) ∧
  ∃ log, sent (net s') = sent (net s) ++ log ∧ log.*1 ⊆+ (request message <$> targets) ∧
    (o = Ret () → log.*1 ≡ₚ request message <$> targets ∧ Forall answered_ok log.*2) ∧
    ((∀ w, cb_closed w) → log.*1 ≡ₚ request message <$> targets).
Proof. apply publish_ok. Qed.

(** Publishing with a locked store reaches nobody and reports success. *)
Theorem locked_store_publishes_to_nobody s topic message : ss_IsLocked (store s) = true → topic ≠ ""%string →
  Publish topic message s = (s, Ret ()).
Proof.
  intros Hl Hne. assert (∀ t, t ≠ ""%string → getSubscriptionsForTopic t s = (s, Ret [])) as Hg.
  { intros t Ht. unfold getSubscriptionsForTopic, getSerializedSubscriptions, mbind, action_bind.
    rewrite bool_decide_false by done. destruct (locked_law (store s) subsByEventBucket t Hl) as [[e He] _].
    erewrite on_store_run; [|unfold or_zero; by rewrite He]. by rewrite service_eta. }
  assert (range_order (@nil Subscription) = []) as Hnil by (apply Permutation_nil_r, range_order_perm).
  unfold Publish, ListSubscriptionsForTopic, mbind, action_bind. rewrite Hg by done.
  destruct (bool_decide (topic = AnyTopic) || bool_decide (topic = UnspecifiedTopic));
    [|rewrite Hg by done]; unfold mret, action_ret, on_net; cbn;
    rewrite Hnil; cbn; by rewrite service_eta.
Qed.

(** ** The life of the store *)

Lemma buckets_ok (d : S) pw c : holds d pw c → ss_IsLocked d = false →
  let c' := <[subsByEventBucket := default ∅ (c !! subsByEventBucket)]> (<[subsBucket := default ∅ (c !! subsBucket)]> c) in
  ∃ d', (_ ← ss_CreateBucket subsBucket; ss_CreateBucket subsByEventBucket) d = (d', Ret ()) ∧
    holds d' pw c' ∧ ss_IsLocked d' = false.
Proof.
  intros Hh Ho. destruct (bucket_law d pw c subsBucket Hh Ho) as (d1 & E1 & Ho1 & Hh1); [done|].
  destruct (bucket_law d1 pw _ subsByEventBucket Hh1 Ho1) as (d2 & E2 & Ho2 & Hh2); [done|].
  rewrite lookup_insert_ne in Hh2 by done. exists d2. unfold mbind, action_bind. by rewrite E1, E2.
Qed.

Lemma unlock_buckets (d : S) pw c : holds d pw c → ss_IsLocked d = false →
  let c' := <[subsByEventBucket := default ∅ (c !! subsByEventBucket)]> (<[subsBucket := default ∅ (c !! subsBucket)]> c) in
  ∃ d', (buckets ← ss_ListBuckets;
         _ ← (if bool_decide (subsBucket ∈ buckets) then mret () else ss_CreateBucket subsBucket);
         (if bool_decide (subsByEventBucket ∈ buckets) then mret () else ss_CreateBucket subsByEventBucket)) d = (d', Ret ()) ∧
    holds d' pw c' ∧ ss_IsLocked d' = false.
Proof.
  intros Hh Ho c'. destruct (list_law d pw c Hh) as (l & El & Hl). unfold mbind, action_bind. rewrite El.
  assert (∃ d1, (if bool_decide (subsBucket ∈ l) then mret () else ss_CreateBucket subsBucket) d = (d1, Ret ()) ∧
    holds d1 pw (<[subsBucket := default ∅ (c !! subsBucket)]> c) ∧ ss_IsLocked d1 = false) as (d1 & -> & Hh1 & Ho1).
  { case_bool_decide as Hb.
    - apply Hl in Hb as [m Hm]. exists d. rewrite Hm. cbn. by rewrite insert_id.
    - destruct (bucket_law d pw c subsBucket Hh Ho) as (d1 & ? & ? & ?); [done|]. by exists d1. }
  case_bool_decide as Hb.
  - apply Hl in Hb as [m Hm]. exists d1. unfold c'. rewrite Hm. cbn. rewrite insert_id; [done|]. by rewrite lookup_insert_ne.
  - destruct (bucket_law d1 pw _ subsByEventBucket Hh1 Ho1) as (d2 & ? & ? & Hh2); [done|].
    rewrite lookup_insert_ne in Hh2 by done. by exists d2.
Qed.

Lemma holds_existing s pw subs c m : rep_in s pw subs c m →
  <[subsByEventBucket := default ∅ (c !! subsByEventBucket)]> (<[subsBucket := default ∅ (c !! subsBucket)]> c) = c.
Proof.
  intros [_ _ Hs He _ _]. rewrite Hs, He. cbn. rewrite (insert_id c subsBucket) by done. by rewrite insert_id.
Qed.

Lemma init_ok (d : S) w pw : blank d → ∃ d1 d2, store_Init pw d = (d1, Ret ()) ∧ ss_IsLocked d1 = true ∧
  store_Unlock pw d1 = (d2, Ret ()) ∧ rep {| store := d2; net := w |} pw ∅.
Proof.
  intros Hb. destruct (create_law d pw Hb) as (d0 & E0 & Hh0 & Ho0).
  destruct (unlock_buckets d0 pw ∅ Hh0 Ho0) as (d1 & E1 & Hh1 & Ho1).
  destruct (buckets_ok d1 pw _ Hh1 Ho1) as (d2 & E2 & Hh2 & Ho2).
  rewrite lookup_insert_eq in Hh2. rewrite lookup_insert_ne, lookup_insert_eq in Hh2 by done.
  destruct (lock_law _ _ _ Hh2) as [Hh3 Hl3].
  destruct (unlock_law _ _ _ Hh3) as (d4 & E4 & Hh4 & Ho4).
  destruct (unlock_buckets d4 pw _ Hh4 Ho4) as (d5 & E5 & Hh5 & Ho5).
  exists (ss_Lock d2), d5. split_and!.
  - unfold store_Init, store_Unlock, defer_Lock. unfold mbind, action_bind in E1, E2 |- *. by rewrite E0, E1, E2.
  - done.
  - unfold store_Unlock. unfold mbind, action_bind in E5 |- *. by rewrite E4, E5.
  - eexists _, ∅. split; cbn; [done|done| | | |].
    + rewrite lookup_insert_ne, lookup_insert_eq by done. by rewrite lookup_insert_ne, lookup_insert_eq.
    + rewrite lookup_insert_eq. by rewrite lookup_insert_eq.
    + done.
    + intros t. by exists [].
Qed.

Lemma relock_ok (d : S) w w' pw subs : rep {| store := d; net := w |} pw subs →
  ss_IsLocked (ss_Lock d) = true ∧
  (∀ pw', pw' ≠ pw → ∃ e, store_Unlock pw' (ss_Lock d) = (ss_Lock d, Err e)) ∧
  ∃ d1, store_Unlock pw (ss_Lock d) = (d1, Ret ()) ∧ rep {| store := d1; net := w' |} pw subs.
Proof.
  intros (c & m & Hr). destruct (lock_law _ _ _ (rep_holds _ _ _ _ _ Hr)) as [Hh Hl]. cbn in Hh, Hl. split_and!.
  - done.
  - intros pw' Hne. destruct (unlock_wrong_law _ _ _ _ Hh Hl Hne) as [e E]. exists e.
    unfold store_Unlock, mbind, action_bind. by rewrite E.
  - destruct (unlock_law _ _ _ Hh) as (d0 & E0 & Hh0 & Ho0).
    destruct (unlock_buckets d0 pw c Hh0 Ho0) as (d1 & E1 & Hh1 & Ho1). rewrite (holds_existing _ _ _ _ _ Hr) in Hh1.
    exists d1. split; [unfold store_Unlock; unfold mbind, action_bind in E1 |- *; by rewrite E0, E1|].
    exists c, m. destruct Hr. by split.
Qed.

(** the webhooks survive locking.  Init sets up a store that was never used,
    leaves it locked, and the same password then unlocks it with no webhooks; an
    unlocked store that is locked refuses every other password and gives back all
    its webhooks for the right one. *)
Theorem webhooks_survive_locking (d : S) w pw subs :
  (blank d → ∃ d1 d2, store_Init pw d = (d1, Ret ()) ∧ ss_IsLocked d1 = true ∧
     store_Unlock pw d1 = (d2, Ret ()) ∧ rep {| store := d2; net := w |} pw ∅) ∧
  (rep {| store := d; net := w |} pw subs →
     (∀ pw', pw' ≠ pw → ∃ e, store_Unlock pw' (ss_Lock d) = (ss_Lock d, Err e)) ∧
     ∃ d1, store_Unlock pw (ss_Lock d) = (d1, Ret ()) ∧ rep {| store := d1; net := w |} pw subs).
Proof.
  split.
  - apply init_ok.
  - intros Hr. by destruct (relock_ok d w w pw subs Hr) as (_ & ? & ?).
Qed.
End publish.

(** * A concrete service *)
Module PubsubExamples.
Import SecureStoreExamples.

(** A text without the separator from which a subscription can be read back. *)
Fixpoint digits (p : positive) : bytes :=
  match p with xH => [2] | xO p => 0 :: digits p | xI p => 1 :: digits p end%Z.
Fixpoint undigits (b : bytes) : option positive :=
  match b with
  | [] => None
  | z :: b => if bool_decide (z = 2%Z) then Some xH
              else (if bool_decide (z = 0%Z) then xO else xI) <$> undigits b
  end.
Lemma undigits_digits p : undigits (digits p) = Some p.
Proof. induction p as [p IH|p IH|]; cbn; by rewrite ?IH. Qed.
Lemma digits_small p : Forall (λ z, z ≤ 2)%Z (digits p).
Proof. induction p; cbn; constructor; auto; lia. Qed.
Definition of_tuple (t : string * string * string * string) : Subscription :=
  let '(i, e, u, k) := t in {| ID := i; Event := e; Endpoint := u; Secret := k |}.
Definition to_tuple (x : Subscription) := (ID x, Event x, Endpoint x, Secret x).
#[export] Instance toy_json : SubscriptionJSON := {
  Serialize x := digits (encode (to_tuple x));
  NewSubscriptionFromBytes b :=
    match undigits b with
    | Some p => match decode p with Some t => Ret (of_tuple t) | None => Err (Errorf "json") end
    | None => Err (Errorf "json")
    end;
}.
#[export] Instance toy_json_laws : SubscriptionJSONLaws.
Proof.
  refine {| valid_utf8 _ := True |}; cbn.
  - intros [] _. by rewrite undigits_digits, decode_encode.
  - intros x. by destruct (encode (to_tuple x)).
  - intros x Hin. pose proof (digits_small (encode (to_tuple x))) as Hs. rewrite Forall_forall in Hs.
    apply Hs in Hin. lia.
Defined.

(** Every endpoint answers 200. *)
Abbreviation wire := (list (Request * outcome error (Z * string))).
#[export] Instance toy_network : Network wire := {
  post url payload h w :=
    let a := Ret (200%Z, "ok"%string) in
    (w ++ [({| req_url := url; req_payload := payload; req_headers := h |}, a)], a);
  cb_Execute m := m;
  SignedString secret := secret;
}.
#[export] Instance toy_network_laws : NetworkLaws wire.
Proof.
  refine {| sent w := w; cb_closed _ := True |}; cbn.
  - intros url payload h w w' o [= <- <-]. done.
  - intros m w w' o E. right. eauto.
Defined.

#[export] Instance toy_storage : SecureStorage (boltSecureStorage tree key) := bolt_storage (λ _, 0%Z).
#[export] Instance toy_storage_laws : SecureStorageLaws (boltSecureStorage tree key) := bolt_storage_laws (λ _, 0%Z).

Definition pw : bytes := [7; 7]%Z.
Definition s0 : service (boltSecureStorage tree key) wire :=
  {| store := fst (store_Unlock pw (fst (store_Init pw fresh))); net := [] |}.
Lemma fresh_blank : blank fresh.
Proof. by split_and!. Qed.
Lemma s0_rep : rep s0 pw ∅.
Proof.
  destruct (init_ok fresh ([] : wire) pw fresh_blank) as (d1 & d2 & E1 & _ & E2 & Hr). unfold s0. rewrite E1. cbn [fst]. rewrite E2. exact Hr.
Qed.
Definition hook : Subscription :=
  {| ID := "id1"; Event := "TRADE_SETTLED"; Endpoint := "http://localhost"; Secret := "" |}.
Definition s1 : service (boltSecureStorage tree key) wire := fst (addSubscription hook s0).
Lemma s1_rep : rep s1 pw {["id1"%string := hook]}.
Proof.
  assert (wf_sub "id1" hook) as Hw by (by split_and!).
  destruct (add_ok s0 pw ∅ hook s0_rep Hw) as (d & E & _ & Hr). unfold s1. by rewrite E.
Qed.


Lemma publish_reaches_subscribers_witness :
  rep s1 pw {["id1"%string := hook]} ∧ ∃ s' o, Publish "TRADE_SETTLED" "{}" s1 = (s', o) ∧ store s' = store s1.
Proof.
  split; [exact s1_rep|]. destruct (Publish "TRADE_SETTLED" "{}" s1) as [s' o] eqn:E. exists s', o. split; [reflexivity|].
  apply (publish_reaches_subscribers s1 pw {["id1"%string := hook]} "TRADE_SETTLED" "{}" s' o s1_rep);
    [split; discriminate | exact E].
Defined.
Example published :
  (λ so, ((req_url ∘ fst) <$> net (fst so), snd so)) (Publish "TRADE_SETTLED" "{}" s1) = (["http://localhost"%string], Ret ()).
Proof. vm_compute. reflexivity. Qed.

(** webhooks_survive_locking has no hypothesis; on the service above: *)
Example relocked :
  snd (ListSubscriptionsForTopic "" {| store := fst (store_Unlock pw (ss_Lock (store s1))); net := net s1 |}) = Ret [hook].
Proof. vm_compute. reflexivity. Qed.
End PubsubExamples.
