(* ===== verification/Macaroons.v ===== *)
(** Access control: pkg/macaroons, internal/interfaces/grpc/permissions and
    internal/interfaces/grpc/interceptor.

    The bakery (macaroon-bakery and macaroon) is the class [Bakery]; the root keys
    are kept in a bolt database, encrypted ([Bolt], [Snacl] of SecureStore.v).
    encoding/hex is modelled. *)

From Stdlib Require Import ZArith Lia Ascii.
From stdpp Require Import base tactics strings list gmap.
From S2P Require Import Prelude Errors Decimal Market Trade Repos SecureStore Pubsub.
Local Open Scope nat_scope.

(** * Permissions *)

(** bakery.Op *)
Record Op := { Entity : string; Action : string }.
#[global] Instance Op_eq_dec : EqDecision Op.
Proof. solve_decision. Defined.
Definition op (e a : string) : Op := {| Entity := e; Action := a |}.

Definition EntityOperator : string := "operator".
Definition EntityTrade : string := "trade".
Definition EntityMarket : string := "market".
Definition EntityPrice : string := "price".
Definition EntityUnlocker : string := "unlocker".
Definition EntityWallet : string := "wallet".
Definition EntityWebhook : string := "webhook".
Definition EntityTransport : string := "transport".
Definition EntityReflection : string := "reflection".
Definition EntityHealth : string := "health".
Definition EntityFeeder : string := "feeder".

(** The names of the gRPC services. *)
Definition WalletService : string := "tdex_daemon.v2.WalletService".
Definition OperatorService : string := "tdex_daemon.v2.OperatorService".
Definition WebhookService : string := "tdex_daemon.v2.WebhookService".
Definition FeederService : string := "tdex_daemon.v2.FeederService".
Definition TradeService : string := "tdex.v2.TradeService".
Definition TransportService : string := "tdex.v2.TransportService".
Definition full_method (service method : string) : string := "/" +:+ service +:+ "/" +:+ method.

Definition MarketPermissions : list Op :=
  [op EntityMarket "read";
   op EntityMarket "write";
   op EntityPrice "read";
   op EntityPrice "write"].
Definition PricePermissions : list Op :=
  [op EntityPrice "read";
   op EntityPrice "write"].
Definition ReadOnlyPermissions : list Op :=
  [op EntityOperator "read";
   op EntityMarket "read";
   op EntityPrice "read";
   op EntityWallet "read";
   op EntityWebhook "read";
   op EntityFeeder "read"].
Definition WalletPermissions : list Op :=
  [op EntityWallet "read";
   op EntityWallet "write"].
Definition WebhookPermissions : list Op :=
  [op EntityWebhook "read";
   op EntityWebhook "write"].
Definition AdminPermissions : list Op :=
  [op EntityOperator "read";
   op EntityOperator "write";
   op EntityMarket "read";
   op EntityMarket "write";
   op EntityPrice "read";
   op EntityPrice "write";
   op EntityWebhook "read";
   op EntityWebhook "write";
   op EntityWallet "read";
   op EntityWallet "write";
   op EntityFeeder "read";
   op EntityFeeder "write"].
(** The services of the reflection and health packages are named there. *)
Section whitelist.
Variables ReflectionService Health : string.
Definition Whitelist_entries : list (string * list Op) :=
  [(full_method WalletService "GetStatus", [op EntityUnlocker "read"]);
   (full_method WalletService "GetInfo", [op EntityUnlocker "read"]);
   (full_method WalletService "GenSeed", [op EntityUnlocker "read"]);
   (full_method WalletService "InitWallet", [op EntityUnlocker "write"]);
   (full_method WalletService "UnlockWallet", [op EntityUnlocker "write"]);
   (full_method WalletService "LockWallet", [op EntityUnlocker "write"]);
   (full_method WalletService "ChangePassword", [op EntityUnlocker "write"]);
   (full_method TradeService "ListMarkets", [op EntityTrade "read"]);
   (full_method TradeService "GetMarketBalance", [op EntityTrade "read"]);
   (full_method TradeService "GetMarketPrice", [op EntityTrade "read"]);
   (full_method TradeService "PreviewTrade", [op EntityTrade "read"]);
   (full_method TradeService "ProposeTrade", [op EntityTrade "write"]);
   (full_method TradeService "CompleteTrade", [op EntityTrade "write"]);
   (full_method TransportService "SupportedContentTypes", [op EntityTransport "read"]);
   (full_method ReflectionService "GetInfo", [op EntityReflection "read"]);
   (full_method Health "Check", [op EntityHealth "read"])].
Definition Whitelist : gmap string (list Op) := list_to_map Whitelist_entries.
End whitelist.
Definition AllPermissionsByMethod_entries : list (string * list Op) :=
  [(full_method OperatorService "DeriveFeeAddresses", [op EntityMarket "write"]);
   (full_method OperatorService "ListFeeAddresses", [op EntityMarket "read"]);
   (full_method OperatorService "GetFeeBalance", [op EntityMarket "read"]);
   (full_method OperatorService "WithdrawFee", [op EntityOperator "write"]);
   (full_method OperatorService "NewMarket", [op EntityMarket "write"]);
   (full_method OperatorService "GetMarketInfo", [op EntityMarket "read"]);
   (full_method OperatorService "DeriveMarketAddresses", [op EntityMarket "write"]);
   (full_method OperatorService "ListMarketAddresses", [op EntityMarket "read"]);
   (full_method OperatorService "OpenMarket", [op EntityMarket "write"]);
   (full_method OperatorService "CloseMarket", [op EntityMarket "write"]);
   (full_method OperatorService "DropMarket", [op EntityOperator "write"]);
   (full_method OperatorService "GetMarketReport", [op EntityMarket "read"]);
   (full_method OperatorService "WithdrawMarket", [op EntityOperator "write"]);
   (full_method OperatorService "UpdateMarketPercentageFee", [op EntityMarket "write"]);
   (full_method OperatorService "UpdateMarketFixedFee", [op EntityMarket "write"]);
   (full_method OperatorService "UpdateMarketPrice", [op EntityPrice "write"]);
   (full_method OperatorService "UpdateMarketAssetsPrecision", [op EntityMarket "write"]);
   (full_method OperatorService "UpdateMarketStrategy", [op EntityMarket "write"]);
   (full_method OperatorService "DeriveFeeFragmenterAddresses", [op EntityMarket "write"]);
   (full_method OperatorService "ListFeeFragmenterAddresses", [op EntityMarket "read"]);
   (full_method OperatorService "GetFeeFragmenterBalance", [op EntityMarket "read"]);
   (full_method OperatorService "FeeFragmenterSplitFunds", [op EntityMarket "write"]);
   (full_method OperatorService "WithdrawFeeFragmenter", [op EntityMarket "write"]);
   (full_method OperatorService "DeriveMarketFragmenterAddresses", [op EntityMarket "write"]);
   (full_method OperatorService "ListMarketFragmenterAddresses", [op EntityMarket "read"]);
   (full_method OperatorService "GetMarketFragmenterBalance", [op EntityMarket "read"]);
   (full_method OperatorService "MarketFragmenterSplitFunds", [op EntityMarket "write"]);
   (full_method OperatorService "WithdrawMarketFragmenter", [op EntityMarket "write"]);
   (full_method OperatorService "ListMarkets", [op EntityPrice "read"]);
   (full_method OperatorService "ListTrades", [op EntityMarket "read"]);
   (full_method OperatorService "ListDeposits", [op EntityMarket "read"]);
   (full_method OperatorService "ListWithdrawals", [op EntityMarket "read"]);
   (full_method OperatorService "ListUtxos", [op EntityOperator "read"]);
   (full_method WebhookService "AddWebhook", [op EntityWebhook "write"]);
   (full_method WebhookService "RemoveWebhook", [op EntityWebhook "write"]);
   (full_method WebhookService "ListWebhooks", [op EntityWebhook "read"]);
   (full_method FeederService "AddPriceFeed", [op EntityFeeder "write"]);
   (full_method FeederService "StartPriceFeed", [op EntityFeeder "write"]);
   (full_method FeederService "StopPriceFeed", [op EntityFeeder "write"]);
   (full_method FeederService "UpdatePriceFeed", [op EntityFeeder "write"]);
   (full_method FeederService "RemovePriceFeed", [op EntityFeeder "write"]);
   (full_method FeederService "GetPriceFeed", [op EntityFeeder "read"]);
   (full_method FeederService "ListPriceFeeds", [op EntityFeeder "read"]);
   (full_method FeederService "ListSupportedPriceSources", [op EntityFeeder "read"])].
Definition AllPermissionsByMethod : gmap string (list Op) := list_to_map AllPermissionsByMethod_entries.

(** internal/interfaces/grpc/service.go: the macaroons written to disk. *)
Definition AdminMacaroonFile : string := "admin.macaroon".
Definition ReadOnlyMacaroonFile : string := "readonly.macaroon".
Definition MarketMacaroonFile : string := "market.macaroon".
Definition PriceMacaroonFile : string := "price.macaroon".
Definition WalletMacaroonFile : string := "wallet.macaroon".
Definition WebhookMacaroonFile : string := "webhook.macaroon".
Definition Macaroons : gmap string (list Op) := list_to_map
  [(AdminMacaroonFile, AdminPermissions);
   (ReadOnlyMacaroonFile, ReadOnlyPermissions);
   (MarketMacaroonFile, MarketPermissions);
   (PriceMacaroonFile, PricePermissions);
   (WebhookMacaroonFile, WebhookPermissions);
   (WalletMacaroonFile, WalletPermissions)].

(** The methods and streams of the services, as their descriptors list them. *)
Definition wallet_methods : list string := full_method WalletService <$>
  ["GenSeed"; "UnlockWallet"; "LockWallet"; "ChangePassword"; "GetStatus"; "GetInfo"; "InitWallet"]%string.
Definition operator_methods : list string := full_method OperatorService <$>
  ["DeriveFeeAddresses"; "ListFeeAddresses"; "GetFeeBalance"; "WithdrawFee"; "NewMarket"; "GetMarketInfo";
   "DeriveMarketAddresses"; "ListMarketAddresses"; "OpenMarket"; "CloseMarket"; "DropMarket"; "WithdrawMarket";
   "GetMarketReport"; "UpdateMarketPercentageFee"; "UpdateMarketFixedFee"; "UpdateMarketAssetsPrecision";
   "UpdateMarketPrice"; "UpdateMarketStrategy"; "DeriveFeeFragmenterAddresses"; "ListFeeFragmenterAddresses";
   "GetFeeFragmenterBalance"; "WithdrawFeeFragmenter"; "DeriveMarketFragmenterAddresses";
   "ListMarketFragmenterAddresses"; "GetMarketFragmenterBalance"; "WithdrawMarketFragmenter"; "ListMarkets";
   "ListTrades"; "ListUtxos"; "ListDeposits"; "ListWithdrawals"; "FeeFragmenterSplitFunds";
   "MarketFragmenterSplitFunds"]%string.
Definition webhook_methods : list string := full_method WebhookService <$> ["AddWebhook"; "RemoveWebhook"; "ListWebhooks"]%string.
Definition feeder_methods : list string := full_method FeederService <$>
  ["AddPriceFeed"; "StartPriceFeed"; "StopPriceFeed"; "UpdatePriceFeed"; "RemovePriceFeed"; "GetPriceFeed";
   "ListPriceFeeds"; "ListSupportedPriceSources"]%string.
Definition trade_methods : list string := full_method TradeService <$>
  ["ListMarkets"; "GetMarketBalance"; "GetMarketPrice"; "PreviewTrade"; "ProposeTrade"; "CompleteTrade"]%string.

(** * Root keys *)

Definition ErrAlreadyUnlocked : error := Errorf "macaroon store already unlocked".
Definition ErrMacaroonStoreLocked : error := Errorf "macaroon store is locked".
Definition ErrNonNilPasswordRequired : error := Errorf "a non-nil password is required".
Definition ErrKeyValueForbidden : error := Errorf "root key ID value is not allowed".
Definition ErrMacaroonEncKeyNotFound : error := Errorf "macaroon encryption key not found".
Definition ErrMissingRootKeyID : error := Errorf "missing root key ID".
Definition ErrContextRootKeyID : error := Errorf "failed to read root key ID from context".
Definition ErrDeletionForbidden : error := Errorf "the specified ID cannot be deleted".
Definition DefaultRootKeyID : string := "0".
Definition RootKeyLen : nat := 32.

Section root_keys.
Context {DB : Type} `{Bolt DB} {K : Type} `{Snacl K}.

Record RootKeyStorage := { rk_db : DB; rk_encKey : option K }.
Definition on_rdb {A} (m : action DB error A) : action RootKeyStorage error A := λ s,
  let '(d, o) := m (rk_db s) in ({| rk_db := d; rk_encKey := rk_encKey s |}, o).
Definition set_encKey (k : K) : action RootKeyStorage error () := λ s,
  ({| rk_db := rk_db s; rk_encKey := Some k |}, Ret ()).
(** [bucket.Get(id)], empty when there is none. *)
Definition stored (t : tree) (id : string) : bytes :=
  match t !! id with Some (Value v) => v | _ => [] end.
Definition rk_unlocked {A} (m : K → action RootKeyStorage error A) : action RootKeyStorage error A := λ s,
  match rk_encKey s with None => (s, Err ErrMacaroonStoreLocked) | Some k => m k s end.

(** [rnd] is the randomness of the new key. *)
Definition rk_CreateUnlock (rnd : Z) (password : option bytes) : action RootKeyStorage error () := λ s,
  match rk_encKey s, password with
  | Some _, _ => (s, Err ErrAlreadyUnlocked)
  | None, None => (s, Err ErrNonNilPasswordRequired)
  | None, Some pw =>
      match stored (db_tree (rk_db s)) encryptionKeyID with
      | [] =>
          let k := NewSecretKey rnd pw in
          (_ ← on_rdb (db_Update (bucket_put "" encryptionKeyID (Marshal k))); set_encKey k) s
      | dbKey =>
          match Unmarshal_DeriveKey dbKey pw with
          | Ret k => (_ ← on_rdb (db_Update Ret); set_encKey k) s
          | Err e => (s, Err e)
          | Panic p => (s, Panic p)
          end
      end
  end.

(** The root key of [DefaultRootKeyID] is the only one that is encrypted again. *)
Definition rk_ChangePassword (rnd : Z) (oldPw newPw : option bytes) : action RootKeyStorage error () :=
  match oldPw, newPw with
  | Some oldPw, Some newPw =>
      s ← get_state;
      let encKeyDb := stored (db_tree (rk_db s)) encryptionKeyID in
      let rootKeyDb := stored (db_tree (rk_db s)) DefaultRootKeyID in
      if bool_decide (encKeyDb = []) || bool_decide (rootKeyDb = []) then lift (Err ErrMacaroonEncKeyNotFound)
      else
        encKeyOld ← lift (Unmarshal_DeriveKey encKeyDb oldPw);
        let encKeyNew := NewSecretKey rnd newPw in
        rootKey ← lift (Decrypt encKeyOld rootKeyDb);
        _ ← on_rdb (db_Update (λ t,
          t ← bucket_put "" DefaultRootKeyID (Encrypt rnd encKeyNew rootKey) t;
          bucket_put "" encryptionKeyID (Marshal encKeyNew) t));
        set_encKey encKeyNew
  | _, _ => lift (Err ErrNonNilPasswordRequired)
  end.

Definition rk_Get (id : string) : action RootKeyStorage error bytes :=
  rk_unlocked (λ k,
    s ← get_state;
    match stored (db_tree (rk_db s)) id with
    | [] => lift (Err (Errorf "root key with id %s doesn't exist"))
    | dbKey => lift (Decrypt k dbKey)
    end).

(** The root key ID of a context; [fresh] are the random bytes of a new root key. *)
Definition RootKeyIDFromContext (id : option string) : outcome error string :=
  match id with
  | None => Err ErrContextRootKeyID
  | Some id => if bool_decide (id = "") then Err ErrMissingRootKeyID else Ret id
  end.
Definition generateAndStoreNewRootKey (rnd : Z) (fresh : bytes) (id : string) (k : K)
    : action RootKeyStorage error bytes :=
  _ ← on_rdb (db_Update (bucket_put "" id (Encrypt rnd k fresh)));
  mret fresh.
Definition rk_RootKey (rnd : Z) (fresh : bytes) (ctxId : option string)
    : action RootKeyStorage error (bytes * string) :=
  rk_unlocked (λ k,
    id ← lift (RootKeyIDFromContext ctxId);
    if bool_decide (id = encryptionKeyID) then lift (Err ErrKeyValueForbidden)
    else
      s ← get_state;
      match stored (db_tree (rk_db s)) id with
      | [] => rootKey ← generateAndStoreNewRootKey rnd fresh id k; mret (rootKey, id)
      | dbKey =>
          rootKey ← lift (Decrypt k dbKey);
          _ ← on_rdb (db_Update Ret);
          mret (rootKey, id)
      end).
Definition rk_GenerateNewRootKey (rnd : Z) (fresh : bytes) : action RootKeyStorage error () :=
  rk_unlocked (λ k, _ ← generateAndStoreNewRootKey rnd fresh DefaultRootKeyID k; mret ()).
Definition rk_ListMacaroonIDs : action RootKeyStorage error (list string) :=
  rk_unlocked (λ _, s ← get_state;
    mret (filter (λ id, id ≠ encryptionKeyID) (map_to_list (db_tree (rk_db s))).*1)).
(** None: there was no such key. *)
Definition rk_DeleteMacaroonID (rootKeyID : string) : action RootKeyStorage error (option string) :=
  rk_unlocked (λ _,
    if bool_decide (rootKeyID = "") then lift (Err ErrMissingRootKeyID)
    else if bool_decide (rootKeyID = encryptionKeyID) || bool_decide (rootKeyID = DefaultRootKeyID) then
      lift (Err ErrDeletionForbidden)
    else
      s ← get_state;
      match db_tree (rk_db s) !! rootKeyID with
      | Some (Value _) =>
          _ ← on_rdb (db_Update (bucket_delete "" rootKeyID));
          mret (Some rootKeyID)
      | _ => _ ← on_rdb (db_Update Ret); mret None
      end).
End root_keys.
Arguments RootKeyStorage DB K : clear implicits.

(** * encoding/hex *)

Definition hex_digit (n : Z) : ascii := ascii_of_nat (Z.to_nat (if n <? 10 then 48 + n else 87 + n))%Z.
Definition hex_value (c : ascii) : option Z :=
  let n := Z.of_nat (nat_of_ascii c) in
  (if (48 <=? n) && (n <=? 57) then Some (n - 48)
   else if (97 <=? n) && (n <=? 102) then Some (n - 87)
   else if (65 <=? n) && (n <=? 70) then Some (n - 55)
   else None)%Z.
Fixpoint hex_Encode (b : bytes) : string :=
  match b with
  | [] => EmptyString
  | z :: b => String (hex_digit (z / 16)) (String (hex_digit (z mod 16)) (hex_Encode b))
  end.
Fixpoint hex_Decode (s : string) : outcome error bytes :=
  match s with
  | EmptyString => Ret []
  | String c (String d r) =>
      match hex_value c, hex_value d with
      | Some x, Some y => b ← hex_Decode r; Ret (16 * x + y :: b)%Z
      | _, _ => Err (Errorf "encoding/hex: invalid byte")
      end
  | String _ EmptyString => Err (Errorf "encoding/hex: odd length hex string")
  end.

(** * The bakery *)

(** The first-party caveats of constraints.go: the Unix time in nanoseconds
    before which the macaroon is valid, the address it is locked to. *)
Inductive Caveat :=
  | TimeBefore (t : Z)
  | IpAddr (ip : string).

(** [Oven_NewMacaroon key id ops]; [Auth_Allow] looks up root keys and checks the
    "ipaddr" caveat with the functions it is given.  [incoming] are the values
    of the "macaroon" metadata of a request, [peer_host] the host of its peer.
    [ParseIP] is net.ParseIP with the canonical form of the address. *)
Class Bakery (Mac Ctx : Type) := {
  Oven_NewMacaroon : bytes → string → list Op → Mac;
  Auth_Allow : (string → outcome error bytes) → (Ctx → string → outcome error ()) → Ctx → Mac → list Op → outcome error ();
  MarshalBinary : Mac → bytes;
  UnmarshalBinary : bytes → outcome error Mac;
  AddFirstPartyCaveat : Caveat → Mac → Mac;
  incoming : Ctx → option (list string);
  peer_host : Ctx → outcome error string;
  now : Ctx → Z;
  ParseIP : string → option string;
}.

Section access.
Context {DB : Type} `{Bolt DB} {K : Type} `{Snacl K} {Mac Ctx : Type} `{Bakery Mac Ctx}.

Definition MacaroonValidator : Type := Ctx → list Op → string → outcome error ().
Record Service := { rks : RootKeyStorage DB K; ExternalValidators : gmap string MacaroonValidator }.

(** None: a nil validator. *)
Definition RegisterExternalValidator (fullMethod : string) (validator : option MacaroonValidator)
    : action Service error () := λ s,
  match validator with
  | None => (s, Err (Errorf "validator cannot be nil"))
  | Some v =>
      match ExternalValidators s !! fullMethod with
      | Some _ => (s, Err (Errorf "external validator for method %s already registered"))
      | None => ({| rks := rks s; ExternalValidators := <[fullMethod := v]> (ExternalValidators s) |}, Ret ())
      end
  end.

(** constraints.go *)
Definition IPLockChecker (ctx : Ctx) (arg : string) : outcome error () :=
  peerAddr ← peer_host ctx;
  if bool_decide (ParseIP arg = ParseIP peerAddr) then Ret ()
  else Err (Errorf "macaroon locked to different IP address").
Definition Constraint : Type := Mac → outcome error Mac.
Fixpoint AddConstraints (mac : Mac) (cs : list Constraint) : outcome error Mac :=
  match cs with [] => Ret mac | c :: cs => newMac ← c mac; AddConstraints newMac cs end.
(** [clock] is time.Now; the duration is an int64 of nanoseconds. *)
Definition TimeoutConstraint (clock seconds : Z) : Constraint := λ mac,
  Ret (AddFirstPartyCaveat (TimeBefore (clock + i64 (1000000000 * seconds))%Z) mac).
Definition IPLockConstraint (ipAddr : string) : Constraint := λ mac,
  if bool_decide (ipAddr = "") then Ret mac
  else match ParseIP ipAddr with
       | None => Err (Errorf "incorrect macaroon IP-lock address")
       | Some ip => Ret (AddFirstPartyCaveat (IpAddr ip) mac)
       end.

Definition PermissionEntityCustomURI : string := "uri".
Definition ValidateMacaroon (s : Service) (ctx : Ctx) (requiredPermissions : list Op) (fullMethod : string) : outcome error () :=
  match incoming ctx with
  | None => Err (Errorf "unable to get metadata from context")
  | Some [h] =>
      macBytes ← hex_Decode h;
      mac ← UnmarshalBinary macBytes;
      let allow := Auth_Allow (λ id, snd (rk_Get id (rks s))) IPLockChecker ctx mac in
      match allow requiredPermissions with
      | Err _ => allow [op PermissionEntityCustomURI fullMethod]
      | r => r
      end
  | Some _ => Err (Errorf "expected 1 macaroon, got %d")
  end.

Definition on_rks {A} (m : action (RootKeyStorage DB K) error A) : action Service error A := λ s,
  let '(r, o) := m (rks s) in ({| rks := r; ExternalValidators := ExternalValidators s |}, o).
Definition svc_NewMacaroon (rnd : Z) (fresh : bytes) (rootKeyID : string) (ops : list Op) : action Service error Mac :=
  if bool_decide (rootKeyID = "") then lift (Err ErrMissingRootKeyID)
  else '(key, id) ← on_rks (rk_RootKey rnd fresh (Some rootKeyID)); mret (Oven_NewMacaroon key id ops).
(** macaroon_utils.go *)
Definition bakeMacaroon (rnd : Z) (fresh : bytes) (permissions : list Op) : action Service error bytes :=
  mac ← svc_NewMacaroon rnd fresh DefaultRootKeyID permissions;
  mret (MarshalBinary mac).

(** interceptor/auth.go; the service is nil when macaroons are disabled. *)
Variables ReflectionService Health : string.
Definition checkMacaroon (ctx : Ctx) (fullMethod : string) (svc : option Service) : outcome error () :=
  match svc with
  | None => Ret ()
  | Some svc =>
      match Whitelist ReflectionService Health !! fullMethod with
      | Some _ => Ret ()
      | None =>
          match AllPermissionsByMethod !! fullMethod with
          | None => Err (Errorf "%s: unknown permissions required for method")
          | Some uriPermissions =>
              match ExternalValidators svc !! fullMethod with
              | Some validator => validator ctx uriPermissions fullMethod
              | None => ValidateMacaroon svc ctx uriPermissions fullMethod
              end
          end
      end
  end.
(** unaryMacaroonAuthHandler and streamMacaroonAuthHandler *)
Definition macaroonAuthHandler {X A} (svc : option Service) (ctx : Ctx) (fullMethod : string)
    (handler : action X error A) : action X error A :=
  _ ← lift (checkMacaroon ctx fullMethod svc); handler.
End access.
Arguments Service DB K Ctx : clear implicits.

(** * What the permissions grant *)

Definition granted (ops : list Op) (fullMethod : string) : bool :=
  match AllPermissionsByMethod !! fullMethod with
  | Some req => forallb (λ o, bool_decide (o ∈ ops)) req
  | None => false
  end.
Definition granted_methods (ops : list Op) : list string :=
  filter (λ m, granted ops m = true) AllPermissionsByMethod_entries.*1.

(** The last part of the name of a method. *)
Fixpoint after_slash (s : string) : option string :=
  match s with
  | EmptyString => None
  | String c r =>
      match after_slash r with
      | Some x => Some x
      | None => if bool_decide (c = "/"%char) then Some r else None
      end
  end.
Lemma after_slash_app s m : after_slash m = None → after_slash (s +:+ "/" +:+ m) = Some m.
Proof.
  intros Hm. induction s as [|c s IH].
  - change (after_slash (String "/" m) = Some m). cbn. by rewrite Hm, bool_decide_true.
  - change (String c s +:+ "/" +:+ m) with (String c (s +:+ "/" +:+ m)). cbn. by rewrite IH.
Qed.
Lemma after_slash_full s m : after_slash m = None → after_slash (full_method s m) = Some m.
Proof.
  intros Hm. unfold full_method. change ("/" +:+ s +:+ "/" +:+ m) with (String "/" (s +:+ "/" +:+ m)). cbn.
  by rewrite after_slash_app.
Qed.

Lemma whitelist_names refl health : (Whitelist_entries refl health).*1 =
  take 14 (Whitelist_entries "" "").*1 ++ [full_method refl "GetInfo"; full_method health "Check"].
Proof. reflexivity. Qed.

(** No restricted method is whitelisted, whatever the names of the reflection and
    health services are. *)
Lemma restricted_not_whitelisted refl health m : is_Some (AllPermissionsByMethod !! m) → Whitelist refl health !! m = None.
Proof.
  intros [req Hm]. apply elem_of_list_to_map_2 in Hm.
  assert (m ∈ AllPermissionsByMethod_entries.*1) as Hin by (apply list_elem_of_fmap; by exists (m, req)). clear Hm.
  apply not_elem_of_list_to_map_1. intros Hw.
  assert (Forall (λ m, m ∉ (Whitelist_entries "" "").*1 ∧ after_slash m ≠ Some "GetInfo"%string ∧ after_slash m ≠ Some "Check"%string)
    AllPermissionsByMethod_entries.*1) as Hall by (apply (bool_decide_unpack _); vm_compute; exact I).
  rewrite Forall_forall in Hall. destruct (Hall m Hin) as (Hn & H1 & H2).
  assert (m ∈ (Whitelist_entries "" "").*1 ∨ m = full_method refl "GetInfo" ∨ m = full_method health "Check") as [?|[->| ->]].
  { rewrite whitelist_names in Hw. apply elem_of_app in Hw as [Hw|Hw].
    - left. apply list_elem_of_lookup in Hw as [i [Hi _]%lookup_take_Some]. by eapply list_elem_of_lookup_2.
    - right. apply elem_of_cons in Hw as [?|Hw]; [by left|right]. by apply list_elem_of_singleton in Hw. }
  - done.
  - by rewrite after_slash_full in H1.
  - by rewrite after_slash_full in H2.
Qed.

(** The methods of the services that are neither open nor closed to everyone. *)
Definition restricted_methods : list string := operator_methods ++ webhook_methods ++ feeder_methods.
Definition withdraw_methods : list string := full_method OperatorService <$> ["WithdrawFee"; "WithdrawMarket"; "DropMarket"]%string.

(** A property of every element of a list, checked by evaluation. *)
Lemma by_check {A} (P : A → Prop) `{!∀ x, Decision (P x)} (l : list A) :
  forallb (λ x, bool_decide (P x)) l = true → ∀ x, x ∈ l → P x.
Proof.
  intros Hl x Hx. apply Is_true_true_2, forallb_True in Hl. rewrite Forall_forall in Hl.
  by apply (bool_decide_unpack _), Hl.
Qed.
Lemma same_names (l l' : list string) : bool_decide (NoDup l) && bool_decide (NoDup l') = true → length l' ≤ length l →
  forallb (λ x, bool_decide (x ∈ l')) l = true → l ≡ₚ l'.
Proof.
  intros [Hl Hl']%andb_prop Hlen Hin. apply bool_decide_eq_true in Hl, Hl'.
  apply submseteq_length_Permutation; [|lia]. apply NoDup_submseteq; [done|]. exact (by_check _ _ Hin).
Qed.
(** The action of the only permission a method needs. *)
Definition action_of (m : string) : option string :=
  match AllPermissionsByMethod !! m with Some [o] => Some (Action o) | _ => None end.
Lemma restricted_one m : m ∈ restricted_methods → ∃ e a, AllPermissionsByMethod !! m = Some [op e a].
Proof.
  intros Hm. assert (is_Some (action_of m)) as [a Ha] by (revert m Hm; apply (by_check _); by vm_compute).
  unfold action_of in Ha. destruct (AllPermissionsByMethod !! m) as [[|[e a'] [|]]|]; simplify_eq/=. by exists e, a.
Qed.

(** the permissions are complete and say what the macaroons are for.  The
    restricted methods are exactly those of the operator, webhook and feeder services,
    each needs exactly one permission and none is whitelisted; every method of the wallet and trade
    services is whitelisted.  The admin macaroon grants every restricted method;
    the read-only one grants exactly those that need a read permission; the
    price one exactly the list of markets and the update of a price; the webhook
    one exactly the webhook methods; the market one never a withdrawal from the fee
    account or from a market, nor dropping a market. *)
Theorem permissions_correct refl health :
  AllPermissionsByMethod_entries.*1 ≡ₚ restricted_methods ∧
  (∀ m, m ∈ restricted_methods → ∃ e a, AllPermissionsByMethod !! m = Some [op e a] ∧ Whitelist refl health !! m = None) ∧
  (∀ m, m ∈ wallet_methods ++ trade_methods → is_Some (Whitelist refl health !! m)) ∧
  granted_methods AdminPermissions ≡ₚ restricted_methods ∧
  (∀ m, m ∈ granted_methods ReadOnlyPermissions ↔ ∃ e, AllPermissionsByMethod !! m = Some [op e "read"]) ∧
  granted_methods PricePermissions ≡ₚ full_method OperatorService <$> ["ListMarkets"; "UpdateMarketPrice"]%string ∧
  granted_methods WebhookPermissions ≡ₚ webhook_methods ∧
  (∀ m, m ∈ withdraw_methods → m ∉ granted_methods MarketPermissions).
Proof.
  split_and!.
  - by apply same_names; vm_compute.
  - intros m Hm. destruct (restricted_one m Hm) as (e & a & Ha). exists e, a. split; [done|].
    apply restricted_not_whitelisted. by rewrite Ha.
  - intros m Hm. assert (m ∈ take 14 (Whitelist_entries "" "").*1) as Hin by (revert m Hm; apply (by_check _); by vm_compute).
    destruct (Whitelist refl health !! m) eqn:E; [by eexists|]. apply not_elem_of_list_to_map_2 in E.
    destruct E. rewrite whitelist_names. apply elem_of_app. by left.
  - by apply same_names; vm_compute.
  - intros m. split.
    + intros Hm. assert (action_of m = Some "read"%string) as Ha by (revert m Hm; apply (by_check _); by vm_compute).
      unfold action_of in Ha. destruct (AllPermissionsByMethod !! m) as [[|[e a] [|]]|]; simplify_eq/=. by exists e.
    + intros [e He]. pose proof (elem_of_list_to_map_2 _ _ _ He) as Hin.
      assert (∀ me, me ∈ AllPermissionsByMethod_entries → action_of me.1 = Some "read"%string → me.1 ∈ granted_methods ReadOnlyPermissions)
        as Hall by (apply (by_check (λ me : string * list Op, action_of me.1 = Some "read"%string → me.1 ∈ granted_methods ReadOnlyPermissions)); by vm_compute).
      apply (Hall _ Hin). unfold action_of. cbn [fst]. by rewrite He.
  - by apply same_names; vm_compute.
  - by apply same_names; vm_compute.
  - apply (by_check _). by vm_compute.
Qed.

(** * Root keys are a map *)
Section root_key_theorems.
Context {DB : Type} `{!Bolt DB} `{!BoltLaws DB} {K : Type} `{!Snacl K} `{!SnaclLaws K}.
Abbreviation Rk := (RootKeyStorage DB K).
Implicit Types (s : Rk) (keys : gmap string bytes).

(** The store was set up with [pw] and keeps the root keys [keys]. *)
Record rk_rep s (rnd : Z) (pw : bytes) keys : Prop := {
  rk_enc : db_tree (rk_db s) !! encryptionKeyID = Some (Value (Marshal (NewSecretKey rnd pw)));
  rk_avail : db_available (rk_db s);
  rk_mem : rk_encKey s = None ∨ rk_encKey s = Some (NewSecretKey rnd pw);
  rk_ids : keys !! encryptionKeyID = None ∧ keys !! ""%string = None;
  rk_keys id : id ≠ encryptionKeyID →
    match keys !! id with
    | Some v => ∃ r, db_tree (rk_db s) !! id = Some (Value (Encrypt r (NewSecretKey rnd pw) v))
    | None => db_tree (rk_db s) !! id = None
    end;
}.
Definition rk_open s rnd pw keys : Prop := rk_rep s rnd pw keys ∧ rk_encKey s = Some (NewSecretKey rnd pw).

Lemma stored_id s rnd pw keys id : rk_rep s rnd pw keys → id ≠ encryptionKeyID →
  match keys !! id with
  | Some v => ∃ r z c, stored (db_tree (rk_db s)) id = z :: c ∧ z :: c = Encrypt r (NewSecretKey rnd pw) v
  | None => stored (db_tree (rk_db s)) id = []
  end.
Proof.
  intros Hr Hid. pose proof (rk_keys _ _ _ _ Hr id Hid) as Hk. unfold stored.
  destruct (keys !! id) as [v|]; [|by rewrite Hk]. destruct Hk as [r ->]. exists r.
  pose proof (encrypt_nonempty r (NewSecretKey rnd pw) v). destruct (Encrypt r (NewSecretKey rnd pw) v) as [|z c]; [done|]. eauto.
Qed.

Lemma rk_Get_ok s rnd pw keys id : rk_open s rnd pw keys → id ≠ encryptionKeyID →
  rk_Get id s = (s, match keys !! id with Some v => Ret v | None => Err (Errorf "root key with id %s doesn't exist") end).
Proof.
  intros [Hr Hk] Hid. pose proof (stored_id _ _ _ _ _ Hr Hid) as Hst.
  unfold rk_Get, rk_unlocked, mbind, action_bind, get_state, lift. rewrite Hk.
  destruct (keys !! id) as [v|]; [|by rewrite Hst]. destruct Hst as (r & z & c & -> & ->). by rewrite decrypt_encrypt.
Qed.

(** Writing a root key, and a transaction that changes nothing. *)
Lemma rk_put s rnd pw keys id r v : rk_open s rnd pw keys → good_key id →
  ∃ s', on_rdb (db_Update (bucket_put "" id (Encrypt r (NewSecretKey rnd pw) v))) s = (s', Ret ()) ∧
    rk_open s' rnd pw (<[id := v]> keys).
Proof.
  intros [Hr Hk] [Hid0 Hid1]. unfold on_rdb.
  destruct (db_Update (bucket_put "" id (Encrypt r (NewSecretKey rnd pw) v)) (rk_db s)) as [d o] eqn:E.
  destruct (avail_db _ _ _ _ (rk_avail _ _ _ _ Hr) E) as [Ha Ho]. unfold bucket_put in Ho.
  rewrite (bool_decide_false (id = ""%string)), bool_decide_true in Ho by done.
  pose proof (rk_keys _ _ _ _ Hr id Hid1) as Hold.
  assert (o = Ret () ∧ db_tree d = <[id := Value (Encrypt r (NewSecretKey rnd pw) v)]> (db_tree (rk_db s))) as [-> Ht].
  { destruct (keys !! id); [destruct Hold as [r' Hold]|]; by rewrite Hold in Ho. }
  eexists. split; [done|]. split; [|done]. split; cbn.
  - rewrite Ht, lookup_insert_ne by done. apply Hr.
  - done.
  - apply Hr.
  - rewrite !lookup_insert_ne by done. apply Hr.
  - intros id' Hid'. rewrite Ht. destruct (decide (id' = id)) as [->|].
    + rewrite !lookup_insert_eq. by exists r.
    + rewrite !lookup_insert_ne by done. by apply (rk_keys _ _ _ _ Hr).
Qed.
Lemma rk_touch s rnd pw keys : rk_open s rnd pw keys →
  ∃ s', on_rdb (db_Update Ret) s = (s', Ret ()) ∧ rk_open s' rnd pw keys.
Proof.
  intros [Hr Hk]. unfold on_rdb. destruct (db_Update Ret (rk_db s)) as [d o] eqn:E.
  destruct (avail_db _ _ _ _ (rk_avail _ _ _ _ Hr) E) as [Ha [-> Ht]]. eexists. split; [done|]. split; [|done].
  destruct Hr. split; cbn; rewrite ?Ht; done.
Qed.

Lemma rk_RootKey_ok s rnd pw keys r fresh id : rk_open s rnd pw keys → good_key id →
  ∃ s' key, rk_RootKey r fresh (Some id) s = (s', Ret (key, id)) ∧ key = default fresh (keys !! id) ∧
    rk_open s' rnd pw (<[id := key]> keys).
Proof.
  intros Ho Hid. pose proof Ho as [Hr Hk]. pose proof (stored_id _ _ _ _ _ Hr (proj2 Hid)) as Hst.
  unfold rk_RootKey, rk_unlocked, RootKeyIDFromContext, generateAndStoreNewRootKey, mbind, action_bind, get_state, lift.
  rewrite Hk, bool_decide_false by apply Hid. rewrite bool_decide_false by apply Hid.
  destruct (keys !! id) as [v|] eqn:Ev.
  - destruct Hst as (r' & z & c & -> & ->). rewrite decrypt_encrypt. destruct (rk_touch _ _ _ _ Ho) as (s' & -> & Ho').
    exists s', v. by rewrite insert_id.
  - rewrite Hst. destruct (rk_put _ _ _ _ id r fresh Ho Hid) as (s' & -> & Ho'). by exists s', fresh.
Qed.

(** Deleting a root key. *)
Lemma rk_Delete_ok s rnd pw keys id : rk_open s rnd pw keys → good_key id → id ≠ DefaultRootKeyID →
  ∃ s', rk_DeleteMacaroonID id s = (s', Ret ((λ _, id) <$> keys !! id)) ∧ rk_open s' rnd pw (delete id keys).
Proof.
  intros Ho Hid Hdef. pose proof Ho as [Hr Hk]. pose proof (rk_keys _ _ _ _ Hr id (proj2 Hid)) as Hold.
  unfold rk_DeleteMacaroonID, rk_unlocked, mbind, action_bind, get_state. rewrite Hk, bool_decide_false by apply Hid.
  rewrite (bool_decide_false (id = encryptionKeyID)), (bool_decide_false (id = DefaultRootKeyID)) by (done || apply Hid).
  cbn [orb]. destruct (keys !! id) as [v|] eqn:Ev.
  - destruct Hold as [r Hold]. rewrite Hold. unfold on_rdb.
    destruct (db_Update (bucket_delete "" id) (rk_db s)) as [d o] eqn:E.
    destruct (avail_db _ _ _ _ (rk_avail _ _ _ _ Hr) E) as [Ha Ho']. unfold bucket_delete in Ho'.
    rewrite bool_decide_true, Hold in Ho' by done. destruct Ho' as [-> Ht].
    eexists. split; [done|]. split; [|done]. split; cbn; rewrite ?Ht.
    + rewrite lookup_delete_ne by apply Hid. apply Hr.
    + done.
    + apply Hr.
    + rewrite !lookup_delete_None. destruct (rk_ids _ _ _ _ Hr). auto.
    + intros id' Hid'. destruct (decide (id' = id)) as [->|]; [by rewrite !lookup_delete_eq|].
      rewrite !lookup_delete_ne by done. by apply (rk_keys _ _ _ _ Hr).
  - rewrite Hold. destruct (rk_touch _ _ _ _ Ho) as (s' & -> & Ho'). exists s'. by rewrite delete_id.
Qed.

(** the root keys are a map from IDs.  RootKey gives the key of an ID and
    makes one when there is none, which Get then finds; a new default key replaces the
    old one only; deleting an ID removes its key only, and the default key and the
    encryption key cannot be deleted; a locked store gives nothing. *)
Theorem root_keys_refine s rnd pw keys r fresh id :
  rk_open s rnd pw keys → good_key id →
  (∃ s' key, rk_RootKey r fresh (Some id) s = (s', Ret (key, id)) ∧ key = default fresh (keys !! id) ∧
     rk_open s' rnd pw (<[id := key]> keys) ∧ rk_Get id s' = (s', Ret key)) ∧
  (∃ s', rk_GenerateNewRootKey r fresh s = (s', Ret ()) ∧ rk_open s' rnd pw (<[DefaultRootKeyID := fresh]> keys)) ∧
  (id ≠ DefaultRootKeyID →
     ∃ s', rk_DeleteMacaroonID id s = (s', Ret ((λ _, id) <$> keys !! id)) ∧ rk_open s' rnd pw (delete id keys)) ∧
  rk_DeleteMacaroonID DefaultRootKeyID s = (s, Err ErrDeletionForbidden) ∧
  rk_DeleteMacaroonID encryptionKeyID s = (s, Err ErrDeletionForbidden) ∧
  (∀ s', rk_encKey s' = None → rk_Get id s' = (s', Err ErrMacaroonStoreLocked) ∧
     rk_RootKey r fresh (Some id) s' = (s', Err ErrMacaroonStoreLocked)).
Proof.
  intros Ho Hid. split_and!.
  - destruct (rk_RootKey_ok _ _ _ _ r fresh id Ho Hid) as (s' & key & E & Hkey & Ho'). exists s', key.
    rewrite (rk_Get_ok _ _ _ _ _ Ho' (proj2 Hid)), lookup_insert_eq. done.
  - unfold rk_GenerateNewRootKey, rk_unlocked, generateAndStoreNewRootKey, mbind, action_bind. rewrite (proj2 Ho).
    destruct (rk_put _ _ _ _ DefaultRootKeyID r fresh Ho) as (s' & -> & Ho'); [by split|]. by exists s'.
  - by apply rk_Delete_ok.
  - unfold rk_DeleteMacaroonID, rk_unlocked. by rewrite (proj2 Ho).
  - unfold rk_DeleteMacaroonID, rk_unlocked. by rewrite (proj2 Ho).
  - intros s' Hl. unfold rk_Get, rk_RootKey, rk_unlocked. by rewrite Hl.
Qed.

Lemma root_put id (t : tree) c c' (Hid : id ≠ ""%string) : t !! id = Some (Value c') →
  bucket_put "" id c t = Ret (<[id := Value c]> t).
Proof. intros Ht. unfold bucket_put. by rewrite bool_decide_false, bool_decide_true, Ht by done. Qed.
(** Changing the password keeps the default root key and loses every other one. *)
Lemma change_password_run s rnd pw keys r pw' v : rk_rep s rnd pw keys → keys !! DefaultRootKeyID = Some v →
  ∃ s', rk_ChangePassword r (Some pw) (Some pw') s = (s', Ret ()) ∧ rk_encKey s' = Some (NewSecretKey r pw') ∧
    db_available (rk_db s') ∧
    db_tree (rk_db s') = <[encryptionKeyID := Value (Marshal (NewSecretKey r pw'))]>
      (<[DefaultRootKeyID := Value (Encrypt r (NewSecretKey r pw') v)]> (db_tree (rk_db s))).
Proof.
  intros Hr Hv. pose proof (stored_id _ _ _ _ DefaultRootKeyID Hr) as Hst. rewrite Hv in Hst.
  destruct Hst as (r' & z & c & Hst & Hc); [done|].
  assert (stored (db_tree (rk_db s)) encryptionKeyID = Marshal (NewSecretKey rnd pw)) as Henc.
  { unfold stored. by rewrite (rk_enc _ _ _ _ Hr). }
  unfold rk_ChangePassword, mbind, action_bind, get_state, lift. rewrite Henc, Hst.
  rewrite (bool_decide_false (Marshal _ = [])) by apply marshal_nonempty. rewrite bool_decide_false by done. cbn [orb].
  rewrite derive_right, Hc, decrypt_encrypt. unfold on_rdb.
  set (f := λ t : tree, _). destruct (db_Update f (rk_db s)) as [d o] eqn:E.
  destruct (avail_db _ _ _ _ (rk_avail _ _ _ _ Hr) E) as [Ha Ho].
  pose proof (rk_keys _ _ _ _ Hr DefaultRootKeyID) as Hd. rewrite Hv in Hd. destruct Hd as [r0 Hd]; [done|].
  unfold f in Ho. rewrite (root_put DefaultRootKeyID _ _ _ ltac:(done) Hd) in Ho. cbn [mbind outcome_bind] in Ho.
  rewrite (root_put encryptionKeyID _ _ (Marshal (NewSecretKey rnd pw)) ltac:(done)) in Ho
    by (rewrite lookup_insert_ne by done; apply Hr). destruct Ho as [-> Ht].
  eexists. split; [done|]. by rewrite <- Ht.
Qed.
Theorem macaroon_password_change s rnd pw keys r pw' v :
  rk_rep s rnd pw keys → keys !! DefaultRootKeyID = Some v → NewSecretKey rnd pw ≠ NewSecretKey r pw' →
  ∃ s', rk_ChangePassword r (Some pw) (Some pw') s = (s', Ret ()) ∧
    rk_Get DefaultRootKeyID s' = (s', Ret v) ∧
    ∀ id, id ≠ DefaultRootKeyID → is_Some (keys !! id) → ∃ e, rk_Get id s' = (s', Err e).
Proof.
  intros Hr Hv Hne. destruct (change_password_run s rnd pw keys r pw' v Hr Hv) as (s' & E & Hk & Ha & Ht).
  exists s'. split; [done|]. unfold rk_Get, rk_unlocked, mbind, action_bind, get_state, lift, stored. rewrite Hk, Ht. split.
  - rewrite lookup_insert_ne, lookup_insert_eq by done.
    pose proof (encrypt_nonempty r (NewSecretKey r pw') v) as Hn. pose proof (decrypt_encrypt r (NewSecretKey r pw') v) as Hd.
    destruct (Encrypt r (NewSecretKey r pw') v); [done|]. by rewrite Hd.
  - intros id Hid [x Hx]. assert (id ≠ encryptionKeyID) as Hne' by (intros ->; destruct (rk_ids _ _ _ _ Hr); congruence).
    rewrite !lookup_insert_ne by done. pose proof (rk_keys _ _ _ _ Hr id Hne') as Hold. rewrite Hx in Hold.
    destruct Hold as [r0 ->]. pose proof (encrypt_nonempty r0 (NewSecretKey rnd pw) x) as Hn.
    destruct (decrypt_other r0 _ _ x Hne) as [e He]. destruct (Encrypt r0 (NewSecretKey rnd pw) x); [done|]. rewrite He. eauto.
Qed.
End root_key_theorems.

(** * Access *)

Lemma hex_digit_value n : (0 ≤ n < 16)%Z → hex_value (hex_digit n) = Some n.
Proof.
  intros Hn. assert (n ∈ [0; 1; 2; 3; 4; 5; 6; 7; 8; 9; 10; 11; 12; 13; 14; 15]%Z) as Hin.
  { assert (n = 0 ∨ n = 1 ∨ n = 2 ∨ n = 3 ∨ n = 4 ∨ n = 5 ∨ n = 6 ∨ n = 7 ∨ n = 8 ∨ n = 9 ∨ n = 10 ∨ n = 11 ∨ n = 12 ∨
      n = 13 ∨ n = 14 ∨ n = 15)%Z as Hc by lia. rewrite !elem_of_cons. tauto. }
  clear Hn. revert n Hin. apply (by_check _). by vm_compute.
Qed.
Lemma hex_roundtrip b : Forall (λ z, 0 ≤ z < 256)%Z b → hex_Decode (hex_Encode b) = Ret b.
Proof.
  induction 1 as [|z b Hz Hb IH]; cbn [hex_Encode hex_Decode]; [done|].
  rewrite !hex_digit_value by (split; [|apply Z.div_lt_upper_bound; lia] || apply Z.mod_pos_bound; try lia; apply Z.div_pos; lia).
  rewrite IH. cbn. rewrite <- Z.div_mod by lia. done.
Qed.

(** What the documentation of the bakery promises.  A macaroon made with a root key is
    accepted for some operations exactly when its ID still has that root key, it was
    made for all of them and its caveats hold. *)
Class BakeryLaws (Mac Ctx : Type) `{Bakery Mac Ctx} : Prop := {
  allow_law lookup check ctx k id ops cs req : req ≠ [] →
    Auth_Allow lookup check ctx (foldr AddFirstPartyCaveat (Oven_NewMacaroon k id ops) cs) req = Ret () ↔
    lookup id = Ret k ∧ Forall (λ o, o ∈ ops) req ∧
    Forall (λ c, match c with TimeBefore t => now ctx < t | IpAddr ip => check ctx ip = Ret () end)%Z cs;
  allow_no_panic lookup check ctx m req p : Auth_Allow lookup check ctx m req ≠ Panic p;
  unmarshal_marshal m : UnmarshalBinary (MarshalBinary m) = Ret m;
  marshal_bytes m : Forall (λ z, 0 ≤ z < 256)%Z (MarshalBinary m);
}.

Section access_theorems.
Context {DB : Type} `{!Bolt DB} `{!BoltLaws DB} {K : Type} `{!Snacl K} `{!SnaclLaws K}.
Context {Mac Ctx : Type} `{!Bakery Mac Ctx} `{!BakeryLaws Mac Ctx}.
Implicit Types (svc : Service DB K Ctx) (ctx : Ctx).

Definition caveat_holds ctx (c : Caveat) : Prop :=
  match c with TimeBefore t => (now ctx < t)%Z | IpAddr ip => IPLockChecker ctx ip = Ret () end.
(** The macaroon with root key [k] of ID [id], for [ops], restricted by [cs], as a
    request carries it. *)
Definition carried (k : bytes) (id : string) (ops : list Op) (cs : list Caveat) : string :=
  hex_Encode (MarshalBinary (foldr AddFirstPartyCaveat (Oven_NewMacaroon k id ops) cs)).

Lemma ValidateMacaroon_ok svc ctx k id ops cs req m rnd pw keys : rk_open (rks svc) rnd pw keys → id ≠ encryptionKeyID →
  req ≠ [] → incoming ctx = Some [carried k id ops cs] →
  ValidateMacaroon svc ctx req m = Ret () ↔
  keys !! id = Some k ∧ (Forall (λ o, o ∈ ops) req ∨ op PermissionEntityCustomURI m ∈ ops) ∧ Forall (caveat_holds ctx) cs.
Proof.
  intros Ho Hid Hreq Hin. unfold ValidateMacaroon, carried in *. rewrite Hin, hex_roundtrip by apply marshal_bytes. cbn.
  rewrite unmarshal_marshal. cbn. set (mac := foldr AddFirstPartyCaveat _ cs).
  set (lookup := λ id, snd (rk_Get id (rks svc))).
  assert (lookup id = Ret k ↔ keys !! id = Some k) as Hl.
  { unfold lookup. rewrite (rk_Get_ok _ _ _ _ _ Ho Hid). cbn. destruct (keys !! id); naive_solver. }
  pose proof (allow_law lookup IPLockChecker ctx k id ops cs req Hreq) as H1.
  pose proof (allow_law lookup IPLockChecker ctx k id ops cs [op PermissionEntityCustomURI m]) as H2.
  rewrite Forall_singleton in H2. fold mac in H1, H2. fold (caveat_holds ctx) in H1, H2. rewrite Hl in H1, H2.
  destruct (Auth_Allow lookup IPLockChecker ctx mac req) as [[]|e|p] eqn:E.
  - split; [intros _; naive_solver | done].
  - rewrite H2 by done. split; [naive_solver|]. intros (? & [Ha|Ha] & ?); [|done].
    assert (Err e = Ret ()) by (apply H1; naive_solver). done.
  - by apply allow_no_panic in E.
Qed.

(** C17: who can call what.  A method of the whitelist needs nothing; a method without
    permissions is refused to everyone.  A restricted method, in a request with
    exactly one macaroon, is allowed exactly when the macaroon's root key is still
    the one of its ID, the macaroon was made for all the permissions of the method or for the
    method itself, and its caveats hold; without a macaroon, or with several, it is
    refused, and so it is with any macaroon whose root key was replaced or deleted.  A
    handler runs only if the check passes. *)
Theorem access_control refl health svc ctx k id ops cs m rnd pw keys :
  rk_open (rks svc) rnd pw keys → id ≠ encryptionKeyID → ExternalValidators svc = ∅ →
  let allowed := checkMacaroon refl health ctx m (Some svc) in
  (is_Some (Whitelist refl health !! m) → allowed = Ret ()) ∧
  (Whitelist refl health !! m = None → AllPermissionsByMethod !! m = None → ∃ e, allowed = Err e) ∧
  (m ∈ restricted_methods → incoming ctx = Some [carried k id ops cs] →
     (allowed = Ret () ↔ keys !! id = Some k ∧ (granted ops m = true ∨ op PermissionEntityCustomURI m ∈ ops) ∧
        Forall (caveat_holds ctx) cs)) ∧
  (m ∈ restricted_methods → (∀ h, incoming ctx ≠ Some [h]) → ∃ e, allowed = Err e) ∧
  (∀ X A (handler : action X error A) x, allowed ≠ Ret () → (macaroonAuthHandler refl health (Some svc) ctx m handler x).1 = x).
Proof.
  intros Ho Hid Hext allowed. unfold allowed, checkMacaroon. split_and!.
  - by intros [w ->].
  - intros -> ->. eauto.
  - intros Hm Hin. destruct (restricted_one m Hm) as (e & a & Ha).
    rewrite restricted_not_whitelisted, Ha, Hext, lookup_empty by (by rewrite Ha).
    rewrite (ValidateMacaroon_ok svc ctx k id ops cs [op e a] m rnd pw keys) by done.
    unfold granted. rewrite Ha, Forall_singleton. cbn. rewrite andb_true_r, bool_decide_eq_true. done.
  - intros Hm Hin. destruct (restricted_one m Hm) as (e & a & Ha).
    rewrite restricted_not_whitelisted, Ha, Hext, lookup_empty by (by rewrite Ha).
    unfold ValidateMacaroon. destruct (incoming ctx) as [[|h [|]]|]; eauto. by destruct (Hin h).
  - intros X A handler x Hne. unfold macaroonAuthHandler, mbind, action_bind, lift. fold allowed in Hne.
    unfold allowed, checkMacaroon in Hne. unfold checkMacaroon.
    match goal with |- context [match ?o with _ => _ end] => destruct o as [[]|e|p] end; done.
Qed.
End access_theorems.

Module MacaroonExamples.
Import SecureStoreExamples PubsubExamples.

(** A bakery whose macaroons are their own data. *)
Abbreviation mac := (bytes * string * list (string * string) * list (Z + string))%type.
Record ctx := { c_incoming : option (list string); c_host : string; c_now : Z }.
Definition unpack (o : string * string) : Op := op o.1 o.2.
#[local] Instance outcome_eq_dec {A} `{EqDecision A} : EqDecision (outcome error A).
Proof. intros x y. unfold Decision. pose proof error_eq_dec. destruct x, y; try (right; congruence).
  - destruct (decide (a = a0)) as [->|]; [by left | right; congruence].
  - destruct (decide (e = e0)) as [->|]; [by left | right; congruence].
  - destruct p, p0; (by left) || (right; congruence).
Defined.
Definition toy_allow (lookup : string → outcome error bytes) (check : ctx → string → outcome error ()) (c : ctx) (m : mac)
    (req : list Op) : outcome error () :=
  let '(k, id, ops, cs) := m in
  if bool_decide (lookup id = Ret k) && bool_decide (Forall (λ o, o ∈ unpack <$> ops) req) &&
     forallb (λ x, match x with inl t => (c_now c <? t)%Z | inr ip => bool_decide (check c ip = Ret ()) end) cs
  then Ret () else Err (Errorf "permission denied").
#[export] Instance toy_bakery : Bakery mac ctx := {
  Oven_NewMacaroon k id ops := (k, id, (λ o, (Entity o, Action o)) <$> ops, []);
  Auth_Allow := toy_allow;
  MarshalBinary m := digits (encode m);
  UnmarshalBinary b :=
    match undigits b with
    | Some p => match decode p with Some m => Ret m | None => Err (Errorf "macaroon") end
    | None => Err (Errorf "macaroon")
    end;
  AddFirstPartyCaveat c m :=
    let '(k, id, ops, cs) := m in
    (k, id, ops, match c with TimeBefore t => inl t | IpAddr ip => inr ip end :: cs);
  incoming := c_incoming;
  peer_host c := Ret (c_host c);
  now := c_now;
  ParseIP s := Some s;
}.
Lemma toy_caveats k id ops cs : foldr AddFirstPartyCaveat (Oven_NewMacaroon k id ops : mac) cs =
  (k, id, (λ o, (Entity o, Action o)) <$> ops, (λ c, match c with TimeBefore t => inl t | IpAddr ip => inr ip end) <$> cs).
Proof. induction cs as [|c cs IH]; [done|]. cbn [foldr]. rewrite IH. done. Qed.
Lemma unpack_ops (ops : list Op) : unpack <$> ((λ o, (Entity o, Action o)) <$> ops) = ops.
Proof. induction ops as [|[e a] ops IH]; [done|]. cbn. f_equal. exact IH. Qed.
#[export] Instance toy_bakery_laws : BakeryLaws mac ctx.
Proof.
  split.
  - intros lookup check c k id ops cs req _. rewrite toy_caveats. cbn [Auth_Allow toy_bakery]. unfold toy_allow.
    rewrite unpack_ops. transitivity (bool_decide (lookup id = Ret k) && bool_decide (Forall (λ o, o ∈ ops) req) &&
      forallb (λ x, match x with inl t => (c_now c <? t)%Z | inr ip => bool_decide (check c ip = Ret ()) end)
        ((λ c, match c with TimeBefore t => inl t | IpAddr ip => inr ip end) <$> cs) = true).
    { destruct (_ && _); naive_solver. }
    rewrite !andb_true_iff, !bool_decide_eq_true. assert (∀ a b c d : Prop, (c ↔ d) → (a ∧ b) ∧ c ↔ a ∧ b ∧ d) as Hand by tauto. apply Hand.
    induction cs as [|x cs IH]; cbn; [split; [constructor | done]|]. rewrite andb_true_iff, IH, Forall_cons.
    destruct x; [rewrite Z.ltb_lt | rewrite bool_decide_eq_true]; done.
  - intros lookup check c [[[k id] ops] cs] req p. cbn. unfold toy_allow. by destruct (_ && _).
  - intros m. cbn. by rewrite undigits_digits, decode_encode.
  - intros m. cbn. pose proof (encode m) as q. generalize (encode m). clear q. intros q. induction q; cbn; constructor; auto; lia.
Qed.

(** The store after the first unlock, and the admin macaroon. *)
Definition empty_store : RootKeyStorage tree key := {| rk_db := ∅; rk_encKey := None |}.
Definition open_store : RootKeyStorage tree key := fst (rk_CreateUnlock 1 (Some [7%Z]) empty_store).
Definition svc0 : Service tree key ctx := {| rks := open_store; ExternalValidators := ∅ |}.
Lemma open_store_rep : rk_open open_store 1 [7%Z] ∅.
Proof.
  split; [|reflexivity]. split; [vm_compute; reflexivity | done | by right | done |].
  intros id Hid. rewrite lookup_empty. change (db_tree (rk_db open_store)) with ({[encryptionKeyID := Value [1; 7]%Z]} : tree).
  by rewrite lookup_singleton_ne.
Qed.
Definition svc1 : Service tree key ctx := fst (bakeMacaroon 2 [5; 5]%Z AdminPermissions svc0).
Lemma svc1_rep : rk_open (rks svc1) 1 [7%Z] {[DefaultRootKeyID := [5; 5]%Z]}.
Proof.
  destruct (rk_RootKey_ok open_store 1 [7%Z] ∅ 2 [5; 5]%Z DefaultRootKeyID open_store_rep) as (s' & k & E & -> & Ho); [by split|].
  assert (rks svc1 = fst (rk_RootKey 2 [5; 5]%Z (Some DefaultRootKeyID) open_store)) as -> by (vm_compute; reflexivity).
  rewrite E. exact Ho.
Qed.
Definition request : ctx :=
  {| c_incoming := Some [carried [5; 5]%Z DefaultRootKeyID AdminPermissions []]; c_host := "localhost"; c_now := 0 |}.
Definition open_market : string := full_method OperatorService "OpenMarket".

Lemma access_control_witness :
  rk_open (rks svc1) 1 [7%Z] {[DefaultRootKeyID := [5; 5]%Z]} ∧ open_market ∈ restricted_methods ∧
  checkMacaroon "reflection" "health" request open_market (Some svc1) = Ret ().
Proof.
  assert (open_market ∈ restricted_methods) as Hin by (apply (bool_decide_unpack _); vm_compute; exact I).
  split; [exact svc1_rep|]. split; [exact Hin|].
  destruct (access_control "reflection" "health" svc1 request [5; 5]%Z DefaultRootKeyID AdminPermissions [] open_market
    1 [7%Z] {[DefaultRootKeyID := [5; 5]%Z]} svc1_rep) as (_ & _ & Ha & _); [discriminate | reflexivity |].
  apply (Ha Hin); [reflexivity|]. split; [reflexivity|]. split; [left; vm_compute; reflexivity | constructor].
Defined.

Lemma root_keys_refine_witness :
  rk_open open_store 1 [7%Z] ∅ ∧
  ∃ s', rk_GenerateNewRootKey 3 [9%Z] open_store = (s', Ret ()) ∧ rk_open s' 1 [7%Z] (<[DefaultRootKeyID := [9%Z]]> ∅).
Proof.
  split; [exact open_store_rep|].
  destruct (root_keys_refine open_store 1 [7%Z] ∅ 3 [9%Z] "1" open_store_rep) as (_ & Hg & _); [split; discriminate|].
  exact Hg.
Defined.

(** A macaroon is worth nothing after its root key is replaced. *)
Example revoked :
  checkMacaroon "reflection" "health" request open_market
    (Some {| rks := fst (rk_GenerateNewRootKey 3 [9%Z] (rks svc1)); ExternalValidators := ∅ |}) = Err (Errorf "permission denied").
Proof. vm_compute. reflexivity. Qed.
End MacaroonExamples.
