(* ===== verification/SwapMsg.v ===== *)
(** The swap messages: pkg/swap (Request, Accept, Complete, Fail) and the
    parser of internal/infrastructure/swap-parser that the domain calls.

    Protobuf and go-elements are parameters: [ProtoMessage] is the encoder and
    decoder of one message type, [Elements] the part of the PSET and transaction
    API the code uses.  [service] is the parser, an instance of the [SwapParser]
    interface of the trade entity. *)

From Stdlib Require Import ZArith Lia.
From stdpp Require Import base tactics strings list gmap.
From S2P Require Import Prelude Errors Market Trade.

(** * Libraries *)

(** proto.Marshal fails on an ill-formed message; proto.Unmarshal fills the
    message as far as it can and says whether the bytes were well formed. *)
Class ProtoMessage (M : Type) := {
  Marshal : M → option bytes;
  Unmarshal : bytes → M * bool;
}.
Class ProtoLaws (M : Type) `{ProtoMessage M} : Prop :=
  unmarshal_marshal (x : M) b : Marshal x = Some b → Unmarshal b = (x, true).

Record TxOutput := { txo_Script : bytes }.
Record PInput := {
  in_IsSane : bool; WitnessUtxo : option TxOutput; NonWitnessUtxo : option (list TxOutput) }.
Record PsetOutput := {
  out_Asset : bytes; out_Value : Z; out_Script : bytes; out_BlindingPubkey : bytes }.
(** [px_Utxo] is the script of GetUtxo(), which may be nil. *)
Record PsetInput := {
  px_PreviousTxid : bytes; px_PreviousTxIndex : Z; px_Utxo : option bytes;
  px_RedeemScript : bytes; px_WitnessScript : bytes }.

(** What is used of go-elements: pset, psetv2, transaction, elementsutil. *)
Class Elements := {
  pset : Type;
  pset_NewPsetFromBase64 : string → option pset;
  pset_Inputs : pset → list PInput;
  UnsignedTx_Indexes : pset → list Z;          (* UnsignedTx.Inputs[i].Index *)
  UnsignedTx_Outputs : pset → list TxOutput;
  pset_ValidateAllSignatures : pset → option bool;   (* None: an error *)
  psetv2 : Type;
  psetv2_NewPsetFromBase64 : string → option psetv2;
  InputCount : psetv2 → Z;
  psetv2_Inputs : psetv2 → list PsetInput;
  psetv2_Outputs : psetv2 → list PsetOutput;
  psetv2_ValidateAllSignatures : psetv2 → option bool;
  FinalizeAll : psetv2 → psetv2;                (* its error is discarded *)
  transaction : Type;
  Extract : psetv2 → option transaction;
  NewTxFromHex : string → option transaction;
  ToHex : transaction → string;
  TxHash : transaction → string;
  TxIDFromBytes : bytes → string;
}.

(** * Messages on the wire *)

Abbreviation keys := (gmap string bytes).

Record V1SwapRequest := {
  q1_Id : string; q1_AssetP : string; q1_AmountP : Z; q1_AssetR : string; q1_AmountR : Z;
  q1_Transaction : string; q1_InputBlindingKey : option keys; q1_OutputBlindingKey : option keys }.
Record V2SwapRequest := {
  q2_Id : string; q2_AssetP : string; q2_AmountP : Z; q2_AssetR : string; q2_AmountR : Z;
  q2_Transaction : string; q2_UnblindedInputs : list UnblindedInput }.
Record V1SwapAccept := {
  a1_Id : string; a1_RequestId : string; a1_Transaction : string;
  a1_InputBlindingKey : option keys; a1_OutputBlindingKey : option keys }.
Record V2SwapAccept := {
  a2_Id : string; a2_RequestId : string; a2_Transaction : string;
  a2_UnblindedInputs : list UnblindedInput }.
(** SwapComplete and SwapFail have the same fields in both versions. *)
Record V1SwapComplete := { c1_Id : string; c1_AcceptId : string; c1_Transaction : string }.
Record V2SwapComplete := { c2_Id : string; c2_AcceptId : string; c2_Transaction : string }.
Record V1SwapFail := {
  f1_Id : string; f1_MessageId : string; f1_FailureCode : Z; f1_FailureMessage : string }.
Record V2SwapFail := {
  f2_Id : string; f2_MessageId : string; f2_FailureCode : Z; f2_FailureMessage : string }.

(** The codecs of all message types. *)
Class Codecs := {
  codec_q1 :: ProtoMessage V1SwapRequest; codec_q2 :: ProtoMessage V2SwapRequest;
  codec_a1 :: ProtoMessage V1SwapAccept; codec_a2 :: ProtoMessage V2SwapAccept;
  codec_c1 :: ProtoMessage V1SwapComplete; codec_c2 :: ProtoMessage V2SwapComplete;
  codec_f1 :: ProtoMessage V1SwapFail; codec_f2 :: ProtoMessage V2SwapFail;
}.

(** * Options *)

Record RequestOpts := {
  ro_Id : string; AssetToSend : string; AmountToSend : Z;
  AssetToReceive : string; AmountToReceive : Z; ro_Transaction : string;
  ro_InputBlindingKeys : option keys; ro_OutputBlindingKeys : option keys;
  ro_UnblindedInputs : list UnblindedInput; ro_FeeAsset : string; ro_FeeAmount : Z }.
Record AcceptOpts := {
  ao_Message : bytes; ao_Transaction : string;
  ao_InputBlindingKeys : option keys; ao_OutputBlindingKeys : option keys;
  ao_UnblindedInputs : list UnblindedInput }.
Record CompleteOpts := { co_Message : bytes; co_Transaction : string }.
Record FailOpts := { fo_MessageID : string; fo_ErrCode : Z }.

Definition ErrCodeInvalidSwapRequest : Z := 0.
Definition ErrCodeRejectedSwapRequest : Z := 1.
Definition ErrCodeFailedToComplete : Z := 2.
Definition ErrCodeInvalidTransaction : Z := 3.
Definition ErrCodeBadPricingSwapRequest : Z := 4.
Definition ErrCodeAborted : Z := 5.
Definition ErrCodeFailedToBroadcast : Z := 6.

(** errMsg; a missing key of the map is the empty string. *)
Definition errMsg (code : Z) : string :=
  if (code =? ErrCodeInvalidSwapRequest)%Z then "invalid swap request"
  else if (code =? ErrCodeRejectedSwapRequest)%Z then "swap request not accepted"
  else if (code =? ErrCodeFailedToComplete)%Z then "swap not completed"
  else if (code =? ErrCodeInvalidTransaction)%Z then "invalid transaction format"
  else if (code =? ErrCodeBadPricingSwapRequest)%Z then "swap request price not accepted"
  else if (code =? ErrCodeAborted)%Z then "aborted by counter-party "
  else if (code =? ErrCodeFailedToBroadcast)%Z
  then "swap completed but didn't get included in blockchain "
  else "".

Definition isHex (s : string) : bool := snd (hex_DecodeString s).

Section swap.
Context `{Elements} `{Codecs}.

Definition isPsetV0 (tx : string) : bool :=
  match pset_NewPsetFromBase64 tx with Some _ => true | None => false end.
Definition isPsetV2 (tx : string) : bool :=
  match psetv2_NewPsetFromBase64 tx with Some _ => true | None => false end.

(** ** Validation of transactions *)

Definition v0_prevout (ptx : pset) (i : nat) (inp : PInput) : outcome error TxOutput :=
  match WitnessUtxo inp with
  | Some o => Ret o
  | None =>
      txinIndex ← index (UnsignedTx_Indexes ptx) i;
      outs ← deref (NonWitnessUtxo inp);
      index outs (Z.to_nat txinIndex)
  end.

Definition has_key (script : bytes) (ks : option keys) : bool :=
  match ks with
  | None => true            (* a nil map: keys are not checked *)
  | Some m => bool_decide (is_Some (m !! hex_EncodeToString script))
  end.

Fixpoint validate_v0_inputs (ptx : pset) (ks : option keys) (i : nat) (ins : list PInput)
    : outcome error () :=
  match ins with
  | [] => Ret ()
  | inp :: ins =>
      if negb (in_IsSane inp) then Err (Errorf "partial input %d is not sane") else
      prevout ← v0_prevout ptx i inp;
      if negb (has_key (txo_Script prevout) ks)
      then Err (Errorf "missing blinding key for input %d")
      else validate_v0_inputs ptx ks (S i) ins
  end.

Fixpoint validate_v0_outputs (ks : option keys) (outs : list TxOutput) : outcome error () :=
  match outs with
  | [] => Ret ()
  | out :: outs =>
      if negb (bool_decide (txo_Script out = [])) && negb (has_key (txo_Script out) ks)
      then Err (Errorf "missing blinding key for output %d")
      else validate_v0_outputs ks outs
  end.

Definition validateSwapTxV0 (psetBase64 : string) (inBlindKeys outBlindKeys : option keys)
    : outcome error () :=
  match pset_NewPsetFromBase64 psetBase64 with
  | None => Err (Errorf "pset is not in a valid base64 format")
  | Some ptx =>
      _ ← validate_v0_inputs ptx inBlindKeys 0 (pset_Inputs ptx);
      validate_v0_outputs outBlindKeys (UnsignedTx_Outputs ptx)
  end.

(** The loop over the unblinded inputs: amountP. *)
Fixpoint sum_inputs (count : Z) (assetP : string) (ins : list UnblindedInput) (amountP : Z)
    : outcome error Z :=
  match ins with
  | [] => Ret amountP
  | i :: ins =>
      if (count <=? ui_Index i)%Z then Err (Errorf "unblinded input index %d out of range")
      else sum_inputs count assetP ins
             (if bool_decide (ui_Asset i = assetP) then u64 (amountP + ui_Amount i) else amountP)
  end.

(** The loop over the outputs: change is taken out of amountP. *)
Definition sum_outputs (assetP assetR : string) (outs : list PsetOutput) (amountP amountR : Z)
    : Z * Z :=
  foldl (λ '(p, r) o,
    let asset := TxIDFromBytes (out_Asset o) in
    let r := if bool_decide (asset = assetR) then u64 (r + out_Value o) else r in
    let p := if bool_decide (asset = assetP) then u64 (p - out_Value o) else p in
    (p, r)) (amountP, amountR) outs.

(** [amounts[k]] of a map[string]uint64: 0 when missing. *)
Definition amount_of (m : gmap string Z) (k : string) : Z := default 0%Z (m !! k).

(** The amounts once [fee] (signed) is added to the fee asset match the request. *)
Definition amounts_match (o : RequestOpts) (amountP amountR fee : Z) : bool :=
  let amounts : gmap string Z :=
    <[AssetToReceive o := amountR]> (<[AssetToSend o := amountP]> ∅) in
  let amounts := <[ro_FeeAsset o := u64 (amount_of amounts (ro_FeeAsset o) + fee)]> amounts in
  (amount_of amounts (AssetToSend o) =? AmountToSend o)%Z &&
  (amount_of amounts (AssetToReceive o) =? AmountToReceive o)%Z.

Definition validateSwapRequestTx (opts : RequestOpts) : outcome error () :=
  ptx ← deref (psetv2_NewPsetFromBase64 (ro_Transaction opts));
  amountP ← sum_inputs (InputCount ptx) (AssetToSend opts) (ro_UnblindedInputs opts) 0;
  let '(amountP, amountR) :=
    sum_outputs (AssetToSend opts) (AssetToReceive opts) (psetv2_Outputs ptx) amountP 0 in
  if amounts_match opts amountP amountR (ro_FeeAmount opts) then Ret ()
  else if negb (amounts_match opts amountP amountR (- ro_FeeAmount opts))
  then Err (Errorf "transaction in/out amounts do not match amount_p/amount_r")
  else Ret ().

Definition validateSwapAcceptTx (tx : string) (ins : list UnblindedInput) : outcome error () :=
  ptx ← (match ins with
         | [] => Ret None
         | _ => Some <$> deref (psetv2_NewPsetFromBase64 tx)
         end);
  match ptx with
  | None => Ret ()
  | Some ptx =>
      if forallb (λ i, (ui_Index i <? InputCount ptx)%Z) ins then Ret ()
      else Err (Errorf "unblinded input index %d out of range")
  end.

(** ** Requests *)

Definition RequestOpts_validate (o : RequestOpts) : outcome error () :=
  if isPsetV0 (ro_Transaction o)
  then validateSwapTxV0 (ro_Transaction o) (ro_InputBlindingKeys o) (ro_OutputBlindingKeys o)
  else if isPsetV2 (ro_Transaction o) then
    if bool_decide (ro_UnblindedInputs o = []) then Err (Errorf "missing unblinded inputs")
    else validateSwapRequestTx o
  else Err (Errorf "invalid swap transaction format").

(** randstr.Hex(8) is the argument [rnd]. *)
Definition RequestOpts_id (rnd : string) (o : RequestOpts) : string :=
  if bool_decide (ro_Id o ≠ ""%string) then ro_Id o else rnd.

Definition marshalled {M} `{ProtoMessage M} (x : M) : outcome error bytes :=
  match Marshal x with Some b => Ret b | None => Err (Errorf "proto: marshal") end.

Definition Request (rnd : string) (o : RequestOpts) : outcome error bytes :=
  _ ← RequestOpts_validate o;
  let id := RequestOpts_id rnd o in
  if isPsetV0 (ro_Transaction o) then
    marshalled {| q1_Id := id; q1_AssetP := AssetToSend o; q1_AmountP := AmountToSend o;
                  q1_AssetR := AssetToReceive o; q1_AmountR := AmountToReceive o;
                  q1_Transaction := ro_Transaction o;
                  q1_InputBlindingKey := ro_InputBlindingKeys o;
                  q1_OutputBlindingKey := ro_InputBlindingKeys o |}
  else
    marshalled {| q2_Id := id; q2_AssetP := AssetToSend o; q2_AmountP := AmountToSend o;
                  q2_AssetR := AssetToReceive o; q2_AmountR := AmountToReceive o;
                  q2_Transaction := ro_Transaction o;
                  q2_UnblindedInputs := ro_UnblindedInputs o |}.

(** ** Accepts *)

Definition AcceptOpts_validate (o : AcceptOpts) : outcome error () :=
  if isPsetV0 (ao_Transaction o)
  then validateSwapTxV0 (ao_Transaction o) (ao_InputBlindingKeys o) (ao_OutputBlindingKeys o)
  else if isPsetV2 (ao_Transaction o)
  then validateSwapAcceptTx (ao_Transaction o) (ao_UnblindedInputs o)
  else Err (Errorf "invalid swap transaction format").

Definition swap_Accept (randomID : string) (o : AcceptOpts) : outcome error (string * bytes) :=
  _ ← AcceptOpts_validate o;
  msg ← (if isPsetV0 (ao_Transaction o) then
           match Unmarshal (M := V1SwapRequest) (ao_Message o) with
           | (_, false) => Err (Errorf "unmarshal swap request %w")
           | (req, true) =>
               marshalled {| a1_Id := randomID; a1_RequestId := q1_Id req;
                             a1_Transaction := ao_Transaction o;
                             a1_InputBlindingKey := ao_InputBlindingKeys o;
                             a1_OutputBlindingKey := ao_OutputBlindingKeys o |}
           end
         else
           match Unmarshal (M := V2SwapRequest) (ao_Message o) with
           | (_, false) => Err (Errorf "unmarshal swap request %w")
           | (req, true) =>
               marshalled {| a2_Id := randomID; a2_RequestId := q2_Id req;
                             a2_Transaction := ao_Transaction o;
                             a2_UnblindedInputs := ao_UnblindedInputs o |}
           end);
  Ret (randomID, msg).

(** ** Completes *)

Definition is_v1_accept (msg : bytes) : bool := snd (Unmarshal (M := V1SwapAccept) msg).
Definition is_v2_accept (msg : bytes) : bool := snd (Unmarshal (M := V2SwapAccept) msg).

Definition CompleteOpts_validate (o : CompleteOpts) : outcome error () :=
  let tx := co_Transaction o in
  let v1 := is_v1_accept (co_Message o) in
  let v2 := is_v2_accept (co_Message o) in
  if bool_decide (tx = ""%string) then Err (Errorf "missing swap transaction")
  else if negb (isPsetV0 tx) && negb (isPsetV2 tx) && negb (isHex tx)
  then Err (Errorf "invalid swap transaction format")
  else if bool_decide (co_Message o = []) then Err (Errorf "missing swap accept message")
  else if (isPsetV0 tx && negb v1) || (isPsetV2 tx && negb v2)
          || (isHex tx && (negb v1 || negb v2))
  then Err (Errorf "invalid swap accept message")
  else Ret ().

Definition CompleteOpts_forV1 (o : CompleteOpts) : bool :=
  if isPsetV0 (co_Transaction o) then true
  else if isHex (co_Transaction o) then is_v1_accept (co_Message o)
  else false.

(** The signatures of a PSET; a transaction in hex is not checked. *)
Definition check_signatures (r : option (option bool)) : outcome error () :=
  match r with
  | None => Ret ()
  | Some None => Err (Errorf "validate signatures")
  | Some (Some true) => Ret ()
  | Some (Some false) => Err (Errorf "transaction contains invalid signatures")
  end.

Definition swap_Complete (randomID : string) (o : CompleteOpts) : outcome error (string * bytes) :=
  _ ← CompleteOpts_validate o;
  msg ← (if CompleteOpts_forV1 o then
           match Unmarshal (M := V1SwapAccept) (co_Message o) with
           | (_, false) => Err (Errorf "unmarshal swap accept")
           | (acc, true) =>
               _ ← check_signatures
                     (pset_ValidateAllSignatures <$> pset_NewPsetFromBase64 (co_Transaction o));
               marshalled {| c1_Id := randomID; c1_AcceptId := a1_Id acc;
                             c1_Transaction := co_Transaction o |}
           end
         else
           match Unmarshal (M := V2SwapAccept) (co_Message o) with
           | (_, false) => Err (Errorf "unmarshal swap accept")
           | (acc, true) =>
               _ ← check_signatures
                     (psetv2_ValidateAllSignatures <$> psetv2_NewPsetFromBase64 (co_Transaction o));
               marshalled {| c2_Id := randomID; c2_AcceptId := a2_Id acc;
                             c2_Transaction := co_Transaction o |}
           end);
  Ret (randomID, msg).

(** ** Fails *)

Definition swap_FailV1 (randomID : string) (o : FailOpts) : outcome error (string * bytes) :=
  msg ← marshalled {| f1_Id := randomID; f1_MessageId := fo_MessageID o;
                      f1_FailureCode := u32 (fo_ErrCode o);
                      f1_FailureMessage := errMsg (fo_ErrCode o) |};
  Ret (randomID, msg).
Definition swap_Fail (randomID : string) (o : FailOpts) : outcome error (string * bytes) :=
  msg ← marshalled {| f2_Id := randomID; f2_MessageId := fo_MessageID o;
                      f2_FailureCode := u32 (fo_ErrCode o);
                      f2_FailureMessage := errMsg (fo_ErrCode o) |};
  Ret (randomID, msg).

(** * The parser service *)

Definition parser_SerializeRequest (rnd : string) (r : SwapRequest) : outcome error (bytes * Z) :=
  match Request rnd {| ro_Id := sr_Id r; AssetToSend := sr_AssetP r; AmountToSend := sr_AmountP r;
                       AssetToReceive := sr_AssetR r; AmountToReceive := sr_AmountR r;
                       ro_Transaction := sr_Transaction r;
                       ro_InputBlindingKeys := None; ro_OutputBlindingKeys := None;
                       ro_UnblindedInputs := sr_UnblindedInputs r;
                       ro_FeeAsset := sr_FeeAsset r; ro_FeeAmount := sr_FeeAmount r |} with
  | Ret msg => Ret (msg, -1)%Z
  | Err _ => Ret ([], ErrCodeInvalidSwapRequest)
  | Panic p => Panic p
  end.

Definition parser_SerializeAccept (rnd : string) (reqMsg : bytes) (tx : string)
    (ins : list UnblindedInput) : outcome error (string * bytes * Z) :=
  match swap_Accept rnd {| ao_Message := reqMsg; ao_Transaction := tx;
                           ao_InputBlindingKeys := None; ao_OutputBlindingKeys := None;
                           ao_UnblindedInputs := ins |} with
  | Ret (id, msg) => Ret (id, msg, -1)%Z
  | Err _ => Ret (""%string, [], ErrCodeRejectedSwapRequest)
  | Panic p => Panic p
  end.

Definition parser_SerializeComplete (rnd : string) (accMsg : bytes) (tx : string)
    : string * bytes * Z :=
  match swap_Complete rnd {| co_Message := accMsg; co_Transaction := tx |} with
  | Ret (id, msg) => (id, msg, -1)%Z
  | _ => (""%string, [], ErrCodeFailedToComplete)
  end.

Definition parser_SerializeFail (rnd id : string) (errCode : Z) : string * bytes :=
  match swap_Fail rnd {| fo_MessageID := id; fo_ErrCode := errCode |} with
  | Ret r => r
  | _ => (""%string, [])
  end.

Definition parser_DeserializeRequest (msg : bytes) (feeAsset : string) (feeAmount : Z)
    : SwapRequest :=
  let swap := fst (Unmarshal (M := V2SwapRequest) msg) in
  {| sr_Id := q2_Id swap; sr_AssetP := q2_AssetP swap; sr_AssetR := q2_AssetR swap;
     sr_AmountP := q2_AmountP swap; sr_AmountR := q2_AmountR swap;
     sr_Transaction := q2_Transaction swap; sr_FeeAsset := feeAsset; sr_FeeAmount := feeAmount;
     sr_UnblindedInputs := q2_UnblindedInputs swap |}.
Definition parser_DeserializeAccept (msg : bytes) : SwapAccept :=
  let swap := fst (Unmarshal (M := V2SwapAccept) msg) in
  {| sa_Id := a2_Id swap; sa_RequestId := a2_RequestId swap;
     sa_Transaction := a2_Transaction swap; sa_UnblindedInputs := a2_UnblindedInputs swap |}.
Definition parser_DeserializeComplete (msg : bytes) : SwapComplete :=
  let swap := fst (Unmarshal (M := V2SwapComplete) msg) in
  {| sc_Id := c2_Id swap; sc_AcceptId := c2_AcceptId swap; sc_Transaction := c2_Transaction swap |}.
Definition parser_DeserializeFail (msg : bytes) : SwapFail :=
  let swap := fst (Unmarshal (M := V2SwapFail) msg) in
  {| sf_Id := f2_Id swap; sf_MessageId := f2_MessageId swap;
     sf_FailureCode := f2_FailureCode swap; sf_FailureMessage := f2_FailureMessage swap |}.

(** FinalizeAll's and Extract's errors are discarded: when nothing can be
    extracted the transaction is nil. *)
Definition parser_ParseSwapTransaction (tx : string)
    : outcome error (option SwapTransactionDetails * Z) :=
  match psetv2_NewPsetFromBase64 tx with
  | Some ptx =>
      t ← deref (Extract (FinalizeAll ptx));
      Ret (Some {| td_PsetBase64 := tx; td_TxHex := ToHex t; td_Txid := TxHash t |}, (-1)%Z)
  | None =>
      match NewTxFromHex tx with
      | Some t => Ret (Some {| td_PsetBase64 := ""; td_TxHex := tx; td_Txid := TxHash t |}, (-1)%Z)
      | None => Ret (None, ErrCodeInvalidTransaction)
      end
  end.

Definition service : SwapParser := {|
  SerializeRequest := parser_SerializeRequest;
  SerializeAccept := parser_SerializeAccept;
  SerializeComplete := parser_SerializeComplete;
  SerializeFail := parser_SerializeFail;
  DeserializeRequest := parser_DeserializeRequest;
  DeserializeAccept := parser_DeserializeAccept;
  DeserializeComplete := parser_DeserializeComplete;
  DeserializeFail := parser_DeserializeFail;
  ParseSwapTransaction := parser_ParseSwapTransaction;
|}.
End swap.

(** * Theorems *)

Section amounts.
Context `{Elements} `{Codecs}.
Local Open Scope Z_scope.

(** What the unblinded inputs claim to hold of an asset, what the outputs pay. *)
Definition claimed (asset : string) (ins : list UnblindedInput) : Z :=
  foldr (λ i s, (if bool_decide (ui_Asset i = asset) then ui_Amount i else 0) + s) 0 ins.
Definition paid (asset : string) (outs : list PsetOutput) : Z :=
  foldr (λ o s, (if bool_decide (TxIDFromBytes (out_Asset o) = asset) then out_Value o else 0) + s)
    0 outs.
Definition fee_of (o : RequestOpts) (asset : string) : Z :=
  if bool_decide (ro_FeeAsset o = asset) then ro_FeeAmount o else 0.

Lemma claimed_cons a i ins :
  claimed a (i :: ins) = (if bool_decide (ui_Asset i = a) then ui_Amount i else 0) + claimed a ins.
Proof. done. Qed.
Lemma paid_cons a o outs :
  paid a (o :: outs)
  = (if bool_decide (TxIDFromBytes (out_Asset o) = a) then out_Value o else 0) + paid a outs.
Proof. done. Qed.

Lemma sum_inputs_spec count P ins a :
  sum_inputs count P ins (u64 a) =
    (if forallb (λ i, ui_Index i <? count) ins then Ret (u64 (a + claimed P ins))
     else Err (Errorf "unblinded input index %d out of range")).
Proof.
  revert a. induction ins as [|i ins IH]; intros a; [cbn; by rewrite Z.add_0_r|].
  rewrite claimed_cons. cbn [sum_inputs forallb].
  rewrite Z.leb_antisym. destruct (ui_Index i <? count); cbn; [|done].
  case_bool_decide; rewrite ?u64_add_l, IH; (destruct (forallb _ ins); [|done]); do 2 f_equal; lia.
Qed.

Lemma sum_outputs_spec P R outs p r :
  sum_outputs P R outs (u64 p) (u64 r) = (u64 (p - paid P outs), u64 (r + paid R outs)).
Proof.
  unfold sum_outputs. revert p r. induction outs as [|o outs IH]; intros p r.
  { cbn. by rewrite Z.sub_0_r, Z.add_0_r. }
  rewrite !paid_cons. cbn [foldl].
  rewrite u64_add_l, u64_sub_l.
  repeat case_bool_decide; rewrite IH; do 2 f_equal; lia.
Qed.

Lemma amounts_match_spec o p r sign fee :
  AssetToSend o ≠ AssetToReceive o → fee = sign * ro_FeeAmount o →
  amounts_match o (u64 p) (u64 r) fee = true ↔
    AmountToSend o = u64 (p + sign * fee_of o (AssetToSend o)) ∧
    AmountToReceive o = u64 (r + sign * fee_of o (AssetToReceive o)).
Proof.
  intros Hne ->. unfold amounts_match, amount_of, fee_of. rewrite andb_true_iff, !Z.eqb_eq.
  repeat case_bool_decide; try congruence;
    repeat match goal with
      | E : ro_FeeAsset o = _ |- _ => rewrite !E
      | |- context [<[?k := _]> _ !! ?k] => rewrite lookup_insert_eq
      | |- context [<[_ := _]> _ !! _] => rewrite lookup_insert_ne by congruence
      end; cbn; rewrite ?u64_add_l, ?Z.mul_0_r, ?Z.add_0_r; naive_solver.
Qed.

Lemma indexes_ok count ins :
  forallb (λ i, ui_Index i <? count) ins = true ↔ Forall (λ i, ui_Index i < count) ins.
Proof.
  rewrite List.forallb_forall, List.Forall_forall.
  split; intros Hi i Hin; specialize (Hi i Hin); by apply Z.ltb_lt.
Qed.

(** the amounts of a swap request are accepted exactly when every unblinded
    input refers to an input of the transaction and, modulo 2^64, what the inputs
    claim of the sent asset minus its change is amount_p and what the outputs pay
    of the received asset is amount_r, the fee being added to or taken from the
    side of the fee asset. *)
Theorem request_amounts_exact o ptx :
  psetv2_NewPsetFromBase64 (ro_Transaction o) = Some ptx →
  AssetToSend o ≠ AssetToReceive o →
  let P := claimed (AssetToSend o) (ro_UnblindedInputs o)
           - paid (AssetToSend o) (psetv2_Outputs ptx) in
  let R := paid (AssetToReceive o) (psetv2_Outputs ptx) in
  validateSwapRequestTx o = Ret () ↔
    Forall (λ i, ui_Index i < InputCount ptx) (ro_UnblindedInputs o) ∧
    ∃ sign, (sign = 1 ∨ sign = -1) ∧
      AmountToSend o = u64 (P + sign * fee_of o (AssetToSend o)) ∧
      AmountToReceive o = u64 (R + sign * fee_of o (AssetToReceive o)).
Proof.
  intros Hp Hne P R. unfold validateSwapRequestTx. rewrite Hp; cbn.
  pose proof (sum_inputs_spec (InputCount ptx) (AssetToSend o) (ro_UnblindedInputs o) 0) as HI.
  change (u64 0) with 0 in HI. rewrite HI.
  destruct (forallb _ _) eqn:Hf; cbn; rewrite <- indexes_ok, Hf; [|naive_solver].
  match goal with |- context [sum_outputs _ _ _ (u64 ?p) 0] =>
    pose proof (sum_outputs_spec (AssetToSend o) (AssetToReceive o) (psetv2_Outputs ptx) p 0) as HO end.
  change (u64 0) with 0 in HO. rewrite HO, !Z.add_0_l. fold P R.
  pose proof (amounts_match_spec o P R 1 (ro_FeeAmount o) Hne ltac:(lia)) as M1.
  pose proof (amounts_match_spec o P R (-1) (- ro_FeeAmount o) Hne ltac:(lia)) as M2.
  destruct (amounts_match o _ _ (ro_FeeAmount o)); [naive_solver|].
  destruct (amounts_match o _ _ (- _)); cbn; naive_solver.
Qed.
End amounts.

Section messages.
Context `{Elements} `{Codecs} `{!ProtoLaws V2SwapRequest} `{!ProtoLaws V2SwapAccept}
  `{!ProtoLaws V2SwapComplete}.

Lemma marshalled_Ret {M} `{ProtoLaws M} (x : M) b : marshalled x = Ret b → Unmarshal b = (x, true).
Proof.
  unfold marshalled. destruct (Marshal x) eqn:E; [|done]. intros [= <-]. by apply unmarshal_marshal.
Qed.

Lemma SerializeRequest_Ret rnd r msg code :
  isPsetV0 (sr_Transaction r) = false → sr_Id r ≠ ""%string →
  SerializeRequest (SwapParser := service) rnd r = Ret (msg, code) → (code < 0)%Z →
  Unmarshal msg = ({| q2_Id := sr_Id r; q2_AssetP := sr_AssetP r; q2_AmountP := sr_AmountP r;
                      q2_AssetR := sr_AssetR r; q2_AmountR := sr_AmountR r;
                      q2_Transaction := sr_Transaction r;
                      q2_UnblindedInputs := sr_UnblindedInputs r |}, true).
Proof.
  intros Hv Hid. cbn. unfold parser_SerializeRequest, Request.
  destruct (RequestOpts_validate _); cbn; [|intros [= <- <-]; discriminate | done].
  rewrite Hv. unfold RequestOpts_id; cbn. rewrite bool_decide_eq_true_2 by done.
  destruct (marshalled _) eqn:E; [|intros [= <- <-]; discriminate | done].
  intros [= <- <-] _. by apply marshalled_Ret.
Qed.

Lemma SerializeAccept_Ret rnd reqMsg req tx ins id msg code :
  isPsetV0 tx = false → Unmarshal reqMsg = (req, true) →
  SerializeAccept (SwapParser := service) rnd reqMsg tx ins = Ret (id, msg, code) → (code < 0)%Z →
  id = rnd ∧ Unmarshal msg = ({| a2_Id := rnd; a2_RequestId := q2_Id req; a2_Transaction := tx;
                                 a2_UnblindedInputs := ins |}, true).
Proof.
  intros Hv Hreq. cbn. unfold parser_SerializeAccept, swap_Accept.
  destruct (AcceptOpts_validate _); cbn; [|intros [= <- <- <-]; discriminate | done].
  rewrite Hv, Hreq. destruct (marshalled _) eqn:E; cbn; [|intros [= <- <- <-]; discriminate | done].
  intros [= <- <- <-] _. split; [done|]. by apply marshalled_Ret.
Qed.

Lemma SerializeComplete_Ret rnd accMsg acc tx id msg code :
  isPsetV0 tx = false → isHex tx = false → Unmarshal accMsg = (acc, true) →
  SerializeComplete (SwapParser := service) rnd accMsg tx = (id, msg, code) → (code < 0)%Z →
  id = rnd ∧ Unmarshal msg = ({| c2_Id := rnd; c2_AcceptId := a2_Id acc; c2_Transaction := tx |}, true).
Proof.
  intros Hv Hh Hacc. cbn. unfold parser_SerializeComplete, swap_Complete.
  destruct (CompleteOpts_validate _); cbn; [|intros [= <- <- <-]; discriminate..].
  unfold CompleteOpts_forV1; cbn. rewrite Hv, Hh, Hacc.
  destruct (check_signatures _); cbn; [|intros [= <- <- <-]; discriminate..].
  destruct (marshalled _) eqn:E; cbn; [|intros [= <- <- <-]; discriminate..].
  intros [= <- <- <-] _. split; [done|]. by apply marshalled_Ret.
Qed.

(** C11: the messages of a trade on version 2 transactions read back what was
    written and form a chain: the request is recovered whole, the accept message
    names the request, the complete message names the accept message. *)
Theorem swap_messages_roundtrip r rq ra rc reqMsg accMsg compMsg aid cid c1 c2 c3 tx1 tx2 ins :
  isPsetV0 (sr_Transaction r) = false → sr_Id r ≠ ""%string →
  isPsetV0 tx1 = false → isPsetV0 tx2 = false → isHex tx2 = false →
  SerializeRequest (SwapParser := service) rq r = Ret (reqMsg, c1) → (c1 < 0)%Z →
  SerializeAccept (SwapParser := service) ra reqMsg tx1 ins = Ret (aid, accMsg, c2) → (c2 < 0)%Z →
  SerializeComplete (SwapParser := service) rc accMsg tx2 = (cid, compMsg, c3) → (c3 < 0)%Z →
  DeserializeRequest (SwapParser := service) reqMsg (sr_FeeAsset r) (sr_FeeAmount r) = r ∧
  DeserializeAccept (SwapParser := service) accMsg
    = {| sa_Id := aid; sa_RequestId := sr_Id r; sa_Transaction := tx1; sa_UnblindedInputs := ins |} ∧
  DeserializeComplete (SwapParser := service) compMsg
    = {| sc_Id := cid; sc_AcceptId := aid; sc_Transaction := tx2 |}.
Proof.
  intros Hv Hid Hv1 Hv2 Hh Hr Hc1 Ha Hc2 Hc Hc3.
  apply SerializeRequest_Ret in Hr; [|done..].
  eapply SerializeAccept_Ret in Ha as [-> Ha]; [|done..].
  eapply SerializeComplete_Ret in Hc as [-> Hc]; [|done..].
  cbn. unfold parser_DeserializeRequest, parser_DeserializeAccept, parser_DeserializeComplete.
  rewrite Hr, Ha, Hc. by destruct r.
Qed.

(** Completing a trade with a PSET nothing can be extracted from, such as
    one that is not fully signed, dereferences the nil transaction: the call
    panics instead of failing the trade. *)
Theorem unsigned_pset_panics now now' rc rf tx ptx t acc :
  IsAccepted t = true → IsExpired now t = false → tr_SwapAccept t = Some acc →
  psetv2_NewPsetFromBase64 tx = Some ptx → Extract (FinalizeAll ptx) = None →
  Complete (H0 := service) now now' rc rf tx t = (t, Panic NilDereference).
Proof.
  intros Ha He Hacc Hp Hx. unfold Complete. rewrite Ha, He, Hacc.
  apply Z.eqb_eq in Ha. rewrite Ha. cbn. unfold parser_ParseSwapTransaction. by rewrite Hp, Hx.
Qed.
End messages.

(** * A concrete library *)
Module SwapExamples.
#[global] Instance UnblindedInput_eq_dec : EqDecision UnblindedInput.
Proof. solve_decision. Defined.
#[global] Instance UnblindedInput_countable : Countable UnblindedInput.
Proof.
  refine (inj_countable' (λ i, (ui_Index i, ui_Asset i, ui_Amount i, ui_AssetBlinder i, ui_AmountBlinder i))
    (λ '(a, b, c, d, e), Build_UnblindedInput a b c d e) _). by intros [].
Defined.

(** A message is written as the code of the tuple of its fields. *)
Definition tuple_codec {M T} `{Countable T} (enc : M → T) (dec : T → M) (zero : M) : ProtoMessage M := {|
  Marshal x := Some [Zpos (encode (enc x))];
  Unmarshal b := match b with
    | [Zpos p] => match decode p with Some t => (dec t, true) | None => (zero, false) end
    | _ => (zero, false)
    end |}.

Lemma tuple_codec_laws {M T} `{Countable T} (enc : M → T) (dec : T → M) zero :
  (∀ x, dec (enc x) = x) → @ProtoLaws M (tuple_codec enc dec zero).
Proof. intros Hto x b [= <-]. cbn. by rewrite decode_encode, Hto. Qed.

#[global] Instance codecs : Codecs := {|
  codec_q1 := tuple_codec (λ q, q1_Id q) (λ a, Build_V1SwapRequest a "" 0 "" 0 "" None None)
    (Build_V1SwapRequest "" "" 0 "" 0 "" None None);
  codec_q2 := tuple_codec
    (λ q, (q2_Id q, q2_AssetP q, q2_AmountP q, q2_AssetR q, q2_AmountR q, q2_Transaction q,
           q2_UnblindedInputs q))
    (λ '(a, b, c, d, e, f, g), Build_V2SwapRequest a b c d e f g)
    (Build_V2SwapRequest "" "" 0 "" 0 "" []);
  codec_a1 := tuple_codec (λ q, a1_Id q) (λ a, Build_V1SwapAccept a "" "" None None)
    (Build_V1SwapAccept "" "" "" None None);
  codec_a2 := tuple_codec (λ q, (a2_Id q, a2_RequestId q, a2_Transaction q, a2_UnblindedInputs q))
    (λ '(a, b, c, d), Build_V2SwapAccept a b c d) (Build_V2SwapAccept "" "" "" []);
  codec_c1 := tuple_codec (λ q, (c1_Id q, c1_AcceptId q, c1_Transaction q))
    (λ '(a, b, c), Build_V1SwapComplete a b c) (Build_V1SwapComplete "" "" "");
  codec_c2 := tuple_codec (λ q, (c2_Id q, c2_AcceptId q, c2_Transaction q))
    (λ '(a, b, c), Build_V2SwapComplete a b c) (Build_V2SwapComplete "" "" "");
  codec_f1 := tuple_codec (λ q, (f1_Id q, f1_MessageId q, f1_FailureCode q, f1_FailureMessage q))
    (λ '(a, b, c, d), Build_V1SwapFail a b c d) (Build_V1SwapFail "" "" 0 "");
  codec_f2 := tuple_codec (λ q, (f2_Id q, f2_MessageId q, f2_FailureCode q, f2_FailureMessage q))
    (λ '(a, b, c, d), Build_V2SwapFail a b c d) (Build_V2SwapFail "" "" 0 "");
|}.
#[global] Instance laws_q2 : ProtoLaws V2SwapRequest.
Proof. apply tuple_codec_laws. by intros []. Qed.
#[global] Instance laws_a2 : ProtoLaws V2SwapAccept.
Proof. apply tuple_codec_laws. by intros []. Qed.
#[global] Instance laws_c2 : ProtoLaws V2SwapComplete.
Proof. apply tuple_codec_laws. by intros []. Qed.

(** A PSET with one input that pays 10000 of "R" to the proposer and 5 of "P"
    back; "signed" is the one that can be extracted. *)
#[global] Instance elements : Elements := {
  pset := (); pset_NewPsetFromBase64 _ := None; pset_Inputs _ := [];
  UnsignedTx_Indexes _ := []; UnsignedTx_Outputs _ := []; pset_ValidateAllSignatures _ := None;
  psetv2 := string;
  psetv2_NewPsetFromBase64 tx :=
    if bool_decide (tx = "pset"%string ∨ tx = "signed"%string) then Some tx else None;
  InputCount _ := 1%Z;
  psetv2_Inputs _ := [{| px_PreviousTxid := [7%Z]; px_PreviousTxIndex := 0; px_Utxo := Some [1%Z];
                         px_RedeemScript := []; px_WitnessScript := [] |}];
  psetv2_Outputs _ := [{| out_Asset := [82%Z]; out_Value := 10000; out_Script := [1%Z]; out_BlindingPubkey := [] |};
                       {| out_Asset := [80%Z]; out_Value := 5; out_Script := [1%Z]; out_BlindingPubkey := [] |}];
  psetv2_ValidateAllSignatures _ := Some true;
  FinalizeAll p := p;
  transaction := string;
  Extract p := if bool_decide (p = "signed"%string) then Some p else None;
  NewTxFromHex h := if bool_decide (h = "txhex"%string) then Some "txhash"%string else None;
  ToHex t := t; TxHash t := t;
  TxIDFromBytes b := if bool_decide (b = [82%Z]) then "R" else "P";
}.

Definition input (i : Z) (asset : string) (amount : Z) : UnblindedInput :=
  {| ui_Index := i; ui_Asset := asset; ui_Amount := amount; ui_AssetBlinder := ""; ui_AmountBlinder := "" |}.
Definition request : SwapRequest := {|
  sr_Id := "req"; sr_AssetP := "P"; sr_AssetR := "R"; sr_AmountP := 30075; sr_AmountR := 10000;
  sr_Transaction := "pset"; sr_FeeAsset := "P"; sr_FeeAmount := 75;
  sr_UnblindedInputs := [input 0 "P" 30005] |}.
Definition request_opts : RequestOpts := {|
  ro_Id := "req"; AssetToSend := "P"; AmountToSend := 30075; AssetToReceive := "R";
  AmountToReceive := 10000; ro_Transaction := "pset"; ro_InputBlindingKeys := None;
  ro_OutputBlindingKeys := None; ro_UnblindedInputs := [input 0 "P" 30005];
  ro_FeeAsset := "P"; ro_FeeAmount := 75 |}.

Lemma request_amounts_exact_witness : validateSwapRequestTx request_opts = Ret ().
Proof.
  apply (request_amounts_exact (H := elements) request_opts ("pset"%string : @psetv2 elements)); [reflexivity | discriminate |].
  split; [repeat constructor|]. exists 1%Z. split; [by left|]. split; reflexivity.
Defined.

Definition reqMsg : bytes :=
  match SerializeRequest (SwapParser := service) "r" request with Ret (m, _) => m | _ => [] end.
Definition accMsg : bytes :=
  match SerializeAccept (SwapParser := service) "acc" reqMsg "pset" [] with
  | Ret (_, m, _) => m | _ => [] end.
Definition compMsg : bytes := snd (fst (SerializeComplete (SwapParser := service) "cmp" accMsg "signed")).

Lemma swap_messages_roundtrip_witness :
  DeserializeRequest (SwapParser := service) reqMsg "P" 75 = request ∧
  DeserializeAccept (SwapParser := service) accMsg
    = {| sa_Id := "acc"; sa_RequestId := "req"; sa_Transaction := "pset"; sa_UnblindedInputs := [] |} ∧
  DeserializeComplete (SwapParser := service) compMsg
    = {| sc_Id := "cmp"; sc_AcceptId := "acc"; sc_Transaction := "signed" |}.
Proof.
  apply (swap_messages_roundtrip request "r" "acc" "cmp" reqMsg accMsg compMsg "acc" "cmp"
    (-1) (-1) (-1) "pset" "signed" []); first [discriminate | vm_compute; reflexivity].
Defined.

Lemma unsigned_pset_panics_witness :
  ∃ t, TradeExamples.run [TradeExamples.OpP; TradeExamples.OpA] (NewTrade "id") = Some t ∧
    Complete (H0 := service) (nanos 1100) (nanos 1101) "c" "f" "pset" t = (t, Panic NilDereference).
Proof.
  eexists. split; [reflexivity|].
  eapply unsigned_pset_panics with (ptx := "pset"%string : @psetv2 elements); reflexivity.
Defined.
End SwapExamples.
