(* ===== verification/Wallet.v ===== *)
(** The wallet service: internal/core/application/wallet.

    The remote wallet (the ocean daemon) is the parameter [WalletPort]: every
    call is an action on its state.  Modelled: the composition of a swap
    transaction (CompleteSwap) and of a payment (SendToMany), and the queue of
    notification handlers with the goroutine that serves it, as a step relation
    that interleaves with registrations. *)

From Stdlib Require Import ZArith Lia.
From stdpp Require Import base tactics strings list gmap.
From S2P Require Import Prelude Errors Market Trade SwapMsg.

(** * Ports *)

Record Utxo := {
  ut_Txid : string; ut_Index : Z; ut_Asset : string; ut_Value : Z; ut_Script : string;
  ut_AssetBlinder : string; ut_ValueBlinder : string; ut_RedeemScript : string;
  ut_SpentTimestamp : option Z   (* None: no spent status or no block info *) }.

Record Balance := {
  ConfirmedBalance : Z; UnconfirmedBalance : Z; LockedBalance : Z; TotalBalance : Z }.

(** wallet/types.go *)
Record input := {
  in_txid : bytes; in_index : Z; in_script : string; in_scriptSigSize : Z; in_witnessSize : Z }.
Record output := { o_asset : string; o_amount : Z; o_script : string; o_blindKey : string }.
#[global] Instance output_eq_dec : EqDecision output.
Proof. solve_decision. Defined.

(** ports.Account and ports.Transaction over a wallet state [W], and the helpers
    of go-elements: address.FromConfidential (None: a nil result) and
    elementsutil.TxIDToBytes. *)
Class WalletPort (W : Type) := {
  GetBalance : string → action W error (gmap string Balance);
  DeriveAddresses : string → Z → action W error (list string);
  DeriveChangeAddresses : string → Z → action W error (list string);
  SelectUtxos : string → string → Z → action W error (list Utxo * Z * Z);
  EstimateFees : list input → list output → Z → action W error Z;
  CreatePset : list input → list output → action W error string;
  UpdatePset : string → list input → list output → action W error string;
  BlindPset : string → list UnblindedInput → action W error string;
  SignPset : string → bool → action W error string;
  BroadcastTransaction : string → action W error string;
  FromConfidential : string → option (bytes * bytes);
  TxIDToBytes : string → bytes;
}.

(** * Amounts *)

Definition totOutputAmountPerAsset (outs : list output) : gmap string Z :=
  foldl (λ tot o, <[o_asset o := u64 (default 0%Z (tot !! o_asset o) + o_amount o)]> tot) ∅ outs.

(** An output to an address; [FromConfidential]'s error is discarded. *)
Section wallet.
Context {W : Type} `{WalletPort W} `{Elements} `{MapOrder}.
Variable nativeAsset : string.

Definition address_output (asset : string) (amount : Z) (addr : string) : outcome error output :=
  '(script, key) ← deref (FromConfidential addr);
  Ret {| o_asset := asset; o_amount := amount; o_script := hex_EncodeToString script;
         o_blindKey := hex_EncodeToString key |}.

Definition utxo_input (u : Utxo) : input :=
  let multisig := negb (bool_decide (ut_RedeemScript u = ""%string)) in
  {| in_txid := TxIDToBytes (ut_Txid u); in_index := ut_Index u; in_script := ut_Script u;
     in_scriptSigSize := if multisig then 35 else 0; in_witnessSize := if multisig then 223 else 0 |}.
Definition fee_input (u : Utxo) : input :=
  {| in_txid := TxIDToBytes (ut_Txid u); in_index := ut_Index u; in_script := ut_Script u;
     in_scriptSigSize := 0; in_witnessSize := 0 |}.

(** The sizes CompleteSwap assumes for the inputs already in the transaction. *)
Definition existing_input (i : PsetInput) : outcome error input :=
  script ← deref (px_Utxo i);
  let scriptSigSize := if bool_decide (px_RedeemScript i = []) then 0%Z else 223%Z in
  let '(scriptSigSize, witnessSize) :=
    if bool_decide (px_WitnessScript i = []) then (scriptSigSize, 0%Z)
    else (if (0 <? scriptSigSize)%Z then 35%Z else scriptSigSize, 223%Z) in
  Ret {| in_txid := px_PreviousTxid i; in_index := px_PreviousTxIndex i;
         in_script := hex_EncodeToString script;
         in_scriptSigSize := scriptSigSize; in_witnessSize := witnessSize |}.
Definition existing_output (o : PsetOutput) : output :=
  {| o_asset := hex_EncodeToString (rev (out_Asset o)); o_amount := out_Value o;
     o_script := hex_EncodeToString (out_Script o);
     o_blindKey := hex_EncodeToString (out_BlindingPubkey o) |}.

Fixpoint existing_inputs (l : list PsetInput) : outcome error (list input) :=
  match l with
  | [] => Ret []
  | i :: l => x ← existing_input i; r ← existing_inputs l; Ret (x :: r)
  end.

(** ** Paying network fees

    Common tail of SendToMany and CompleteSwap: with [exIns] and [exOuts]
    already in the transaction, selects utxos of the fee account for the
    estimated fee plus 150 sats, sends the change back, estimates again and
    moves the difference into the change.  [derive] is the call that derives the
    change address. *)
Definition add_network_fees (derive : string → Z → action W error (list string))
    (exIns : list input) (exOuts : list output)
    (inputs : list input) (outputs : list output) (msatsPerByte : Z)
    : action W error (list input * list output * list Utxo) :=
  dummyFeeAmount ← EstimateFees (exIns ++ inputs) (exOuts ++ outputs) msatsPerByte;
  let dummyFeeAmount := u64 (dummyFeeAmount + 150) in
  '(feeUtxos, change, _) ← SelectUtxos FeeAccount nativeAsset dummyFeeAmount;
  let inputs := inputs ++ (fee_input <$> feeUtxos) in
  '(outputs, feeAmount) ←
    (if (0 <? change)%Z then
       addresses ← derive FeeAccount 1%Z;
       addr ← lift (index addresses 0);
       changeOut ← lift (address_output nativeAsset change addr);
       feeAmount ← EstimateFees (exIns ++ inputs) (exOuts ++ outputs ++ [changeOut]) msatsPerByte;
       let diff := u64 (dummyFeeAmount - feeAmount) in
       let changeOut := {| o_asset := o_asset changeOut; o_amount := u64 (o_amount changeOut + diff);
                           o_script := o_script changeOut; o_blindKey := o_blindKey changeOut |} in
       mret (outputs ++ [changeOut], feeAmount)
     else mret (outputs, dummyFeeAmount) : action W error (list output * Z));
  let feeOut := {| o_asset := nativeAsset; o_amount := feeAmount; o_script := ""; o_blindKey := "" |} in
  mret (inputs, outputs ++ [feeOut], feeUtxos).

(** ** CompleteSwap *)

(** The inputs and outputs the daemon adds to the swap transaction, the utxos
    it selected and the time they stay locked. *)
Definition swap_parts (account : string) (r : SwapRequest) (msatsPerByte : Z) (feesToAdd : bool)
    : action W error (list input * list output * list Utxo * Z) :=
  ptx ← lift (deref (psetv2_NewPsetFromBase64 (sr_Transaction r)));
  existingInputs ← lift (existing_inputs (psetv2_Inputs ptx));
  let existingOutputs := existing_output <$> psetv2_Outputs ptx in
  let amountR :=
    if bool_decide (sr_FeeAsset r = sr_AssetR r) && negb feesToAdd
    then u64 (sr_AmountR r - sr_FeeAmount r) else sr_AmountR r in
  '(utxos, change, unlockTime) ← SelectUtxos account (sr_AssetR r) amountR;
  let inputs := utxo_input <$> utxos in
  addresses ← DeriveAddresses account 1%Z;
  addr ← lift (index addresses 0);
  let amountP :=
    if bool_decide (sr_FeeAsset r = sr_AssetP r) && feesToAdd
    then u64 (sr_AmountP r + sr_FeeAmount r) else sr_AmountP r in
  out ← lift (address_output (sr_AssetP r) amountP addr);
  outputs ←
    (if (0 <? change)%Z then
       addresses ← DeriveChangeAddresses account 1%Z;
       addr ← lift (index addresses 0);
       changeOut ← lift (address_output (sr_AssetR r) change addr);
       mret [out; changeOut]
     else mret [out] : action W error (list output));
  '(inputs, outputs, feeUtxos) ←
    add_network_fees DeriveChangeAddresses existingInputs existingOutputs inputs outputs msatsPerByte;
  mret (inputs, outputs, utxos ++ feeUtxos, unlockTime).

Definition CompleteSwap (account : string) (r : SwapRequest) (msatsPerByte : Z) (feesToAdd : bool)
    : action W error (string * list Utxo * Z) :=
  '(inputs, outputs, utxos, unlockTime) ← swap_parts account r msatsPerByte feesToAdd;
  pset ← UpdatePset (sr_Transaction r) inputs outputs;
  blindedPset ← BlindPset pset (sr_UnblindedInputs r);
  signedPset ← SignPset blindedPset false;
  mret (signedPset, utxos, unlockTime).

(** ** SendToMany *)

(** The loop that selects utxos asset by asset. *)
Fixpoint select_all (account : string) (tot : list (string * Z))
    (changes : gmap string Z) (inputs : list input)
    : action W error (gmap string Z * list input) :=
  match tot with
  | [] => mret (changes, inputs)
  | (asset, amount) :: tot =>
      '(utxos, change, _) ← SelectUtxos account asset amount;
      select_all account tot
        (if (0 <? change)%Z then <[asset := change]> changes else changes)
        (inputs ++ (utxo_input <$> utxos))
  end.

(** The loop that pairs changes with the derived addresses. *)
Fixpoint change_outputs (changes : list (string * Z)) (addresses : list string) (i : nat)
    : outcome error (list output) :=
  match changes with
  | [] => Ret []
  | (asset, amount) :: changes =>
      addr ← index addresses i;
      o ← address_output asset amount addr;
      r ← change_outputs changes addresses (S i);
      Ret (o :: r)
  end.

Definition payment_parts (account : string) (outs : list output) (msatsPerByte : Z)
    : action W error (list input * list output) :=
  '(changes, inputs) ← select_all account (range_items (totOutputAmountPerAsset outs)) ∅ [];
  outputs ←
    (if (0 <? size changes)%nat then
       addresses ← DeriveChangeAddresses account (Z.of_nat (size changes));
       co ← lift (change_outputs (range_items changes) addresses 0);
       mret (outs ++ co)
     else mret outs : action W error (list output));
  '(inputs, outputs, _) ← add_network_fees DeriveAddresses [] [] inputs outputs msatsPerByte;
  mret (inputs, outputs).

Definition SendToMany (account : string) (outs : list output) (msatsPerByte : Z)
    : action W error string :=
  '(inputs, outputs) ← payment_parts account outs msatsPerByte;
  pset ← CreatePset inputs outputs;
  blindedPset ← BlindPset pset [];
  txhex ← SignPset blindedPset true;
  BroadcastTransaction txhex.
End wallet.

(** * Theorems: composing transactions *)

(** What SelectUtxos promises: coins of the asset asked for, worth the amount
    and the change. *)
Class WalletLaws (W : Type) `{WalletPort W} : Prop :=
  select_value account asset amount w w' utxos change t :
    SelectUtxos account asset amount w = (w', Ret (utxos, change, t)) →
    Forall (λ u, ut_Asset u = asset) utxos ∧
    foldr (λ u s, ut_Value u + s)%Z 0%Z utxos = (amount + change)%Z ∧ (0 ≤ change)%Z.

Section values.
Local Open Scope Z_scope.

(** How much of an asset coins and outputs hold. *)
Definition coins_of (a : string) (l : list Utxo) : Z :=
  foldr (λ u s, (if bool_decide (ut_Asset u = a) then ut_Value u else 0) + s) 0 l.
Definition outs_of (a : string) (l : list output) : Z :=
  foldr (λ o s, (if bool_decide (o_asset o = a) then o_amount o else 0) + s) 0 l.

Lemma coins_of_app a l1 l2 : coins_of a (l1 ++ l2) = coins_of a l1 + coins_of a l2.
Proof. unfold coins_of. induction l1; cbn in *; lia. Qed.
Lemma outs_of_app a l1 l2 : outs_of a (l1 ++ l2) = outs_of a l1 + outs_of a l2.
Proof. unfold outs_of. induction l1; cbn in *; lia. Qed.

#[global] Arguments outs_of : simpl never.
Lemma outs_of_nil a : outs_of a [] = 0.
Proof. done. Qed.
Lemma outs_of_cons a o l :
  outs_of a (o :: l) = (if bool_decide (o_asset o = a) then o_amount o else 0) + outs_of a l.
Proof. done. Qed.

Lemma coins_of_single a asset l :
  Forall (λ u, ut_Asset u = asset) l →
  coins_of a l = if bool_decide (asset = a) then foldr (λ u s, ut_Value u + s) 0 l else 0.
Proof.
  unfold coins_of. induction 1 as [|u l <- _ IH]; cbn; [by case_bool_decide|].
  rewrite IH. case_bool_decide; lia.
Qed.
End values.

(** What the daemon gives and receives in a swap: the fee is added to what it
    receives or taken from what it gives. *)
Definition given (r : SwapRequest) (feesToAdd : bool) : Z :=
  if bool_decide (sr_FeeAsset r = sr_AssetR r) && negb feesToAdd
  then u64 (sr_AmountR r - sr_FeeAmount r) else sr_AmountR r.
Definition received (r : SwapRequest) (feesToAdd : bool) : Z :=
  if bool_decide (sr_FeeAsset r = sr_AssetP r) && feesToAdd
  then u64 (sr_AmountP r + sr_FeeAmount r) else sr_AmountP r.

Section composing.
Context {W : Type} `{WalletLaws W} `{Elements} `{MapOrder}.
Variable nativeAsset : string.
Local Open Scope Z_scope.

(** Moving the difference between two fee estimates into the change keeps the sum. *)
Lemma eq64_fee change dummy fee : eq64 (change + u64 (dummy - fee) + fee) (dummy + change).
Proof.
  assert (eq64 (change + u64 (dummy - fee) + fee) (change + (dummy - fee) + fee)) as ->
    by (by rewrite eq64_u64).
  unfold eq64. f_equal. lia.
Qed.

Lemma select_coins account asset amount w w' utxos change t a :
  SelectUtxos account asset amount w = (w', Ret (utxos, change, t)) →
  coins_of a utxos = (if bool_decide (asset = a) then amount + change else 0) ∧ 0 ≤ change.
Proof.
  intros (Hall & Hsum & Hc)%select_value. by rewrite (coins_of_single a asset), Hsum.
Qed.

Lemma address_output_Ret asset amount addr o :
  address_output asset amount addr = Ret o → o_asset o = asset ∧ o_amount o = amount.
Proof. unfold address_output. intros Ho. go_inv Ho. done. Qed.

(** The fee coins equal the change and the network fee that are added. *)
Lemma add_network_fees_balanced derive exI exO ins outs msats w w' ins' outs' coins a :
  add_network_fees nativeAsset derive exI exO ins outs msats w = (w', Ret (ins', outs', coins)) →
  ins' = ins ++ (fee_input <$> coins) ∧
  ∃ extra, outs' = outs ++ extra ∧ eq64 (outs_of a extra) (coins_of a coins).
Proof.
  unfold add_network_fees. intros Hn. act_inv Hn. split; [done|].
  match goal with Hs : SelectUtxos _ _ _ _ = _, Hi : (if _ then _ else _) _ = _ |- _ =>
    apply (select_coins _ _ _ _ _ _ _ _ a) in Hs as [-> Hc]; rename Hi into HI end.
  act_inv HI; zify_bool.
  - match goal with Ha : address_output _ _ _ = Ret _ |- _ =>
      apply address_output_Ret in Ha as [-> ->] end.
    rewrite <- app_assoc. eexists. split; [done|].
    cbn. rewrite !outs_of_cons, outs_of_nil; cbn. case_bool_decide; [|done].
    unfold eq64. rewrite u64_add_l, Z.add_0_r.
    apply eq64_fee.
  - eexists. split; [done|]. rewrite outs_of_cons, outs_of_nil; cbn.
    case_bool_decide; [|done]. f_equal. lia.
Qed.

(** The change of the coins the daemon gives. *)
Lemma change_part account asset change out w w' outs a :
  0 ≤ change →
  (if 0 <? change then
     addresses ← DeriveChangeAddresses account 1%Z;
     addr ← lift (index addresses 0);
     changeOut ← lift (address_output asset change addr);
     mret [out; changeOut]
   else mret [out] : action W error (list output)) w = (w', Ret outs) →
  ∃ rest, outs = out :: rest ∧ outs_of a rest = if bool_decide (asset = a) then change else 0.
Proof.
  intros Hc HI. act_inv HI; zify_bool; (eexists; split; [reflexivity|]).
  - match goal with Ha : address_output _ _ _ = Ret _ |- _ =>
      apply address_output_Ret in Ha as [E1 E2] end.
    rewrite outs_of_cons, outs_of_nil, E1, E2. case_bool_decide; lia.
  - rewrite outs_of_nil. case_bool_decide; lia.
Qed.

(** The parts of a swap: the coins added and what the outputs are for. *)
Definition swap_balance (r : SwapRequest) (feesToAdd : bool) (ins : list input) (outs : list output) (utxos : list Utxo) : Prop :=
  (∃ own fee, utxos = own ++ fee ∧ ins = (utxo_input <$> own) ++ (fee_input <$> fee)) ∧
  (∃ out rest, outs = out :: rest ∧ o_asset out = sr_AssetP r ∧
     o_amount out = received r feesToAdd) ∧
  ∀ a, eq64 (coins_of a utxos + if bool_decide (sr_AssetP r = a) then received r feesToAdd else 0)
            (outs_of a outs + if bool_decide (sr_AssetR r = a) then given r feesToAdd else 0).
Lemma swap_steps account r msats feesToAdd w w' signed utxos t :
  CompleteSwap nativeAsset account r msats feesToAdd w = (w', Ret (signed, utxos, t)) →
  ∃ ins outs w1 w2 pset, UpdatePset (sr_Transaction r) ins outs w1 = (w2, Ret pset) ∧
    swap_balance r feesToAdd ins outs utxos ∧
    ∃ w3 blinded w4, BlindPset pset (sr_UnblindedInputs r) w2 = (w3, Ret blinded) ∧ SignPset blinded false w3 = (w4, Ret signed).
Proof.
  unfold CompleteSwap. intros Hs. act_inv Hs.
  match goal with P : swap_parts _ _ _ _ _ _ = _ |- _ => rename P into HP end.
  unfold swap_parts in HP. fold (received r feesToAdd) (given r feesToAdd) in HP. act_inv HP.
  match goal with Hn : add_network_fees _ _ _ _ _ _ _ _ = _, Hc : (if _ then _ else _) _ = _,
      Hsel : SelectUtxos _ _ _ _ = _, Ho : address_output _ _ _ = _ |- _ =>
    rename Hn into HN, Hc into HC, Hsel into HS; apply address_output_Ret in Ho as [Ho1 Ho2] end.
  do 5 eexists. split; [eassumption|]. split; [|eauto]. split.
  { apply (add_network_fees_balanced _ _ _ _ _ _ _ _ _ _ _ ""%string) in HN as [-> _]. eauto. }
  pose proof (select_coins _ _ _ _ _ _ _ _ ""%string HS) as [_ Hnn]. split.
  { apply (add_network_fees_balanced _ _ _ _ _ _ _ _ _ _ _ ""%string) in HN as (_ & e & -> & _).
    apply (change_part _ _ _ _ _ _ _ ""%string) in HC as (rest & -> & _); [|done].
    eexists _, _. split; [reflexivity | done]. }
  intros a. apply (add_network_fees_balanced _ _ _ _ _ _ _ _ _ _ _ a) in HN as (_ & e & -> & HN).
  apply (change_part _ _ _ _ _ _ _ a) in HC as (rest & -> & HC); [|done].
  apply (select_coins _ _ _ _ _ _ _ _ a) in HS as [HS _].
  rewrite coins_of_app, outs_of_app, HN, HS, outs_of_cons.
  rewrite HC, Ho1, Ho2. unfold eq64. f_equal. repeat case_bool_decide; lia.
Qed.

(** What holds of every coin the wallet selects holds of the coins of a swap. *)
Lemma swap_coins (P : Utxo → Prop) account r msats feesToAdd w w' signed utxos t :
  (∀ account asset amount w w' l c t, SelectUtxos account asset amount w = (w', Ret (l, c, t)) → Forall P l) →
  CompleteSwap nativeAsset account r msats feesToAdd w = (w', Ret (signed, utxos, t)) → Forall P utxos.
Proof.
  intros HP Hs. unfold CompleteSwap in Hs. act_inv Hs.
  match goal with E : swap_parts _ _ _ _ _ _ = _ |- _ => rename E into HS; unfold swap_parts in HS; act_inv HS end.
  match goal with E : add_network_fees _ _ _ _ _ _ _ _ = _ |- _ => rename E into HN; unfold add_network_fees in HN; act_inv HN end.
  apply Forall_app. split; by eapply HP.
Qed.

(** the inputs the daemon adds to a swap transaction are the coins it
    selected, its first output receives the proposer's amount, and for every
    asset the added coins plus what it receives equal, as 64-bit amounts, the
    added outputs (network fee included) plus what it gives; the fee is added to
    the amount received or taken from the amount given according to feesToAdd. *)
Theorem complete_swap_balanced account r msats feesToAdd w w' signed utxos t :
  CompleteSwap nativeAsset account r msats feesToAdd w = (w', Ret (signed, utxos, t)) →
  ∃ ins outs w1 w2 pset, UpdatePset (sr_Transaction r) ins outs w1 = (w2, Ret pset) ∧
    (∃ own fee, utxos = own ++ fee ∧ ins = (utxo_input <$> own) ++ (fee_input <$> fee)) ∧
    (∃ out rest, outs = out :: rest ∧ o_asset out = sr_AssetP r ∧
       o_amount out = received r feesToAdd) ∧
    ∀ a, eq64 (coins_of a utxos + if bool_decide (sr_AssetP r = a) then received r feesToAdd else 0)
              (outs_of a outs + if bool_decide (sr_AssetR r = a) then given r feesToAdd else 0).
Proof. intros (ins & outs & w1 & w2 & pset & HU & (? & ? & ?) & _)%swap_steps. eauto 9. Qed.

(** ** Payments *)

Lemma tot_amount_spec outs a :
  eq64 (default 0 (totOutputAmountPerAsset outs !! a)) (outs_of a outs).
Proof.
  unfold totOutputAmountPerAsset.
  enough (∀ m : gmap string Z, eq64 (default 0 (foldl (λ tot o, <[o_asset o := u64 (default 0 (tot !! o_asset o)
    + o_amount o)]> tot) m outs !! a)) (default 0 (m !! a) + outs_of a outs)) as Hm.
  { rewrite Hm. by rewrite lookup_empty. }
  induction outs as [|o outs IH]; intros m; [rewrite outs_of_nil, Z.add_0_r; done|].
  cbn [foldl]. rewrite IH, outs_of_cons.
  case_bool_decide as E.
  - rewrite E, lookup_insert_eq. cbn. rewrite eq64_u64. unfold eq64. f_equal. lia.
  - rewrite lookup_insert_ne by done. unfold eq64. f_equal; lia.
Qed.

(** Every asset is selected once: its coins are the amount and the change. *)
Lemma select_all_spec account tot changes ins w w' changes' ins' :
  NoDup tot.*1 → (∀ k, k ∈ tot.*1 → changes !! k = None) →
  select_all account tot changes ins w = (w', Ret (changes', ins')) →
  ∃ coins, ins' = ins ++ (utxo_input <$> coins) ∧
    ∀ a, coins_of a coins + default 0 (changes !! a) = lsum a tot + default 0 (changes' !! a).
Proof.
  revert changes ins w. induction tot as [|[k v] tot IH]; cbn [select_all fmap list_fmap fst];
    intros changes ins w Hnd Hk Hs; act_inv Hs.
  { exists []. rewrite app_nil_r. split; [done|]. intros a. rewrite lsum_nil; cbn; lia. }
  inversion_clear Hnd as [|? ? Hnk Hnd'].
  match goal with Hsel : SelectUtxos _ _ _ _ = (_, Ret (?l, ?c, _)) |- _ =>
    pose proof (λ a, select_coins _ _ _ _ _ _ _ _ a Hsel) as HS; rename l into coins0, c into change end.
  apply IH in Hs as (coins & -> & HA); [|done|].
  2:{ intros k' Hk'. destruct (0 <? change); [|apply Hk; set_solver].
      rewrite lookup_insert_ne by set_solver. apply Hk. set_solver. }
  exists (coins0 ++ coins). rewrite fmap_app, app_assoc. split; [done|]. intros a.
  specialize (HA a). destruct (HS a) as [HS1 HS2]. rewrite coins_of_app, lsum_cons, HS1. cbn [fst snd].
  assert (changes !! k = None) as Hck by (apply Hk; set_solver).
  case_bool_decide; subst; destruct (Z.ltb_spec 0 change);
    rewrite ?lookup_insert_eq, ?lookup_insert_ne, ?Hck in * by done; cbn in *; lia.
Qed.

Lemma change_outputs_spec changes addrs i outs a :
  change_outputs changes addrs i = Ret outs → outs_of a outs = lsum a changes.
Proof.
  revert i outs. induction changes as [|[k v] changes IH]; cbn [change_outputs];
    intros i outs Hc; go_inv Hc; [done|].
  match goal with Ha : address_output _ _ _ = Ret _ |- _ => apply address_output_Ret in Ha as [E1 E2] end.
  match goal with Hr : change_outputs _ _ _ = Ret _ |- _ => apply IH in Hr end.
  rewrite outs_of_cons, lsum_cons, E1, E2; cbn [fst snd]. congruence.
Qed.

Lemma payment_changes account changes outs w w' outs' :
  (if (0 <? size changes)%nat then
     addresses ← DeriveChangeAddresses account (Z.of_nat (size changes));
     co ← lift (change_outputs (range_items changes) addresses 0);
     mret (outs ++ co)
   else mret outs : action W error (list output)) w = (w', Ret outs') →
  ∃ co, outs' = outs ++ co ∧ ∀ a, outs_of a co = default 0 (changes !! a).
Proof.
  intros HI. act_inv HI.
  - eexists. split; [done|]. intros a.
    match goal with Hc : change_outputs _ _ _ = Ret _ |- _ =>
      apply (change_outputs_spec _ _ _ _ a) in Hc as -> end.
    apply lsum_range.
  - exists []. rewrite app_nil_r. split; [done|]. intros a.
    assert (changes = ∅) as ->; [|by rewrite lookup_empty].
    apply map_size_empty_iff. destruct (Nat.ltb_spec 0 (size changes)); [done | lia].
Qed.

(** a payment conserves value: for every asset the coins SendToMany puts
    in the transaction, of the account and of the fee account, are worth, as
    64-bit amounts, its outputs: those asked for, which come first, the changes
    and the network fee.  The order in which Go walks its maps does not matter. *)
Theorem send_to_many_balanced account outs msats w w' txid :
  SendToMany nativeAsset account outs msats w = (w', Ret txid) →
  ∃ ins outs' extra own fee w1 w2 pset, CreatePset ins outs' w1 = (w2, Ret pset) ∧
    ins = (utxo_input <$> own) ++ (fee_input <$> fee) ∧ outs' = outs ++ extra ∧
    ∀ a, eq64 (coins_of a own + coins_of a fee) (outs_of a outs').
Proof.
  unfold SendToMany. intros Hs. act_inv Hs.
  match goal with P : payment_parts _ _ _ _ _ = _ |- _ => rename P into HP end.
  unfold payment_parts in HP. act_inv HP.
  match goal with Ha : select_all _ _ _ _ _ = _ |- _ => rename Ha into HA end.
  match goal with Hi : (if _ then _ else _) _ = (_, Ret ?o) |- _ =>
    rename Hi into HI, o into outs1 end.
  match goal with Hn : add_network_fees _ _ _ _ _ _ _ _ = _ |- _ => rename Hn into HN end.
  apply select_all_spec in HA as (own & -> & HA);
    [|apply range_items_keys | intros; apply lookup_empty].
  pose proof HN as HN'.
  apply (add_network_fees_balanced _ _ _ _ _ _ _ _ _ _ _ ""%string) in HN' as (-> & extra & -> & _).
  apply payment_changes in HI as (co & -> & HC).
  do 8 eexists. split; [eassumption|]. split; [done|]. rewrite <- app_assoc. split; [done|]. intros a.
  apply (add_network_fees_balanced _ _ _ _ _ _ _ _ _ _ _ a) in HN
    as (_ & e & [_ ->]%app_inj_1 & HN); [|done].
  specialize (HA a). rewrite lookup_empty, lsum_range in HA. cbn in HA. rewrite Z.add_0_r in HA.
  rewrite !outs_of_app, HA, HC, <- HN, (tot_amount_spec outs a). unfold eq64. f_equal. lia.
Qed.
End composing.

(** * Notification handlers

    txNotificationQueue and utxoNotificationQueue are the same code over two
    types of handlers; the list is the state, pushBack and pop take its lock. *)
Module Queue.
Section queue.
Context {Handler : Type}.

Definition pushBack (h : Handler) (q : list Handler) : list Handler := q ++ [h].
(** [None] is the nil function pop returns on an empty queue. *)
Definition pop (q : list Handler) : list Handler * option Handler :=
  match q with [] => ([], None) | h :: q => (q, Some h) end.

(** Where the goroutine listenToTxNotifications (or listenToUtxoNotifications)
    is: waiting on the channel, in the loop over the handlers with [i] rounds to
    go, putting the handlers to repeat back, or dead for calling a nil function. *)
Inductive phase :=
  | Waiting
  | Running (i : nat) (toRepeat : list Handler)
  | Requeuing (toRepeat : list Handler)
  | Crashed.

Record state := {
  queue : list Handler;
  at_ : phase;
  finished : list Handler;     (* handlers that returned true *)
  registered : list Handler    (* every handler ever registered *) }.

Definition init : state := {| queue := []; at_ := Waiting; finished := []; registered := [] |}.

(** One round of the loop: pop, call, keep the handler if it is not done. *)
Definition round (s : state) (i : nat) (toRepeat : list Handler) (done : bool) : state :=
  match pop (queue s) with
  | (q, Some h) =>
      {| queue := q; at_ := Running i (if done then toRepeat else toRepeat ++ [h]);
         finished := if done then finished s ++ [h] else finished s;
         registered := registered s |}
  | (q, None) =>
      {| queue := q; at_ := Crashed; finished := finished s; registered := registered s |}
  end.

Definition with_phase (p : phase) (s : state) : state :=
  {| queue := queue s; at_ := p; finished := finished s; registered := registered s |}.

(** RegisterHandlerForTxEvent and RegisterHandlerForUtxoEvent run in any other
    goroutine, between any two steps. *)
Inductive step (s : state) : state → Prop :=
  | step_register h :
      step s {| queue := pushBack h (queue s); at_ := at_ s; finished := finished s;
                registered := registered s ++ [h] |}
  | step_notification :
      at_ s = Waiting → step s (with_phase (Running (length (queue s)) []) s)
  | step_handler i toRepeat done :
      at_ s = Running (S i) toRepeat → step s (round s i toRepeat done)
  | step_loop_end toRepeat :
      at_ s = Running 0 toRepeat → step s (with_phase (Requeuing toRepeat) s)
  | step_requeue h toRepeat :
      at_ s = Requeuing (h :: toRepeat) →
      step s {| queue := pushBack h (queue s); at_ := Requeuing toRepeat; finished := finished s;
                registered := registered s |}
  | step_requeue_end : at_ s = Requeuing [] → step s (with_phase Waiting s).

(** Handlers taken out of the queue by the round in progress. *)
Definition in_flight (p : phase) : list Handler :=
  match p with Running _ l => l | Requeuing l => l | _ => [] end.

Definition invariant (s : state) : Prop :=
  registered s ≡ₚ finished s ++ in_flight (at_ s) ++ queue s ∧
  match at_ s with Running i _ => i ≤ length (queue s) | Crashed => False | _ => True end.

Lemma invariant_init : invariant init.
Proof. split; done. Qed.

Lemma invariant_step s s' : invariant s → step s s' → invariant s'.
Proof.
  destruct s as [q p f r]. unfold invariant; cbn. intros [HP HL] Hs.
  inversion Hs; subst; cbn in *; subst; cbn in *.
  - unfold pushBack. split.
    + by rewrite HP, !app_assoc.
    + destruct p; try done. rewrite length_app. lia.
  - split; [done | lia].
  - unfold round; cbn. destruct q as [|x q]; cbn in *; [lia|].
    destruct done; (split; [cbn; rewrite HP | cbn; lia]).
    + rewrite <- app_assoc. apply Permutation_app_head. cbn. by rewrite <- Permutation_middle.
    + rewrite <- app_assoc. done.
  - split; done.
  - split; [|done]. unfold pushBack. rewrite HP. apply Permutation_app_head. cbn.
    rewrite app_assoc. apply Permutation_cons_append.
  - split; done.
Qed.

(** whatever the interleaving of notifications and registrations, no
    handler is lost or duplicated: every registered handler is in the queue, or
    was taken out by the round in progress, or has returned true; and pop is
    never called on an empty queue, so no nil handler is called. *)
Theorem handlers_never_lost s :
  rtc step init s →
  registered s ≡ₚ finished s ++ in_flight (at_ s) ++ queue s ∧ at_ s ≠ Crashed ∧
  (at_ s = Waiting → registered s ≡ₚ finished s ++ queue s).
Proof.
  intros HR. assert (invariant s) as [HP HL].
  { generalize invariant_init. induction HR; eauto using invariant_step. }
  split; [done|]. split; [by intros E; rewrite E in HL|]. intros E. by rewrite E in HP.
Qed.
(** ** Progress of a round

    [run n s s']: the goroutine takes [n] steps of the round in progress, while
    other goroutines register handlers in between. *)
Inductive run : nat → state → state → Prop :=
  | run_refl s : run 0 s s
  | run_register n s h s' :
      run n {| queue := pushBack h (queue s); at_ := at_ s; finished := finished s;
               registered := registered s ++ [h] |} s' → run n s s'
  | run_goroutine n s s1 s' :
      at_ s ≠ Waiting → registered s1 = registered s → step s s1 → run n s1 s' → run (S n) s s'.

(** Steps the round in progress still needs, at most. *)
Definition work (s : state) : nat :=
  match at_ s with
  | Running i toRepeat => 2 * i + length toRepeat + 2
  | Requeuing toRepeat => length toRepeat + 1
  | _ => 0
  end.

(** The round started by a notification in state [s0], seen from a later state:
    [todo] handlers are still to be called, [rep] have been put back. *)
Definition round_state (s0 s : state) : Prop :=
  ∃ fin new, finished s = finished s0 ++ fin ∧ registered s = registered s0 ++ new ∧
  match at_ s with
  | Running i toRepeat =>
      ∃ todo, queue s = todo ++ new ∧ length todo = i ∧ queue s0 ≡ₚ fin ++ toRepeat ++ todo
  | Requeuing toRepeat =>
      ∃ rep, queue s ≡ₚ rep ++ new ∧ queue s0 ≡ₚ fin ++ toRepeat ++ rep
  | Waiting => ∃ rep, queue s ≡ₚ rep ++ new ∧ queue s0 ≡ₚ fin ++ rep
  | Crashed => False
  end.

Lemma round_state_register s0 s h :
  round_state s0 s →
  round_state s0 {| queue := pushBack h (queue s); at_ := at_ s; finished := finished s;
                    registered := registered s ++ [h] |}.
Proof.
  intros (fin & new & HF & HR & HQ). exists fin, (new ++ [h]). cbn. unfold pushBack.
  split; [done|]. split; [by rewrite HR, app_assoc|].
  destruct (at_ s).
  - destruct HQ as (rep & HQ & H0). exists rep. by rewrite HQ, app_assoc.
  - destruct HQ as (todo & HQ & HL & H0). exists todo. by rewrite HQ, app_assoc.
  - destruct HQ as (rep & HQ & H0). exists rep. by rewrite HQ, app_assoc.
  - done.
Qed.

Lemma register_grows (r : list Handler) h : r ++ [h] ≠ r.
Proof. intros E%(f_equal length). rewrite length_app in E. cbn in E. lia. Qed.

Lemma round_state_step s0 s s' :
  round_state s0 s → at_ s ≠ Waiting → registered s' = registered s → step s s' →
  round_state s0 s' ∧ work s' < work s.
Proof.
  destruct s as [q p f r]. unfold round_state, work; cbn.
  intros (fin & new & HF & HR & HQ) HW Hreg Hs.
  inversion Hs; subst; cbn in *; subst; cbn in *; try done.
  - by apply register_grows in Hreg.
  - destruct HQ as (todo & HQ & HL & H0). destruct todo as [|x todo]; [done|].
    injection HL as <-. cbn in HQ. subst q. unfold round; cbn. destruct done; cbn.
    + split; [|lia]. exists (fin ++ [x]), new. rewrite app_assoc. split_and!; [done..|].
      exists todo. split_and!; [done..|]. rewrite H0, <- app_assoc. cbn.
      by rewrite Permutation_middle.
    + rewrite length_app. cbn. split; [|lia]. exists fin, new. split_and!; [done..|].
      exists todo. split_and!; [done..|]. by rewrite H0, <- app_assoc.
  - destruct HQ as (todo & HQ & HL & H0). destruct todo; [|done].
    split; [|lia]. exists fin, new. split_and!; [done..|]. exists []. by rewrite HQ.
  - destruct HQ as (rep & HQ & H0). split; [|lia]. exists fin, new. split_and!; [done..|].
    exists (rep ++ [h]). unfold pushBack. split.
    + by rewrite HQ, <- !app_assoc, (Permutation_app_comm new).
    + rewrite H0. cbn. by rewrite (Permutation_app_comm rep), Permutation_middle.
  - destruct HQ as (rep & HQ & H0). split; [|lia]. exists fin, new. split_and!; [done..|]. by exists rep.
Qed.

Lemma run_round n s0 s s' :
  run n s s' → round_state s0 s → round_state s0 s' ∧ n + work s' ≤ work s.
Proof.
  induction 1 as [|n s h s' _ IH|n s s1 s' HW Hreg Hs _ IH]; intros HI; [done|..].
  - destruct (IH (round_state_register _ _ h HI)) as [HI' HN]. split; [done|]. exact HN.
  - destruct (round_state_step _ _ _ HI HW Hreg Hs) as [H1 HL].
    destruct (IH H1) as [HI' HN]. split; [done | lia].
Qed.

Lemma goroutine_not_stuck s0 s :
  round_state s0 s → at_ s ≠ Waiting → ∃ s', step s s' ∧ registered s' = registered s.
Proof.
  intros (fin & new & _ & _ & HQ) HW. destruct (at_ s) as [|i l|l|] eqn:E; try done.
  - destruct i as [|i]; [eexists; split; [by apply step_loop_end|done]|].
    destruct HQ as ([|x todo] & HQ & HL & _); [done|].
    eexists. split; [by apply (step_handler _ i l true)|]. unfold round. by rewrite HQ.
  - destruct l; eexists; (split; [by econstructor | done]).
Qed.

End queue.
End Queue.

(** * Examples *)
Module WalletExamples.
Definition coin (asset : string) (v : Z) : Utxo := {|
  ut_Txid := "c"; ut_Index := 0; ut_Asset := asset; ut_Value := v; ut_Script := "";
  ut_AssetBlinder := ""; ut_ValueBlinder := ""; ut_RedeemScript := ""; ut_SpentTimestamp := None |}.

(** A wallet that always has one coin of the right asset with 7 sats of change,
    and fees of 300 sats for any transaction. *)
#[global] Instance port : WalletPort () := {
  GetBalance _ := mret ∅;
  DeriveAddresses _ n := mret (replicate (Z.to_nat n) "addr"%string);
  DeriveChangeAddresses _ n := mret (replicate (Z.to_nat n) "change"%string);
  SelectUtxos _ asset amount := mret ([coin asset (amount + 7)], 7%Z, 1600%Z);
  EstimateFees _ _ _ := mret 300%Z;
  CreatePset _ _ := mret "pset"%string;
  UpdatePset _ _ _ := mret "pset"%string;
  BlindPset p _ := mret p;
  SignPset _ _ := mret "signed"%string;
  BroadcastTransaction _ := mret "txid"%string;
  FromConfidential _ := Some ([1%Z], [2%Z]);
  TxIDToBytes _ := [3%Z];
}.
#[global] Instance port_laws : WalletLaws ().
Proof.
  intros ???? w' utxos c t. cbn. intros [= _ <- <- _]. split_and!; [by repeat constructor | cbn; lia | lia].
Qed.

Lemma complete_swap_balanced_witness :
  ∃ utxos t, CompleteSwap "L" "mkt" SwapExamples.request 100 true () = ((), Ret ("signed"%string, utxos, t)) ∧
    (∃ outs, eq64 (coins_of "P" utxos + 30150) (outs_of "P" outs)).
Proof.
  eexists _, _. split; [vm_compute; reflexivity|].
  destruct (complete_swap_balanced "L" "mkt" SwapExamples.request 100 true () () "signed"
    [coin "R" 10007; coin "L" 457] 1600) as (ins & outs & w1 & w2 & p & _ & _ & _ & HB);
    [vm_compute; reflexivity|].
  exists outs. specialize (HB "P"%string). rewrite Z.add_0_r in HB. exact HB.
Defined.

Lemma send_to_many_balanced_witness :
  ∃ own fee outs', eq64 (coins_of "A" own + coins_of "A" fee) (outs_of "A" outs').
Proof.
  destruct (send_to_many_balanced "L" "mkt"
    [{| o_asset := "A"; o_amount := 5; o_script := "s"; o_blindKey := "b" |};
     {| o_asset := "L"; o_amount := 6; o_script := "s"; o_blindKey := "b" |}] 100 () () "txid")
    as (_ & outs' & _ & own & fee & _ & _ & _ & _ & _ & _ & HB); [vm_compute; reflexivity|].
  exists own, fee, outs'. apply HB.
Defined.

(** Two handlers, a notification, and a third registered while it is served. *)
Lemma handlers_never_lost_witness :
  ∃ s, rtc Queue.step Queue.init s ∧ Queue.at_ s ≠ Queue.Crashed ∧ Queue.queue s = [3; 2].
Proof.
  assert (rtc Queue.step Queue.init
    {| Queue.queue := [3; 2]; Queue.at_ := Queue.Requeuing []; Queue.finished := [1];
       Queue.registered := [1; 2; 3] |}) as HR.
  { eapply rtc_l; [apply (Queue.step_register _ 1)|]. eapply rtc_l; [apply (Queue.step_register _ 2)|].
    eapply rtc_l; [apply Queue.step_notification; reflexivity|].
    eapply rtc_l; [apply (Queue.step_handler _ 1 [] true); reflexivity|].
    eapply rtc_l; [apply (Queue.step_register _ 3)|].
    eapply rtc_l; [apply (Queue.step_handler _ 0 [] false); reflexivity|].
    eapply rtc_l; [apply (Queue.step_loop_end _ [2]); reflexivity|].
    eapply rtc_l; [apply (Queue.step_requeue _ 2 []); reflexivity|]. apply rtc_refl. }
  eexists. split; [exact HR|]. split; [|reflexivity]. apply (Queue.handlers_never_lost _ HR).
Defined.

End WalletExamples.
