(* ===== verification/TradeService.v ===== *)
(** The trade service: internal/core/application/trade.

    State: the market and trade stores, the remote wallet, the queue of utxo
    handlers the wallet service serves and the trades handed to the pubsub
    service.  The stores are any instances of the repository interfaces, the
    wallet any [WalletPort].  Clock readings, uuids and random ids are the fields
    of [Env].  A deferred call runs after its function returns or panics. *)

From Stdlib Require Import ZArith Lia QArith Lqa.
From stdpp Require Import base tactics strings list gmap.
From S2P Require Import Prelude Errors Decimal Formula Market Trade Repos SwapMsg Wallet.
Local Open Scope Z_scope.

(** ports.TradeType *)
Record TradeTypePort := { IsBuy : bool; IsSell : bool }.

(** ports.WalletUtxoNotification *)
Record UtxoEvent := { ev_IsSpent : bool; ev_IsUnlocked : bool; ev_Utxos : list Utxo }.

(** The clock readings, in the order they happen, and the random strings. *)
Record Env := {
  e_uuid : string; e_rnd1 : string; e_rnd2 : string; e_rnd3 : string;
  e_now1 : Z; e_now2 : Z; e_now3 : Z }.

(** What TradePropose and TradeComplete return beside an error.  The swap fail
    they return is a non-nil interface; [None] is a nil pointer inside it. *)
Inductive propose_result :=
  | Accepted (a : option SwapAccept) (expiry : Z)
  | Rejected (f : option SwapFail).
Inductive complete_result :=
  | Broadcasted (txid : string)
  | NotCompleted (f : option SwapFail).

Definition toDomain (t : TradeTypePort) : Z := if IsBuy t then TradeBuy else TradeSell.

Section service.
Context {D : Type} `{DecimalOps D} `{SwapParser} `{Elements}.
Context {M : Type} `{MarketRepository M} {T : Type} `{TradeRepository T} {W : Type} `{WalletPort W}.

Record State := {
  st_markets : M; st_trades : T; st_wallet : W;
  st_handlers : list (string * list Utxo);    (* makeTradeSettledOrExpired's arguments *)
  st_published : list Trade }.

Definition on_trades {A} (m : action T error A) : action State error A := λ s,
  let '(t, r) := m (st_trades s) in
  ({| st_markets := st_markets s; st_trades := t; st_wallet := st_wallet s;
      st_handlers := st_handlers s; st_published := st_published s |}, r).
Definition on_wallet {A} (m : action W error A) : action State error A := λ s,
  let '(w, r) := m (st_wallet s) in
  ({| st_markets := st_markets s; st_trades := st_trades s; st_wallet := w;
      st_handlers := st_handlers s; st_published := st_published s |}, r).
Definition read_markets {A} (f : M → outcome error A) : action State error A := λ s,
  (s, f (st_markets s)).
Definition read_trades {A} (f : T → outcome error A) : action State error A := λ s,
  (s, f (st_trades s)).
Definition register (tradeId : string) (utxos : list Utxo) : action State error () := λ s,
  ({| st_markets := st_markets s; st_trades := st_trades s; st_wallet := st_wallet s;
      st_handlers := Queue.pushBack (tradeId, utxos) (st_handlers s);
      st_published := st_published s |}, Ret ()).
Definition publish (t : Trade) : action State error () := λ s,
  ({| st_markets := st_markets s; st_trades := st_trades s; st_wallet := st_wallet s;
      st_handlers := st_handlers s; st_published := st_published s ++ [t] |}, Ret ()).

(** [if err != nil { return e }]: the error is replaced. *)
Definition or_error {A} (e : error) (m : action State error A) : action State error A := λ s,
  match m s with (s', Err _) => (s', Err e) | r => r end.
(** The error is discarded. *)
Definition discard (m : action State error ()) : action State error () := λ s,
  match m s with (s', Err _) => (s', Ret ()) | r => r end.

(** The service's configuration: price slippage, fee rate, native asset. *)
Variable priceSlippage : D.
Variable milliSatsPerByte : Z.
Variable nativeAsset : string.

(** ** Construction *)
Definition minSatsPerByte : D := NewFromFloat 1 (-1).
Definition maxSatsPerByte : D := NewFromInt 10000.
Definition NewService_msatsPerByte (satsPerByte : D) : outcome error Z :=
  if dLessThan satsPerByte minSatsPerByte || dGreaterThan satsPerByte maxSatsPerByte
  then Err (Errorf "sats per byte ratio must be in range [%s, %s]")
  else Ret (big_Uint64 (dBigInt (dMul satsPerByte (NewFromInt 1000)))).

(** ** utils.go *)
Definition confirmed (balance : gmap string Balance) (asset : string) : Z :=
  match balance !! asset with Some b => ConfirmedBalance b | None => 0 end.

Definition tradePreview (mkt : Market) (balance : gmap string Balance) (tradeType : TradeTypePort)
    (feeAsset asset : string) (amount : Z) : outcome error PreviewInfo :=
  let baseBalance := confirmed balance (BaseAsset mkt) in
  let quoteBalance := confirmed balance (QuoteAsset mkt) in
  Preview (D := D) mkt baseBalance quoteBalance amount asset feeAsset (IsBuy tradeType).

(** decimal.Decimal is immutable: the results of Add and Sub are dropped, so
    [_adjusted] is not used. *)
Definition isPriceInRange (tradeType : TradeTypePort) (market : Market) (swapRequest : SwapRequest)
    (preview : PreviewInfo) (slippage : D) : bool :=
  let feeAmount : D := NewFromInt (i64 (sr_FeeAmount swapRequest)) in
  let feeAsset := sr_FeeAsset swapRequest in
  let '(expectedAmount, expectedAsset) :=
    if bool_decide (pi_Asset preview = sr_AssetR swapRequest)
    then (NewFromInt (i64 (sr_AmountR swapRequest)), sr_AssetR swapRequest)
    else (NewFromInt (i64 (sr_AmountP swapRequest)), sr_AssetP swapRequest) in
  let amountToCheck := NewFromInt (i64 (pi_Amount preview)) in
  let _adjusted :=
    if bool_decide (feeAsset = expectedAsset) then
      let feesToAdd := (IsBuy tradeType && bool_decide (feeAsset = BaseAsset market))
                       || (IsBuy tradeType && bool_decide (feeAsset = QuoteAsset market)) in
      if feesToAdd then (dAdd expectedAmount feeAmount, dAdd amountToCheck feeAmount)
      else (dSub expectedAmount feeAmount, dSub amountToCheck feeAmount)
    else (expectedAmount, amountToCheck) in
  let lowerBound := dMul expectedAmount (dSub (NewFromInt 1) slippage) in
  let upperBound := dMul expectedAmount (dAdd (NewFromInt 1) slippage) in
  dGreaterThanOrEqual amountToCheck lowerBound && dLessThanOrEqual amountToCheck upperBound.

Definition isValidTradePrice (market : Market) (balance : gmap string Balance)
    (tradeType : TradeTypePort) (swapRequest : SwapRequest) (slippage : D) : outcome error bool :=
  let feeAsset := sr_FeeAsset swapRequest in
  preview ← ignore_err (tradePreview market balance tradeType feeAsset
                          (sr_AssetP swapRequest) (sr_AmountP swapRequest));
  if (match preview with
      | Some p => isPriceInRange tradeType market swapRequest p slippage
      | None => false
      end) then Ret true
  else
    preview ← ignore_err (tradePreview market balance tradeType feeAsset
                            (sr_AssetR swapRequest) (sr_AmountR swapRequest));
    Ret (match preview with
         | Some p => isPriceInRange tradeType market swapRequest p slippage
         | None => false
         end).

(** ** service.go: markets *)
Definition GetTradableMarkets : action State error (list Market) :=
  or_error ErrServiceUnavailable (read_markets Repos.GetTradableMarkets).

(** [balance[asset].GetConfirmedBalance()]: a missing key is a nil interface. *)
Definition must_confirmed (balance : gmap string Balance) (asset : string) : outcome error Z :=
  b ← deref (balance !! asset); Ret (ConfirmedBalance b).

(** decimal.NewFromFloat(math.Pow10(n)) *)
Definition pow10 (n : Z) : D := NewFromFloat 1 n.

Definition minTradable (mkt : Market) (spotPrice : MarketPrice) : Z :=
  let minTradableAmount := pow10 (- i64 (BaseAssetPrecision mkt)) in
  let amount := dMul (pow10 (- i64 (QuoteAssetPrecision mkt))) (GetBasePrice spotPrice) in
  let minTradableAmount :=
    if dGreaterThan amount minTradableAmount then amount else minTradableAmount in
  big_Uint64 (dBigInt (dMul minTradableAmount (pow10 (i64 (BaseAssetPrecision mkt))))).

Definition GetMarketPrice (baseAsset quoteAsset : string) : action State error (D * Z) :=
  mkt ← or_error ErrServiceUnavailable
          (read_markets (λ ms, GetMarketByAssets ms baseAsset quoteAsset));
  balance ← or_error ErrServiceUnavailable (on_wallet (GetBalance (Name mkt)));
  baseAssetBalance ← lift (must_confirmed balance (BaseAsset mkt));
  quoteAssetBalance ← lift (must_confirmed balance (QuoteAsset mkt));
  spotPrice ← or_error ErrServiceUnavailable
                (lift (market_SpotPrice (D := D) mkt baseAssetBalance quoteAssetBalance));
  mret (GetQuotePrice spotPrice, minTradable mkt spotPrice).

Definition GetMarketBalance (baseAsset quoteAsset : string)
    : action State error (Market * gmap string Balance) :=
  mkt ← read_markets (λ ms, GetMarketByAssets ms baseAsset quoteAsset);
  balance ← on_wallet (GetBalance (Name mkt));
  mret (mkt, balance).

(** ** trading.go *)

(** The result is previewInfo: the market beside the preview. *)
Definition TradePreview (baseAsset quoteAsset : string) (tradeType : TradeTypePort)
    (amount : Z) (asset feeAsset : string) : action State error (Market * PreviewInfo) :=
  if bool_decide (asset ≠ baseAsset) && bool_decide (asset ≠ quoteAsset)
  then lift (Err (Errorf "asset must match one of those of the market"))
  else
    mkt ← or_error ErrServiceUnavailable
            (read_markets (λ ms, GetMarketByAssets ms baseAsset quoteAsset));
    if negb (IsTradable mkt) then lift (Err ErrMarketUnavailable)
    else
      balance ← or_error ErrServiceUnavailable (on_wallet (GetBalance (Name mkt)));
      preview ← lift (tradePreview mkt balance tradeType feeAsset asset amount);
      mret (mkt, preview).

(** Runs a method of the trade the function holds a pointer to. *)
Definition on_trade {A} (m : action Trade error A) : action (State * Trade) error A := λ st,
  let '(s, t) := st in let '(t', r) := m t in ((s, t'), r).
Definition on_state {A} (m : action State error A) : action (State * Trade) error A := λ st,
  let '(s, t) := st in let '(s', r) := m s in ((s', t), r).
(** [ok, _ := call]: ok is false when the call fails. *)
Definition ok_of (m : action (State * Trade) error bool) : action (State * Trade) error bool := λ st,
  match m st with (st', Err _) => (st', Ret false) | r => r end.

(** [return nil, trade.SwapFailMessage(), ...] *)
Definition fail_message : action (State * Trade) error (option SwapFail) := λ st,
  (st, SwapFailMessage (snd st)).

Definition unblinded (utxos : list Utxo) : list UnblindedInput :=
  imap (λ i u, {| ui_Index := u32 (Z.of_nat i); ui_Asset := ut_Asset u; ui_Amount := ut_Value u;
                  ui_AssetBlinder := ut_AssetBlinder u; ui_AmountBlinder := ut_ValueBlinder u |}) utxos.

(** The end of TradePropose: the handler is registered, the accept returned. *)
Definition propose_accepted (selectedUtxos : list Utxo)
    : action (State * Trade) error propose_result :=
  '(_, trade) ← get_state;
  _ ← on_state (register (tr_Id trade) selectedUtxos);
  a ← lift (SwapAcceptMessage trade);
  mret (Accepted a (tr_ExpiryTime trade)).

Definition fees_to_add (tradeType : TradeTypePort) (feeAsset : string) (mkt : Market) : bool :=
  (IsBuy tradeType && bool_decide (feeAsset = QuoteAsset mkt))
  || (IsSell tradeType && bool_decide (feeAsset = BaseAsset mkt)).

(** The body of TradePropose after the deferred AddTrade was set up. *)
Definition propose_body (env : Env) (mkt : Market) (balance : gmap string Balance)
    (tradeType : TradeTypePort) (r : SwapRequest) : action (State * Trade) error propose_result :=
  let feesToAdd := fees_to_add tradeType (sr_FeeAsset r) mkt in
  valid ← lift (isValidTradePrice mkt balance tradeType r priceSlippage);
  if negb valid then
    _ ← on_trade (λ t, (Fail (e_rnd1 env) (sr_Id r) ErrCodeBadPricingSwapRequest t, Ret ()));
    f ← fail_message; mret (Rejected f)
  else
    ok ← ok_of (on_trade (Propose (D := D) (e_now1 env) (e_rnd1 env) (e_rnd2 env) (toDomain tradeType) r
                  (Name mkt) (BaseAsset mkt) (QuoteAsset mkt) (PercentageFee mkt) (FixedFee mkt) []));
    if negb ok then f ← fail_message; mret (Rejected f)
    else
      '(signedPset, selectedUtxos, tradeExpiryTime) ← on_state (or_error ErrServiceUnavailable
         (on_wallet (CompleteSwap nativeAsset (Name mkt) r milliSatsPerByte feesToAdd)));
      ok ← ok_of (on_trade (Accept (e_now2 env) (e_rnd3 env) (e_rnd2 env) signedPset
                    (unblinded selectedUtxos) tradeExpiryTime));
      if negb ok then f ← fail_message; mret (Rejected f)
      else propose_accepted selectedUtxos.

(** The body and its deferred AddTrade, whose error is only logged. *)
Definition propose_deferred (env : Env) (mkt : Market) (balance : gmap string Balance)
    (tradeType : TradeTypePort) (r : SwapRequest) : action State error propose_result := λ s,
  let '((s, trade), res) := propose_body env mkt balance tradeType r (s, NewTrade (e_uuid env)) in
  match discard (on_trades (AddTrade trade)) s with
  | (s, Panic p) => (s, Panic p)
  | (s, _) => (s, res)
  end.

Definition TradePropose (env : Env) (baseAsset quoteAsset : string) (tradeType : TradeTypePort)
    (r : SwapRequest) : action State error propose_result :=
  mkt ← or_error ErrServiceUnavailable
          (read_markets (λ ms, GetMarketByAssets ms baseAsset quoteAsset));
  if negb (IsTradable mkt) then lift (Err ErrMarketUnavailable)
  else
    balance ← or_error ErrServiceUnavailable (on_wallet (GetBalance (Name mkt)));
    propose_deferred env mkt balance tradeType r.

Definition tradeFail (env : Env) (swapAcceptId : string) : action State error complete_result :=
  trade ← read_trades (λ ts, GetTradeBySwapAcceptId ts swapAcceptId);
  let trade := Fail (e_rnd1 env) swapAcceptId ErrCodeAborted trade in
  _ ← or_error ErrServiceUnavailable (on_trades (UpdateTrade (tr_Id trade) (λ _, Ret trade)));
  f ← lift (SwapFailMessage trade);
  mret (NotCompleted f).

Definition complete_body (env : Env) (transaction : string)
    : action (State * Trade) error complete_result :=
  ok ← ok_of (on_trade (Complete (e_now2 env) (e_now3 env) (e_rnd1 env) (e_rnd2 env) transaction));
  if negb ok then f ← fail_message; mret (NotCompleted f)
  else
    '(_, trade) ← get_state;
    sent ← try (on_state (on_wallet (BroadcastTransaction (tr_TxHex trade))));
    match sent with
    | inl txid => mret (Broadcasted txid)
    | inr _ =>
        acc ← lift (deref (tr_SwapAccept trade));
        _ ← on_trade (λ t, (Fail (e_rnd3 env) (sw_Id acc) ErrCodeFailedToBroadcast t, Ret ()));
        f ← fail_message; mret (NotCompleted f)
    end.

(** The body and its deferred UpdateTrade, whose error replaces the result. *)
Definition complete_deferred (env : Env) (transaction : string) (trade : Trade)
    : action State error complete_result := λ s,
  let '((s, trade), res) := complete_body env transaction (s, trade) in
  match on_trades (UpdateTrade (tr_Id trade) (λ _, Ret trade)) s with
  | (s, Err e) => match res with Panic p => (s, Panic p) | _ => (s, Err e) end
  | (s, Panic p) => (s, Panic p)
  | (s, Ret _) => (s, res)
  end.

(** [swapFail] is the message id of the swap fail, when there is one. *)
Definition TradeComplete (env : Env) (swapComplete : SwapComplete) (swapFail : option string)
    : action State error complete_result :=
  match swapFail with
  | Some messageId => tradeFail env messageId
  | None =>
      trade ← read_trades (λ ts, GetTradeBySwapAcceptId ts (sc_AcceptId swapComplete));
      if IsExpired (e_now1 env) trade then lift (Err (Errorf "trade is expired"))
      else complete_deferred env (sc_Transaction swapComplete) trade
  end.

(** ** The handler of utxo notifications *)
Definition contains (utxos : list Utxo) (u : Utxo) : bool :=
  existsb (λ v, bool_decide (ut_Txid v = ut_Txid u) && (ut_Index v =? ut_Index u)) utxos.

(** The time of the block that spent the coin, or the clock. *)
Definition settlement_time (now : Z) (utxos : list Utxo) : outcome error Z :=
  u ← index utxos 0;
  Ret (match ut_SpentTimestamp u with
       | Some ts => if 0 <? ts then ts else unix_of now
       | None => unix_of now
       end).

Definition makeTradeSettledOrExpired (tradeId : string) (tradeUtxos : list Utxo)
    (env : Env) (ev : UtxoEvent) : action State error bool :=
  if negb (existsb (contains (ev_Utxos ev)) tradeUtxos) then mret false
  else
    found ← read_trades (λ ts, ignore_err (GetTradeById ts tradeId));
    trade ← lift (deref found);
    trade ←
      (if ev_IsSpent ev then
         time ← lift (settlement_time (e_now1 env) (ev_Utxos ev));
         mret (fst (Settle time trade))
       else if ev_IsUnlocked ev then mret (fst (Expire (e_now1 env) trade))
       else mret trade : action State error Trade);
    _ ← discard (on_trades (UpdateTrade (tr_Id trade) (λ _, Ret trade)));
    _ ← (if IsSettled trade then publish trade else mret () : action State error ());
    mret true.

(** ** checkForPendingTrades *)

(** The first loop: the trades it expires.  A trade that is still pending has
    its transaction parsed; makeTradeSettledOrExpired is called for it and the
    handler it returns is dropped. *)
Fixpoint pending_loop (now : Z) (trades : list Trade) : outcome error (list Trade) :=
  match trades with
  | [] => Ret []
  | trade :: trades =>
      if IsAccepted trade || IsCompleted trade then
        match Expire now trade with
        | (trade', Ret true) => r ← pending_loop now trades; Ret (trade' :: r)
        | _ =>
            msg ← SwapAcceptMessage trade;
            msg ← deref msg;
            _ ← deref (psetv2_NewPsetFromBase64 (sa_Transaction msg));
            pending_loop now trades
        end
      else pending_loop now trades
  end.

Fixpoint expire_loop (trades : list Trade) : action State error () :=
  match trades with
  | [] => mret ()
  | t :: trades =>
      _ ← discard (on_trades (UpdateTrade (tr_Id t) (λ _, Ret t)));
      expire_loop trades
  end.

Definition checkForPendingTrades (now : Z) : action State error () :=
  trades ← read_trades (λ ts, ignore_err (GetAllTrades ts None));
  expired ← lift (pending_loop now (default [] trades));
  expire_loop expired.
End service.

(** * Theorems: the price check *)

Section price.
Context {D : Type} `{DecimalLaws D}.
Local Open Scope Q_scope.

(** the price check of a proposal accepts exactly the previews within the
    slippage of the amount the request states for the previewed asset; fee asset
    and fee amount of the request, trade type and market play no part in it. *)
Theorem price_check_bounds tt m r p slippage :
  let expected := inject_Z (i64 (if bool_decide (pi_Asset p = sr_AssetR r)
                                 then sr_AmountR r else sr_AmountP r)) in
  let amount := inject_Z (i64 (pi_Amount p)) in
  isPriceInRange tt m r p slippage = true ↔
    expected * (1 - dval slippage) <= amount ∧ amount <= expected * (1 + dval slippage).
Proof.
  unfold isPriceInRange. case_bool_decide;
    rewrite andb_true_iff, dGreaterThanOrEqual_spec, dLessThanOrEqual_spec;
    rewrite !val_mul, val_sub, val_add, !val_int; done.
Qed.
End price.

(** * Theorems: proposals *)

Section propose.
Context {D : Type} `{DecimalOps D} `{SwapParser} `{Elements}.
Context {M : Type} `{MarketRepository M} {T : Type} `{TradeRepository T} {W : Type} `{WalletPort W}.
Variables (priceSlippage : D) (milliSatsPerByte : Z) (nativeAsset : string).

Lemma Propose_new env ty r n b q pct fx uuid t :
  Propose (D := D) (e_now1 env) (e_rnd1 env) (e_rnd2 env) ty r n b q pct fx [] (NewTrade uuid)
    = (t, Ret true) →
  Code (tr_Status t) = TradeStatusCodeProposal ∧ tr_Id t = uuid.
Proof.
  unfold Propose; cbn. intros HP. go_inv HP. split; reflexivity.
Qed.

Lemma Accept_proposal now r1 r2 pset ins expiry t t' :
  Code (tr_Status t) = TradeStatusCodeProposal →
  Accept now r1 r2 pset ins expiry t = (t', Ret true) →
  IsAccepted t' = true ∧ tr_Id t' = tr_Id t ∧ tr_PsetBase64 t' = pset ∧ tr_ExpiryTime t' = expiry ∧
  is_Some (tr_SwapAccept t').
Proof.
  intros Hc. unfold Accept. rewrite Hc. cbn. intros HA.
  go_inv HA; destruct t; cbn in *; split_and!; done.
Qed.

Lemma ok_of_true (m : action Trade error bool) (st st' : @State M T W * Trade) :
  ok_of (on_trade m) st = (st', Ret true) → ∃ t', m (snd st) = (t', Ret true) ∧ st' = (fst st, t').
Proof. destruct st as [s t]. unfold ok_of, on_trade; cbn. destruct (m t) as [t' [[]|e|p]]; naive_solver. Qed.

Lemma on_state_Ret {A} (m : action (@State M T W) error A) st st' a :
  on_state m st = (st', Ret a) → ∃ s', m (fst st) = (s', Ret a) ∧ st' = (s', snd st).
Proof. destruct st as [s t]. unfold on_state; cbn. destruct (m s); naive_solver. Qed.

Lemma or_error_Ret {A} e (m : action (@State M T W) error A) s s' a :
  or_error e m s = (s', Ret a) ↔ m s = (s', Ret a).
Proof. unfold or_error. destruct (m s) as [? []]; naive_solver. Qed.

Lemma on_wallet_Ret {A} (m : action W error A) (s s' : @State M T W) a :
  on_wallet m s = (s', Ret a) →
  m (st_wallet s) = (st_wallet s', Ret a) ∧ st_markets s' = st_markets s ∧
  st_trades s' = st_trades s ∧ st_handlers s' = st_handlers s ∧ st_published s' = st_published s.
Proof. unfold on_wallet. destruct (m (st_wallet s)); intros [= <- ->]. done. Qed.

(** What the body of TradePropose did when it accepted the swap. *)
Lemma propose_body_accepted env mkt balance tt r (s s' : @State M T W) uuid t acc expiry :
  propose_body priceSlippage milliSatsPerByte nativeAsset env mkt balance tt r (s, NewTrade uuid)
    = ((s', t), Ret (Accepted acc expiry)) →
  isValidTradePrice mkt balance tt r priceSlippage = Ret true ∧
  (∃ signed utxos,
     CompleteSwap nativeAsset (Name mkt) r milliSatsPerByte (fees_to_add tt (sr_FeeAsset r) mkt)
       (st_wallet s) = (st_wallet s', Ret (signed, utxos, expiry)) ∧ tr_PsetBase64 t = signed ∧
     st_handlers s' = st_handlers s ++ [(uuid, utxos)]) ∧
  IsAccepted t = true ∧ tr_Id t = uuid ∧ tr_ExpiryTime t = expiry ∧
  SwapAcceptMessage t = Ret acc ∧ st_trades s' = st_trades s.
Proof.
  unfold propose_body. intros HP.
  apply action_bind_Ret in HP as (st1 & [] & [-> HV]%lift_Ret & HP); cbn in HP; [|act_inv HP].
  apply action_bind_Ret in HP as (st2 & [] & HO & HP); cbn in HP; [|act_inv HP].
  apply ok_of_true in HO as (t1 & [Hc Hid]%Propose_new & ->).
  apply action_bind_Ret in HP as (st3 & [[signed utxos] e] & HC & HP); cbn in HP.
  apply on_state_Ret in HC as (s3 & HW & ->); cbn in HW.
  apply or_error_Ret, on_wallet_Ret in HW as (HW & Em & Et & Eh & Ep).
  apply action_bind_Ret in HP as (st4 & [] & HO & HP); cbn in HP; [|act_inv HP].
  apply ok_of_true in HO as (t2 & HA & ->). cbn in HA.
  apply Accept_proposal in HA as (HA1 & HA2 & HA3 & HA4 & _); [|done].
  unfold propose_accepted, register, on_state in HP. act_inv HP.
  match goal with Hg : get_state _ = _ |- _ => injection Hg as <- <- end. simplify_eq/=.
  unfold Queue.pushBack. rewrite HA2. split_and!; try done.
  eexists _, _. split_and!; [exact HW | done | by rewrite Eh].
Qed.

Lemma discard_state (m : action T error ()) (s : @State M T W) s' o :
  discard (on_trades m) s = (s', o) →
  st_trades s' = fst (m (st_trades s)) ∧ st_wallet s' = st_wallet s ∧
  st_handlers s' = st_handlers s ∧ st_markets s' = st_markets s ∧ st_published s' = st_published s.
Proof.
  unfold discard, on_trades. destruct (m (st_trades s)) as [t [[]|e|p]]; cbn;
    intros [= <- <-]; done.
Qed.

(** The steps of a TradePropose that returned. *)
Lemma TradePropose_Ret env base quote tt r (s s' : @State M T W) res :
  TradePropose priceSlippage milliSatsPerByte nativeAsset env base quote tt r s = (s', Ret res) →
  ∃ mkt balance s2 s3 trade o,
    GetMarketByAssets (st_markets s) base quote = Ret mkt ∧ IsTradable mkt = true ∧
    GetBalance (Name mkt) (st_wallet s) = (st_wallet s2, Ret balance) ∧
    st_trades s2 = st_trades s ∧ st_handlers s2 = st_handlers s ∧
    propose_body priceSlippage milliSatsPerByte nativeAsset env mkt balance tt r
      (s2, NewTrade (e_uuid env)) = ((s3, trade), Ret res) ∧
    discard (on_trades (AddTrade trade)) s3 = (s', o).
Proof.
  unfold TradePropose. intros HP.
  apply action_bind_Ret in HP as (s1 & mkt & HM & HP); cbn in HP.
  apply or_error_Ret in HM. injection HM as <- HM.
  destruct (IsTradable mkt) eqn:Hopen; cbn in HP; [|act_inv HP].
  apply action_bind_Ret in HP as (s2 & balance & HB & HP); cbn in HP.
  apply or_error_Ret, on_wallet_Ret in HB as (HB & Em & Et & Eh & Ep).
  unfold propose_deferred in HP.
  destruct (propose_body _ _ _ _ _ _ _ _ _) as [[s3 trade] res'] eqn:Hbody.
  destruct (discard _ s3) as [s4 o] eqn:Hd.
  exists mkt, balance, s2, s3, trade, o. destruct o; simplify_eq/=; done.
Qed.

(** C8: when TradePropose accepts a swap, the market exists and is open, the
    price check passed against its current balance, the wallet completed the
    transaction, and the trade stored is the accepted one: same id, transaction
    and expiry the caller is given, with a handler registered on exactly the
    coins the wallet selected. *)
Theorem accepted_proposal env base quote tt r (s s' : @State M T W) acc expiry :
  TradePropose priceSlippage milliSatsPerByte nativeAsset env base quote tt r s
    = (s', Ret (Accepted acc expiry)) →
  ∃ mkt balance w1 signed utxos trade,
    GetMarketByAssets (st_markets s) base quote = Ret mkt ∧ IsTradable mkt = true ∧
    GetBalance (Name mkt) (st_wallet s) = (w1, Ret balance) ∧
    isValidTradePrice mkt balance tt r priceSlippage = Ret true ∧
    CompleteSwap nativeAsset (Name mkt) r milliSatsPerByte (fees_to_add tt (sr_FeeAsset r) mkt) w1
      = (st_wallet s', Ret (signed, utxos, expiry)) ∧
    IsAccepted trade = true ∧ tr_Id trade = e_uuid env ∧ tr_PsetBase64 trade = signed ∧
    tr_ExpiryTime trade = expiry ∧ SwapAcceptMessage trade = Ret acc ∧
    st_trades s' = fst (AddTrade trade (st_trades s)) ∧
    st_handlers s' = st_handlers s ++ [(e_uuid env, utxos)].
Proof.
  intros (mkt & balance & s2 & s3 & trade & o & HM & Hopen & HB & Et & Eh & Hbody & Hd)%TradePropose_Ret.
  apply discard_state in Hd as (D1 & D2 & D3 & _).
  apply propose_body_accepted in Hbody as (HV & (signed & utxos & HC & Hps & Hh) & HA & Hid & He & HS & HT).
  exists mkt, balance, (st_wallet s2), signed, utxos, trade.
  rewrite D1, D2, D3, HT, Et, Hh, Eh. split_and!; done.
Qed.
End propose.

(** AddTrade leaves the index of accept ids alone. *)
Lemma addTrade_accepts `{MapOrder} t s :
  InmemoryTrade.tradesBySwapAcceptId (fst (InmemoryTrade.addTrade t s))
  = InmemoryTrade.tradesBySwapAcceptId s.
Proof. unfold InmemoryTrade.addTrade. by destruct (InmemoryTrade.trades s !! tr_Id t). Qed.

(** with the in-memory store an accepted proposal cannot be completed: the
    accept id the trader was given, new as random ids are, is not found by
    TradeComplete, whatever the transaction, and nothing changes. *)
Theorem inmemory_propose_then_complete_fails {D} `{DecimalOps D} `{SwapParser} `{Elements} `{MapOrder}
    {M} `{MarketRepository M} {W} `{WalletPort W}
    slippage msats native env env' base quote tt r (s s' : @State M InmemoryTrade.store W) acc expiry tx id :
  TradePropose (D := D) slippage msats native env base quote tt r s
    = (s', Ret (Accepted (Some acc) expiry)) →
  InmemoryTrade.tradesBySwapAcceptId (st_trades s) !! sa_Id acc = None →
  TradeComplete env' {| sc_Id := id; sc_AcceptId := sa_Id acc; sc_Transaction := tx |} None s'
    = (s', Err (Errorf "trade with swap accept id %s not found")).
Proof.
  intros (mkt & balance & s2 & s3 & trade & o & _ & _ & _ & Et & _ & Hbody & Hd)%TradePropose_Ret Hfresh.
  apply discard_state in Hd as (D1 & _).
  apply propose_body_accepted in Hbody as (_ & _ & _ & _ & _ & _ & HT).
  unfold TradeComplete, read_trades, mbind, action_bind; cbn. rewrite D1, HT, Et; cbn.
  unfold InmemoryTrade.getTradeBySwapAcceptId. by rewrite addTrade_accepts, Hfresh.
Qed.

(** * Theorems: completion *)

Section complete.
Context `{SwapParser} {M T W : Type} `{TradeRepository T} `{WalletPort W}.

End complete.

(** * Theorems: settlement *)

Section settlement.
Context `{SwapParser} `{Elements} `{MapOrder} {M W : Type} `{WalletPort W}.
Abbreviation St := (@State M InmemoryTrade.store W).

(** The state of a trade after an event on its coins. *)
Definition after_event (time now : Z) (ev : UtxoEvent) (t : Trade) : Trade :=
  if ev_IsSpent ev then fst (Settle time t)
  else if ev_IsUnlocked ev then fst (Expire now t) else t.

Lemma tr_Id_Settle time t : tr_Id (fst (Settle time t)) = tr_Id t.
Proof. unfold Settle. destruct t; cbn. by repeat case_match. Qed.
Lemma tr_Id_Expire now t : tr_Id (fst (Expire now t)) = tr_Id t.
Proof. unfold Expire. destruct t; cbn. by repeat case_match. Qed.

Lemma tr_Id_after_event time now ev t : tr_Id (after_event time now ev t) = tr_Id t.
Proof. unfold after_event. repeat case_match; auto using tr_Id_Settle, tr_Id_Expire. Qed.

(** Storing a trade that is already there under its id. *)
Lemma update_stored (s : St) t t0 :
  InmemoryTrade.getTrade (st_trades s) (tr_Id t) = Ret t0 →
  ∃ s', discard (on_trades (UpdateTrade (tr_Id t) (λ _, Ret t))) s = (s', Ret ()) ∧
    InmemoryTrade.getTrade (st_trades s') (tr_Id t) = Ret t ∧
    st_handlers s' = st_handlers s ∧ st_published s' = st_published s ∧ st_wallet s' = st_wallet s.
Proof.
  intros Ht. unfold discard, on_trades. cbn [UpdateTrade InmemoryTrade.repository].
  unfold InmemoryTrade.updateTrade. rewrite Ht; cbn. eexists. split; [reflexivity|].
  cbn. unfold InmemoryTrade.getTrade; cbn. by rewrite lookup_insert_eq.
Qed.

(** what the handler of a trade does with a notification.  If none of the
    trade's coins is concerned it stays registered and nothing changes.
    Otherwise it is done: a spent coin settles the trade, at the time of the
    block when it is known, an unlocked coin expires it, and any other event
    leaves the trade as it was, although nobody watches its coins any more.  The
    resulting trade is stored, and published when it is settled. *)
Theorem handler_outcomes env (s : St) tradeId coins ev :
  if existsb (contains (ev_Utxos ev)) coins then
    ∀ t, InmemoryTrade.getTrade (st_trades s) tradeId = Ret t → tr_Id t = tradeId →
    ∃ s' time, settlement_time (e_now1 env) (ev_Utxos ev) = Ret time ∧
      let t' := after_event time (e_now1 env) ev t in
      makeTradeSettledOrExpired tradeId coins env ev s = (s', Ret true) ∧
      InmemoryTrade.getTrade (st_trades s') tradeId = Ret t' ∧
      st_published s' = st_published s ++ (if IsSettled t' then [t'] else []) ∧
      st_handlers s' = st_handlers s
  else makeTradeSettledOrExpired tradeId coins env ev s = (s, Ret false).
Proof.
  unfold makeTradeSettledOrExpired. destruct (existsb _ _) eqn:He; [|done].
  intros t Ht Hid. cbn [negb].
  assert (∃ time, settlement_time (e_now1 env) (ev_Utxos ev) = Ret time) as [time Htime].
  { apply existsb_exists in He as (u & _ & Hu). unfold contains in Hu.
    destruct (ev_Utxos ev); [done|]. eexists. reflexivity. }
  set (t' := after_event time (e_now1 env) ev t).
  assert (tr_Id t' = tr_Id t) as Hid' by apply tr_Id_after_event.
  destruct (update_stored s t' t) as (s1 & Hu & Hg & Hh & Hp & _); [by rewrite Hid', Hid|].
  exists (fst ((if IsSettled t' then publish t' else mret () : action St error ()) s1)), time.
  split; [done|]. cbv zeta. fold t'. rewrite Hid', Hid in Hg. split_and!.
  - unfold mbind, action_bind, read_trades; cbn [GetTradeById InmemoryTrade.repository].
    rewrite Ht; cbn. revert Hu. unfold t', after_event.
    destruct (ev_IsSpent ev); [|destruct (ev_IsUnlocked ev)]; cbn; rewrite ?Htime; cbn;
      intros ->; by destruct (IsSettled _).
  - by destruct (IsSettled t').
  - destruct (IsSettled t'); cbn; by rewrite ?app_nil_r, Hp.
  - by destruct (IsSettled t').
Qed.

(** after a restart no pending trade is watched: checkForPendingTrades
    leaves the queue of handlers as it is, whatever the stored trades. *)
Theorem pending_trades_not_watched {T} `{TradeRepository T} now (s : @State M T W) :
  st_handlers (fst (checkForPendingTrades now s)) = st_handlers s.
Proof.
  assert (∀ l (s : @State M T W), st_handlers (fst (expire_loop l s)) = st_handlers s) as HL.
  { induction l as [|t l IH]; intros s0; [done|]. cbn [expire_loop]. unfold mbind, action_bind.
    destruct (discard _ s0) as [s1 o] eqn:E. apply discard_state in E as (_ & _ & E & _).
    destruct o; cbn; [by rewrite IH|done..]. }
  unfold checkForPendingTrades, mbind, action_bind, read_trades, lift.
  destruct (ignore_err _); [|done..]. destruct (pending_loop now _); [|done..]. apply HL.
Qed.
End settlement.

(** * Examples *)
Module ServiceExamples.
Import MarketExamples TradeExamples SwapExamples.

(** The wallet of the examples with 100 base and 2,000,000 quote units. *)
#[global] Instance funded : WalletPort () := {
  GetBalance _ := mret {[ base := Build_Balance 10000000000 0 0 10000000000;
                          quote := Build_Balance 200000000000000 0 0 200000000000000 ]};
  DeriveAddresses := WalletExamples.port.(DeriveAddresses);
  DeriveChangeAddresses := WalletExamples.port.(DeriveChangeAddresses);
  SelectUtxos := WalletExamples.port.(SelectUtxos);
  EstimateFees := WalletExamples.port.(EstimateFees);
  CreatePset := WalletExamples.port.(CreatePset);
  UpdatePset := WalletExamples.port.(UpdatePset);
  BlindPset := WalletExamples.port.(BlindPset);
  SignPset := WalletExamples.port.(SignPset);
  BroadcastTransaction := WalletExamples.port.(BroadcastTransaction);
  FromConfidential := WalletExamples.port.(FromConfidential);
  TxIDToBytes := WalletExamples.port.(TxIDToBytes);
}.

Definition env : Env := {|
  e_uuid := "trade-1"; e_rnd1 := "r1"; e_rnd2 := "r2"; e_rnd3 := "acc";
  e_now1 := nanos 1000; e_now2 := nanos 1001; e_now3 := nanos 1002 |}.

#[local] Instance markets_repo : MarketRepository InmemoryMarket.store :=
  InmemoryMarket.repository (D := Fixed.t) (λ b, b).

Definition start : @State InmemoryMarket.store InmemoryTrade.store () := {|
  st_markets := fst (InmemoryMarket.createMarket (λ b, b) pluggable InmemoryMarket.NewMarketRepositoryImpl);
  st_trades := InmemoryTrade.NewTradeRepositoryImpl; st_wallet := ();
  st_handlers := []; st_published := [] |}.

(** Buying 0.01 base for 200 quote, 5% of slippage. *)
Definition buy : TradeTypePort := {| IsBuy := true; IsSell := false |}.
Definition buy_request : SwapRequest := {|
  sr_Id := "req"; sr_AssetP := quote; sr_AssetR := base; sr_AmountP := 20000000000;
  sr_AmountR := 1000000; sr_Transaction := "pset"; sr_FeeAsset := quote; sr_FeeAmount := 70000000;
  sr_UnblindedInputs := [] |}.
Definition slippage : Fixed.t := Fixed.mk 5 2.

(** A preview 5% above the 200 quote of the request is still accepted. *)
Definition preview_210 : PreviewInfo := {|
  pi_Price := Build_MarketPrice "0.00005" "20000"; pi_Amount := 21000000000; pi_Asset := quote;
  pi_FeeAmount := 70000000; pi_FeeAsset := quote |}.
Lemma price_check_bounds_witness :
  isPriceInRange buy pluggable buy_request preview_210 slippage = true.
Proof. apply price_check_bounds. split; vm_compute; discriminate. Defined.

Definition proposed : @State InmemoryMarket.store InmemoryTrade.store () * outcome error propose_result :=
  TradePropose (H0 := parser) slippage 100 "L" env base quote buy buy_request start.
Definition accept_msg : SwapAccept := DeserializeAccept (SwapParser := parser) [].

Lemma proposed_accepted : snd proposed = Ret (Accepted (Some accept_msg) 1600).
Proof. vm_compute. reflexivity. Qed.

Lemma proposed_eq : proposed = (fst proposed, Ret (Accepted (Some accept_msg) 1600)).
Proof. by rewrite (surjective_pairing proposed) at 1; rewrite proposed_accepted. Qed.

Lemma accepted_proposal_witness :
  ∃ trade, IsAccepted trade = true ∧ tr_Id trade = "trade-1"%string ∧
    st_trades (fst proposed) = fst (AddTrade trade (st_trades start)) ∧
    length (st_handlers (fst proposed)) = 1%nat.
Proof.
  destruct (accepted_proposal (H0 := parser) slippage 100 "L" env base quote buy buy_request start
    (fst proposed) (Some accept_msg) 1600 proposed_eq)
    as (mkt & balance & w1 & signed & utxos & trade & _ & _ & _ & _ & _ & HA & Hid & _ & _ & _ & HT & HH).
  exists trade. split_and!; [done | done | done | by rewrite HH].
Defined.

Lemma inmemory_propose_then_complete_fails_witness :
  TradeComplete env {| sc_Id := "c"; sc_AcceptId := "acc"; sc_Transaction := "signed" |} None
    (fst proposed) = (fst proposed, Err (Errorf "trade with swap accept id %s not found")).
Proof.
  exact (inmemory_propose_then_complete_fails (H0 := parser) slippage 100 "L" env env base quote buy
    buy_request start (fst proposed) accept_msg 1600 "signed" "c" proposed_eq eq_refl).
Defined.

(** A store in which the accepted trade was also updated, hence indexed. *)
Definition indexed : @State InmemoryMarket.store InmemoryTrade.store () := {|
  st_markets := st_markets start;
  st_trades := fst (InmemoryTrade.updateTrade "id" (λ _, Ret RepoExamples.accepted_trade)
                      RepoExamples.proposed_store);
  st_wallet := (); st_handlers := []; st_published := [] |}.
Definition complete_msg : SwapComplete := {| sc_Id := "c"; sc_AcceptId := "acc"; sc_Transaction := "signed" |}.

Definition completed_run := TradeComplete env complete_msg None indexed.
Lemma completed_broadcasted : snd completed_run = Ret (Broadcasted "txid").
Proof. vm_compute. reflexivity. Qed.
Lemma completed_run_eq : TradeComplete env complete_msg None indexed
  = (fst completed_run, Ret (Broadcasted "txid")).
Proof. by rewrite <- completed_broadcasted, <- surjective_pairing. Qed.


Lemma handler_outcomes_witness :
  ∃ s', makeTradeSettledOrExpired "id" [WalletExamples.coin "R" 7] env
          {| ev_IsSpent := true; ev_IsUnlocked := false; ev_Utxos := [WalletExamples.coin "R" 7] |} indexed
        = (s', Ret true) ∧ length (st_published s') = 1%nat.
Proof.
  pose proof (handler_outcomes (M := InmemoryMarket.store) env indexed "id" [WalletExamples.coin "R" 7]
    {| ev_IsSpent := true; ev_IsUnlocked := false; ev_Utxos := [WalletExamples.coin "R" 7] |}) as HH.
  change (existsb _ _) with true in HH.
  destruct (HH RepoExamples.accepted_trade eq_refl eq_refl) as (s' & time & [= <-] & E & _ & Hp & _).
  exists s'. split; [exact E | by rewrite Hp].
Defined.
End ServiceExamples.
