(* ===== verification/Report.v ===== *)
(** Market reports: GetMarketReport and its time helpers, in
    internal/core/application/operator/market_account.go.

    A time.Time is its number of nanoseconds since the epoch.  splitTimeRange
    loops until the end has moved back to the start: the loop takes fuel, and
    the theorems say how much is enough and when none is.  timeRangeToDates
    (calendar arithmetic) is not modelled: the report takes its result. *)

From Stdlib Require Import ZArith Lia.
From stdpp Require Import base tactics strings list.
From S2P Require Import Prelude Errors Market Trade Repos.
Local Open Scope Z_scope.

Definition Second : Z := 1000000000.
Definition Hour : Z := 3600 * Second.

(** marketVolumeInfo *)
Record marketVolumeInfo := { v_start : Z; v_end : Z; v_base : Z; v_quote : Z }.

(** ** Time ranges *)

Fixpoint splitTimeRange (fuel : nat) (start end_ frame : Z) : option (list marketVolumeInfo) :=
  match fuel with
  | O => None
  | S fuel =>
      if end_ <=? start then Some []
      else
        let nextEnd := end_ + i64 (- Hour * frame) in
        let nextStart := if 0 <? nextEnd - start then nextEnd + Second else start in
        rest ← splitTimeRange fuel start nextEnd frame;
        Some ({| v_start := nextStart; v_end := end_; v_base := 0; v_quote := 0 |} :: rest)
  end.

Definition isInTimeRange (t start end_ : Z) : bool :=
  (start <=? t * Second) && (t * Second <=? end_).

(** Hours and whole days of a duration are exact truncations here; the code
    truncates a float64, which may round up the last fraction of a nanosecond
    part of very long ranges. *)
Definition getDefaultTimeFrameForRange (start end_ : Z) : Z :=
  let delta := (end_ - start) ÷ (24 * Hour) in
  if 365 * 5 <=? delta then 24 * 30
  else if 365 <=? delta then 24 * 7
  else if 88 <=? delta then 24
  else if 7 <=? delta then 4
  else 1.

(** ** The report *)

Record marketReport := {
  r_market : Market;
  r_totBaseFee : Z; r_totQuoteFee : Z; r_tradeFees : list (Trade * string);
  r_totBaseVolume : Z; r_totQuoteVolume : Z; r_subVolumes : list marketVolumeInfo }.

Section report.
Context `{SwapParser} {M T : Type} `{MarketRepository M} `{TradeRepository T}.

(** Base and quote amounts of a trade. *)
Definition trade_amounts (mkt : Market) (r : SwapRequest) : Z * Z :=
  if bool_decide (sr_AssetR r = QuoteAsset mkt) then (sr_AmountP r, sr_AmountR r)
  else (sr_AmountR r, sr_AmountP r).

(** The inner loop: a nil swap request is dereferenced by the first sub-range
    that contains the trade. *)
Definition add_volumes (mkt : Market) (ts : Z) (r : option SwapRequest) (vols : list marketVolumeInfo)
    : outcome error (list marketVolumeInfo) :=
  match r with
  | Some r =>
      let '(baseAmount, quoteAmount) := trade_amounts mkt r in
      Ret ((λ v, if isInTimeRange ts (v_start v) (v_end v)
                 then {| v_start := v_start v; v_end := v_end v;
                         v_base := u64 (v_base v + baseAmount); v_quote := u64 (v_quote v + quoteAmount) |}
                 else v) <$> vols)
  | None =>
      if existsb (λ v, isInTimeRange ts (v_start v) (v_end v)) vols then Panic NilDereference
      else Ret vols
  end.

Fixpoint report_loop (mkt : Market) (rangeStart rangeEnd : Z) (trades : list Trade)
    (vols : list marketVolumeInfo) (fees : list (Trade * string))
    : outcome error (list marketVolumeInfo * list (Trade * string)) :=
  match trades with
  | [] => Ret (vols, fees)
  | trade :: trades =>
      req ← deref (tr_SwapRequest trade);
      if isInTimeRange (sw_Timestamp req) rangeStart rangeEnd then
        swapRequest ← SwapRequestMessage trade;
        let marketPrice :=
          if bool_decide (tr_FeeAsset trade = BaseAsset mkt)
          then QuotePrice (tr_MarketPrice trade) else BasePrice (tr_MarketPrice trade) in
        vols ← add_volumes mkt (sw_Timestamp req) swapRequest vols;
        report_loop mkt rangeStart rangeEnd trades vols (fees ++ [(trade, marketPrice)])
      else report_loop mkt rangeStart rangeEnd trades vols fees
  end.

Definition tot_fees (base : bool) (fees : list (Trade * string)) : Z :=
  foldl (λ s f, let t := f.1 in
           if Bool.eqb base (bool_decide (tr_FeeAsset t = tr_MarketBaseAsset t))
           then u64 (s + tr_FeeAmount t) else s) 0 fees.
Definition tot_base (vols : list marketVolumeInfo) : Z := foldl (λ s v, u64 (s + v_base v)) 0 vols.
Definition tot_quote (vols : list marketVolumeInfo) : Z := foldl (λ s v, u64 (s + v_quote v)) 0 vols.

(** [dates] is what timeRangeToDates returned; [None] when the loop of
    splitTimeRange does not end within the fuel. *)
Definition GetMarketReport (fuel : nat) (ms : M) (ts : T) (baseAsset quoteAsset : string)
    (dates : outcome error (Z * Z)) (timeFrame : Z) : outcome error (option marketReport) :=
  '(rangeStart, rangeEnd) ← dates;
  let timeFrame :=
    if timeFrame =? 0 then getDefaultTimeFrameForRange rangeStart rangeEnd else timeFrame in
  if (rangeEnd - rangeStart) ÷ Hour <? timeFrame
  then Err (Errorf "time range must be larger than time frame")
  else
    mkt ← GetMarketByAssets ms baseAsset quoteAsset;
    trades ← GetCompletedTradesByMarket ts (Name mkt) None;
    trades ← InmemoryTrade.sort_trades trades;
    match splitTimeRange fuel rangeStart rangeEnd timeFrame with
    | None => Ret None
    | Some subVolumes =>
        '(subVolumes, tradesFee) ← report_loop mkt rangeStart rangeEnd trades subVolumes [];
        Ret (Some {| r_market := mkt;
                     r_totBaseFee := tot_fees true tradesFee;
                     r_totQuoteFee := tot_fees false tradesFee; r_tradeFees := tradesFee;
                     r_totBaseVolume := tot_base subVolumes;
                     r_totQuoteVolume := tot_quote subVolumes; r_subVolumes := subVolumes |})
    end.
End report.

(** * Theorems: sub-ranges *)

(** How many sub-ranges contain an instant. *)
Definition hits (t : Z) (l : list marketVolumeInfo) : nat :=
  length (filter (λ v, isInTimeRange t (v_start v) (v_end v) = true) l).

Lemma hits_cons t v l :
  hits t (v :: l) = ((if isInTimeRange t (v_start v) (v_end v) then 1 else 0) + hits t l)%nat.
Proof. unfold hits. rewrite filter_cons. case_decide as E; [by rewrite E|]. by destruct (isInTimeRange _ _ _). Qed.

Lemma hits_none t l : Forall (λ v, v_end v < t * Second) l → hits t l = 0%nat.
Proof.
  induction 1 as [|v l Hv _ IH]; [done|]. rewrite hits_cons, IH. unfold isInTimeRange.
  destruct (Z.leb_spec (t * Second) (v_end v)); [lia|]. by rewrite andb_false_r.
Qed.

Lemma isInTimeRange_seconds t a b :
  isInTimeRange t (a * Second) (b * Second) = (a <=? t) && (t <=? b).
Proof.
  unfold isInTimeRange, Second. f_equal.
  - destruct (Z.leb_spec (a * 1000000000) (t * 1000000000)), (Z.leb_spec a t); lia.
  - destruct (Z.leb_spec (t * 1000000000) (b * 1000000000)), (Z.leb_spec t b); lia.
Qed.

Ltac split_cmp :=
  repeat match goal with
    | |- context [?x <=? ?y] => destruct (Z.leb_spec x y)
    | |- context [?x <? ?y] => destruct (Z.ltb_spec x y)
    end; cbn.

(** The duration of a frame, when it fits an int64. *)
Lemma frame_duration frame : 0 < frame → Hour * frame < 2 ^ 63 → i64 (- Hour * frame) = - (3600 * frame) * Second.
Proof. intros. rewrite i64_id; unfold is_i64, Hour, Second in *; lia. Qed.

Lemma split_partition fuel a b frame l :
  0 < frame → Hour * frame < 2 ^ 63 →
  splitTimeRange fuel (a * Second) (b * Second) frame = Some l →
  ∀ t, hits t l = if (a <=? t) && (t <=? b) && (a <? b) then 1%nat else 0%nat.
Proof.
  intros Hf Ho. revert b l. induction fuel as [|fuel IH]; intros b l; cbn [splitTimeRange]; [done|].
  rewrite frame_duration by done. intros Hs t.
  destruct (Z.leb_spec (b * Second) (a * Second)) as [Hle|Hgt].
  { injection Hs as <-. cbn. destruct (Z.ltb_spec a b); [unfold Second in *; lia|].
    by rewrite andb_false_r. }
  replace (b * Second + - (3600 * frame) * Second) with ((b - 3600 * frame) * Second) in Hs by lia.
  destruct (splitTimeRange fuel _ _ _) as [rest|] eqn:Hr; [|done]. injection Hs as <-.
  apply IH with (t := t) in Hr. rewrite hits_cons, Hr; cbn [v_start v_end]. clear Hr IH.
  replace (_ * Second - a * Second) with ((b - 3600 * frame - a) * Second) by lia.
  assert (a < b) by (unfold Second in *; lia).
  destruct (Z.ltb_spec 0 ((b - 3600 * frame - a) * Second)) as [Hn|Hn].
  - replace ((b - 3600 * frame) * Second + Second) with ((b - 3600 * frame + 1) * Second) by lia.
    rewrite isInTimeRange_seconds. unfold Second in *.
    split_cmp; lia.
  - rewrite isInTimeRange_seconds. unfold Second in *.
    split_cmp; lia.
Qed.

Lemma split_S fuel start end_ frame :
  splitTimeRange (S fuel) start end_ frame =
    if end_ <=? start then Some []
    else
      let nextEnd := end_ + i64 (- Hour * frame) in
      let nextStart := if 0 <? nextEnd - start then nextEnd + Second else start in
      rest ← splitTimeRange fuel start nextEnd frame;
      Some ({| v_start := nextStart; v_end := end_; v_base := 0; v_quote := 0 |} :: rest).
Proof. done. Qed.

(** Each round moves the end back by a frame: enough fuel for the whole range
    is one more than the number of frames in it. *)
Lemma split_terminates n start end_ frame :
  0 < frame → Hour * frame < 2 ^ 63 → end_ - start ≤ Z.of_nat n * (Hour * frame) →
  is_Some (splitTimeRange (S n) start end_ frame).
Proof.
  intros Hf Ho. revert end_. induction n as [|n IH]; intros e He; rewrite split_S; cbv zeta.
  - destruct (Z.leb_spec e start); [by eexists | lia].
  - destruct (Z.leb_spec e start) as [|Hgt]; [by eexists|].
    rewrite i64_id by (unfold is_i64, Hour, Second in *; lia).
    destruct (IH (e + - Hour * frame)) as [rest Hr]; [lia|].
    rewrite Hr. by eexists.
Qed.

(** Sub-ranges end at or before the end of the range. *)
Lemma split_ends fuel start end_ frame l :
  0 < frame → Hour * frame < 2 ^ 63 → splitTimeRange fuel start end_ frame = Some l →
  Forall (λ v, v_end v ≤ end_) l.
Proof.
  intros Hf Ho. revert end_ l. induction fuel as [|fuel IH]; intros e l; cbn [splitTimeRange]; [done|].
  destruct (Z.leb_spec e start); [intros [= <-]; constructor|].
  rewrite frame_duration by done. destruct (splitTimeRange fuel _ _ _) as [rest|] eqn:Hr; [|done].
  intros [= <-]. constructor; cbn; [lia|]. apply IH in Hr.
  eapply Forall_impl; [exact Hr|]. cbn. unfold Second. lia.
Qed.

(** splitTimeRange splits a range of whole seconds into sub-ranges of
    [frame] hours such that every second of the range is in exactly one of them
    and no other second is in any; the loop ends after as many rounds as there
    are frames in the range. *)
Theorem split_time_range_partitions a b frame n :
  0 < frame → Hour * frame < 2 ^ 63 → a < b → (b - a) * Second ≤ Z.of_nat n * (Hour * frame) →
  ∃ l, splitTimeRange (S n) (a * Second) (b * Second) frame = Some l ∧
    ∀ t, hits t l = if (a <=? t) && (t <=? b) then 1%nat else 0%nat.
Proof.
  intros Hf Ho Hab Hn. destruct (split_terminates n (a * Second) (b * Second) frame) as [l Hl];
    [done | done | lia |].
  exists l. split; [done|]. intros t. rewrite (split_partition _ _ _ _ _ Hf Ho Hl).
  destruct (Z.ltb_spec a b); [by rewrite andb_true_r | lia].
Qed.

(** With a negative time frame, which GetMarketReport does not refuse, the
    end of the range moves away from the start and the loop never ends. *)
Theorem negative_frame_diverges fuel start end_ frame :
  frame < 0 → - Hour * frame < 2 ^ 63 → start < end_ →
  splitTimeRange fuel start end_ frame = None.
Proof.
  intros Hf Ho. revert end_. induction fuel as [|fuel IH]; intros e He; [done|]. cbn [splitTimeRange].
  destruct (Z.leb_spec e start); [lia|].
  rewrite i64_id by (unfold is_i64, Hour, Second in *; lia).
  rewrite IH; [done|]. unfold Hour, Second. lia.
Qed.

(** when the end of the range is not a whole second, as when it is the
    current time, the first second after a boundary is in no sub-range: a trade
    requested then is missing from the volumes although it is in the range. *)
Theorem fractional_end_loses_second fuel start end_ frame l t :
  0 < frame → Hour * frame < 2 ^ 63 →
  let boundary := end_ - Hour * frame in
  start < boundary → boundary < t * Second < boundary + Second →
  splitTimeRange fuel start end_ frame = Some l →
  isInTimeRange t start end_ = true ∧ hits t l = 0%nat.
Proof.
  intros Hf Ho boundary Hb Ht Hs. unfold boundary in *. split.
  { unfold isInTimeRange. apply andb_true_intro. split; apply Z.leb_le; unfold Hour, Second in *; lia. }
  destruct fuel as [|fuel]; [done|]. cbn [splitTimeRange] in Hs.
  destruct (Z.leb_spec end_ start); [unfold Hour, Second in *; lia|].
  rewrite i64_id in Hs by (unfold is_i64, Hour, Second in *; lia).
  replace (end_ + - Hour * frame) with (end_ - Hour * frame) in Hs by lia.
  destruct (Z.ltb_spec 0 (end_ - Hour * frame - start)); [|lia].
  destruct (splitTimeRange fuel _ _ _) as [rest|] eqn:Hr; [|done]. injection Hs as <-.
  apply split_ends in Hr; [|done..]. rewrite hits_cons; cbn [v_start v_end].
  unfold isInTimeRange at 1. destruct (Z.leb_spec (end_ - Hour * frame + Second) (t * Second)); [lia|]. cbn.
  apply hits_none. eapply Forall_impl; [exact Hr|]. cbn. lia.
Qed.

(** * Theorems: the report *)

Section report_theorems.
Context `{SwapParser} {M T : Type} `{MarketRepository M} `{TradeRepository T}.

(** What a trade of the range adds to the volume of the base asset. *)
Definition base_volume (mkt : Market) (rangeStart rangeEnd : Z) (t : Trade) : Z :=
  match tr_SwapRequest t, SwapRequestMessage t with
  | Some req, Ret (Some r) =>
      if isInTimeRange (sw_Timestamp req) rangeStart rangeEnd then fst (trade_amounts mkt r) else 0
  | _, _ => 0
  end.
Definition sum (f : Trade → Z) (l : list Trade) : Z := foldr (λ t s, f t + s) 0 l.
Definition sum_base (vols : list marketVolumeInfo) : Z := foldr (λ v s, v_base v + s) 0 vols.

Lemma tot_base_sum vols : tot_base vols = u64 (sum_base vols).
Proof.
  unfold tot_base. change 0 with (u64 0) at 1. rewrite <- (Z.add_0_l (sum_base vols)).
  generalize 0 as s. induction vols as [|v vols IH]; intros s; cbn.
  - by rewrite Z.add_0_r.
  - rewrite u64_add_l, IH. f_equal. fold (sum_base vols). lia.
Qed.

Lemma split_zero fuel start end_ frame l :
  splitTimeRange fuel start end_ frame = Some l → sum_base l = 0.
Proof.
  revert end_ l. induction fuel as [|fuel IH]; intros e l; [done|]. rewrite split_S; cbv zeta.
  destruct (e <=? start); [by intros [= <-]|].
  destruct (splitTimeRange fuel _ _ _) as [rest|] eqn:E; [|done]. intros [= <-].
  apply IH in E. unfold sum_base in *. cbn. lia.
Qed.

Lemma add_volumes_spec mkt ts r vols vols' :
  add_volumes mkt ts (Some r) vols = Ret vols' →
  (∀ t, hits t vols' = hits t vols) ∧
  eq64 (sum_base vols') (sum_base vols + Z.of_nat (hits ts vols) * fst (trade_amounts mkt r)).
Proof.
  unfold add_volumes. destruct (trade_amounts mkt r) as [x y]. intros [= <-]. cbn [fst].
  induction vols as [|v vols [IH1 IH2]]; [split; [done|]; unfold eq64; f_equal; cbn; lia|].
  rewrite fmap_cons. split.
  - intros t. rewrite !hits_cons, IH1. by destruct (isInTimeRange ts _ _).
  - rewrite hits_cons. cbn [sum_base foldr]. fold (sum_base vols).
    change (foldr _ 0 ?l) with (sum_base l). rewrite IH2.
    destruct (isInTimeRange ts _ _); cbn [v_base]; [rewrite eq64_u64|]; unfold eq64; f_equal; lia.
Qed.

Lemma hits_exists ts vols :
  hits ts vols = 1%nat → existsb (λ v, isInTimeRange ts (v_start v) (v_end v)) vols = true.
Proof.
  induction vols as [|v vols IH]; [done|]. rewrite hits_cons. cbn.
  destruct (isInTimeRange _ _ _); [done | apply IH].
Qed.

(** When every instant of the range is in one sub-range, the loop adds the
    amount of each trade of the range exactly once. *)
Lemma report_loop_spec mkt a b trades vols fees vols' fees' :
  (∀ t, isInTimeRange t a b = true → hits t vols = 1%nat) →
  report_loop mkt a b trades vols fees = Ret (vols', fees') →
  eq64 (sum_base vols') (sum_base vols + sum (base_volume mkt a b) trades).
Proof.
  revert vols fees. induction trades as [|t trades IH]; intros vols fees Hh; cbn [report_loop].
  { intros [= <- _]. unfold eq64. f_equal. cbn. lia. }
  change (sum _ (t :: trades)) with (base_volume mkt a b t + sum (base_volume mkt a b) trades).
  unfold base_volume at 1. destruct (tr_SwapRequest t) as [req|]; cbn; [|done].
  destruct (isInTimeRange (sw_Timestamp req) a b) eqn:Hin.
  2:{ intros Hl. rewrite (IH _ _ Hh Hl). destruct (SwapRequestMessage t) as [[]| |];
        unfold eq64; f_equal; lia. }
  destruct (SwapRequestMessage t) as [r| |]; [|done..]. cbn [mbind outcome_bind].
  destruct r as [r|].
  - destruct (add_volumes mkt (sw_Timestamp req) (Some r) vols) as [vols1| |] eqn:Ha; [|done..].
    apply add_volumes_spec in Ha as [Hh1 Hs]. cbn. intros Hl.
    rewrite (IH _ _ (λ t' Ht', eq_trans (Hh1 t') (Hh t' Ht')) Hl), Hs, (Hh _ Hin).
    unfold eq64. f_equal. lia.
  - cbn. rewrite hits_exists by auto. done.
Qed.

Lemma sum_perm f l l' : l ≡ₚ l' → sum f l = sum f l'.
Proof. unfold sum. induction 1; cbn in *; lia. Qed.

Lemma frame_bounds start end_ frame :
  0 ≤ frame → end_ - start < 2 ^ 63 →
  let frame := if frame =? 0 then getDefaultTimeFrameForRange start end_ else frame in
  frame ≤ (end_ - start) ÷ Hour → 0 < frame ∧ Hour * frame < 2 ^ 63.
Proof.
  intros Hf Hr fr Hle. assert (0 < fr) as Hpos.
  { unfold fr. destruct (Z.eqb_spec frame 0); [|lia]. unfold getDefaultTimeFrameForRange.
    repeat case_match; lia. }
  split; [done|]. assert (0 < (end_ - start) ÷ Hour) as Hq by lia.
  assert (0 ≤ end_ - start) as Hnn.
  { destruct (Z.le_gt_cases 0 (end_ - start)); [done|].
    assert ((end_ - start) ÷ Hour ≤ 0); [|lia]. apply Z.quot_le_upper_bound; unfold Hour, Second; lia. }
  pose proof (Z.mul_quot_le (end_ - start) Hour Hnn). unfold Hour, Second in *. lia.
Qed.

End report_theorems.

(** * Examples *)
Module ReportExamples.
Import TradeExamples.

Lemma split_time_range_partitions_witness :
  ∃ l, splitTimeRange 6 (1000 * Second) (19000 * Second) 1 = Some l ∧ hits 15400 l = 1%nat ∧
    hits 999 l = 0%nat ∧ length l = 5%nat.
Proof.
  destruct (split_time_range_partitions 1000 19000 1 5) as (l & Hl & Hh);
    [lia | unfold Hour, Second; lia | lia | unfold Hour, Second; lia |].
  exists l. split; [exact Hl|]. split; [exact (Hh 15400)|]. split; [exact (Hh 999)|].
  vm_compute in Hl. injection Hl as <-. reflexivity.
Defined.

Lemma negative_frame_diverges_witness : splitTimeRange 100 0 (7200 * Second) (-1) = None.
Proof. apply negative_frame_diverges; unfold Hour, Second; lia. Defined.

(** From 0 to half a second past 5 hours: second 14401 is lost. *)
Lemma fractional_end_loses_second_witness :
  ∃ l, splitTimeRange 10 0 (18000 * Second + 500000000) 1 = Some l ∧ hits 14401 l = 0%nat.
Proof.
  eexists. split; [vm_compute; reflexivity|].
  eapply (fractional_end_loses_second 10 0 (18000 * Second + 500000000) 1);
    [lia | unfold Hour, Second; lia | unfold Hour, Second; lia | unfold Hour, Second; lia
     | vm_compute; reflexivity].
Defined.

Definition mkt : Market := {|
  BaseAsset := "R"; QuoteAsset := "P"; Name := "mkt"; BaseAssetPrecision := 8;
  QuoteAssetPrecision := 8; PercentageFee := zero_fee; FixedFee := zero_fee; Tradable := true;
  StrategyType := StrategyTypeBalanced; Price := empty_price |}.
Definition ms : InmemoryMarket.store :=
  fst (InmemoryMarket.createMarket (λ b, b) mkt InmemoryMarket.NewMarketRepositoryImpl).
Definition trades : InmemoryTrade.store :=
  fst (InmemoryTrade.addTrade (default (NewTrade "") completed) InmemoryTrade.NewTradeRepositoryImpl).
#[local] Instance mrepo : MarketRepository InmemoryMarket.store :=
  InmemoryMarket.repository (D := Decimal.Fixed.t) (λ b, b).

Definition report : outcome error (option marketReport) :=
  GetMarketReport 10 ms trades "R" "P" (Ret (0 * Second, 7200 * Second)) 1.
Definition report_value : option marketReport := match report with Ret r => r | _ => None end.
Lemma report_ok : ∃ r, report = Ret (Some r) ∧ r_totBaseVolume r = 10000.
Proof. vm_compute. eexists. split; reflexivity. Qed.

End ReportExamples.
