(* ===== verification/Calendar.v ===== *)
(** The time ranges of market reports: timeRangeToDates of
    internal/core/application/operator/market_account.go.

    The calendar of Go's time package is modelled as far as the code uses it:
    time.Date, Time.Date and Time.AddDate on the proleptic Gregorian calendar, with
    the normalisation of months and days that are out of range.  A time.Time is its
    number of nanoseconds since the epoch; the location of time.Now is a fixed
    offset from UTC ([offset], in nanoseconds).  time.Parse is an argument. *)

From Stdlib Require Import ZArith Lia.
From stdpp Require Import base tactics strings list.
From S2P Require Import Prelude Errors Market Trade Repos Report.
Local Open Scope Z_scope.

(** * The calendar of Go's time package *)

Definition Minute : Z := 60 * Second.
Definition Day : Z := 24 * Hour.

Definition leap (y : Z) : bool := (y mod 4 =? 0) && (negb (y mod 100 =? 0) || (y mod 400 =? 0)).

(** Days from the epoch to the first of January of a year. *)
Definition year_start (y : Z) : Z :=
  365 * y + (y + 3) / 4 - (y + 99) / 100 + (y + 399) / 400 - 719528.

(** Days of the year before a month. *)
Definition month_start (y m : Z) : Z :=
  (match m with
   | 1 => 0 | 2 => 31 | 3 => 59 | 4 => 90 | 5 => 120 | 6 => 151 | 7 => 181
   | 8 => 212 | 9 => 243 | 10 => 273 | 11 => 304 | _ => 334
   end) + (if leap y && (3 <=? m) then 1 else 0).

(** [time.Date(y, m, d, ...)] in UTC; the hour, minute, second and nanosecond are
    given as their sum.  Months out of range move to other years, days out of range
    to other months. *)
Definition Date (y m d clock : Z) : Z :=
  let year := y + (m - 1) / 12 in
  let month := (m - 1) mod 12 + 1 in
  (year_start year + month_start year month + (d - 1)) * Day + clock.

(** [t.Date()] and the time of the day, in UTC. *)
Definition year_of (days : Z) : Z :=
  let y := 400 * (days + 719528) / 146097 in
  if year_start (y + 1) <=? days then y + 1
  else if year_start y <=? days then y else y - 1.

(** The last month that does not start after the day. *)
Definition month_of (y yday : Z) : Z :=
  let from m rest := if month_start y m <=? yday then m else rest in
  from 12 (from 11 (from 10 (from 9 (from 8 (from 7 (from 6 (from 5 (from 4 (from 3 (from 2 1)))))))))).

Record civil := { c_year : Z; c_month : Z; c_day : Z; c_clock : Z }.
Definition civil_of (t : Z) : civil :=
  let days := t / Day in
  let y := year_of days in
  let yday := days - year_start y in
  let m := month_of y yday in
  {| c_year := y; c_month := m; c_day := yday - month_start y m + 1; c_clock := t mod Day |}.

(** [t.AddDate(years, months, days)] of a time at the offset. *)
Definition AddDate (offset : Z) (t years months days : Z) : Z :=
  let c := civil_of (t + offset) in
  Date (c_year c + years) (c_month c + months) (c_day c + days) (c_clock c) - offset.

(** The zero time.Time: the first of January of the year 1. *)
Definition zero_Time : Z := Date 1 1 1 0.

(** * timeRangeToDates *)

Definition startYear : Z := 2021.

(** ports.PredefinedPeriod: its methods; ports.TimeRange: a nil custom period is
    [None], else the start and end date. *)
Record PredefinedPeriod := {
  IsLastHour : bool; IsLastDay : bool; IsLastWeek : bool; IsLastMonth : bool;
  IsLastThreeMonths : bool; IsYearToDate : bool; IsLastYear : bool; IsAll : bool }.
Record TimeRange := {
  GetCustomPeriod : option (string * string); GetPredefinedPeriod : PredefinedPeriod }.

Section ranges.
Variable Parse_RFC3339 : string → outcome error Z.
Variables (offset now : Z).

Definition timeRangeToDates (tr : TimeRange) : outcome error (Z * Z) :=
  match GetCustomPeriod tr with
  | Some (startDate, endDate) =>
      startTime ← Parse_RFC3339 startDate;
      if negb (bool_decide (endDate = ""%string)) then
        endTime ← Parse_RFC3339 endDate; Ret (startTime, endTime)
      else Ret (startTime, now)
  | None =>
      let p := GetPredefinedPeriod tr in
      let startTime := zero_Time in
      let endTime := now in
      let startTime := if IsLastHour p then now + i64 (-60 * Minute) else startTime in
      let startTime := if IsLastDay p then AddDate offset now 0 0 (-1) else startTime in
      let startTime := if IsLastWeek p then AddDate offset now 0 0 (-7) else startTime in
      let startTime := if IsLastMonth p then AddDate offset now 0 (-1) 0 else startTime in
      let startTime := if IsLastThreeMonths p then AddDate offset now 0 (-3) 0 else startTime in
      let y := c_year (civil_of (now + offset)) in
      let startTime := if IsYearToDate p then Date y 1 1 0 else startTime in
      let startTime := if IsLastYear p then Date (y - 1) 1 1 0 else startTime in
      let endTime := if IsLastYear p
                     then Date (y - 1) 12 31 (23 * Hour + 59 * Minute + 59 * Second) else endTime in
      let startTime := if IsAll p then Date startYear 1 1 0 else startTime in
      Ret (startTime, endTime)
  end.
End ranges.

(** predefinedPeriodInfo of internal/interfaces/grpc/handler: the period of the
    wire, a number. *)
Definition PERIOD_LAST_HOUR : Z := 1.
Definition PERIOD_LAST_DAY : Z := 2.
Definition PERIOD_LAST_WEEK : Z := 3.
Definition PERIOD_LAST_MONTH : Z := 4.
Definition PERIOD_LAST_THREE_MONTHS : Z := 5.
Definition PERIOD_YEAR_TO_DATE : Z := 6.
Definition PERIOD_LAST_YEAR : Z := 7.
Definition PERIOD_ALL : Z := 8.
Definition predefinedPeriodInfo (p : Z) : PredefinedPeriod := {|
  IsLastHour := p =? PERIOD_LAST_HOUR; IsLastDay := p =? PERIOD_LAST_DAY;
  IsLastWeek := p =? PERIOD_LAST_WEEK; IsLastMonth := p =? PERIOD_LAST_MONTH;
  IsLastThreeMonths := p =? PERIOD_LAST_THREE_MONTHS; IsYearToDate := p =? PERIOD_YEAR_TO_DATE;
  IsLastYear := p =? PERIOD_LAST_YEAR; IsAll := p =? PERIOD_ALL |}.

(** * Theorems: the calendar *)

Lemma year_length y : year_start (y + 1) - year_start y = if leap y then 366 else 365.
Proof.
  unfold year_start, leap.
  destruct (Z.eqb_spec (y mod 4) 0), (Z.eqb_spec (y mod 100) 0), (Z.eqb_spec (y mod 400) 0);
    cbn [andb orb negb]; Z.to_euclidean_division_equations; lia.
Qed.

Lemma year_start_bounds y : 146097 * y - 396 ≤ 400 * (year_start y + 719528) ≤ 146097 * y + 699.
Proof. unfold year_start. Z.to_euclidean_division_equations. lia. Qed.

(** The year found for a day is the one that contains it. *)
Lemma year_of_spec d : year_start (year_of d) ≤ d < year_start (year_of d + 1).
Proof.
  unfold year_of. set (y := 400 * (d + 719528) / 146097).
  assert (146097 * y ≤ 400 * (d + 719528) < 146097 * (y + 1)) as Hy.
  { subst y. Z.to_euclidean_division_equations. lia. }
  pose proof (year_start_bounds (y - 1)). pose proof (year_start_bounds (y + 1 + 1)).
  destruct (Z.leb_spec (year_start (y + 1)) d); [lia|].
  destruct (Z.leb_spec (year_start y) d); [lia|].
  replace (y - 1 + 1) with y by lia. lia.
Qed.

(** Evaluates sums and differences of numerals. *)
Ltac numerals := repeat match goal with
  | |- context [Zpos ?a + Zpos ?b] =>
      let c := eval compute in (Zpos a + Zpos b) in change (Zpos a + Zpos b) with c
  | |- context [Zpos ?a - Zpos ?b] =>
      let c := eval compute in (Zpos a - Zpos b) in change (Zpos a - Zpos b) with c
  end.

(** The days of a month. *)
Definition month_end (y m : Z) : Z :=
  if m =? 12 then year_start (y + 1) - year_start y else month_start y (m + 1).

(** The month found for a day of the year is the one that contains it. *)
Lemma month_of_spec y yday :
  0 ≤ yday < year_start (y + 1) - year_start y →
  1 ≤ month_of y yday ≤ 12 ∧
  month_start y (month_of y yday) ≤ yday < month_end y (month_of y yday).
Proof.
  unfold month_end. rewrite year_length. intros Hd.
  unfold month_of; cbv zeta.
  repeat (match goal with |- context [if ?s <=? yday then ?m else _] => destruct (Z.leb_spec s yday) end;
    [numerals; unfold month_start in *; destruct (leap y); cbn in *; lia |]).
  numerals; unfold month_start in *; destruct (leap y); cbn in *; lia.
Qed.

Lemma month_end_length y m : 1 ≤ m ≤ 12 → 28 ≤ month_end y m - month_start y m ≤ 31.
Proof.
  intros Hm. unfold month_end. rewrite year_length.
  assert (m ∈ [1; 2; 3; 4; 5; 6; 7; 8; 9; 10; 11; 12]) as Hin by (rewrite !elem_of_cons; lia).
  repeat (apply elem_of_cons in Hin as [->|Hin]); [..| by apply elem_of_nil in Hin];
    numerals; unfold month_start; destruct (leap y); cbn; lia.
Qed.

(** A civil date is a valid one. *)
Definition valid_civil (c : civil) : Prop :=
  1 ≤ c_month c ≤ 12 ∧
  1 ≤ c_day c ≤ month_end (c_year c) (c_month c) - month_start (c_year c) (c_month c) ∧
  0 ≤ c_clock c < Day.

Lemma civil_of_valid t : valid_civil (civil_of t).
Proof.
  unfold valid_civil, civil_of; cbn. pose proof (year_of_spec (t / Day)) as Hy.
  destruct (month_of_spec (year_of (t / Day)) (t / Day - year_start (year_of (t / Day)))) as [Hm Hd];
    [lia|]. split_and!; try lia; apply Z.mod_pos_bound; unfold Day, Hour, Second; lia.
Qed.

(** time.Date takes the parts of a date back to it. *)
Lemma Date_civil_of t (c := civil_of t) : Date (c_year c) (c_month c) (c_day c) (c_clock c) = t.
Proof.
  unfold Date. destruct (civil_of_valid t) as [Hm _]. fold c in Hm.
  rewrite Z.div_small, Z.mod_small by lia. rewrite Z.add_0_r, Z.sub_add.
  subst c; cbn. pose proof (Z.div_mod t Day ltac:(unfold Day, Hour, Second; lia)). lia.
Qed.

(** The first day of a month that may be out of range, in days. *)
Definition month_day (y m : Z) : Z :=
  year_start (y + (m - 1) / 12) + month_start (y + (m - 1) / 12) ((m - 1) mod 12 + 1).

Lemma Date_month_day y m d clock : Date y m d clock = (month_day y m + (d - 1)) * Day + clock.
Proof. done. Qed.

(** Moving by days moves by whole days, wherever the month ends. *)
Lemma AddDate_days offset t n : AddDate offset t 0 0 n = t + n * Day.
Proof.
  unfold AddDate. pose proof (Date_civil_of (t + offset)) as HD. cbv zeta in HD.
  rewrite Date_month_day in *. rewrite !Z.add_0_r.
  revert HD. generalize (civil_of (t + offset)) as c. intros c HD.
  generalize dependent (month_day (c_year c) (c_month c)). generalize Day. intros D A HD. nia.
Qed.

Lemma month_day_in y m : 1 ≤ m ≤ 12 → month_day y m = year_start y + month_start y m.
Proof.
  intros Hm. unfold month_day. rewrite Z.div_small, Z.mod_small by lia.
  by rewrite Z.add_0_r, Z.sub_add.
Qed.
Lemma month_day_before y m : 1 ≤ m ≤ 12 → month_day y (m - 12) = month_day (y - 1) m.
Proof.
  intros Hm. unfold month_day.
  replace (m - 12 - 1) with (m - 1 + (-1) * 12) by lia.
  rewrite Z.div_add, Z.mod_add, Z.div_small, Z.mod_small by lia. do 2 f_equal; lia.
Qed.

(** The lengths of one and of three months. *)
Lemma one_month y m : 1 ≤ m ≤ 12 → 28 ≤ month_day y m - month_day y (m - 1) ≤ 31.
Proof.
  intros Hm. destruct (decide (m = 1)) as [->|Hne].
  - change (1 - 1) with (12 - 12). rewrite month_day_before by lia.
    rewrite !month_day_in by lia. pose proof (year_length (y - 1)) as HL.
    replace (y - 1 + 1) with y in HL by lia. unfold month_start; cbn.
    destruct (leap (y - 1)), (leap y); cbn; lia.
  - rewrite !month_day_in by lia. pose proof (month_end_length y (m - 1) ltac:(lia)) as HL.
    unfold month_end in HL. destruct (Z.eqb_spec (m - 1) 12); [lia|].
    rewrite Z.sub_add in HL. lia.
Qed.

Lemma three_months y m : 1 ≤ m ≤ 12 → 89 ≤ month_day y m - month_day y (m - 3) ≤ 92.
Proof.
  intros Hm. pose proof (year_length (y - 1)) as HL. replace (y - 1 + 1) with y in HL by lia.
  destruct (decide (m ≤ 3)).
  - replace (m - 3) with (m + 9 - 12) by lia. rewrite month_day_before by lia.
    rewrite !month_day_in by lia.
    assert (m ∈ [1; 2; 3]) as Hin by (rewrite !elem_of_cons; lia).
    repeat (apply elem_of_cons in Hin as [->|Hin]); [..| by apply elem_of_nil in Hin];
      numerals; unfold month_start; cbn; destruct (leap (y - 1)), (leap y); cbn; lia.
  - rewrite !month_day_in by lia.
    assert (m ∈ [4; 5; 6; 7; 8; 9; 10; 11; 12]) as Hin by (rewrite !elem_of_cons; lia).
    repeat (apply elem_of_cons in Hin as [->|Hin]); [..| by apply elem_of_nil in Hin];
      numerals; unfold month_start; destruct (leap y); cbn; lia.
Qed.

(** Moving back by months keeps the day of the month and the time of the day, and
    spills into the next month when the day does not exist. *)
Lemma AddDate_months offset t n (c := civil_of (t + offset)) :
  t - AddDate offset t 0 (- n) 0 = (month_day (c_year c) (c_month c) - month_day (c_year c) (c_month c - n)) * Day.
Proof.
  pose proof (Date_civil_of (t + offset)) as HD. cbn zeta in HD. fold c in HD.
  unfold AddDate. fold c. rewrite Date_month_day in *. rewrite !Z.add_0_r, Z.add_opp_r. lia.
Qed.

(** New year's day and the last second of a year. *)
Lemma Date_new_year y : Date y 1 1 0 = year_start y * Day.
Proof.
  rewrite Date_month_day, month_day_in by lia. unfold month_start; cbn. rewrite andb_false_r. lia.
Qed.
Lemma Date_year_end y :
  Date y 12 31 (23 * Hour + 59 * Minute + 59 * Second) + Second = year_start (y + 1) * Day.
Proof.
  rewrite Date_month_day, month_day_in by lia. pose proof (year_length y) as HL. revert HL.
  unfold month_start, Minute, Day, Hour, Second; cbn. destruct (leap y); cbn; lia.
Qed.
Lemma in_year t (y := c_year (civil_of t)) :
  year_start y * Day ≤ t < year_start (y + 1) * Day ∧ year_start (y + 1) ≤ year_start y + 366.
Proof.
  pose proof (year_of_spec (t / Day)) as HY. pose proof (year_length y) as HL. split.
  - change (year_of (t / Day)) with y in HY.
    pose proof (Z.div_mod t Day ltac:(unfold Day, Hour, Second; lia)).
    pose proof (Z.mod_pos_bound t Day ltac:(unfold Day, Hour, Second; lia)).
    clear HL. clearbody y. nia.
  - revert HL. destruct (leap y); lia.
Qed.

(** * Theorems: the ranges of a report *)

Definition period (p : Z) : TimeRange :=
  {| GetCustomPeriod := None; GetPredefinedPeriod := predefinedPeriodInfo p |}.

Lemma hour_duration : i64 (-60 * Minute) = - Hour.
Proof. vm_compute. reflexivity. Qed.

(** The range of each period, in the terms of the calendar. *)
Lemma period_dates Parse offset now p (y := c_year (civil_of (now + offset))) :
  1 ≤ p ≤ 8 →
  timeRangeToDates Parse offset now (period p) =
  Ret (if p =? 1 then now - Hour else if p =? 2 then now - 1 * Day else if p =? 3 then now - 7 * Day
       else if p =? 4 then AddDate offset now 0 (- (1)) 0 else if p =? 5 then AddDate offset now 0 (- (3)) 0
       else if p =? 6 then year_start y * Day else if p =? 7 then year_start (y - 1) * Day
       else year_start startYear * Day,
       if p =? 7 then year_start y * Day - Second else now).
Proof.
  intros Hp. pose proof (Date_year_end (y - 1)) as HE. rewrite Z.sub_add in HE.
  unfold timeRangeToDates; cbn [period GetCustomPeriod GetPredefinedPeriod]. fold y.
  replace (Date (y - 1) 12 31 (23 * Hour + 59 * Minute + 59 * Second)) with (year_start y * Day - Second) by lia.
  rewrite !Date_new_year, !AddDate_days, hour_duration. clearbody y. clear HE.
  assert (p ∈ [1; 2; 3; 4; 5; 6; 7; 8]) as Hin by (rewrite !elem_of_cons; lia).
  repeat (apply elem_of_cons in Hin as [->|Hin]); [..| by apply elem_of_nil in Hin];
    cbn -[Hour Day Second year_start AddDate startYear Z.mul]; (do 2 f_equal); lia.
Qed.

(** What each predefined period of a report means: the last hour, day and week end
    now and are exactly that long; the last month is 28 to 31 days long and the last
    three months 89 to 92, both ending now; the year to date starts at the first of
    January of the current year, at most 366 days before the local time; the last year
    is the whole previous year, to the second; everything is since 2021. *)
Definition period_means (offset now p start stop : Z) : Prop :=
  let y := c_year (civil_of (now + offset)) in
  (p = PERIOD_LAST_HOUR → start = now - Hour) ∧
  (p = PERIOD_LAST_DAY → start = now - Day) ∧
  (p = PERIOD_LAST_WEEK → start = now - 7 * Day) ∧
  (p = PERIOD_LAST_MONTH → 28 * Day ≤ now - start ≤ 31 * Day) ∧
  (p = PERIOD_LAST_THREE_MONTHS → 89 * Day ≤ now - start ≤ 92 * Day) ∧
  (p = PERIOD_YEAR_TO_DATE → start = Date y 1 1 0 ∧ start ≤ now + offset < start + 366 * Day) ∧
  (p = PERIOD_LAST_YEAR → start = Date (y - 1) 1 1 0 ∧ stop + Second = Date y 1 1 0 ∧
     stop < now + offset) ∧
  (p = PERIOD_ALL → start = Date startYear 1 1 0) ∧
  (p ≠ PERIOD_LAST_YEAR → stop = now).

Lemma period_spec Parse offset now p start stop :
  1 ≤ p ≤ 8 → timeRangeToDates Parse offset now (period p) = Ret (start, stop) →
  period_means offset now p start stop.
Proof.
  intros Hp HT. unfold period_means. set (y := c_year (civil_of (now + offset))). rewrite period_dates in HT by done. fold y in HT. injection HT as <- <-.
  pose proof (civil_of_valid (now + offset)) as (Hm & _).
  pose proof (one_month y _ Hm) as H1. pose proof (three_months y _ Hm) as H3.
  pose proof (AddDate_months offset now 1) as HA1. pose proof (AddDate_months offset now 3) as HA3.
  cbv zeta in HA1, HA3. fold y in HA1, HA3.
  pose proof (in_year (now + offset)) as [Hy H366]. fold y in Hy, H366.
  assert (0 < Second ∧ 0 < Day) as [HS HD] by done.
  rewrite !Date_new_year. clearbody y. revert HA1 HA3 Hy HS HD. generalize Second Day. intros sec day HA1 HA3 Hy HS HD.
  split_and!; [intros ->; cbn; nia .. |].
  intros Hne. unfold PERIOD_LAST_YEAR in Hne. apply Z.eqb_neq in Hne. by rewrite Hne.
Qed.

Section reports.
Context `{SwapParser} {M T : Type} `{MarketRepository M} `{TradeRepository T}.

Lemma default_frame_fits start stop :
  Hour ≤ stop - start → getDefaultTimeFrameForRange start stop * Hour ≤ stop - start.
Proof.
  unfold getDefaultTimeFrameForRange. intros Hs.
  rewrite Z.quot_div_nonneg by (unfold Hour, Second in *; lia).
  pose proof (Z.div_mod (stop - start) (24 * Hour) ltac:(unfold Hour, Second; lia)) as HD.
  pose proof (Z.mod_pos_bound (stop - start) (24 * Hour) ltac:(unfold Hour, Second; lia)) as HB.
  cbv zeta. generalize dependent ((stop - start) / (24 * Hour)). intros q HD.
  unfold Hour, Second in *.
  repeat match goal with |- context [?a <=? q] => destruct (Z.leb_spec a q) end; lia.
Qed.

(** With a frame that does not fit the range the report is refused before anything
    is read. *)
Lemma report_refused fuel (ms : M) (ts : T) base quote start stop :
  0 ≤ stop - start < Hour →
  GetMarketReport fuel ms ts base quote (Ret (start, stop)) 0
  = Err (Errorf "time range must be larger than time frame").
Proof.
  intros Hs. unfold GetMarketReport; cbn [mbind outcome_bind].
  replace (if 0 =? 0 then getDefaultTimeFrameForRange start stop else 0) with 1.
  - by rewrite Z.quot_small by lia.
  - cbn. unfold getDefaultTimeFrameForRange. by rewrite Z.quot_small by (unfold Hour, Second in *; lia).
Qed.

(** the predefined periods of a report: the last hour, day and week end now and are
    exactly that long; the last month is 28 to 31 days long and the last three months
    89 to 92, both ending now; the year to date starts at the first of January of the
    current year; the last year is the whole previous year, to the second; everything
    is since 2021.  The default frame fits the range, so a report is never refused for
    it, except for the year to date during the first hour of a year, when it always
    is; only east of UTC can the year to date start in the future. *)
Theorem report_periods Parse offset now p start stop :
  1 ≤ p ≤ 8 → (p = PERIOD_ALL → Date startYear 1 1 0 + Hour ≤ now) →
  timeRangeToDates Parse offset now (period p) = Ret (start, stop) →
  period_means offset now p start stop ∧
  (p ≠ PERIOD_YEAR_TO_DATE →
     getDefaultTimeFrameForRange start stop * Hour ≤ stop - start) ∧
  (p = PERIOD_YEAR_TO_DATE → start + Hour ≤ now →
     getDefaultTimeFrameForRange start stop * Hour ≤ stop - start) ∧
  (p = PERIOD_YEAR_TO_DATE → start ≤ now < start + Hour → ∀ fuel (ms : M) (ts : T) base quote,
     GetMarketReport fuel ms ts base quote
       (timeRangeToDates Parse offset now (period p)) 0
     = Err (Errorf "time range must be larger than time frame")) ∧
  (p = PERIOD_YEAR_TO_DATE → now < start → 0 < offset).
Proof.
  intros Hp Hall HT.
  pose proof (period_spec _ _ _ _ _ _ Hp HT) as HP. split; [done|].
  destruct HP as (R1 & R2 & R3 & R4 & R5 & R6 & R7 & R8 & Hstop).
  unfold PERIOD_LAST_HOUR, PERIOD_LAST_DAY, PERIOD_LAST_WEEK, PERIOD_LAST_MONTH, PERIOD_LAST_THREE_MONTHS,
    PERIOD_YEAR_TO_DATE, PERIOD_LAST_YEAR, PERIOD_ALL in *.
  assert (0 < Hour ∧ Day = 24 * Hour) as [Hpos HDay] by done.
  split_and!.
  - intros Hne. apply default_frame_fits. clear R6.
    destruct (decide (p = 7)) as [E7|N7].
    + destruct (R7 E7) as (-> & He & _). rewrite !Date_new_year in *.
      set (y := c_year (civil_of (now + offset))) in *. clearbody y.
      pose proof (year_length (y - 1)) as HL. replace (y - 1 + 1) with y in HL by lia.
      assert (365 ≤ year_start y - year_start (y - 1)) by (revert HL; destruct (leap (y - 1)); lia).
      unfold Day, Hour, Second in *. lia.
    + specialize (Hstop N7) as ->.
      assert (p = 1 ∨ p = 2 ∨ p = 3 ∨ p = 4 ∨ p = 5 ∨ p = 8) as Hcases by lia.
      destruct Hcases as [E|[E|[E|[E|[E|E]]]]]; [specialize (R1 E)|specialize (R2 E)|specialize (R3 E)
        |specialize (R4 E)|specialize (R5 E)|specialize (R8 E); specialize (Hall E)]; lia.
  - intros E Hn. apply default_frame_fits. rewrite Hstop by lia. lia.
  - intros E Hn fuel ms ts base quote. rewrite HT. apply report_refused. rewrite Hstop by lia. lia.
  - intros E Hn. destruct (R6 E). lia.
Qed.
End reports.

(** * Examples *)
Module CalendarExamples.
Import TradeExamples.
#[local] Instance mrepo : MarketRepository InmemoryMarket.store :=
  InmemoryMarket.repository (D := Decimal.Fixed.t) (λ b, b).

Definition no_parse (_ : string) : outcome error Z := Err (Errorf "parsing time").

(** 2024-03-31T12:00:00Z; a month before is the 31st of February, the 2nd of March. *)
Example leap_year_month :
  civil_of (1711886400 * Second) = {| c_year := 2024; c_month := 3; c_day := 31; c_clock := 12 * Hour |} ∧
  civil_of (AddDate 0 (1711886400 * Second) 0 (-1) 0)
  = {| c_year := 2024; c_month := 3; c_day := 2; c_clock := 12 * Hour |}.
Proof. split; vm_compute; reflexivity. Qed.

(** 2024-01-01T00:30:00Z: the year to date cannot be reported. *)
Lemma report_periods_witness :
  period_means 0 (1704069000 * Second) PERIOD_YEAR_TO_DATE (1704067200 * Second) (1704069000 * Second) ∧
  GetMarketReport 10 ReportExamples.ms ReportExamples.trades "R" "P"
    (timeRangeToDates no_parse 0 (1704069000 * Second) (period PERIOD_YEAR_TO_DATE)) 0
  = Err (Errorf "time range must be larger than time frame").
Proof.
  destruct (report_periods no_parse 0 (1704069000 * Second) PERIOD_YEAR_TO_DATE
              (1704067200 * Second) (1704069000 * Second)) as (Hm & _ & _ & Hr & _);
    [unfold PERIOD_YEAR_TO_DATE; lia | discriminate | vm_compute; reflexivity |].
  split; [exact Hm|]. apply Hr; [reflexivity | unfold Hour, Second; lia].
Defined.
End CalendarExamples.
