(* ===== verification/Requests.v ===== *)
(** The validation of requests: internal/interfaces/grpc/handler/utils.go, with
    the types of types.go that wrap what was parsed.

    A message of the wire is a record; a nil message is [None], and its getters give
    the zero value.  Enumerations are numbers, as on the wire, where any int32 may
    arrive.  A float64 is one of the special values or the shortest decimal that
    denotes it.  What is used of go-elements and btcec is the class [WireLib]. *)

From Stdlib Require Import ZArith Lia Ascii.
From stdpp Require Import base tactics strings list gmap.
From S2P Require Import Prelude Errors Decimal Market Trade Repos SwapMsg Wallet TradeService Report Calendar.
Local Open Scope Z_scope.

(** * Messages *)

Inductive float64 := Finite (mantissa exponent : Z) | PosInf | NegInf | NaN.

(** tdexv2.Market, tdexv2.MarketFee, tdexv2.Price *)
Record pb_Market := { pbm_BaseAsset : string; pbm_QuoteAsset : string }.
Record pb_MarketFee := { pbf_BaseAsset : Z; pbf_QuoteAsset : Z }.
Record pb_Price := { pbp_BasePrice : float64; pbp_QuotePrice : float64 }.
(** daemonv2.Page, daemonv2.CustomPeriod, daemonv2.TimeRange, daemonv2.AddWebhookRequest *)
Record pb_Page := { pbg_Number : Z; pbg_Size : Z }.
Record pb_TimeRange := { pbt_Predefined : Z; pbt_Custom : option (string * string) }.
Record pb_AddWebhook := { pbw_Event : Z; pbw_Endpoint : string; pbw_Secret : string }.

Definition STRATEGY_TYPE_UNSPECIFIED : Z := 0.
Definition STRATEGY_TYPE_PLUGGABLE : Z := 1.
Definition STRATEGY_TYPE_BALANCED : Z := 2.
Definition TRADE_TYPE_BUY : Z := 0.
Definition TRADE_TYPE_SELL : Z := 1.
Definition PERIOD_UNSPECIFIED : Z := 0.
Definition WEBHOOK_EVENT_UNSPECIFIED : Z := 0.
Definition WEBHOOK_EVENT_TRADE_SETTLED : Z := 1.
Definition WEBHOOK_EVENT_ACCOUNT_LOW_BALANCE : Z := 2.
Definition WEBHOOK_EVENT_ACCOUNT_WITHDRAW : Z := 3.
Definition WEBHOOK_EVENT_ACCOUNT_DEPOSIT : Z := 4.
Definition WEBHOOK_EVENT_ANY : Z := 5.

(** address.ParseScript and btcec.ParsePubKey: whether they succeed. *)
Class WireLib := {
  ParseScript : bytes → bool;
  ParsePubKey : bytes → bool;
}.

Definition new_error {A} (msg : string) : outcome error A := Err (Errorf msg).

(** * Predicates *)

Definition isValidPassword (pwd : string) : bool := (8 <=? String.length pwd)%nat.
(** hex.DecodeString of a string: the bytes, or an error. *)
Definition decode_hex (s : string) : option bytes :=
  let '(b, ok) := hex_DecodeString s in if ok then Some b else None.
Definition req_isValidAsset (asset : string) : bool :=
  match decode_hex asset with
  | None => false
  | Some b => (length b =? 32)%nat
  end.
Definition isValidPrice (price : float64) : bool :=
  match price with Finite m _ => 0 <? m | PosInf => true | NegInf | NaN => false end.
Definition isValidAmount (amount : Z) : bool := 0 <=? i64 amount.
Definition isValidAccount (account : string) : bool := (0 <? String.length account)%nat.
(** A uint32 is its own int. *)
Definition isValidIndex (index : Z) : bool := 0 <=? i64 index.

Section predicates.
Context `{WireLib}.
Definition isValidScript (script : string) : bool :=
  if (String.length script <=? 0)%nat then true
  else match decode_hex script with None => false | Some buf => ParseScript buf end.
Definition isValidBlindKey (blindKey : string) : bool :=
  if (String.length blindKey <=? 0)%nat then true
  else match decode_hex blindKey with None => false | Some buf => ParsePubKey buf end.
End predicates.

Definition isValidTransaction `{Elements} (tx : string) : bool :=
  match psetv2_NewPsetFromBase64 tx with Some _ => true | None => false end.
Definition isValidUnblindedInput (u : UnblindedInput) : bool :=
  negb (negb (isValidIndex (ui_Index u)) || negb (req_isValidAsset (ui_Asset u))
        || negb (isValidAmount (ui_Amount u)) || negb (req_isValidAsset (ui_AssetBlinder u))
        || negb (req_isValidAsset (ui_AmountBlinder u))).
Fixpoint isValidUnblindedInputList (l : list UnblindedInput) : bool :=
  match l with
  | [] => true
  | u :: l => if negb (isValidUnblindedInput u) then false else isValidUnblindedInputList l
  end.

(** * Parsers *)

Definition parsePassword (pwd : string) : outcome error string :=
  if (String.length pwd <=? 0)%nat then new_error "missing password"
  else if negb (isValidPassword pwd) then new_error "invalid password"
  else Ret pwd.

Definition parseMarket (market : option pb_Market) : outcome error pb_Market :=
  match market with
  | None => new_error "missing market"
  | Some m =>
      if negb (req_isValidAsset (pbm_BaseAsset m)) then new_error "invalid base asset"
      else if negb (req_isValidAsset (pbm_QuoteAsset m)) then new_error "invalid quote asset"
      else Ret m
  end.

Definition parseMarketFee (fee : option pb_MarketFee) : outcome error (Z * Z) :=
  match fee with
  | None => Ret (0, 0)
  | Some f =>
      let baseFee := pbf_BaseAsset f in
      let quoteFee := pbf_QuoteAsset f in
      if baseFee <? -1 then new_error "invalid market base fee value"
      else if quoteFee <? -1 then new_error "invalid market quote fee value"
      else if (baseFee =? -1) && (baseFee =? quoteFee)
      then new_error "invalid market base and quote fee values"
      else Ret (baseFee, quoteFee)
  end.

Definition parseStrategy (strategyType : Z) : outcome error Z :=
  if strategyType =? STRATEGY_TYPE_BALANCED then Ret StrategyTypeBalanced
  else if strategyType =? STRATEGY_TYPE_PLUGGABLE then Ret StrategyTypePluggable
  else if strategyType =? STRATEGY_TYPE_UNSPECIFIED then Ret StrategyTypeUndefined
  else new_error "unknown strategy type".
Definition parseStrategySafe (strategyType : Z) : outcome error Z :=
  strategy ← parseStrategy strategyType;
  if strategy =? StrategyTypeUndefined then new_error "invalid strategy type" else Ret strategy.

Definition parsePrecision (precision : Z) : outcome error Z :=
  if 8 <? precision then new_error "asset precision must be in range [0, 8]" else Ret precision.

(** decimal.NewFromFloat panics on the special values. *)
Definition decimal_of_float {D} `{DecimalOps D} (f : float64) : outcome error D :=
  match f with Finite m e => Ret (NewFromFloat m e) | _ => Panic NotFinite end.
Definition parsePrice {D} `{DecimalOps D} (price : option pb_Price) : outcome error (D * D) :=
  match price with
  | None => new_error "missing market price"
  | Some p =>
      if negb (isValidPrice (pbp_BasePrice p)) then new_error "invalid base price"
      else if negb (isValidPrice (pbp_QuotePrice p)) then new_error "invalid base price"
      else
        basePrice ← decimal_of_float (pbp_BasePrice p);
        quotePrice ← decimal_of_float (pbp_QuotePrice p);
        Ret (basePrice, quotePrice)
  end.

Fixpoint parseOutputs `{WireLib} (outs : list output) : outcome error (list output) :=
  match outs with
  | [] => Ret []
  | o :: outs =>
      if negb (req_isValidAsset (o_asset o)) then new_error "invalid asset for output %d"
      else if negb (isValidScript (o_script o)) then new_error "invalid address for output %d"
      else if negb (isValidBlindKey (o_blindKey o)) then new_error "invalid address for output %d"
      else if negb (isValidAmount (o_amount o)) then new_error "invalid amount for outut %d"
      else list ← parseOutputs outs; Ret (o :: list)
  end.

Definition parseAccountName (account : string) : outcome error string :=
  if negb (isValidAccount account) then new_error "missing account name" else Ret account.

(** swapRequestInfo: the request of the wire with the fee of the proposal. *)
Definition swapRequestInfo (sr : V2SwapRequest) (feeAsset : string) (feeAmount : Z) : SwapRequest := {|
  sr_Id := q2_Id sr; sr_AssetP := q2_AssetP sr; sr_AssetR := q2_AssetR sr;
  sr_AmountP := q2_AmountP sr; sr_AmountR := q2_AmountR sr; sr_Transaction := q2_Transaction sr;
  sr_FeeAsset := feeAsset; sr_FeeAmount := feeAmount; sr_UnblindedInputs := q2_UnblindedInputs sr |}.

Definition parseSwapRequest `{Elements} (sr : option V2SwapRequest) (feeAsset : string) (feeAmount : Z)
    : outcome error SwapRequest :=
  match sr with
  | None => new_error "missing swap request"
  | Some sr =>
      if negb (isValidAmount (q2_AmountP sr)) then new_error "invalid swap request amount proposed"
      else if negb (req_isValidAsset (q2_AssetP sr)) then new_error "invalid swap request asset proposed"
      else if negb (isValidAmount (q2_AmountR sr)) then new_error "invalid swap request amount received"
      else if negb (req_isValidAsset (q2_AssetR sr)) then new_error "invalid swap request asset received"
      else if negb (isValidTransaction (q2_Transaction sr)) then new_error "invalid swap request transaction"
      else if negb (isValidUnblindedInputList (q2_UnblindedInputs sr)) then new_error "invalid unblinded input(s)"
      else if negb (req_isValidAsset feeAsset) then new_error "invalid fee asset"
      else if negb (isValidAmount feeAmount) then new_error "invalid fee amount"
      else Ret (swapRequestInfo sr feeAsset feeAmount)
  end.

(** tradeTypeInfo: the trade type of the wire as a ports.TradeType. *)
Definition tradeTypeInfo (tradeType : Z) : TradeTypePort :=
  {| IsBuy := tradeType =? TRADE_TYPE_BUY; IsSell := tradeType =? TRADE_TYPE_SELL |}.
Definition parseTradeType (tradeType : Z) : outcome error TradeTypePort :=
  if negb (tradeType =? TRADE_TYPE_BUY) && negb (tradeType =? TRADE_TYPE_SELL)
  then new_error "unknown trade type" else Ret (tradeTypeInfo tradeType).

Definition parseAmount (amount : Z) : outcome error Z :=
  if negb (isValidAmount amount) then new_error "invalid amount" else Ret amount.
Definition parseAsset (asset : string) : outcome error string :=
  if (String.length asset <=? 0)%nat then new_error "missing asset"
  else if negb (req_isValidAsset asset) then new_error "invalid asset"
  else Ret asset.
Definition parseNumOfAddresses (num : Z) : outcome error Z :=
  if num <? 0 then new_error "invalid number of derived addresses"
  else if num =? 0 then Ret 1 else Ret num.
Definition parseMaxFragments (num : Z) : outcome error Z :=
  if i64 num <? 0 then new_error "invalid max number of fragments" else Ret num.
Definition parseMillisatsPerByte (msatsPerByte : Z) : outcome error Z :=
  if i64 msatsPerByte <? 0 then new_error "invalid mSats/vByte value" else Ret msatsPerByte.
Definition parseMnemonic (mnemonic : list string) : outcome error (list string) :=
  if (length mnemonic <=? 0)%nat then new_error "missing mnemonic" else Ret mnemonic.

(** pageInfo: the page of the wire as a ports.Page. *)
Definition pageInfo (p : pb_Page) : Page := {|
  page_Number := if pbg_Number p <=? 0 then 1 else pbg_Number p;
  page_Size := if pbg_Size p <=? 0 then 1 else pbg_Size p |}.
Definition parsePage (page : option pb_Page) : outcome error (option Page) :=
  match page with
  | None => Ret None
  | Some p =>
      if pbg_Number p <? 0 then new_error "invalid page number"
      else if pbg_Size p <=? 0 then new_error "invalid page size"
      else Ret (Some (pageInfo p))
  end.

Definition parseId (id : string) : outcome error string :=
  if (String.length id <=? 0)%nat then new_error "missing id" else Ret id.

(** timeRangeInfo: the time range of the wire as a ports.TimeRange. *)
Definition timeRangeInfo (tr : pb_TimeRange) : TimeRange :=
  {| GetCustomPeriod := pbt_Custom tr; GetPredefinedPeriod := predefinedPeriodInfo (pbt_Predefined tr) |}.
Definition parseTimeRange (Parse_RFC3339 : string → outcome error Z) (timeRange : option pb_TimeRange)
    : outcome error TimeRange :=
  let tr := default {| pbt_Predefined := PERIOD_UNSPECIFIED; pbt_Custom := None |} timeRange in
  let pp := pbt_Predefined tr in
  let cp := pbt_Custom tr in
  if (pp =? PERIOD_UNSPECIFIED) && bool_decide (cp = None)
  then new_error "missing predefined or custom period"
  else if (pp <? PERIOD_UNSPECIFIED) || (PERIOD_ALL <? pp) then new_error "unknown predefined period"
  else
    _ ← (match cp with
         | None => Ret ()
         | Some (startDate, endDate) =>
             if bool_decide (startDate = ""%string) && bool_decide (endDate = ""%string)
             then new_error "missing custom start and end dates"
             else match Parse_RFC3339 startDate with
                  | Ret sd =>
                      match Parse_RFC3339 endDate with
                      | Ret ed =>
                          if (ed =? sd) || (ed <? sd)
                          then new_error "invalid custom period: end date is equal or before start date"
                          else Ret ()
                      | Err _ => new_error "invalid custom end date: %s"
                      | Panic p => Panic p
                      end
                  | Err _ => new_error "invalid custom start date: %s"
                  | Panic p => Panic p
                  end
         end);
    Ret (timeRangeInfo tr).

(** The time frame, in hours. *)
Definition parseTimeFrame (timeFrame : Z) : outcome error Z :=
  if timeFrame =? 0 then Ret 0
  else if timeFrame =? 1 then Ret 1
  else if timeFrame =? 2 then Ret 4
  else if timeFrame =? 3 then Ret 24
  else if timeFrame =? 4 then Ret (24 * 7)
  else if timeFrame =? 5 then Ret (24 * 30)
  else new_error "unknown time frame".

(** daemonv2.WebhookEvent_name has the numbers 0 to 5. *)
Definition known_event (event : Z) : bool :=
  (WEBHOOK_EVENT_UNSPECIFIED <=? event) && (event <=? WEBHOOK_EVENT_ANY).
