(* ===== verification/Operator.v ===== *)
(** The operator service: internal/core/application/operator.

    Modelled: the market handlers (creation, configuration, opening, closing,
    dropping, withdrawals), the fee account, the two fragmenters that split
    funds into outputs, and the classification of wallet transactions into
    deposits and withdrawals.  State: the market store, the remote wallet and
    the map of account labels; the market handlers are proved against the
    repository interface, not against one store. *)

From Stdlib Require Import ZArith Lia QArith Qround Lqa.
From stdpp Require Import base tactics strings list gmap.
From S2P Require Import Prelude Errors Decimal Formula Market Trade Repos SwapMsg Wallet.
Local Open Scope Z_scope.

(** ports.WalletAccount, what is used of it. *)
Record WalletAccount := { wa_Namespace : string; wa_Label : string; wa_MasterBlindingKey : string }.

(** The rest of ports.Wallet, ports.Account and ports.Transaction.
    ToOutputScript is go-elements'. *)
Class WalletAdmin (W : Type) := {
  CreateAccount : string → bool → action W error WalletAccount;
  DeleteAccount : string → action W error ();
  ListAddresses : string → action W error (list string);
  Transfer : string → list output → Z → action W error string;
  Auth : string → action W error bool;
  Info_Accounts : action W error (list WalletAccount);
  GetTransaction : string → action W error string;
  ToOutputScript : string → bytes;
}.

(** * Account labels *)

Definition accountMap_add (namespace label : string) (m : gmap string string) : gmap string string :=
  match m !! namespace with Some _ => m | None => <[namespace := label]> m end.
(** A missing namespace has the empty label. *)
Definition accountMap_getLabel (m : gmap string string) (namespace : string) : string :=
  default ""%string (m !! namespace).

(** * Classification of transactions *)

Record txOutputInfo := { tx_asset : string; tx_amount : Z }.
Record txInfo := {
  ti_account : string;
  ownedInputs : list txOutputInfo; notOwnedInputs : list txOutputInfo;
  ownedOutputs : list txOutputInfo; notOwnedOutputs : list txOutputInfo;
  ti_fee : Z }.

Definition isDeposit (i : txInfo) : bool :=
  bool_decide (ownedInputs i = []) && negb (bool_decide (ownedOutputs i = [])).

Definition isWithdrawal (i : txInfo) : bool :=
  if bool_decide (ti_account i = FeeAccount) then
    negb (bool_decide (ownedInputs i = [])) && bool_decide (notOwnedInputs i = [])
    && negb (bool_decide (notOwnedOutputs i = []))
  else forallb (λ o, bool_decide (tx_asset o ∈ (tx_asset <$> ownedInputs i))) (ownedOutputs i).

(** [tot[x.asset] += x.amount] over a list. *)
Definition amount_per_asset (l : list txOutputInfo) : gmap string Z :=
  foldl (λ tot o, <[tx_asset o := u64 (default 0 (tot !! tx_asset o) + tx_amount o)]> tot) ∅ l.

Definition depositAmountPerAsset (i : txInfo) : gmap string Z := amount_per_asset (ownedOutputs i).
Definition withdrawalAmountPerAsset (i : txInfo) : gmap string Z :=
  let outs := amount_per_asset (ownedOutputs i) in
  map_imap (λ asset amount, Some (u64 (amount - default 0 (outs !! asset))))
    (amount_per_asset (ownedInputs i)).

(** The loop of classifyAndStoreTx over the accounts of a notification: what it
    adds to the lists of deposits and withdrawals.  Each account comes with the
    clock readings of its deposit and of its withdrawal. *)
Definition classify (nativeAsset txid : string) (infos : list (txInfo * (Z * Z)))
    : list Deposit * list Withdrawal :=
  foldl (λ '(ds, ws) '(i, (now1, now2)),
    let ds := if isDeposit i then
                ds ++ [{| dp_AccountName := ti_account i; dp_TxID := txid;
                          dp_TotAmountPerAsset := depositAmountPerAsset i; dp_Timestamp := now1 |}]
              else ds in
    let ws := if isWithdrawal i then
                let tot := withdrawalAmountPerAsset i in
                let tot := if bool_decide (ti_account i = FeeAccount)
                           then <[nativeAsset := u64 (default 0 (tot !! nativeAsset) - ti_fee i)]> tot
                           else tot in
                ws ++ [{| wd_AccountName := ti_account i; wd_TxID := txid;
                          wd_TotAmountPerAsset := tot; wd_Timestamp := now2 |}]
              else ws in
    (ds, ws)) ([], []) infos.

(** * Fragments *)

Definition defaultNumFragments : Z := 20.
Definition feeFragmentAmount : Z := 5000.
Definition minMarketFragmentAmount : Z := 100000.

(** output of fee_fragmenter_account.go: an address instead of a script. *)
Record addr_output := { ao_asset : string; ao_amount : Z; ao_address : string }.

(** The loop over the fragments: the last one takes what is left. *)
Fixpoint fee_fragments (lbtc : string) (numFragments i : nat) (addresses : list string) (balance : Z)
    : outcome error (list addr_output) :=
  match i with
  | O => Ret []
  | S remaining =>
      let k := (numFragments - i)%nat in
      addr ← index addresses k;
      let amount := if (remaining =? 0)%nat then balance else feeFragmentAmount in
      r ← fee_fragments lbtc numFragments remaining addresses (u64 (balance - feeFragmentAmount));
      Ret ({| ao_asset := lbtc; ao_amount := amount; ao_address := addr |} :: r)
  end.

(** fragmentationMap: fragments per share, a share being m * 10^e. *)
Definition fragmentationMap : list (nat * (Z * Z)) :=
  [(1%nat, (3, -1)); (2%nat, (15, -2)); (3%nat, (1, -1)); (5%nat, (2, -2))].
Definition numFragments (m : list (nat * (Z * Z))) : nat := foldr (λ x s, x.1 + s)%nat 0%nat m.

Section fragments.
Context {D : Type} `{DecimalOps D} `{MapOrder}.

Definition percentageAmount (amount : Z) (percentage : Z * Z) : Z :=
  big_Uint64 (dBigInt (dMul (NewFromInt (i64 amount) : D)
                            (NewFromFloat percentage.1 percentage.2))).

(** [for i := 0; i < n; i++ { addr := addresses[offset+i]; ... }] *)
Fixpoint repeat_outputs (asset : string) (amount : Z) (addresses : list string) (offset : nat) (n : nat)
    : outcome error (list addr_output) :=
  match n with
  | O => Ret []
  | S n =>
      addr ← index addresses offset;
      r ← repeat_outputs asset amount addresses (S offset) n;
      Ret ({| ao_asset := asset; ao_amount := amount; ao_address := addr |} :: r)
  end.

(** The loop over the shares; the offset into the addresses is not advanced. *)
Fixpoint share_outputs (asset : string) (balance : Z) (addresses : list string) (offset : nat)
    (shares : list (nat * (Z * Z))) : outcome error (list addr_output) :=
  match shares with
  | [] => Ret []
  | (n, percentage) :: shares =>
      l ← repeat_outputs asset (percentageAmount balance percentage) addresses offset n;
      r ← share_outputs asset balance addresses offset shares;
      Ret (l ++ r)
  end.

Definition market_fragments (asset : string) (balance : Z) (addresses : list string) (offset : nat)
    : outcome error (list addr_output) :=
  share_outputs asset balance addresses offset (range_order fragmentationMap).
End fragments.

(** * Handlers *)

Section operator.
Context {D : Type} `{DecimalOps D} `{SwapParser} `{Elements} `{MapOrder}.
Context {M : Type} `{MarketRepository M} {W : Type} `{WalletPort W} `{WalletAdmin W}.
Variables (nativeAsset : string) (milliSatsPerByte : Z) (Hash160 : bytes → bytes).

Record OpState := { op_markets : M; op_wallet : W; op_accounts : gmap string string }.

Definition on_markets {A} (m : action M error A) : action OpState error A := λ s,
  let '(ms, r) := m (op_markets s) in
  ({| op_markets := ms; op_wallet := op_wallet s; op_accounts := op_accounts s |}, r).
Definition on_op_wallet {A} (m : action W error A) : action OpState error A := λ s,
  let '(w, r) := m (op_wallet s) in
  ({| op_markets := op_markets s; op_wallet := w; op_accounts := op_accounts s |}, r).
Definition read_op_markets {A} (f : M → outcome error A) : action OpState error A := λ s,
  (s, f (op_markets s)).
Definition add_account (namespace label : string) : action OpState error () := λ s,
  ({| op_markets := op_markets s; op_wallet := op_wallet s;
      op_accounts := accountMap_add namespace label (op_accounts s) |}, Ret ()).

(** [fmt.Errorf(format, err)] of the error of a call. *)
Definition wrap_error {A} (format : string) (m : action OpState error A) : action OpState error A := λ s,
  match m s with
  | (s', Err _) => (s', Err (Errorf format))
  | r => r
  end.

(** The first call of most handlers. *)
Definition fetch_market (baseAsset quoteAsset : string) : action OpState error Market :=
  read_op_markets (λ ms, GetMarketByAssets ms baseAsset quoteAsset).

(** ** market_account.go *)

(** When AddMarket fails the new account is deleted in a goroutine, whose error
    is only logged. *)
Definition op_NewMarket (baseAsset quoteAsset marketName : string)
    (basePercentageFee quotePercentageFee baseFixedFee quoteFixedFee : Z)
    (baseAssetPrecision quoteAssetPrecision strategyType : Z) : action OpState error Market :=
  found ← read_op_markets (λ ms, ignore_err (GetMarketByAssets ms baseAsset quoteAsset));
  match found with
  | Some _ => lift (Err (Errorf "market already exists"))
  | None =>
      newMarket ← lift (NewMarket Hash160 baseAsset quoteAsset marketName
        basePercentageFee quotePercentageFee baseFixedFee quoteFixedFee
        baseAssetPrecision quoteAssetPrecision strategyType);
      accountInfo ← on_op_wallet (CreateAccount (Name newMarket) true);
      added ← try (on_markets (AddMarket newMarket));
      match added with
      | inr err =>
          _ ← try (on_op_wallet (DeleteAccount (Name newMarket)));
          lift (Err err)
      | inl _ => _ ← add_account (wa_Namespace accountInfo) (wa_Label accountInfo); mret newMarket
      end
  end.

Definition op_GetMarketInfo (baseAsset quoteAsset : string)
    : action OpState error (Market * option (gmap string Balance)) :=
  mkt ← fetch_market baseAsset quoteAsset;
  balance ← try (on_op_wallet (GetBalance (Name mkt)));
  mret (mkt, match balance with inl b => Some b | inr _ => None end).

Definition op_OpenMarket (baseAsset quoteAsset : string) : action OpState error () :=
  mkt ← fetch_market baseAsset quoteAsset; on_markets (OpenMarket (Name mkt)).
Definition op_CloseMarket (baseAsset quoteAsset : string) : action OpState error () :=
  mkt ← fetch_market baseAsset quoteAsset; on_markets (CloseMarket (Name mkt)).
Definition op_DropMarket (baseAsset quoteAsset : string) : action OpState error () :=
  mkt ← fetch_market baseAsset quoteAsset;
  _ ← on_op_wallet (DeleteAccount (Name mkt));
  on_markets (DeleteMarket (Name mkt)).
Definition op_DeriveMarketAddresses (baseAsset quoteAsset : string) (num : Z)
    : action OpState error (list string) :=
  mkt ← fetch_market baseAsset quoteAsset; on_op_wallet (DeriveAddresses (Name mkt) num).
Definition op_ListMarketExternalAddresses (baseAsset quoteAsset : string)
    : action OpState error (list string) :=
  mkt ← fetch_market baseAsset quoteAsset; on_op_wallet (ListAddresses (Name mkt)).

Definition check_password (password : string) : action OpState error () :=
  ok ← on_op_wallet (Auth password);
  if negb ok then lift (Err (Errorf "invalid password")) else mret ().

Definition op_WithdrawMarketFunds (password baseAsset quoteAsset : string) (outs : list output)
    (millisatsPerByte : Z) : action OpState error string :=
  _ ← check_password password;
  mkt ← fetch_market baseAsset quoteAsset;
  on_op_wallet (SendToMany nativeAsset (Name mkt) outs millisatsPerByte).

(** Fetch, change, store: the shape of the handlers that configure a market. *)
Definition change_market (baseAsset quoteAsset : string) (change : Market → outcome error Market)
    : action OpState error Market :=
  mkt ← fetch_market baseAsset quoteAsset;
  mkt ← lift (change mkt);
  _ ← on_markets (UpdateMarket (Name mkt) (λ _, Ret mkt));
  mret mkt.

Definition op_UpdateMarketPercentageFee (baseAsset quoteAsset : string) (baseFee quoteFee : Z) :=
  change_market baseAsset quoteAsset (ChangePercentageFee baseFee quoteFee).
Definition op_UpdateMarketFixedFee (baseAsset quoteAsset : string) (baseFee quoteFee : Z) :=
  change_market baseAsset quoteAsset (ChangeFixedFee baseFee quoteFee).
Definition op_UpdateMarketAssetsPrecision (baseAsset quoteAsset : string) (basePrec quotePrec : Z) :=
  change_market baseAsset quoteAsset (ChangeAssetPrecision basePrec quotePrec).
Definition op_UpdateMarketStrategy (baseAsset quoteAsset : string) (strategyType : Z) :=
  change_market baseAsset quoteAsset (λ mkt,
    if strategyType =? StrategyTypeBalanced then MakeStrategyBalanced mkt
    else if strategyType =? StrategyTypePluggable then MakeStrategyPluggable mkt
    else Err (Errorf "unknown strategy type")).
Definition op_UpdateMarketPrice (baseAsset quoteAsset : string) (basePrice quotePrice : D)
    : action OpState error () :=
  mkt ← fetch_market baseAsset quoteAsset;
  on_markets (UpdateMarketPrice (Name mkt)
    {| BasePrice := dString basePrice; QuotePrice := dString quotePrice |}).

(** ** fee_account.go *)
Definition accountExists (account : string) : action OpState error bool :=
  info ← try (on_op_wallet Info_Accounts);
  mret (match info with
        | inl l => existsb (λ i, bool_decide (wa_Label i = account)) l
        | inr _ => false
        end).

(** DeriveFeeAddresses, DeriveFeeFragmenterAddresses and
    DeriveMarketFragmenterAddresses are this for their account. *)
Definition ensure_account (account : string) : action OpState error () :=
  found ← accountExists account;
  if found : bool then mret () else
  accountInfo ← on_op_wallet (CreateAccount account false);
  add_account (wa_Namespace accountInfo) (wa_Label accountInfo).
Definition derive_for (account : string) (num : Z) : action OpState error (list string) :=
  _ ← ensure_account account;
  on_op_wallet (DeriveAddresses account num).

Definition op_DeriveFeeAddresses : Z → action OpState error (list string) := derive_for FeeAccount.
Definition op_DeriveFeeFragmenterAddresses : Z → action OpState error (list string) :=
  derive_for FeeFragmenterAccount.
Definition op_DeriveMarketFragmenterAddresses : Z → action OpState error (list string) :=
  derive_for MarketFragmenterAccount.

Definition op_GetFeeBalance : action OpState error (option Balance) :=
  balance ← on_op_wallet (GetBalance FeeAccount);
  mret (if bool_decide (balance = ∅) then None else balance !! nativeAsset).

(** WithdrawFeeFunds and WithdrawFeeFragmenterFunds. *)
Definition withdraw_transfer (account password : string) (outs : list output) (millisatsPerByte : Z)
    : action OpState error string :=
  _ ← check_password password;
  txHex ← on_op_wallet (Transfer account outs millisatsPerByte);
  on_op_wallet (BroadcastTransaction txHex).
Definition op_WithdrawFeeFunds := withdraw_transfer FeeAccount.
Definition op_WithdrawFeeFragmenterFunds := withdraw_transfer FeeFragmenterAccount.

Definition op_WithdrawMarketFragmenterFunds (password : string) (outs : list output)
    (millisatsPerByte : Z) : action OpState error string :=
  _ ← check_password password;
  on_op_wallet (SendToMany nativeAsset MarketFragmenterAccount outs millisatsPerByte).

(** ** Fragmenters: the result is the funding transaction or the error reply
    that ended the call; progress messages are not kept. *)

(** GetScript and GetBlindingKey of an output with an address. *)
Definition script_output (o : addr_output) : outcome error output :=
  '(_, key) ← deref (FromConfidential (ao_address o));
  Ret {| o_asset := ao_asset o; o_amount := ao_amount o;
         o_script := hex_EncodeToString (ToOutputScript (ao_address o));
         o_blindKey := hex_EncodeToString key |}.
Fixpoint script_outputs (l : list addr_output) : outcome error (list output) :=
  match l with
  | [] => Ret []
  | o :: l => x ← script_output o; r ← script_outputs l; Ret (x :: r)
  end.

(** The guards of FeeFragmenterSplitFunds: the number of fragments. *)
Definition fee_fragment_count (maxFragments balance : Z) : outcome error Z :=
  if balance <? feeFragmentAmount
  then Err (Errorf "not enough LBTC balance  (%d) to fragment (required ar least %d)")
  else
    let n := if 0 <? maxFragments then maxFragments else defaultNumFragments in
    if balance <=? u64 (u64 (feeFragmentAmount * n) - 1)
    then Err (Errorf "not enough lbtc balance (%d) for requested number of fragments (%d - %d sats each)")
    else Ret n.

Definition op_FeeFragmenterSplitFunds (maxFragments millisatsPerByte : Z) : action OpState error string :=
  balanceInfo ← on_op_wallet (GetBalance FeeFragmenterAccount);
  let balance := match balanceInfo !! nativeAsset with Some b => ConfirmedBalance b | None => 0 end in
  if balance =? 0 then lift (Err (Errorf "fee fragmenter account has 0 LBTC balance"))
  else
    n ← lift (fee_fragment_count maxFragments balance);
    addresses ← wrap_error "failed to derive addresses from fee account: %s" (op_DeriveFeeAddresses n);
    outputs ← lift (fee_fragments nativeAsset (Z.to_nat n) (Z.to_nat n) addresses balance);
    outputs ← lift (script_outputs outputs);
    txHex ← on_op_wallet (Transfer FeeFragmenterAccount outputs milliSatsPerByte);
    on_op_wallet (BroadcastTransaction txHex).

Definition positive (b : option Balance) : bool :=
  match b with Some b => 0 <? ConfirmedBalance b | None => false end.

(** [(!bOk && !qOk) || (bb.GetConfirmedBalance() == 0 && qb.GetConfirmedBalance() == 0)] *)
Definition no_fragmenter_balance (bb qb : option Balance) : outcome error bool :=
  match bb, qb with
  | None, None => Ret true
  | _, _ =>
      b ← deref bb;
      if ConfirmedBalance b =? 0 then q ← deref qb; Ret (ConfirmedBalance q =? 0)
      else Ret false
  end.

Definition op_MarketFragmenterSplitFunds (baseAsset quoteAsset : string) (millisatsPerByte : Z)
    : action OpState error string :=
  market ← fetch_market baseAsset quoteAsset;
  marketBalance ← try (on_op_wallet (GetBalance (Name market)));
  let zeroMarketBalance :=
    match marketBalance with
    | inl b => negb (positive (b !! BaseAsset market) || positive (b !! QuoteAsset market))
    | inr _ => true
    end in
  balanceInfo ← on_op_wallet (GetBalance MarketFragmenterAccount);
  if bool_decide (balanceInfo = ∅) then lift (Err (Errorf "market fragmenter account has 0 balance"))
  else
    let bb := balanceInfo !! BaseAsset market in
    let qb := balanceInfo !! QuoteAsset market in
    none ← lift (no_fragmenter_balance bb qb);
    if none : bool then lift (Err (Errorf "market fragmenter account has 0 balance")) else
    let baseBalance := match bb with Some b => ConfirmedBalance b | None => 0 end in
    let quoteBalance := match qb with Some b => ConfirmedBalance b | None => 0 end in
    if (baseBalance <? minMarketFragmentAmount) && (quoteBalance <? minMarketFragmentAmount)
    then lift (Err (Errorf "not enough balance (base %d, quote %d) to fragment (required at least %d)"))
    else if IsStrategyBalanced market && zeroMarketBalance && (baseBalance <? minMarketFragmentAmount)
    then lift (Err (Errorf "since market has 0 balance, market fragmenter account must have enough base balance (%d) to fragment (required at least %d)"))
    else if IsStrategyBalanced market && zeroMarketBalance && (quoteBalance <? minMarketFragmentAmount)
    then lift (Err (Errorf "since market has 0 balance, market fragmenter account must have enough quote balance (%d) to fragment (required at least %d)"))
    else
      let n := numFragments fragmentationMap in
      let numOfAddresses :=
        if (minMarketFragmentAmount <? quoteBalance) && (minMarketFragmentAmount <? baseBalance)
        then (2 * n)%nat else n in
      addresses ← wrap_error "failed to derive addresses for market account: %s"
        (on_op_wallet (DeriveAddresses (Name market) (Z.of_nat numOfAddresses)));
      baseOuts ← lift (if minMarketFragmentAmount <? baseBalance
                       then market_fragments (D := D) (BaseAsset market) baseBalance addresses 0
                       else Ret []);
      quoteOuts ← lift (if minMarketFragmentAmount <? quoteBalance
                        then market_fragments (D := D) (QuoteAsset market) quoteBalance addresses (length baseOuts)
                        else Ret []);
      outputs ← lift (script_outputs (baseOuts ++ quoteOuts));
      wrap_error "failed to send funds to market account: %s"
        (on_op_wallet (SendToMany nativeAsset MarketFragmenterAccount outputs milliSatsPerByte)).
End operator.

(** * Theorems: fragments *)

Definition total (l : list addr_output) : Z := foldr (λ o s, ao_amount o + s) 0 l.
Lemma total_cons o l : total (o :: l) = ao_amount o + total l.
Proof. done. Qed.
Lemma total_app l1 l2 : total (l1 ++ l2) = total l1 + total l2.
Proof. unfold total. induction l1; cbn in *; lia. Qed.

Lemma fee_fragments_spec lbtc n i addresses balance :
  (i ≤ n)%nat → (n ≤ length addresses)%nat → feeFragmentAmount * Z.of_nat i ≤ balance < 2 ^ 64 →
  ∃ outs, fee_fragments lbtc n i addresses balance = Ret outs ∧
    (ao_address <$> outs) = take i (drop (n - i) addresses) ∧
    total outs = (if (i =? 0)%nat then 0 else balance) ∧
    Forall (λ o, ao_asset o = lbtc ∧ feeFragmentAmount ≤ ao_amount o) outs.
Proof.
  intros Hi Hn. revert balance. induction i as [|i IH]; intros balance Hb; cbn [fee_fragments].
  { eexists. split; [done|]. split_and!; [done | done | constructor]. }
  destruct (lookup_lt_is_Some_2 addresses (n - S i)%nat) as [addr Haddr]; [lia|].
  unfold index. rewrite Haddr; cbn [mbind outcome_bind]. unfold feeFragmentAmount in *.
  rewrite u64_sub_exact by lia.
  destruct (IH ltac:(lia) (balance - 5000)) as (outs & -> & Ha & Ht & Hf); [lia|].
  eexists. split; [reflexivity|]. cbn [fmap list_fmap ao_address]. split_and!.
  - rewrite (drop_S _ _ _ Haddr). replace (S (n - S i)) with (n - i)%nat by lia. cbn. by rewrite <- Ha.
  - rewrite total_cons, Ht. cbn. destruct i; cbn; lia.
  - constructor; [|done]. cbn. split; [done|]. destruct i; cbn; lia.
Qed.

(** when FeeFragmenterSplitFunds accepts a number of fragments and got an
    address for each, it splits exactly the balance: one output per address, in
    order, none smaller than 5000 sats. *)
Lemma fee_fragments_exact lbtc maxFragments balance n addresses :
  is_u64 balance → 0 ≤ maxFragments < 2 ^ 32 → fee_fragment_count maxFragments balance = Ret n →
  length addresses = Z.to_nat n →
  ∃ outs, fee_fragments lbtc (Z.to_nat n) (Z.to_nat n) addresses balance = Ret outs ∧
    (ao_address <$> outs) = addresses ∧ total outs = balance ∧
    Forall (λ o, ao_asset o = lbtc ∧ feeFragmentAmount ≤ ao_amount o) outs.
Proof.
  intros Hb Hm Hc Hl. unfold fee_fragment_count in Hc.
  destruct (Z.ltb_spec balance feeFragmentAmount); [done|].
  set (k := if 0 <? maxFragments then maxFragments else defaultNumFragments) in Hc.
  assert (0 < k < 2 ^ 32) as Hk.
  { unfold k, defaultNumFragments. destruct (Z.ltb_spec 0 maxFragments); lia. }
  cbv zeta in Hc. unfold feeFragmentAmount in *.
  rewrite (u64_id (5000 * k)) in Hc by (unfold is_u64; lia).
  rewrite (u64_id (5000 * k - 1)) in Hc by (unfold is_u64; lia).
  destruct (Z.leb_spec balance (5000 * k - 1)); [done|]. injection Hc as <-.
  destruct (fee_fragments_spec lbtc (Z.to_nat k) (Z.to_nat k) addresses balance)
    as (outs & Ho & Ha & Ht & Hf); [lia | lia | unfold feeFragmentAmount; destruct Hb; lia |].
  exists outs. rewrite Nat.sub_diag, drop_0, <- Hl, take_ge in Ha by lia.
  split_and!; [done | done | | done]. rewrite Ht.
  destruct (Nat.eqb_spec (Z.to_nat k) 0); [lia | done].
Qed.

(** * Theorems: handlers that move funds *)

(** What the wallet promises: as many addresses as asked for, and amounts that
    are uint64. *)
Class WalletAdminLaws (W : Type) `{WalletPort W} : Prop := {
  derive_count account num w w' l :
    0 ≤ num < 2 ^ 63 → DeriveAddresses account num w = (w', Ret l) → length l = Z.to_nat num;
  balance_u64 account w w' bs a b :
    GetBalance account w = (w', Ret bs) → bs !! a = Some b → is_u64 (ConfirmedBalance b);
}.

Section funds.
Context {M : Type} `{MarketRepository M} {W : Type} `{WalletPort W} `{!WalletAdmin W}.
Variables (nativeAsset : string) (milliSatsPerByte : Z).

Lemma on_op_wallet_Ret {A} (m : action W error A) (s s' : @OpState M W) a :
  on_op_wallet m s = (s', Ret a) →
  m (op_wallet s) = (op_wallet s', Ret a) ∧ op_markets s' = op_markets s.
Proof. unfold on_op_wallet. destruct (m _) as [w o]. by intros [= <- ->]. Qed.

Lemma add_account_Ret n l (s s' : @OpState M W) u :
  add_account n l s = (s', Ret u) → op_wallet s' = op_wallet s ∧ op_markets s' = op_markets s.
Proof. by intros [= <-]. Qed.

Lemma wrap_error_Ret {A} f (m : action (@OpState M W) error A) s s' a :
  wrap_error f m s = (s', Ret a) → m s = (s', Ret a).
Proof. unfold wrap_error. by destruct (m s) as [? []]. Qed.

Lemma accountExists_Ret account (s s' : @OpState M W) b :
  accountExists account s = (s', Ret b) → op_markets s' = op_markets s.
Proof.
  unfold accountExists. intros HE. act_inv HE.
  match goal with E : try _ _ = _ |- _ => unfold try, on_op_wallet in E;
    destruct (Info_Accounts _) as [w []]; by injection E as <- end.
Qed.

Lemma ensure_account_Ret account (s s' : @OpState M W) u :
  ensure_account account s = (s', Ret u) → op_markets s' = op_markets s.
Proof.
  unfold ensure_account. intros HE. act_inv HE.
  all: match goal with E : accountExists _ _ = _ |- _ => apply accountExists_Ret in E; rename E into HX end.
  - done.
  - apply add_account_Ret in HE as [_ ->].
    match goal with E : on_op_wallet _ _ = _ |- _ => apply on_op_wallet_Ret in E as [_ ->] end. done.
Qed.

Lemma derive_for_Ret account num (s s' : @OpState M W) l :
  derive_for account num s = (s', Ret l) →
  op_markets s' = op_markets s ∧ ∃ w, DeriveAddresses account num w = (op_wallet s', Ret l).
Proof.
  unfold derive_for. intros HD. act_inv HD. apply on_op_wallet_Ret in HD as [HD ->].
  match goal with E : ensure_account _ _ = _ |- _ => apply ensure_account_Ret in E end. eauto.
Qed.

Definition paid (outs : list output) : Z := foldr (λ o t, o_amount o + t) 0 outs.

(** Turning addresses into scripts keeps assets and amounts. *)
Lemma script_outputs_spec l outs :
  script_outputs l = Ret outs →
  paid outs = total l ∧ length outs = length l ∧
  ∀ P : string → Z → Prop, Forall (λ o, P (ao_asset o) (ao_amount o)) l →
    Forall (λ o, P (o_asset o) (o_amount o)) outs.
Proof.
  revert outs. induction l as [|x l IH]; cbn [script_outputs]; intros outs HS.
  { injection HS as <-. split_and!; [done.. |]. constructor. }
  apply bind_Ret_inv in HS as (o & Ho & HS). apply bind_Ret_inv in HS as (r & Hr & [= <-]).
  destruct (IH _ Hr) as (Hp & Hl & HF). unfold script_output in Ho.
  apply bind_Ret_inv in Ho as ([addr key] & _ & [= <-]).
  unfold paid in *; cbn. split_and!; [by rewrite Hp | by rewrite Hl |].
  intros P HP. inversion_clear HP. constructor; [done | auto].
Qed.

Lemma fee_fragment_count_Ret maxFragments balance k :
  fee_fragment_count maxFragments balance = Ret k → k = if 0 <? maxFragments then maxFragments else defaultNumFragments.
Proof.
  unfold fee_fragment_count. destruct (_ <? feeFragmentAmount); [done|]. cbv zeta. destruct (_ <=? u64 _); [done|]. by intros [= <-].
Qed.

(** when FeeFragmenterSplitFunds succeeds, the transaction it broadcast is a
    transfer from the fee fragmenter account whose outputs add up to exactly the
    confirmed balance it read: as many as requested (20 by default), all of the
    native asset, none smaller than 5000 sats. *)
Theorem fee_split_sends_balance `{!WalletAdminLaws W} maxFragments rate (s s' : @OpState M W) txid :
  0 ≤ maxFragments < 2 ^ 32 →
  op_FeeFragmenterSplitFunds nativeAsset milliSatsPerByte maxFragments rate s = (s', Ret txid) →
  ∃ w1 bs b outs w2 w3 txHex,
    GetBalance FeeFragmenterAccount (op_wallet s) = (w1, Ret bs) ∧ bs !! nativeAsset = Some b ∧
    Transfer FeeFragmenterAccount outs milliSatsPerByte w2 = (w3, Ret txHex) ∧
    BroadcastTransaction txHex w3 = (op_wallet s', Ret txid) ∧ op_markets s' = op_markets s ∧
    paid outs = ConfirmedBalance b ∧
    Forall (λ o, o_asset o = nativeAsset ∧ feeFragmentAmount ≤ o_amount o) outs ∧
    Z.of_nat (length outs) = (if 0 <? maxFragments then maxFragments else defaultNumFragments).
Proof.
  intros Hm HS. unfold op_FeeFragmenterSplitFunds in HS. act_inv HS.
  match goal with E : on_op_wallet (GetBalance _) _ = (?x, Ret ?bs) |- _ =>
    apply on_op_wallet_Ret in E as [HG HM1]; destruct (bs !! nativeAsset) as [b|] eqn:Hb; [|done] end.
  match goal with E : wrap_error _ _ _ = _ |- _ =>
    apply wrap_error_Ret, derive_for_Ret in E as (HM2 & w0 & HD) end.
  match goal with E : on_op_wallet (Transfer _ _ _) _ = _ |- _ =>
    apply on_op_wallet_Ret in E as [HT HM3] end.
  apply on_op_wallet_Ret in HS as [HB HM4].
  match goal with E : fee_fragment_count _ _ = Ret ?n |- _ => rename E into HC; rename n into k end.
  pose proof (balance_u64 _ _ _ _ _ _ HG Hb) as Hu.
  apply derive_count in HD; [|apply fee_fragment_count_Ret in HC; unfold defaultNumFragments in *; destruct (_ <? _); lia].
  match goal with E : fee_fragments _ _ _ _ _ = _ |- _ => rename E into HF end.
  destruct (fee_fragments_exact nativeAsset _ _ _ _ Hu Hm HC HD) as (l & HF' & Ha & Ht & Hall).
  rewrite HF in HF'. injection HF' as ->.
  match goal with E : script_outputs _ = _ |- _ =>
    destruct (script_outputs_spec _ _ E) as (Hp & Hl & HP) end.
  do 7 eexists. split_and!; [exact HG | exact Hb | exact HT | exact HB | congruence | congruence | |].
  - apply (HP (λ a v, a = nativeAsset ∧ feeFragmentAmount ≤ v)). done.
  - rewrite Hl, <- (length_fmap ao_address), Ha, HD. apply fee_fragment_count_Ret in HC as ->.
    destruct (Z.ltb_spec 0 maxFragments); [lia | done].
Qed.

End funds.

Section market_fragments.
Context {D : Type} `{DecimalLaws D} `{MapOrder}.

(** A share is rounded down. *)
Lemma percentageAmount_bounds balance m e num den :
  0 ≤ balance < 2 ^ 63 → 0 ≤ num ≤ den → 0 < den →
  (Z.abs m < 10 ^ 15)%Z → (Z.abs e <= 300)%Z →
  (inject_Z m * (10 # 1) ^ e == inject_Z num / inject_Z den)%Q →
  percentageAmount (D := D) balance (m, e) = balance * num / den.
Proof.
  intros Hb Hnum Hden Hm He Hv. unfold percentageAmount; cbn [fst snd].
  rewrite i64_id by (unfold is_i64; lia). rewrite bigint_val.
  assert (Ztrunc (dval (dMul (NewFromInt balance : D) (NewFromFloat m e))) = balance * num / den) as ->.
  { rewrite val_mul, val_int, val_float, Hv by done.
    unfold Ztrunc. replace (Qle_bool 0 _) with true.
    - assert (inject_Z balance * (inject_Z num / inject_Z den) == (balance * num) # Z.to_pos den)%Q as ->.
      { rewrite (Qmake_Qdiv (balance * num)), inject_Z_mult, Z2Pos.id by lia.
        field. change 0%Q with (inject_Z 0). rewrite inject_Z_injective. lia. }
      cbn. by rewrite Z2Pos.id by lia.
    - symmetry. apply Qle_bool_iff. apply Qmult_le_0_compat; [|apply Qle_shift_div_l].
      + change 0%Q with (inject_Z 0). rewrite <- Zle_Qle. lia.
      + change 0%Q with (inject_Z 0). rewrite <- Zlt_Qlt. lia.
      + rewrite Qmult_0_l. change 0%Q with (inject_Z 0). rewrite <- Zle_Qle. lia. }
  apply big_Uint64_id. split.
  - apply Z.div_pos; nia.
  - apply Z.div_lt_upper_bound; [lia|]. nia.
Qed.

Definition shares_total (balance : Z) (shares : list (nat * (Z * Z))) : Z :=
  foldr (λ x s, Z.of_nat x.1 * percentageAmount (D := D) balance x.2 + s) 0 shares.

Lemma shares_total_perm balance l l' : l ≡ₚ l' → shares_total balance l = shares_total balance l'.
Proof. unfold shares_total. induction 1; cbn in *; lia. Qed.
Lemma numFragments_perm l l' : l ≡ₚ l' → numFragments l = numFragments l'.
Proof. unfold numFragments. induction 1; cbn in *; lia. Qed.

Lemma repeat_outputs_spec asset amount addresses offset n :
  (offset + n ≤ length addresses)%nat →
  ∃ outs, repeat_outputs asset amount addresses offset n = Ret outs ∧
    total outs = Z.of_nat n * amount ∧ (ao_address <$> outs) = take n (drop offset addresses) ∧
    Forall (λ o, ao_asset o = asset) outs.
Proof.
  revert offset. induction n as [|n IH]; intros offset Hl; cbn [repeat_outputs].
  { eexists. split; [done|]. split_and!; [done | done | constructor]. }
  destruct (lookup_lt_is_Some_2 addresses offset) as [addr Haddr]; [lia|].
  unfold index. rewrite Haddr; cbn [mbind outcome_bind].
  destruct (IH (S offset)) as (outs & -> & Ht & Ha & Hf); [lia|].
  eexists. split; [reflexivity|]. rewrite (drop_S _ _ _ Haddr). cbn [fmap list_fmap ao_address].
  split_and!; [rewrite total_cons, Ht; cbn [ao_amount]; lia | cbn; by rewrite <- Ha | by constructor].
Qed.

Lemma share_outputs_spec asset balance addresses offset shares :
  (offset + 5 ≤ length addresses)%nat → Forall (λ x, x.1 ≤ 5)%nat shares →
  ∃ outs, share_outputs (D := D) asset balance addresses offset shares = Ret outs ∧
    length outs = numFragments shares ∧ total outs = shares_total balance shares ∧
    Forall (λ o, ao_asset o = asset ∧ ao_address o ∈ take 5 (drop offset addresses)) outs.
Proof.
  intros Hl. induction 1 as [|[n p] shares Hn _ (outs & IH1 & IH2 & IH3 & IH4)]; cbn [share_outputs].
  { eexists. split; [done|]. split_and!; [done | done | constructor]. }
  cbn [fst] in Hn.
  destruct (repeat_outputs_spec asset (percentageAmount balance p) addresses offset n)
    as (l & -> & Ht & Ha & Hf); [lia|]. cbn [mbind outcome_bind]. rewrite IH1; cbn [mbind outcome_bind].
  eexists. split; [reflexivity|]. split_and!.
  - rewrite length_app, IH2. cbn. f_equal. rewrite <- (length_fmap ao_address), Ha, length_take, length_drop. lia.
  - rewrite total_app, Ht, IH3. done.
  - apply Forall_app. split; [|done]. apply Forall_forall. intros o Ho. split.
    + by eapply (proj1 (Forall_forall _ _) Hf).
    + assert (ao_address o ∈ take n (drop offset addresses)) as Hin.
      { rewrite <- Ha. by apply list_elem_of_fmap_2. }
      apply elem_of_take in Hin as (i & ? & ?). apply elem_of_take. exists i. split; [done | lia].
Qed.

(** the fragments of a market's asset are eleven, worth the balance up to
    less than eleven sats of rounding and never more, in whatever order Go walks
    the fragmentation map; and they are all sent to the first five addresses,
    since the offset into the addresses is not advanced between shares. *)
Theorem market_fragments_exact asset balance addresses offset :
  0 ≤ balance < 2 ^ 63 → (offset + 5 ≤ length addresses)%nat →
  ∃ outs, market_fragments (D := D) asset balance addresses offset = Ret outs ∧
    length outs = 11%nat ∧ balance - 11 < total outs ≤ balance ∧
    Forall (λ o, ao_asset o = asset ∧ ao_address o ∈ take 5 (drop offset addresses)) outs.
Proof.
  intros Hb Hl. pose proof (range_order_perm fragmentationMap) as HP. unfold market_fragments.
  destruct (share_outputs_spec asset balance addresses offset (range_order fragmentationMap))
    as (outs & Ho & Hn & Ht & Hf); [done | rewrite HP; repeat constructor |].
  exists outs. rewrite (numFragments_perm _ _ HP) in Hn. rewrite (shares_total_perm _ _ _ HP) in Ht.
  split_and!; [done | done | | | done]; rewrite Ht; clear Ht; unfold shares_total; cbn;
    rewrite (percentageAmount_bounds balance 3 (-1) 3 10), (percentageAmount_bounds balance 15 (-2) 15 100),
      (percentageAmount_bounds balance 1 (-1) 1 10), (percentageAmount_bounds balance 2 (-2) 2 100)
      by (done || lia);
    Z.to_euclidean_division_equations; lia.
Qed.
End market_fragments.

(** * Theorems: market handlers *)

Section market_handlers.
Context {D : Type} `{DecimalOps D} {M : Type} `{MarketRepositoryLaws M}.
Context {W : Type} `{WalletPort W} `{WalletAdmin W}.
Abbreviation St := (@OpState M W).

(** configuring a market, on any lawful store: when a handler that fetches,
    changes and stores a market succeeds, the market it returns is the changed
    one and is found by name and by assets, every other name is untouched, and
    so are wallet and accounts; when it fails the store is as before.  Fees,
    precisions and strategy of an open market are refused. *)
Theorem change_market_correct base quote change (s s' : St) o :
  change_market base quote change s = (s', o) →
  match o with
  | Ret m' =>
      ∃ m, GetMarketByAssets (op_markets s) base quote = Ret m ∧ change m = Ret m' ∧
        GetMarketByName (op_markets s') (Name m') = Ret m' ∧
        GetMarketByAssets (op_markets s') (BaseAsset m') (QuoteAsset m') = Ret m' ∧
        (∀ n, n ≠ Name m' → GetMarketByName (op_markets s') n = GetMarketByName (op_markets s) n) ∧
        op_wallet s' = op_wallet s ∧ op_accounts s' = op_accounts s
  | _ => op_markets s' = op_markets s
  end ∧
  (∀ m b q, GetMarketByAssets (op_markets s) base quote = Ret m → IsTradable m = true →
     (∃ e, op_UpdateMarketPercentageFee base quote b q s = (s, Err e)) ∧
     (∃ e, op_UpdateMarketFixedFee base quote b q s = (s, Err e)) ∧
     (∃ e, op_UpdateMarketAssetsPrecision base quote b q s = (s, Err e)) ∧
     (∃ e, op_UpdateMarketStrategy base quote b s = (s, Err e))).
Proof.
  intros HC. split.
  - revert HC. unfold change_market, fetch_market, read_op_markets, lift, mbind, action_bind.
    destruct (GetMarketByAssets (op_markets s) base quote) as [m| |]; [|intros [= <- <-]; done..].
    destruct (change m) as [m1| |] eqn:Hch; [|intros [= <- <-]; done..].
    unfold on_markets. destruct (UpdateMarket (Name m1) (λ _, Ret m1) (op_markets s)) as [ms [[]|e|p]] eqn:HU.
    + intros [= <- <-]. exists m. cbn.
      pose proof (update_found _ _ _ _ HU) as (m0 & m2 & _ & [= <-] & Hn & Ha).
      split_and!; try done. intros n Hne. by apply (update_frame _ _ _ _ _ _ HU).
    + intros [= <- <-]. cbn. by apply (update_error _ _ _ _ _ HU).
    + intros [= <- <-]. cbn. by apply (update_error _ _ _ _ _ HU).
  - clear HC. intros m b q Hm Hopen.
    unfold op_UpdateMarketPercentageFee, op_UpdateMarketFixedFee, op_UpdateMarketAssetsPrecision,
      op_UpdateMarketStrategy, change_market, fetch_market, read_op_markets, lift, mbind, action_bind.
    rewrite Hm. unfold ChangePercentageFee, ChangeFixedFee, ChangeAssetPrecision, MakeStrategyBalanced,
      MakeStrategyPluggable. rewrite Hopen.
    split_and!; eauto. repeat case_match; simplify_eq/=; eauto.
Qed.
End market_handlers.

Section drop.
Context {D : Type} `{DecimalOps D} `{MapOrder} {W : Type} `{WalletPort W} `{WalletAdmin W}.
Variables (Sum256 Hash160 : bytes → bytes).
#[local] Instance repo : MarketRepository InmemoryMarket.store := InmemoryMarket.repository (D := D) Sum256.

Lemma NewMarket_assets b q n p1 p2 f1 f2 a1 a2 st m :
  NewMarket Hash160 b q n p1 p2 f1 f2 a1 a2 st = Ret m → BaseAsset m = b ∧ QuoteAsset m = q.
Proof. unfold NewMarket. intros HN. go_inv HN; done. Qed.

Lemma op_NewMarket_added b q n p1 p2 f1 f2 a1 a2 st (s s' : @OpState InmemoryMarket.store W) m :
  op_NewMarket Hash160 b q n p1 p2 f1 f2 a1 a2 st s = (s', Ret m) →
  BaseAsset m = b ∧ QuoteAsset m = q ∧
  InmemoryMarket.createMarket Sum256 m (op_markets s) = (op_markets s', Ret ()).
Proof.
  unfold op_NewMarket. intros HN.
  apply action_bind_Ret in HN as (s0 & [] & HF & HN); [act_inv HN|]. injection HF as <- _. act_inv HN.
  match goal with E : NewMarket _ _ _ _ _ _ _ _ _ _ _ = _ |- _ => apply NewMarket_assets in E as [Hb Hq] end.
  match goal with E : try _ _ = (_, Ret ?x) |- _ => rename E into HT; destruct x end; act_inv HN.
  match goal with E : on_op_wallet _ _ = _ |- _ => rename E into HW end.
  unfold on_op_wallet in HW. destruct (CreateAccount _ _ _) as [w o]. injection HW as <- ->.
  unfold try, on_markets in HT. cbn in HT.
  destruct (InmemoryMarket.createMarket Sum256 _ _) as [ms [[]|e|p]] eqn:HC; simplify_eq/=.
  match goal with E : add_account _ _ _ = _ |- _ => injection E as <- end. done.
Qed.

(** with the in-memory store a market that was dropped can never be created
    again: its pair stays indexed, so NewMarket always answers that the market
    already exists. *)
Theorem dropped_market_not_recreated b q n p1 p2 f1 f2 a1 a2 st
    n' p1' p2' f1' f2' a1' a2' st' (s s1 s2 : @OpState InmemoryMarket.store W) m :
  op_NewMarket Hash160 b q n p1 p2 f1 f2 a1 a2 st s = (s1, Ret m) →
  op_DropMarket b q s1 = (s2, Ret ()) →
  op_NewMarket Hash160 b q n' p1' p2' f1' f2' a1' a2' st' s2
    = (s2, Err (Errorf "market already exists")).
Proof.
  intros (<- & <- & HC)%op_NewMarket_added HD.
  pose proof (laws_add_found Sum256 _ _ _ HC) as [_ Ha].
  unfold op_DropMarket in HD. act_inv HD.
  match goal with E : fetch_market _ _ _ = _ |- _ => unfold fetch_market, read_op_markets in E; cbn in E;
    rewrite Ha in E; injection E as <- <- end.
  match goal with E : on_op_wallet _ _ = _ |- _ => unfold on_op_wallet in E;
    destruct (DeleteAccount _ _) as [w o]; injection E as <- -> end.
  unfold on_markets in HD; cbn in HD. unfold InmemoryMarket.deleteMarket in HD.
  destruct (InmemoryMarket.markets _ !! Name m); [|done]. injection HD as <-.
  unfold op_NewMarket, mbind, action_bind, read_op_markets; cbn.
  revert Ha. unfold InmemoryMarket.getMarketByAssets; cbn.
  by destruct (InmemoryMarket.nameByAssetsKey _ !! _).
Qed.
End drop.

(** * Theorems: classification *)

(** How much of an asset a list holds. *)
Definition held (a : string) (l : list txOutputInfo) : Z :=
  foldr (λ o s, (if bool_decide (tx_asset o = a) then tx_amount o else 0) + s) 0 l.

Lemma amount_per_asset_spec l a :
  eq64 (default 0 (amount_per_asset l !! a)) (held a l) ∧
  (is_Some (amount_per_asset l !! a) ↔ a ∈ tx_asset <$> l) ∧
  (∀ v, amount_per_asset l !! a = Some v → is_u64 v).
Proof.
  unfold amount_per_asset.
  set (f := λ (tot : gmap string Z) o, <[tx_asset o := u64 (default 0 (tot !! tx_asset o) + tx_amount o)]> tot).
  enough (∀ m, eq64 (default 0 (foldl f m l !! a)) (default 0 (m !! a) + held a l) ∧
    (is_Some (foldl f m l !! a) ↔ is_Some (m !! a) ∨ a ∈ tx_asset <$> l) ∧
    ((∀ v, m !! a = Some v → is_u64 v) → ∀ v, foldl f m l !! a = Some v → is_u64 v)) as Hm.
  { destruct (Hm ∅) as (H1 & H2 & H3). rewrite lookup_empty in *. split_and!.
    - by rewrite H1.
    - rewrite H2. split; [intros [[? [=]]|]; done | auto].
    - by apply H3. }
  induction l as [|o l IH]; intros m.
  { cbn. split_and!; [unfold eq64; f_equal; lia | | done]. split; [auto|]. intros [|[]%not_elem_of_nil]; done. }
  cbn [foldl]. destruct (IH (f m o)) as (H1 & H2 & H3). rewrite H1, H2. clear IH H1 H2.
  change (held a (o :: l)) with ((if bool_decide (tx_asset o = a) then tx_amount o else 0) + held a l).
  rewrite fmap_cons, elem_of_cons. unfold f in *. case_bool_decide as E.
  - subst a. rewrite lookup_insert_eq in *. cbn. split_and!.
    + rewrite eq64_u64. unfold eq64. f_equal. lia.
    + split; [auto | eauto].
    + intros Hm. apply H3. intros v [= <-]. apply u64_range.
  - rewrite lookup_insert_ne in * by done. split_and!; [unfold eq64; f_equal; lia | naive_solver | done].
Qed.

(** a transaction is never both a deposit and a withdrawal of an account;
    a deposit records, for every asset, what the account's outputs hold; a
    withdrawal records, for exactly the assets the account spent, what its
    inputs hold minus what comes back, as 64-bit amounts.  A transaction that
    neither spends from nor pays to an account other than the fee account is
    recorded as a withdrawal of nothing. *)
Theorem classification_correct i :
  (isDeposit i = true → isWithdrawal i = false) ∧
  (∀ a, default 0 (depositAmountPerAsset i !! a) = u64 (held a (ownedOutputs i))) ∧
  (∀ a, withdrawalAmountPerAsset i !! a =
     if bool_decide (a ∈ tx_asset <$> ownedInputs i)
     then Some (u64 (held a (ownedInputs i) - held a (ownedOutputs i))) else None) ∧
  (ownedInputs i = [] → ownedOutputs i = [] → ti_account i ≠ FeeAccount →
     isWithdrawal i = true ∧ withdrawalAmountPerAsset i = ∅).
Proof.
  split_and!.
  - unfold isDeposit, isWithdrawal. intros [Hi%bool_decide_eq_true Ho%negb_true_iff%bool_decide_eq_false]%andb_true_iff.
    rewrite Hi. case_bool_decide; [done|]. destruct (ownedOutputs i) as [|o l]; [done|].
    cbn. by rewrite bool_decide_eq_false_2 by apply not_elem_of_nil.
  - intros a. unfold depositAmountPerAsset.
    destruct (amount_per_asset_spec (ownedOutputs i) a) as (HE & _ & HU).
    rewrite <- HE. destruct (amount_per_asset _ !! a) eqn:E; cbn; [by rewrite u64_id by auto | done].
  - intros a. unfold withdrawalAmountPerAsset. rewrite map_lookup_imap.
    destruct (amount_per_asset_spec (ownedInputs i) a) as (HE & HS & _).
    destruct (amount_per_asset_spec (ownedOutputs i) a) as (HE' & _ & _).
    destruct (amount_per_asset (ownedInputs i) !! a) as [v|] eqn:Ev; cbn in *.
    + rewrite bool_decide_eq_true_2 by (apply HS; eauto). f_equal.
      apply (eq64_sub _ _ _ _ HE HE').
    + rewrite bool_decide_eq_false_2; [done|]. intros Hin. apply HS in Hin as [? [=]].
  - intros Hi Ho Ha. unfold isWithdrawal, withdrawalAmountPerAsset. rewrite Hi, Ho.
    rewrite bool_decide_eq_false_2 by done. done.
Qed.

(** * Examples *)
Module OperatorExamples.
Import MarketExamples.

#[global] Instance admin : WalletAdmin () := {
  CreateAccount name _ := mret (Build_WalletAccount name name "");
  DeleteAccount _ := mret ();
  ListAddresses _ := mret [];
  Transfer _ _ _ := mret "tx"%string;
  Auth password := mret (bool_decide (password = "password"%string));
  Info_Accounts := mret [];
  GetTransaction _ := mret ""%string;
  ToOutputScript _ := [1];
}.
(** One pair only: any digest will do. *)
Definition sum256 (_ : bytes) : bytes := [].
#[local] Instance mrepo : MarketRepository InmemoryMarket.store :=
  InmemoryMarket.repository (D := Fixed.t) sum256.

(** A wallet that holds 13000 sats until they are broadcast. *)
Record purse := { sats : Z }.
#[local] Instance purse_port : WalletPort purse := {
  GetBalance _ := λ w, (w, Ret {[ "L"%string := Build_Balance (u64 (sats w)) 0 0 (sats w) ]});
  DeriveAddresses _ n := mret (replicate (Z.to_nat n) "addr"%string);
  DeriveChangeAddresses _ n := mret (replicate (Z.to_nat n) "change"%string);
  SelectUtxos _ _ _ := mret ([], 0, 0);
  EstimateFees _ _ _ := mret 300;
  CreatePset _ _ := mret "pset"%string;
  UpdatePset _ _ _ := mret "pset"%string;
  BlindPset p _ := mret p;
  SignPset _ _ := mret "signed"%string;
  BroadcastTransaction _ := λ _, ({| sats := 0 |}, Ret "txid"%string);
  FromConfidential _ := Some ([1], [2]);
  TxIDToBytes _ := [3];
}.
#[local] Instance purse_laws : WalletAdminLaws purse.
Proof.
  split.
  - intros account num w w' l _ [= _ <-]. apply length_replicate.
  - intros account w w' bs a b [= _ <-] [_ <-]%lookup_singleton_Some. apply u64_range.
Qed.
#[local] Instance purse_admin : WalletAdmin purse := {
  CreateAccount name _ := mret (Build_WalletAccount name name "");
  DeleteAccount _ := mret ();
  ListAddresses _ := mret [];
  Transfer _ _ _ := mret "tx"%string;
  Auth password := mret (bool_decide (password = "password"%string));
  Info_Accounts := mret [];
  GetTransaction _ := mret ""%string;
  ToOutputScript _ := [1];
}.
Definition funded : @OpState InmemoryMarket.store purse :=
  {| op_markets := InmemoryMarket.NewMarketRepositoryImpl; op_wallet := {| sats := 13000 |};
     op_accounts := ∅ |}.

(** 13000 sats in two fragments. *)
Lemma fee_split_sends_balance_witness :
  ∃ outs w2 w3, Transfer FeeFragmenterAccount outs 100 w2 = (w3, Ret "tx"%string) ∧
    paid outs = 13000 ∧ length outs = 2%nat.
Proof.
  destruct (fee_split_sends_balance "L" 100 2 0 funded
    (fst (op_FeeFragmenterSplitFunds "L" 100 2 0 funded)) "txid")
    as (w1 & bs & b & outs & w2 & w3 & txHex & HG & Hb & HT & _ & _ & Hp & _ & Hl);
    [lia | vm_compute; reflexivity |].
  exists outs, w2, w3. injection HG as _ <-. injection Hb as <-.
  split; [injection HT as <- <-; reflexivity|]. split; [exact Hp | cbn in Hl; lia].
Defined.


Lemma market_fragments_exact_witness :
  ∃ outs, market_fragments (D := Fixed.t) "A" 1234567 (replicate 11 "x"%string) 0 = Ret outs ∧
    length outs = 11%nat ∧ 1234556 < total outs ≤ 1234567.
Proof.
  destruct (market_fragments_exact (D := Fixed.t) "A" 1234567 (replicate 11 "x"%string) 0)
    as (outs & Ho & Hl & Ht & _); [lia | cbn; lia |].
  exists outs. split; [exact Ho|]. split; [exact Hl | exact Ht].
Defined.

Definition empty : @OpState InmemoryMarket.store () :=
  {| op_markets := InmemoryMarket.NewMarketRepositoryImpl; op_wallet := (); op_accounts := ∅ |}.
Definition create (name : string) : action (@OpState InmemoryMarket.store ()) error Market :=
  op_NewMarket hash160 base quote name 25 25 650 20000000 8 8 0.
Definition created : @OpState InmemoryMarket.store () := fst (create "m" empty).
Definition created_market : Market := set_Tradable false (set_Strategy StrategyTypeBalanced empty_price
  {| BaseAsset := base; QuoteAsset := quote; Name := "m"; BaseAssetPrecision := 8;
     QuoteAssetPrecision := 8; PercentageFee := Build_MarketFee 25 25;
     FixedFee := Build_MarketFee 650 20000000; Tradable := false; StrategyType := 2;
     Price := empty_price |}).

Definition changed := op_UpdateMarketFixedFee base quote 100 200 created.
Lemma changed_ok : ∃ m', snd changed = Ret m' ∧ Name m' = "m"%string ∧ FixedFee m' = Build_MarketFee 100 200.
Proof. vm_compute. eexists. split_and!; reflexivity. Qed.

Lemma change_market_correct_witness :
  ∃ m', changed = (fst changed, Ret m') ∧ FixedFee m' = Build_MarketFee 100 200 ∧
    GetMarketByName (op_markets (fst changed)) "m" = Ret m'.
Proof.
  destruct changed_ok as (m' & Hs & Hn & Hf). exists m'.
  assert (changed = (fst changed, Ret m')) as E by (rewrite <- Hs; apply surjective_pairing).
  split; [exact E|]. split; [exact Hf|].
  destruct (change_market_correct base quote (ChangeFixedFee 100 200)
    created (fst changed) (Ret m') E) as [(m & _ & _ & HN & _) _].
  rewrite <- Hn. exact HN.
Defined.

Lemma created_ok : create "m" empty = (created, Ret created_market).
Proof.
  rewrite (surjective_pairing (create "m" empty)). fold created. f_equal.
Qed.
Definition dropped := op_DropMarket base quote created.
Lemma dropped_ok : op_DropMarket base quote created = (fst dropped, Ret ()).
Proof. rewrite (surjective_pairing (op_DropMarket _ _ _)). fold dropped. f_equal. Qed.

Lemma dropped_market_not_recreated_witness :
  create "other" (fst dropped) = (fst dropped, Err (Errorf "market already exists")).
Proof.
  exact (dropped_market_not_recreated (D := Fixed.t) sum256 hash160 base quote "m" 25 25 650 20000000 8 8 0
    "other" 25 25 650 20000000 8 8 0 empty created (fst dropped) created_market created_ok dropped_ok).
Defined.
End OperatorExamples.
