(* ===== verification/TxEvents.v ===== *)
(** Wallet transactions as seen by the operator: getTxInfo, classifyAndStoreTx
    and checkAccountsLowBalance of internal/core/application/operator/service.go.

    The two handlers are called for every notification of the wallet.  What they
    use of go-elements (transactions, slip77 keys, unblinding) is the class
    [TxLib]; an error that the code discards is the nil it leaves behind.  The
    goroutines that publish events run here where they are spawned; a panic of
    theirs is a panic of the handler, since either stops the daemon. *)

From Stdlib Require Import ZArith Lia.
From stdpp Require Import base tactics strings list gmap.
From S2P Require Import Prelude Errors Decimal Market Trade Repos SwapMsg Wallet Operator.
Local Open Scope Z_scope.

(** ports.WalletTxNotification *)
Record TxNotification := {
  tn_IsUnconfirmed : bool; tn_IsBroadcasted : bool;
  tn_AccountNames : list string; tn_TxHex : string }.

(** go-elements: transaction.Transaction's inputs and outputs, slip77,
    confidential.UnblindOutputWithKey and elementsutil.ValueFromBytes. *)
Class TxLib `{Elements} := {
  ChainOutput : Type;
  TxInputs : transaction → list (bytes * Z);
  TxOutputs : transaction → list ChainOutput;
  co_Script : ChainOutput → bytes;
  co_Value : ChainOutput → bytes;
  MasterKey : Type;
  FromMasterKey : bytes → option MasterKey;
  DeriveKey : MasterKey → bytes → option bytes;
  UnblindOutputWithKey : ChainOutput → bytes → option (bytes * Z);
  ValueFromBytes : bytes → Z;
}.

(** domain.DepositRepository and domain.WithdrawalRepository. *)
Class DepositRepository (S : Type) := {
  repo_AddDeposits : list Deposit → action S error Z;
  repo_GetDepositsForAccount : S → string → option Page → outcome error (list Deposit);
  repo_GetAllDeposits : S → option Page → outcome error (list Deposit);
}.
Class WithdrawalRepository (S : Type) := {
  repo_AddWithdrawals : list Withdrawal → action S error Z;
  repo_GetWithdrawalsForAccount : S → string → option Page → outcome error (list Withdrawal);
  repo_GetAllWithdrawals : S → option Page → outcome error (list Withdrawal);
}.
Definition inmemory_deposits `{MapOrder} (Hash160 : bytes → bytes)
    : DepositRepository (gmap string Deposit) := {|
  repo_AddDeposits := InmemoryTxs.AddDeposits Hash160;
  repo_GetDepositsForAccount := InmemoryTxs.GetDepositsForAccount;
  repo_GetAllDeposits := InmemoryTxs.GetAllDeposits |}.
Definition inmemory_withdrawals `{MapOrder} : WithdrawalRepository (gmap string Withdrawal) := {|
  repo_AddWithdrawals := InmemoryTxs.AddWithdrawals;
  repo_GetWithdrawalsForAccount := InmemoryTxs.GetWithdrawalsForAccount;
  repo_GetAllWithdrawals := InmemoryTxs.GetAllWithdrawals |}.

(** The calls of pubsub.Service, with what they publish; a nil balance of the
    fee account is [None]. *)
Inductive Event :=
  | AccountLowBalance (account : string) (balance : gmap string (option Balance)) (market : option Market)
  | AccountDeposit (d : Deposit) (balance : gmap string Balance) (market : option Market)
  | AccountWithdraw (w : Withdrawal) (balance : gmap string Balance) (market : option Market).

(** ** getTxInfo *)

Section tx_info.
Context `{TxLib} {W : Type} `{WalletAdmin W}.

Fixpoint findOwnedUtxo (masterKey : option MasterKey) (out : ChainOutput) (addresses : list string)
    : outcome error (option txOutputInfo) :=
  match addresses with
  | [] => Ret None
  | addr :: addresses =>
      if bool_decide (ToOutputScript addr = co_Script out) then
        masterKey' ← deref masterKey;
        key ← deref (DeriveKey masterKey' (co_Script out));
        match UnblindOutputWithKey out key with
        | Some (asset, value) =>
            Ret (Some {| tx_asset := hex_EncodeToString (rev asset); tx_amount := value |})
        | None => findOwnedUtxo masterKey out addresses
        end
      else findOwnedUtxo masterKey out addresses
  end.

Definition zero_output : txOutputInfo := {| tx_asset := ""; tx_amount := 0 |}.

(** An output goes to the owned ones or, as a zero value, to the others. *)
Definition sort_output (o : option txOutputInfo) (l : list txOutputInfo * list txOutputInfo)
    : list txOutputInfo * list txOutputInfo :=
  match o with
  | Some x => (x :: fst l, snd l)
  | None => (fst l, zero_output :: snd l)
  end.

(** The loop over the inputs; one whose transaction is unknown is skipped. *)
Fixpoint scan_inputs (masterKey : option MasterKey) (addresses : list string)
    (ins : list (bytes * Z)) : action W error (list txOutputInfo * list txOutputInfo) :=
  match ins with
  | [] => mret ([], [])
  | (hash, i) :: ins =>
      res ← try (GetTransaction (TxIDFromBytes hash));
      let txHex := match res with inl h => h | inr _ => ""%string end in
      if bool_decide (txHex = ""%string) then scan_inputs masterKey addresses ins
      else
        prevoutTx ← lift (deref (NewTxFromHex txHex));
        prevout ← lift (index (TxOutputs prevoutTx) (Z.to_nat i));
        o ← lift (findOwnedUtxo masterKey prevout addresses);
        rest ← scan_inputs masterKey addresses ins;
        mret (sort_output o rest)
  end.

(** The loop over the outputs; one without a script holds the network fee. *)
Fixpoint scan_outputs (masterKey : option MasterKey) (addresses : list string)
    (outs : list ChainOutput) (fee : Z)
    : outcome error (list txOutputInfo * list txOutputInfo * Z) :=
  match outs with
  | [] => Ret ([], [], fee)
  | out :: outs =>
      if bool_decide (co_Script out = [])
      then scan_outputs masterKey addresses outs (ValueFromBytes (co_Value out))
      else
        o ← findOwnedUtxo masterKey out addresses;
        '(rest, fee) ← scan_outputs masterKey addresses outs fee;
        Ret (sort_output o rest, fee)
  end.

Definition getTxInfo (tx : transaction) (account masterBlindingKey : string)
    : action W error txInfo :=
  res ← try (ListAddresses account);
  let addresses := match res with inl l => l | inr _ => [] end in
  let masterKey := FromMasterKey (fst (hex_DecodeString masterBlindingKey)) in
  ins ← scan_inputs masterKey addresses (TxInputs tx);
  '(outs, fee) ← lift (scan_outputs masterKey addresses (TxOutputs tx) 0);
  mret {| ti_account := account; ownedInputs := fst ins; notOwnedInputs := snd ins;
          ownedOutputs := fst outs; notOwnedOutputs := snd outs; ti_fee := fee |}.
End tx_info.

(** ** The handlers *)

Section handlers.
Context `{TxLib} {M : Type} `{MarketRepository M} {W : Type} `{WalletPort W} `{!WalletAdmin W}.
Context {DS : Type} `{DepositRepository DS} {WS : Type} `{WithdrawalRepository WS}.
Variables (nativeAsset : string) (feeAccountBalanceThreshold : Z).

Record EvState := {
  es_op : @OpState M W; es_deposits : DS; es_withdrawals : WS; es_events : list Event }.

Definition on_op {A} (m : action (@OpState M W) error A) : action EvState error A := λ s,
  let '(o, r) := m (es_op s) in
  ({| es_op := o; es_deposits := es_deposits s; es_withdrawals := es_withdrawals s;
      es_events := es_events s |}, r).
Definition on_deposits {A} (m : action DS error A) : action EvState error A := λ s,
  let '(d, r) := m (es_deposits s) in
  ({| es_op := es_op s; es_deposits := d; es_withdrawals := es_withdrawals s;
      es_events := es_events s |}, r).
Definition on_withdrawals {A} (m : action WS error A) : action EvState error A := λ s,
  let '(w, r) := m (es_withdrawals s) in
  ({| es_op := es_op s; es_deposits := es_deposits s; es_withdrawals := w;
      es_events := es_events s |}, r).
(** A failure to publish is only logged. *)
Definition publish_event (e : Event) : action EvState error () := λ s,
  ({| es_op := es_op s; es_deposits := es_deposits s; es_withdrawals := es_withdrawals s;
      es_events := es_events s ++ [e] |}, Ret ()).

(** [balance, _ := GetBalance(...)]: a nil map when it fails. *)
Definition read_balance (account : string) : action EvState error (gmap string Balance) :=
  res ← on_op (try (on_op_wallet (GetBalance account)));
  mret (match res with inl b => b | inr _ => ∅ end).
Definition find_market (name : string) : action EvState error (option Market) :=
  on_op (read_op_markets (λ ms, ignore_err (GetMarketByName ms name))).

Definition is_fragmenter (account : string) : bool :=
  bool_decide (account = FeeFragmenterAccount) || bool_decide (account = MarketFragmenterAccount).

(** The account's market, nil for the fee account; [*mkt] of a missing market
    panics. *)
Definition event_market (account : string) : action EvState error (option Market) :=
  if bool_decide (account = FeeAccount) then mret None
  else mkt ← find_market account; mkt ← lift (deref mkt); mret (Some mkt).

Fixpoint publish_deposits (deposits : list Deposit) : action EvState error () :=
  match deposits with
  | [] => mret ()
  | d :: deposits =>
      _ ← (if is_fragmenter (dp_AccountName d) then mret () else
           balance ← read_balance (dp_AccountName d);
           market ← event_market (dp_AccountName d);
           publish_event (AccountDeposit d balance market) : action EvState error ());
      publish_deposits deposits
  end.
Fixpoint publish_withdrawals (withdrawals : list Withdrawal) : action EvState error () :=
  match withdrawals with
  | [] => mret ()
  | w :: withdrawals =>
      _ ← (if is_fragmenter (wd_AccountName w) then mret () else
           balance ← read_balance (wd_AccountName w);
           market ← event_market (wd_AccountName w);
           publish_event (AccountWithdraw w balance market) : action EvState error ());
      publish_withdrawals withdrawals
  end.

(** The master blinding key of the first account with the label. *)
Definition blinding_key_of (accounts : list WalletAccount) (account : string) : string :=
  match list_find (λ i, wa_Label i = account) accounts with
  | Some (_, i) => wa_MasterBlindingKey i
  | None => ""
  end.

(** The loop of classifyAndStoreTx over the accounts, with the readings of the
    clock for each. *)
Fixpoint account_infos (tx : transaction) (accounts : list WalletAccount)
    (namespaces : list (string * (Z * Z))) : action EvState error (list (txInfo * (Z * Z))) :=
  match namespaces with
  | [] => mret []
  | (namespace, times) :: namespaces =>
      s ← get_state;
      let account := accountMap_getLabel (op_accounts (es_op s)) namespace in
      info ← on_op (on_op_wallet (getTxInfo tx account (blinding_key_of accounts account)));
      rest ← account_infos tx accounts namespaces;
      mret ((info, times) :: rest)
  end.

(** [if len(l) > 0 { count, err := Add(l); if err == nil && count > 0 { go publish(l) } }] *)
Definition store_deposits (deposits : list Deposit) : action EvState error () :=
  if bool_decide (deposits = []) then mret ()
  else
    res ← try (on_deposits (repo_AddDeposits deposits));
    match res with
    | inl count => if 0 <? count then publish_deposits deposits else mret ()
    | inr _ => mret ()
    end.
Definition store_withdrawals (withdrawals : list Withdrawal) : action EvState error () :=
  if bool_decide (withdrawals = []) then mret ()
  else
    res ← try (on_withdrawals (repo_AddWithdrawals withdrawals));
    match res with
    | inl count => if 0 <? count then publish_withdrawals withdrawals else mret ()
    | inr _ => mret ()
    end.

Definition classifyAndStoreTx (clock : nat → Z * Z) (n : TxNotification) : action EvState error bool :=
  tx ← lift (deref (NewTxFromHex (tn_TxHex n)));
  let txid := TxHash tx in
  if tn_IsBroadcasted n || tn_IsUnconfirmed n then
    walletInfo ← on_op (try (on_op_wallet Info_Accounts));
    accounts ← lift (deref (match walletInfo with inl l => Some l | inr _ => None end));
    infos ← account_infos tx accounts (imap (λ i ns, (ns, clock i)) (tn_AccountNames n));
    let txs := classify nativeAsset txid infos in
    _ ← store_deposits (fst txs);
    _ ← store_withdrawals (snd txs);
    mret false
  else mret false.

(** ** checkAccountsLowBalance *)

(** [balance[a] == nil || balance[a].GetTotalBalance() <= threshold] *)
Definition at_most (balance : gmap string Balance) (asset : string) (threshold : Z) : bool :=
  match balance !! asset with Some b => TotalBalance b <=? threshold | None => true end.
Definition isLowBalance (market : Market) (balance : gmap string Balance) : bool :=
  bool_decide (balance = ∅)
  || at_most balance (BaseAsset market) (fee_BaseAsset (FixedFee market))
  || at_most balance (QuoteAsset market) (fee_QuoteAsset (FixedFee market)).

Definition check_market (account : string) : action EvState error () :=
  market ← find_market account;
  match market with
  | None => mret ()
  | Some market =>
      balance ← read_balance account;
      if isLowBalance market balance
      then publish_event (AccountLowBalance (Name market) (Some <$> balance) (Some market))
      else mret ()
  end.

Definition check_fee_account : action EvState error () :=
  res ← on_op (try (op_GetFeeBalance nativeAsset));
  let bal := match res with inl b => b | inr _ => None end in
  if match bal with Some b => TotalBalance b <? feeAccountBalanceThreshold | None => true end
  then publish_event (AccountLowBalance FeeAccount {[ nativeAsset := bal ]} None)
  else mret ().

Fixpoint check_accounts (namespaces : list string) : action EvState error () :=
  match namespaces with
  | [] => mret ()
  | namespace :: namespaces =>
      s ← get_state;
      let account := accountMap_getLabel (op_accounts (es_op s)) namespace in
      _ ← (if is_fragmenter account then mret () else
           _ ← (if bool_decide (account = FeeAccount) then mret () else check_market account
                : action EvState error ());
           check_fee_account : action EvState error ());
      check_accounts namespaces
  end.

Definition checkAccountsLowBalance (n : TxNotification) : action EvState error bool :=
  _ ← (if tn_IsUnconfirmed n || tn_IsBroadcasted n then check_accounts (tn_AccountNames n) else mret ()
       : action EvState error ());
  mret false.
End handlers.

(** * Theorems: ownership *)

Section ownership.
Context `{TxLib} {W : Type} `{WalletAdmin W}.

(** What an output is worth to an account: it pays one of its addresses and the
    key derived for the script unblinds it. *)
Definition owner_view (masterKey : option MasterKey) (addresses : list string) (out : ChainOutput)
    : option txOutputInfo :=
  if decide (co_Script out ∈ ToOutputScript <$> addresses) then
    k ← masterKey; key ← DeriveKey k (co_Script out); '(asset, v) ← UnblindOutputWithKey out key;
    Some {| tx_asset := hex_EncodeToString (rev asset); tx_amount := v |}
  else None.

Lemma findOwnedUtxo_spec masterKey out addresses o :
  findOwnedUtxo masterKey out addresses = Ret o → o = owner_view masterKey addresses out.
Proof.
  unfold owner_view. induction addresses as [|addr addresses IH]; cbn [findOwnedUtxo].
  { intros [= <-]. rewrite decide_False by (by intros ?%elem_of_nil). done. }
  case_bool_decide as E.
  - intros HF. apply bind_Ret_inv in HF as (mk & Hmk%deref_Ret & HF).
    apply bind_Ret_inv in HF as (key & Hkey%deref_Ret & HF). subst masterKey.
    rewrite decide_True by (cbn; rewrite E; left). cbn. rewrite Hkey; cbn.
    destruct (UnblindOutputWithKey out key) as [[asset v]|] eqn:HU; [by injection HF as <-|].
    apply IH in HF as ->. case_decide; [|done]. cbn. rewrite Hkey; cbn. by rewrite HU.
  - intros ->%IH. cbn [fmap list_fmap]. do 2 case_decide; try done.
    + exfalso. set_solver.
    + exfalso. set_solver.
Qed.

(** Outputs with a script, in order, and the fee of those without. *)
Definition scripted (outs : list ChainOutput) : list ChainOutput := filter (λ out, co_Script out ≠ []) outs.
Definition network_fee (outs : list ChainOutput) (fee : Z) : Z :=
  foldl (λ f out, if bool_decide (co_Script out = []) then ValueFromBytes (co_Value out) else f) fee outs.

Lemma scan_outputs_spec masterKey addresses outs fee l fee' :
  scan_outputs masterKey addresses outs fee = Ret (l, fee') →
  fst l = omap (owner_view masterKey addresses) (scripted outs) ∧
  (length (fst l) + length (snd l) = length (scripted outs))%nat ∧ fee' = network_fee outs fee.
Proof.
  revert fee l fee'. induction outs as [|out outs IH]; intros fee l fee'; cbn [scan_outputs].
  { by intros [= <- <-]. }
  unfold scripted, network_fee; cbn [foldl]. rewrite filter_cons. case_bool_decide as E.
  - intros (? & ? & ->)%IH. rewrite decide_False by (intros ?; done). done.
  - intros HS. apply bind_Ret_inv in HS as (o & ->%findOwnedUtxo_spec & HS).
    apply bind_Ret_inv in HS as ([r f] & (Hr & Hl & ->)%IH & [= <- <-]).
    rewrite decide_True by done. cbn. destruct (owner_view _ _ out); cbn; rewrite Hr in *;
      split_and!; unfold scripted in *; done || lia.
Qed.

(** A previous output that an input of the list spends. *)
Definition spends (ins : list (bytes * Z)) (prevout : ChainOutput) : Prop :=
  ∃ hash i txHex tx (w w' : W), (hash, i) ∈ ins ∧
    GetTransaction (TxIDFromBytes hash) w = (w', Ret txHex) ∧
    NewTxFromHex txHex = Some tx ∧ TxOutputs tx !! Z.to_nat i = Some prevout.

Lemma scan_inputs_spec masterKey addresses ins (w w' : W) l :
  scan_inputs masterKey addresses ins w = (w', Ret l) →
  ∃ prevouts, fst l = omap (owner_view masterKey addresses) prevouts ∧
    ((length (fst l) + length (snd l) = length prevouts) ∧ (length prevouts ≤ length ins))%nat ∧
    Forall (spends ins) prevouts.
Proof.
  assert (∀ x xs l', Forall (spends xs) l' → Forall (spends (x :: xs)) l') as Hweak.
  { intros x xs l' Hl'. eapply Forall_impl; [exact Hl'|].
    intros p (h & i & hex & tx & w1 & w2 & ? & ?). exists h, i, hex, tx, w1, w2. split; [by right | done]. }
  revert w l. induction ins as [|[hash i] ins IH]; intros w l; cbn [scan_inputs]; intros HS.
  { act_inv HS. exists []. split_and!; done || constructor. }
  act_inv HS; match goal with E : try _ _ = (_, Ret ?r) |- _ => rename E into HT; rename r into res end.
  - apply IH in HS as (pv & ? & [? ?] & ?). exists pv. split_and!; [done | done | cbn; lia | by apply Hweak].
  - match goal with E : scan_inputs _ _ _ _ = _ |- _ => apply IH in E as (pv & Hf & [Hl Hle] & HF) end.
    match goal with E : findOwnedUtxo _ _ _ = _ |- _ => apply findOwnedUtxo_spec in E as -> end.
    match goal with E : index _ _ = Ret ?p |- _ => apply index_Ret in E; rename E into Hp; rename p into prev end.
    match goal with E : deref _ = _ |- _ => apply deref_Ret in E; rename E into Htx end.
    exists (prev :: pv). unfold try in HT. destruct res as [txHex|e]; [|done].
    destruct (GetTransaction _ _) as [w1 [h|e|p]] eqn:HG; simplify_eq/=.
    split_and!; [| | lia |].
    + destruct (owner_view _ _ prev); cbn; by rewrite Hf.
    + destruct (owner_view _ _ prev); cbn; lia.
    + constructor; [|by apply Hweak]. eexists _, _, _, _, _, _. split_and!; [left | done..].
Qed.

End ownership.

(** * Theorems: what is recorded *)

Section recorded.
Context `{TxLib} `{MapOrder} {M : Type} `{MarketRepository M} {W : Type} `{WalletPort W} `{!WalletAdmin W}.
Variables (nativeAsset : string) (Hash160 : bytes → bytes).
#[local] Existing Instance inmemory_withdrawals.
#[local] Instance deposits : DepositRepository (gmap string Deposit) := inmemory_deposits Hash160.
Abbreviation EvS := (@EvState M W (gmap string Deposit) (gmap string Withdrawal)).

(** Actions that leave the two stores and the account labels alone. *)
Definition same_stores (s s' : EvS) : Prop :=
  es_deposits s' = es_deposits s ∧ es_withdrawals s' = es_withdrawals s ∧
  op_accounts (es_op s') = op_accounts (es_op s).
Definition keeps {A} (m : action EvS error A) : Prop := ∀ s s' o, m s = (s', o) → same_stores s s'.

Lemma keeps_ret {A} (a : A) : keeps (mret a).
Proof. by intros s s' o [= <- <-]. Qed.
Lemma keeps_lift {A} (m : outcome error A) : keeps (lift m).
Proof. by intros s s' o [= <- <-]. Qed.
Lemma keeps_get : keeps get_state.
Proof. by intros s s' o [= <- <-]. Qed.
Lemma keeps_bind {A B} (m : action EvS error A) (f : A → action EvS error B) :
  keeps m → (∀ a, keeps (f a)) → keeps (m ≫= f).
Proof.
  intros Hm Hf s s' o. unfold mbind, action_bind.
  destruct (m s) as [s1 [a|e|p]] eqn:E; apply Hm in E as (E1 & E2 & E3);
    [|by intros [= <- <-]..].
  intros (F1 & F2 & F3)%Hf. unfold same_stores. by rewrite F1, F2, F3.
Qed.
Lemma keeps_wallet {A} (m : action W error A) : keeps (on_op (on_op_wallet m)).
Proof.
  intros s s' o. unfold on_op, on_op_wallet. destruct (m _) as [w r]. by intros [= <- <-].
Qed.
Lemma keeps_try_wallet {A} (m : action W error A) : keeps (on_op (try (on_op_wallet m))).
Proof.
  intros s s' o. unfold on_op, try, on_op_wallet.
  destruct (m _) as [w []]; by intros [= <- <-].
Qed.
Lemma keeps_read {A} (f : M → outcome error A) : keeps (on_op (read_op_markets f)).
Proof. by intros s s' o [= <- <-]. Qed.
Lemma keeps_publish e : keeps (publish_event e).
Proof. by intros s s' o [= <- <-]. Qed.

Create HintDb keeps.
#[local] Hint Resolve keeps_ret keeps_lift keeps_get keeps_wallet keeps_try_wallet keeps_read
  keeps_publish : keeps.
Ltac keeps := repeat (intros; first [ apply keeps_bind; [solve [auto with keeps]|]
  | apply keeps_bind | case_match | solve [auto with keeps] ]).

Lemma publish_deposits_keeps l : keeps (publish_deposits l).
Proof.
  induction l as [|d l IH]; cbn [publish_deposits]; unfold read_balance, event_market, find_market; keeps; done.
Qed.
Lemma publish_withdrawals_keeps l : keeps (publish_withdrawals l).
Proof.
  induction l as [|d l IH]; cbn [publish_withdrawals]; unfold read_balance, event_market, find_market; keeps; done.
Qed.

Lemma getTxInfo_account tx account key (w w' : W) info :
  getTxInfo tx account key w = (w', Ret info) → ti_account info = account.
Proof. unfold getTxInfo. intros HG. act_inv HG. done. Qed.

Lemma account_infos_spec tx accounts l (s s' : EvS) infos :
  account_infos tx accounts l s = (s', Ret infos) →
  same_stores s s' ∧
  (λ x, ti_account x.1) <$> infos = (λ x, accountMap_getLabel (op_accounts (es_op s)) x.1) <$> l.
Proof.
  revert s infos. induction l as [|[ns times] l IH]; intros s infos; cbn [account_infos]; intros HA.
  { act_inv HA. done. }
  act_inv HA.
  match goal with E : get_state _ = _ |- _ => injection E as <- <- end.
  match goal with E : on_op _ _ = _ |- _ => rename E into HO end.
  match goal with E : account_infos _ _ _ _ = _ |- _ => apply IH in E as ((E1 & E2 & E3) & HI) end.
  destruct (keeps_wallet _ _ _ _ HO) as (F1 & F2 & F3).
  unfold on_op, on_op_wallet in HO. destruct (getTxInfo _ _ _ _) as [w r] eqn:HG. simplify_eq/=.
  apply getTxInfo_account in HG. split; [by unfold same_stores; rewrite E1, E2, E3|].
  by rewrite HG, HI.
Qed.

(** What classify makes of an account. *)
Definition deposit_of (txid : string) (x : txInfo * (Z * Z)) : Deposit :=
  {| dp_AccountName := ti_account x.1; dp_TxID := txid;
     dp_TotAmountPerAsset := depositAmountPerAsset x.1; dp_Timestamp := x.2.1 |}.
Definition withdrawal_of (txid : string) (x : txInfo * (Z * Z)) : Withdrawal :=
  let tot := withdrawalAmountPerAsset x.1 in
  {| wd_AccountName := ti_account x.1; wd_TxID := txid;
     wd_TotAmountPerAsset :=
       if bool_decide (ti_account x.1 = FeeAccount)
       then <[nativeAsset := u64 (default 0 (tot !! nativeAsset) - ti_fee x.1)]> tot else tot;
     wd_Timestamp := x.2.2 |}.

Lemma classify_spec txid infos :
  classify nativeAsset txid infos =
    (deposit_of txid <$> filter (λ x, isDeposit x.1 = true) infos,
     withdrawal_of txid <$> filter (λ x, isWithdrawal x.1 = true) infos).
Proof.
  unfold classify.
  match goal with |- foldl ?f ?i _ = _ => set (g := f) end.
  enough (∀ ds ws, foldl g (ds, ws) infos =
    (ds ++ (deposit_of txid <$> filter (λ x, isDeposit x.1 = true) infos),
     ws ++ (withdrawal_of txid <$> filter (λ x, isWithdrawal x.1 = true) infos))) as Hg by apply (Hg [] []).
  induction infos as [|[i [t1 t2]] infos IH]; intros ds ws; [by rewrite !app_nil_r|].
  cbn [foldl]. rewrite !filter_cons. unfold g at 2. rewrite IH. cbn [fst].
  destruct (isDeposit i), (isWithdrawal i); cbn; rewrite <- ?app_assoc; done.
Qed.

Lemma store_deposits_spec l (s s' : EvS) u :
  store_deposits l s = (s', Ret u) →
  es_deposits s' = fst (InmemoryTxs.add_missing (InmemoryTxs.Deposit_Key Hash160) l (es_deposits s)) ∧
  es_withdrawals s' = es_withdrawals s.
Proof.
  unfold store_deposits. case_bool_decide; [by subst; intros [= <-]|]. intros HS. act_inv HS.
  match goal with E : try _ _ = (?s1, Ret ?r) |- _ => rename E into HT; rename r into res; rename s1 into s1 end.
  unfold try, on_deposits in HT; cbn in HT. unfold InmemoryTxs.AddDeposits in HT.
  destruct (InmemoryTxs.add_missing _ _ _) as [d c]. simplify_eq/=.
  destruct (0 <? c); [|by injection HS as <-].
  apply publish_deposits_keeps in HS as (-> & -> & _). done.
Qed.
Lemma store_withdrawals_spec l (s s' : EvS) u :
  store_withdrawals l s = (s', Ret u) →
  es_withdrawals s' = fst (InmemoryTxs.add_missing wd_TxID l (es_withdrawals s)) ∧
  es_deposits s' = es_deposits s.
Proof.
  unfold store_withdrawals. case_bool_decide; [by subst; intros [= <-]|]. intros HS. act_inv HS.
  match goal with E : try _ _ = (?s1, Ret ?r) |- _ => rename E into HT; rename r into res; rename s1 into s1 end.
  unfold try, on_withdrawals in HT; cbn in HT. unfold InmemoryTxs.AddWithdrawals in HT.
  destruct (InmemoryTxs.add_missing _ _ _) as [d c]. simplify_eq/=.
  destruct (0 <? c); [|by injection HS as <-].
  apply publish_withdrawals_keeps in HS as (-> & -> & _). done.
Qed.

(** What is stored once [l] was added to [m] under [key]. *)
Definition stored {V} (key : V → string) (l : list V) (m m' : gmap string V) : Prop :=
  (∀ k v, m !! k = Some v → m' !! k = Some v) ∧ (∀ v, v ∈ l → is_Some (m' !! key v)) ∧
  (∀ k v, m' !! k = Some v → m !! k = Some v ∨ (v ∈ l ∧ key v = k)).

Lemma stored_add_missing {V} (key : V → string) l m : stored key l m (fst (InmemoryTxs.add_missing key l m)).
Proof.
  destruct (InmemoryTxs.add_missing key l m) as [m' n] eqn:E.
  apply add_missing_spec in E as (? & ? & ? & _). done.
Qed.

(** classifyAndStoreTx stays registered; it ignores confirmed transactions;
    of any other it records one deposit for each account of the notification that
    the transaction pays without spending from it and one withdrawal for each
    account it withdraws from, never replacing what is already stored and storing
    nothing else. *)
Theorem transactions_recorded clock n (s s' : EvS) b :
  classifyAndStoreTx nativeAsset clock n s = (s', Ret b) →
  b = false ∧
  if tn_IsBroadcasted n || tn_IsUnconfirmed n then
    ∃ tx infos, NewTxFromHex (tn_TxHex n) = Some tx ∧
      ((λ x, ti_account x.1) <$> infos)
        = accountMap_getLabel (op_accounts (es_op s)) <$> tn_AccountNames n ∧
      stored (InmemoryTxs.Deposit_Key Hash160)
        (deposit_of (TxHash tx) <$> filter (λ x, isDeposit x.1 = true) infos)
        (es_deposits s) (es_deposits s') ∧
      stored wd_TxID (withdrawal_of (TxHash tx) <$> filter (λ x, isWithdrawal x.1 = true) infos)
        (es_withdrawals s) (es_withdrawals s')
  else s' = s.
Proof.
  unfold classifyAndStoreTx. intros HC. act_inv HC; [|done]. split; [done|].
  match goal with E : deref (NewTxFromHex _) = Ret ?x |- _ => apply deref_Ret in E; exists x end.
  match goal with E : on_op _ s = _ |- _ => apply keeps_try_wallet in E as (E1 & E2 & E3) end.
  match goal with E : account_infos _ _ _ _ = (_, Ret ?x) |- _ =>
    apply account_infos_spec in E as ((F1 & F2 & F3) & HI); exists x end.
  match goal with E : store_deposits _ _ = _ |- _ => apply store_deposits_spec in E as [G1 G2] end.
  match goal with E : store_withdrawals _ _ = _ |- _ => apply store_withdrawals_spec in E as [K1 K2] end.
  rewrite classify_spec in G1, K1; cbn [fst snd] in G1, K1.
  split_and!; [done | | |].
  - rewrite HI, E3. rewrite fmap_imap. cbn. apply list_eq. intros i.
    rewrite list_lookup_imap, list_lookup_fmap. by destruct (_ !! i).
  - rewrite K2, G1, F1, E1. apply stored_add_missing.
  - rewrite K1, G2, F2, E2. apply stored_add_missing.
Qed.
End recorded.

(** * Theorems: low balances *)

Section low_balance.
Context {M : Type} `{MarketRepository M} {W : Type} `{WalletPort W} `{!WalletAdmin W} {DS WS : Type}.
Variables (nativeAsset : string) (threshold : Z).
Abbreviation EvS := (@EvState M W DS WS).

(** What the wallet answers for an account; nothing when the call fails. *)
Definition balance_of (w : W) (account : string) : gmap string Balance :=
  match snd (GetBalance account w) with Ret b => b | _ => ∅ end.

(** The alerts that are due for an account in a state. *)
Definition market_alert (s : @OpState M W) (account : string) : list Event :=
  match GetMarketByName (op_markets s) account with
  | Ret m =>
      let balance := balance_of (op_wallet s) account in
      if isLowBalance m balance then [AccountLowBalance (Name m) (Some <$> balance) (Some m)] else []
  | _ => []
  end.
Definition fee_alert (s : @OpState M W) : list Event :=
  let bal := balance_of (op_wallet s) FeeAccount !! nativeAsset in
  match bal with
  | Some b => if TotalBalance b <? threshold
              then [AccountLowBalance FeeAccount {[ nativeAsset := bal ]} None] else []
  | None => [AccountLowBalance FeeAccount {[ nativeAsset := bal ]} None]
  end.
Definition alerts (s : @OpState M W) (namespace : string) : list Event :=
  let account := accountMap_getLabel (op_accounts s) namespace in
  if is_fragmenter account then []
  else (if bool_decide (account = FeeAccount) then [] else market_alert s account) ++ fee_alert s.

Definition with_events (s : EvS) (l : list Event) : EvS :=
  {| es_op := es_op s; es_deposits := es_deposits s; es_withdrawals := es_withdrawals s;
     es_events := es_events s ++ l |}.

Lemma with_events_nil s : with_events s [] = s.
Proof. destruct s. unfold with_events; cbn. by rewrite app_nil_r. Qed.
Lemma with_events_app s l1 l2 : with_events (with_events s l1) l2 = with_events s (l1 ++ l2).
Proof. unfold with_events; cbn. by rewrite app_assoc. Qed.

Section reads.
Hypothesis balance_reads : ∀ account (w : W), fst (GetBalance account w) = w.

Lemma read_balance_spec account (s s' : EvS) b :
  read_balance account s = (s', Ret b) → s' = s ∧ b = balance_of (op_wallet (es_op s)) account.
Proof.
  destruct s as [[ms w ac] ? ? ?].
  unfold read_balance, balance_of, on_op, try, on_op_wallet, mbind, action_bind; cbn.
  pose proof (balance_reads account w) as HR.
  destruct (GetBalance account w) as [w' [bs|e|p]]; cbn in *; subst; by intros [= <- <-].
Qed.

Lemma find_market_spec name (s s' : EvS) mk :
  find_market name s = (s', Ret mk) →
  s' = s ∧ ignore_err (GetMarketByName (op_markets (es_op s)) name) = Ret mk.
Proof. destruct s as [[ms w ac] ? ? ?]. unfold find_market, on_op, read_op_markets; cbn. by intros [= <- ->]. Qed.

Lemma check_market_spec account (s s' : EvS) u :
  check_market account s = (s', Ret u) → s' = with_events s (market_alert (es_op s) account).
Proof.
  unfold check_market, market_alert. intros HC. act_inv HC.
  match goal with E : find_market _ _ = (_, Ret ?x) |- _ =>
    rename x into mk; apply find_market_spec in E as [-> HF] end.
  destruct (GetMarketByName _ _) as [m|e|p]; simplify_eq/=; act_inv HC; [..|by rewrite with_events_nil].
  all: match goal with E : read_balance _ _ = _ |- _ => apply read_balance_spec in E as [-> ->] end.
  all: match goal with E : isLowBalance _ _ = _ |- _ => rewrite E end.
  - by injection HC as <-.
  - by rewrite with_events_nil.
Qed.

Lemma check_fee_account_spec (s s' : EvS) u :
  check_fee_account nativeAsset threshold s = (s', Ret u) → s' = with_events s (fee_alert (es_op s)).
Proof.
  destruct s as [[ms w ac] ds ws es].
  unfold check_fee_account, fee_alert, balance_of, op_GetFeeBalance, on_op, try, on_op_wallet, mbind, action_bind.
  cbn. pose proof (balance_reads FeeAccount w) as HR.
  destruct (GetBalance FeeAccount w) as [w' [bs|e|p]]; cbn in *; subst; [| |done].
  - case_bool_decide as E; [subst bs; rewrite lookup_empty; by intros [= <-]|].
    destruct (bs !! nativeAsset) as [b|] eqn:Hb; [destruct (TotalBalance b <? threshold)|]; intros [= <-];
      rewrite ?Hb; done || (by rewrite with_events_nil).
  - rewrite lookup_empty. by intros [= <-].
Qed.

Lemma check_accounts_spec l (s s' : EvS) u :
  check_accounts nativeAsset threshold l s = (s', Ret u) →
  s' = with_events s (concat (alerts (es_op s) <$> l)).
Proof.
  revert s. induction l as [|ns l IH]; intros s; cbn [check_accounts]; intros HC.
  { act_inv HC. by rewrite with_events_nil. }
  act_inv HC. match goal with E : get_state _ = _ |- _ => injection E as <- <- end.
  match goal with E : (if is_fragmenter _ then _ else _) s = (?x, _) |- _ =>
    rename E into HX; rename x into s1 end.
  apply IH in HC as ->. cbn [fmap list_fmap concat].
  enough (s1 = with_events s (alerts (es_op s) ns)) as -> by (by rewrite with_events_app).
  unfold alerts. destruct (is_fragmenter _).
  { act_inv HX. by rewrite with_events_nil. }
  act_inv HX. apply check_fee_account_spec in HX as ->.
  match goal with E : (if _ then _ else _) s = (?x, _) |- _ => rename E into HM; rename x into s2 end.
  case_bool_decide; [by act_inv HM|]. apply check_market_spec in HM as ->.
  by rewrite with_events_app.
Qed.

(** checkAccountsLowBalance stays registered and, as long as reading a
    balance leaves the wallet unchanged, publishes exactly the alerts that are
    due and changes nothing else: for every account of an unconfirmed or broadcast
    transaction but the fragmenters, one if it is a market holding at most its
    fixed fee of either asset, and one if the fee account is below the
    threshold. *)
Theorem low_balance_alerts n (s s' : EvS) b :
  checkAccountsLowBalance nativeAsset threshold n s = (s', Ret b) →
  b = false ∧
  s' = with_events s (if tn_IsUnconfirmed n || tn_IsBroadcasted n
                      then concat (alerts (es_op s) <$> tn_AccountNames n) else []).
Proof.
  unfold checkAccountsLowBalance. intros HC. act_inv HC. split; [done|].
  destruct (_ || _).
  - by match goal with E : check_accounts _ _ _ _ = _ |- _ => apply check_accounts_spec in E end.
  - match goal with E : mret _ _ = _ |- _ => act_inv E end. by rewrite with_events_nil.
Qed.
End reads.

(** The goroutine that publishes a withdrawal dereferences the account's market:
    for an account that is neither auxiliary nor a known market, whose every
    transaction counts as a withdrawal, it stops the daemon. *)
Theorem unknown_account_panics w l (s : EvS) e bs :
  is_fragmenter (wd_AccountName w) = false → wd_AccountName w ≠ FeeAccount →
  snd (GetBalance (wd_AccountName w) (op_wallet (es_op s))) = Ret bs →
  GetMarketByName (op_markets (es_op s)) (wd_AccountName w) = Err e →
  snd (publish_withdrawals (w :: l) s) = Panic NilDereference.
Proof.
  intros HF Hn HB HM. cbn [publish_withdrawals]. rewrite HF.
  unfold read_balance, event_market, find_market, read_op_markets, on_op, on_op_wallet, try, mbind, action_bind.
  destruct (GetBalance _ _) as [w' o]; cbn in HB; subst o; cbn.
  rewrite bool_decide_eq_false_2 by done. cbn. by rewrite HM.
Qed.
End low_balance.

(** * Examples *)
Module EventExamples.

(** A wallet with one market account "m" with one address; every transaction
    pays 500 of an asset to it, something to somebody else and a fee. *)
#[local] Instance lib : TxLib := {
  ChainOutput := bytes * bytes;
  TxInputs _ := [([1], 0)];
  TxOutputs _ := [([1], []); ([9], []); ([], [26])];
  co_Script := fst; co_Value := snd;
  MasterKey := bytes; FromMasterKey b := Some b; DeriveKey k _ := Some k;
  UnblindOutputWithKey _ _ := Some ([7], 500);
  ValueFromBytes b := match b with x :: _ => x | [] => 0 end;
}.
Inductive chain := Chain.
#[local] Instance chain_port : WalletPort chain := {
  GetBalance _ := mret {[ "L"%string := Build_Balance 100 0 0 100 ]};
  DeriveAddresses _ n := mret (replicate (Z.to_nat n) "addr"%string);
  DeriveChangeAddresses _ n := mret (replicate (Z.to_nat n) "change"%string);
  SelectUtxos _ _ _ := mret ([], 0, 0);
  EstimateFees _ _ _ := mret 300;
  CreatePset _ _ := mret "pset"%string;
  UpdatePset _ _ _ := mret "pset"%string;
  BlindPset p _ := mret p;
  SignPset _ _ := mret "signed"%string;
  BroadcastTransaction _ := mret "txid"%string;
  FromConfidential _ := Some ([1], [2]);
  TxIDToBytes _ := [3];
}.
#[local] Instance chain_admin : WalletAdmin chain := {
  CreateAccount name _ := mret (Build_WalletAccount name name "00");
  DeleteAccount _ := mret ();
  ListAddresses _ := mret ["addr"%string];
  Transfer _ _ _ := mret "tx"%string;
  Auth _ := mret true;
  Info_Accounts := mret [Build_WalletAccount "ns" "m" "00"];
  GetTransaction _ := mret ""%string;
  ToOutputScript _ := [1];
}.
#[local] Instance mrepo : MarketRepository InmemoryMarket.store :=
  InmemoryMarket.repository (D := Fixed.t) (λ b, b).
#[local] Existing Instance inmemory_withdrawals.
#[local] Instance drepo : DepositRepository (gmap string Deposit) := inmemory_deposits (λ b, b).

Definition notification : TxNotification := {|
  tn_IsUnconfirmed := true; tn_IsBroadcasted := false; tn_AccountNames := ["ns"%string];
  tn_TxHex := "txhex" |}.
Definition market_m : Market := {|
  BaseAsset := "A"; QuoteAsset := "B"; Name := "m"; BaseAssetPrecision := 8; QuoteAssetPrecision := 8;
  PercentageFee := Build_MarketFee 0 0; FixedFee := Build_MarketFee 10 10; Tradable := false;
  StrategyType := 2; Price := empty_price |}.
Definition ev0 : @EvState InmemoryMarket.store chain (gmap string Deposit) (gmap string Withdrawal) := {|
  es_op := {| op_markets := fst (InmemoryMarket.createMarket (λ b, b) market_m
                                   InmemoryMarket.NewMarketRepositoryImpl);
              op_wallet := Chain; op_accounts := {[ "ns"%string := "m"%string ]} |};
  es_deposits := ∅; es_withdrawals := ∅; es_events := [] |}.
Definition clock (_ : nat) : Z * Z := (1000, 1001).

Definition tx0 : @transaction SwapExamples.elements := "txhash"%string.

Definition ev1 := fst (classifyAndStoreTx "L" clock notification ev0).
Lemma classified : classifyAndStoreTx "L" clock notification ev0 = (ev1, Ret false).
Proof. rewrite (surjective_pairing (classifyAndStoreTx _ _ _ _)). fold ev1. f_equal. Qed.

Lemma transactions_recorded_witness :
  size (es_deposits ev1) = 1%nat ∧
  ∃ infos, stored (InmemoryTxs.Deposit_Key (λ b, b))
    (deposit_of "txhash" <$> filter (λ x, isDeposit x.1 = true) infos) ∅ (es_deposits ev1).
Proof.
  split; [vm_compute; reflexivity|].
  destruct (transactions_recorded "L" (λ b, b) clock notification ev0 ev1 false classified)
    as [_ (tx & infos & Htx & _ & HD & _)].
  exists infos. injection Htx as <-. exact HD.
Defined.

Definition ev2 := fst (checkAccountsLowBalance "L" 50 notification ev0).
Lemma checked : checkAccountsLowBalance "L" 50 notification ev0 = (ev2, Ret false).
Proof. rewrite (surjective_pairing (checkAccountsLowBalance _ _ _ _)). fold ev2. f_equal. Qed.

Lemma low_balance_alerts_witness :
  es_events ev2 = [AccountLowBalance "m" {[ "L"%string := Some (Build_Balance 100 0 0 100) ]} (Some market_m)].
Proof.
  destruct (low_balance_alerts (H0 := chain_port) "L" 50 (λ _ _, eq_refl) notification ev0 ev2 false checked) as [_ ->].
  vm_compute. reflexivity.
Defined.
End EventExamples.
