(* ===== verification/Listing.v ===== *)
(** The queries of the operator service: the listing methods of
    internal/core/application/operator/service.go, the balances and addresses of its
    accounts, and the types of types.go that present trades.

    State: the one of Operator.v with the trade, deposit and withdrawal stores
    beside it.  ports.Trade, ports.Deposit and the like are the domain's own records,
    read by the getters of types.go. *)

From Stdlib Require Import ZArith Lia.
From stdpp Require Import base tactics strings list gmap.
From S2P Require Import Prelude Errors Decimal Market Trade Repos SwapMsg Wallet Operator TxEvents.
Local Open Scope Z_scope.

(** ports.Account's ListUtxos: the spendable coins and the locked ones. *)
Class WalletUtxos (W : Type) := { ListUtxos : string → action W error (list Utxo * list Utxo) }.

(** * types.go: tradeInfo *)

Definition GetRequestTimestamp (t : Trade) : Z :=
  match tr_SwapRequest t with None => 0 | Some r => sw_Timestamp r end.
Definition GetAcceptTimestamp (t : Trade) : Z :=
  match tr_SwapAccept t with None => 0 | Some r => sw_Timestamp r end.
Definition GetCompleteTimestamp (t : Trade) : Z :=
  match tr_SwapComplete t with None => 0 | Some r => sw_Timestamp r end.
Definition GetSwapInfo `{SwapParser} (t : Trade) : outcome error (option SwapRequest) := SwapRequestMessage t.
Definition GetSwapFailInfo `{SwapParser} (t : Trade) : outcome error (option SwapFail) := SwapFailMessage t.

(** tradeStatusInfo *)
Definition status_IsRequest (s : TradeStatus) : bool := Code s =? TradeStatusCodeProposal.
Definition status_IsAccept (s : TradeStatus) : bool := Code s =? TradeStatusCodeAccepted.
Definition status_IsComplete (s : TradeStatus) : bool := Code s =? TradeStatusCodeCompleted.
Definition status_IsSettled (s : TradeStatus) : bool := Code s =? TradeStatusCodeSettled.
Definition status_IsExpired (s : TradeStatus) : bool := Code s =? TradeStatusCodeExpired.

(** tradeFeeInfo *)
Definition fee_GetPercentageFee (t : Trade) : Z :=
  if bool_decide (tr_FeeAsset t = tr_MarketBaseAsset t)
  then fee_BaseAsset (tr_MarketPercentageFee t) else fee_QuoteAsset (tr_MarketPercentageFee t).
Definition fee_GetFixedFee (t : Trade) : Z :=
  if bool_decide (tr_FeeAsset t = tr_MarketBaseAsset t)
  then fee_BaseAsset (tr_MarketFixedFee t) else fee_QuoteAsset (tr_MarketFixedFee t).
Definition fee_GetTimestamp (t : Trade) : outcome error Z :=
  r ← deref (tr_SwapRequest t); Ret (sw_Timestamp r).

(** * Queries *)

Section queries.
Context {M : Type} `{MarketRepository M} {T : Type} `{TradeRepository T}.
Context {W : Type} `{WalletPort W} `{!WalletAdmin W} `{!WalletUtxos W}.
Context {DS : Type} `{DepositRepository DS} {WS : Type} `{WithdrawalRepository WS}.

Record OperatorState := {
  os_op : @OpState M W; os_trades : T; os_deposits : DS; os_withdrawals : WS }.

Definition on_operator {A} (m : action (@OpState M W) error A) : action OperatorState error A := λ s,
  let '(o, r) := m (os_op s) in
  ({| os_op := o; os_trades := os_trades s; os_deposits := os_deposits s;
      os_withdrawals := os_withdrawals s |}, r).
Definition read_stores {A} (f : OperatorState → outcome error A) : action OperatorState error A := λ s, (s, f s).

(** [balance, err := GetBalance(...)], where an error is only logged. *)
Definition balance_or_nil (account : string) : action OperatorState error (option (gmap string Balance)) :=
  res ← on_operator (try (on_op_wallet (GetBalance account)));
  mret (match res with inl b => Some b | inr _ => None end).

Fixpoint with_balances (markets : list Market)
    : action OperatorState error (list (Market * option (gmap string Balance))) :=
  match markets with
  | [] => mret []
  | market :: markets =>
      balance ← balance_or_nil (Name market);
      list ← with_balances markets;
      mret ((market, balance) :: list)
  end.
Definition op_ListMarkets : action OperatorState error (list (Market * option (gmap string Balance))) :=
  markets ← on_operator (read_op_markets GetAllMarkets);
  with_balances markets.

Definition op_ListTradesForMarket (baseAsset quoteAsset : string) (page : option Page)
    : action OperatorState error (list Trade) :=
  mkt ← on_operator (fetch_market baseAsset quoteAsset);
  read_stores (λ s, GetAllTradesByMarket (os_trades s) (Name mkt) page).

(** The page is not used. *)
Definition op_ListUtxos (accountName : string) (page : option Page)
    : action OperatorState error (list Utxo * list Utxo) :=
  on_operator (on_op_wallet (ListUtxos accountName)).
Definition op_ListDeposits (accountName : string) (page : option Page) : action OperatorState error (list Deposit) :=
  read_stores (λ s, repo_GetDepositsForAccount (os_deposits s) accountName page).
Definition op_ListWithdrawals (accountName : string) (page : option Page)
    : action OperatorState error (list Withdrawal) :=
  read_stores (λ s, repo_GetWithdrawalsForAccount (os_withdrawals s) accountName page).

(** ** fee_account.go, fee_fragmenter_account.go, market_fragmenter_account.go *)
Definition op_ListFeeExternalAddresses : action (@OpState M W) error (list string) :=
  on_op_wallet (ListAddresses FeeAccount).
Definition op_ListFeeFragmenterExternalAddresses : action (@OpState M W) error (list string) :=
  on_op_wallet (ListAddresses FeeFragmenterAccount).
Definition op_ListMarketFragmenterExternalAddresses : action (@OpState M W) error (list string) :=
  on_op_wallet (ListAddresses MarketFragmenterAccount).
Definition op_GetFeeFragmenterBalance : action (@OpState M W) error (gmap string Balance) :=
  on_op_wallet (GetBalance FeeFragmenterAccount).
Definition op_GetMarketFragmenterBalance : action (@OpState M W) error (gmap string Balance) :=
  on_op_wallet (GetBalance MarketFragmenterAccount).
End queries.
Arguments OperatorState M T W DS WS : clear implicits.

(** * Theorems *)

Section listing_theorems.
Context {M : Type} `{MarketRepository M} {T : Type} `{TradeRepository T}.
Context {W : Type} `{WalletPort W} `{!WalletAdmin W} `{!WalletUtxos W}.
Context {DS : Type} `{DepositRepository DS} {WS : Type} `{WithdrawalRepository WS}.
Abbreviation St := (OperatorState M T W DS WS).

(** What a query may change: the wallet only. *)
Definition same_stores (s s' : St) : Prop :=
  op_markets (os_op s') = op_markets (os_op s) ∧ op_accounts (os_op s') = op_accounts (os_op s) ∧
  os_trades s' = os_trades s ∧ os_deposits s' = os_deposits s ∧ os_withdrawals s' = os_withdrawals s.
#[global] Instance same_stores_preorder : PreOrder same_stores.
Proof. unfold same_stores. split; [done | intros s1 s2 s3; naive_solver congruence]. Qed.

Lemma balance_or_nil_spec account (s s' : St) o :
  balance_or_nil account s = (s', o) → same_stores s s'.
Proof.
  unfold balance_or_nil, on_operator, try, on_op_wallet, mbind, action_bind.
  destruct (GetBalance account _) as [w [b|e|p]]; intros [= <- <-]; done.
Qed.

Lemma with_balances_spec markets (s s' : St) o :
  with_balances markets s = (s', o) →
  same_stores s s' ∧ (∀ l, o = Ret l → l.*1 = markets).
Proof.
  revert s s' o. induction markets as [|m markets IH]; intros s s' o; cbn [with_balances].
  { intros [= <- <-]. split; [done | by intros l [= <-]]. }
  unfold mbind, action_bind at 1. destruct (balance_or_nil _ s) as [s1 [b|e|p]] eqn:EB;
    apply balance_or_nil_spec in EB.
  - unfold mbind, action_bind. destruct (with_balances markets s1) as [s2 [l|e|p]] eqn:EW;
      apply IH in EW as [HS HL]; intros [= <- <-]; (split; [by etrans|]); [|done..].
    intros l' [= <-]. cbn. by rewrite (HL _ eq_refl).
  - intros [= <- <-]. split; [done | by intros].
  - intros [= <- <-]. split; [done | by intros].
Qed.

(** Listing the markets shows every market of the store, whatever the wallet
    answers, and changes no store. *)
Lemma list_markets_spec (s s' : St) o :
  op_ListMarkets s = (s', o) →
  same_stores s s' ∧
  ∀ l, o = Ret l → GetAllMarkets (op_markets (os_op s)) = Ret l.*1.
Proof.
  unfold op_ListMarkets, mbind, action_bind at 1, on_operator, read_op_markets.
  destruct (GetAllMarkets _) as [ms|e|p] eqn:EG; [|by intros [= <- <-]..].
  intros HW. apply with_balances_spec in HW as [HS HL]. split; [exact HS|].
  intros l ->. by rewrite (HL _ eq_refl).
Qed.
End listing_theorems.
