(* ===== verification/Handlers.v ===== *)
(** The gRPC handlers: internal/interfaces/grpc/handler, with the recovery of
    internal/interfaces/grpc/interceptor/interceptor.go.

    A handler parses its request (Requests.v), calls a service and turns the result
    into a message.  An error of a parser becomes a status InvalidArgument, an error
    of a service is returned as it is, and a panic is turned into a status Internal by
    the interceptor.  The handlers of a service are put together by an inductive type
    of its requests.  A stream is served to a client that stays connected; its progress
    messages are not kept.  time.Format is an argument. *)

From Stdlib Require Import ZArith Lia Ascii.
From stdpp Require Import base tactics strings list gmap.
From S2P Require Import Prelude Errors Decimal Formula Market Trade Repos SwapMsg Wallet TradeService Report Calendar Requests Operator TxEvents Listing.
Local Open Scope Z_scope.

(** * Errors *)

Definition InvalidArgument : Z := 3.
Definition Internal : Z := 13.
Inductive rpc_error :=
  | Status (code : Z) (e : error)
  | Plain (e : error)
  | Recovered (p : panic).        (* a status Internal with the panic's value *)

Section rpc.
Context {S : Type}.
(** [if err != nil { return nil, status.Error(codes.InvalidArgument, err.Error()) }] *)
Definition parsed {A} (m : outcome error A) : action S rpc_error A := λ s,
  (s, match m with Ret a => Ret a | Err e => Err (Status InvalidArgument e) | Panic p => Panic p end).
(** [if err != nil { return nil, err }] *)
Definition call {A} (m : action S error A) : action S rpc_error A := λ s,
  match m s with
  | (s', Ret a) => (s', Ret a)
  | (s', Err e) => (s', Err (Plain e))
  | (s', Panic p) => (s', Panic p)
  end.
(** grpc_recovery.UnaryServerInterceptor and StreamServerInterceptor. *)
Definition with_recovery {A} (m : action S rpc_error A) : action S rpc_error A := λ s,
  match m s with
  | (s', Panic p) => (s', Err (Recovered p))
  | r => r
  end.
End rpc.

(** * Messages of the answers *)

Record pb_Fee := { pf_PercentageFee : pb_MarketFee; pf_FixedFee : pb_MarketFee }.
Record pb_MarketWithFee := { mwf_Market : pb_Market; mwf_Fee : pb_Fee }.
Record pb_MarketInfo := {
  pmi_Market : pb_Market; pmi_Fee : pb_Fee; pmi_Tradable : bool; pmi_StrategyType : Z;
  pmi_Name : string; pmi_Price : pb_Price; pmi_Balance : gmap string Balance;
  pmi_BaseAssetPrecision : Z; pmi_QuoteAssetPrecision : Z }.
Record pb_Volume := { pv_BaseVolume : Z; pv_QuoteVolume : Z; pv_StartDate : string; pv_EndDate : string }.
Record pb_FeeInfo := {
  pfi_TradeId : string; pfi_PercentageFee : Z; pfi_FixedFee : Z; pfi_Asset : string; pfi_Amount : Z;
  pfi_MarketPrice : float64; pfi_RequestDate : string }.
Record pb_CollectedFees := {
  pcf_BaseAmount : Z; pcf_QuoteAmount : Z; pcf_StartDate : string; pcf_EndDate : string;
  pcf_FeesPerTrade : list pb_FeeInfo }.
Record pb_Report := {
  pr_TotalCollectedFees : pb_CollectedFees; pr_TotalVolume : pb_Volume; pr_VolumesPerFrame : list pb_Volume }.
Record pb_SwapInfo := {
  psi_AssetP : string; psi_AmountP : Z; psi_AssetR : string; psi_AmountR : Z;
  psi_FeeAsset : string; psi_FeeAmount : Z }.
Record pb_SwapFailInfo := { psf_FailureCode : Z; psf_FailureMessage : string }.
Record pb_TradeStatusInfo := { pts_Status : Z; pts_Failed : bool }.
Record pb_TradeInfo := {
  pti_TradeId : string; pti_TradeType : Z; pti_Status : pb_TradeStatusInfo;
  pti_SwapInfo : option pb_SwapInfo; pti_FailInfo : option pb_SwapFailInfo;
  pti_MarketWithFee : pb_MarketWithFee; pti_Price : pb_Price;
  pti_Timestamps : list Z;     (* request, accept, complete, settle, expiry *)
  pti_Dates : list string;     (* in the same order *)
  pti_Txid : string; pti_TxHex : string; pti_FeeAsset : string; pti_FeeAmount : Z }.
Record pb_Utxo := { pu_Hash : string; pu_Index : Z; pu_Asset : string; pu_Value : Z }.
Record pb_Transaction := {
  ptx_Txid : string; ptx_TotalAmountPerAsset : gmap string Z; ptx_Timestamp : Z; ptx_Date : string }.

Definition TRADE_STATUS_UNSPECIFIED : Z := 0.
Definition TRADE_STATUS_REQUEST : Z := 1.
Definition TRADE_STATUS_ACCEPT : Z := 2.
Definition TRADE_STATUS_COMPLETE : Z := 3.
Definition TRADE_STATUS_SETTLED : Z := 4.
Definition TRADE_STATUS_EXPIRED : Z := 5.

(** decimal's Float64: the nearest float64. *)
Class FloatOf (D : Type) := { dFloat64 : D → float64 }.

(** * types.go: answers *)

Section conversions.
Context {D : Type} `{DecimalOps D} `{!FloatOf D} `{SwapParser}.
(** time.Unix(t, 0).Format(time.RFC3339) and the same of a time.Time. *)
Variable Format_RFC3339 : Z → string.

Definition timestampToString (timestamp : Z) : string :=
  if timestamp =? 0 then "" else Format_RFC3339 timestamp.
Definition time_Format (t : Z) : string := Format_RFC3339 (t / Second).

Definition market_toProto (baseAsset quoteAsset : string) : pb_Market :=
  {| pbm_BaseAsset := baseAsset; pbm_QuoteAsset := quoteAsset |}.
Definition fee_toProto (f : MarketFee) : pb_MarketFee :=
  {| pbf_BaseAsset := i64 (fee_BaseAsset f); pbf_QuoteAsset := i64 (fee_QuoteAsset f) |}.
Definition marketFeeInfo_toProto (percentageFee fixedFee : MarketFee) : pb_Fee :=
  {| pf_PercentageFee := fee_toProto percentageFee; pf_FixedFee := fee_toProto fixedFee |}.
Definition marketPriceInfo_toProto (p : MarketPrice) : pb_Price := {|
  pbp_BasePrice := dFloat64 (GetBasePrice p : D); pbp_QuotePrice := dFloat64 (GetQuotePrice p : D) |}.
Definition zero_balance : Balance :=
  {| ConfirmedBalance := 0; UnconfirmedBalance := 0; LockedBalance := 0; TotalBalance := 0 |}.
Definition marketBalanceInfo_toProto (b : option Balance) : Balance := default zero_balance b.
Definition marketStrategyInfo_toProto (strategyType : Z) : Z :=
  if strategyType =? StrategyTypeBalanced then STRATEGY_TYPE_BALANCED
  else if strategyType =? StrategyTypePluggable then STRATEGY_TYPE_PLUGGABLE
  else STRATEGY_TYPE_UNSPECIFIED.
(** A nil balance is an empty map. *)
Definition marketInfo_toProto (info : Market * option (gmap string Balance)) : pb_MarketInfo :=
  let m := fst info in {|
  pmi_Market := market_toProto (BaseAsset m) (QuoteAsset m);
  pmi_Fee := marketFeeInfo_toProto (PercentageFee m) (FixedFee m);
  pmi_Tradable := Tradable m;
  pmi_StrategyType := marketStrategyInfo_toProto (StrategyType m);
  pmi_Name := Name m;
  pmi_Price := marketPriceInfo_toProto (Price m);
  pmi_Balance := (λ b, marketBalanceInfo_toProto (Some b)) <$> default ∅ (snd info);
  pmi_BaseAssetPrecision := u32 (BaseAssetPrecision m);
  pmi_QuoteAssetPrecision := u32 (QuoteAssetPrecision m) |}.
Definition marketWithFee (m : Market) : pb_MarketWithFee := {|
  mwf_Market := market_toProto (BaseAsset m) (QuoteAsset m);
  mwf_Fee := marketFeeInfo_toProto (PercentageFee m) (FixedFee m) |}.

Definition volumeInfo_toProto (v : marketVolumeInfo) : pb_Volume := {|
  pv_BaseVolume := v_base v; pv_QuoteVolume := v_quote v;
  pv_StartDate := time_Format (v_start v); pv_EndDate := time_Format (v_end v) |}.
Fixpoint feesPerTrade (fees : list (Trade * string)) : outcome error (list pb_FeeInfo) :=
  match fees with
  | [] => Ret []
  | (t, marketPrice) :: fees =>
      timestamp ← fee_GetTimestamp t;
      rest ← feesPerTrade fees;
      Ret ({| pfi_TradeId := tr_Id t; pfi_PercentageFee := fee_GetPercentageFee t;
              pfi_FixedFee := fee_GetFixedFee t; pfi_Asset := tr_FeeAsset t; pfi_Amount := tr_FeeAmount t;
              pfi_MarketPrice := dFloat64 (parse_or_zero marketPrice : D);
              pfi_RequestDate := Format_RFC3339 timestamp |} :: rest)
  end.
(** The report of a range. *)
Definition marketReportInfo_toProto (rangeStart rangeEnd : Z) (r : marketReport) : outcome error pb_Report :=
  fees ← feesPerTrade (r_tradeFees r);
  Ret {| pr_TotalCollectedFees := {|
           pcf_BaseAmount := r_totBaseFee r; pcf_QuoteAmount := r_totQuoteFee r;
           pcf_StartDate := time_Format rangeStart; pcf_EndDate := time_Format rangeEnd;
           pcf_FeesPerTrade := fees |};
         pr_TotalVolume := volumeInfo_toProto
           {| v_start := rangeStart; v_end := rangeEnd; v_base := r_totBaseVolume r; v_quote := r_totQuoteVolume r |};
         pr_VolumesPerFrame := volumeInfo_toProto <$> r_subVolumes r |}.

(** Every test of the status overwrites the one before. *)
Definition tradeStatusInfo_toProto (st : TradeStatus) : pb_TradeStatusInfo :=
  let status := TRADE_STATUS_UNSPECIFIED in
  let status := if status_IsRequest st then TRADE_STATUS_REQUEST else status in
  let status := if status_IsAccept st then TRADE_STATUS_ACCEPT else status in
  let status := if status_IsComplete st then TRADE_STATUS_COMPLETE else status in
  let status := if status_IsSettled st then TRADE_STATUS_SETTLED else status in
  let status := if status_IsExpired st then TRADE_STATUS_EXPIRED else status in
  {| pts_Status := status; pts_Failed := Failed st |}.
Definition swapInfo_toProto (r : option SwapRequest) : option pb_SwapInfo :=
  (λ r, {| psi_AssetP := sr_AssetP r; psi_AmountP := sr_AmountP r; psi_AssetR := sr_AssetR r;
           psi_AmountR := sr_AmountR r; psi_FeeAsset := sr_FeeAsset r; psi_FeeAmount := sr_FeeAmount r |}) <$> r.
Definition failInfo_toProto (f : option SwapFail) : option pb_SwapFailInfo :=
  (λ f, {| psf_FailureCode := sf_FailureCode f; psf_FailureMessage := sf_FailureMessage f |}) <$> f.
Definition tradeInfo_toProto (withHex : bool) (t : Trade) : outcome error pb_TradeInfo :=
  swap ← GetSwapInfo t;
  fail ← GetSwapFailInfo t;
  let times := [GetRequestTimestamp t; GetAcceptTimestamp t; GetCompleteTimestamp t;
                tr_SettlementTime t; tr_ExpiryTime t] in
  Ret {| pti_TradeId := tr_Id t;
         pti_TradeType := if tr_Type t =? TradeSell then TRADE_TYPE_SELL else TRADE_TYPE_BUY;
         pti_Status := tradeStatusInfo_toProto (tr_Status t);
         pti_SwapInfo := swapInfo_toProto swap; pti_FailInfo := failInfo_toProto fail;
         pti_MarketWithFee := {|
           mwf_Market := market_toProto (tr_MarketBaseAsset t) (tr_MarketQuoteAsset t);
           mwf_Fee := marketFeeInfo_toProto (tr_MarketPercentageFee t) (tr_MarketFixedFee t) |};
         pti_Price := marketPriceInfo_toProto (tr_MarketPrice t);
         pti_Timestamps := times; pti_Dates := timestampToString <$> times;
         pti_Txid := tr_TxId t; pti_TxHex := if withHex then tr_TxHex t else "";
         pti_FeeAsset := tr_FeeAsset t; pti_FeeAmount := tr_FeeAmount t |}.
Fixpoint tradesInfo_toProto (withHex : bool) (l : list Trade) : outcome error (list pb_TradeInfo) :=
  match l with
  | [] => Ret []
  | t :: l => x ← tradeInfo_toProto withHex t; r ← tradesInfo_toProto withHex l; Ret (x :: r)
  end.
Definition utxoInfo_toProto (u : Utxo) : pb_Utxo := {|
  pu_Hash := ut_Txid u; pu_Index := ut_Index u; pu_Asset := ut_Asset u; pu_Value := ut_Value u |}.
Definition depositsInfo_toProto (l : list Deposit) : list pb_Transaction :=
  (λ d, {| ptx_Txid := dp_TxID d; ptx_TotalAmountPerAsset := dp_TotAmountPerAsset d;
           ptx_Timestamp := dp_Timestamp d; ptx_Date := timestampToString (dp_Timestamp d) |}) <$> l.
Definition withdrawalsInfo_toProto (l : list Withdrawal) : list pb_Transaction :=
  (λ w, {| ptx_Txid := wd_TxID w; ptx_TotalAmountPerAsset := wd_TotAmountPerAsset w;
           ptx_Timestamp := wd_Timestamp w; ptx_Date := timestampToString (wd_Timestamp w) |}) <$> l.
End conversions.

(** * operator.go *)

Section operator_handlers.
Context {D : Type} `{DecimalOps D} `{!FloatOf D} `{SwapParser} `{Elements} `{MapOrder} `{WireLib}.
Context {M : Type} `{MarketRepository M} {T : Type} `{TradeRepository T}.
Context {W : Type} `{WalletPort W} `{!WalletAdmin W} `{!WalletUtxos W}.
Context {DS : Type} `{DepositRepository DS} {WS : Type} `{WithdrawalRepository WS}.
Variables (nativeAsset : string) (milliSatsPerByte : Z) (Hash160 : bytes → bytes).
Variables (Format_RFC3339 : Z → string) (Parse_RFC3339 : string → outcome error Z).
Abbreviation St := (OperatorState M T W DS WS).
Abbreviation handler := (action St rpc_error).

(** A call of the operator service. *)
Definition svc {A} (m : action (@OpState M W) error A) : handler A := call (on_operator m).

Definition deriveFeeAddresses (numOfAddresses : Z) : handler (list string) :=
  num ← parsed (parseNumOfAddresses numOfAddresses);
  svc (op_DeriveFeeAddresses num).
Definition listFeeAddresses : handler (list string) := svc op_ListFeeExternalAddresses.
Definition getFeeBalance : handler Balance :=
  b ← svc (op_GetFeeBalance nativeAsset);
  mret (marketBalanceInfo_toProto b).

(** The fields of a withdrawal, parsed in the handlers' order. *)
Definition parse_withdrawal (outputs : list output) (millisatsPerByte : Z) (password : string)
    : handler (list output * Z * string) :=
  outs ← parsed (parseOutputs outputs);
  msats ← parsed (parseMillisatsPerByte millisatsPerByte);
  pwd ← parsed (parsePassword password);
  mret (outs, msats, pwd).
Definition withdrawFee (outputs : list output) (millisatsPerByte : Z) (password : string) : handler string :=
  '(outs, msats, pwd) ← parse_withdrawal outputs millisatsPerByte password;
  svc (op_WithdrawFeeFunds pwd outs msats).

Definition newMarket (market : option pb_Market) (percentageFee fixedFee : option pb_MarketFee)
    (basePrecision quotePrecision strategyType : Z) (name : string) : handler () :=
  m ← parsed (parseMarket market);
  '(basePercentageFee, quotePercentageFee) ← parsed (parseMarketFee percentageFee);
  '(baseFixedFee, quoteFixedFee) ← parsed (parseMarketFee fixedFee);
  bp ← parsed (parsePrecision basePrecision);
  qp ← parsed (parsePrecision quotePrecision);
  strategy ← parsed (parseStrategy strategyType);
  _ ← svc (op_NewMarket Hash160 (pbm_BaseAsset m) (pbm_QuoteAsset m) name
             (u64 basePercentageFee) (u64 quotePercentageFee) (u64 baseFixedFee) (u64 quoteFixedFee)
             bp qp strategy);
  mret ().

Definition getMarketInfo (market : option pb_Market) : handler pb_MarketInfo :=
  m ← parsed (parseMarket market);
  info ← svc (op_GetMarketInfo (pbm_BaseAsset m) (pbm_QuoteAsset m));
  mret (marketInfo_toProto (D := D) info).
(** The number of addresses is not parsed. *)
Definition deriveMarketAddresses (market : option pb_Market) (numOfAddresses : Z) : handler (list string) :=
  m ← parsed (parseMarket market);
  svc (op_DeriveMarketAddresses (pbm_BaseAsset m) (pbm_QuoteAsset m) numOfAddresses).
Definition listMarketAddresses (market : option pb_Market) : handler (list string) :=
  m ← parsed (parseMarket market);
  svc (op_ListMarketExternalAddresses (pbm_BaseAsset m) (pbm_QuoteAsset m)).
Definition openMarket (market : option pb_Market) : handler () :=
  m ← parsed (parseMarket market); svc (op_OpenMarket (pbm_BaseAsset m) (pbm_QuoteAsset m)).
Definition closeMarket (market : option pb_Market) : handler () :=
  m ← parsed (parseMarket market); svc (op_CloseMarket (pbm_BaseAsset m) (pbm_QuoteAsset m)).
Definition dropMarket (market : option pb_Market) : handler () :=
  m ← parsed (parseMarket market); svc (op_DropMarket (pbm_BaseAsset m) (pbm_QuoteAsset m)).
Definition withdrawMarket (market : option pb_Market) (outputs : list output) (millisatsPerByte : Z)
    (password : string) : handler string :=
  m ← parsed (parseMarket market);
  '(outs, msats, pwd) ← parse_withdrawal outputs millisatsPerByte password;
  svc (op_WithdrawMarketFunds nativeAsset pwd (pbm_BaseAsset m) (pbm_QuoteAsset m) outs msats).

(** The report reads the clock once; [None] when the loop over the frames does not
    end within the fuel. *)
Definition getMarketReport (fuel : nat) (offset now : Z) (market : option pb_Market)
    (timeRange : option pb_TimeRange) (timeFrame : Z) : handler (option pb_Report) :=
  m ← parsed (parseMarket market);
  range ← parsed (parseTimeRange Parse_RFC3339 timeRange);
  frame ← parsed (parseTimeFrame timeFrame);
  let dates := timeRangeToDates Parse_RFC3339 offset now range in
  report ← call (read_stores (λ s : St,
    GetMarketReport fuel (op_markets (os_op s)) (os_trades s) (pbm_BaseAsset m) (pbm_QuoteAsset m) dates frame));
  match report, dates with
  | Some r, Ret (rangeStart, rangeEnd) =>
      p ← call (lift (marketReportInfo_toProto (D := D) Format_RFC3339 rangeStart rangeEnd r)); mret (Some p)
  | _, _ => mret None
  end.

Definition updateMarketPercentageFee (market : option pb_Market) (fee : option pb_MarketFee)
    : handler pb_MarketWithFee :=
  m ← parsed (parseMarket market);
  '(b, q) ← parsed (parseMarketFee fee);
  info ← svc (op_UpdateMarketPercentageFee (pbm_BaseAsset m) (pbm_QuoteAsset m) b q);
  mret (marketWithFee info).
Definition updateMarketFixedFee (market : option pb_Market) (fee : option pb_MarketFee)
    : handler pb_MarketWithFee :=
  m ← parsed (parseMarket market);
  '(b, q) ← parsed (parseMarketFee fee);
  info ← svc (op_UpdateMarketFixedFee (pbm_BaseAsset m) (pbm_QuoteAsset m) b q);
  mret (marketWithFee info).
(** The precisions are not parsed: any uint32 is passed on as an int. *)
Definition updateMarketAssetsPrecision (market : option pb_Market) (basePrecision quotePrecision : Z)
    : handler () :=
  m ← parsed (parseMarket market);
  _ ← svc (op_UpdateMarketAssetsPrecision (pbm_BaseAsset m) (pbm_QuoteAsset m) basePrecision quotePrecision);
  mret ().
Definition updateMarketPrice (market : option pb_Market) (price : option pb_Price) : handler () :=
  m ← parsed (parseMarket market);
  '(b, q) ← parsed (parsePrice (D := D) price);
  svc (op_UpdateMarketPrice (pbm_BaseAsset m) (pbm_QuoteAsset m) b q).
Definition updateMarketStrategy (market : option pb_Market) (strategyType : Z) : handler () :=
  m ← parsed (parseMarket market);
  strategy ← parsed (parseStrategySafe strategyType);
  _ ← svc (op_UpdateMarketStrategy (pbm_BaseAsset m) (pbm_QuoteAsset m) strategy);
  mret ().

Definition deriveFeeFragmenterAddresses (numOfAddresses : Z) : handler (list string) :=
  num ← parsed (parseNumOfAddresses numOfAddresses);
  svc (op_DeriveFeeFragmenterAddresses num).
Definition listFeeFragmenterAddresses : handler (list string) := svc op_ListFeeFragmenterExternalAddresses.
Definition balances_toProto (info : gmap string Balance) : gmap string Balance :=
  (λ b, marketBalanceInfo_toProto (Some b)) <$> info.
Definition getFeeFragmenterBalance : handler (gmap string Balance) :=
  info ← svc op_GetFeeFragmenterBalance; mret (balances_toProto info).
Definition feeFragmenterSplitFunds (maxFragments millisatsPerByte : Z) : handler () :=
  n ← parsed (parseMaxFragments maxFragments);
  msats ← parsed (parseMillisatsPerByte millisatsPerByte);
  _ ← svc (op_FeeFragmenterSplitFunds nativeAsset milliSatsPerByte n msats);
  mret ().
Definition withdrawFeeFragmenter (outputs : list output) (millisatsPerByte : Z) (password : string)
    : handler string :=
  '(outs, msats, pwd) ← parse_withdrawal outputs millisatsPerByte password;
  svc (op_WithdrawFeeFragmenterFunds pwd outs msats).

Definition deriveMarketFragmenterAddresses (numOfAddresses : Z) : handler (list string) :=
  num ← parsed (parseNumOfAddresses numOfAddresses);
  svc (op_DeriveMarketFragmenterAddresses num).
Definition listMarketFragmenterAddresses : handler (list string) := svc op_ListMarketFragmenterExternalAddresses.
Definition getMarketFragmenterBalance : handler (gmap string Balance) :=
  info ← svc op_GetMarketFragmenterBalance; mret (balances_toProto info).
Definition marketFragmenterSplitFunds (market : option pb_Market) (millisatsPerByte : Z) : handler () :=
  m ← parsed (parseMarket market);
  msats ← parsed (parseMillisatsPerByte millisatsPerByte);
  _ ← svc (op_MarketFragmenterSplitFunds (D := D) nativeAsset milliSatsPerByte
             (pbm_BaseAsset m) (pbm_QuoteAsset m) msats);
  mret ().
Definition withdrawMarketFragmenter (outputs : list output) (millisatsPerByte : Z) (password : string)
    : handler string :=
  '(outs, msats, pwd) ← parse_withdrawal outputs millisatsPerByte password;
  svc (op_WithdrawMarketFragmenterFunds nativeAsset pwd outs msats).

Definition listTrades (market : option pb_Market) (page : option pb_Page) (withHex : bool)
    : handler (list pb_TradeInfo) :=
  m ← parsed (parseMarket market);
  p ← parsed (parsePage page);
  trades ← call (op_ListTradesForMarket (pbm_BaseAsset m) (pbm_QuoteAsset m) p);
  call (lift (tradesInfo_toProto (D := D) Format_RFC3339 withHex trades)).
Definition listMarkets : handler (list pb_MarketInfo) :=
  infoList ← call op_ListMarkets; mret (marketInfo_toProto (D := D) <$> infoList).
Definition listUtxos (account : string) (page : option pb_Page) : handler (list pb_Utxo * list pb_Utxo) :=
  accountName ← parsed (parseAccountName account);
  p ← parsed (parsePage page);
  utxos ← call (op_ListUtxos accountName p);
  mret (utxoInfo_toProto <$> fst utxos, utxoInfo_toProto <$> snd utxos).
Definition listDeposits (account : string) (page : option pb_Page) : handler (string * list pb_Transaction) :=
  accountName ← parsed (parseAccountName account);
  p ← parsed (parsePage page);
  deposits ← call (op_ListDeposits accountName p);
  mret (accountName, depositsInfo_toProto Format_RFC3339 deposits).
(** The response is built before the error is looked at, and returned with it. *)
Definition listWithdrawals (account : string) (page : option pb_Page) : handler (string * list pb_Transaction) :=
  accountName ← parsed (parseAccountName account);
  p ← parsed (parsePage page);
  withdrawals ← call (op_ListWithdrawals accountName p);
  mret (accountName, withdrawalsInfo_toProto Format_RFC3339 withdrawals).
End operator_handlers.

(** * The operator's requests *)

Inductive OperatorRequest :=
  | DeriveFeeAddressesRequest (num : Z)
  | ListFeeAddressesRequest
  | GetFeeBalanceRequest
  | WithdrawFeeRequest (outputs : list output) (millisatsPerByte : Z) (password : string)
  | NewMarketRequest (market : option pb_Market) (percentageFee fixedFee : option pb_MarketFee)
      (basePrecision quotePrecision strategyType : Z) (name : string)
  | GetMarketInfoRequest (market : option pb_Market)
  | DeriveMarketAddressesRequest (market : option pb_Market) (num : Z)
  | ListMarketAddressesRequest (market : option pb_Market)
  | OpenMarketRequest (market : option pb_Market)
  | CloseMarketRequest (market : option pb_Market)
  | DropMarketRequest (market : option pb_Market)
  | WithdrawMarketRequest (market : option pb_Market) (outputs : list output) (millisatsPerByte : Z)
      (password : string)
  | UpdateMarketPercentageFeeRequest (market : option pb_Market) (fee : option pb_MarketFee)
  | UpdateMarketFixedFeeRequest (market : option pb_Market) (fee : option pb_MarketFee)
  | UpdateMarketAssetsPrecisionRequest (market : option pb_Market) (basePrecision quotePrecision : Z)
  | UpdateMarketPriceRequest (market : option pb_Market) (price : option pb_Price)
  | UpdateMarketStrategyRequest (market : option pb_Market) (strategyType : Z)
  | DeriveFeeFragmenterAddressesRequest (num : Z)
  | ListFeeFragmenterAddressesRequest
  | GetFeeFragmenterBalanceRequest
  | FeeFragmenterSplitFundsRequest (maxFragments millisatsPerByte : Z)
  | WithdrawFeeFragmenterRequest (outputs : list output) (millisatsPerByte : Z) (password : string)
  | DeriveMarketFragmenterAddressesRequest (num : Z)
  | ListMarketFragmenterAddressesRequest
  | GetMarketFragmenterBalanceRequest
  | MarketFragmenterSplitFundsRequest (market : option pb_Market) (millisatsPerByte : Z)
  | WithdrawMarketFragmenterRequest (outputs : list output) (millisatsPerByte : Z) (password : string)
  | ListMarketsRequest
  | ListTradesRequest (market : option pb_Market) (page : option pb_Page) (withHex : bool)
  | ListUtxosRequest (account : string) (page : option pb_Page)
  | ListDepositsRequest (account : string) (page : option pb_Page)
  | ListWithdrawalsRequest (account : string) (page : option pb_Page).

Inductive OperatorResponse :=
  | Done
  | Addresses (l : list string)
  | BalanceOf (b : Balance)
  | BalancesOf (b : gmap string Balance)
  | Txid (txid : string)
  | InfoOf (i : pb_MarketInfo)
  | InfosOf (l : list pb_MarketInfo)
  | FeeOf (m : pb_MarketWithFee)
  | TradesOf (l : list pb_TradeInfo)
  | UtxosOf (spendable locked : list pb_Utxo)
  | TransactionsOf (account : string) (l : list pb_Transaction).

Section dispatch.
Context {D : Type} `{DecimalOps D} `{!FloatOf D} `{SwapParser} `{Elements} `{MapOrder} `{WireLib}.
Context {M : Type} `{MarketRepository M} {T : Type} `{TradeRepository T}.
Context {W : Type} `{WalletPort W} `{!WalletAdmin W} `{!WalletUtxos W}.
Context {DS : Type} `{DepositRepository DS} {WS : Type} `{WithdrawalRepository WS}.
Variables (nativeAsset : string) (milliSatsPerByte : Z) (Hash160 : bytes → bytes).
Variable Format_RFC3339 : Z → string.
Abbreviation St := (OperatorState M T W DS WS).
Abbreviation handler := (action St rpc_error).

Definition reply {S E A B} (f : A → B) (m : action S E A) : action S E B := a ← m; mret (f a).

(** The operator interface, but for GetMarketReport: the exported methods of
    operatorHandler and the server that calls them. *)
Definition operator_server (r : OperatorRequest) : handler OperatorResponse :=
  match r with
  | DeriveFeeAddressesRequest num => reply Addresses (deriveFeeAddresses num)
  | ListFeeAddressesRequest => reply Addresses listFeeAddresses
  | GetFeeBalanceRequest => reply BalanceOf (getFeeBalance nativeAsset)
  | WithdrawFeeRequest outs msats pwd => reply Txid (withdrawFee outs msats pwd)
  | NewMarketRequest m pf ff bp qp st name => reply (λ _, Done) (newMarket Hash160 m pf ff bp qp st name)
  | GetMarketInfoRequest m => reply InfoOf (getMarketInfo (D := D) m)
  | DeriveMarketAddressesRequest m num => reply Addresses (deriveMarketAddresses m num)
  | ListMarketAddressesRequest m => reply Addresses (listMarketAddresses m)
  | OpenMarketRequest m => reply (λ _, Done) (openMarket m)
  | CloseMarketRequest m => reply (λ _, Done) (closeMarket m)
  | DropMarketRequest m => reply (λ _, Done) (dropMarket m)
  | WithdrawMarketRequest m outs msats pwd => reply Txid (withdrawMarket nativeAsset m outs msats pwd)
  | UpdateMarketPercentageFeeRequest m fee => reply FeeOf (updateMarketPercentageFee m fee)
  | UpdateMarketFixedFeeRequest m fee => reply FeeOf (updateMarketFixedFee m fee)
  | UpdateMarketAssetsPrecisionRequest m bp qp => reply (λ _, Done) (updateMarketAssetsPrecision m bp qp)
  | UpdateMarketPriceRequest m p => reply (λ _, Done) (updateMarketPrice (D := D) m p)
  | UpdateMarketStrategyRequest m st => reply (λ _, Done) (updateMarketStrategy m st)
  | DeriveFeeFragmenterAddressesRequest num => reply Addresses (deriveFeeFragmenterAddresses num)
  | ListFeeFragmenterAddressesRequest => reply Addresses listFeeFragmenterAddresses
  | GetFeeFragmenterBalanceRequest => reply BalancesOf getFeeFragmenterBalance
  | FeeFragmenterSplitFundsRequest n msats =>
      reply (λ _, Done) (feeFragmenterSplitFunds nativeAsset milliSatsPerByte n msats)
  | WithdrawFeeFragmenterRequest outs msats pwd => reply Txid (withdrawFeeFragmenter outs msats pwd)
  | DeriveMarketFragmenterAddressesRequest num => reply Addresses (deriveMarketFragmenterAddresses num)
  | ListMarketFragmenterAddressesRequest => reply Addresses listMarketFragmenterAddresses
  | GetMarketFragmenterBalanceRequest => reply BalancesOf getMarketFragmenterBalance
  | MarketFragmenterSplitFundsRequest m msats =>
      reply (λ _, Done) (marketFragmenterSplitFunds (D := D) nativeAsset milliSatsPerByte m msats)
  | WithdrawMarketFragmenterRequest outs msats pwd =>
      reply Txid (withdrawMarketFragmenter nativeAsset outs msats pwd)
  | ListMarketsRequest => reply InfosOf (listMarkets (D := D))
  | ListTradesRequest m p withHex => reply TradesOf (listTrades (D := D) Format_RFC3339 m p withHex)
  | ListUtxosRequest a p => reply (λ l, UtxosOf (fst l) (snd l)) (listUtxos a p)
  | ListDepositsRequest a p => reply (λ l, TransactionsOf (fst l) (snd l)) (listDeposits Format_RFC3339 a p)
  | ListWithdrawalsRequest a p => reply (λ l, TransactionsOf (fst l) (snd l)) (listWithdrawals Format_RFC3339 a p)
  end.
End dispatch.

(** * Specification of valid requests *)

(** The hex encoding of [n] bytes, in either case. *)
Definition hex_string (n : nat) (s : string) : Prop :=
  String.length s = (2 * n)%nat ∧ Forall (λ c, is_Some (fromHexChar c)) (String.list_ascii_of_string s).

Section valid.
Context `{WireLib}.
Definition valid_market (m : option pb_Market) : Prop :=
  match m with Some m => hex_string 32 (pbm_BaseAsset m) ∧ hex_string 32 (pbm_QuoteAsset m) | None => False end.
(** -1 keeps a fee as it is; not both. *)
Definition valid_fee (f : option pb_MarketFee) : Prop :=
  match f with
  | None => True
  | Some f => -1 ≤ pbf_BaseAsset f ∧ -1 ≤ pbf_QuoteAsset f ∧ ¬ (pbf_BaseAsset f = -1 ∧ pbf_QuoteAsset f = -1)
  end.
Definition empty_or (check : bytes → bool) (s : string) : Prop :=
  s = ""%string ∨ ∃ b, decode_hex s = Some b ∧ check b = true.
Definition valid_output (o : output) : Prop :=
  hex_string 32 (o_asset o) ∧ empty_or ParseScript (o_script o) ∧
  empty_or ParsePubKey (o_blindKey o) ∧ o_amount o < 2 ^ 63.
Definition valid_withdrawal (outs : list output) (msats : Z) (pwd : string) : Prop :=
  Forall valid_output outs ∧ msats < 2 ^ 63 ∧ (8 ≤ String.length pwd)%nat.
Definition valid_page (p : option pb_Page) : Prop :=
  match p with None => True | Some p => 0 ≤ pbg_Number p ∧ 0 < pbg_Size p end.
Definition positive_float (f : float64) : Prop := ∃ m e, f = Finite m e ∧ 0 < m.
Definition valid_price (p : option pb_Price) : Prop :=
  match p with None => False | Some p => positive_float (pbp_BasePrice p) ∧ positive_float (pbp_QuotePrice p) end.

Definition valid_request (r : OperatorRequest) : Prop :=
  match r with
  | DeriveFeeAddressesRequest num | DeriveFeeFragmenterAddressesRequest num
  | DeriveMarketFragmenterAddressesRequest num => 0 ≤ num
  | ListFeeAddressesRequest | GetFeeBalanceRequest | ListFeeFragmenterAddressesRequest
  | GetFeeFragmenterBalanceRequest | ListMarketFragmenterAddressesRequest
  | GetMarketFragmenterBalanceRequest | ListMarketsRequest => True
  | WithdrawFeeRequest outs msats pwd | WithdrawFeeFragmenterRequest outs msats pwd
  | WithdrawMarketFragmenterRequest outs msats pwd => valid_withdrawal outs msats pwd
  | NewMarketRequest m pf ff bp qp st _ =>
      valid_market m ∧ valid_fee pf ∧ valid_fee ff ∧ bp ≤ 8 ∧ qp ≤ 8 ∧ 0 ≤ st ≤ 2
  | GetMarketInfoRequest m | DeriveMarketAddressesRequest m _ | ListMarketAddressesRequest m
  | OpenMarketRequest m | CloseMarketRequest m | DropMarketRequest m
  | UpdateMarketAssetsPrecisionRequest m _ _ => valid_market m
  | WithdrawMarketRequest m outs msats pwd => valid_market m ∧ valid_withdrawal outs msats pwd
  | UpdateMarketPercentageFeeRequest m f | UpdateMarketFixedFeeRequest m f => valid_market m ∧ valid_fee f
  | UpdateMarketPriceRequest m p => valid_market m ∧ valid_price p
  | UpdateMarketStrategyRequest m st => valid_market m ∧ 1 ≤ st ≤ 2
  | FeeFragmenterSplitFundsRequest n msats => n < 2 ^ 63 ∧ msats < 2 ^ 63
  | MarketFragmenterSplitFundsRequest m msats => valid_market m ∧ msats < 2 ^ 63
  | ListTradesRequest m p _ => valid_market m ∧ valid_page p
  | ListUtxosRequest a p | ListDepositsRequest a p | ListWithdrawalsRequest a p => a ≠ ""%string ∧ valid_page p
  end.

(** The uint64 fields of a request are uint64s. *)
Definition well_typed (r : OperatorRequest) : Prop :=
  match r with
  | WithdrawFeeRequest outs msats _ | WithdrawFeeFragmenterRequest outs msats _
  | WithdrawMarketFragmenterRequest outs msats _ | WithdrawMarketRequest _ outs msats _ =>
      Forall (λ o, is_u64 (o_amount o)) outs ∧ is_u64 msats
  | FeeFragmenterSplitFundsRequest n msats => is_u64 n ∧ is_u64 msats
  | MarketFragmenterSplitFundsRequest _ msats => is_u64 msats
  | _ => True
  end.
End valid.

(** * Theorems: parsers *)

(** [m] returns [a] exactly when [P] holds; else it fails, or panics for [X]. *)
Definition checks {A} (m : outcome error A) (P X : Prop) (a : A) : Prop :=
  match m with
  | Ret b => P ∧ b = a
  | Err _ => ¬ P
  | Panic p => ¬ P ∧ X ∧ p = NotFinite
  end.

#[global] Instance checks_proper {A} (m : outcome error A) : Proper (iff ==> iff ==> eq ==> iff) (checks m).
Proof. intros P P' HP X X' HX a a' <-. unfold checks. destruct m; rewrite ?HP, ?HX; done. Qed.

Lemma hex_decode_spec s :
  match decode_hex s with
  | Some b => hex_string (length b) s
  | None => ¬ ∃ n, hex_string n s
  end.
Proof.
  unfold decode_hex, hex_string.
  assert (∀ n s, (String.length s ≤ n)%nat →
    match (let '(b, ok) := hex_DecodeString s in if ok then Some b else None) with
    | Some b => String.length s = (2 * length b)%nat ∧ Forall (λ c, is_Some (fromHexChar c)) (String.list_ascii_of_string s)
    | None => ¬ ∃ n, String.length s = (2 * n)%nat ∧ Forall (λ c, is_Some (fromHexChar c)) (String.list_ascii_of_string s)
    end) as Hgen; [|by apply (Hgen (String.length s))].
  induction n as [|n IH]; intros [|a [|b r]] Hn; cbn in Hn; try lia; cbn [hex_DecodeString].
  1, 2: by cbn.
  - intros (k & Hk & _). cbn in Hk. lia.
  - destruct (fromHexChar a) as [x|] eqn:Ea; [destruct (fromHexChar b) as [y|] eqn:Eb|].
    + specialize (IH r ltac:(lia)). destruct (hex_DecodeString r) as [l []].
      * destruct IH as [HL HF]. cbn. split; [lia|]. repeat constructor; rewrite ?Ea, ?Eb; eauto.
      * intros (k & Hk & HF). apply IH. exists (k - 1)%nat. cbn in *. split; [lia|].
        by inversion_clear HF as [|?? _ HF']; inversion_clear HF'.
    + intros (k & _ & HF). inversion_clear HF as [|?? _ HF']. inversion_clear HF' as [|?? [? Hb]]. congruence.
    + intros (k & _ & HF). inversion_clear HF as [|?? [? Ha]]. congruence.
Qed.

Lemma valid_asset_spec s : req_isValidAsset s = true ↔ hex_string 32 s.
Proof.
  unfold req_isValidAsset. pose proof (hex_decode_spec s) as HS. destruct (decode_hex s) as [b|].
  - rewrite Nat.eqb_eq. split; [by intros <-|]. unfold hex_string in *. intros [HL _]. destruct HS; lia.
  - split; [done|]. intros HV. destruct HS. eauto.
Qed.
Lemma valid_asset_false s : req_isValidAsset s = false ↔ ¬ hex_string 32 s.
Proof. rewrite <- valid_asset_spec. by destruct (req_isValidAsset s). Qed.

(** The handlers and the domain agree on what an asset is. *)
Lemma same_asset_check s : req_isValidAsset s = Market.isValidAsset s.
Proof.
  unfold req_isValidAsset, Market.isValidAsset, decode_hex. by destruct (hex_DecodeString s) as [b []].
Qed.

Lemma valid_amount_spec z : is_u64 z → isValidAmount z = true ↔ z < 2 ^ 63.
Proof.
  unfold isValidAmount. intros Hz. rewrite Z.leb_le. split.
  - intros Hi. pose proof (i64_range z) as HR. rewrite i64_nonneg_u64 in HR by done. unfold is_i64 in HR. lia.
  - intros Hlt. rewrite i64_u64; destruct Hz; lia.
Qed.

Lemma empty_or_spec check s :
  (if (String.length s <=? 0)%nat then true
   else match decode_hex s with None => false | Some buf => check buf end) = true ↔ empty_or check s.
Proof.
  unfold empty_or. destruct s as [|c s]; cbn [String.length Nat.leb]; [naive_solver|].
  destruct (decode_hex (String c s)) as [b|]; naive_solver.
Qed.

Section parsers.
Context `{WireLib}.

Lemma check_market m : checks (parseMarket m) (valid_market m) False (default {| pbm_BaseAsset := ""; pbm_QuoteAsset := "" |} m).
Proof.
  unfold parseMarket, valid_market. destruct m as [m|]; cbn; [|by intros []].
  destruct (req_isValidAsset (pbm_BaseAsset m)) eqn:Eb; cbn; [|apply valid_asset_false in Eb; naive_solver].
  destruct (req_isValidAsset (pbm_QuoteAsset m)) eqn:Eq; cbn; [|apply valid_asset_false in Eq; naive_solver].
  apply valid_asset_spec in Eb, Eq. done.
Qed.

Definition fee_values (f : option pb_MarketFee) : Z * Z :=
  match f with None => (0, 0) | Some f => (pbf_BaseAsset f, pbf_QuoteAsset f) end.
Lemma check_fee f : checks (parseMarketFee f) (valid_fee f) False ((fee_values f).1, (fee_values f).2).
Proof.
  unfold parseMarketFee, valid_fee, fee_values. destruct f as [f|]; cbn; [|done].
  destruct (Z.ltb_spec (pbf_BaseAsset f) (-1)); cbn; [lia|].
  destruct (Z.ltb_spec (pbf_QuoteAsset f) (-1)); cbn; [lia|].
  destruct (Z.eqb_spec (pbf_BaseAsset f) (-1)), (Z.eqb_spec (pbf_BaseAsset f) (pbf_QuoteAsset f)); cbn;
    try (split; [|done]); lia.
Qed.

Lemma check_strategy st : checks (parseStrategy st) (0 ≤ st ≤ 2) False st.
Proof.
  unfold parseStrategy, STRATEGY_TYPE_BALANCED, STRATEGY_TYPE_PLUGGABLE, STRATEGY_TYPE_UNSPECIFIED,
    StrategyTypeBalanced, StrategyTypePluggable, StrategyTypeUndefined.
  destruct (Z.eqb_spec st 2), (Z.eqb_spec st 1), (Z.eqb_spec st 0); cbn; lia.
Qed.
Lemma check_strategy_safe st : checks (parseStrategySafe st) (1 ≤ st ≤ 2) False st.
Proof.
  unfold parseStrategySafe. pose proof (check_strategy st) as HC. destruct (parseStrategy st) as [s|e|p]; cbn in *.
  - destruct HC as [Hs ->]. unfold StrategyTypeUndefined. destruct (Z.eqb_spec st 0); cbn; lia.
  - lia.
  - destruct HC as (_ & [] & _).
Qed.
Lemma check_precision p : checks (parsePrecision p) (p ≤ 8) False p.
Proof. unfold parsePrecision. destruct (Z.ltb_spec 8 p); cbn; lia. Qed.
Lemma check_num n : checks (parseNumOfAddresses n) (0 ≤ n) False (if n =? 0 then 1 else n).
Proof.
  unfold parseNumOfAddresses. destruct (Z.ltb_spec n 0); cbn; [lia|]. by destruct (Z.eqb_spec n 0).
Qed.

Lemma check_int64 msg z : is_u64 z → checks (if i64 z <? 0 then new_error msg else Ret z) (z < 2 ^ 63) False z.
Proof.
  intros Hz. pose proof (valid_amount_spec z Hz) as HV. unfold isValidAmount in HV.
  rewrite Z.leb_le in HV. destruct (Z.ltb_spec (i64 z) 0); cbn; [|split; [|done]]; rewrite <- HV; lia.
Qed.

Lemma check_password p : checks (parsePassword p) (8 ≤ String.length p)%nat False p.
Proof.
  unfold parsePassword, isValidPassword. destruct (Nat.leb_spec (String.length p) 0); cbn [checks new_error]; [lia|].
  destruct (Nat.leb_spec 8 (String.length p)); cbn [checks new_error negb]; [done | lia].
Qed.
Lemma check_account a : checks (parseAccountName a) (a ≠ ""%string) False a.
Proof. unfold parseAccountName, isValidAccount. by destruct a; cbn; [naive_solver|]. Qed.
Lemma check_page p : checks (parsePage p) (valid_page p) False (pageInfo <$> p).
Proof.
  unfold parsePage, valid_page. destruct p as [p|]; cbn; [|done].
  destruct (Z.ltb_spec (pbg_Number p) 0); cbn; [lia|].
  destruct (Z.leb_spec (pbg_Size p) 0); cbn; [lia | done].
Qed.

Lemma check_outputs outs :
  Forall (λ o, is_u64 (o_amount o)) outs → checks (parseOutputs outs) (Forall valid_output outs) False outs.
Proof.
  induction 1 as [|o outs Ho _ IH]; cbn [parseOutputs]; [done|].
  rewrite Forall_cons. unfold valid_output at 1.
  destruct (req_isValidAsset (o_asset o)) eqn:Ea; cbn [negb checks new_error];
    [apply valid_asset_spec in Ea | apply valid_asset_false in Ea; naive_solver].
  destruct (isValidScript (o_script o)) eqn:Es; cbn [negb checks new_error];
    [apply empty_or_spec in Es | rewrite <- empty_or_spec; unfold isValidScript in Es; naive_solver congruence].
  destruct (isValidBlindKey (o_blindKey o)) eqn:Ek; cbn [negb checks new_error];
    [apply empty_or_spec in Ek | rewrite <- (empty_or_spec ParsePubKey); unfold isValidBlindKey in Ek; naive_solver congruence].
  destruct (isValidAmount (o_amount o)) eqn:Em; cbn [negb checks new_error];
    [apply valid_amount_spec in Em; [|done] | rewrite <- (valid_amount_spec _ Ho); naive_solver congruence].
  destruct (parseOutputs outs) as [l|e|p]; cbn in *; [|naive_solver..].
  destruct IH as [HF ->]. done.
Qed.

Definition infinite (p : option pb_Price) : Prop :=
  match p with Some p => pbp_BasePrice p = PosInf ∨ pbp_QuotePrice p = PosInf | None => False end.
Definition price_values {D} `{DecimalOps D} (p : option pb_Price) : D * D :=
  match p with
  | Some {| pbp_BasePrice := Finite m e; pbp_QuotePrice := Finite m' e' |} => (NewFromFloat m e, NewFromFloat m' e')
  | _ => (dZero, dZero)
  end.
Lemma check_price {D} `{DecimalOps D} p : checks (parsePrice p) (valid_price p) (infinite p)
    ((price_values (D := D) p).1, (price_values (D := D) p).2).
Proof.
  unfold parsePrice, valid_price, infinite, positive_float. destruct p as [[b q]|]; cbn; [|naive_solver].
  destruct b as [m e| | |]; cbn; [destruct (Z.ltb_spec 0 m)| | |]; cbn; try naive_solver lia.
  all: destruct q as [m' e'| | |]; cbn; [destruct (Z.ltb_spec 0 m')| | |]; cbn; naive_solver lia.
Qed.
End parsers.

Create HintDb checks.
Create HintDb handlers.
#[export] Hint Resolve check_market check_fee check_strategy check_strategy_safe check_precision check_num
  check_int64 check_password check_account check_page check_outputs check_price : checks.
#[export] Hint Unfold parseMillisatsPerByte parseMaxFragments : checks.

(** * Theorems: handlers *)

(** [h] does [k] when [P] holds; else it returns InvalidArgument and changes nothing,
    or panics for [X]. *)
Definition guarded {S A} (h : action S rpc_error A) (P X : Prop) (k : action S rpc_error A) : Prop :=
  ∀ s, (P ∧ h s = k s) ∨
       (¬ P ∧ ((∃ e, h s = (s, Err (Status InvalidArgument e))) ∨ (X ∧ h s = (s, Panic NotFinite)))).

Section guards.
Context {S : Type}.
Lemma guarded_true {A} (k : action S rpc_error A) : guarded k True False k.
Proof. intros s. by left. Qed.

Lemma guarded_bind {A B} (m : outcome error A) (f : A → action S rpc_error B) P Q X Y a k :
  checks m P X a → guarded (f a) Q Y k → guarded (mbind f (parsed m)) (P ∧ Q) (X ∨ P ∧ Y) k.
Proof.
  intros HC HG s. unfold mbind, action_bind, parsed. destruct m as [b|e|p]; cbn in HC.
  - destruct HC as [HP ->]. destruct (HG s) as [[HQ HE]|[HQ [HE|[HY HE]]]]; [left | right..]; naive_solver.
  - right. naive_solver.
  - right. naive_solver.
Qed.
Lemma guarded_last {A B} (m : outcome error A) (f : A → action S rpc_error B) P X a :
  checks m P X a → guarded (mbind f (parsed m)) P X (f a).
Proof.
  intros HC s. destruct (guarded_bind m f P True X False a (f a) HC (guarded_true _) s) as [?|?];
    [left | right]; naive_solver.
Qed.
Lemma guarded_reply {A B} (f : A → B) (h k : action S rpc_error A) P X :
  guarded h P X k → guarded (reply f h) P X (reply f k).
Proof.
  intros HG s. unfold reply, mbind, action_bind.
  destruct (HG s) as [[HP ->]|[HP [[e ->]|[HX ->]]]]; [by left | right; naive_solver ..].
Qed.
Lemma guarded_iff {A} (h k : action S rpc_error A) P P' X X' :
  P ↔ P' → X ↔ X' → guarded h P X k → guarded h P' X' k.
Proof. intros HP HX HG s. specialize (HG s). rewrite <- HP, <- HX. done. Qed.
Lemma guarded_eq {A} (h k k' : action S rpc_error A) P X :
  (∀ s, k s = k' s) → guarded h P X k → guarded h P X k'.
Proof. intros HK HG s. rewrite <- HK. apply HG. Qed.
Lemma guarded_Ret {A} (h k : action S rpc_error A) P X s s' a :
  guarded h P X k → h s = (s', Ret a) → P ∧ k s = (s', Ret a).
Proof. intros HG HR. specialize (HG s). rewrite HR in HG. naive_solver. Qed.
Lemma guarded_assoc {A B C} (m : action S rpc_error A) (f : A → action S rpc_error B)
    (g : B → action S rpc_error C) P X k :
  guarded (mbind (λ a, mbind g (f a)) m) P X k → guarded (mbind g (mbind f m)) P X k.
Proof.
  intros HG s. specialize (HG s). unfold mbind, action_bind in *. by destruct (m s) as [s' [a|e|p]].
Qed.
End guards.

Lemma reply_reply {T E A B C} (f : A → B) (g : B → C) (m : action T E A) s :
  reply g (a ← m; mret (f a)) s = reply (λ a, g (f a)) m s.
Proof. unfold reply, mbind, action_bind, mret, action_ret. by destruct (m s) as [s' []]. Qed.

Section requests.
Context {D : Type} `{DecimalOps D} `{!FloatOf D} `{SwapParser} `{Elements} `{MapOrder} `{WireLib}.
Context {M : Type} `{MarketRepository M} {T : Type} `{TradeRepository T}.
Context {W : Type} `{WalletPort W} `{!WalletAdmin W} `{!WalletUtxos W}.
Context {DS : Type} `{DepositRepository DS} {WS : Type} `{WithdrawalRepository WS}.
Variables (nativeAsset : string) (milliSatsPerByte : Z) (Hash160 : bytes → bytes).
Variable Format_RFC3339 : Z → string.
Abbreviation St := (OperatorState M T W DS WS).
Abbreviation handler := (action St rpc_error).
Abbreviation serve := (operator_server (D := D) nativeAsset milliSatsPerByte Hash160 Format_RFC3339).

#[local] Hint Unfold deriveFeeAddresses listFeeAddresses getFeeBalance withdrawFee newMarket getMarketInfo
  deriveMarketAddresses listMarketAddresses openMarket closeMarket dropMarket withdrawMarket
  updateMarketPercentageFee updateMarketFixedFee updateMarketAssetsPrecision updateMarketPrice
  updateMarketStrategy deriveFeeFragmenterAddresses listFeeFragmenterAddresses getFeeFragmenterBalance
  feeFragmenterSplitFunds withdrawFeeFragmenter deriveMarketFragmenterAddresses listMarketFragmenterAddresses
  getMarketFragmenterBalance marketFragmenterSplitFunds withdrawMarketFragmenter listTrades listMarkets
  listUtxos listDeposits listWithdrawals : handlers.

Definition base_of (m : option pb_Market) : string := match m with Some m => pbm_BaseAsset m | None => "" end.
Definition quote_of (m : option pb_Market) : string := match m with Some m => pbm_QuoteAsset m | None => "" end.
Definition at_least_one (num : Z) : Z := if num =? 0 then 1 else num.

(** What the service is asked for by a valid request: the operation of the operator
    service on the request's own data, and the answer. *)
Definition answer (r : OperatorRequest) : handler OperatorResponse :=
  match r with
  | DeriveFeeAddressesRequest num => reply Addresses (svc (op_DeriveFeeAddresses (at_least_one num)))
  | ListFeeAddressesRequest => reply Addresses (svc (on_op_wallet (ListAddresses FeeAccount)))
  | GetFeeBalanceRequest => reply (λ b, BalanceOf (default zero_balance b)) (svc (op_GetFeeBalance nativeAsset))
  | WithdrawFeeRequest outs msats pwd => reply Txid (svc (op_WithdrawFeeFunds pwd outs msats))
  | NewMarketRequest m pf ff bp qp st name =>
      reply (λ _, Done) (svc (op_NewMarket Hash160 (base_of m) (quote_of m) name
        (u64 (fee_values pf).1) (u64 (fee_values pf).2) (u64 (fee_values ff).1) (u64 (fee_values ff).2) bp qp st))
  | GetMarketInfoRequest m =>
      reply (λ i, InfoOf (marketInfo_toProto (D := D) i)) (svc (op_GetMarketInfo (base_of m) (quote_of m)))
  | DeriveMarketAddressesRequest m num =>
      reply Addresses (svc (op_DeriveMarketAddresses (base_of m) (quote_of m) num))
  | ListMarketAddressesRequest m => reply Addresses (svc (op_ListMarketExternalAddresses (base_of m) (quote_of m)))
  | OpenMarketRequest m => reply (λ _, Done) (svc (op_OpenMarket (base_of m) (quote_of m)))
  | CloseMarketRequest m => reply (λ _, Done) (svc (op_CloseMarket (base_of m) (quote_of m)))
  | DropMarketRequest m => reply (λ _, Done) (svc (op_DropMarket (base_of m) (quote_of m)))
  | WithdrawMarketRequest m outs msats pwd =>
      reply Txid (svc (op_WithdrawMarketFunds nativeAsset pwd (base_of m) (quote_of m) outs msats))
  | UpdateMarketPercentageFeeRequest m f =>
      reply (λ i, FeeOf (marketWithFee i))
        (svc (op_UpdateMarketPercentageFee (base_of m) (quote_of m) (fee_values f).1 (fee_values f).2))
  | UpdateMarketFixedFeeRequest m f =>
      reply (λ i, FeeOf (marketWithFee i))
        (svc (op_UpdateMarketFixedFee (base_of m) (quote_of m) (fee_values f).1 (fee_values f).2))
  | UpdateMarketAssetsPrecisionRequest m bp qp =>
      reply (λ _, Done) (svc (op_UpdateMarketAssetsPrecision (base_of m) (quote_of m) bp qp))
  | UpdateMarketPriceRequest m p =>
      reply (λ _, Done) (svc (op_UpdateMarketPrice (base_of m) (quote_of m)
        (price_values (D := D) p).1 (price_values (D := D) p).2))
  | UpdateMarketStrategyRequest m st =>
      reply (λ _, Done) (svc (op_UpdateMarketStrategy (base_of m) (quote_of m) st))
  | DeriveFeeFragmenterAddressesRequest num =>
      reply Addresses (svc (op_DeriveFeeFragmenterAddresses (at_least_one num)))
  | ListFeeFragmenterAddressesRequest => reply Addresses (svc (on_op_wallet (ListAddresses FeeFragmenterAccount)))
  | GetFeeFragmenterBalanceRequest => reply BalancesOf (svc (on_op_wallet (GetBalance FeeFragmenterAccount)))
  | FeeFragmenterSplitFundsRequest n msats =>
      reply (λ _, Done) (svc (op_FeeFragmenterSplitFunds nativeAsset milliSatsPerByte n msats))
  | WithdrawFeeFragmenterRequest outs msats pwd => reply Txid (svc (op_WithdrawFeeFragmenterFunds pwd outs msats))
  | DeriveMarketFragmenterAddressesRequest num =>
      reply Addresses (svc (op_DeriveMarketFragmenterAddresses (at_least_one num)))
  | ListMarketFragmenterAddressesRequest =>
      reply Addresses (svc (on_op_wallet (ListAddresses MarketFragmenterAccount)))
  | GetMarketFragmenterBalanceRequest => reply BalancesOf (svc (on_op_wallet (GetBalance MarketFragmenterAccount)))
  | MarketFragmenterSplitFundsRequest m msats =>
      reply (λ _, Done) (svc (op_MarketFragmenterSplitFunds (D := D) nativeAsset milliSatsPerByte (base_of m) (quote_of m) msats))
  | WithdrawMarketFragmenterRequest outs msats pwd =>
      reply Txid (svc (op_WithdrawMarketFragmenterFunds nativeAsset pwd outs msats))
  | ListMarketsRequest => reply (λ l, InfosOf (marketInfo_toProto (D := D) <$> l)) (call op_ListMarkets)
  | ListTradesRequest m p withHex =>
      reply TradesOf (call (trades ← op_ListTradesForMarket (base_of m) (quote_of m) (pageInfo <$> p);
                            lift (tradesInfo_toProto (D := D) Format_RFC3339 withHex trades)))
  | ListUtxosRequest a p =>
      reply (λ l, UtxosOf (utxoInfo_toProto <$> l.1) (utxoInfo_toProto <$> l.2)) (call (op_ListUtxos a (pageInfo <$> p)))
  | ListDepositsRequest a p =>
      reply (λ l, TransactionsOf a (depositsInfo_toProto Format_RFC3339 l)) (call (op_ListDeposits a (pageInfo <$> p)))
  | ListWithdrawalsRequest a p =>
      reply (λ l, TransactionsOf a (withdrawalsInfo_toProto Format_RFC3339 l)) (call (op_ListWithdrawals a (pageInfo <$> p)))
  end.

Definition asks_infinite_price (r : OperatorRequest) : Prop :=
  match r with UpdateMarketPriceRequest m p => valid_market m ∧ infinite p | _ => False end.

Lemma parse_withdrawal_bind {A} outs msats pwd (f : list output * Z * string → handler A) :
  Forall (λ o, is_u64 (o_amount o)) outs → is_u64 msats →
  guarded (mbind f (parse_withdrawal outs msats pwd)) (valid_withdrawal outs msats pwd) False (f (outs, msats, pwd)).
Proof.
  intros Ho Hm. unfold parse_withdrawal.
  eapply guarded_iff; [| |apply guarded_assoc; eapply guarded_bind; [by apply check_outputs|];
    apply guarded_assoc; eapply guarded_bind; [by apply check_int64|];
    apply guarded_assoc; eapply guarded_eq; [|eapply guarded_last, check_password]; done].
  - done.
  - naive_solver.
Qed.

Lemma reply_balances (m : handler (gmap string Balance)) s :
  reply BalancesOf (a ← m; mret (balances_toProto a)) s = reply BalancesOf m s.
Proof.
  rewrite reply_reply. unfold reply, mbind, action_bind. destruct (m s) as [s' [b|e|p]]; [|done..].
  do 3 f_equal. unfold balances_toProto, marketBalanceInfo_toProto; cbn. by rewrite map_fmap_id.
Qed.
Lemma reply_call_bind {A B C} (m : action St error A) (f : A → action St error B) (g : B → handler C) s :
  mbind g (mbind (λ a, call (f a)) (call m)) s = mbind g (call (mbind f m)) s.
Proof. unfold mbind, action_bind, call. by destruct (m s) as [s' []]. Qed.

(** Takes a handler apart: its parsers one after the other, then what it does. *)
Ltac take_apart := eapply guarded_iff; [| |eapply guarded_eq; [|apply guarded_reply;
  autounfold with checks handlers; repeat (first
    [ apply parse_withdrawal_bind; assumption
    | eapply guarded_bind; [solve [eauto with checks]|]; cbv beta iota zeta
    | apply guarded_true ])]].

End requests.

(** * Theorems: markets created over the interface *)

Section inversions.
Context {S : Type}.
Lemma parsed_Ret {A} (m : outcome error A) (s s' : S) a : parsed m s = (s', Ret a) → s' = s ∧ m = Ret a.
Proof. unfold parsed. destruct m; naive_solver. Qed.
Lemma call_Ret {A} (m : action S error A) s s' a : call m s = (s', Ret a) → m s = (s', Ret a).
Proof. unfold call. destruct (m s) as [s1 []]; naive_solver. Qed.
Lemma reply_Ret {A B} (f : A → B) (m : action S rpc_error A) s s' b :
  reply f m s = (s', Ret b) → ∃ a, m s = (s', Ret a) ∧ b = f a.
Proof. unfold reply. intros HR. apply action_bind_Ret in HR as (s1 & a & Hm & HR). injection HR as <- <-. eauto. Qed.
End inversions.

Lemma checks_Ret {A} (m : outcome error A) P X a b : checks m P X a → m = Ret b → P ∧ b = a.
Proof. by intros HC ->. Qed.

Section new_market.
Context {D : Type} `{DecimalOps D} `{!FloatOf D} `{WireLib}.
Context {M : Type} `{MarketRepositoryLaws M} {T : Type} `{TradeRepository T}.
Context {W : Type} `{WalletPort W} `{!WalletAdmin W} `{!WalletUtxos W}.
Context {DS : Type} `{DepositRepository DS} {WS : Type} `{WithdrawalRepository WS}.
Variable Hash160 : bytes → bytes.
Abbreviation St := (OperatorState M T W DS WS).

Lemma on_operator_Ret {A} (m : action (@OpState M W) error A) (s s' : St) a :
  on_operator m s = (s', Ret a) → m (os_op s) = (os_op s', Ret a).
Proof. unfold on_operator. destruct (m (os_op s)) as [o []]; naive_solver. Qed.

Lemma op_NewMarket_found b q n p1 p2 f1 f2 a1 a2 st (s s' : @OpState M W) m :
  op_NewMarket Hash160 b q n p1 p2 f1 f2 a1 a2 st s = (s', Ret m) →
  NewMarket Hash160 b q n p1 p2 f1 f2 a1 a2 st = Ret m ∧
  GetMarketByAssets (op_markets s') (BaseAsset m) (QuoteAsset m) = Ret m.
Proof.
  unfold op_NewMarket. intros HN. apply action_bind_Ret in HN as (s1 & found & _ & HN).
  destruct found; [done|]. act_inv HN. unfold try in *.
  destruct (on_markets (AddMarket _) _) as [s2 [[]|e|p]] eqn:EA; simplify_eq/=.
  - act_inv HN. match goal with E : add_account _ _ _ = _ |- _ => apply add_account_Ret in E as [_ ->] end.
    split; [done|]. revert EA. unfold on_markets.
    destruct (AddMarket _ _) as [ms [[]|e|p]] eqn:EM; intros [= <-]; cbn. by apply (add_found _ _ _ EM).
  - act_inv HN.
Qed.

(** The market a domain NewMarket builds. *)
Lemma NewMarket_fields b q n p1 p2 f1 f2 a1 a2 st m :
  NewMarket Hash160 b q n p1 p2 f1 f2 a1 a2 st = Ret m →
  BaseAsset m = b ∧ QuoteAsset m = q ∧ (n ≠ ""%string → Name m = n) ∧
  PercentageFee m = Build_MarketFee p1 p2 ∧ FixedFee m = Build_MarketFee f1 f2 ∧
  BaseAssetPrecision m = a1 ∧ QuoteAssetPrecision m = a2 ∧ Tradable m = false ∧ Price m = empty_price ∧
  (0 ≤ st ≤ 2 ∧ StrategyType m = if st =? 0 then 2 else st).
Proof.
  unfold NewMarket, isValidStrategy, StrategyTypeUndefined, StrategyTypeBalanced. intros HN. go_inv HN; zify_bool.
  all: match goal with HX : _ = Ret ?x |- _ => rename HX into HName end.
  all: case_bool_decide; simplify_eq/=; split_and!; try done; try lia.
  all: rewrite i64_id; [done | unfold is_i64; case_match; lia].
Qed.

Lemma strategy_roundtrip st : 1 ≤ st ≤ 2 → marketStrategyInfo_toProto st = st.
Proof.
  intros Hst. unfold marketStrategyInfo_toProto, StrategyTypeBalanced, StrategyTypePluggable,
    STRATEGY_TYPE_BALANCED, STRATEGY_TYPE_PLUGGABLE.
  destruct (Z.eqb_spec st 2); [done|]. destruct (Z.eqb_spec st 1); lia.
Qed.
Lemma fee_roundtrip z : is_i64 z → i64 (u64 z) = z.
Proof.
  intros Hz. unfold i64, u64. rewrite Zplus_mod_idemp_l. fold (i64 z). by apply i64_id.
Qed.

Definition wire_fee (f : option pb_MarketFee) : pb_MarketFee :=
  {| pbf_BaseAsset := (fee_values f).1; pbf_QuoteAsset := (fee_values f).2 |}.
Definition int64_fee (f : option pb_MarketFee) : Prop := is_i64 (fee_values f).1 ∧ is_i64 (fee_values f).2.

Lemma newMarket_guarded market pf ff bp qp st name :
  guarded (newMarket Hash160 market pf ff bp qp st name : action St rpc_error ())
    (valid_market market ∧ valid_fee pf ∧ valid_fee ff ∧ bp ≤ 8 ∧ qp ≤ 8 ∧ 0 ≤ st ≤ 2) False
    (_ ← svc (op_NewMarket Hash160 (base_of market) (quote_of market) name
        (u64 (fee_values pf).1) (u64 (fee_values pf).2) (u64 (fee_values ff).1) (u64 (fee_values ff).2) bp qp st);
     mret ()).
Proof.
  unfold newMarket. eapply guarded_iff; [| |eapply guarded_eq; [|
    repeat (first [eapply guarded_bind; [solve [eauto with checks]|]; cbv beta iota zeta | apply guarded_true])]].
  3: by destruct market. all: tauto.
Qed.
(** The domain refuses percentages that are not in [0, 9999]. *)
Lemma NewMarket_fees b q n p1 p2 f1 f2 a1 a2 st m :
  NewMarket Hash160 b q n p1 p2 f1 f2 a1 a2 st = Ret m →
  0 ≤ i64 p1 ≤ 9999 ∧ 0 ≤ i64 p2 ≤ 9999.
Proof. unfold NewMarket, isValidPercentageFee. intros HN. go_inv HN; zify_bool; lia. Qed.
Lemma stored_fee z : is_i64 z → -1 ≤ z → u64 z = if z =? -1 then 2 ^ 64 - 1 else z.
Proof.
  intros Hz Hge. unfold is_i64 in Hz. destruct (Z.eqb_spec z (-1)) as [->|]; [done|].
  apply u64_id. unfold is_u64. lia.
Qed.

(** a market created over the interface is the market that was asked for.  When
    NewMarket succeeds, GetMarketInfo for the same assets shows, whatever the wallet
    answers, these assets, the given name, the given fees and precisions, the given
    strategy or the balanced one when none was given, a closed market without price;
    and the store holds the fees as uint64: a fixed fee of -1, which elsewhere leaves
    a fee unchanged, is stored as 2^64 - 1. *)
Theorem created_market_shown market pf ff bp qp st name (s s' : St) :
  int64_fee pf → int64_fee ff → 0 ≤ bp < 2 ^ 32 → 0 ≤ qp < 2 ^ 32 →
  newMarket Hash160 market pf ff bp qp st name s = (s', Ret ()) →
  (∃ m, GetMarketByAssets (op_markets (os_op s')) (base_of market) (quote_of market) = Ret m ∧
     fee_BaseAsset (PercentageFee m) = (fee_values pf).1 ∧ fee_QuoteAsset (PercentageFee m) = (fee_values pf).2 ∧
     fee_BaseAsset (FixedFee m) = (if (fee_values ff).1 =? -1 then 2 ^ 64 - 1 else (fee_values ff).1) ∧
     fee_QuoteAsset (FixedFee m) = (if (fee_values ff).2 =? -1 then 2 ^ 64 - 1 else (fee_values ff).2)) ∧
  ∀ s2 o, getMarketInfo (D := D) market s' = (s2, o) →
    (∃ p, o = Panic p) ∨
    ∃ info, o = Ret info ∧
      Some (pmi_Market info) = market ∧
      pmi_Fee info = {| pf_PercentageFee := wire_fee pf; pf_FixedFee := wire_fee ff |} ∧
      pmi_Tradable info = false ∧ pmi_StrategyType info = (if st =? 0 then STRATEGY_TYPE_BALANCED else st) ∧
      (name ≠ ""%string → pmi_Name info = name) ∧
      pmi_Price info = marketPriceInfo_toProto (D := D) empty_price ∧
      pmi_BaseAssetPrecision info = bp ∧ pmi_QuoteAssetPrecision info = qp.
Proof.
  intros [Hp1 Hp2] [Hf1 Hf2] Hbp Hqp HN.
  apply (guarded_Ret _ _ _ _ _ _ _ (newMarket_guarded _ _ _ _ _ _ _)) in HN as [Hv HN].
  destruct Hv as (Hm & Hvp & Hvf & Hb8 & Hq8 & Hst).
  apply action_bind_Ret in HN as (s1 & m & HS & [= <-]).
  apply call_Ret, on_operator_Ret, op_NewMarket_found in HS as [HN Hfound].
  pose proof (NewMarket_fees _ _ _ _ _ _ _ _ _ _ _ HN) as Hpct.
  apply NewMarket_fields in HN as (Eb & Eq & En & Ep & Ef & E1 & E2 & Et & Epr & Es & Est).
  rewrite Eb, Eq in Hfound. split.
  - exists m. split; [done|]. rewrite Ep, Ef; cbn. rewrite !fee_roundtrip in Hpct by done.
    split_and!; [apply u64_id; unfold is_u64; lia .. | |]; apply stored_fee; try done;
      destruct ff as [f|]; cbn in *; lia.
  - intros s2 o HG. unfold getMarketInfo in HG.
    pose proof (check_market market) as HC. unfold mbind, action_bind at 1, parsed in HG.
    destruct (parseMarket market) as [mk| |]; [|by destruct (HC Hm) | by destruct HC as (_ & [] & _)].
    destruct HC as [_ ->].
    destruct market as [[mb mq]|]; [|done]. cbn in Hfound, HG.
    unfold svc, call, on_operator, op_GetMarketInfo, fetch_market, read_op_markets, mbind, action_bind in HG.
    rewrite Hfound in HG. unfold try in HG.
    destruct (on_op_wallet (GetBalance (Name m)) (os_op s1)) as [o2 [bal|e|p]]; cbn in HG;
      injection HG as <- <-; [right | right | left; eauto].
    all: eexists; split; [done|]; cbn; rewrite Eb, Eq, Ep, Ef, E1, E2, Et, Epr, Est; cbn.
    all: unfold marketFeeInfo_toProto, fee_toProto, wire_fee; cbn; rewrite !fee_roundtrip by done.
    all: unfold u32; rewrite !Z.mod_small by lia; split_and!; try done.
    all: rewrite strategy_roundtrip; [by destruct (st =? 0) | destruct (Z.eqb_spec st 0); lia].
Qed.
End new_market.

(** A price of plus infinity is not refused by the validation. *)
Lemma infinite_price_panics {D} `{DecimalOps D} {M} `{MarketRepository M} {T} `{TradeRepository T}
    {W} `{WalletPort W} `{!WalletAdmin W} {DS WS} m p (s : OperatorState M T W DS WS) :
  valid_market m → pbp_BasePrice p = PosInf → isValidPrice (pbp_QuotePrice p) = true →
  updateMarketPrice (D := D) m (Some p) s = (s, Panic NotFinite) ∧
  with_recovery (updateMarketPrice (D := D) m (Some p)) s = (s, Err (Recovered NotFinite)).
Proof.
  intros Hm Hb Hq. assert (updateMarketPrice (D := D) m (Some p) s = (s, Panic NotFinite)) as HE.
  { unfold updateMarketPrice, mbind, action_bind, parsed. pose proof (check_market m) as HC.
    destruct (parseMarket m) as [mk| |]; [|by destruct (HC Hm) | by destruct HC as (_ & [] & _)].
    cbn. rewrite Hb, Hq. done. }
  unfold with_recovery. by rewrite HE.
Qed.

(** * Pages *)

(** A page the interface accepts is the slice one expects, page 0 being page 1, as
    long as its bounds fit an int64. *)
Lemma accepted_page {A} p pg (l : list A) :
  parsePage (Some p) = Ret (Some pg) → Z.max 1 (pbg_Number p) * pbg_Size p < 2 ^ 63 →
  paginate (E := error) (Some pg) l
  = Ret (take (Z.to_nat (pbg_Size p)) (drop (Z.to_nat ((Z.max 1 (pbg_Number p) - 1) * pbg_Size p)) l)).
Proof.
  intros HP Hlt. destruct (checks_Ret _ _ _ _ _ (check_page (Some p)) HP) as [[Hn Hs] [= ->]].
  unfold paginate, pageInfo; cbn. destruct (Z.leb_spec (pbg_Size p) 0); [lia|].
  destruct (Z.ltb_spec (pbg_Size p) 0); [lia|].
  replace (if pbg_Number p <=? 0 then 1 else pbg_Number p) with (Z.max 1 (pbg_Number p))
    by (destruct (Z.leb_spec (pbg_Number p) 0); lia).
  rewrite page_window_slice by lia. done.
Qed.

(** Beyond an int64 the bounds wrap: the fifth page of size 2^62 is the first. *)
Example page_bounds_wrap (p := {| pbg_Number := 5; pbg_Size := 2 ^ 62 |}) :
  parsePage (Some p) = Ret (Some (pageInfo p)) ∧ startIndex (pageInfo p) = 0 ∧ endIndex (pageInfo p) = 2 ^ 62.
Proof. split_and!; vm_compute; reflexivity. Qed.

(** * Examples *)
Module HandlerExamples.
Import MarketExamples TradeExamples SwapExamples.

#[export] Instance float_of : FloatOf Fixed.t :=
  {| dFloat64 d := Finite (Fixed.coef d) (- Z.of_nat (Fixed.scale d)) |}.
#[export] Instance wire : WireLib := {| ParseScript _ := true; ParsePubKey b := (length b =? 33)%nat |}.
#[export] Instance utxos : WalletUtxos () := {| ListUtxos _ := mret ([], []) |}.
#[export] Instance port : WalletPort () := WalletExamples.port.
#[export] Instance admin : WalletAdmin () := OperatorExamples.admin.
#[export] Instance mrepo : MarketRepository InmemoryMarket.store := InmemoryMarket.repository (D := Fixed.t) (λ b, b).
#[export] Instance mrepo_laws : MarketRepositoryLaws InmemoryMarket.store := inmemory_market_laws (λ b, b).
#[export] Instance drepo : DepositRepository (gmap string Deposit) := inmemory_deposits (λ b, b).
#[export] Instance wrepo : WithdrawalRepository (gmap string Withdrawal) := inmemory_withdrawals.

Definition state0 : OperatorState InmemoryMarket.store InmemoryTrade.store () (gmap string Deposit) (gmap string Withdrawal) :=
  {| os_op := {| op_markets := InmemoryMarket.NewMarketRepositoryImpl; op_wallet := (); op_accounts := ∅ |};
     os_trades := InmemoryTrade.NewTradeRepositoryImpl; os_deposits := ∅; os_withdrawals := ∅ |}.
Definition pair : option pb_Market := Some {| pbm_BaseAsset := base; pbm_QuoteAsset := quote |}.


Definition fee (b q : Z) : option pb_MarketFee := Some {| pbf_BaseAsset := b; pbf_QuoteAsset := q |}.
Definition create := newMarket hash160 pair (fee 25 30) (fee (-1) 100) 8 2 0 "m" state0.
Definition state1 := fst create.

Lemma created : newMarket hash160 pair (fee 25 30) (fee (-1) 100) 8 2 0 "m" state0 = (state1, Ret ()).
Proof.
  assert (snd create = Ret ()) as E by (vm_compute; reflexivity).
  rewrite <- E. exact (surjective_pairing create).
Qed.

Lemma created_market_shown_witness :
  ∃ m, GetMarketByAssets (op_markets (os_op state1)) (base_of pair) (quote_of pair) = Ret m ∧
     fee_BaseAsset (FixedFee m) = if (fee_values (fee (-1) 100)).1 =? -1 then 2 ^ 64 - 1 else (fee_values (fee (-1) 100)).1.
Proof.
  destruct (created_market_shown (D := Fixed.t) hash160 pair (fee 25 30) (fee (-1) 100) 8 2 0 "m" state0 state1)
    as [(m & Hm & _ & _ & Hf & _) _];
    [split; unfold is_i64; cbn; lia | split; unfold is_i64; cbn; lia | lia | lia | exact created |].
  exists m. split; [exact Hm | exact Hf].
Defined.
End HandlerExamples.
