(* ===== verification/TradeHandlers.v ===== *)
(** The handlers of the trade and transport interfaces, the ones anyone may call:
    internal/interfaces/grpc/handler/trade.go and transport.go, with the conversions
    of types.go they use.

    The state is the one of the trade service.  A nil message of a request is [None].
    The float64 of a price is the one of [FloatOf]. *)

From Stdlib Require Import ZArith Lia Ascii.
From stdpp Require Import base tactics strings list gmap.
From S2P Require Import Prelude Errors Decimal Formula Market Trade Repos SwapMsg Wallet TradeService Report Calendar Requests Operator TxEvents Listing Handlers.
Local Open Scope Z_scope.

(** * Messages *)

Record pb_MarketBalance := { pmb_BaseAmount : Z; pmb_QuoteAmount : Z }.
Record pb_GetMarketBalanceResponse := { gmb_Balance : pb_MarketBalance; gmb_Fee : pb_Fee }.
Record pb_GetMarketPriceResponse := {
  gmp_SpotPrice : float64; gmp_MinTradableAmount : Z; gmp_Balance : option pb_MarketBalance }.
Record pb_Preview := {
  pvw_Price : pb_Price; pvw_Fee : pb_Fee; pvw_Amount : Z; pvw_Asset : string;
  pvw_FeeAmount : Z; pvw_FeeAsset : string }.
Record pb_PreviewTradeRequest := {
  ptr_Market : option pb_Market; ptr_Type : Z; ptr_Amount : Z; ptr_Asset : string; ptr_FeeAsset : string }.
Record pb_ProposeTradeRequest := {
  ppr_Market : option pb_Market; ppr_Type : Z; ppr_SwapRequest : option V2SwapRequest;
  ppr_FeeAsset : string; ppr_FeeAmount : Z }.
Record pb_ProposeTradeResponse := {
  ppt_SwapAccept : option V2SwapAccept; ppt_SwapFail : option V2SwapFail; ppt_ExpiryTimeUnix : Z }.
Record pb_CompleteTradeResponse := { pct_Txid : string; pct_SwapFail : option V2SwapFail }.

Definition CONTENT_TYPE_JSON : Z := 0.
Definition CONTENT_TYPE_GRPC : Z := 1.
Definition CONTENT_TYPE_GRPCWEB : Z := 2.
Definition CONTENT_TYPE_GRPCWEBTEXT : Z := 3.

(** * transport.go *)
Definition SupportedContentTypes : list Z :=
  [CONTENT_TYPE_JSON; CONTENT_TYPE_GRPC; CONTENT_TYPE_GRPCWEB; CONTENT_TYPE_GRPCWEBTEXT].

(** * types.go *)

(** The message has no unblinded inputs. *)
Definition swapAcceptInfo_toProto (a : SwapAccept) : V2SwapAccept := {|
  a2_Id := sa_Id a; a2_RequestId := sa_RequestId a; a2_Transaction := sa_Transaction a;
  a2_UnblindedInputs := [] |}.
Definition swapFailInfo_toProto (f : SwapFail) : V2SwapFail := {|
  f2_Id := sf_Id f; f2_MessageId := sf_MessageId f; f2_FailureCode := sf_FailureCode f;
  f2_FailureMessage := sf_FailureMessage f |}.

(** types.go of the trade service: the price of a preview is the market's own. *)
Definition previewInfo_GetMarketPrice (p : Market * PreviewInfo) : MarketPrice := Price (fst p).

(** strings.Replace(s, " ", " fee ", -1) *)
Fixpoint replace_blanks (s : string) : string :=
  match s with
  | EmptyString => EmptyString
  | String c s => if Ascii.eqb c " " then " fee " +:+ replace_blanks s else String c (replace_blanks s)
  end.
Definition fee_error (e : error) : error := match e with Errorf msg => Errorf (replace_blanks msg) | e => e end.

(** * trade.go *)

Section trade_handlers.
Context {D : Type} `{DecimalOps D} `{!FloatOf D} `{SwapParser} `{Elements}.
Context {M : Type} `{MarketRepository M} {T : Type} `{TradeRepository T} {W : Type} `{WalletPort W}.
Variables (priceSlippage : D) (milliSatsPerByte : Z) (nativeAsset : string).
Abbreviation St := (@State M T W).
Abbreviation handler := (action St rpc_error).

Definition listMarkets : handler (list pb_MarketWithFee) :=
  markets ← call GetTradableMarkets;
  mret (marketWithFee <$> markets).

(** An empty balance is shown as 0; in any other one both assets must have an entry. *)
Definition getMarketBalance (market : option pb_Market) : handler pb_GetMarketBalanceResponse :=
  m ← parsed (parseMarket market);
  '(mkt, balance) ← call (GetMarketBalance (pbm_BaseAsset m) (pbm_QuoteAsset m));
  '(baseBalance, quoteBalance) ←
    (if bool_decide (balance = ∅) then mret (0, 0)
     else b ← call (lift (must_confirmed balance (pbm_BaseAsset m)));
          q ← call (lift (must_confirmed balance (pbm_QuoteAsset m)));
          mret (b, q) : handler (Z * Z));
  mret {| gmb_Balance := {| pmb_BaseAmount := baseBalance; pmb_QuoteAmount := quoteBalance |};
          gmb_Fee := marketFeeInfo_toProto (PercentageFee mkt) (FixedFee mkt) |}.

Definition getMarketPrice (market : option pb_Market) : handler pb_GetMarketPriceResponse :=
  m ← parsed (parseMarket market);
  '(price, minAmount) ← call (GetMarketPrice (D := D) (pbm_BaseAsset m) (pbm_QuoteAsset m));
  mret {| gmp_SpotPrice := dFloat64 (price : D); gmp_MinTradableAmount := minAmount; gmp_Balance := None |}.

(** The method GetMarketPrice: the price, then the balance. *)
Definition trade_GetMarketPrice (market : option pb_Market) : handler pb_GetMarketPriceResponse :=
  marketPrice ← getMarketPrice market;
  marketBalance ← getMarketBalance market;
  mret {| gmp_SpotPrice := gmp_SpotPrice marketPrice;
          gmp_MinTradableAmount := gmp_MinTradableAmount marketPrice;
          gmp_Balance := Some (gmb_Balance marketBalance) |}.

Definition parse_fee_asset (asset : string) : outcome error string :=
  match parseAsset asset with Err e => Err (fee_error e) | r => r end.

Definition previewTrade (req : pb_PreviewTradeRequest) : handler (list pb_Preview) :=
  m ← parsed (parseMarket (ptr_Market req));
  tradeType ← parsed (parseTradeType (ptr_Type req));
  amount ← parsed (parseAmount (ptr_Amount req));
  asset ← parsed (parseAsset (ptr_Asset req));
  feeAsset ← parsed (parse_fee_asset (ptr_FeeAsset req));
  preview ← call (TradePreview (D := D) (pbm_BaseAsset m) (pbm_QuoteAsset m) tradeType amount asset feeAsset);
  let '(mkt, info) := preview in
  mret [{| pvw_Price := marketPriceInfo_toProto (D := D) (previewInfo_GetMarketPrice preview);
           pvw_Fee := marketFeeInfo_toProto (PercentageFee mkt) (FixedFee mkt);
           pvw_Amount := pi_Amount info; pvw_Asset := pi_Asset info;
           pvw_FeeAmount := pi_FeeAmount info; pvw_FeeAsset := pi_FeeAsset info |}].

(** A nil pointer inside the accept or the fail that was returned panics when its
    fields are read.  The expiry time of a rejected proposal is -1. *)
Definition proposed_toProto (r : propose_result) : outcome error pb_ProposeTradeResponse :=
  match r with
  | Accepted a expiry =>
      a ← deref a;
      Ret {| ppt_SwapAccept := Some (swapAcceptInfo_toProto a); ppt_SwapFail := None;
             ppt_ExpiryTimeUnix := u64 expiry |}
  | Rejected f =>
      f ← deref f;
      Ret {| ppt_SwapAccept := None; ppt_SwapFail := Some (swapFailInfo_toProto f);
             ppt_ExpiryTimeUnix := u64 (-1) |}
  end.
Definition proposeTrade (env : Env) (req : pb_ProposeTradeRequest) : handler pb_ProposeTradeResponse :=
  m ← parsed (parseMarket (ppr_Market req));
  tradeType ← parsed (parseTradeType (ppr_Type req));
  swapRequest ← parsed (parseSwapRequest (ppr_SwapRequest req) (ppr_FeeAsset req) (ppr_FeeAmount req));
  r ← call (TradePropose priceSlippage milliSatsPerByte nativeAsset env
              (pbm_BaseAsset m) (pbm_QuoteAsset m) tradeType swapRequest);
  call (lift (proposed_toProto r)).

(** [if err != nil { return nil, status.Error(codes.Internal, err.Error()) }] *)
Definition internal {A} (m : action St error A) : handler A := λ s,
  match m s with
  | (s', Ret a) => (s', Ret a)
  | (s', Err e) => (s', Err (Status Internal e))
  | (s', Panic p) => (s', Panic p)
  end.

(** The messages of the wire as ports.SwapComplete. *)
Definition complete_of (c : V2SwapComplete) : SwapComplete :=
  {| sc_Id := c2_Id c; sc_AcceptId := c2_AcceptId c; sc_Transaction := c2_Transaction c |}.
Definition completed_toProto (r : complete_result) : outcome error pb_CompleteTradeResponse :=
  match r with
  | Broadcasted txid => Ret {| pct_Txid := txid; pct_SwapFail := None |}
  | NotCompleted f => f ← deref f; Ret {| pct_Txid := ""; pct_SwapFail := Some (swapFailInfo_toProto f) |}
  end.
(** The swap complete is looked at only when there is no swap fail; it is then a nil
    interface if the request has none. *)
Definition completeTrade (env : Env) (swapComplete : option V2SwapComplete) (swapFail : option V2SwapFail)
    : handler pb_CompleteTradeResponse :=
  r ← internal (match swapFail, swapComplete with
                | None, None => lift (Panic NilDereference)
                | _, _ =>
                    TradeComplete env (complete_of (default {| c2_Id := ""; c2_AcceptId := ""; c2_Transaction := "" |} swapComplete))
                      (f2_MessageId <$> swapFail)
                end);
  call (lift (completed_toProto r)).

(** ** The service *)
Inductive TradeRequest :=
  | TListMarkets
  | TGetMarketBalance (market : option pb_Market)
  | TGetMarketPrice (market : option pb_Market)
  | TPreviewTrade (req : pb_PreviewTradeRequest)
  | TProposeTrade (env : Env) (req : pb_ProposeTradeRequest)
  | TCompleteTrade (env : Env) (swapComplete : option V2SwapComplete) (swapFail : option V2SwapFail).
Inductive TradeResponse :=
  | MarketsOf (l : list pb_MarketWithFee)
  | MarketBalanceOf (b : pb_GetMarketBalanceResponse)
  | MarketPriceOf (p : pb_GetMarketPriceResponse)
  | PreviewsOf (l : list pb_Preview)
  | Proposed (r : pb_ProposeTradeResponse)
  | Completed (r : pb_CompleteTradeResponse).

Definition trade_server (r : TradeRequest) : handler TradeResponse :=
  with_recovery (match r with
  | TListMarkets => reply MarketsOf listMarkets
  | TGetMarketBalance m => reply MarketBalanceOf (getMarketBalance m)
  | TGetMarketPrice m => reply MarketPriceOf (trade_GetMarketPrice m)
  | TPreviewTrade req => reply PreviewsOf (previewTrade req)
  | TProposeTrade env req => reply Proposed (proposeTrade env req)
  | TCompleteTrade env sc sf => reply Completed (completeTrade env sc sf)
  end).
End trade_handlers.

(** * Effects *)

(** Whatever [m] returns, the state before and the one it leaves are related by [R]. *)
Definition effect {S E A} (R : S → S → Prop) (m : action S E A) : Prop := ∀ s, R s (fst (m s)).

Section effects.
Context {S : Type}.
Lemma effect_bind {E A B} (R1 R2 R : S → S → Prop) (m : action S E A) (f : A → action S E B) :
  (∀ x y, R1 x y → R x y) → (∀ x y z, R1 x y → R2 y z → R x z) →
  effect R1 m → (∀ a, effect R2 (f a)) → effect R (m ≫= f).
Proof.
  intros H1 H12 Hm Hf s. unfold mbind, action_bind. specialize (Hm s).
  destruct (m s) as [s' [a|e|p]]; cbn in *; eauto. eapply H12; [exact Hm | apply Hf].
Qed.
(** A preorder composes with itself and on either side of a relation it absorbs. *)
Lemma effect_seq {E A B} (R : S → S → Prop) `{!PreOrder R} (m : action S E A) (f : A → action S E B) :
  effect R m → (∀ a, effect R (f a)) → effect R (m ≫= f).
Proof. apply effect_bind; [done | intros x y z ? ?; by transitivity y]. Qed.
Lemma effect_ret {E A} (R : S → S → Prop) `{!Reflexive R} (a : A) : effect R (mret a : action S E A).
Proof. by intros s. Qed.
Lemma effect_lift {E A} (R : S → S → Prop) `{!Reflexive R} (m : outcome E A) : effect R (lift m : action S E A).
Proof. by intros s. Qed.
Lemma effect_parsed {A} (R : S → S → Prop) `{!Reflexive R} (m : outcome error A) : effect R (parsed m : action S rpc_error A).
Proof. by intros s. Qed.
Lemma effect_call {A} (R : S → S → Prop) (m : action S error A) : effect R m → effect R (call m).
Proof. intros Hm s. specialize (Hm s). unfold call. by destruct (m s) as [s' []]. Qed.
Lemma effect_recovery {A} (R : S → S → Prop) (m : action S rpc_error A) : effect R m → effect R (with_recovery m).
Proof. intros Hm s. specialize (Hm s). unfold with_recovery. by destruct (m s) as [s' []]. Qed.
Lemma effect_reply {E A B} (R : S → S → Prop) `{!Reflexive R} (f : A → B) (m : action S E A) :
  effect R m → effect R (reply f m).
Proof. intros Hm s. specialize (Hm s). unfold reply, mbind, action_bind. by destruct (m s) as [s' []]. Qed.
Lemma effect_get (R : S → S → Prop) `{!Reflexive R} {E} : effect R (get_state : action S E S).
Proof. by intros s. Qed.
Lemma effect_try {E A} (R : S → S → Prop) (m : action S E A) : effect R m → effect R (try m).
Proof. intros Hm s. specialize (Hm s). unfold try. by destruct (m s) as [s' []]. Qed.
End effects.

Create HintDb effects.
#[export] Hint Resolve effect_call effect_recovery effect_try : effects.
#[export] Hint Extern 1 (effect _ (mret _)) => (apply effect_ret; typeclasses eauto) : effects.
#[export] Hint Extern 1 (effect _ (lift _)) => (apply effect_lift; typeclasses eauto) : effects.
#[export] Hint Extern 1 (effect _ (parsed _)) => (apply effect_parsed; typeclasses eauto) : effects.
#[export] Hint Extern 1 (effect _ get_state) => (apply effect_get; typeclasses eauto) : effects.
Ltac effects := repeat (lazymatch goal with |- effect _ _ => idtac | |- _ => intros ?; cbv beta end; first
  [ solve [eauto with effects]
  | apply effect_seq; [typeclasses eauto| |] | apply effect_reply; [typeclasses eauto|] | apply effect_call
  | case_match ]).

Section frames.
Context {D : Type} `{DecimalOps D} `{!FloatOf D} `{SwapParser} `{Elements}.
Context {M : Type} `{MarketRepository M} {T : Type} `{TradeRepository T} {W : Type} `{WalletPort W}.
Variables (priceSlippage : D) (milliSatsPerByte : Z) (nativeAsset : string).
Abbreviation St := (@State M T W).

(** Nothing but the wallet changed. *)
Definition wallet_only (s s' : St) : Prop :=
  st_markets s' = st_markets s ∧ st_trades s' = st_trades s ∧
  st_handlers s' = st_handlers s ∧ st_published s' = st_published s.
#[global] Instance wallet_only_preorder : PreOrder wallet_only.
Proof. split; [done | intros x y z (?&?&?&?) (?&?&?&?); split_and!; congruence]. Qed.
(** The same, with the trade in hand keeping its id. *)
Definition trade_in_hand (x y : St * Trade) : Prop := wallet_only (fst x) (fst y) ∧ tr_Id (snd y) = tr_Id (snd x).
#[local] Instance trade_in_hand_preorder : PreOrder trade_in_hand.
Proof. split; [done | intros x y z [??] [??]; split; [by transitivity (fst y) | congruence]]. Qed.

Lemma effect_wallet {A} (m : action W error A) : effect wallet_only (on_wallet (M := M) (T := T) m).
Proof. intros s. unfold on_wallet. by destruct (m (st_wallet s)). Qed.
Lemma effect_read_markets {A} (f : M → outcome error A) : effect wallet_only (read_markets (T := T) (W := W) f).
Proof. by intros s. Qed.
Lemma effect_read_trades {A} (f : T → outcome error A) : effect wallet_only (read_trades (M := M) (W := W) f).
Proof. by intros s. Qed.
Lemma effect_or_error {A} R e (m : action St error A) : effect R m → effect R (or_error e m).
Proof. intros Hm s. specialize (Hm s). unfold or_error. by destruct (m s) as [s' []]. Qed.
Lemma effect_on_state {A} (m : action St error A) : effect wallet_only m → effect trade_in_hand (on_state m).
Proof. intros Hm [s t]. specialize (Hm s). unfold on_state. by destruct (m s) as [s' []]. Qed.
Lemma effect_on_trade {A} (m : action Trade error A) :
  (∀ t, tr_Id (fst (m t)) = tr_Id t) → effect trade_in_hand (on_trade (M := M) (T := T) (W := W) m).
Proof. intros Hm [s t]. specialize (Hm t). unfold on_trade. by destruct (m t) as [t' []]. Qed.
Lemma effect_ok_of (m : action (St * Trade) error bool) R : effect R m → effect R (ok_of m).
Proof. intros Hm s. specialize (Hm s). unfold ok_of. by destruct (m s) as [s' []]. Qed.
Lemma effect_fail_message : effect trade_in_hand (fail_message (M := M) (T := T) (W := W)).
Proof. by intros s. Qed.
#[local] Hint Resolve effect_wallet effect_read_markets effect_read_trades effect_or_error effect_on_state
  effect_on_trade effect_ok_of effect_fail_message : effects.

(** No operation of the entity changes the id of its trade. *)
Lemma tr_Id_Fail rnd id code t : tr_Id (Fail rnd id code t) = tr_Id t.
Proof. unfold Fail. case_match; [done|]. destruct t. by destruct (SerializeFail _ _ _). Qed.
Lemma tr_Id_Propose now r1 r2 ty r n b q pct fx pk t :
  tr_Id (fst (Propose (D := D) now r1 r2 ty r n b q pct fx pk t)) = tr_Id t.
Proof. unfold Propose. repeat (case_match; simplify_eq/=); rewrite ?tr_Id_Fail; by destruct t. Qed.
Lemma tr_Id_Accept now r1 r2 pset ins expiry t : tr_Id (fst (Accept now r1 r2 pset ins expiry t)) = tr_Id t.
Proof. unfold Accept. repeat (case_match; simplify_eq/=); rewrite ?tr_Id_Fail; by destruct t. Qed.
Lemma tr_Id_Complete now now' r1 r2 tx t : tr_Id (fst (Complete now now' r1 r2 tx t)) = tr_Id t.
Proof. unfold Complete. repeat (case_match; simplify_eq/=); rewrite ?tr_Id_Fail; by destruct t. Qed.
#[local] Hint Resolve tr_Id_Fail tr_Id_Propose tr_Id_Accept tr_Id_Complete : effects.

Lemma complete_body_effect env tx : effect trade_in_hand (complete_body (M := M) (T := T) (W := W) env tx).
Proof. unfold complete_body. effects; apply effect_on_trade; cbn; auto with effects. Qed.

(** A proposal may register one handler, for its own trade. *)
Definition handler_added (x y : St * Trade) : Prop :=
  st_markets (fst y) = st_markets (fst x) ∧ st_trades (fst y) = st_trades (fst x) ∧
  st_published (fst y) = st_published (fst x) ∧ tr_Id (snd y) = tr_Id (snd x) ∧
  (st_handlers (fst y) = st_handlers (fst x) ∨
   ∃ us, st_handlers (fst y) = Queue.pushBack (tr_Id (snd x), us) (st_handlers (fst x))).
Lemma in_hand_added x y : trade_in_hand x y → handler_added x y.
Proof. intros [(?&?&?&?) ?]. split_and!; auto. Qed.
Lemma in_hand_then_added x y z : trade_in_hand x y → handler_added y z → handler_added x z.
Proof.
  intros [(?&?&?&Hp) Hid] (?&?&Hq&?&Hh). unfold handler_added. rewrite <- Hid. split_and!; try congruence.
  destruct Hh as [?|[us ?]]; [left; congruence | right; exists us; congruence].
Qed.
Lemma effect_before {A B} (m : action (St * Trade) error A) (f : A → action (St * Trade) error B) :
  effect trade_in_hand m → (∀ a, effect handler_added (f a)) → effect handler_added (m ≫= f).
Proof. apply effect_bind; eauto using in_hand_added, in_hand_then_added. Qed.
Lemma effect_weaken {A} (m : action (St * Trade) error A) : effect trade_in_hand m → effect handler_added m.
Proof. intros Hm s. apply in_hand_added, Hm. Qed.

Lemma propose_accepted_effect us : effect handler_added (propose_accepted (M := M) (T := T) (W := W) us).
Proof.
  intros [s t]. unfold propose_accepted, mbind, action_bind, get_state, on_state, register, lift; cbn.
  destruct (SwapAcceptMessage t); cbn; split_and!; eauto.
Qed.
Lemma propose_body_effect env mkt balance tt r :
  effect handler_added (propose_body (M := M) (T := T) (W := W) priceSlippage milliSatsPerByte nativeAsset env mkt balance tt r).
Proof.
  unfold propose_body. apply effect_before; [effects|]. intros []; cbn [negb].
  2: { apply effect_weaken. effects. }
  apply effect_before; [effects|]. intros []; cbn [negb]; [|apply effect_weaken; effects].
  apply effect_before; [effects|]. intros [[signed us] expiry].
  apply effect_before; [effects|]. intros []; cbn [negb]; [apply propose_accepted_effect | apply effect_weaken; effects].
Qed.

(** ** What a request may change *)
Definition proposed_effect (uuid : string) (s s' : St) : Prop :=
  st_markets s' = st_markets s ∧ st_published s' = st_published s ∧
  (st_trades s' = st_trades s ∧ st_handlers s' = st_handlers s ∨
   ∃ t, tr_Id t = uuid ∧ st_trades s' = fst (AddTrade t (st_trades s)) ∧
     (st_handlers s' = st_handlers s ∨ ∃ us, st_handlers s' = Queue.pushBack (uuid, us) (st_handlers s))).
Definition completed_effect (acceptId : string) (s s' : St) : Prop :=
  st_markets s' = st_markets s ∧ st_published s' = st_published s ∧ st_handlers s' = st_handlers s ∧
  (st_trades s' = st_trades s ∨
   ∃ t t', GetTradeBySwapAcceptId (st_trades s) acceptId = Ret t ∧ tr_Id t' = tr_Id t ∧
     st_trades s' = fst (UpdateTrade (tr_Id t) (λ _, Ret t') (st_trades s))).
(** The swap accept a request to complete a trade refers to: a swap fail goes first. *)
Definition named_accept (sc : option V2SwapComplete) (sf : option V2SwapFail) : string :=
  match sf, sc with Some f, _ => f2_MessageId f | None, Some c => c2_AcceptId c | None, None => "" end.
Definition allowed_effect (r : TradeRequest) : St → St → Prop :=
  match r with
  | TProposeTrade env _ => proposed_effect (e_uuid env)
  | TCompleteTrade _ sc sf => completed_effect (named_accept sc sf)
  | _ => wallet_only
  end.

#[local] Instance proposed_effect_refl uuid : Reflexive (proposed_effect uuid).
Proof. intros s. split_and!; auto. Qed.
#[local] Instance completed_effect_refl id : Reflexive (completed_effect id).
Proof. intros s. split_and!; auto. Qed.
Lemma wallet_proposed uuid x y : wallet_only x y → proposed_effect uuid x y.
Proof. intros (?&?&?&?). split_and!; auto. Qed.
Lemma wallet_then_proposed uuid x y z : wallet_only x y → proposed_effect uuid y z → proposed_effect uuid x z.
Proof.
  intros (E1&E2&E3&E4) (?&?&Hz). unfold proposed_effect. rewrite <- E1, <- E2, <- E3, <- E4. split_and!; done.
Qed.

Lemma TradePropose_effect env b q tt r :
  effect (proposed_effect (e_uuid env))
    (TradePropose (M := M) (T := T) (W := W) priceSlippage milliSatsPerByte nativeAsset env b q tt r).
Proof.
  unfold TradePropose. eapply effect_bind; [apply wallet_proposed | apply wallet_then_proposed | effects|].
  intros mkt. case_match; [apply effect_lift, _|].
  eapply effect_bind; [apply wallet_proposed | apply wallet_then_proposed | effects|].
  intros balance s. unfold propose_deferred.
  pose proof (propose_body_effect env mkt balance tt r (s, NewTrade (e_uuid env))) as HB.
  destruct (propose_body _ _ _ _ _ _ _ _ _) as [[s1 t] res]; cbn in HB. destruct HB as (E1 & E2 & E3 & E4 & E5); cbn in *.
  unfold discard, on_trades. rewrite E2. destruct (AddTrade t (st_trades s)) as [ts o] eqn:EA.
  assert (proposed_effect (e_uuid env) s {| st_markets := st_markets s1; st_trades := ts; st_wallet := st_wallet s1;
      st_handlers := st_handlers s1; st_published := st_published s1 |}) as HE.
  { split_and!; cbn; [done..|]. right. exists t. rewrite EA. split_and!; [done | done | exact E5]. }
  by destruct o.
Qed.

Lemma updated_effect id s (s1 : St) t t' o :
  GetTradeBySwapAcceptId (st_trades s) id = Ret t → tr_Id t' = tr_Id t → wallet_only s s1 →
  UpdateTrade (tr_Id t) (λ _, Ret t') (st_trades s) = o →
  completed_effect id s {| st_markets := st_markets s1; st_trades := fst o; st_wallet := st_wallet s1;
      st_handlers := st_handlers s1; st_published := st_published s1 |}.
Proof. intros HG Hid (?&?&?&?) <-. split_and!; cbn; try done. right. by exists t, t'. Qed.

Lemma TradeComplete_effect env sc sf :
  effect (completed_effect (default (sc_AcceptId sc) sf)) (TradeComplete (M := M) (T := T) (W := W) env sc sf).
Proof.
  intros s. unfold TradeComplete, tradeFail, mbind, action_bind, read_trades, or_error, on_trades. destruct sf as [id|]; cbn [default].
  - destruct (GetTradeBySwapAcceptId (st_trades s) id) as [t|e|p] eqn:EG; [|done..].
    destruct (UpdateTrade _ _ _) as [ts o] eqn:EU. rewrite tr_Id_Fail in EU.
    assert (completed_effect id s {| st_markets := st_markets s; st_trades := ts; st_wallet := st_wallet s;
      st_handlers := st_handlers s; st_published := st_published s |}) as HE.
    { apply (updated_effect id s s t _ (ts, o) EG (tr_Id_Fail (e_rnd1 env) id ErrCodeAborted t)); done. }
    destruct o; [|done..]. unfold lift. by destruct (SwapFailMessage _).
  - destruct (GetTradeBySwapAcceptId (st_trades s) (sc_AcceptId sc)) as [t|e|p] eqn:EG; [|done..].
    case_match; [done|]. unfold complete_deferred.
    pose proof (complete_body_effect env (sc_Transaction sc) (s, t)) as HB.
    destruct (complete_body _ _ _) as [[s1 t'] res]; cbn in HB. destruct HB as [HW Hid]; cbn in *.
    unfold on_trades. destruct HW as (?&E2&?&?). rewrite E2, Hid. destruct (UpdateTrade _ _ _) as [ts o] eqn:EU.
    assert (completed_effect (sc_AcceptId sc) s {| st_markets := st_markets s1; st_trades := ts;
      st_wallet := st_wallet s1; st_handlers := st_handlers s1; st_published := st_published s1 |}) as HE.
    { by apply (updated_effect _ s s1 t t' (ts, o) EG Hid). }
    destruct o, res; done.
Qed.

Lemma effect_internal {A} R (m : action St error A) : effect R m → effect R (internal m).
Proof. intros Hm s. specialize (Hm s). unfold internal. by destruct (m s) as [s' []]. Qed.

Lemma previewTrade_effect req : effect wallet_only (previewTrade (D := D) (M := M) (T := T) (W := W) req).
Proof. unfold previewTrade, TradePreview. effects. Qed.

(** C19: what a client of the public trade interface can change.  Whatever the request,
    its data and its outcome, panics included: the markets and the events handed to the
    webhooks stay as they are.  Listing markets, asking for a balance or a price and
    previewing change nothing but the remote wallet's own state.  A proposal adds at
    most one trade, under the fresh id, and at most one watcher, for that trade; asking
    to complete or abort a trade overwrites at most one trade, the stored one whose swap
    accept the request names, and keeps its id. *)
Theorem trade_interface_effects r (s : St) :
  allowed_effect r s (fst (trade_server (D := D) priceSlippage milliSatsPerByte nativeAsset r s)).
Proof.
  revert s. change (effect (allowed_effect r) (trade_server (D := D) priceSlippage milliSatsPerByte nativeAsset r)).
  apply effect_recovery. destruct r; cbn [allowed_effect]; (apply effect_reply; [typeclasses eauto|]).
  - unfold listMarkets, TradeService.GetTradableMarkets. effects.
  - unfold getMarketBalance, TradeService.GetMarketBalance. effects.
  - unfold trade_GetMarketPrice, getMarketPrice, getMarketBalance, TradeService.GetMarketBalance, TradeService.GetMarketPrice.
    effects.
  - apply previewTrade_effect.
  - unfold proposeTrade.
    do 3 (eapply (effect_bind eq); [by intros ?? -> | by intros ??? -> | by intros ?|]; intros ?).
    eapply effect_bind; [done | | apply effect_call, TradePropose_effect | intros ?; apply (effect_call eq); by intros ?].
    by intros ??? ? <-.
  - unfold completeTrade.
    eapply effect_bind; [done | | | intros ?; apply (effect_call eq); by intros ?]; [by intros ??? ? <-|].
    apply effect_internal. destruct swapFail as [f|], swapComplete as [c|]; cbn [named_accept].
    4: by apply effect_lift, _.
    all: match goal with |- effect _ (TradeComplete ?e ?c ?f) => exact (TradeComplete_effect e c f) end.
Qed.
End frames.

(** * Validation *)

Section trade_parsers.
Context `{Elements}.
Lemma check_trade_type ty : checks (parseTradeType ty) (ty = TRADE_TYPE_BUY ∨ ty = TRADE_TYPE_SELL) False (tradeTypeInfo ty).
Proof.
  unfold parseTradeType. destruct (Z.eqb_spec ty TRADE_TYPE_BUY), (Z.eqb_spec ty TRADE_TYPE_SELL); cbn; naive_solver.
Qed.
Lemma check_amount z : is_u64 z → checks (parseAmount z) (z < 2 ^ 63) False z.
Proof.
  intros Hz. unfold parseAmount. pose proof (valid_amount_spec z Hz) as HV.
  destruct (isValidAmount z); cbn [negb checks new_error]; naive_solver.
Qed.
Lemma check_asset a : checks (parseAsset a) (hex_string 32 a) False a.
Proof.
  unfold parseAsset. destruct (Nat.leb_spec (String.length a) 0); cbn [checks new_error].
  - intros [HL _]. lia.
  - destruct (req_isValidAsset a) eqn:E; cbn [negb checks new_error];
      [by apply valid_asset_spec in E | by apply valid_asset_false in E].
Qed.
Lemma check_fee_asset a : checks (parse_fee_asset a) (hex_string 32 a) False a.
Proof. unfold parse_fee_asset. pose proof (check_asset a) as HC. by destruct (parseAsset a). Qed.

(** A request to swap whose amounts are int64s, whose assets and blinders are 32 bytes
    in hex and whose transaction is a pset. *)
Definition valid_unblinded (u : UnblindedInput) : Prop :=
  hex_string 32 (ui_Asset u) ∧ ui_Amount u < 2 ^ 63 ∧ hex_string 32 (ui_AssetBlinder u) ∧ hex_string 32 (ui_AmountBlinder u).
Definition valid_swap (sr : option V2SwapRequest) (feeAsset : string) (feeAmount : Z) : Prop :=
  match sr with
  | None => False
  | Some sr =>
      (q2_AmountP sr < 2 ^ 63 ∧ hex_string 32 (q2_AssetP sr) ∧ q2_AmountR sr < 2 ^ 63 ∧ hex_string 32 (q2_AssetR sr) ∧
       is_Some (psetv2_NewPsetFromBase64 (q2_Transaction sr)) ∧ Forall valid_unblinded (q2_UnblindedInputs sr)) ∧
      hex_string 32 feeAsset ∧ feeAmount < 2 ^ 63
  end.
Definition typed_swap (sr : option V2SwapRequest) (feeAmount : Z) : Prop :=
  is_u64 feeAmount ∧ match sr with
  | None => True
  | Some sr => is_u64 (q2_AmountP sr) ∧ is_u64 (q2_AmountR sr) ∧
      Forall (λ u, 0 ≤ ui_Index u < 2 ^ 32 ∧ is_u64 (ui_Amount u)) (q2_UnblindedInputs sr)
  end.

Lemma valid_unblinded_spec u : 0 ≤ ui_Index u < 2 ^ 32 → is_u64 (ui_Amount u) →
  isValidUnblindedInput u = true ↔ valid_unblinded u.
Proof.
  intros Hi Ha. unfold isValidUnblindedInput, valid_unblinded, isValidIndex.
  rewrite i64_id by (unfold is_i64; lia). rewrite (proj2 (Z.leb_le 0 (ui_Index u))) by lia.
  rewrite !negb_orb, !negb_involutive, !andb_true_iff, !valid_asset_spec, valid_amount_spec by done. naive_solver.
Qed.
Lemma valid_unblinded_list l :
  Forall (λ u, 0 ≤ ui_Index u < 2 ^ 32 ∧ is_u64 (ui_Amount u)) l →
  isValidUnblindedInputList l = true ↔ Forall valid_unblinded l.
Proof.
  induction 1 as [|u l [Hi Ha] _ IH]; cbn [isValidUnblindedInputList]; [done|].
  rewrite Forall_cons, <- IH, <- valid_unblinded_spec by done. destruct (isValidUnblindedInput u); cbn; naive_solver.
Qed.

Lemma check_swap sr feeAsset feeAmount : typed_swap sr feeAmount →
  checks (parseSwapRequest sr feeAsset feeAmount) (valid_swap sr feeAsset feeAmount) False
    (swapRequestInfo (default {| q2_Id := ""; q2_AssetP := ""; q2_AmountP := 0; q2_AssetR := ""; q2_AmountR := 0;
       q2_Transaction := ""; q2_UnblindedInputs := [] |} sr) feeAsset feeAmount).
Proof.
  intros [Hf Ht]. unfold parseSwapRequest. destruct sr as [sr|]; [|by intros []]. destruct Ht as (Hp & Hr & Hu).
  cbn [valid_swap default]. unfold isValidTransaction.
  rewrite <- !valid_asset_spec, <- (valid_unblinded_list _ Hu), <- (valid_amount_spec _ Hp), <- (valid_amount_spec _ Hr),
    <- (valid_amount_spec _ Hf).
  destruct (isValidAmount (q2_AmountP sr)), (req_isValidAsset (q2_AssetP sr)), (isValidAmount (q2_AmountR sr)),
    (req_isValidAsset (q2_AssetR sr)), (psetv2_NewPsetFromBase64 (q2_Transaction sr)) eqn:E,
    (isValidUnblindedInputList (q2_UnblindedInputs sr)), (req_isValidAsset feeAsset), (isValidAmount feeAmount);
    cbn [negb checks new_error]; rewrite ?E; try (split_and!; done); unfold is_Some; naive_solver.
Qed.
End trade_parsers.
#[export] Hint Resolve check_trade_type check_amount check_asset check_fee_asset check_swap : checks.

Section validated.
Context {D : Type} `{DecimalOps D} `{!FloatOf D} `{SwapParser} `{Elements}.
Context {M : Type} `{MarketRepository M} {T : Type} `{TradeRepository T} {W : Type} `{WalletPort W}.
Variables (priceSlippage : D) (milliSatsPerByte : Z) (nativeAsset : string).
Abbreviation St := (@State M T W).
Abbreviation handler := (action St rpc_error).

Definition valid_preview (req : pb_PreviewTradeRequest) : Prop :=
  valid_market (ptr_Market req) ∧ (ptr_Type req = TRADE_TYPE_BUY ∨ ptr_Type req = TRADE_TYPE_SELL) ∧
  ptr_Amount req < 2 ^ 63 ∧ hex_string 32 (ptr_Asset req) ∧ hex_string 32 (ptr_FeeAsset req).
Definition valid_proposal (req : pb_ProposeTradeRequest) : Prop :=
  valid_market (ppr_Market req) ∧ (ppr_Type req = TRADE_TYPE_BUY ∨ ppr_Type req = TRADE_TYPE_SELL) ∧
  valid_swap (ppr_SwapRequest req) (ppr_FeeAsset req) (ppr_FeeAmount req).

Definition preview_message (p : Market * PreviewInfo) : list pb_Preview :=
  [{| pvw_Price := marketPriceInfo_toProto (D := D) (Price (fst p));
      pvw_Fee := marketFeeInfo_toProto (PercentageFee (fst p)) (FixedFee (fst p));
      pvw_Amount := pi_Amount (snd p); pvw_Asset := pi_Asset (snd p);
      pvw_FeeAmount := pi_FeeAmount (snd p); pvw_FeeAsset := pi_FeeAsset (snd p) |}].

Lemma previewTrade_guarded req : is_u64 (ptr_Amount req) →
  guarded (previewTrade (D := D) req : handler _) (valid_preview req) False
    (reply preview_message (call (TradePreview (D := D) (base_of (ptr_Market req)) (quote_of (ptr_Market req))
       (tradeTypeInfo (ptr_Type req)) (ptr_Amount req) (ptr_Asset req) (ptr_FeeAsset req)))).
Proof.
  intros Ha. unfold previewTrade. eapply guarded_iff; [| |eapply guarded_eq; [|
    repeat (eapply guarded_bind; [solve [eauto with checks]|]; cbv beta iota zeta); apply guarded_true]].
  - unfold valid_preview. tauto.
  - tauto.
  - intros s. unfold reply, mbind, action_bind.
    by destruct (ptr_Market req); cbn; destruct (call _ s) as [s' [[m i]| |]].
Qed.

Lemma proposeTrade_guarded env req : typed_swap (ppr_SwapRequest req) (ppr_FeeAmount req) →
  guarded (proposeTrade priceSlippage milliSatsPerByte nativeAsset env req : handler _) (valid_proposal req) False
    (r ← call (TradePropose priceSlippage milliSatsPerByte nativeAsset env (base_of (ppr_Market req)) (quote_of (ppr_Market req))
       (tradeTypeInfo (ppr_Type req)) (swapRequestInfo (default {| q2_Id := ""; q2_AssetP := ""; q2_AmountP := 0; q2_AssetR := ""; q2_AmountR := 0;
       q2_Transaction := ""; q2_UnblindedInputs := [] |} (ppr_SwapRequest req)) (ppr_FeeAsset req) (ppr_FeeAmount req)));
     call (lift (proposed_toProto r))).
Proof.
  intros Ht. unfold proposeTrade. eapply guarded_iff; [| |eapply guarded_eq; [|
    repeat (eapply guarded_bind; [solve [eauto with checks]|]; cbv beta iota zeta); apply guarded_true]].
  - unfold valid_proposal. tauto.
  - tauto.
  - intros s. by destruct (ppr_Market req).
Qed.
End validated.

(** * Previews *)

Section previews.
Context {D : Type} `{DecimalLaws D} `{!FloatOf D} `{SwapParser} `{Elements}.
Context {M : Type} `{MarketRepository M} {T : Type} `{TradeRepository T} {W : Type} `{WalletPort W} `{!WalletAdminLaws W}.
Abbreviation St := (@State M T W).

Lemma confirmed_u64 account w w' bals a : GetBalance account w = (w', Ret bals) → is_u64 (confirmed bals a).
Proof.
  intros HG. unfold confirmed. destruct (bals !! a) eqn:E; [by apply (balance_u64 _ _ _ _ _ _ HG E)|]. unfold is_u64. lia.
Qed.

Lemma TradePreview_Ret b q tt amount asset feeAsset (s s' : St) mkt info :
  TradePreview (D := D) b q tt amount asset feeAsset s = (s', Ret (mkt, info)) →
  GetMarketByAssets (st_markets s) b q = Ret mkt ∧ wallet_only s s' ∧
  ∃ bals, GetBalance (Name mkt) (st_wallet s) = (st_wallet s', Ret bals) ∧
    tradePreview (D := D) mkt bals tt feeAsset asset amount = Ret info.
Proof.
  unfold TradePreview. intros HT. case_match; [done|].
  apply action_bind_Ret in HT as (s1 & m & HM & HT). apply or_error_Ret in HM. injection HM as <- HM.
  case_match; [done|]. apply action_bind_Ret in HT as (s2 & bals & HB & HT). apply or_error_Ret, on_wallet_Ret in HB as (HB & HW).
  apply action_bind_Ret in HT as (s3 & i & HL & HT). injection HT as <- <- <-. injection HL as <- HL. destruct HW as (?&?&?&?).
  split; [done|]. split; [split_and!; done|]. by exists bals.
Qed.

Lemma preview_covered req (s s' : St) l :
  is_u64 (ptr_Amount req) →
  (∀ m, GetMarketByAssets (st_markets s) (base_of (ptr_Market req)) (quote_of (ptr_Market req)) = Ret m →
     market_wf (D := D) m) →
  previewTrade (D := D) req s = (s', Ret l) →
  valid_preview req ∧ wallet_only s s' ∧
  ∃ m bals quote,
    GetMarketByAssets (st_markets s) (base_of (ptr_Market req)) (quote_of (ptr_Market req)) = Ret m ∧
    Tradable m = true ∧ GetBalance (Name m) (st_wallet s) = (st_wallet s', Ret bals) ∧ l = [quote] ∧
    let isBuy := ptr_Type req =? TRADE_TYPE_BUY in
    let isBase := bool_decide (ptr_Asset req = BaseAsset m) in
    pvw_Asset quote = (if isBase then QuoteAsset m else BaseAsset m) ∧
    0 < pvw_Amount quote < 2 ^ 64 ∧
    0 ≤ (if xorb isBuy isBase then pvw_Amount quote else ptr_Amount req)
      < confirmed bals (if isBuy then BaseAsset m else QuoteAsset m) ∧
    pvw_Price quote = marketPriceInfo_toProto (D := D) (Price m).
Proof.
  intros Ha Hwf HP. apply (guarded_Ret _ _ _ _ _ _ _ (previewTrade_guarded req Ha)) in HP as [Hv HP].
  apply reply_Ret in HP as ([m info] & HP & ->). apply call_Ret, TradePreview_Ret in HP as (Hm & HW & bals & HB & HT).
  split; [done|]. split; [done|]. unfold tradePreview in HT.
  destruct (preview_reserve_bound _ _ _ _ _ _ _ _ (Hwf _ Hm) (confirmed_u64 _ _ _ _ _ HB) (confirmed_u64 _ _ _ _ _ HB) Ha HT)
    as (Ht & Hasset & Hpos & Hlt). cbn [tradeTypeInfo IsBuy] in *.
  eexists m, bals, _. split_and!; [done | done | done | reflexivity | exact Hasset | exact (proj1 Hpos)
    | exact (proj2 Hpos) | exact (proj1 Hlt) | | done].
  destruct (ptr_Type req =? TRADE_TYPE_BUY); exact (proj2 Hlt).
Qed.

(** what the trade interface quotes is covered.  When PreviewTrade answers, the
    request was valid, the market it names is stored and open, and there is one quote:
    for the other asset of the pair, a positive uint64, and whichever of the requested
    and the quoted amount the market would pay out is below the confirmed balance the
    wallet reports for that asset.  Nothing but the wallet's own state changes.  The
    price shown is the one stored with the market, not the one of the quote. *)
Theorem quotes_covered req (s s' : St) l :
  is_u64 (ptr_Amount req) →
  (∀ m, GetMarketByAssets (st_markets s) (base_of (ptr_Market req)) (quote_of (ptr_Market req)) = Ret m →
     market_wf (D := D) m) →
  previewTrade (D := D) req s = (s', Ret l) →
  valid_preview req ∧ wallet_only s s' ∧
  ∃ m bals quote,
    GetMarketByAssets (st_markets s) (base_of (ptr_Market req)) (quote_of (ptr_Market req)) = Ret m ∧
    Tradable m = true ∧ GetBalance (Name m) (st_wallet s) = (st_wallet s', Ret bals) ∧ l = [quote] ∧
    let isBuy := ptr_Type req =? TRADE_TYPE_BUY in
    let isBase := bool_decide (ptr_Asset req = BaseAsset m) in
    pvw_Asset quote = (if isBase then QuoteAsset m else BaseAsset m) ∧
    0 < pvw_Amount quote < 2 ^ 64 ∧
    0 ≤ (if xorb isBuy isBase then pvw_Amount quote else ptr_Amount req)
      < confirmed bals (if isBuy then BaseAsset m else QuoteAsset m) ∧
    pvw_Price quote = marketPriceInfo_toProto (D := D) (Price m).
Proof. apply preview_covered. Qed.
End previews.

(** * Examples *)
Module TradeHandlerExamples.
Import MarketExamples TradeExamples SwapExamples HandlerExamples.

#[local] Instance wallet : WalletPort () := ServiceExamples.funded.
#[local] Instance wallet_laws : WalletAdminLaws () (H := wallet).
Proof.
  split.
  - intros account num w w' l _ [= _ <-]. apply length_replicate.
  - intros account w w' bs a b [= _ <-]. rewrite lookup_insert_Some, lookup_singleton_Some.
    intros [[_ <-]|(_ & _ & <-)]; unfold is_u64; cbn; lia.
Qed.

(** Selling 0.01 base. *)
Definition sell : pb_PreviewTradeRequest := {|
  ptr_Market := pair; ptr_Type := TRADE_TYPE_SELL; ptr_Amount := 1000000; ptr_Asset := base; ptr_FeeAsset := quote |}.
Definition run := previewTrade (D := Fixed.t) sell ServiceExamples.start.
Definition quoted : list pb_Preview := match snd run with Ret l => l | _ => [] end.
Lemma run_quoted : snd run = Ret quoted.
Proof. unfold quoted. by assert (∃ l, snd run = Ret l) as [l ->] by (eexists; vm_compute; reflexivity). Qed.

Lemma quotes_covered_witness :
  ∃ m bals quote, GetMarketByAssets (st_markets ServiceExamples.start) (base_of pair) (quote_of pair) = Ret m ∧
    quoted = [quote] ∧ 0 < pvw_Amount quote < 2 ^ 64 ∧
    0 ≤ (if xorb (TRADE_TYPE_SELL =? TRADE_TYPE_BUY) (bool_decide (base = BaseAsset m)) then pvw_Amount quote else 1000000)
      < confirmed bals (if TRADE_TYPE_SELL =? TRADE_TYPE_BUY then BaseAsset m else QuoteAsset m).
Proof.
  destruct (quotes_covered sell ServiceExamples.start (fst run) quoted)
    as (_ & _ & m & bals & q & Hm & _ & _ & Hl & _ & Hpos & Hlt & _).
  - unfold is_u64. cbn. lia.
  - assert (GetMarketByAssets (st_markets ServiceExamples.start) (base_of (ptr_Market sell)) (quote_of (ptr_Market sell)) = Ret pluggable)
      as -> by (vm_compute; reflexivity).
    intros m [= <-]. exact pluggable_wf.
  - rewrite <- run_quoted. exact (surjective_pairing run).
  - exists m, bals, q. split_and!; [exact Hm | exact Hl | exact (proj1 Hpos) | exact (proj2 Hpos) | exact (proj1 Hlt) | exact (proj2 Hlt)].
Defined.
End TradeHandlerExamples.
