(* ===== verification/Webhooks.v ===== *)
(** internal/core/application/pubsub and internal/core/application/unlocker: the
    webhooks of the operator, the events they are notified of, and how the wallet's
    password opens their store.

    json.Marshal and the RFC 3339 format of a time are the parameters [Marshal] and
    [Format_RFC3339]; the wallet is ports.Wallet, the class [WalletManager]. *)

From Stdlib Require Import ZArith Lia.
From stdpp Require Import base tactics strings list gmap sorting.
From S2P Require Import Prelude Errors Decimal Market Trade Exchange Repos SecureStore Pubsub SwapMsg Wallet TradeService Report Operator TxEvents.
Local Open Scope nat_scope.

Abbreviation Event := Pubsub.Event.

(** * Events and topics *)

Definition eventTradeSettled : string := "TRADE_SETTLED".
Definition eventAccountLowBalance : string := "ACCOUNT_LOW_BALANCE".
Definition eventAccountWithdraw : string := "ACCOUNT_WITHDRAW".
Definition eventAccountDeposit : string := "ACCOUNT_DEPOSIT".

(** ports.WebhookEvent: its methods. *)
Record WebhookEvent := {
  IsUnspecified : bool; IsTradeSettled : bool; IsAccountLowBalance : bool;
  IsAccountWithdraw : bool; IsAccountDeposit : bool; IsAny : bool }.
(** ports.Webhook and ports.WebhookInfo *)
Record Webhook := { wh_Id : string; wh_Event : WebhookEvent; wh_Endpoint : string; wh_Secret : string }.
Record WebhookInfo := { wi_Id : string; wi_Event : WebhookEvent; wi_Endpoint : string; wi_IsSecured : bool }.

Definition topicForEvent (event : WebhookEvent) : string :=
  if IsTradeSettled event then eventTradeSettled
  else if IsAccountLowBalance event then eventAccountLowBalance
  else if IsAccountWithdraw event then eventAccountWithdraw
  else if IsAccountDeposit event then eventAccountDeposit
  else if IsAny event then AnyTopic
  else UnspecifiedTopic.
Definition webhookEventInfo (topic : string) : WebhookEvent := {|
  IsUnspecified := bool_decide (topic = UnspecifiedTopic);
  IsTradeSettled := bool_decide (topic = eventTradeSettled);
  IsAccountLowBalance := bool_decide (topic = eventAccountLowBalance);
  IsAccountWithdraw := bool_decide (topic = eventAccountWithdraw);
  IsAccountDeposit := bool_decide (topic = eventAccountDeposit);
  IsAny := bool_decide (topic = AnyTopic) |}.
Definition webhookInfo (sub : Subscription) : WebhookInfo := {|
  wi_Id := ID sub; wi_Event := webhookEventInfo (Event sub);
  wi_Endpoint := Endpoint sub; wi_IsSecured := IsSecured sub |}.

(** * Payloads *)

Definition JUint (n : Z) : json := JNumber n 0.
(** ports.Market may be nil. *)
Definition getAccountPayload (accountName : string) (market : option Market) : outcome error json :=
  if bool_decide (accountName = FeeAccount) then
    Ret (JObject [("type", JString "fee"); ("name", JString FeeAccount)])
  else
    m ← deref market;
    Ret (JObject [("type", JString "market"); ("base_asset", JString (BaseAsset m)); ("quote_asset", JString (QuoteAsset m))]).
(** A nil balance counts as zero. *)
Definition getBalancePayload (accountBalance : gmap string (option Balance)) : json :=
  JObject ((λ '(asset, bal), (asset, JObject [
    ("unconfirmed", JUint (match bal with Some b => UnconfirmedBalance b | None => 0 end));
    ("confirmed", JUint (match bal with Some b => ConfirmedBalance b | None => 0 end));
    ("locked", JUint (match bal with Some b => LockedBalance b | None => 0 end))]))%Z <$> map_to_list accountBalance).
Definition amounts_payload (m : gmap string Z) : json := JObject ((λ '(asset, n), (asset, JUint n)) <$> map_to_list m).
Definition getSwapPayload (sr : option SwapRequest) : outcome error json :=
  r ← deref sr;
  Ret (JObject [("amount_p", JUint (sr_AmountP r)); ("asset_p", JString (sr_AssetP r));
                ("amount_r", JUint (sr_AmountR r)); ("asset_r", JString (sr_AssetR r))]).
Definition getMarketPayload (trade : Trade) : json := JObject [
  ("base_asset", JString (tr_MarketBaseAsset trade)); ("quote_asset", JString (tr_MarketQuoteAsset trade))].

(** * The pubsub service *)

(** ports.Wallet, what the unlocker uses of it; [Status] and [Info] are its data. *)
Class WalletManager (V Status Info : Type) := {
  GenSeed : action V error (list string);
  InitWallet : list string → string → action V error ();
  RestoreWallet : list string → string → action V error ();
  Unlock : string → action V error ();
  Lock : string → action V error ();
  ChangePassword : string → string → action V error ();
  GetStatus : action V error Status;
  GetInfo : action V error Info;
}.

Section application.
Context {S : Type} `{SecureStorage S} `{SubscriptionJSON} {W : Type} `{Network W} `{MapOrder} `{SwapParser}.
Variables (ParseRequestURI : string → bool) (Marshal : json → string) (Format_RFC3339 : Z → string).

Definition AddWebhook (uuid : string) (webhook : Webhook) : action (Pubsub.service S W) error string :=
  if IsUnspecified (wh_Event webhook) then lift (Err (Errorf "invalid webhook event type"))
  else Subscribe ParseRequestURI uuid (topicForEvent (wh_Event webhook)) (wh_Endpoint webhook) (wh_Secret webhook).
Definition AddWebhookWithID (uuid : string) (webhook : Webhook) : action (Pubsub.service S W) error string :=
  if IsUnspecified (wh_Event webhook) then lift (Err (Errorf "invalid webhook event type"))
  else if bool_decide (wh_Id webhook = "") then lift (Err (Errorf "missing webhook id"))
  else SubscribeWithID ParseRequestURI uuid (wh_Id webhook) (topicForEvent (wh_Event webhook))
         (wh_Endpoint webhook) (wh_Secret webhook).
Definition RemoveWebhook (id : string) : action (Pubsub.service S W) error () := Unsubscribe UnspecifiedTopic id.
Definition ListWebhooks (event : WebhookEvent) : action (Pubsub.service S W) error (list WebhookInfo) :=
  subs ← ListSubscriptionsForTopic (topicForEvent event);
  mret (webhookInfo <$> subs).

Definition PublisAccountLowBalanceEvent (accountName : string) (accountBalance : gmap string (option Balance))
    (market : option Market) : action (Pubsub.service S W) error () :=
  account ← lift (getAccountPayload accountName market);
  Publish eventAccountLowBalance (Marshal (JObject [
    ("event", JString eventAccountLowBalance); ("account", account); ("balance", getBalancePayload accountBalance)])).
Definition PublisAccountDepositEvent (accountName : string) (accountBalance : gmap string (option Balance))
    (deposit : Deposit) (market : option Market) : action (Pubsub.service S W) error () :=
  account ← lift (getAccountPayload accountName market);
  Publish eventAccountDeposit (Marshal (JObject [
    ("event", JString eventAccountDeposit); ("account", account); ("balance", getBalancePayload accountBalance);
    ("txid", JString (dp_TxID deposit)); ("amount_deposited", amounts_payload (dp_TotAmountPerAsset deposit))])).
Definition PublisAccountWithdrawEvent (accountName : string) (accountBalance : gmap string (option Balance))
    (withdrawal : Withdrawal) (market : option Market) : action (Pubsub.service S W) error () :=
  account ← lift (getAccountPayload accountName market);
  Publish eventAccountWithdraw (Marshal (JObject [
    ("event", JString eventAccountWithdraw); ("account", account); ("balance", getBalancePayload accountBalance);
    ("txid", JString (wd_TxID withdrawal)); ("amount_withdrawn", amounts_payload (wd_TotAmountPerAsset withdrawal))])).
Definition PublishTradeSettledEvent (accountName : string) (accountBalance : gmap string (option Balance))
    (trade : Trade) : action (Pubsub.service S W) error () :=
  sr ← lift (SwapRequestMessage trade);
  swap ← lift (getSwapPayload sr);
  Publish eventTradeSettled (Marshal (JObject [
    ("event", JString eventTradeSettled); ("market", getMarketPayload trade);
    ("balance", getBalancePayload accountBalance); ("swap", swap);
    ("price", JObject [("base_price", JString (BasePrice (tr_MarketPrice trade)));
                       ("quote_price", JString (QuotePrice (tr_MarketPrice trade)))]);
    ("txid", JString (tr_TxId trade)); ("settlement_timestamp", JNumber (tr_SettlementTime trade) 0);
    ("settlement_date", JString (Format_RFC3339 (tr_SettlementTime trade)));
    ("trading_fees", JObject [("asset", JString (tr_FeeAsset trade)); ("amount", JUint (tr_FeeAmount trade))])])).

(** The calls of the operator service (TxEvents.v), as the goroutines make them;
    the account is the one of the deposit or withdrawal. *)
Definition deliver (e : TxEvents.Event) : action (Pubsub.service S W) error () :=
  match e with
  | AccountLowBalance account balance market => PublisAccountLowBalanceEvent account balance market
  | AccountDeposit d balance market => PublisAccountDepositEvent (dp_AccountName d) (Some <$> balance) d market
  | AccountWithdraw w balance market => PublisAccountWithdrawEvent (wd_AccountName w) (Some <$> balance) w market
  end.
End application.

(** * The unlocker *)
Section unlocker.
Context {S : Type} `{SecureStorage S} {V Status Info : Type} `{WalletManager V Status Info}.

Record unlocker := { wallet : V; pubsub : S }.
Definition on_wallet {A} (m : action V error A) : action unlocker error A := λ s,
  let '(w, o) := m (wallet s) in ({| wallet := w; pubsub := pubsub s |}, o).
(** A call of the pubsub store whose error is ignored. *)
Definition then_store (m : action S error ()) : action unlocker error () := λ s,
  match m (pubsub s) with
  | (d, Panic p) => ({| wallet := wallet s; pubsub := d |}, Panic p)
  | (d, _) => ({| wallet := wallet s; pubsub := d |}, Ret ())
  end.

Definition svc_GenSeed : action unlocker error (list string) := on_wallet GenSeed.
Definition svc_InitWallet (mnemonic : list string) (password : string) : action unlocker error () :=
  _ ← on_wallet (InitWallet mnemonic password); then_store (store_Init (string_bytes password)).
Definition svc_RestoreWallet (mnemonic : list string) (password : string) : action unlocker error () :=
  _ ← on_wallet (RestoreWallet mnemonic password); then_store (store_Init (string_bytes password)).
Definition svc_UnlockWallet (password : string) : action unlocker error () :=
  _ ← on_wallet (Unlock password); then_store (store_Unlock (string_bytes password)).
Definition svc_LockWallet (password : string) : action unlocker error () :=
  _ ← on_wallet (Lock password); then_store (λ d, (ss_Lock d, Ret ())).
Definition svc_ChangePassword (oldPwd newPwd : string) : action unlocker error () :=
  _ ← on_wallet (ChangePassword oldPwd newPwd);
  then_store (ss_ChangePassword (string_bytes oldPwd) (string_bytes newPwd)).
Definition svc_Status : action unlocker error Status := on_wallet GetStatus.
Definition svc_Info : action unlocker error Info := on_wallet GetInfo.
End unlocker.
Arguments unlocker S V : clear implicits.

(** * Theorems *)

Section application_theorems.
Context {S : Type} `{!SecureStorage S} `{!SecureStorageLaws S} `{!SubscriptionJSON} `{!SubscriptionJSONLaws}.
Context {W : Type} `{!Network W} `{!NetworkLaws W} `{MapOrder} `{SwapParser}.
Variables (ParseRequestURI : string → bool) (Marshal : json → string) (Format_RFC3339 : Z → string).
Implicit Types (s : Pubsub.service S W) (subs : gmap string Subscription).

Definition topics : list string :=
  [eventTradeSettled; eventAccountLowBalance; eventAccountWithdraw; eventAccountDeposit; AnyTopic].

Lemma topic_of_info t : topicForEvent (webhookEventInfo t) = if bool_decide (t ∈ topics) then t else UnspecifiedTopic.
Proof. unfold topicForEvent, topics; cbn. repeat case_bool_decide; subst; set_solver. Qed.
Lemma topics_good t : t ∈ topics → good_key t.
Proof. unfold topics. intros Ht. split; intros ->; set_solver. Qed.

Definition new_hook (id : string) (w : Webhook) : Subscription :=
  {| ID := id; Event := topicForEvent (wh_Event w); Endpoint := wh_Endpoint w; Secret := wh_Secret w |}.

(** The subscriptions a list of webhooks of the event shows. *)
Definition listed subs (t : string) : list Subscription := of_topic subs t ++ and_any subs t.

(** the operator's webhooks.  A webhook of a known event and a valid endpoint
    is added under the event's topic; an unspecified event is refused, and so is an
    ID that is empty or taken.  Removing it by its ID takes it away.  The webhooks
    listed for an event are exactly those of the event and those of any event, all
    of them when the event is unspecified, and each shows the event it was added
    with. *)
Theorem webhooks_correct s pw subs uuid w t : rep s pw subs →
  t ∈ topics → wh_Event w = webhookEventInfo t → ParseRequestURI (wh_Endpoint w) = true →
  good_key uuid → good_key (wh_Id w) → (∀ id, valid_utf8 (new_hook id w)) →
  let add := AddWebhook ParseRequestURI uuid w in
  let addWithID := AddWebhookWithID ParseRequestURI uuid w in
  (subs !! uuid = None → ∃ d, add s = ({| store := d; net := net s |}, Ret uuid) ∧
     rep {| store := d; net := net s |} pw (<[uuid := new_hook uuid w]> subs)) ∧
  (subs !! wh_Id w = None → ∃ d, addWithID s = ({| store := d; net := net s |}, Ret (wh_Id w)) ∧
     rep {| store := d; net := net s |} pw (<[wh_Id w := new_hook (wh_Id w) w]> subs)) ∧
  (is_Some (subs !! wh_Id w) → (∃ e, addWithID s = (s, Err e)) ∧
     ∃ d, RemoveWebhook (wh_Id w) s = ({| store := d; net := net s |}, Ret ()) ∧
       rep {| store := d; net := net s |} pw (delete (wh_Id w) subs)) ∧
  (∀ w', IsUnspecified (wh_Event w') = true →
     (∃ e, AddWebhook ParseRequestURI uuid w' s = (s, Err e)) ∧ ∃ e, AddWebhookWithID ParseRequestURI uuid w' s = (s, Err e)) ∧
  (∀ t', t' ∈ UnspecifiedTopic :: topics → ∃ l, ListWebhooks (webhookEventInfo t') s = (s, Ret (webhookInfo <$> l)) ∧ l ≡ₚ listed subs t') ∧
  topicForEvent (wi_Event (webhookInfo (new_hook uuid w))) = t.
Proof.
  intros Hr Ht Hev Huri Hguuid Hgid Hutf add addWithID. pose proof (topics_good t Ht) as Hgt.
  assert (topicForEvent (wh_Event w) = t) as Htop by (by rewrite Hev, topic_of_info, bool_decide_true).
  assert (IsUnspecified (wh_Event w) = false) as Hspec by (rewrite Hev; cbn; apply bool_decide_false, Hgt).
  assert (∀ i, NewSubscription ParseRequestURI i t (wh_Endpoint w) (wh_Secret w) = Ret (new_hook i w)) as HN.
  { intros i. unfold NewSubscription. rewrite bool_decide_false, Huri by apply Hgt. unfold new_hook. by rewrite Htop. }
  assert (∀ i, good_key i → wf_sub (ID (new_hook i w)) (new_hook i w)) as Hwf.
  { intros i Hi. refine (conj eq_refl (conj Hi (conj _ (Hutf i)))). cbn. by rewrite Htop. }
  pose proof (add_ok _ _ _ _ Hr (Hwf _ Hguuid)) as Hu. pose proof (add_ok _ _ _ _ Hr (Hwf _ Hgid)) as Hi.
  pose proof (remove_ok _ _ _ _ Hr Hgid) as Hrm. cbn [new_hook ID] in Hu, Hi.
  unfold add, addWithID, AddWebhook, AddWebhookWithID, Subscribe, SubscribeWithID, mbind, action_bind, lift.
  rewrite Hspec, Htop, !HN, !bool_decide_false by apply Hgid.
  assert (new_hook (wh_Id w) w = {| ID := wh_Id w; Event := t; Endpoint := wh_Endpoint w; Secret := wh_Secret w |}) as Hnew
    by (unfold new_hook; by rewrite Htop). rewrite <- Hnew. split_and!.
  - intros En. rewrite En in Hu. destruct Hu as (d & ? & _ & ?). eauto.
  - intros En. rewrite En in Hi. destruct Hi as (d & _ & ? & ?). eauto.
  - intros [x Ex]. rewrite Ex in Hi, Hrm. destruct Hi as [_ Hi]. eauto.
  - intros w' ->. eauto.
  - intros t' Ht'. assert (topicForEvent (webhookEventInfo t') = t') as Et.
    { rewrite topic_of_info. apply elem_of_cons in Ht' as [->|Ht']; [by case_bool_decide | by rewrite bool_decide_true]. }
    destruct (list_ok s pw subs t' Hr) as (l1 & l2 & El & P1 & P2 & _ & _).
    { apply elem_of_cons in Ht' as [->|Ht']; [by left | right; by apply topics_good]. }
    exists (l1 ++ l2). unfold ListWebhooks, mbind, action_bind. rewrite Et, El. split; [done|].
    unfold listed. by rewrite P1, P2.
  - cbn. by rewrite Htop, topic_of_info, bool_decide_true.
Qed.

(** The topic of an event, its account and the market of the account. *)
Definition event_topic (e : TxEvents.Event) : string :=
  match e with
  | AccountLowBalance _ _ _ => eventAccountLowBalance
  | AccountDeposit _ _ _ => eventAccountDeposit
  | AccountWithdraw _ _ _ => eventAccountWithdraw
  end.
Definition event_account (e : TxEvents.Event) : string :=
  match e with
  | AccountLowBalance a _ _ => a
  | AccountDeposit d _ _ => dp_AccountName d
  | AccountWithdraw w _ _ => wd_AccountName w
  end.
Definition event_market (e : TxEvents.Event) : option Market :=
  match e with AccountLowBalance _ _ m | AccountDeposit _ _ m | AccountWithdraw _ _ m => m end.

Lemma deliver_publish e s : event_account e = FeeAccount ∨ is_Some (event_market e) →
  ∃ fields account, getAccountPayload (event_account e) (event_market e) = Ret account ∧
    field fields "event" = Some (JString (event_topic e)) ∧ field fields "account" = Some account ∧
    deliver Marshal e s = Publish (event_topic e) (Marshal (JObject fields)) s.
Proof.
  intros Hm. assert (∃ account, getAccountPayload (event_account e) (event_market e) = Ret account) as [account Ha].
  { unfold getAccountPayload. case_bool_decide; [eauto|]. destruct Hm as [|[m ->]]; [done|]. cbn. eauto. }
  destruct e as [a b m|d b m|x b m]; cbn in *;
    unfold PublisAccountLowBalanceEvent, PublisAccountDepositEvent, PublisAccountWithdrawEvent, mbind, action_bind, lift;
    rewrite Ha; eexists _, account; refine (conj _ (conj _ (conj _ eq_refl))); reflexivity.
Qed.

(** an event of an account reaches the webhooks that ask for it.  What the
    operator service publishes for an account (TxEvents.v) is sent to exactly the
    webhooks of that event and to those of any event, each at most once and all of
    them when no request fails, with a payload that names the event and the account.
    An event of a market's account without its market panics. *)
Theorem events_reach_webhooks s pw subs e : rep s pw subs →
  let targets := topic_subs subs (event_topic e) ++ topic_subs subs AnyTopic in
  (event_account e = FeeAccount ∨ is_Some (event_market e) →
     ∃ s' o fields account log, deliver Marshal e s = (s', o) ∧
       getAccountPayload (event_account e) (event_market e) = Ret account ∧
       field fields "event" = Some (JString (event_topic e)) ∧ field fields "account" = Some account ∧
       store s' = store s ∧ (∀ p, o ≠ Panic p) ∧ sent (net s') = sent (net s) ++ log ∧
       log.*1 ⊆+ (request (Marshal (JObject fields)) <$> targets) ∧
       (o = Ret () → log.*1 ≡ₚ request (Marshal (JObject fields)) <$> targets ∧ Forall answered_ok log.*2)) ∧
  (event_account e ≠ FeeAccount → event_market e = None → deliver Marshal e s = (s, Panic NilDereference)).
Proof.
  intros Hr targets. split.
  - intros Hm. destruct (deliver_publish e s Hm) as (fields & account & Ha & Hf & Hfa & E).
    destruct (Publish (event_topic e) (Marshal (JObject fields)) s) as [s' o] eqn:Ep.
    assert (good_key (event_topic e)) as Hg by (by destruct e).
    destruct (publish_ok s pw subs _ _ _ _ Hr Hg Ep) as (Hst & Hp & log & Hlog & Hsub & Hok & _).
    assert (and_any subs (event_topic e) = topic_subs subs AnyTopic) as Hand by (by destruct e).
    rewrite Hand in Hsub, Hok. exists s', o, fields, account, log. rewrite E. by split_and!.
  - intros Ha Hm. destruct e as [a b m|d b m|x b m]; cbn in *; subst m;
      unfold PublisAccountLowBalanceEvent, PublisAccountDepositEvent, PublisAccountWithdrawEvent, getAccountPayload, mbind, action_bind, lift;
      by rewrite bool_decide_false.
Qed.
End application_theorems.

Section unlocker_theorems.
Context {S : Type} `{!SecureStorage S} `{!SecureStorageLaws S} `{!SubscriptionJSON} `{!SubscriptionJSONLaws}.
Context {W : Type} `{!Network W} {V Status Info : Type} `{!WalletManager V Status Info}.
Implicit Types (s : unlocker S V) (w : W).

(** The webhooks of an unlocked store. *)
Definition webhooks (d : S) (w : W) (password : string) (subs : gmap string Subscription) : Prop :=
  rep {| store := d; net := w |} (string_bytes password) subs.

Lemma wallet_first (m : action V error ()) (f : action S error ()) s v o : m (wallet s) = (v, o) →
  (_ ← on_wallet m; then_store f) s =
    match o with
    | Ret _ => then_store f {| wallet := v; pubsub := pubsub s |}
    | Err e => ({| wallet := v; pubsub := pubsub s |}, Err e)
    | Panic p => ({| wallet := v; pubsub := pubsub s |}, Panic p)
    end.
Proof. intros E. unfold mbind, action_bind, on_wallet. rewrite E. by destruct o. Qed.

(** the wallet's password opens the webhooks too.  When the wallet refuses an
    operation its error is returned and the webhooks are not touched.  When it is
    initialised or restored, the store of the webhooks is set up with the same password and
    stays locked until the wallet is unlocked; locking the wallet locks the
    webhooks, and unlocking it with the same password brings all of them back. *)
Theorem unlocker_correct s w mnemonic password subs v o :
  (Unlock password (wallet s) = (v, o) → (∀ a, o ≠ Ret a) →
     fst (svc_UnlockWallet password s) = {| wallet := v; pubsub := pubsub s |} ∧ snd (svc_UnlockWallet password s) = o) ∧
  (InitWallet mnemonic password (wallet s) = (v, Ret ()) → blank (pubsub s) →
     ∃ d, svc_InitWallet mnemonic password s = ({| wallet := v; pubsub := d |}, Ret ()) ∧ ss_IsLocked d = true ∧
       ∀ v0 v', Unlock password v0 = (v', Ret ()) →
         ∃ d', svc_UnlockWallet password {| wallet := v0; pubsub := d |} = ({| wallet := v'; pubsub := d' |}, Ret ()) ∧
           webhooks d' w password ∅) ∧
  (RestoreWallet mnemonic password (wallet s) = (v, Ret ()) → blank (pubsub s) →
     ∃ d, svc_RestoreWallet mnemonic password s = ({| wallet := v; pubsub := d |}, Ret ()) ∧ ss_IsLocked d = true) ∧
  (Lock password (wallet s) = (v, Ret ()) → webhooks (pubsub s) w password subs →
     ∃ d, svc_LockWallet password s = ({| wallet := v; pubsub := d |}, Ret ()) ∧ ss_IsLocked d = true ∧
       ∀ v0 v', Unlock password v0 = (v', Ret ()) →
         ∃ d', svc_UnlockWallet password {| wallet := v0; pubsub := d |} = ({| wallet := v'; pubsub := d' |}, Ret ()) ∧
           webhooks d' w password subs).
Proof.
  split_and!.
  - intros E Ho. unfold svc_UnlockWallet. rewrite (wallet_first _ _ _ _ _ E). by destruct o as [[]|e|p]; [destruct (Ho ())| |].
  - intros E Hb. destruct (init_ok (pubsub s) w (string_bytes password) Hb) as (d1 & d2 & E1 & Hl & E2 & Hr).
    exists d1. unfold svc_InitWallet, svc_UnlockWallet. rewrite (wallet_first _ _ _ _ _ E). unfold then_store at 1.
    cbn [pubsub wallet]. rewrite E1. split_and!; [done..|]. intros v0 v' Ev. exists d2.
    rewrite (wallet_first _ _ {| wallet := v0; pubsub := d1 |} _ _ Ev). unfold then_store. cbn [pubsub wallet]. by rewrite E2.
  - intros E Hb. destruct (init_ok (pubsub s) w (string_bytes password) Hb) as (d1 & d2 & E1 & Hl & _).
    exists d1. unfold svc_RestoreWallet. rewrite (wallet_first _ _ _ _ _ E). unfold then_store.
    cbn [pubsub wallet]. by rewrite E1.
  - intros E Hr. destruct (relock_ok _ _ w _ _ Hr) as (Hl & _ & d1 & E1 & Hr1).
    exists (ss_Lock (pubsub s)). unfold svc_LockWallet, svc_UnlockWallet. rewrite (wallet_first _ _ _ _ _ E).
    split_and!; [done..|]. intros v0 v' Ev. exists d1.
    rewrite (wallet_first _ _ {| wallet := v0; pubsub := ss_Lock (pubsub s) |} _ _ Ev). unfold then_store. cbn [pubsub wallet].
    by rewrite E1.
Qed.

(** When the store of the webhooks has another password than the wallet,
    UnlockWallet succeeds and the webhooks stay locked. *)
Theorem unlock_ignores_the_webhooks s w pw password subs v v' : webhooks (pubsub s) w pw subs →
  string_bytes password ≠ string_bytes pw → Unlock password v = (v', Ret ()) →
  svc_UnlockWallet password {| wallet := v; pubsub := ss_Lock (pubsub s) |} =
    ({| wallet := v'; pubsub := ss_Lock (pubsub s) |}, Ret ()).
Proof.
  intros Hr Hne E. destruct (relock_ok _ _ w _ _ Hr) as (_ & Hw & _). destruct (Hw _ Hne) as [e He].
  unfold svc_UnlockWallet. rewrite (wallet_first _ _ {| wallet := v; pubsub := ss_Lock (pubsub s) |} _ _ E).
  unfold then_store. cbn [pubsub wallet]. by rewrite He.
Qed.
End unlocker_theorems.

Module WebhookExamples.
Import SecureStoreExamples PubsubExamples.

(** A wallet that accepts everything. *)
#[local] Instance toy_wallet : WalletManager () () () := {
  GenSeed := mret []; InitWallet _ _ := mret (); RestoreWallet _ _ := mret (); Unlock _ := mret ();
  Lock _ := mret (); Webhooks.ChangePassword _ _ := mret (); GetStatus := mret (); GetInfo := mret (); }.

Definition webhook : Webhook :=
  {| wh_Id := "id2"; wh_Event := webhookEventInfo AnyTopic; wh_Endpoint := "http://localhost"; wh_Secret := "" |}.
Lemma webhooks_correct_witness :
  rep s1 pw {["id1"%string := hook]} ∧
  ∃ d, AddWebhookWithID (λ _, true) "id3" webhook s1 = ({| store := d; net := net s1 |}, Ret "id2"%string) ∧
    rep {| store := d; net := net s1 |} pw (<["id2"%string := new_hook "id2" webhook]> {["id1"%string := hook]}).
Proof.
  split; [exact s1_rep|].
  destruct (webhooks_correct (λ _, true) s1 pw {["id1"%string := hook]} "id3" webhook AnyTopic s1_rep) as (_ & Hadd & _);
    [apply list_elem_of_further, list_elem_of_further, list_elem_of_further, list_elem_of_further, list_elem_of_here
    | reflexivity | reflexivity | split; discriminate | split; discriminate | intros; exact I |].
  apply Hadd. reflexivity.
Defined.

Definition deposited : TxEvents.Event :=
  AccountDeposit {| dp_AccountName := FeeAccount; dp_TxID := "tx"; dp_TotAmountPerAsset := ∅; dp_Timestamp := 0 |} ∅ None.
Lemma events_reach_webhooks_witness :
  rep s1 pw {["id1"%string := hook]} ∧ event_account deposited = FeeAccount ∧
  ∃ s' o, deliver (λ _, "{}"%string) deposited s1 = (s', o) ∧ store s' = store s1.
Proof.
  split; [exact s1_rep|]. split; [reflexivity|].
  destruct (events_reach_webhooks (λ _, "{}"%string) s1 pw {["id1"%string := hook]} deposited s1_rep) as [He _].
  destruct He as (s' & o & fields & account & log & E & _ & _ & _ & Hst & _); [left; reflexivity|].
  exists s', o. split; [exact E | exact Hst].
Defined.

(** The webhooks of an event before and after the password of the wallet is
    changed: they are lost. *)
Definition password : string := "pass".
Definition opened : unlocker (boltSecureStorage tree key) () :=
  fst ((_ ← svc_InitWallet [] password; svc_UnlockWallet password) {| wallet := (); pubsub := fresh |}).
Definition with_hook : boltSecureStorage tree key :=
  store (fst (addSubscription hook {| store := pubsub opened; net := [] : wire |})).
Definition hooks_of (d : boltSecureStorage tree key) : outcome error (list string) :=
  match ListWebhooks (webhookEventInfo eventTradeSettled) {| store := d; net := [] : wire |} with
  | (_, Ret l) => Ret (wi_Id <$> l) | (_, Err e) => Err e | (_, Panic p) => Panic p
  end.
Example password_change_loses_webhooks :
  hooks_of with_hook = Ret ["id1"%string] ∧
  snd (svc_ChangePassword password "other" {| wallet := (); pubsub := with_hook |}) = Ret () ∧
  hooks_of (pubsub (fst (svc_ChangePassword password "other" {| wallet := (); pubsub := with_hook |}))) = Ret [].
Proof. split_and!; vm_compute; reflexivity. Qed.
End WebhookExamples.
