(* ===== verification/AdminHandlers.v ===== *)
(** The handlers of the webhook, feeder and wallet interfaces:
    internal/interfaces/grpc/handler/webhook.go, feeder.go, wallet.go and
    health_handler.go, with their parsers of utils.go and conversions of types.go.

    The wallet handler starts a goroutine of the interface's own (Interface.v) after a
    call that succeeded: its calls are kept in [ws_callbacks] until they run. *)

From Stdlib Require Import ZArith Lia.
From stdpp Require Import base tactics strings list gmap.
From S2P Require Import Prelude Errors Decimal Market Trade Exchange Repos Badger Feeder SecureStore Pubsub Macaroons SwapMsg Wallet TradeService Report Calendar Requests Operator TxEvents Listing Handlers Webhooks.
Local Open Scope Z_scope.

(** * Webhooks *)

(** webhookEventInfo and webhookInfo of handler/types.go. *)
Definition pb_event (event : Z) : WebhookEvent := {|
  IsUnspecified := event =? WEBHOOK_EVENT_UNSPECIFIED;
  IsTradeSettled := event =? WEBHOOK_EVENT_TRADE_SETTLED;
  IsAccountLowBalance := event =? WEBHOOK_EVENT_ACCOUNT_LOW_BALANCE;
  IsAccountWithdraw := event =? WEBHOOK_EVENT_ACCOUNT_WITHDRAW;
  IsAccountDeposit := event =? WEBHOOK_EVENT_ACCOUNT_DEPOSIT;
  IsAny := event =? WEBHOOK_EVENT_ANY |}.
Definition pb_webhook (hook : pb_AddWebhook) : Webhook := {|
  wh_Id := ""; wh_Event := pb_event (pbw_Event hook); wh_Endpoint := pbw_Endpoint hook; wh_Secret := pbw_Secret hook |}.

Definition parseWebhookEvent (event : Z) : outcome error WebhookEvent :=
  if negb (known_event event) then new_error "invalid event" else Ret (pb_event event).
Definition parseWebhook (hook : pb_AddWebhook) : outcome error Webhook :=
  _ ← parseWebhookEvent (pbw_Event hook);
  if pbw_Event hook =? WEBHOOK_EVENT_UNSPECIFIED then new_error "invalid event"
  else if (String.length (pbw_Endpoint hook) <=? 0)%nat then new_error "missing webhook endpoint"
  else Ret (pb_webhook hook).

Record pb_WebhookInfo := { pwi_Id : string; pwi_Endpoint : string; pwi_IsSecured : bool; pwi_Event : Z }.
Definition event_toProto (e : WebhookEvent) : Z :=
  if IsTradeSettled e then WEBHOOK_EVENT_TRADE_SETTLED
  else if IsAccountLowBalance e then WEBHOOK_EVENT_ACCOUNT_LOW_BALANCE
  else if IsAccountWithdraw e then WEBHOOK_EVENT_ACCOUNT_WITHDRAW
  else if IsAccountDeposit e then WEBHOOK_EVENT_ACCOUNT_DEPOSIT
  else if IsAny e then WEBHOOK_EVENT_ANY
  else WEBHOOK_EVENT_UNSPECIFIED.
Definition webhooksInfo_toProto (l : list WebhookInfo) : list pb_WebhookInfo :=
  (λ i, {| pwi_Id := wi_Id i; pwi_Endpoint := wi_Endpoint i; pwi_IsSecured := wi_IsSecured i;
           pwi_Event := event_toProto (wi_Event i) |}) <$> l.

Section webhook_handlers.
Context {S : Type} `{SecureStorage S} `{SubscriptionJSON} {W : Type} `{Network W} `{MapOrder}.
Variable ParseRequestURI : string → bool.
Abbreviation handler := (action (Pubsub.service S W) rpc_error).

Definition addWebhook (uuid : string) (req : pb_AddWebhook) : handler string :=
  webhook ← parsed (parseWebhook req);
  call (AddWebhook ParseRequestURI uuid webhook).
(** The id is not parsed. *)
Definition removeWebhook (id : string) : handler () := call (RemoveWebhook id).
Definition listWebhooks (event : Z) : handler (list pb_WebhookInfo) :=
  event ← parsed (parseWebhookEvent event);
  hooks ← call (ListWebhooks event);
  mret (webhooksInfo_toProto hooks).
End webhook_handlers.

(** * Price feeds *)

Record pb_PriceFeed := {
  ppf_Id : string; ppf_Market : pb_Market; ppf_Source : string; ppf_Ticker : string; ppf_Started : bool }.
Definition priceFeedInfo_toProto (f : PriceFeedInfo) : pb_PriceFeed := {|
  ppf_Id := pi_ID f; ppf_Market := market_toProto (pi_Base f) (pi_Quote f);
  ppf_Source := pi_Source f; ppf_Ticker := pi_Ticker f; ppf_Started := pi_Started f |}.
Definition priceFeedsInfo_toProto (l : list PriceFeedInfo) : list pb_PriceFeed := priceFeedInfo_toProto <$> l.

Section feeder_handlers.
Context {S : Type} `{BadgerHold PriceFeedInfo S} {X : Type} `{PriceFeeder X} {W : Type}.
Context {M : Type} `{MarketRepository M}.
Variable dial : string → action W error X.
Abbreviation St := (@AppState S X W M).
Abbreviation handler := (action St rpc_error).

(** The queries of the feeder and of its service. *)
Definition fd_GetPriceFeed (id : string) : action (FState S X W) error PriceFeedInfo :=
  read_feeds (λ st, FeedStore.GetPriceFeed st id).
Definition fd_ListPriceFeeds : action (FState S X W) error (list PriceFeedInfo) := read_feeds FeedStore.GetAllPriceFeeds.
Definition app_GetPriceFeed (id : string) : action St error PriceFeedInfo := on_feeder (fd_GetPriceFeed id).
Definition app_ListPriceFeeds : action St error (list PriceFeedInfo) := on_feeder fd_ListPriceFeeds.

Definition h_AddPriceFeed (uuid : string) (market : option pb_Market) (source ticker : string) : handler string :=
  mkt ← parsed (parseMarket market);
  call (app_AddPriceFeed uuid (Some (pbm_BaseAsset mkt, pbm_QuoteAsset mkt)) source ticker).
Definition h_StartPriceFeed (id : string) : handler () :=
  id ← parsed (parseId id); call (app_StartPriceFeed dial id).
Definition h_StopPriceFeed (id : string) : handler () :=
  id ← parsed (parseId id); call (app_StopPriceFeed dial id).
Definition h_UpdatePriceFeed (id source ticker : string) : handler () :=
  id ← parsed (parseId id);
  _ ← parsed (if bool_decide (source = ""%string) && bool_decide (ticker = ""%string)
              then new_error "missing source and/or ticker" else Ret ());
  call (app_UpdatePriceFeed id source ticker).
Definition h_RemovePriceFeed (id : string) : handler () :=
  id ← parsed (parseId id); call (app_RemovePriceFeed id).
Definition h_GetPriceFeed (id : string) : handler pb_PriceFeed :=
  id ← parsed (parseId id);
  priceFeed ← call (app_GetPriceFeed id);
  mret (priceFeedInfo_toProto priceFeed).
Definition h_ListSupportedPriceSources : handler (list string) := mret fd_ListSources.
Definition h_ListPriceFeeds : handler (list pb_PriceFeed) :=
  priceFeeds ← call app_ListPriceFeeds;
  mret (priceFeedsInfo_toProto priceFeeds).

Inductive FeederRequest :=
  | AddPriceFeedRequest (uuid : string) (market : option pb_Market) (source ticker : string)
  | StartPriceFeedRequest (id : string)
  | StopPriceFeedRequest (id : string)
  | UpdatePriceFeedRequest (id source ticker : string)
  | RemovePriceFeedRequest (id : string)
  | GetPriceFeedRequest (id : string)
  | ListSupportedPriceSourcesRequest
  | ListPriceFeedsRequest.
Inductive FeederResponse :=
  | FeedId (id : string) | FeedDone | FeedOf (f : pb_PriceFeed) | SourcesOf (l : list string) | FeedsOf (l : list pb_PriceFeed).
Definition feeder_server (r : FeederRequest) : handler FeederResponse :=
  match r with
  | AddPriceFeedRequest uuid m source ticker => reply FeedId (h_AddPriceFeed uuid m source ticker)
  | StartPriceFeedRequest id => reply (λ _, FeedDone) (h_StartPriceFeed id)
  | StopPriceFeedRequest id => reply (λ _, FeedDone) (h_StopPriceFeed id)
  | UpdatePriceFeedRequest id source ticker => reply (λ _, FeedDone) (h_UpdatePriceFeed id source ticker)
  | RemovePriceFeedRequest id => reply (λ _, FeedDone) (h_RemovePriceFeed id)
  | GetPriceFeedRequest id => reply FeedOf (h_GetPriceFeed id)
  | ListSupportedPriceSourcesRequest => reply SourcesOf h_ListSupportedPriceSources
  | ListPriceFeedsRequest => reply FeedsOf h_ListPriceFeeds
  end.
End feeder_handlers.

(** * The wallet *)

(** ports.WalletStatus, ports.WalletAccount, ports.WalletInfo, ports.BuildData *)
Record WalletStatus := { IsInitialized : bool; IsUnlocked : bool; IsSynced : bool }.
Record AccountInfo := {
  ac_Label : string; ac_DerivationPath : string; ac_Xpubs : list string; ac_MasterBlindingKey : string }.
Record WalletInfo := { inf_RootPath : string; inf_Network : string; inf_Accounts : list AccountInfo }.
Record BuildData := { bd_Version : string; bd_Commit : string; bd_Date : string }.

Record pb_AccountInfo := {
  pai_Name : string; pai_DerivationPath : string; pai_Xpubs : list string; pai_MasterBlindingKey : string }.
Record pb_GetInfoResponse := {
  pgi_RootPath : string; pgi_Network : string; pgi_BuildData : BuildData; pgi_AccountInfo : list pb_AccountInfo }.
Definition accountsInfo_toProto (l : list AccountInfo) : list pb_AccountInfo :=
  (λ a, {| pai_Name := ac_Label a; pai_DerivationPath := ac_DerivationPath a; pai_Xpubs := ac_Xpubs a;
           pai_MasterBlindingKey := ac_MasterBlindingKey a |}) <$> l.
Definition buildDataInfo_toProto (b : BuildData) : BuildData :=
  {| bd_Version := bd_Version b; bd_Commit := bd_Commit b; bd_Date := bd_Date b |}.
Definition walletInfo_toProto (info : WalletInfo) (b : BuildData) : pb_GetInfoResponse := {|
  pgi_RootPath := inf_RootPath info; pgi_Network := inf_Network info;
  pgi_BuildData := buildDataInfo_toProto b; pgi_AccountInfo := accountsInfo_toProto (inf_Accounts info) |}.
Definition walletStatusInfo_toProto (s : WalletStatus) : WalletStatus :=
  {| IsInitialized := IsInitialized s; IsUnlocked := IsUnlocked s; IsSynced := IsSynced s |}.

(** health_handler.go: SERVING *)
Definition health_Check : Z := 1.

(** The goroutines of the interface a call of the wallet starts. *)
Inductive callback :=
  | OnInit (pwd : string)
  | OnUnlock (pwd : string)
  | OnLock (pwd : string)
  | OnChangePwd (oldPwd newPwd : string).

(** One round of the loop that waits for the macaroon: what os.Stat and os.ReadFile
    find. *)
Inductive look :=
  | NotExist
  | StatError (e : error)
  | ReadError (e : error)
  | FileContent (mac : bytes).
(** What the loop returns after these rounds; [None] when it still waits. *)
Fixpoint await_macaroon (looks : list look) : option (outcome error string) :=
  match looks with
  | [] => None
  | NotExist :: looks => await_macaroon looks
  | StatError e :: _ => Some (Err e)
  | ReadError e :: _ => Some (Err e)
  | FileContent mac :: looks =>
      match mac with
      | [] => await_macaroon looks
      | _ => Some (Ret ("macaroon: " +:+ hex_Encode mac)%string)
      end
  end.

Section wallet_handlers.
Context {S : Type} `{SecureStorage S} {V : Type} `{WalletManager V WalletStatus WalletInfo}.
Variables (buildData : BuildData) (macaroonPath : string).

Record WalletState := { ws_unlocker : unlocker S V; ws_callbacks : list callback }.
Abbreviation handler := (action WalletState rpc_error).
Definition on_unlocker {A} (m : action (unlocker S V) error A) : handler A := call (λ s,
  let '(u, o) := m (ws_unlocker s) in ({| ws_unlocker := u; ws_callbacks := ws_callbacks s |}, o)).
(** [go h.onInit(password)] and the like *)
Definition go (c : callback) : handler () := λ s,
  ({| ws_unlocker := ws_unlocker s; ws_callbacks := ws_callbacks s ++ [c] |}, Ret ()).

Definition h_GenSeed : handler (list string) := on_unlocker svc_GenSeed.
(** The messages sent on the stream; [None] when the handler still waits for the
    macaroon after [looks]. *)
Definition h_InitWallet (password : string) (mnemonic : list string) (isRestore : bool) (looks : list look)
    : handler (option (list string)) :=
  password ← parsed (parsePassword password);
  mnemonic ← parsed (parseMnemonic mnemonic);
  _ ← (if isRestore then on_unlocker (svc_RestoreWallet mnemonic password) else mret () : handler ());
  _ ← on_unlocker (svc_InitWallet mnemonic password);
  _ ← go (OnInit password);
  if (String.length macaroonPath <=? 0)%nat then mret (Some [])
  else match await_macaroon looks with
       | None => mret None
       | Some o => msg ← call (lift o); mret (Some [msg])
       end.
Definition h_UnlockWallet (password : string) : handler () :=
  password ← parsed (parsePassword password);
  _ ← on_unlocker (svc_UnlockWallet password);
  go (OnUnlock password).
Definition h_LockWallet (password : string) : handler () :=
  password ← parsed (parsePassword password);
  _ ← on_unlocker (svc_LockWallet password);
  go (OnLock password).
Definition h_ChangePassword (currentPassword newPassword : string) : handler () :=
  currentPassword ← parsed (parsePassword currentPassword);
  newPassword ← parsed (parsePassword newPassword);
  _ ← on_unlocker (svc_ChangePassword currentPassword newPassword);
  go (OnChangePwd currentPassword newPassword).
Definition h_GetInfo : handler pb_GetInfoResponse :=
  info ← on_unlocker svc_Info; mret (walletInfo_toProto info buildData).
Definition h_GetStatus : handler WalletStatus :=
  status ← on_unlocker svc_Status; mret (walletStatusInfo_toProto status).

Inductive WalletRequest :=
  | GenSeedRequest
  | InitWalletRequest (password : string) (mnemonic : list string) (restore : bool) (looks : list look)
  | UnlockWalletRequest (password : string)
  | LockWalletRequest (password : string)
  | ChangePasswordRequest (currentPassword newPassword : string)
  | GetInfoRequest
  | GetStatusRequest.
Inductive WalletResponse :=
  | SeedOf (l : list string) | Sent (msgs : option (list string)) | WalletDone
  | WalletInfoOf (i : pb_GetInfoResponse) | WalletStatusOf (s : WalletStatus).
Definition wallet_server (r : WalletRequest) : handler WalletResponse :=
  match r with
  | GenSeedRequest => reply SeedOf h_GenSeed
  | InitWalletRequest pwd mnemonic restore looks => reply Sent (h_InitWallet pwd mnemonic restore looks)
  | UnlockWalletRequest pwd => reply (λ _, WalletDone) (h_UnlockWallet pwd)
  | LockWalletRequest pwd => reply (λ _, WalletDone) (h_LockWallet pwd)
  | ChangePasswordRequest old new => reply (λ _, WalletDone) (h_ChangePassword old new)
  | GetInfoRequest => reply WalletInfoOf h_GetInfo
  | GetStatusRequest => reply WalletStatusOf h_GetStatus
  end.
End wallet_handlers.
Arguments WalletState S V : clear implicits.

(** * Theorems: webhooks *)

Section webhook_theorems.
Context {S : Type} `{!SecureStorage S} `{!SecureStorageLaws S} `{!SubscriptionJSON} `{!SubscriptionJSONLaws}.
Context {W : Type} `{!Network W} `{!NetworkLaws W} `{MapOrder}.
Variable ParseRequestURI : string → bool.
Implicit Types (s : Pubsub.service S W) (subs : gmap string Subscription).

(** The topic of an event of the wire. *)
Definition topic_of (event : Z) : string :=
  if event =? 1 then eventTradeSettled else if event =? 2 then eventAccountLowBalance
  else if event =? 3 then eventAccountWithdraw else if event =? 4 then eventAccountDeposit
  else if event =? 5 then AnyTopic else UnspecifiedTopic.

Lemma known_event_spec e : known_event e = true ↔ 0 ≤ e ≤ 5.
Proof.
  unfold known_event, WEBHOOK_EVENT_UNSPECIFIED, WEBHOOK_EVENT_ANY. rewrite andb_true_iff, !Z.leb_le. done.
Qed.
Lemma event_cases (P : Z → Prop) : P 0 → P 1 → P 2 → P 3 → P 4 → P 5 → ∀ e, 0 ≤ e ≤ 5 → P e.
Proof.
  intros ?????? e He. assert (e = 0 ∨ e = 1 ∨ e = 2 ∨ e = 3 ∨ e = 4 ∨ e = 5) as HC by lia.
  by destruct HC as [->|[->|[->|[->|[->| ->]]]]].
Qed.
Lemma pb_event_topic : ∀ e, 0 ≤ e ≤ 5 → pb_event e = Webhooks.webhookEventInfo (topic_of e).
Proof. by apply event_cases. Qed.
Lemma event_roundtrip : ∀ e, 0 ≤ e ≤ 5 → event_toProto (Webhooks.webhookEventInfo (topic_of e)) = e.
Proof. by apply event_cases. Qed.
Lemma topic_of_elem : ∀ e, 0 ≤ e ≤ 5 → topic_of e ∈ UnspecifiedTopic :: topics.
Proof. apply event_cases; unfold topics; repeat constructor. Qed.
Lemma topic_of_spec e : 1 ≤ e ≤ 5 → topic_of e ∈ topics ∧ topic_of e ≠ UnspecifiedTopic.
Proof.
  intros He. pose proof (topic_of_elem e ltac:(lia)) as HE. assert (topic_of e ≠ UnspecifiedTopic) as Hn.
  { intros Ht. pose proof (event_roundtrip e ltac:(lia)) as HR. rewrite Ht in HR. vm_compute in HR. lia. }
  apply elem_of_cons in HE as [?|?]; done.
Qed.

Definition valid_hook (req : pb_AddWebhook) : Prop := 1 ≤ pbw_Event req ≤ 5 ∧ pbw_Endpoint req ≠ ""%string.
Lemma check_event e : checks (parseWebhookEvent e) (0 ≤ e ≤ 5) False (pb_event e).
Proof.
  unfold parseWebhookEvent. pose proof (known_event_spec e) as HK. destruct (known_event e); cbn; naive_solver.
Qed.
Lemma check_hook req : checks (parseWebhook req) (valid_hook req) False (pb_webhook req).
Proof.
  unfold parseWebhook, valid_hook. pose proof (check_event (pbw_Event req)) as HE.
  destruct (parseWebhookEvent _) as [e|e|p]; cbn in *; [|lia|tauto].
  unfold WEBHOOK_EVENT_UNSPECIFIED. destruct (Z.eqb_spec (pbw_Event req) 0); cbn; [lia|].
  destruct (pbw_Endpoint req) eqn:Ee; cbn; [naive_solver|]. split; [split; [lia | done] | done].
Qed.

(** The message that shows a stored webhook: never its secret. *)
Definition shown (h : Subscription) : pb_WebhookInfo := {|
  pwi_Id := ID h; pwi_Endpoint := Endpoint h; pwi_IsSecured := negb (bool_decide (Secret h = ""%string));
  pwi_Event := event_toProto (Webhooks.webhookEventInfo (Pubsub.Event h)) |}.
Definition hook_of (id : string) (req : pb_AddWebhook) : Subscription := {|
  ID := id; Pubsub.Event := topic_of (pbw_Event req); Endpoint := pbw_Endpoint req; Secret := pbw_Secret req |}.

Lemma hook_of_new id req : new_hook id (pb_webhook req) = hook_of id req.
Proof. done. Qed.
Lemma shown_hook id req : valid_hook req →
  shown (hook_of id req) = {| pwi_Id := id; pwi_Endpoint := pbw_Endpoint req;
    pwi_IsSecured := negb (bool_decide (pbw_Secret req = ""%string)); pwi_Event := pbw_Event req |}.
Proof. intros [He _]. unfold shown; cbn. by rewrite event_roundtrip by lia. Qed.

Lemma hook_listed subs id req : valid_hook req →
  hook_of id req ∈ listed (<[id := hook_of id req]> subs) (topic_of (pbw_Event req)).
Proof.
  intros [He _]. destruct (topic_of_spec _ He) as [_ Hn]. unfold listed, of_topic. rewrite bool_decide_false by done.
  apply elem_of_app. left. apply topic_subs_elem. split; [done|]. exists id. by rewrite lookup_insert_eq.
Qed.

Lemma list_webhooks_spec s pw subs e : rep s pw subs → 0 ≤ e ≤ 5 →
  ∃ l, listWebhooks e s = (s, Ret (shown <$> l)) ∧ l ≡ₚ listed subs (topic_of e).
Proof.
  intros Hr He. unfold listWebhooks, mbind, action_bind, parsed. pose proof (check_event e) as HC.
  destruct (parseWebhookEvent e) as [ev|er|p]; [|by destruct (HC He) | by destruct HC as (_ & [] & _)].
  destruct HC as [_ ->]. rewrite pb_event_topic by done. unfold call, ListWebhooks, mbind, action_bind.
  assert (topicForEvent (Webhooks.webhookEventInfo (topic_of e)) = topic_of e) as ->.
  { revert e He. by apply event_cases. }
  destruct (list_ok s pw subs (topic_of e) Hr) as (l1 & l2 & -> & P1 & P2 & _).
  { pose proof (topic_of_elem e He) as HE. apply elem_of_cons in HE as [->|HE]; [by left | right; by apply topics_good]. }
  exists (l1 ++ l2). split; [|by unfold listed; rewrite P1, P2].
  unfold webhooksInfo_toProto, mret, action_ret. do 2 f_equal. induction (l1 ++ l2) as [|h l IH]; [done|]; cbn. by rewrite IH.
Qed.

(** webhooks over the interface.  A request with an event of the protocol other than
    the unspecified one and an endpoint is stored under a fresh id, and listing the
    webhooks of that event then shows it: id, endpoint, event, and whether it has a
    secret, which is never shown; removing it by its id gives back the webhooks there
    were.  A list shows exactly the webhooks of the event and those of any event, all
    of them for the unspecified event.  Any other request is refused with
    InvalidArgument and nothing changes. *)
Theorem webhook_interface s pw subs uuid req :
  rep s pw subs → good_key uuid → subs !! uuid = None →
  ParseRequestURI (pbw_Endpoint req) = true → (∀ id, valid_utf8 (hook_of id req)) →
  (valid_hook req → ∃ s', addWebhook ParseRequestURI uuid req s = (s', Ret uuid) ∧
     rep s' pw (<[uuid := hook_of uuid req]> subs) ∧
     (∃ l, listWebhooks (pbw_Event req) s' = (s', Ret l) ∧
        {| pwi_Id := uuid; pwi_Endpoint := pbw_Endpoint req;
           pwi_IsSecured := negb (bool_decide (pbw_Secret req = ""%string)); pwi_Event := pbw_Event req |} ∈ l) ∧
     ∃ s'', removeWebhook uuid s' = (s'', Ret ()) ∧ rep s'' pw subs) ∧
  (¬ valid_hook req → ∃ e, addWebhook ParseRequestURI uuid req s = (s, Err (Status InvalidArgument e))) ∧
  (∀ e, 0 ≤ e ≤ 5 → ∃ l, listWebhooks e s = (s, Ret (shown <$> l)) ∧ l ≡ₚ listed subs (topic_of e)) ∧
  (∀ e, ¬ 0 ≤ e ≤ 5 → ∃ er, listWebhooks e s = (s, Err (Status InvalidArgument er))).
Proof.
  intros Hr Hg Hf Huri Hutf. split_and!.
  - intros Hv. pose proof Hv as [He _]. destruct (topic_of_spec _ He) as [Ht _].
    assert (∀ id, new_hook id (pb_webhook req) = hook_of id req) as Hn by done.
    destruct (webhooks_correct ParseRequestURI s pw subs uuid
      {| wh_Id := uuid; wh_Event := pb_event (pbw_Event req); wh_Endpoint := pbw_Endpoint req; wh_Secret := pbw_Secret req |}
      (topic_of (pbw_Event req)) Hr Ht) as (Hadd & _); [by apply pb_event_topic; lia | done | done | done | |].
    { intros id. specialize (Hn id). unfold new_hook in *; cbn in *. rewrite Hn. apply Hutf. }
    destruct (Hadd Hf) as (d & Ea & Hr'). unfold new_hook in Hr'; cbn in Hr'. specialize (Hn uuid).
    unfold new_hook in Hn; cbn in Hn. rewrite Hn in Hr'. exists {| store := d; net := net s |}. split_and!.
    + unfold addWebhook, mbind, action_bind, parsed. pose proof (check_hook req) as HC.
      destruct (parseWebhook req) as [w|er|p]; [|by destruct (HC Hv) | by destruct HC as (_ & [] & _)].
      destruct HC as [_ ->]. unfold call. unfold AddWebhook in Ea |- *; cbn in *. by rewrite Ea.
    + done.
    + destruct (list_webhooks_spec _ _ _ (pbw_Event req) Hr' ltac:(lia)) as (l & -> & HP).
      eexists. split; [done|]. rewrite <- (shown_hook uuid req Hv). apply list_elem_of_fmap_2. rewrite HP. by apply hook_listed.
    + pose proof (remove_ok _ _ _ _ Hr' Hg) as Hrm. rewrite lookup_insert_eq in Hrm.
      destruct Hrm as (d' & Er & Hr''). eexists. split.
      * unfold removeWebhook, call, RemoveWebhook, Unsubscribe. by rewrite Er.
      * rewrite delete_insert_id in Hr'' by done. done.
  - intros Hv. unfold addWebhook, mbind, action_bind, parsed. pose proof (check_hook req) as HC.
    destruct (parseWebhook req) as [w|er|p]; [by destruct HC | eauto | by destruct HC as (_ & [] & _)].
  - intros e He. by apply list_webhooks_spec with pw.
  - intros e He. unfold listWebhooks, mbind, action_bind, parsed. pose proof (check_event e) as HC.
    destruct (parseWebhookEvent e) as [w|er|p]; [by destruct HC | eauto | by destruct HC as (_ & [] & _)].
Qed.
End webhook_theorems.

(** * Theorems: price feeds *)

Lemma check_id id : checks (parseId id) (id ≠ ""%string) False id.
Proof. unfold parseId. by destruct id; cbn; [naive_solver|]. Qed.
Lemma check_change source ticker :
  checks (if bool_decide (source = ""%string) && bool_decide (ticker = ""%string)
          then new_error "missing source and/or ticker" else Ret ()) (source ≠ ""%string ∨ ticker ≠ ""%string) False ().
Proof. repeat case_bool_decide; cbn; naive_solver. Qed.
#[export] Hint Resolve check_id check_change : checks.

Section feeder_theorems.
Context {S : Type} `{BadgerHold PriceFeedInfo S} {X : Type} `{PriceFeeder X} {W : Type}.
Context {M : Type} `{MarketRepository M}.
Variable dial : string → action W error X.
Abbreviation handler := (action (@AppState S X W M) rpc_error).

Definition valid_feeder (r : FeederRequest) : Prop :=
  match r with
  | AddPriceFeedRequest _ m _ _ => valid_market m
  | StartPriceFeedRequest id | StopPriceFeedRequest id | RemovePriceFeedRequest id | GetPriceFeedRequest id => id ≠ ""%string
  | UpdatePriceFeedRequest id source ticker => id ≠ ""%string ∧ (source ≠ ""%string ∨ ticker ≠ ""%string)
  | ListSupportedPriceSourcesRequest | ListPriceFeedsRequest => True
  end.
Definition feeder_answer (r : FeederRequest) : handler FeederResponse :=
  match r with
  | AddPriceFeedRequest uuid m source ticker =>
      reply FeedId (call (app_AddPriceFeed uuid (Some (base_of m, quote_of m)) source ticker))
  | StartPriceFeedRequest id => reply (λ _, FeedDone) (call (app_StartPriceFeed dial id))
  | StopPriceFeedRequest id => reply (λ _, FeedDone) (call (app_StopPriceFeed dial id))
  | UpdatePriceFeedRequest id source ticker => reply (λ _, FeedDone) (call (app_UpdatePriceFeed id source ticker))
  | RemovePriceFeedRequest id => reply (λ _, FeedDone) (call (app_RemovePriceFeed id))
  | GetPriceFeedRequest id => reply (λ f, FeedOf (priceFeedInfo_toProto f)) (call (app_GetPriceFeed id))
  | ListSupportedPriceSourcesRequest => mret (SourcesOf [krakenSource; bitfinexSource; coinbaseSource])
  | ListPriceFeedsRequest => reply (λ l, FeedsOf (priceFeedInfo_toProto <$> l)) (call app_ListPriceFeeds)
  end.

(** A request to the feeder interface is validated before the service is called, and
    the service is called with the request's own data. *)
Theorem feeder_requests_validated r : guarded (feeder_server dial r : handler _) (valid_feeder r) False (feeder_answer r).
Proof.
  destruct r; cbn [feeder_server feeder_answer valid_feeder];
    (eapply guarded_iff; [| |eapply guarded_eq; [|apply guarded_reply;
      unfold h_AddPriceFeed, h_StartPriceFeed, h_StopPriceFeed, h_UpdatePriceFeed, h_RemovePriceFeed, h_GetPriceFeed,
        h_ListSupportedPriceSources, h_ListPriceFeeds;
      repeat (eapply guarded_bind; [solve [eauto with checks]|]; cbv beta iota zeta); apply guarded_true]]).
  all: try tauto.
  all: intros s; rewrite ?reply_reply; try done; by destruct market.
Qed.
End feeder_theorems.

(** * Theorems: the wallet *)

Section wallet_theorems.
Context {S : Type} `{SecureStorage S} {V : Type} `{WalletManager V WalletStatus WalletInfo}.
Variables (buildData : BuildData) (macaroonPath : string).
Abbreviation handler := (action (WalletState S V) rpc_error).

(** What the wallet did when the handler of [r] started [c]. *)
Definition done_by (r : WalletRequest) (c : callback) (u u' : unlocker S V) : Prop :=
  match r, c with
  | InitWalletRequest p mnemonic restore _, OnInit p' =>
      p' = p ∧ ∃ u1, (if restore then svc_RestoreWallet mnemonic p u = (u1, Ret ()) else u1 = u) ∧
        svc_InitWallet mnemonic p u1 = (u', Ret ())
  | UnlockWalletRequest p, OnUnlock p' => p' = p ∧ svc_UnlockWallet p u = (u', Ret ())
  | LockWalletRequest p, OnLock p' => p' = p ∧ svc_LockWallet p u = (u', Ret ())
  | ChangePasswordRequest old new, OnChangePwd old' new' =>
      old' = old ∧ new' = new ∧ svc_ChangePassword old new u = (u', Ret ())
  | _, _ => False
  end.

Lemma check_mnemonic l : checks (parseMnemonic l) (l ≠ []) False l.
Proof. unfold parseMnemonic. destruct l; cbn; [naive_solver | done]. Qed.
(** A goroutine of the interface is started only by a request whose call of the wallet
    succeeded, one per request, with the password the wallet accepted. *)
Theorem callbacks_follow_success r (s s' : WalletState S V) o :
  wallet_server buildData macaroonPath r s = (s', o) →
  ws_callbacks s' = ws_callbacks s ∨
  ∃ c, ws_callbacks s' = ws_callbacks s ++ [c] ∧ done_by r c (ws_unlocker s) (ws_unlocker s').
Proof.
  assert (∀ p : string, parsePassword p = Ret p ∨ ∃ e, parsePassword p = Err e) as HP.
  { intros p. pose proof (check_password p) as HC. destruct (parsePassword p); naive_solver. }
  destruct r; unfold wallet_server, h_GenSeed, h_InitWallet, h_UnlockWallet, h_LockWallet, h_ChangePassword, h_GetInfo,
    h_GetStatus, reply, mbind, action_bind, parsed, on_unlocker, call, go, mret, action_ret, done_by;
  repeat match goal with |- context [parsePassword ?p] => destruct (HP p) as [->|[? ->]] end.
  all: try (intros [= <- <-]; by left).
  all: try (match goal with |- context [?m (ws_unlocker ?s)] => destruct (m (ws_unlocker s)) as [u [a|e|pp]] eqn:E end;
    cbn; intros [= <- <-]; cbn; first [by left | destruct a; right; eexists; split; [reflexivity | by split_and!]]).
  pose proof (check_mnemonic mnemonic) as HM. destruct (parseMnemonic mnemonic) as [m|e|pp]; cbn in HM;
    [destruct HM as [_ ->] | intros [= <- <-]; by left | tauto].
  assert (∀ u1, (if restore then svc_RestoreWallet mnemonic password (ws_unlocker s) = (u1, Ret ()) else u1 = ws_unlocker s) →
    let '(u, o1) := svc_InitWallet mnemonic password u1 in o1 = Ret () → ∃ c, ws_callbacks s ++ [OnInit password] = ws_callbacks s ++ [c] ∧
       done_by (InitWalletRequest password mnemonic restore looks) c (ws_unlocker s) u) as HD.
  { intros u1 H1. destruct (svc_InitWallet _ _ _) as [u o1] eqn:E. intros ->. eexists. split; [done|]. split; [done|]. eauto. }
  destruct restore.
  - destruct (svc_RestoreWallet mnemonic password (ws_unlocker s)) as [u1 [[]|e|pp]] eqn:ER; cbn; [|intros [= <- <-]; by left..].
    unfold done_by in HD. rewrite ER in HD. specialize (HD _ eq_refl). destruct (svc_InitWallet _ _ _) as [u [[]|e|pp]]; cbn; [|intros [= <- <-]; by left..].
    specialize (HD eq_refl). intros HI. right.
    unfold lift in HI. repeat (case_match; simplify_eq/=); exact HD.
  - specialize (HD _ eq_refl). cbn. destruct (svc_InitWallet _ _ _) as [u [[]|e|pp]]; cbn; [|intros [= <- <-]; by left..].
    specialize (HD eq_refl). intros HI. right.
    unfold lift in HI. repeat (case_match; simplify_eq/=); exact HD.
Qed.

(** A request to restore a wallet restores it and then initializes it as well: if the
    wallet refuses that, the request fails with the wallet restored, and the
    interface is not told. *)
Lemma restore_also_initializes password mnemonic looks (s : WalletState S V) u1 u2 e :
  (8 ≤ String.length password)%nat → mnemonic ≠ [] →
  svc_RestoreWallet mnemonic password (ws_unlocker s) = (u1, Ret ()) →
  svc_InitWallet mnemonic password u1 = (u2, Err e) →
  h_InitWallet macaroonPath password mnemonic true looks s
  = ({| ws_unlocker := u2; ws_callbacks := ws_callbacks s |}, Err (Plain e)).
Proof.
  intros Hp Hm ER EI. pose proof (check_password password) as HP. pose proof (check_mnemonic mnemonic) as HM.
  unfold h_InitWallet, mbind, action_bind, parsed, on_unlocker, call.
  destruct (parsePassword password) as [p| |]; [destruct HP as [_ ->] | by destruct (HP Hp) | by destruct HP as (_ & [] & _)].
  destruct (parseMnemonic mnemonic) as [m| |]; [destruct HM as [_ ->] | by destruct (HM Hm) | by destruct HM as (_ & [] & _)].
  rewrite ER. cbn [ws_unlocker]. by rewrite EI.
Qed.

(** InitWallet answers once the macaroon is there, and never if it is never written. *)
Lemma init_waits_for_macaroon looks mac rest :
  Forall (λ l, l = NotExist ∨ l = FileContent []) looks → mac ≠ [] →
  await_macaroon looks = None ∧
  await_macaroon (looks ++ FileContent mac :: rest) = Some (Ret ("macaroon: " +:+ hex_Encode mac)%string).
Proof. intros HF Hm. induction HF as [|l looks [->| ->] _ IH]; cbn; [by destruct mac | done..]. Qed.
End wallet_theorems.

(** * Examples *)
Module AdminExamples.
Import SecureStoreExamples PubsubExamples.

Definition add : pb_AddWebhook := {| pbw_Event := WEBHOOK_EVENT_ANY; pbw_Endpoint := "http://localhost"; pbw_Secret := "" |}.
Lemma webhook_interface_witness :
  rep s1 pw {["id1"%string := hook]} ∧
  ∃ s', addWebhook (λ _, true) "id3" add s1 = (s', Ret "id3"%string) ∧
    rep s' pw (<["id3"%string := hook_of "id3" add]> {["id1"%string := hook]}).
Proof.
  split; [exact s1_rep|].
  destruct (webhook_interface (λ _, true) s1 pw {["id1"%string := hook]} "id3" add s1_rep) as [Hadd _];
    [split; discriminate | reflexivity | reflexivity | intros; exact I |].
  destruct Hadd as (s' & Ha & Hr & _); [split; [cbn; unfold WEBHOOK_EVENT_ANY; lia | discriminate]|].
  exists s'. split; [exact Ha | exact Hr].
Defined.
End AdminExamples.
