(* ===== verification/Interface.v ===== *)
(** The daemon's interface: internal/interfaces/grpc/service.go, with the files of
    macaroon_utils.go and the routing of http_utils.go.

    The service serves the wallet alone while the wallet is locked and everything once
    it is unlocked.  Its state has the macaroon service, the files of the macaroons,
    the two http servers and the password it keeps.  What the environment decides (TLS
    key pairs that load, connections that are dialled, files that can be written) is
    the record [IfaceEnv].  A callback of the wallet handler runs to its end before
    another one; which one of those that were started runs first is open. *)

From Stdlib Require Import ZArith Lia Ascii.
From stdpp Require Import base tactics strings list gmap.
From S2P Require Import Prelude Errors Decimal Market Trade Exchange Repos SecureStore Pubsub Macaroons SwapMsg Wallet TradeService Report Calendar Requests Operator TxEvents Listing Handlers Webhooks AdminHandlers.
Local Open Scope Z_scope.

(** * path/filepath *)

(** The components between slashes. *)
Fixpoint split_slash (s : string) : list string :=
  match s with
  | EmptyString => [""%string]
  | String c s =>
      match split_slash s with
      | [] => [""%string]
      | h :: t => if Ascii.eqb c "/" then ""%string :: h :: t else String c h :: t
      end
  end.
Fixpoint join_slash (l : list string) : string :=
  match l with [] => "" | [a] => a | a :: l => a +:+ "/" +:+ join_slash l end.
(** [acc]: the components kept so far, last one first. *)
Definition clean_step (rooted : bool) (acc : list string) (c : string) : list string :=
  if bool_decide (c = ""%string) || bool_decide (c = "."%string) then acc
  else if bool_decide (c = ".."%string) then
    match acc with
    | [] => if rooted then [] else [c]
    | top :: rest => if bool_decide (top = ".."%string) then c :: acc else rest
    end
  else c :: acc.
Definition clean_parts (rooted : bool) (s : string) : list string :=
  rev (foldl (clean_step rooted) [] (split_slash s)).
Definition is_rooted (s : string) : bool := match s with String c _ => Ascii.eqb c "/" | EmptyString => false end.
Definition Clean (path : string) : string :=
  let rooted := is_rooted path in
  let s := ((if rooted then "/" else "") +:+ join_slash (clean_parts rooted path))%string in
  if bool_decide (s = ""%string) then "."%string else s.
Definition Join (a b : string) : string :=
  if negb (bool_decide (a = ""%string)) then Clean (a +:+ "/" +:+ b)%string
  else if negb (bool_decide (b = ""%string)) then Clean b else ""%string.

(** * Files *)

Inductive file :=
  | Regular (content : bytes) (mode : Z)
  | Directory
  | Inaccessible.         (* os.Stat fails, and not because it is missing *)
Abbreviation files := (gmap string file).
Definition pathExists (fs : files) (path : string) : bool := bool_decide (is_Some (fs !! path)).

(** * Options *)

Definition minPort : Z := 1024.
Definition maxPort : Z := 65535.
Definition isValidPort (port : Z) : bool := (minPort <=? port) && (port <=? maxPort).
Definition OperatorTLSKeyFile : string := "key.pem".
Definition OperatorTLSCertFile : string := "cert.pem".

(** AppConfig is the result of its Validate, [None] when it is nil. *)
Record ServiceOpts := {
  NoMacaroons : bool; Datadir : string; DBLocation : string; TLSLocation : string; MacaroonsLocation : string;
  OperatorExtraIPs : list string; WalletUnlockPasswordFile : string;
  OperatorPort : Z; TradePort : Z; TradeTLSKey : string; TradeTLSCert : string;
  AppConfig : option (outcome error ()); opts_BuildData : option BuildData; NoOperatorTls : bool }.
Definition dbDatadir (o : ServiceOpts) : string := Join (Datadir o) (DBLocation o).
Definition macaroonsDatadir (o : ServiceOpts) : string := Join (Datadir o) (MacaroonsLocation o).
Definition tlsDatadir (o : ServiceOpts) : string := Join (Datadir o) (TLSLocation o).
Definition operatorTLSKey (o : ServiceOpts) : string :=
  if NoOperatorTls o then "" else Join (tlsDatadir o) OperatorTLSKeyFile.
Definition operatorTLSCert (o : ServiceOpts) : string :=
  if NoOperatorTls o then "" else Join (tlsDatadir o) OperatorTLSCertFile.

Section options.
Variable net_ParseIP : string → bool.
Variable fs : files.
Fixpoint check_ips (ips : list string) : outcome error () :=
  match ips with
  | [] => Ret ()
  | ip :: ips => if net_ParseIP ip then check_ips ips else new_error "invalid operator extra ip %s"
  end.
Definition validate (o : ServiceOpts) : outcome error () :=
  if negb (pathExists fs (Datadir o)) then new_error "%s: datadir must be an existing directory"
  else
    _ ← (if NoMacaroons o then Ret ()
         else
           let macDir := macaroonsDatadir o in
           let adminMacExists := pathExists fs (Join macDir AdminMacaroonFile) in
           let roMacExists := pathExists fs (Join macDir ReadOnlyMacaroonFile) in
           let marketMacExists := pathExists fs (Join macDir MarketMacaroonFile) in
           let priceMacExists := pathExists fs (Join macDir PriceMacaroonFile) in
           if negb (eqb adminMacExists roMacExists) || negb (eqb adminMacExists marketMacExists)
              || negb (eqb adminMacExists priceMacExists)
           then new_error "all macaroons must be either existing or not in path %s" else Ret ());
    _ ← (if NoOperatorTls o then Ret ()
         else
           let tlsKeyExists := pathExists fs (Join (tlsDatadir o) OperatorTLSKeyFile) in
           let tlsCertExists := pathExists fs (Join (tlsDatadir o) OperatorTLSCertFile) in
           if negb tlsKeyExists && tlsCertExists
           then new_error "found %s file but %s is missing. Please delete %s to make the daemon recreating both files in path %s"
           else check_ips (OperatorExtraIPs o));
    if negb (isValidPort (OperatorPort o)) then new_error "operator port must be in range [%d, %d]"
    else if negb (isValidPort (TradePort o)) then new_error "trade port must be in range [%d, %d]"
    else if negb (eqb (pathExists fs (TradeTLSKey o)) (pathExists fs (TradeTLSCert o)))
    then new_error "TLS key and certificate for Trade interface must be either existing or undefined"
    else if negb (bool_decide (WalletUnlockPasswordFile o = ""%string)) && negb (pathExists fs (WalletUnlockPasswordFile o))
    then new_error "wallet unlock password file not found"
    else match AppConfig o with
         | None => new_error "missing app config"
         | Some (Err _) => new_error "invalid app config: %s"
         | Some (Panic p) => Panic p
         | Some (Ret _) => if bool_decide (is_Some (opts_BuildData o)) then Ret () else new_error "missing build data"
         end.
End options.

(** * The service *)

(** bytes.TrimFunc of line feeds, carriage returns and blanks. *)
Definition is_blank (b : Z) : bool := (b =? 10) || (b =? 13) || (b =? 32).
Fixpoint trim_left (b : bytes) : bytes :=
  match b with [] => [] | x :: r => if is_blank x then trim_left r else b end.
Definition trim (b : bytes) : bytes := rev (trim_left (rev (trim_left b))).
Definition bytes_string (b : bytes) : string :=
  String.string_of_list_ascii ((λ x, ascii_of_nat (Z.to_nat x)) <$> b).

Record IfaceEnv := {
  env_LoadX509KeyPair : string → string → outcome error ();   (* certificate, key *)
  env_operator : outcome error ();     (* dialling, registering and the connect endpoints, for the operator server *)
  env_trade : outcome error ();        (* the same for the trade server *)
  env_MkdirAll : string → outcome error ();
  env_WriteFile : string → outcome error ();
  env_rnd : Z; env_fresh : bytes }.    (* of the macaroon store *)

(** An http.Server; [srv_h2c] when it speaks HTTP/2 in clear text. *)
Record server := { srv_services : list string; srv_port : Z; srv_tls : bool; srv_h2c : bool; srv_running : bool }.
Definition shutdown (s : server) : server := {|
  srv_services := srv_services s; srv_port := srv_port s; srv_tls := srv_tls s; srv_h2c := srv_h2c s; srv_running := false |}.

Definition HealthService : string := "grpc.health.v1.Health".
Definition ReflectionService : string := "grpc.reflection.v1alpha.ServerReflection".
Definition wallet_services : list string := [WalletService; HealthService; ReflectionService].
Definition operator_services : list string := wallet_services ++ [OperatorService; FeederService; WebhookService].
Definition trade_services : list string := [Macaroons.TradeService; TransportService; HealthService; ReflectionService].

Section service.
Context {DB : Type} `{Bolt DB} {K : Type} `{Snacl K} {Mac Ctx : Type} `{Bakery Mac Ctx} `{MapOrder}.
Variable opts : ServiceOpts.

Record Iface := {
  if_mac : option (Service DB K Ctx);     (* nil without macaroons, or when it could not be created *)
  if_files : files;
  if_operator : option server; if_trade : option server;
  if_password : string; if_closed : list string }.
Abbreviation act := (action Iface error).

Definition set_servers (op tr : option server) (s : Iface) : Iface := {|
  if_mac := if_mac s; if_files := if_files s; if_operator := op; if_trade := tr;
  if_password := if_password s; if_closed := if_closed s |}.
Definition set_password (p : string) (s : Iface) : Iface := {|
  if_mac := if_mac s; if_files := if_files s; if_operator := if_operator s; if_trade := if_trade s;
  if_password := p; if_closed := if_closed s |}.
Definition set_file (path : string) (f : option file) (s : Iface) : Iface := {|
  if_mac := if_mac s; if_files := match f with Some f => <[path := f]> (if_files s) | None => delete path (if_files s) end;
  if_operator := if_operator s; if_trade := if_trade s; if_password := if_password s; if_closed := if_closed s |}.
Definition close (name : string) : act () := λ s, ({|
  if_mac := if_mac s; if_files := if_files s; if_operator := if_operator s; if_trade := if_trade s;
  if_password := if_password s; if_closed := if_closed s ++ [name] |}, Ret ()).
(** A method of the macaroon service: of a nil one it panics. *)
Definition on_mac {A} (m : action (Service DB K Ctx) error A) : act A := λ s,
  match if_mac s with
  | None => (s, Panic NilDereference)
  | Some mac => let '(mac, o) := m mac in
      ({| if_mac := Some mac; if_files := if_files s; if_operator := if_operator s; if_trade := if_trade s;
          if_password := if_password s; if_closed := if_closed s |}, o)
  end.
(** An error that is logged. *)
Definition logged (m : act ()) : act () := λ s, match m s with (s', Err _) => (s', Ret ()) | r => r end.

Definition withMacaroons : bool := negb (NoMacaroons opts).

(** ** macaroon_utils.go *)

(** os.WriteFile keeps the mode of a file that is there; when it fails the file is
    removed. *)
Definition write_macaroon (env : IfaceEnv) (macFile : string) (content : bytes) (perms : Z) : act () := λ s,
  match env_WriteFile env macFile with
  | Ret _ =>
      let mode := match if_files s !! macFile with Some (Regular _ m) => m | _ => perms end in
      (set_file macFile (Some (Regular content mode)) s, Ret ())
  | Err e => (set_file macFile None s, Err e)
  | Panic p => (s, Panic p)
  end.
Definition macaroon_perms (macFilename : string) : Z :=
  if bool_decide (macFilename = AdminMacaroonFile) then 384 (* 0600 *) else 420 (* 0644 *).
Fixpoint write_macaroons (env : IfaceEnv) (datadir : string) (macs : list (string * list Op)) : act () :=
  match macs with
  | [] => mret ()
  | (macFilename, macPermissions) :: macs =>
      mktMacBytes ← on_mac (bakeMacaroon (env_rnd env) (env_fresh env) macPermissions);
      _ ← write_macaroon env (Join datadir macFilename) mktMacBytes (macaroon_perms macFilename);
      write_macaroons env datadir macs
  end.
Definition makeDirectoryIfNotExists (env : IfaceEnv) (path : string) : act () := λ s,
  if pathExists (if_files s) path then (s, Ret ())
  else match env_MkdirAll env path with
       | Ret _ => (set_file path (Some Directory) s, Ret ())
       | Err e => (s, Err e)
       | Panic p => (s, Panic p)
       end.
Definition genMacaroons (env : IfaceEnv) (datadir : string) : act () := λ s,
  if pathExists (if_files s) (Join datadir AdminMacaroonFile) || pathExists (if_files s) (Join datadir ReadOnlyMacaroonFile)
     || pathExists (if_files s) (Join datadir MarketMacaroonFile) || pathExists (if_files s) (Join datadir PriceMacaroonFile)
  then (s, Ret ())
  else (_ ← makeDirectoryIfNotExists env datadir; write_macaroons env datadir (range_items Macaroons)) s.

(** ** The servers *)
Definition getTlsConfig (env : IfaceEnv) (tlsKey tlsCert : string) : outcome error () :=
  if bool_decide (tlsKey = ""%string) || bool_decide (tlsCert = ""%string)
  then new_error "tls_key and tls_cert both needs to be provided"
  else env_LoadX509KeyPair env tlsCert tlsKey.
(** Whether the server has a TLS configuration. *)
Definition operatorTLSConfig (env : IfaceEnv) : outcome error bool :=
  if NoOperatorTls opts then Ret false
  else _ ← getTlsConfig env (operatorTLSKey opts) (operatorTLSCert opts); Ret true.
Definition tradeTLSConfig (env : IfaceEnv) : outcome error bool :=
  if bool_decide (TradeTLSCert opts = ""%string) then Ret false
  else _ ← getTlsConfig env (TradeTLSKey opts) (TradeTLSCert opts); Ret true.
Definition newOperatorServer (env : IfaceEnv) (tls withOperatorHandler : bool) : outcome error server :=
  _ ← env_operator env;
  Ret {| srv_services := if withOperatorHandler then operator_services else wallet_services;
         srv_port := OperatorPort opts; srv_tls := tls; srv_h2c := NoOperatorTls opts; srv_running := false |}.
Definition newTradeServer (env : IfaceEnv) (tls : bool) : outcome error server :=
  _ ← env_trade env;
  Ret {| srv_services := trade_services; srv_port := TradePort opts; srv_tls := tls;
         srv_h2c := NoOperatorTls opts; srv_running := false |}.
Definition listening (s : server) : server := {|
  srv_services := srv_services s; srv_port := srv_port s; srv_tls := srv_tls s; srv_h2c := srv_h2c s; srv_running := true |}.

Definition serve_with (operatorServer : server) (tradeServer : option server) : act () := λ s,
  (set_servers (Some (listening operatorServer)) (listening <$> tradeServer) s, Ret ()).
Definition start (env : IfaceEnv) (withWalletOnly : bool) : act () :=
  operatorTls ← lift (operatorTLSConfig env);
  operatorServer ← lift (newOperatorServer env operatorTls (negb withWalletOnly));
  tradeServer ← (if withWalletOnly then mret None
                 else tls ← lift (tradeTLSConfig env); srv ← lift (newTradeServer env tls); mret (Some srv) : act (option server));
  serve_with operatorServer tradeServer.

Definition shut_down (operatorServer : server) : act () := λ s,
  (set_servers (Some (shutdown operatorServer)) (shutdown <$> if_trade s) s, Ret ()).
Definition stop (stopMacaroonSvc : bool) : act () :=
  _ ← (if withMacaroons && stopMacaroonSvc
       then _ ← on_mac (mret ()); close "macaroons" else mret () : act ());
  s ← get_state;
  op ← lift (deref (if_operator s));
  shut_down op.

(** ** Callbacks *)
Definition create_unlock (env : IfaceEnv) (password : string) : act () :=
  logged (on_mac (on_rks (rk_CreateUnlock (env_rnd env) (Some (string_bytes password))))).
Definition keep_password (password : string) : act () := λ s, (set_password password s, Ret ()).
Definition onInit (env : IfaceEnv) (password : string) : act () :=
  _ ← keep_password password;
  if negb withMacaroons then mret ()
  else _ ← create_unlock env password; logged (genMacaroons env (macaroonsDatadir opts)).
Definition onUnlock (env : IfaceEnv) (password : string) : act () :=
  s ← get_state;
  _ ← (if bool_decide (if_password s = ""%string) then keep_password password else mret () : act ());
  _ ← (if withMacaroons
       then _ ← create_unlock env password; logged (genMacaroons env (macaroonsDatadir opts)) else mret () : act ());
  _ ← stop false;
  logged (start env false).
Definition onLock (env : IfaceEnv) (_ : string) : act () :=
  _ ← stop false;
  logged (start env true).
Definition onChangePwd (env : IfaceEnv) (oldPassword newPassword : string) : act () :=
  if negb withMacaroons then mret ()
  else logged (on_mac (on_rks (rk_ChangePassword (env_rnd env) (Some (string_bytes oldPassword)) (Some (string_bytes newPassword))))).
Definition run_callback (env : IfaceEnv) (c : callback) : act () :=
  match c with
  | OnInit p => onInit env p
  | OnUnlock p => onUnlock env p
  | OnLock p => onLock env p
  | OnChangePwd old new => onChangePwd env old new
  end.
End service.
Arguments Iface DB K Ctx : clear implicits.

Section daemon.
Context {DB : Type} `{Bolt DB} {K : Type} `{Snacl K} {Mac Ctx : Type} `{Bakery Mac Ctx} `{MapOrder}.
Context {S : Type} `{SecureStorage S} {V : Type} `{WalletManager V WalletStatus WalletInfo}.
Variable opts : ServiceOpts.

(** [mac] is what macaroons.NewService returned, [None] when it failed: its error is
    dropped.  [tls] is generateOperatorTLSKeyCert. *)
Definition NewService (net_ParseIP : string → bool) (fs : files) (mac : option (Service DB K Ctx)) (tls : outcome error ())
    : outcome error (Iface DB K Ctx) :=
  match validate net_ParseIP fs opts with
  | Err _ => new_error "invalid opts: %s"
  | Panic p => Panic p
  | Ret _ =>
      _ ← (if NoOperatorTls opts then Ret () else tls);
      password ← (if bool_decide (WalletUnlockPasswordFile opts = ""%string) then Ret ""%string
                  else match fs !! WalletUnlockPasswordFile opts with
                       | Some (Regular content _) => Ret (bytes_string (trim content))
                       | _ => new_error "read error"
                       end);
      Ret {| if_mac := if NoMacaroons opts then None else mac; if_files := fs; if_operator := None; if_trade := None;
             if_password := password; if_closed := [] |}
  end.

Record Daemon := { dm_unlocker : unlocker S V; dm_iface : Iface DB K Ctx }.
Definition on_iface {A} (m : action (Iface DB K Ctx) error A) : action Daemon error A := λ s,
  let '(i, o) := m (dm_iface s) in ({| dm_unlocker := dm_unlocker s; dm_iface := i |}, o).
Definition on_wallet_svc {A} (m : action (unlocker S V) error A) : action Daemon error A := λ s,
  let '(u, o) := m (dm_unlocker s) in ({| dm_unlocker := u; dm_iface := dm_iface s |}, o).

Definition Start (env : IfaceEnv) : action Daemon error () :=
  _ ← on_iface (start opts env true);
  if bool_decide (WalletUnlockPasswordFile opts = ""%string) then mret ()
  else
    s ← get_state;
    unlocked ← try (on_wallet_svc (svc_UnlockWallet (if_password (dm_iface s))));
    match unlocked with
    | inr _ => lift (Err (Errorf "failed to auto unlock wallet: %s"))
    | inl _ => on_iface (onUnlock opts env (if_password (dm_iface s)))
    end.
(** The error of LockWallet is dropped. *)
Definition Stop : action Daemon error () :=
  s ← get_state;
  _ ← (if bool_decide (if_password (dm_iface s) = ""%string) then mret ()
       else _ ← try (on_wallet_svc (svc_LockWallet (if_password (dm_iface s)))); mret () : action Daemon error ());
  _ ← on_iface (stop opts true);
  _ ← on_iface (close "feeder");
  _ ← on_iface (close "pubsub");
  _ ← on_iface (close "database");
  on_iface (close "ocean wallet").
End daemon.
Arguments Daemon DB K Ctx S V : clear implicits.

(** * Routing *)

(** What the router looks at of a request; header names are not case sensitive. *)
Record http_request := { rq_Method : string; rq_ContentType : string; rq_AccessControl : string; rq_Path : string }.
Inductive target := GrpcWeb | Preflight | HttpEndpoint (path : string) | Gateway | Grpc.

Fixpoint HasPrefix (s prefix : string) : bool :=
  match prefix, s with
  | EmptyString, _ => true
  | String c p, String d s => Ascii.eqb c d && HasPrefix s p
  | String _ _, EmptyString => false
  end.
Fixpoint Contains (s sub : string) : bool :=
  HasPrefix s sub || match s with EmptyString => false | String _ s => Contains s sub end.

Definition isOptionRequest (r : http_request) : bool := bool_decide (rq_Method r = "OPTIONS"%string).
Definition isValidGrpcContentTypeHeader (contentType : string) : bool :=
  HasPrefix contentType "application/grpc-web-text" || HasPrefix contentType "application/grpc-web".
Definition isValidGrpcWebRequest (r : http_request) : bool :=
  bool_decide (rq_Method r = "POST"%string) && isValidGrpcContentTypeHeader (rq_ContentType r).
Definition isValidGrpcWebOptionRequest (r : http_request) : bool :=
  bool_decide (rq_Method r = "OPTIONS"%string) && Contains (rq_AccessControl r) "x-grpc-web"
  && Contains (rq_AccessControl r) "content-type".
Definition isGrpcWebRequest (r : http_request) : bool := isValidGrpcWebOptionRequest r || isValidGrpcWebRequest r.
Definition isHttpRequest (r : http_request) : bool :=
  bool_decide (rq_Method r = "GET"%string) || Contains (rq_ContentType r) "application/json".
(** [endpoints]: the paths of httpHandlers. *)
Definition router (endpoints : list string) (r : http_request) : target :=
  if isGrpcWebRequest r then GrpcWeb
  else if isOptionRequest r then Preflight
  else if isHttpRequest r then
    (if bool_decide (rq_Path r ∈ endpoints) then HttpEndpoint (rq_Path r) else Gateway)
  else Grpc.
Definition operator_endpoints : list string := ["/"; "/tdexdconnect"]%string.

(** * Theorems: what is served *)

(** [m] keeps [I] whatever its outcome. *)
Definition maintains {S E A} (I : S → Prop) (m : action S E A) : Prop := ∀ s, I s → I (fst (m s)).
Section maintains.
Context {S E : Type} (I : S → Prop).
Lemma maintains_ret {A} (a : A) : maintains I (mret a : action S E A).
Proof. by intros s. Qed.
Lemma maintains_lift {A} (m : outcome E A) : maintains I (lift m : action S E A).
Proof. by intros s. Qed.
Lemma maintains_get : maintains I (get_state : action S E S).
Proof. by intros s. Qed.
Lemma maintains_bind {A B} (m : action S E A) (f : A → action S E B) :
  maintains I m → (∀ a, maintains I (f a)) → maintains I (m ≫= f).
Proof.
  intros Hm Hf s Hs. specialize (Hm s Hs). unfold mbind, action_bind. destruct (m s) as [s' [a|e|p]]; cbn in *; [by apply Hf | done..].
Qed.
End maintains.
Create HintDb maintains.
#[export] Hint Resolve maintains_ret maintains_lift maintains_get : maintains.
Ltac maintains := repeat first
  [ solve [eauto with maintains] | apply maintains_bind; [|intros ?] | progress case_match ].

Section served.
Context {DB : Type} `{Bolt DB} {K : Type} `{Snacl K} {Mac Ctx : Type} `{Bakery Mac Ctx} `{MapOrder}.
Variable opts : ServiceOpts.
Implicit Types s : Iface DB K Ctx.

Definition running (o : option server) : list string :=
  match o with Some s => if srv_running s then srv_services s else [] | None => [] end.
(** The services that answer on either port. *)
Definition served s : list string := running (if_operator s) ++ running (if_trade s).
Definition locked_interface : list string := wallet_services.
Definition full_interface : list string := operator_services ++ trade_services.

(** The two servers match: the trade one is there exactly beside the full operator
    one, and they run together. *)
Definition servers_are (P : option server → option server → Prop) s : Prop := P (if_operator s) (if_trade s).
Definition matching (operator trade : option server) : Prop :=
  ∃ op, operator = Some op ∧
    match trade with
    | None => srv_services op = wallet_services
    | Some tr => srv_services op = operator_services ∧ srv_services tr = trade_services ∧ srv_running tr = srv_running op
    end.
Abbreviation iface_ok := (servers_are matching).

Lemma iface_ok_served s : iface_ok s →
  served s = [] ∨ (if_trade s = None ∧ served s = locked_interface) ∨ (is_Some (if_trade s) ∧ served s = full_interface).
Proof.
  intros (op & Eo & Ht). unfold served, running. rewrite Eo. destruct (if_trade s) as [tr|].
  - destruct Ht as (E1 & E2 & ->). rewrite E1, E2. destruct (srv_running op); [right; right; eauto | by left].
  - rewrite Ht. destruct (srv_running op); [right; left; by rewrite app_nil_r | by left].
Qed.

(** What does not touch the servers keeps any property of them. *)
Section untouched.
Context (P : option server → option server → Prop).
Abbreviation I := (servers_are P).
Lemma ok_on_mac {A} (m : action (Service DB K Ctx) error A) : maintains I (on_mac m).
Proof. intros s Hs. unfold on_mac. destruct (if_mac s); [|done]. by destruct (m s0). Qed.
Lemma ok_logged m : maintains I m → maintains I (logged m).
Proof. intros Hm s Hs. specialize (Hm s Hs). unfold logged. by destruct (m s) as [s' []]. Qed.
Lemma ok_keep_password p : maintains I (keep_password p).
Proof. by intros s. Qed.
Lemma ok_close n : maintains I (close n).
Proof. by intros s. Qed.
Lemma ok_write env f c p : maintains I (write_macaroon env f c p).
Proof. intros s Hs. unfold write_macaroon. by destruct (env_WriteFile env f). Qed.
Lemma ok_mkdir env p : maintains I (makeDirectoryIfNotExists env p).
Proof. intros s Hs. unfold makeDirectoryIfNotExists. case_match; [done|]. by case_match. Qed.
Hint Resolve ok_on_mac ok_write ok_mkdir : maintains.
Lemma ok_write_all env dir l : maintains I (write_macaroons env dir l).
Proof. induction l as [|[n p] l IH]; cbn [write_macaroons]; maintains. Qed.
Lemma ok_gen env dir : maintains I (genMacaroons env dir).
Proof.
  intros s Hs. unfold genMacaroons. case_match; [done|].
  assert (maintains I (_ ← makeDirectoryIfNotExists env dir; write_macaroons env dir (range_items Macaroons))) as Hm
    by (maintains; apply ok_write_all). by apply Hm.
Qed.
End untouched.
Hint Resolve ok_on_mac ok_logged ok_keep_password ok_close ok_write ok_mkdir ok_write_all ok_gen : maintains.

(** Starting leaves the state alone or replaces both servers. *)
Lemma start_cases env b s :
  (fst (start opts env b s) = s ∧ snd (start opts env b s) ≠ Ret ()) ∨
  ∃ op tr, start opts env b s = (set_servers (Some op) tr s, Ret ()) ∧ srv_running op = true ∧
    if b then srv_services op = wallet_services ∧ tr = None
    else srv_services op = operator_services ∧ ∃ t, tr = Some t ∧ srv_services t = trade_services ∧ srv_running t = true.
Proof.
  unfold start, newOperatorServer, newTradeServer, mbind, action_bind, lift.
  destruct (operatorTLSConfig opts env) as [tls| |]; cbn; [|by left..].
  destruct (env_operator env); cbn; [|by left..]. destruct b; cbn.
  - right. eexists _, _. split; [done|]. by split_and!.
  - destruct (tradeTLSConfig opts env) as [tt| |]; cbn; [|by left..]. destruct (env_trade env); cbn; [|by left..].
    right. eexists _, _. split; [done|]. split_and!; [done..|]. eexists. by split_and!.
Qed.
Lemma ok_start env b : maintains iface_ok (start opts env b).
Proof.
  intros s Hs. destruct (start_cases env b s) as [[-> _]|(op & tr & -> & Hr & Hb)]; [done|]. cbn.
  exists op. split; [done|]. cbn. destruct b; [by destruct Hb as [? ->]|].
  destruct Hb as (? & t & -> & ? & Ht). cbn. rewrite Ht. by split_and!.
Qed.
Lemma ok_stop b : maintains iface_ok (stop opts b).
Proof.
  unfold stop. apply maintains_bind.
  { case_match; maintains. }
  intros _ s (op & Eo & Ht). unfold mbind, action_bind, get_state, lift. rewrite Eo. cbn. eexists. split; [done|].
  cbn. destruct (if_trade s) as [tr|]; cbn; naive_solver.
Qed.
Hint Resolve ok_start ok_stop : maintains.
Lemma ok_callback env c : maintains iface_ok (run_callback opts env c).
Proof.
  destruct c; cbn [run_callback]; unfold onInit, onUnlock, onLock, onChangePwd, create_unlock; maintains.
Qed.
End served.
#[export] Hint Resolve ok_on_mac ok_logged ok_keep_password ok_close ok_write ok_mkdir ok_write_all ok_gen : maintains.

(** * The wallet handler and the interface together *)

Section system.
Context {DB : Type} `{Bolt DB} {K : Type} `{Snacl K} {Mac Ctx : Type} `{Bakery Mac Ctx} `{MapOrder}.
Context {S : Type} `{SecureStorage S} {V : Type} `{WalletManager V WalletStatus WalletInfo}.
Variables (run : IfaceEnv → callback → action (Iface DB K Ctx) error ()) (buildData : BuildData) (macaroonPath : string).

Record Sys := { sys_wallet : WalletState S V; sys_iface : Iface DB K Ctx }.
(** A request with the wallet before and after it, or a callback that ran. *)
Inductive event :=
  | Requested (r : WalletRequest) (u u' : unlocker S V)
  | Ran (c : callback).

(** The wallet interface serves a request, or any callback that was started runs; [run] is
    what the service does in a callback. *)
Inductive sys_step : Sys → event → Sys → Prop :=
  | step_request s r w o :
      wallet_server buildData macaroonPath r (sys_wallet s) = (w, o) →
      sys_step s (Requested r (ws_unlocker (sys_wallet s)) (ws_unlocker w)) {| sys_wallet := w; sys_iface := sys_iface s |}
  | step_callback s env l c l' :
      ws_callbacks (sys_wallet s) = l ++ c :: l' →
      sys_step s (Ran c)
        {| sys_wallet := {| ws_unlocker := ws_unlocker (sys_wallet s); ws_callbacks := l ++ l' |};
           sys_iface := fst (run env c (sys_iface s)) |}.
Inductive sys_exec : Sys → list event → Sys → Prop :=
  | exec_nil s : sys_exec s [] s
  | exec_step s tr s1 e s2 : sys_exec s tr s1 → sys_step s1 e s2 → sys_exec s (tr ++ [e]) s2.

(** A password was accepted by the wallet and the wallet unlocked with it. *)
Definition unlocked_in (tr : list event) : Prop :=
  ∃ p u u', Requested (UnlockWalletRequest p) u u' ∈ tr ∧ svc_UnlockWallet p u = (u', Ret ()).
Lemma unlocked_in_app tr e : unlocked_in tr → unlocked_in (tr ++ [e]).
Proof. intros (p & u & u' & Hin & E). exists p, u, u'. split; [set_solver | done]. Qed.

(** A service that keeps [I], and that nothing but onUnlock takes out of [locked], is out
    of it only after an unlock. *)
Lemma exec_invariant (I locked : Iface DB K Ctx → Prop) s0 tr s :
  (∀ env c, maintains I (run env c)) → (∀ env c, (∀ p, c ≠ OnUnlock p) → maintains locked (run env c)) →
  sys_exec s0 tr s → ws_callbacks (sys_wallet s0) = [] → I (sys_iface s0) → locked (sys_iface s0) →
  I (sys_iface s) ∧ (∀ p, OnUnlock p ∈ ws_callbacks (sys_wallet s) → unlocked_in tr) ∧
  (locked (sys_iface s) ∨ unlocked_in tr).
Proof.
  intros HI HL HE Hc Hok Ht. induction HE as [s|s tr s1 e s2 HE IH Hs].
  { rewrite Hc. split; [done|]. split; [intros p Hp; by apply not_elem_of_nil in Hp | by left]. }
  destruct (IH Hc Hok Ht) as (I1 & I2 & I3). destruct Hs as [s1 r w o Hw|s1 env l c l' Hl]; cbn.
  - split; [done|]. split; [|destruct I3; [by left | right; by apply unlocked_in_app]].
    intros p Hp. apply callbacks_follow_success in Hw as [Hw|(c & Hw & Hd)]; rewrite Hw in Hp; [by apply unlocked_in_app, (I2 p)|].
    apply elem_of_app in Hp as [Hp|Hp]; [by apply unlocked_in_app, (I2 p)|]. apply list_elem_of_singleton in Hp as <-.
    destruct r; cbn in Hd; try done. destruct Hd as [-> Hd]. do 3 eexists. split; [|exact Hd].
    apply elem_of_app. right. by apply list_elem_of_singleton.
  - split; [by apply HI|]. split.
    + intros p Hp. apply unlocked_in_app, (I2 p). rewrite Hl. set_solver.
    + destruct I3 as [I3|I3]; [|right; by apply unlocked_in_app].
      destruct c as [p|p|p|old new]; [left; by apply HL | right; apply unlocked_in_app, (I2 p); rewrite Hl; set_solver
        | left; by apply HL..].
Qed.
End system.

Section two_ports.
Context {DB : Type} `{Bolt DB} {K : Type} `{Snacl K} {Mac Ctx : Type} `{Bakery Mac Ctx} `{MapOrder}.
Context {S : Type} `{SecureStorage S} {V : Type} `{WalletManager V WalletStatus WalletInfo}.
Variables (opts : ServiceOpts) (buildData : BuildData) (macaroonPath : string).

(** Only onUnlock brings a trade server up. *)
Abbreviation no_trade := (servers_are (λ _ trade, trade = None)).
Lemma no_trade_start env : maintains no_trade (start (DB := DB) (K := K) (Ctx := Ctx) opts env true).
Proof.
  intros s Hs. destruct (start_cases opts env true s) as [[-> _]|(op & tr & -> & _ & _ & ->)]; done.
Qed.
Lemma no_trade_stop b : maintains no_trade (stop (DB := DB) (K := K) (Ctx := Ctx) opts b).
Proof.
  unfold stop. apply maintains_bind.
  { case_match; maintains. }
  intros _ s Hs. unfold mbind, action_bind, get_state, lift. destruct (if_operator s); [|done]. cbn.
  unfold servers_are in *; cbn. by rewrite Hs.
Qed.
#[local] Hint Resolve no_trade_start no_trade_stop : maintains.
Lemma no_trade_callback env c : (∀ p, c ≠ OnUnlock p) → maintains no_trade (run_callback (DB := DB) (K := K) (Ctx := Ctx) opts env c).
Proof.
  intros Hc. destruct c as [p|p|p|old new]; [|by destruct (Hc p)| |]; cbn [run_callback];
    unfold onInit, onLock, onChangePwd, create_unlock; maintains.
Qed.

(** The services of the locked interface are not among the others. *)
Lemma locked_interface_only x :
  x ∈ [OperatorService; FeederService; WebhookService; Macaroons.TradeService; TransportService] → x ∉ locked_interface.
Proof.
  intros Hx Hin. unfold locked_interface, wallet_services in Hin.
  repeat (apply elem_of_cons in Hx as [->|Hx]; [vm_compute in Hin; repeat (apply elem_of_cons in Hin as [?|Hin]; [done|]); by apply not_elem_of_nil in Hin|]).
  by apply not_elem_of_nil in Hx.
Qed.

End two_ports.

(** * Theorems: callbacks in order *)

Section in_order.
Context {DB : Type} `{Bolt DB} {K : Type} `{Snacl K} {Mac Ctx : Type} `{Bakery Mac Ctx} `{MapOrder}.
Variable opts : ServiceOpts.
Implicit Types s : Iface DB K Ctx.
Abbreviation act := (action (Iface DB K Ctx) error).

Fixpoint run_all (env : IfaceEnv) (cs : list callback) : act () :=
  match cs with [] => mret () | c :: cs => _ ← run_callback opts env c; run_all env cs end.
(** The servers can be started. *)
Definition startable (env : IfaceEnv) : Prop :=
  (∃ b, operatorTLSConfig opts env = Ret b) ∧ env_operator env = Ret () ∧
  (∃ b, tradeTLSConfig opts env = Ret b) ∧ env_trade env = Ret ().
(** Whether the last of the calls that say so unlocked the wallet. *)
Definition last_unlock (before : option bool) (cs : list callback) : option bool :=
  foldl (λ b c, match c with OnUnlock _ => Some true | OnLock _ => Some false | _ => b end) before cs.

Lemma start_ok env b s : startable env →
  served (fst (start opts env b s)) = (if b then locked_interface else full_interface) ∧
  snd (start opts env b s) = Ret () ∧ is_Some (if_operator (fst (start opts env b s))).
Proof.
  intros ([b1 E1] & E2 & [b2 E3] & E4).
  destruct (start_cases opts env b s) as [[_ Hn]|(op & tr & -> & Hr & Hb)].
  { exfalso. apply Hn. unfold start, newOperatorServer, newTradeServer, mbind, action_bind, lift.
    rewrite E1, E2. cbn. destruct b; [done|]. cbn. rewrite E3, E4. done. }
  split; [|done]. unfold served, running; cbn. rewrite Hr. destruct b; [destruct Hb as [-> ->]; by rewrite app_nil_r|].
  destruct Hb as (-> & t & -> & -> & ->). done.
Qed.

(** The servers before a callback that touches none are there after it. *)
Lemma untouched_servers {A} (m : act A) s s' o :
  (∀ P, maintains (servers_are P) m) → m s = (s', o) → if_operator s' = if_operator s ∧ if_trade s' = if_trade s.
Proof.
  intros Hm E. specialize (Hm (λ a b, a = if_operator s ∧ b = if_trade s) s). rewrite E in Hm. by apply Hm.
Qed.

Lemma stop_then_start env b s s' : startable env →
  (_ ← stop opts false; logged (start opts env b)) s = (s', Ret ()) →
  served s' = if b then locked_interface else full_interface.
Proof.
  intros Henv HE. apply action_bind_Ret in HE as (s1 & [] & _ & HE). unfold logged in HE.
  destruct (start_ok env b s1 Henv) as (Hs & Ho & _). destruct (start opts env b s1) as [s2 o]; cbn in *. subst o.
  by injection HE as <-.
Qed.

(** the interface follows the wallet.  When the goroutines run in the order in
    which the wallet was initialized, unlocked, locked and given new passwords, and the
    servers can be started, everything is served exactly when the last of these calls
    unlocked the wallet and the wallet interface alone when it locked it; a new wallet
    or a new password changes nothing. *)
Theorem interface_follows_wallet env cs s s' (before : option bool) : startable env →
  (∀ b, before = Some b → served s = if b then full_interface else locked_interface) →
  run_all env cs s = (s', Ret ()) →
  match last_unlock before cs with
  | Some b => served s' = if b then full_interface else locked_interface
  | None => served s' = served s
  end.
Proof.
  intros Henv. revert before s. induction cs as [|c cs IH]; intros before s Hb HR; cbn [run_all] in HR.
  { injection HR as <-. cbn. destruct before; auto. }
  apply action_bind_Ret in HR as (s1 & [] & Hc & HR).
  assert (∀ (m : act ()) s s', (∀ P, maintains (servers_are P) m) → m s = (s', Ret ()) → served s' = served s) as Hkeep.
  { intros m x y Hm E. destruct (untouched_servers m x y _ Hm E) as [E1 E2]. unfold served. by rewrite E1, E2. }
  assert (∀ b0 : option bool, (∀ b, b0 = Some b → served s1 = if b then full_interface else locked_interface) →
    (b0 = None → served s1 = served s) → match last_unlock b0 cs with
    | Some b => served s' = if b then full_interface else locked_interface | None => served s' = served s end) as Hstep.
  { intros b0 Hb0 Hn. specialize (IH b0 s1 Hb0 HR). destruct (last_unlock b0 cs) eqn:E; [done|]. rewrite IH. apply Hn.
    clear -E. revert b0 E. induction cs as [|c cs IHc]; intros b0 E; [done|]. cbn in E. destruct c; try by apply IHc.
    all: specialize (IHc _ E); done. }
  destruct c as [p|p|p|old new]; cbn [run_callback] in Hc; cbn [last_unlock foldl].
  - assert (served s1 = served s) as E by (eapply Hkeep; [|exact Hc]; intros P; unfold onInit, create_unlock; maintains).
    apply Hstep; [intros b; rewrite E; apply Hb | done].
  - unfold onUnlock in Hc. do 3 (apply action_bind_Ret in Hc as (? & ? & _ & Hc)).
    apply Hstep; [intros b [= <-]; by apply (stop_then_start env false _ _ Henv Hc) | done].
  - apply Hstep; [intros b [= <-]; by apply (stop_then_start env true _ _ Henv Hc) | done].
  - assert (served s1 = served s) as E by (eapply Hkeep; [|exact Hc]; intros P; unfold onChangePwd; maintains).
    apply Hstep; [intros b; rewrite E; apply Hb | done].
Qed.
End in_order.

(** * Theorems: the files of the macaroons *)

(** A file name: one component of a path. *)
Fixpoint no_slash (s : string) : bool :=
  match s with EmptyString => true | String c s => negb (Ascii.eqb c "/") && no_slash s end.
Definition plain (s : string) : bool :=
  no_slash s && negb (bool_decide (s = ""%string)) && negb (bool_decide (s = "."%string)) && negb (bool_decide (s = ".."%string)).

Lemma split_slash_cons s : ∃ h t, split_slash s = h :: t.
Proof. destruct s as [|c s]; cbn; [eauto|]. destruct (split_slash s); [eauto|]. destruct (Ascii.eqb c "/"); eauto. Qed.
Lemma split_slash_app a b : split_slash (a +:+ "/" +:+ b) = split_slash a ++ split_slash b.
Proof.
  induction a as [|c a IH].
  - change (split_slash (String "/" b) = [""%string] ++ split_slash b). cbn [split_slash].
    destruct (split_slash_cons b) as (h & t & ->). done.
  - change (String c a +:+ "/" +:+ b) with (String c (a +:+ "/" +:+ b)). cbn [split_slash]. rewrite IH.
    destruct (split_slash_cons a) as (h & t & ->). cbn. by destruct (Ascii.eqb c "/").
Qed.
Lemma split_slash_plain b : no_slash b = true → split_slash b = [b].
Proof.
  induction b as [|c b IH]; [done|]. cbn. rewrite andb_true_iff, negb_true_iff. intros [-> Hb]. by rewrite IH.
Qed.
Lemma string_app_assoc a b c : (a +:+ b) +:+ c = a +:+ (b +:+ c).
Proof. induction a as [|x a IH]; [done|]. cbn. unfold String.app in *. by f_equal. Qed.
Lemma join_slash_snoc l a : join_slash (l ++ [a]) = (if l then "" else join_slash l +:+ "/") +:+ a.
Proof.
  induction l as [|x l IH]; [done|]. destruct l as [|y l].
  { change (x +:+ "/" +:+ a = (x +:+ "/") +:+ a). by rewrite string_app_assoc. }
  change (join_slash ((x :: y :: l) ++ [a])) with (x +:+ "/" +:+ join_slash ((y :: l) ++ [a])). rewrite IH.
  change (join_slash (x :: y :: l)) with (x +:+ "/" +:+ join_slash (y :: l)). by rewrite !string_app_assoc.
Qed.
Lemma clean_step_plain rooted acc a : plain a = true → clean_step rooted acc a = a :: acc.
Proof.
  unfold plain, clean_step. rewrite !andb_true_iff, !negb_true_iff, !bool_decide_eq_false. intros [[[_ H1] H2] H3].
  by rewrite !bool_decide_false.
Qed.
Lemma app_nonempty a b : b ≠ ""%string → a +:+ b ≠ ""%string.
Proof. by destruct a. Qed.

(** The path of a file in a directory is the file's name after a prefix that is the
    directory's. *)
Lemma Join_plain dir : ∃ pre, ∀ a, plain a = true → Join dir a = pre +:+ a.
Proof.
  assert (∀ rooted acc, ∃ pre, ∀ a, plain a = true →
    (if rooted : bool then "/" else "") +:+ join_slash (rev (clean_step rooted acc a)) = pre +:+ a) as Hpre.
  { intros rooted acc. exists ((if rooted then "/" else "") +:+ (if rev acc then "" else join_slash (rev acc) +:+ "/")).
    intros a Ha. rewrite clean_step_plain by done. cbn [rev]. by rewrite join_slash_snoc, string_app_assoc. }
  unfold Join. destruct dir as [|c dir].
  - destruct (Hpre false []) as [pre Hp]. exists pre. intros a Ha. cbn [bool_decide negb]. rewrite bool_decide_true by done. cbn.
    assert (a ≠ ""%string ∧ no_slash a = true) as [Hne Hns].
    { unfold plain in Ha. rewrite !andb_true_iff, !negb_true_iff, !bool_decide_eq_false in Ha. naive_solver. }
    rewrite bool_decide_false by done. cbn. unfold Clean, clean_parts.
    assert (is_rooted a = false) as ->. { destruct a as [|x a]; [done|]. cbn in *. by apply andb_true_iff in Hns as [?%negb_true_iff _]. }
    rewrite split_slash_plain by done. cbn [foldl]. rewrite Hp by done. rewrite bool_decide_false; [done | by apply app_nonempty].
  - set (rooted := Ascii.eqb c "/"). destruct (Hpre rooted (foldl (clean_step rooted) [] (split_slash (String c dir)))) as [pre Hp].
    exists pre. intros a Ha. rewrite bool_decide_false by done. cbn [negb]. unfold Clean, clean_parts.
    change (is_rooted (String c dir +:+ "/" +:+ a)) with rooted.
    assert (a ≠ ""%string ∧ no_slash a = true) as [Hne Hns].
    { unfold plain in Ha. rewrite !andb_true_iff, !negb_true_iff, !bool_decide_eq_false in Ha. naive_solver. }
    rewrite split_slash_app, foldl_app, (split_slash_plain a) by done. cbn [foldl]. rewrite Hp by done.
    rewrite bool_decide_false; [done | by apply app_nonempty].
Qed.
Lemma string_app_inj p a b : p +:+ a = p +:+ b → a = b.
Proof. induction p as [|c p IH]; [done|]. cbn. unfold String.app in *. intros [= HE]. by apply IH. Qed.
Lemma Join_inj dir a b : plain a = true → plain b = true → Join dir a = Join dir b → a = b.
Proof. destruct (Join_plain dir) as [pre Hp]. intros Ha Hb. rewrite !Hp by done. apply string_app_inj. Qed.

Section macaroon_files.
Context {DB : Type} `{Bolt DB} {K : Type} `{Snacl K} {Mac Ctx : Type} `{Bakery Mac Ctx} `{MapOrder}.
Implicit Types s : Iface DB K Ctx.

Lemma Macaroons_plain name perms : Macaroons !! name = Some perms → plain name = true.
Proof.
  unfold Macaroons. intros HM. apply elem_of_list_to_map_2 in HM.
  repeat (apply elem_of_cons in HM as [[= -> ->]|HM]; [by vm_compute|]). by apply not_elem_of_nil in HM.
Qed.

Lemma bake_content rnd fresh perms (svc svc' : Service DB K Ctx) b :
  bakeMacaroon rnd fresh perms svc = (svc', Ret b) → ∃ key, b = MarshalBinary (Oven_NewMacaroon key DefaultRootKeyID perms).
Proof.
  unfold bakeMacaroon, svc_NewMacaroon. intros HB. apply action_bind_Ret in HB as (s1 & mac & HN & HB). injection HB as <- <-.
  rewrite bool_decide_false in HN by done. apply action_bind_Ret in HN as (s2 & [key id] & HR & HN). injection HN as <- <-.
  exists key. do 2 f_equal. unfold on_rks in HR.
  destruct (rk_RootKey rnd fresh (Some DefaultRootKeyID) (rks svc)) as [r o] eqn:E. injection HR as _ ->.
  unfold rk_RootKey, rk_unlocked in E. destruct (rk_encKey (rks svc)) as [k|]; [|done].
  apply action_bind_Ret in E as (s3 & id' & HI & E). injection HI as _ HI. subst id'. rewrite bool_decide_false in E by done.
  apply action_bind_Ret in E as (s4 & st & HG & E).
  destruct (Macaroons.stored _ _); [|apply action_bind_Ret in E as (? & ? & _ & E)]; apply action_bind_Ret in E as (? & ? & _ & E); by injection E.
Qed.

(** The macaroon file of [name] is there, with its permissions. *)
Definition macaroon_file (dir : string) (fs0 fs : files) (name : string) (perms : list Op) : Prop :=
  ∃ key mode, fs !! Join dir name = Some (Regular (MarshalBinary (Oven_NewMacaroon key DefaultRootKeyID perms)) mode) ∧
    ((∀ c m, fs0 !! Join dir name ≠ Some (Regular c m)) → mode = macaroon_perms name).

Lemma write_macaroons_spec env dir l s s' :
  NoDup l.*1 → Forall (λ x, plain x.1 = true) l → write_macaroons env dir l s = (s', Ret ()) →
  (∀ name perms, (name, perms) ∈ l → macaroon_file dir (if_files s) (if_files s') name perms) ∧
  (∀ path, (∀ x, x ∈ l → path ≠ Join dir x.1) → if_files s' !! path = if_files s !! path).
Proof.
  revert s. induction l as [|[n p] l IH]; intros s Hnd Hpl HW; cbn [write_macaroons] in HW.
  { injection HW as <-. split; [intros ?? HI; by apply not_elem_of_nil in HI | done]. }
  apply NoDup_cons in Hnd as [Hn Hnd]. apply Forall_cons in Hpl as [Hp Hpl].
  pose proof (proj1 (Forall_forall _ l) Hpl) as Hall.
  apply action_bind_Ret in HW as (s1 & b & HB & HW). apply action_bind_Ret in HW as (s2 & [] & HF & HW).
  unfold on_mac in HB. destruct (if_mac s) as [mac|]; [|done].
  destruct (bakeMacaroon _ _ _ mac) as [mac' o] eqn:EB. injection HB as <- ->. apply bake_content in EB as [key ->].
  unfold write_macaroon in HF; cbn in HF. destruct (env_WriteFile env _); [|done..]. injection HF as <-.
  destruct (IH _ Hnd Hpl HW) as [HI HK]. cbn in HI, HK. split.
  - intros name perms Hin. apply elem_of_cons in Hin as [[= -> ->]|Hin].
    + eexists key, _. rewrite HK; [rewrite lookup_insert_eq; split; [done|]|].
      { intros HN. destruct (if_files s !! _) as [[]|]; [by destruct (HN content mode)|done..]. }
      intros [m q] Hm HE. apply Join_inj in HE; [|done|by apply (Hall _ Hm)]. subst. apply Hn. by apply (list_elem_of_fmap_2 fst) in Hm.
    + destruct (HI _ _ Hin) as (k & mode & HE & Hmode). exists k, mode. split; [done|]. intros HN. apply Hmode.
      rewrite lookup_insert_ne; [done|]. intros HJ. apply Join_inj in HJ; [|done|by apply (Hall _ Hin)].
      subst. apply Hn. by apply (list_elem_of_fmap_2 fst) in Hin.
  - intros path Hpath. rewrite HK by (intros x Hx; apply Hpath; by right).
    rewrite lookup_insert_ne; [done|]. intros <-. by apply (Hpath (n, p)); [left|].
Qed.

(** the macaroons on disk.  When none of the four macaroons the daemon looks for is
    there and genMacaroons succeeds, all six files of the daemon are there afterwards,
    each a macaroon of the default root key with exactly the permissions of its role,
    and a file that is new has mode 0600 if it is the admin's and 0644 otherwise.  When
    any of the four is there, nothing is written, whatever the others are. *)
Theorem macaroons_written env dir s s' :
  let found := λ name, pathExists (if_files s) (Join dir name) in
  genMacaroons env dir s = (s', Ret ()) →
  (found AdminMacaroonFile || found ReadOnlyMacaroonFile || found MarketMacaroonFile || found PriceMacaroonFile = true → s' = s) ∧
  (found AdminMacaroonFile || found ReadOnlyMacaroonFile || found MarketMacaroonFile || found PriceMacaroonFile = false →
     ∀ name perms, Macaroons !! name = Some perms → macaroon_file dir (if_files s) (if_files s') name perms).
Proof.
  intros found. unfold genMacaroons. fold (found AdminMacaroonFile) (found ReadOnlyMacaroonFile) (found MarketMacaroonFile) (found PriceMacaroonFile).
  destruct (found AdminMacaroonFile || _ || _ || _); intros HG; [by injection HG as <-|]. split; [done|]. intros _ name perms HM.
  apply action_bind_Ret in HG as (s1 & [] & HD & HG).
  apply write_macaroons_spec in HG as [HI _].
  - destruct (HI name perms) as (key & mode & HE & Hmode).
    { unfold range_items. rewrite range_order_perm. by apply elem_of_map_to_list. }
    exists key, mode. split; [done|]. intros HN. apply Hmode. unfold makeDirectoryIfNotExists in HD.
    destruct (pathExists (if_files s) dir); [by injection HD as <-|].
    destruct (env_MkdirAll env dir); [|done..]. injection HD as <-. cbn. intros c m. rewrite lookup_insert. by case_decide.
  - unfold range_items. rewrite range_order_perm. apply NoDup_fst_map_to_list.
  - unfold range_items. rewrite range_order_perm. apply Forall_forall. intros [n p] Hn%elem_of_map_to_list. by eapply Macaroons_plain.
Qed.
End macaroon_files.

(** * Further consequences *)

Section consequences.
Context {DB : Type} `{Bolt DB} {K : Type} `{Snacl K} {Mac Ctx : Type} `{Bakery Mac Ctx} `{MapOrder}.
Context {S : Type} `{SecureStorage S} {V : Type} `{WalletManager V WalletStatus WalletInfo}.
Variable opts : ServiceOpts.

(** Some of the macaroons on disk and some not: the daemon does not start again. *)
Lemma partial_macaroons_block_restart net_ParseIP fs mac tls :
  NoMacaroons opts = false → pathExists fs (Join (macaroonsDatadir opts) AdminMacaroonFile) = true →
  pathExists fs (Join (macaroonsDatadir opts) ReadOnlyMacaroonFile) = false →
  ∃ e, NewService (DB := DB) (K := K) (Ctx := Ctx) opts net_ParseIP fs mac tls = Err e.
Proof.
  intros Hm Ha Hr. unfold NewService, validate. destruct (pathExists fs (Datadir opts)); cbn; [|eauto]. rewrite Hm, Ha, Hr. cbn. eauto.
Qed.

(** A new password of the wallet is not the one the daemon locks the wallet with when
    it stops. *)
Lemma stale_password env old new (s s' : Iface DB K Ctx) o :
  run_callback opts env (OnChangePwd old new) s = (s', o) → if_password s' = if_password s.
Proof.
  cbn. unfold onChangePwd, logged, on_mac. destruct (withMacaroons opts); cbn; [|by intros [= <- _]].
  destruct (if_mac s); [|by intros [= <- _]]. destruct (on_rks _ _) as [m [[]|e|p]]; by intros [= <- _].
Qed.
Lemma stop_locks_with_kept_password (s : Daemon DB K Ctx S V) u e :
  if_password (dm_iface s) ≠ ""%string →
  svc_LockWallet (if_password (dm_iface s)) (dm_unlocker s) = (u, Err e) →
  dm_unlocker (fst (Stop opts s)) = u.
Proof.
  intros Hp HL. unfold Stop, mbind, action_bind, get_state, try, on_wallet_svc. rewrite bool_decide_false by done.
  rewrite HL. cbn. unfold on_iface. cbn. by destruct (stop opts true (dm_iface s)) as [i [[]|x|p]].
Qed.

(** A macaroon service that could not be created crashes the daemon at the first
    unlock. *)
Lemma unlock_without_macaroon_service env p (s : Iface DB K Ctx) :
  NoMacaroons opts = false → if_mac s = None → snd (run_callback opts env (OnUnlock p) s) = Panic NilDereference.
Proof.
  intros Hm Hs. cbn. unfold onUnlock, withMacaroons, mbind, action_bind, get_state, create_unlock, logged, on_mac. rewrite Hm. cbn.
  case_bool_decide; cbn; by rewrite Hs.
Qed.

(** The trade server without TLS speaks HTTP/2, which gRPC needs, only if the operator
    server has no TLS either. *)
Lemma trade_http2 env tls srv : newTradeServer opts env tls = Ret srv → srv_tls srv || srv_h2c srv = tls || NoOperatorTls opts.
Proof. unfold newTradeServer. by destruct (env_trade env); intros [= <-]. Qed.
End consequences.

(** ** Routing *)

(** A gRPC call, a JSON call, a gRPC-web call and a browser's preflight each reach
    their server. *)
Lemma HasPrefix_app p s : HasPrefix (p +:+ s) p = true.
Proof. induction p as [|c p IH]; [by destruct s|]. change (Ascii.eqb c c && HasPrefix (p +:+ s) p = true). by rewrite Ascii.eqb_refl. Qed.
Lemma Contains_prefix s sub : HasPrefix s sub = true → Contains s sub = true.
Proof. destruct s; cbn; by intros ->. Qed.
Lemma router_spec endpoints r :
  (rq_Method r = "POST"%string → rq_ContentType r = "application/grpc"%string → router endpoints r = Grpc) ∧
  (∀ t, rq_Method r = "POST"%string → rq_ContentType r = ("application/grpc-web" +:+ t)%string → router endpoints r = GrpcWeb) ∧
  (∀ t, rq_Method r = "POST"%string → rq_ContentType r = ("application/json" +:+ t)%string → rq_Path r ∉ endpoints →
     router endpoints r = Gateway) ∧
  (rq_Method r = "GET"%string → rq_Path r ∈ endpoints → router endpoints r = HttpEndpoint (rq_Path r)) ∧
  (rq_Method r = "OPTIONS"%string → rq_AccessControl r = ""%string → router endpoints r = Preflight).
Proof.
  unfold router, isGrpcWebRequest, isValidGrpcWebOptionRequest, isValidGrpcWebRequest, isOptionRequest, isHttpRequest,
    isValidGrpcContentTypeHeader. split_and!.
  - intros -> ->. reflexivity.
  - intros t -> ->. rewrite (HasPrefix_app "application/grpc-web" t), orb_true_r. done.
  - intros t -> -> Hp. rewrite (bool_decide_false (rq_Path r ∈ endpoints)) by done.
    rewrite (Contains_prefix _ "application/json") by apply HasPrefix_app. done.
  - intros -> Hp. rewrite (bool_decide_true (rq_Path r ∈ endpoints)) by done. reflexivity.
  - intros -> ->. reflexivity.
Qed.

(** * Examples *)
Module InterfaceExamples.
Import SecureStoreExamples PubsubExamples MacaroonExamples.

(** A wallet that is unlocked by its password. *)
#[local] Instance toy_wallet : WalletManager bool WalletStatus WalletInfo := {
  GenSeed := mret []; InitWallet _ _ := mret (); RestoreWallet _ _ := mret ();
  Unlock p := λ b, if bool_decide (p = "password"%string) then (true, Ret ()) else (b, Err (Errorf "invalid password"));
  Lock p := λ b, if bool_decide (p = "password"%string) then (false, Ret ()) else (b, Err (Errorf "invalid password"));
  Webhooks.ChangePassword _ _ := mret ();
  GetStatus := mret {| IsInitialized := true; IsUnlocked := true; IsSynced := true |};
  GetInfo := mret {| inf_RootPath := ""; inf_Network := ""; inf_Accounts := [] |}; }.
Definition options : ServiceOpts := {|
  NoMacaroons := true; Datadir := "/tdex"; DBLocation := "db"; TLSLocation := "tls"; MacaroonsLocation := "macaroons";
  OperatorExtraIPs := []; WalletUnlockPasswordFile := ""; OperatorPort := 9000; TradePort := 9945; TradeTLSKey := "";
  TradeTLSCert := ""; AppConfig := Some (Ret ()); opts_BuildData := None; NoOperatorTls := true |}.
Definition ok_env : IfaceEnv := {|
  env_LoadX509KeyPair _ _ := Ret (); env_operator := Ret (); env_trade := Ret (); env_MkdirAll _ := Ret ();
  env_WriteFile _ := Ret (); env_rnd := 1; env_fresh := [1] |}.
Definition build : BuildData := {| bd_Version := ""; bd_Commit := ""; bd_Date := "" |}.

Definition iface0 : Iface tree key ctx := {|
  if_mac := None; if_files := ∅; if_operator := None; if_trade := None; if_password := ""; if_closed := [] |}.
Definition iface1 : Iface tree key ctx := fst (start options ok_env true iface0).
Definition u0 : unlocker (boltSecureStorage tree key) bool := {| wallet := false; pubsub := fresh |}.
Definition sys1 : @Sys tree key ctx (boltSecureStorage tree key) bool :=
  {| sys_wallet := {| ws_unlocker := u0; ws_callbacks := [] |}; sys_iface := iface1 |}.
Definition request (r : WalletRequest) (s : @Sys tree key ctx (boltSecureStorage tree key) bool) :=
  {| sys_wallet := fst (wallet_server build "" r (sys_wallet s)); sys_iface := sys_iface s |}.
Definition run_nth (i : nat) (s : @Sys tree key ctx (boltSecureStorage tree key) bool) :=
  let cs := ws_callbacks (sys_wallet s) in
  {| sys_wallet := {| ws_unlocker := ws_unlocker (sys_wallet s); ws_callbacks := take i cs ++ drop (1 + i) cs |};
     sys_iface := fst (run_callback options ok_env (default (OnInit "") (cs !! i)) (sys_iface s)) |}.
Definition unlock_request : WalletRequest := UnlockWalletRequest "password".

Lemma request_step r s : sys_step (run_callback options) build "" s
  (Requested r (ws_unlocker (sys_wallet s)) (ws_unlocker (sys_wallet (request r s)))) (request r s).
Proof. apply (step_request _ _ _ s r _ (snd (wallet_server build "" r (sys_wallet s)))). apply surjective_pairing. Qed.
Lemma run_step i c s : ws_callbacks (sys_wallet s) !! i = Some c → sys_step (run_callback options) build "" s (Ran c) (run_nth i s).
Proof.
  intros Hi. unfold run_nth. rewrite Hi. cbn [default].
  apply (step_callback (run_callback options) build "" s ok_env (take i (ws_callbacks (sys_wallet s))) c (drop (1 + i) (ws_callbacks (sys_wallet s)))).
  symmetry. by apply take_drop_middle.
Qed.


Lemma startable_ok : startable options ok_env.
Proof. split; [by eexists|]. split; [done|]. split; [by eexists | done]. Qed.
Definition cycle : list callback := [OnUnlock "password"; OnLock "password"; OnUnlock "password"].
Lemma interface_follows_wallet_witness :
  served (fst (run_all options ok_env cycle iface1)) = full_interface.
Proof.
  apply (interface_follows_wallet options ok_env cycle iface1 (fst (run_all options ok_env cycle iface1)) None).
  - exact startable_ok.
  - discriminate.
  - assert (snd (run_all options ok_env cycle iface1) = Ret ()) as <- by (vm_compute; reflexivity). apply surjective_pairing.
Defined.

Definition iface_mac : Iface tree key ctx := {|
  if_mac := Some svc0; if_files := ∅; if_operator := None; if_trade := None; if_password := ""; if_closed := [] |}.
Definition generated := genMacaroons ok_env "/m" iface_mac.
Lemma macaroons_written_witness :
  macaroon_file "/m" (if_files iface_mac) (if_files (fst generated)) AdminMacaroonFile AdminPermissions.
Proof.
  destruct (macaroons_written ok_env "/m" iface_mac (fst generated)) as [_ Hw].
  - assert (snd generated = Ret ()) as <- by (vm_compute; reflexivity). exact (surjective_pairing generated).
  - apply Hw; reflexivity.
Defined.

(** The goroutines of an unlock and a lock that follow each other may run in the other
    order: the wallet is locked and everything is served. *)
Example lock_race (s := run_nth 0 (run_nth 1 (request (LockWalletRequest "password") (request unlock_request sys1)))) :
  wallet (ws_unlocker (sys_wallet s)) = false ∧ ws_callbacks (sys_wallet s) = [] ∧ served (sys_iface s) = full_interface.
Proof. split_and!; vm_compute; reflexivity. Qed.
End InterfaceExamples.
