(* ===== verification/TdexConnect.v ===== *)
(** The connect endpoint: internal/interfaces/http/tdex_connect_handler.go and
    pkg/tdexdconnect, how an operator's browser or CLI gets the daemon's address,
    certificate and admin macaroon in one URL.

    base64 is defined here.  URLs and PEM blocks are the class [ConnectLib]: a URL is
    its host and its query, a map with one value per key. *)

From Stdlib Require Import ZArith Lia Ascii.
From stdpp Require Import base tactics strings list gmap.
From S2P Require Import Prelude Errors Decimal Market Trade Exchange Repos SecureStore Pubsub Macaroons SwapMsg Wallet TradeService Report Calendar Requests Operator TxEvents Listing Handlers Webhooks AdminHandlers Interface.
Local Open Scope Z_scope.

(** * base64.RawURLEncoding *)

Definition b64_char (n : Z) : ascii :=
  ascii_of_nat (Z.to_nat (if n <? 26 then 65 + n else if n <? 52 then 71 + n else if n <? 62 then n - 4
    else if n =? 62 then 45 else 95)).
Definition b64_value (c : ascii) : option Z :=
  let n := Z.of_nat (nat_of_ascii c) in
  if (65 <=? n) && (n <=? 90) then Some (n - 65)
  else if (97 <=? n) && (n <=? 122) then Some (n - 71)
  else if (48 <=? n) && (n <=? 57) then Some (n + 4)
  else if n =? 45 then Some 62
  else if n =? 95 then Some 63
  else None.

(** The 6-bit groups of some bytes, and back: the bits that are left over at the end
    are dropped. *)
Fixpoint groups (b : bytes) : list Z :=
  match b with
  | [] => []
  | [x] => [x / 4; x mod 4 * 16]
  | [x; y] => [x / 4; x mod 4 * 16 + y / 16; y mod 16 * 4]
  | x :: y :: z :: b => x / 4 :: x mod 4 * 16 + y / 16 :: y mod 16 * 4 + z / 64 :: z mod 64 :: groups b
  end.
Fixpoint ungroups (g : list Z) : option bytes :=
  match g with
  | [] => Some []
  | [_] => None
  | [x; y] => Some [x * 4 + y / 16]
  | [x; y; z] => Some [x * 4 + y / 16; y mod 16 * 16 + z / 4]
  | x :: y :: z :: t :: g => b ← ungroups g; Some (x * 4 + y / 16 :: y mod 16 * 16 + z / 4 :: z mod 4 * 64 + t :: b)
  end.
Fixpoint values_of (s : string) : option (list Z) :=
  match s with
  | EmptyString => Some []
  | String c s =>
      if Ascii.eqb c "010" || Ascii.eqb c "013" then values_of s
      else n ← b64_value c; l ← values_of s; Some (n :: l)
  end.
Definition b64_EncodeToString (b : bytes) : string := String.string_of_list_ascii (b64_char <$> groups b).
Definition b64_DecodeString (s : string) : outcome error bytes :=
  match g ← values_of s; ungroups g with Some b => Ret b | None => Err (Errorf "illegal base64 data at input byte %d") end.

(** * tdexdconnect *)

Record URL := { u_Scheme : string; u_Host : string; u_Query : gmap string string }.
(** net/url and encoding/pem. *)
Class ConnectLib := {
  url_String : URL → string;
  url_Parse : string → outcome error URL;
  pem_Decode : bytes → option (string * bytes);
}.
Class ConnectLibLaws `{ConnectLib} := {
  valid_host : string → Prop;
  parse_String u : valid_host (u_Host u) → url_Parse (url_String u) = Ret u;
}.

Section connect.
Context `{ConnectLib}.

Definition Encode (rpcServerAddr proto : string) (certBytes macBytes : bytes) : outcome error URL :=
  if negb (bool_decide (certBytes = [])) && bool_decide (proto = "http"%string)
  then new_error "http protocol invalid with cert provided"
  else
    let q : gmap string string := if bool_decide (proto = ""%string) then ∅ else {["proto"%string := proto]} in
    q ← (if bool_decide (certBytes = []) then Ret q
         else match pem_Decode certBytes with
              | Some (type, block) =>
                  if negb (bool_decide (type = "CERTIFICATE"%string))
                  then new_error "failed to decode PEM block containing certificate"
                  else Ret (<["cert"%string := b64_EncodeToString block]> q)
              | None => new_error "failed to decode PEM block containing certificate"
              end);
    let q := if bool_decide (macBytes = []) then q else <["macaroon"%string := b64_EncodeToString macBytes]> q in
    Ret {| u_Scheme := "tdexdconnect"; u_Host := rpcServerAddr; u_Query := q |}.
Definition EncodeToString (rpcServerAddr proto : string) (certBytes macBytes : bytes) : outcome error string :=
  u ← Encode rpcServerAddr proto certBytes macBytes; Ret (url_String u).
(** Address, protocol, certificate and macaroon. *)
Definition query_Get (q : gmap string string) (k : string) : string := default ""%string (q !! k).
Definition Decode (connectUrl : string) : outcome error (string * string * bytes * bytes) :=
  u ← url_Parse connectUrl;
  let proto := query_Get (u_Query u) "proto" in
  match b64_DecodeString (query_Get (u_Query u) "cert") with
  | Ret cBytes =>
      match b64_DecodeString (query_Get (u_Query u) "macaroon") with
      | Ret mBytes =>
          if negb (bool_decide (cBytes = [])) && bool_decide (proto = "http"%string)
          then new_error "http protocol invalid with cert provided"
          else Ret (u_Host u, proto, cBytes, mBytes)
      | _ => new_error "failed to decode macaroon: %s"
      end
  | _ => new_error "failed to decode certificate: %s"
  end.
End connect.

(** * The handler *)

Definition readFile (fs : files) (filePath : string) : option bytes :=
  if bool_decide (filePath = ""%string) then None
  else match fs !! filePath with Some (Regular c _) => Some c | _ => None end.

Record tdexConnect := {
  macaroonBytes : option bytes; certBytes : option bytes; macaroonPath : string; certPath : string;
  serverAddress : string; protocol : string }.
Definition httpsProtocol : string := "https".
Definition NewTdexConnectService (fs : files) (macPath crtPath addr proto : string) : outcome error tdexConnect :=
  let macBytes := readFile fs macPath in
  let crtBytes := readFile fs crtPath in
  if bool_decide (addr = ""%string) then new_error "tdexconnet: missing listening address"
  else
    p ← (if bool_decide (default [] crtBytes = []) then Ret proto
         else if bool_decide (proto = httpsProtocol) then Ret httpsProtocol
         else new_error "tdexdconnect: proto must be %s if cert is given, got %s");
    Ret {| macaroonBytes := macBytes; certBytes := crtBytes; macaroonPath := macPath; certPath := crtPath;
           serverAddress := addr; protocol := p |}.

(** ports.Wallet: its status, and whether a password is the wallet's. *)
Class ConnectWallet (V : Type) := {
  cw_Status : action V error WalletStatus;
  cw_Auth : string → action V error bool;
}.
Inductive http_answer := PlainText (body : string) | Unauthorized | InternalServerError.

Section handler.
Context `{ConnectLib} {V : Type} `{ConnectWallet V}.

Definition set_cert (c : option bytes) (t : tdexConnect) : tdexConnect := {|
  macaroonBytes := macaroonBytes t; certBytes := c; macaroonPath := macaroonPath t; certPath := certPath t;
  serverAddress := serverAddress t; protocol := protocol t |}.
Definition set_macaroon (m : option bytes) (t : tdexConnect) : tdexConnect := {|
  macaroonBytes := m; certBytes := certBytes t; macaroonPath := macaroonPath t; certPath := certPath t;
  serverAddress := serverAddress t; protocol := protocol t |}.
(** [if b == nil { b = readFile(path) }] *)
Definition or_read (fs : files) (b : option bytes) (path : string) : option bytes :=
  match b with Some _ => b | None => readFile fs path end.

(** [basicAuth] is the user and the password of the request.  A panic of the wallet's
    client is not one of its results. *)
Definition AuthHandler (fs : files) (basicAuth : option (string * string)) (s : tdexConnect * V)
    : (tdexConnect * V) * http_answer :=
  let '(t, v) := s in
  let cert := or_read fs (certBytes t) (certPath t) in
  let t := set_cert cert t in
  match EncodeToString (serverAddress t) (protocol t) (default [] cert) [] with
  | Ret connectUrl =>
      match cw_Status v with
      | (v, Ret st) =>
          if negb (IsInitialized st) then ((t, v), PlainText connectUrl)
          else match basicAuth with
               | None => ((t, v), Unauthorized)
               | Some (username, password) =>
                   if negb (bool_decide (username = "tdex"%string)) then ((t, v), Unauthorized)
                   else match cw_Auth password v with
                        | (v, Ret true) =>
                            let macaroon := or_read fs (macaroonBytes t) (macaroonPath t) in
                            let t := set_macaroon macaroon t in
                            match EncodeToString (serverAddress t) (protocol t) (default [] cert) (default [] macaroon) with
                            | Ret connectUrl => ((t, v), PlainText connectUrl)
                            | _ => ((t, v), InternalServerError)
                            end
                        | (v, _) => ((t, v), Unauthorized)
                        end
               end
      | (v, _) => ((t, v), InternalServerError)
      end
  | _ => ((t, v), InternalServerError)
  end.
End handler.

(** * Theorems *)

Definition is_byte (x : Z) : Prop := 0 ≤ x < 256.
Definition is_group (x : Z) : Prop := 0 ≤ x < 64.

Lemma b64_char_value n : is_group n →
  b64_value (b64_char n) = Some n ∧ (Ascii.eqb (b64_char n) "010" || Ascii.eqb (b64_char n) "013") = false.
Proof.
  intros Hn. assert (forallb (λ k, bool_decide (b64_value (b64_char (Z.of_nat k)) = Some (Z.of_nat k)) &&
    negb (Ascii.eqb (b64_char (Z.of_nat k)) "010" || Ascii.eqb (b64_char (Z.of_nat k)) "013")) (List.seq 0 64) = true) as HF
    by (vm_compute; reflexivity).
  rewrite forallb_forall in HF. specialize (HF (Z.to_nat n)). rewrite Z2Nat.id in HF by (unfold is_group in Hn; lia).
  apply andb_true_iff in HF as [HV HC]; [|apply List.in_seq; unfold is_group in Hn; lia].
  apply bool_decide_eq_true in HV. by apply negb_true_iff in HC.
Qed.
Lemma values_of_chars g : Forall is_group g → values_of (String.string_of_list_ascii (b64_char <$> g)) = Some g.
Proof.
  induction 1 as [|n g Hn _ IH]; [done|].
  change (String.string_of_list_ascii (b64_char <$> n :: g)) with (String (b64_char n) (String.string_of_list_ascii (b64_char <$> g))).
  cbn [values_of]. destruct (b64_char_value n Hn) as [HV HC]. rewrite HC, HV, IH. done.
Qed.
(** Induction on a list by threes. *)
Lemma by_threes {A} (P : list A → Prop) :
  P [] → (∀ x, P [x]) → (∀ x y, P [x; y]) → (∀ x y z l, P l → P (x :: y :: z :: l)) → ∀ l, P l.
Proof.
  intros H0 H1 H2 H3 l. assert (∀ n (l : list A), (length l ≤ n)%nat → P l) as HP; [|by apply (HP (length l))].
  induction n as [|n IH]; intros [|x [|y [|z r]]] Hl; cbn in Hl; auto; try lia. apply H3, IH. lia.
Qed.
Lemma groups_range b : Forall is_byte b → Forall is_group (groups b).
Proof.
  unfold is_byte, is_group. induction b as [|x|x y|x y z b IH] using by_threes; intros Hb; cbn [groups];
    decompose_Forall_hyps;
    repeat (apply Forall_cons; split; [Z.div_mod_to_equations; lia|]); auto using Forall_nil_2.
Qed.
Lemma ungroups_groups b : Forall is_byte b → ungroups (groups b) = Some b.
Proof.
  unfold is_byte. induction b as [|x|x y|x y z b IH] using by_threes; intros Hb; cbn [groups ungroups];
    decompose_Forall_hyps.
  - done.
  - do 2 f_equal. Z.div_mod_to_equations. lia.
  - f_equal. f_equal; [|f_equal]; Z.div_mod_to_equations; lia.
  - rewrite IH by done. cbn. f_equal. f_equal; [|f_equal; [|f_equal]]; Z.div_mod_to_equations; lia.
Qed.
(** base64 decodes what it encodes. *)
Lemma b64_roundtrip b : Forall is_byte b → b64_DecodeString (b64_EncodeToString b) = Ret b.
Proof.
  intros Hb. unfold b64_DecodeString, b64_EncodeToString. rewrite values_of_chars by (by apply groups_range). cbn.
  by rewrite ungroups_groups.
Qed.

Section connect_theorems.
Context `{ConnectLibLaws}.

(** The certificate as it is sent: the block of its PEM form. *)
Definition cert_block (cert : bytes) : bytes :=
  if bool_decide (cert = []) then [] else match pem_Decode cert with Some (_, b) => b | None => [] end.

Lemma decode_empty : b64_DecodeString ""%string = Ret [].
Proof. done. Qed.

Lemma encode_query addr proto cert mac u : Encode addr proto cert mac = Ret u →
  u_Host u = addr ∧ query_Get (u_Query u) "proto" = proto ∧
  query_Get (u_Query u) "cert" = (if bool_decide (cert = []) then ""%string else b64_EncodeToString (cert_block cert)) ∧
  query_Get (u_Query u) "macaroon" = (if bool_decide (mac = []) then ""%string else b64_EncodeToString mac) ∧
  (cert ≠ [] → proto ≠ "http"%string).
Proof.
  unfold Encode, cert_block, query_Get. intros HE.
  destruct (negb (bool_decide (cert = [])) && bool_decide (proto = "http"%string)) eqn:Ep; [done|].
  apply andb_false_iff in Ep. rewrite negb_false_iff, bool_decide_eq_true, bool_decide_eq_false in Ep.
  repeat case_bool_decide; simplify_eq/=; try (destruct (pem_Decode cert) as [[ty b]|]; [|done]; cbn in HE;
    case_bool_decide; simplify_eq/=); split_and!; try naive_solver; simplify_map_eq; done.
Qed.

(** The connect URL carries what was put into it.  A URL the daemon builds decodes
    to the same address and protocol, to the certificate's block and to the macaroon,
    byte for byte; the absent ones are empty.  The daemon builds none for the http
    protocol with a certificate, nor for a file that is no certificate. *)
Theorem url_roundtrip addr proto cert mac :
  valid_host addr → Forall is_byte (cert_block cert) → Forall is_byte mac →
  match EncodeToString addr proto cert mac with
  | Ret url => Decode url = Ret (addr, proto, cert_block cert, mac)
  | Err _ => cert ≠ [] ∧ (proto = "http"%string ∨ ∀ b, pem_Decode cert ≠ Some ("CERTIFICATE"%string, b))
  | Panic _ => False
  end.
Proof.
  intros Hh Hc Hm. unfold EncodeToString. destruct (Encode addr proto cert mac) as [u|e|p] eqn:EE; cbn.
  - destruct (encode_query _ _ _ _ _ EE) as (Eh & Epr & Ec & Em & Hp). unfold Decode.
    rewrite parse_String by (by rewrite Eh). cbn. rewrite Epr, Ec, Em, Eh.
    assert (b64_DecodeString (if bool_decide (cert = []) then ""%string else b64_EncodeToString (cert_block cert)) = Ret (cert_block cert)) as ->.
    { clear -Hc. case_bool_decide as Hn; [|by apply b64_roundtrip]. unfold cert_block. by rewrite bool_decide_true. }
    assert (b64_DecodeString (if bool_decide (mac = []) then ""%string else b64_EncodeToString mac) = Ret mac) as ->.
    { clear -Hm. case_bool_decide; [by subst | by apply b64_roundtrip]. }
    destruct (negb (bool_decide (cert_block cert = [])) && bool_decide (proto = "http"%string)) eqn:Ex; [|done].
    exfalso. apply andb_true_iff in Ex as [Hb Hx%bool_decide_eq_true]. apply Hp; [|done]. intros ->.
    unfold cert_block in Hb. by rewrite bool_decide_true in Hb.
  - unfold Encode in EE. case_bool_decide as Hn; cbn in EE; [done|]. split; [done|].
    case_bool_decide as Hx; cbn in EE; [by left|]. right. intros b Hb. rewrite Hb in EE. done.
  - unfold Encode in EE. case_bool_decide; cbn in EE; [done|]. case_bool_decide; cbn in EE; [done|].
    destruct (pem_Decode cert) as [[ty b]|]; [|done]. by destruct (negb _).
Qed.
End connect_theorems.

Section handler_theorems.
Context `{ConnectLibLaws} {V : Type} `{ConnectWallet V}.

(** The macaroon the handler hands out: the one it has, or else the file. *)
Definition macaroon_of (fs : files) (t : tdexConnect) : bytes := default [] (or_read fs (macaroonBytes t) (macaroonPath t)).
Definition certificate_of (fs : files) (t : tdexConnect) : bytes := default [] (or_read fs (certBytes t) (certPath t)).

(** The request carries the user "tdex" and a password the wallet knows. *)
Definition authenticated (auth : option (string * string)) (v v' : V) : Prop :=
  ∃ pw, auth = Some ("tdex"%string, pw) ∧ cw_Auth pw v = (v', Ret true).

(** the macaroon is for the operator only.  What the connect endpoint sends decodes
    to the daemon's address, protocol and certificate, and to a macaroon only if the
    wallet is initialized and the request has the user tdex and the wallet's password:
    then it is the admin macaroon.  A request to an initialized wallet without them is
    answered with Unauthorized. *)
Theorem macaroon_needs_password fs auth t (v : V) s' answer :
  valid_host (serverAddress t) → Forall is_byte (cert_block (certificate_of fs t)) → Forall is_byte (macaroon_of fs t) →
  AuthHandler fs auth (t, v) = (s', answer) →
  (∀ url, answer = PlainText url →
     ∃ mac st v1, Decode url = Ret (serverAddress t, protocol t, cert_block (certificate_of fs t), mac) ∧
       cw_Status v = (v1, Ret st) ∧
       ((IsInitialized st = false ∧ mac = []) ∨
        (IsInitialized st = true ∧ mac = macaroon_of fs t ∧ ∃ v2, authenticated auth v1 v2))) ∧
  (∀ st v1, cw_Status v = (v1, Ret st) → IsInitialized st = true → (∀ v2, ¬ authenticated auth v1 v2) →
     answer = Unauthorized ∨ answer = InternalServerError).
Proof.
  intros Hh Hc Hm HA. unfold AuthHandler in HA. fold (certificate_of fs t) in HA. cbn [serverAddress protocol set_cert] in HA.
  change (macaroonBytes (set_cert _ t)) with (macaroonBytes t) in HA. change (macaroonPath (set_cert _ t)) with (macaroonPath t) in HA.
  fold (macaroon_of fs t) in HA.
  pose proof (url_roundtrip (serverAddress t) (protocol t) (certificate_of fs t) [] Hh Hc ltac:(constructor)) as R0.
  pose proof (url_roundtrip (serverAddress t) (protocol t) (certificate_of fs t) (macaroon_of fs t) Hh Hc Hm) as R1.
  unfold authenticated.
  destruct (EncodeToString _ _ (certificate_of fs t) []) as [url0|e|p]; [|by simplify_eq; split; [done | by right]|done].
  destruct (cw_Status v) as [v1 [st|e|p]] eqn:ES; [|by simplify_eq; split; [done | by right]..].
  destruct (IsInitialized st) eqn:EI; cbn in HA; 
    [|injection HA as <- <-; split; [intros url [= <-]; eauto 10 | intros st' v1' [= <- <-] Hi; congruence]].
  destruct auth as [[user pw]|]; [|by simplify_eq; split; [done | by left]].
  case_bool_decide as Hu; cbn in HA; [subst user|by simplify_eq; split; [done | by left]].
  destruct (cw_Auth pw v1) as [v2 [[]|e|p]] eqn:EA; [|by simplify_eq; split; [done | by left]..].
  split; [|intros st' v1' [= <- <-] _ Hno; exfalso; apply (Hno v2); eauto]. intros url ->.
  destruct (EncodeToString _ _ (certificate_of fs t) (macaroon_of fs t)) as [url1|e|p]; simplify_eq. eauto 12.
Qed.
End handler_theorems.

(** * Examples *)
Module ConnectExamples.

(** A library whose URLs are numbers in binary, and whose certificates are their own
    blocks. *)
Fixpoint binary (p : BinNums.positive) : string :=
  match p with xH => "" | xO p => String "0" (binary p) | xI p => String "1" (binary p) end.
Fixpoint unbinary (s : string) : BinNums.positive :=
  match s with EmptyString => xH | String c s => if Ascii.eqb c "0" then xO (unbinary s) else xI (unbinary s) end.
Lemma unbinary_binary p : unbinary (binary p) = p.
Proof. induction p as [p IH|p IH|]; cbn; by rewrite ?IH. Qed.
#[local] Instance lib : ConnectLib := {
  url_String u := binary (encode (u_Scheme u, u_Host u, u_Query u));
  url_Parse s := match decode (unbinary s) with
                 | Some (a, b, q) => Ret {| u_Scheme := a; u_Host := b; u_Query := q |}
                 | None => Err (Errorf "parse")
                 end;
  pem_Decode b := Some ("CERTIFICATE"%string, b) }.
#[local] Instance lib_laws : ConnectLibLaws.
Proof. refine {| valid_host _ := True |}. intros u _. cbn. rewrite unbinary_binary, decode_encode. by destruct u. Defined.
#[local] Instance wallet : ConnectWallet () := {
  cw_Status := mret {| IsInitialized := true; IsUnlocked := true; IsSynced := true |};
  cw_Auth p := mret (bool_decide (p = "password"%string)) }.

Definition disk : files := {["/m"%string := Regular [1; 2; 3; 4] 384]}.
Definition endpoint : tdexConnect := {|
  macaroonBytes := None; certBytes := None; macaroonPath := "/m"; certPath := ""; serverAddress := "localhost:9000"; protocol := "http" |}.
Definition sent := AuthHandler disk (Some ("tdex"%string, "password"%string)) (endpoint, ()).
Definition sent_url : string := match snd sent with PlainText u => u | _ => "" end.

Lemma macaroon_needs_password_witness : ∃ mac, Decode sent_url = Ret ("localhost:9000"%string, "http"%string, [], mac).
Proof.
  destruct (macaroon_needs_password disk (Some ("tdex"%string, "password"%string)) endpoint () (fst sent) (snd sent)) as [HP _].
  - exact I.
  - constructor.
  - repeat constructor; unfold is_byte; lia.
  - exact (surjective_pairing sent).
  - destruct (HP sent_url) as (mac & st & v1 & HD & _); [vm_compute; reflexivity|]. exists mac. exact HD.
Defined.
End ConnectExamples.
