(* ===== verification/MigrationV0.v ===== *)
(** cmd/migration/v0-v1/v0-domain and v0-webhook: what a v0 daemon keeps in its
    databases and how the migration reads it.

    The databases are the record [Db] of their reads, each of which may fail; the
    cryptography of the vault (scrypt, AES-GCM, BIP32, BIP39, base58) is the class
    [VaultLib].  Everything is in Module [V0], with the names of the source. *)

From Stdlib Require Import ZArith Lia Ascii Decimal DecimalPos DecimalString DecimalFacts.
From stdpp Require Import base tactics strings list gmap.
From S2P Require Import Prelude Errors Decimal Market Trade Repos SecureStore Pubsub Interface.
Local Open Scope Z_scope.

Module V0.

(** * constants.go *)
Definition FeeAccount : Z := 0.
Definition WalletAccount : Z := 1.
Definition FeeFragmenterAccount : Z := 2.
Definition MarketFragmenterAccount : Z := 3.
Definition MarketAccountStart : Z := 5.
Definition StrategyTypePluggable : Z := 0.
Definition StrategyTypeBalanced : Z := 1.
Definition StrategyTypeUnbalanced : Z := 2.
Definition Empty : Z := -1.
Definition Undefined : Z := 0.
Definition Proposal : Z := 1.
Definition Accepted : Z := 2.
Definition Completed : Z := 3.
Definition Settled : Z := 4.
Definition Expired : Z := 5.

(** * Records *)
Record Deposit := {
  dp_AccountIndex : Z; dp_TxID : string; dp_VOut : Z; dp_Asset : string; dp_Value : Z; dp_Timestamp : Z }.
Record Withdrawal := {
  wd_TxID : string; wd_AccountIndex : Z; wd_BaseAmount : Z; wd_QuoteAmount : Z; wd_MillisatPerByte : Z;
  wd_Address : string; wd_Timestamp : Z }.
Record Swap := { sw_ID : string; sw_Message : bytes; sw_Timestamp : Z }.
Record Status := { st_Code : Z; st_Failed : bool }.
Record UnspentKey := { uk_TxID : string; uk_VOut : Z }.
Record Unspent := {
  un_TxID : string; un_VOut : Z; un_Value : Z; un_AssetHash : string;
  un_ValueCommitment : string; un_AssetCommitment : string; un_ValueBlinder : bytes; un_AssetBlinder : bytes;
  un_ScriptPubKey : bytes; un_Nonce : bytes; un_RangeProof : bytes; un_SurjectionProof : bytes;
  un_Address : string; un_Spent : bool; un_Locked : bool; un_LockedBy : option string; un_Confirmed : bool }.
Record AccountAndKey := { ak_AccountIndex : Z; ak_BlindingKey : bytes }.
Record Account := {
  ac_AccountIndex : Z; ac_LastExternalIndex : Z; ac_LastInternalIndex : Z;
  ac_DerivationPathByScript : gmap string string }.
Record Vault := {
  va_EncryptedMnemonic : string; va_PassphraseHash : bytes; va_Accounts : gmap Z Account;
  va_AccountAndKeyByAddress : gmap string AccountAndKey; va_Network : string (* Network.Name *) }.
Record Webhook := { wh_ID : string; wh_ActionType : Z; wh_Endpoint : string; wh_Secret : string }.

Section prices.
Context {D : Type}.
Record Prices := { BasePrice : D; QuotePrice : D }.
Record Market := {
  mk_AccountIndex : Z; mk_BaseAsset : string; mk_QuoteAsset : string; mk_BaseAssetPrecision : Z;
  mk_QuoteAssetPrecision : Z; mk_Fee : Z; mk_FixedFee_BaseFee : Z; mk_FixedFee_QuoteFee : Z;
  mk_Tradable : bool; mk_Strategy_Type : Z; mk_Price : Prices }.
Record Trade := {
  tr_ID : string; tr_MarketBaseAsset : string; tr_MarketQuoteAsset : string; tr_MarketPrice : Prices;
  tr_MarketFee : Z; tr_MarketFixedBaseFee : Z; tr_MarketFixedQuoteFee : Z; tr_TraderPubkey : bytes;
  tr_Status : Status; tr_PsetBase64 : string; tr_TxID : string; tr_TxHex : string;
  tr_ExpiryTime : Z; tr_SettlementTime : Z;
  tr_SwapRequest : Swap; tr_SwapAccept : Swap; tr_SwapComplete : Swap; tr_SwapFail : Swap }.

(** market.AccountName() *)
Definition AccountName (Hash160 : bytes → bytes) (m : Market) : outcome error string :=
  makeAccountName Hash160 (mk_BaseAsset m) (mk_QuoteAsset m).
Definition with_prices (p : Prices) (m : Market) : Market := {|
  mk_AccountIndex := mk_AccountIndex m; mk_BaseAsset := mk_BaseAsset m; mk_QuoteAsset := mk_QuoteAsset m;
  mk_BaseAssetPrecision := mk_BaseAssetPrecision m; mk_QuoteAssetPrecision := mk_QuoteAssetPrecision m;
  mk_Fee := mk_Fee m; mk_FixedFee_BaseFee := mk_FixedFee_BaseFee m; mk_FixedFee_QuoteFee := mk_FixedFee_QuoteFee m;
  mk_Tradable := mk_Tradable m; mk_Strategy_Type := mk_Strategy_Type m; mk_Price := p |}.

(** * The databases *)

(** The reads of the three badger databases. *)
Record Db := {
  db_GetMarket : Z → outcome error Market;                         (* mainDb.Get(accountIndex) *)
  db_FindMarkets : (Market → bool) → outcome error (list Market);
  db_GetPrices : Z → outcome error Prices;                         (* priceDb.Get(accountIndex) *)
  db_FindTrades : outcome error (list Trade);
  db_FindDeposits : outcome error (list Deposit);
  db_FindWithdrawals : outcome error (list Withdrawal);
  db_FindUnspents : outcome error (list Unspent);
  db_GetLock : UnspentKey → outcome error string;                  (* the id of the trade *)
  db_GetVault : outcome error Vault }.
End prices.
Arguments Prices : clear implicits.
Arguments Market : clear implicits.
Arguments Trade : clear implicits.
Arguments Db : clear implicits.

Section markets.
Context {D : Type}.
Variable db : Db D.

Definition getPriceByAccountIndex (accountIndex : Z) : outcome error (Prices D) := db_GetPrices db accountIndex.
Definition GetMarketByAccount (accountIndex : Z) : outcome error (option (Market D)) :=
  match db_GetMarket db accountIndex with
  | Err ErrNotFound => Ret None
  | Err e => Err e
  | Panic p => Panic p
  | Ret market => price ← getPriceByAccountIndex accountIndex; Ret (Some (with_prices price market))
  end.
Fixpoint fill_prices (markets : list (Market D)) : outcome error (list (Market D)) :=
  match markets with
  | [] => Ret []
  | mkt :: markets =>
      price ← getPriceByAccountIndex (mk_AccountIndex mkt);
      rest ← fill_prices markets; Ret (with_prices price mkt :: rest)
  end.
Definition findMarkets (query : Market D → bool) : outcome error (list (Market D)) :=
  markets ← db_FindMarkets db query; fill_prices markets.
Definition GetMarketByAssets (baseAsset quoteAsset : string) : outcome error (option (Market D)) :=
  markets ← findMarkets (λ m, bool_decide (mk_BaseAsset m = baseAsset ∧ mk_QuoteAsset m = quoteAsset));
  Ret (head markets).
Definition GetAllMarkets : outcome error (list (Market D)) :=
  findMarkets (λ m, FeeAccount <=? mk_AccountIndex m).
Definition GetAllTrades : outcome error (list (Trade D)) := db_FindTrades db.
Definition GetAllDeposits : outcome error (list Deposit) := db_FindDeposits db.
Definition GetAllWithdrawals : outcome error (list Withdrawal) := db_FindWithdrawals db.
End markets.

(** * Unspents and their locks *)
Definition IsLocked (u : Unspent) : bool := un_Locked u.
Definition Key (u : Unspent) : UnspentKey := {| uk_TxID := un_TxID u; uk_VOut := un_VOut u |}.
(** Reading LockedBy of an unspent locked by nobody panics. *)
Definition Lock (tradeID : string) (u : Unspent) : outcome error Unspent :=
  if IsLocked u then
    lockedBy ← deref (un_LockedBy u);
    if bool_decide (tradeID = lockedBy) then Ret u else Err (Errorf "cannot lock an already locked unspent")
  else Ret {| un_TxID := un_TxID u; un_VOut := un_VOut u; un_Value := un_Value u; un_AssetHash := un_AssetHash u;
    un_ValueCommitment := un_ValueCommitment u; un_AssetCommitment := un_AssetCommitment u;
    un_ValueBlinder := un_ValueBlinder u; un_AssetBlinder := un_AssetBlinder u; un_ScriptPubKey := un_ScriptPubKey u;
    un_Nonce := un_Nonce u; un_RangeProof := un_RangeProof u; un_SurjectionProof := un_SurjectionProof u;
    un_Address := un_Address u; un_Spent := un_Spent u; un_Locked := true; un_LockedBy := Some tradeID;
    un_Confirmed := un_Confirmed u |}.

Section unspents.
Context {D : Type}.
Variable db : Db D.

Definition getLock (key : UnspentKey) : outcome error (option string) :=
  match db_GetLock db key with
  | Err ErrNotFound => Ret None
  | Err e => Err e
  | Panic p => Panic p
  | Ret tradeID => Ret (Some tradeID)
  end.
(** The error of Lock is dropped. *)
Definition with_lock (u : Unspent) : outcome error Unspent :=
  tradeID ← getLock (Key u);
  match tradeID with
  | None => Ret u
  | Some id => match Lock id u with Ret u' => Ret u' | Err _ => Ret u | Panic p => Panic p end
  end.
Fixpoint with_locks (l : list Unspent) : outcome error (list Unspent) :=
  match l with
  | [] => Ret []
  | u :: l => u ← with_lock u; l ← with_locks l; Ret (u :: l)
  end.
Definition findUnspents (unlockedOnly : bool) : outcome error (list Unspent) :=
  match db_FindUnspents db with
  | Err ErrNotFound => Ret []
  | Err e => Err e
  | Panic p => Panic p
  | Ret unspents =>
      unspents ← with_locks unspents;
      Ret (if unlockedOnly then filter (λ u, IsLocked u = false) unspents else unspents)
  end.
Definition GetAllUnspents : outcome error (list Unspent) := findUnspents false.
End unspents.

(** * The vault *)
Definition ErrVaultAccountNotFound : error := Errorf "account not found".

Definition AccountByIndex (v : Vault) (accountIndex : Z) : outcome error Account :=
  match va_Accounts v !! accountIndex with Some a => Ret a | None => Err ErrVaultAccountNotFound end.
Definition AccountByAddress (v : Vault) (addr : string) : outcome error (Account * Z) :=
  match va_AccountAndKeyByAddress v !! addr with
  | None => Err ErrVaultAccountNotFound
  | Some info =>
      account ← AccountByIndex v (ak_AccountIndex info); Ret (account, ak_AccountIndex info)
  end.
Definition GetAccountByAddress {D} (db : Db D) (addr : string) : outcome error (Account * Z) :=
  vault ← db_GetVault db; AccountByAddress vault addr.
Definition IsValidPassword (Hash160 : bytes → bytes) (v : Vault) (password : string) : bool :=
  bool_decide (va_PassphraseHash v = Hash160 (string_bytes password)).

(** ** Derivation paths *)
Definition HardenedKeyStart : Z := 2 ^ 31.
Definition RootPath : string := "m/84'/0'".
Definition ErrMissingDerivationPath : error := Errorf "missing derivation path".
Definition ErrInvalidRootPathLen : error := Errorf "invalid root path length, must be in the form m/purpose'/coin_type'".
Definition ErrInvalidRootPath : error := Errorf "root path must contain only hardended values".
Definition ErrRequiredAbsoluteDerivationPath : error := Errorf "path must be an absolute derivation starting with 'm/'".
Definition ErrMalformedDerivationPath : error := Errorf "path must not start or end with a '/'".

(** big.Int.SetString(s, 0): a sign, a prefix 0b, 0o, 0x or 0, digits with
    underscores between them. *)
Definition digit_value (c : ascii) : Z :=
  let n := Z.of_nat (nat_of_ascii c) in
  if (48 <=? n) && (n <=? 57) then n - 48
  else if (97 <=? n) && (n <=? 122) then n - 87
  else if (65 <=? n) && (n <=? 90) then n - 55
  else 64.
(** [sep]: the last character read may be followed by an underscore; [ok]: the
    underscores read so far are in place; [count]: a digit was read. *)
Fixpoint scan_digits (base : Z) (s : string) (acc : Z) (sep ok count : bool) : option (Z * bool) :=
  match s with
  | EmptyString => if ok && sep then Some (acc, count) else None
  | String c s =>
      if Ascii.eqb c "_" then scan_digits base s acc false (ok && sep) count
      else if digit_value c <? base then scan_digits base s (base * acc + digit_value c) true ok true
      else None
  end.
Definition is_char (c : ascii) (lower upper : ascii) : bool := Ascii.eqb c lower || Ascii.eqb c upper.
Definition need_digits (r : option (Z * bool)) : option Z :=
  match r with Some (n, true) => Some n | _ => None end.
Definition scan_nat (s : string) : option Z :=
  match s with
  | String c r =>
      if Ascii.eqb c "0" then
        match r with
        | EmptyString => Some 0
        | String d r' =>
            if is_char d "b" "B" then need_digits (scan_digits 2 r' 0 true true false)
            else if is_char d "o" "O" then need_digits (scan_digits 8 r' 0 true true false)
            else if is_char d "x" "X" then need_digits (scan_digits 16 r' 0 true true false)
            else fst <$> scan_digits 8 r 0 true true false
        end
      else need_digits (scan_digits 10 s 0 false true false)
  | EmptyString => None
  end.
Definition SetString (s : string) : option Z :=
  match s with
  | String c r =>
      if Ascii.eqb c "-" then Z.opp <$> scan_nat r
      else if Ascii.eqb c "+" then scan_nat r
      else scan_nat s
  | EmptyString => None
  end.

(** strings.TrimSpace of ASCII text, strings.HasSuffix and strings.TrimSuffix of an
    apostrophe. *)
Definition is_space (c : ascii) : bool :=
  let n := nat_of_ascii c in ((9 <=? n) && (n <=? 13))%nat || (n =? 32)%nat.
Fixpoint trim_front (l : list ascii) : list ascii :=
  match l with c :: r => if is_space c then trim_front r else l | [] => [] end.
Definition TrimSpace (s : string) : string :=
  String.string_of_list_ascii (rev (trim_front (rev (trim_front (String.list_ascii_of_string s))))).
Definition cut_quote (s : string) : option string :=
  match rev (String.list_ascii_of_string s) with
  | c :: r => if Ascii.eqb c "'" then Some (String.string_of_list_ascii (rev r)) else None
  | [] => None
  end.

Definition containsEmptyString (composedPath : list string) : bool :=
  existsb (λ s, bool_decide (s = ""%string)) composedPath.
Definition parse_elem (elem : string) : outcome error Z :=
  let elem := TrimSpace elem in
  let '(value, elem) := match cut_quote elem with Some e => (HardenedKeyStart, TrimSpace e) | None => (0, elem) end in
  match SetString elem with
  | None => Err (Errorf "invalid elem '%s' in path")
  | Some bigval =>
      let max := 2 ^ 32 - 1 - value in
      if (bigval <? 0) || (max <? bigval) then
        Err (if value =? 0 then Errorf "elem %v must be in range [0, %d]"
             else Errorf "elem %v must be in hardened range [0, %d]")
      else Ret (value + bigval)
  end.
Fixpoint parse_elems (elems : list string) : outcome error (list Z) :=
  match elems with
  | [] => Ret []
  | e :: elems => v ← parse_elem e; path ← parse_elems elems; Ret (v :: path)
  end.
Definition parseDerivationPath (strPath : string) (checkAbsolutePath : bool) : outcome error (list Z) :=
  if bool_decide (strPath = ""%string) then Err ErrMissingDerivationPath
  else
    let elems := split_slash strPath in
    if containsEmptyString elems then Err ErrMalformedDerivationPath
    else if checkAbsolutePath && negb (bool_decide (head elems = Some "m"%string)) then Err ErrRequiredAbsoluteDerivationPath
    else if (length elems <? 2)%nat then Err ErrMalformedDerivationPath
    else parse_elems (if bool_decide (TrimSpace <$> head elems = Some "m"%string) then tail elems else elems).
Definition parseRootDerivationPath (strPath : string) : outcome error (list Z) :=
  path ← parseDerivationPath strPath true;
  match path with
  | [a; b] => if (a <? HardenedKeyStart) || (b <? HardenedKeyStart) then Err ErrInvalidRootPath else Ret path
  | _ => Err ErrInvalidRootPathLen
  end.
(** derivationPath.String *)
Definition component_String (component : Z) : string :=
  if HardenedKeyStart <=? component then Fixed.string_of_Z (component - HardenedKeyStart) +:+ "'"
  else Fixed.string_of_Z component.
Definition path_String (path : list Z) : string :=
  match path with
  | [] => ""
  | _ => foldl (λ result component, result +:+ "/" +:+ component_String component)%string "m"%string path
  end.

(** ** Keys *)
Class VaultLib (K : Type) := {
  StdEncoding_DecodeString : string → bytes;     (* what is decoded before the first bad character *)
  scrypt_Key : string → bytes → outcome error bytes;
  gcm_Open : bytes → bytes → bytes → option string;      (* key, nonce, text *)
  bip39_NewSeed : string → bytes;
  hd_NewMaster : bytes → outcome error K;
  hd_Derive : K → Z → outcome error K;
  hd_Neuter : K → outcome error K;
  hd_String : K → string;
  hd_NewKeyFromString : string → outcome error K;
  base58_Encode : bytes → string;
  base58_Decode : string → bytes }.

Section keys.
Context {K : Type} `{VaultLib K}.
Definition gcm_NonceSize : nat := 12.
(** The last 32 bytes are the salt; slicing less than that panics. *)
Definition Decrypt (encryptedMnemonic password : string) : outcome error string :=
  let data := StdEncoding_DecodeString encryptedMnemonic in
  let n := (length data - 32)%nat in
  if (length data <? 32)%nat then Panic IndexOutOfRange
  else
    key ← scrypt_Key password (drop n data);
    let data := take n data in
    if (length data <? gcm_NonceSize)%nat then Panic IndexOutOfRange
    else match gcm_Open key (take gcm_NonceSize data) (drop gcm_NonceSize data) with
         | Some plaintext => Ret plaintext
         | None => Err (Errorf "invalid password")
         end.
Fixpoint derive_all (hdNode : K) (path : list Z) : outcome error K :=
  match path with [] => Ret hdNode | step :: path => hdNode ← hd_Derive hdNode step; derive_all hdNode path end.
Definition generateSigningMasterKey (seed : bytes) (path : list Z) : outcome error bytes :=
  hdNode ← hd_NewMaster seed; hdNode ← derive_all hdNode path; Ret (base58_Decode (hd_String hdNode)).
(** The words are split at blanks and joined again. *)
Definition MasterKey (v : Vault) (password : string) : outcome error K :=
  mnemonic ← Decrypt (va_EncryptedMnemonic v) password;
  rp ← parseRootDerivationPath RootPath;
  signingMasterKey ← generateSigningMasterKey (bip39_NewSeed mnemonic) rp;
  hd_NewKeyFromString (base58_Encode signingMasterKey).
Definition Xpub (account : Z) (masterKey : K) : outcome error string :=
  extPrivKey ← hd_Derive masterKey (u32 (account + HardenedKeyStart));
  xpub ← hd_Neuter extPrivKey; Ret (hd_String xpub).
End keys.

(** * Webhooks *)
Definition TradeSettled : Z := 0.
Definition AccountLowBalance : Z := 1.
Definition AccountWithdraw : Z := 2.
Definition AllActions : Z := 3.
Definition hooksBucket : string := "hooks".

Section webhooks.
Context {S : Type} `{SecureStorage S} `{MapOrder}.
Variable newWebhookFromBytes : bytes → outcome error Webhook.     (* json.Unmarshal *)
Fixpoint decode_webhooks (l : list bytes) : outcome error (list Webhook) :=
  match l with [] => Ret [] | b :: l => w ← newWebhookFromBytes b; l ← decode_webhooks l; Ret (w :: l) end.
Definition GetAllWebhooks : action S error (list Webhook) :=
  valuesByKey ← ss_GetAllFromBucket hooksBucket; lift (decode_webhooks (range_values valuesByKey)).
Definition Unlock (password : string) : action S error () := ss_CreateUnlock (string_bytes password).
End webhooks.

(** * Derivation paths are read as they are written *)

Definition is_digit (c : ascii) : bool := (48 <=? nat_of_ascii c)%nat && (nat_of_ascii c <=? 57)%nat.
Abbreviation chars := String.list_ascii_of_string.

Lemma chars_app a b : chars (a +:+ b) = chars a ++ chars b.
Proof. induction a as [|c a IH]; [done|]. change (c :: chars (a +:+ b) = c :: chars a ++ chars b). by rewrite IH. Qed.
Lemma digit_not_space c : is_digit c = true → is_space c = false ∧ Ascii.eqb c "'" = false ∧ Ascii.eqb c "/" = false.
Proof.
  intros Hd. rewrite !Ascii.eqb_neq. split_and!; [|intros ->; discriminate Hd|intros ->; discriminate Hd].
  unfold is_digit in Hd. apply andb_true_iff in Hd as [H1%Nat.leb_le H2%Nat.leb_le].
  unfold is_space. rewrite orb_false_iff, andb_false_iff, !Nat.leb_gt, Nat.eqb_neq. lia.
Qed.
Lemma trim_front_id l : Forall (λ c, is_space c = false) l → trim_front l = l.
Proof. destruct 1 as [|c l Hc _]; cbn; by rewrite ?Hc. Qed.
Lemma TrimSpace_id s : Forall (λ c, is_space c = false) (chars s) → TrimSpace s = s.
Proof.
  intros Hs. unfold TrimSpace. rewrite (trim_front_id (chars s)) by done.
  rewrite trim_front_id by (by apply Forall_rev). rewrite rev_involutive.
  apply String.string_of_list_ascii_of_string.
Qed.
Lemma cut_quote_snoc s : cut_quote (s +:+ "'") = Some s.
Proof. unfold cut_quote. rewrite chars_app, rev_app_distr. cbn. by rewrite rev_involutive, String.string_of_list_ascii_of_string. Qed.
Lemma cut_quote_digits s : Forall (λ c, is_digit c = true) (chars s) → cut_quote s = None.
Proof.
  intros Hs%Forall_rev. unfold cut_quote. destruct Hs as [|c l Hc _]; [done|].
  by destruct (digit_not_space c Hc) as (_ & -> & _).
Qed.
Lemma no_slash_app a b : no_slash (a +:+ b) = no_slash a && no_slash b.
Proof.
  induction a as [|c a IH]; [done|]. change (negb (Ascii.eqb c "/") && no_slash (a +:+ b) = negb (Ascii.eqb c "/") && no_slash a && no_slash b).
  by rewrite IH, andb_assoc.
Qed.
Lemma no_slash_digits s : Forall (λ c, is_digit c = true) (chars s) → no_slash s = true.
Proof.
  induction s as [|c s IH]; [done|]. cbn. intros [Hc Hs]%Forall_cons.
  destruct (digit_not_space c Hc) as (_ & _ & ->). by apply IH.
Qed.

(** ** Decimal numbers *)
Lemma string_of_uint_digits d : Forall (λ c, is_digit c = true) (chars (NilEmpty.string_of_uint d)).
Proof. induction d; cbn; repeat constructor; done. Qed.
Lemma scan_uint d acc : scan_digits 10 (NilEmpty.string_of_uint d) (Z.pos acc) true true true = Some (Z.pos (Pos.of_uint_acc d acc), true).
Proof.
  revert acc. induction d; intros acc; [done|..]; cbn [NilEmpty.string_of_uint scan_digits Pos.of_uint_acc]; rewrite <- IHd;
    match goal with |- context [digit_value ?c] => let v := eval vm_compute in (digit_value c) in change (digit_value c) with v end;
    cbn [Ascii.eqb Bool.eqb Z.ltb Z.compare Pos.compare Pos.compare_cont]; f_equal; lia.
Qed.
Lemma to_uint_no_zero p u : Pos.to_uint p ≠ D0 u.
Proof.
  intros E. assert (Decimal.unorm (Pos.to_uint p) = Pos.to_uint p) as Hn.
  { by rewrite <- DecimalPos.Unsigned.to_of, DecimalPos.Unsigned.of_to. }
  pose proof (DecimalPos.Unsigned.to_uint_nonzero p) as Hz. revert Hn Hz. rewrite E. unfold Decimal.unorm. cbn [Decimal.nzhead].
  pose proof (nzhead_nonzero u) as Hu. destruct (Decimal.nzhead u) eqn:En; intros Hn Hz; try discriminate; [by destruct Hz | by eapply Hu].
Qed.
Lemma string_of_Z_pos p : Fixed.string_of_Z (Z.pos p) = NilEmpty.string_of_uint (Pos.to_uint p).
Proof.
  unfold Fixed.string_of_Z; cbn. pose proof (DecimalPos.Unsigned.to_uint_nonnil p). by destruct (Pos.to_uint p).
Qed.
Lemma number_digits z : 0 ≤ z → Forall (λ c, is_digit c = true) (chars (Fixed.string_of_Z z)) ∧ Fixed.string_of_Z z ≠ ""%string.
Proof.
  intros Hz. destruct z as [|p|p]; [by repeat constructor| |lia]. rewrite string_of_Z_pos. split; [apply string_of_uint_digits|].
  pose proof (DecimalPos.Unsigned.to_uint_nonnil p). by destruct (Pos.to_uint p).
Qed.
Lemma SetString_number z : 0 ≤ z → SetString (Fixed.string_of_Z z) = Some z.
Proof.
  intros Hz. destruct z as [|p|p]; [done| |lia]. rewrite string_of_Z_pos.
  pose proof (DecimalPos.Unsigned.of_to p) as Hp. pose proof (DecimalPos.Unsigned.to_uint_nonnil p) as Hn.
  pose proof (to_uint_no_zero p) as H0. destruct (Pos.to_uint p) as [|u|u|u|u|u|u|u|u|u|u]; [done|by destruct (H0 u)|..];
    cbn [Pos.of_uint] in Hp; injection Hp as <-;
    match goal with |- _ = Some (Z.pos (Pos.of_uint_acc ?u ?k)) =>
      change (need_digits (scan_digits 10 (NilEmpty.string_of_uint u) (Z.pos k) true true true) = Some (Z.pos (Pos.of_uint_acc u k))) end;
    by rewrite scan_uint.
Qed.

(** ** Components and paths *)
Definition is_component (x : Z) : Prop := 0 ≤ x < 2 ^ 32.
Lemma component_parses x : is_component x →
  parse_elem (component_String x) = Ret x ∧ no_slash (component_String x) = true ∧ component_String x ≠ ""%string.
Proof.
  unfold is_component, component_String, parse_elem, HardenedKeyStart. intros Hx.
  destruct (Z.leb_spec (2 ^ 31) x) as [Hle|Hlt].
  - destruct (number_digits (x - 2 ^ 31)) as [Hd Hne]; [lia|].
    assert (Forall (λ c, is_space c = false) (chars (Fixed.string_of_Z (x - 2 ^ 31)))) as Hsp.
    { eapply Forall_impl; [exact Hd|]. intros c Hc. by destruct (digit_not_space c Hc). }
    rewrite (TrimSpace_id (_ +:+ _)) by (rewrite chars_app; apply Forall_app; split; [done | by repeat constructor]).
    rewrite cut_quote_snoc. cbn [fst snd]. rewrite TrimSpace_id, SetString_number by (done || lia). split_and!.
    + destruct (Z.ltb_spec (x - 2 ^ 31) 0); [lia|]. destruct (Z.ltb_spec (2 ^ 32 - 1 - 2 ^ 31) (x - 2 ^ 31)); [lia|]. cbn. f_equal. lia.
    + by rewrite no_slash_app, no_slash_digits.
    + by apply app_nonempty.
  - destruct (number_digits x) as [Hd Hne]; [lia|].
    rewrite TrimSpace_id by (eapply Forall_impl; [exact Hd|]; intros c Hc; by destruct (digit_not_space c Hc)).
    rewrite cut_quote_digits, SetString_number by (done || lia). split_and!; [| |done].
    + destruct (Z.ltb_spec x 0); [lia|]. destruct (Z.ltb_spec (2 ^ 32 - 1 - 0) x); [lia|]. done.
    + by apply no_slash_digits.
Qed.

Lemma path_split path s : Forall is_component path →
  split_slash (foldl (λ result component, result +:+ "/" +:+ component_String component)%string s path)
  = split_slash s ++ (component_String <$> path).
Proof.
  intros Hp. revert s. induction Hp as [|x path Hx _ IH]; intros s; cbn [foldl]; [by rewrite app_nil_r|].
  rewrite IH, split_slash_app. destruct (component_parses x Hx) as (_ & Hs & _).
  by rewrite (split_slash_plain (component_String x)), <- app_assoc.
Qed.
Lemma elems_parse path : Forall is_component path → parse_elems (component_String <$> path) = Ret path.
Proof.
  induction 1 as [|x path Hx _ IH]; [done|]. cbn [fmap list_fmap parse_elems].
  destruct (component_parses x Hx) as (-> & _ & _). cbn. change (list_fmap _ _ component_String path) with (component_String <$> path).
  by rewrite IH.
Qed.

(** a derivation path that is written is read back, whatever its components. *)
Lemma path_reads_back path : path ≠ [] → Forall is_component path → parseDerivationPath (path_String path) true = Ret path.
Proof.
  intros Hne Hp. destruct path as [|x path]; [done|]. unfold path_String, parseDerivationPath.
  rewrite path_split by done. change (split_slash "m") with ["m"%string].
  rewrite bool_decide_false.
  2:{ intros E. apply (f_equal split_slash) in E. rewrite path_split in E by done. by destruct path. }
  assert (containsEmptyString (["m"%string] ++ (component_String <$> x :: path)) = false) as ->.
  { unfold containsEmptyString. cbn [app existsb]. rewrite bool_decide_false by done. cbn [orb].
    clear Hne. revert Hp. generalize (x :: path) as l. induction 1 as [|y l Hy _ IH]; [done|].
    cbn. destruct (component_parses y Hy) as (_ & _ & ?). by rewrite bool_decide_false. }
  change (parse_elems (component_String <$> x :: path) = Ret (x :: path)). by apply elems_parse.
Qed.
End V0.
