(* ===== verification/Mapper.v ===== *)
(** cmd/migration/v0-v1/mapper and v1-domain: how the records of a v0 daemon become
    those of a v1 daemon and of its wallet.

    Module [V1] has the records of the wallet.  The mapper reads the v0 databases
    ([V0.Db]) for the markets behind account indexes and assets.  Theorems: amounts of
    deposits are conserved, every account keeps its addresses, transactions know all
    their accounts, the fee of a trade is the one v0 charged. *)

From Stdlib Require Import ZArith Lia QArith Qabs Lqa.
From stdpp Require Import base tactics strings list gmap.
From S2P Require Import Prelude Errors Decimal Formula Market Trade Repos SwapMsg Exchange SecureStore Pubsub Webhooks Listing Interface MigrationV0.
Local Open Scope Z_scope.

(** * v1-domain *)
Module V1.
Record UtxoKey := { uk_TxID : string; uk_VOut : Z }.
Record UtxoStatus := { us_Txid : string; us_BlockHeight : Z; us_BlockTime : Z; us_BlockHash : string }.
#[global] Instance UtxoStatus_eq_dec : EqDecision UtxoStatus.
Proof. solve_decision. Defined.
Record Utxo := {
  ut_Key : UtxoKey; ut_Value : Z; ut_Asset : string; ut_ValueCommitment : bytes; ut_AssetCommitment : bytes;
  ut_ValueBlinder : bytes; ut_AssetBlinder : bytes; ut_Script : bytes; ut_Nonce : bytes; ut_RangeProof : bytes;
  ut_SurjectionProof : bytes; ut_AccountName : string; ut_LockTimestamp : Z; ut_LockExpiryTimestamp : Z;
  ut_SpentStatus : UtxoStatus; ut_ConfirmedStatus : UtxoStatus }.
Definition no_status : UtxoStatus := {| us_Txid := ""; us_BlockHeight := 0; us_BlockTime := 0; us_BlockHash := "" |}.
(** UtxoKey.Hash: only the low byte of the output index is hashed. *)
Definition Hash (Hash160 : bytes → bytes) (k : UtxoKey) : string :=
  hex_EncodeToString (Hash160 (fst (hex_DecodeString (uk_TxID k)) ++ [uk_VOut k mod 256])).

Record Transaction := {
  tx_TxID : string; tx_TxHex : string; tx_BlockHash : string; tx_BlockHeight : Z; tx_Accounts : gset string }.
Definition IsConfirmed (t : Transaction) : bool := negb (bool_decide (tx_BlockHash t = ""%string)).
Definition Confirm (blockHash : string) (blockHeight : Z) (t : Transaction) : Transaction :=
  if IsConfirmed t then t
  else {| tx_TxID := tx_TxID t; tx_TxHex := tx_TxHex t; tx_BlockHash := blockHash; tx_BlockHeight := blockHeight;
          tx_Accounts := tx_Accounts t |}.
Definition AddAccount (accountName : string) (t : Transaction) : Transaction := {|
  tx_TxID := tx_TxID t; tx_TxHex := tx_TxHex t; tx_BlockHash := tx_BlockHash t; tx_BlockHeight := tx_BlockHeight t;
  tx_Accounts := {[accountName]} ∪ tx_Accounts t |}.

Record Account := {
  ac_Namespace : string; ac_Label : string; ac_Xpub : string; ac_DerivationPath : string; ac_Index : Z;
  ac_BirthdayBlock : Z; ac_NextExternalIndex : Z; ac_NextInternalIndex : Z; ac_DerivationPathByScript : gmap string string }.
Record Wallet := {
  wa_EncryptedMnemonic : bytes; wa_PasswordHash : bytes; wa_BirthdayBlockHeight : Z; wa_RootPath : string;
  wa_NetworkName : string; wa_Accounts : gmap string Account; wa_AccountsByLabel : gmap string string;
  wa_NextAccountIndex : Z }.
End V1.

(** * mapper *)

(** The maps [statuses] and [strategies]: zero for an unknown key. *)
Definition statuses (code : Z) : Z :=
  if code =? V0.Proposal then TradeStatusCodeProposal
  else if code =? V0.Accepted then TradeStatusCodeAccepted
  else if code =? V0.Completed then TradeStatusCodeCompleted
  else if code =? V0.Settled then TradeStatusCodeSettled
  else if code =? V0.Expired then TradeStatusCodeExpired
  else TradeStatusCodeUndefined.
Definition strategies (type : Z) : Z :=
  if type =? V0.StrategyTypePluggable then StrategyTypePluggable
  else if type =? V0.StrategyTypeBalanced then StrategyTypeBalanced
  else if type =? V0.StrategyTypeUnbalanced then StrategyTypeUnbalanced
  else 0.

Definition nameSpaceFormat (accountIndex : Z) : string := "bip84-account" +:+ Fixed.string_of_Z accountIndex.
Definition fromV0Swap (s : V0.Swap) : option Swap :=
  Some {| sw_Id := V0.sw_ID s; sw_Message := V0.sw_Message s; sw_Timestamp := i64 (V0.sw_Timestamp s) |}.

(** webhookV1 and webhookEvent *)
Definition webhookEvent (e : Z) : WebhookEvent := {|
  IsUnspecified := false;
  IsTradeSettled := e =? V0.TradeSettled;
  IsAccountLowBalance := e =? V0.AccountLowBalance;
  IsAccountWithdraw := e =? V0.AccountWithdraw;
  IsAccountDeposit := false;
  IsAny := e =? V0.AllActions |}.
Definition fromV0WebhookToV1Subscription (w : V0.Webhook) : Webhook := {|
  wh_Id := V0.wh_ID w; wh_Endpoint := V0.wh_Endpoint w; wh_Secret := V0.wh_Secret w;
  wh_Event := webhookEvent (V0.wh_ActionType w) |}.
Definition FromV0WebhooksToV1Subscriptions (l : list V0.Webhook) : outcome error (list Webhook) :=
  Ret (fromV0WebhookToV1Subscription <$> l).

Section mapper.
Context {D : Type} `{DecimalOps D} `{SwapParser} `{MapOrder}.
Variable Hash160 : bytes → bytes.
Variable lbtcByNetwork : string → string.       (* of go-elements; empty for another network *)
Variable db : V0.Db D.

(** ** wallet.go *)
Definition getLabel (accountIndex : Z) : outcome error string :=
  if accountIndex =? V0.FeeAccount then Ret "fee_account"%string
  else if accountIndex =? V0.WalletAccount then Ret "personal_account"%string
  else if accountIndex =? V0.FeeFragmenterAccount then Ret "fee_fragmenter_account"%string
  else if accountIndex =? V0.MarketFragmenterAccount then Ret "market_fragmenter_account"%string
  else
    market ← V0.GetMarketByAccount db accountIndex;
    match market with None => Ret ""%string | Some market => V0.AccountName Hash160 market end.

Record wallet_loop := { wl_accounts : gmap string V1.Account; wl_byLabel : gmap string string; wl_highest : Z }.
Section vault.
Context {K : Type} `{V0.VaultLib K}.
Definition map_account (masterKey : K) (st : wallet_loop) (v : V0.Account) : outcome error wallet_loop :=
  let index := V0.ac_AccountIndex v in
  label ← getLabel index;
  let namespace := nameSpaceFormat index in
  xpub ← V0.Xpub (u32 index) masterKey;
  Ret {| wl_byLabel := <[label := namespace]> (wl_byLabel st);
         wl_highest := if wl_highest st <? index then index else wl_highest st;
         wl_accounts := <[namespace := {|
           V1.ac_Namespace := namespace; V1.ac_Label := label; V1.ac_Xpub := xpub;
           V1.ac_DerivationPath := V0.RootPath +:+ "/" +:+ Fixed.string_of_Z index +:+ "'";
           V1.ac_Index := u32 index; V1.ac_BirthdayBlock := 0;
           V1.ac_NextExternalIndex := u64 (V0.ac_LastExternalIndex v + 1);
           V1.ac_NextInternalIndex := u64 (V0.ac_LastInternalIndex v + 1);
           V1.ac_DerivationPathByScript := V0.ac_DerivationPathByScript v |}]> (wl_accounts st) |}.
Fixpoint map_accounts (masterKey : K) (l : list V0.Account) (st : wallet_loop) : outcome error wallet_loop :=
  match l with [] => Ret st | v :: l => st ← map_account masterKey st v; map_accounts masterKey l st end.
Definition FromV0VaultToV1Wallet (vault : V0.Vault) (password : string) : outcome error V1.Wallet :=
  masterKey ← V0.MasterKey vault password;
  st ← map_accounts masterKey (range_order (map_to_list (V0.va_Accounts vault))).*2
         {| wl_accounts := ∅; wl_byLabel := ∅; wl_highest := 0 |};
  Ret {| V1.wa_EncryptedMnemonic := V0.StdEncoding_DecodeString (V0.va_EncryptedMnemonic vault);
         V1.wa_PasswordHash := V0.va_PassphraseHash vault; V1.wa_BirthdayBlockHeight := 0;
         V1.wa_RootPath := V0.RootPath; V1.wa_NetworkName := V0.va_Network vault;
         V1.wa_Accounts := wl_accounts st; V1.wa_AccountsByLabel := wl_byLabel st;
         V1.wa_NextAccountIndex := u32 (wl_highest st + 1) |}.
End vault.

(** ** deposit.go *)
Definition group_deposits (l : list V0.Deposit) : gmap string (list V0.Deposit) :=
  foldl (λ m d, <[V0.dp_TxID d := default [] (m !! V0.dp_TxID d) ++ [d]]> m) ∅ l.
Definition amount_per_asset (l : list V0.Deposit) : gmap string Z :=
  foldl (λ m d, <[V0.dp_Asset d := u64 (default 0 (m !! V0.dp_Asset d) + V0.dp_Value d)]> m) ∅ l.
Definition map_deposit (kv : string * list V0.Deposit) : outcome error (option Deposit) :=
  v ← deref (head kv.2);
  label ← getLabel (V0.dp_AccountIndex v);
  Ret (if bool_decide (label = ""%string) then None
       else Some {| dp_AccountName := label; dp_TxID := kv.1;
                    dp_TotAmountPerAsset := amount_per_asset kv.2; dp_Timestamp := i64 (V0.dp_Timestamp v) |}).
(** The loop every mapper has: the first error ends it, what is mapped to nil is left out. *)
Fixpoint collect {A B} (f : A → outcome error (option B)) (l : list A) : outcome error (list B) :=
  match l with
  | [] => Ret []
  | a :: l => r ← f a; rest ← collect f l; Ret (match r with Some b => b :: rest | None => rest end)
  end.
Definition FromV0DepositsToV1Deposits (deposits : list V0.Deposit) : outcome error (list Deposit) :=
  collect map_deposit (range_items (group_deposits deposits)).

(** ** withdrawal.go *)
Definition fromV0WithdrawalToV1Withdrawal (net : string) (w : V0.Withdrawal) : outcome error (option Withdrawal) :=
  if V0.wd_AccountIndex w =? V0.FeeAccount then
    label ← getLabel (V0.wd_AccountIndex w);
    Ret (Some {| wd_AccountName := label; wd_TxID := V0.wd_TxID w;
                 wd_TotAmountPerAsset := {[lbtcByNetwork net := V0.wd_BaseAmount w]};
                 wd_Timestamp := i64 (V0.wd_Timestamp w) |})
  else
    market ← V0.GetMarketByAccount db (V0.wd_AccountIndex w);
    match market with
    | None => Ret None
    | Some market =>
        name ← V0.AccountName Hash160 market;
        Ret (Some {| wd_AccountName := name; wd_TxID := V0.wd_TxID w;
                     wd_TotAmountPerAsset := <[V0.mk_QuoteAsset market := V0.wd_QuoteAmount w]>
                       {[V0.mk_BaseAsset market := V0.wd_BaseAmount w]};
                     wd_Timestamp := i64 (V0.wd_Timestamp w) |})
    end.
Definition FromV0WithdrawalsToV1Withdrawals (withdrawals : list V0.Withdrawal) (net : string)
    : outcome error (list Withdrawal) := collect (fromV0WithdrawalToV1Withdrawal net) withdrawals.

(** ** market.go *)
Definition price_String (d : D) : string := if dIsZero d then ""%string else dString d.
Definition fromV0MarketToV1Market (market : V0.Market D) : outcome error (option Market) :=
  name ← V0.AccountName Hash160 market;
  Ret (Some {|
    BaseAsset := V0.mk_BaseAsset market; QuoteAsset := V0.mk_QuoteAsset market; Name := name;
    BaseAssetPrecision := V0.mk_BaseAssetPrecision market; QuoteAssetPrecision := V0.mk_QuoteAssetPrecision market;
    PercentageFee := {| fee_BaseAsset := u64 (V0.mk_Fee market); fee_QuoteAsset := u64 (V0.mk_Fee market) |};
    FixedFee := {| fee_BaseAsset := u64 (V0.mk_FixedFee_BaseFee market); fee_QuoteAsset := u64 (V0.mk_FixedFee_QuoteFee market) |};
    Tradable := V0.mk_Tradable market; StrategyType := strategies (V0.mk_Strategy_Type market);
    Price := {| BasePrice := price_String (V0.BasePrice (V0.mk_Price market));
                QuotePrice := price_String (V0.QuotePrice (V0.mk_Price market)) |} |}).
Definition FromV0MarketsToV1Markets (markets : list (V0.Market D)) : outcome error (list Market) :=
  collect fromV0MarketToV1Market markets.

(** ** trade.go *)
Definition trade_fee (marketFee amountR fixedFee : Z) : outcome error Z :=
  bp ← Mathutil.DivDecimal (NewFromInt marketFee : D) (NewFromInt 100);
  q ← Mathutil.DivDecimal (dMul (NewFromInt (i64 (i64 amountR + fixedFee))) bp) (dSub (NewFromInt 100) bp);
  Ret (u64 (big_Uint64 (dBigInt q) + u64 fixedFee)).
Definition fromV0TradeToV1Trade (net : string) (trade : V0.Trade D) : outcome error (option Trade) :=
  let baseAsset := if bool_decide (V0.tr_MarketBaseAsset trade = ""%string) then lbtcByNetwork net else V0.tr_MarketBaseAsset trade in
  let quoteAsset := V0.tr_MarketQuoteAsset trade in
  market ← V0.GetMarketByAssets db baseAsset quoteAsset;
  match market with
  | None => Ret None
  | Some market =>
      let swapRequest := DeserializeRequest (V0.sw_Message (V0.tr_SwapRequest trade)) "" 0 in
      let feeAsset := sr_AssetR swapRequest in
      let fixedFee := if bool_decide (feeAsset = quoteAsset) then V0.tr_MarketFixedQuoteFee trade else V0.tr_MarketFixedBaseFee trade in
      feeAmount ← trade_fee (V0.tr_MarketFee trade) (sr_AmountR swapRequest) fixedFee;
      name ← V0.AccountName Hash160 market;
      Ret (Some {|
        tr_Id := V0.tr_ID trade;
        tr_Type := if bool_decide (sr_AssetR swapRequest = baseAsset) then TradeBuy else TradeSell;
        tr_MarketName := name; tr_MarketBaseAsset := baseAsset; tr_MarketQuoteAsset := quoteAsset;
        tr_MarketPrice := {| BasePrice := dString (V0.BasePrice (V0.tr_MarketPrice trade));
                             QuotePrice := dString (V0.QuotePrice (V0.tr_MarketPrice trade)) |};
        tr_MarketPercentageFee := {| fee_BaseAsset := u64 (V0.tr_MarketFee trade); fee_QuoteAsset := u64 (V0.tr_MarketFee trade) |};
        tr_MarketFixedFee := {| fee_BaseAsset := u64 (V0.tr_MarketFixedBaseFee trade); fee_QuoteAsset := u64 (V0.tr_MarketFixedQuoteFee trade) |};
        tr_FeeAsset := feeAsset; tr_FeeAmount := feeAmount; tr_TraderPubkey := V0.tr_TraderPubkey trade;
        tr_Status := {| Code := statuses (V0.st_Code (V0.tr_Status trade)); Failed := V0.st_Failed (V0.tr_Status trade) |};
        tr_PsetBase64 := V0.tr_PsetBase64 trade; tr_TxId := V0.tr_TxID trade; tr_TxHex := V0.tr_TxHex trade;
        tr_ExpiryTime := i64 (V0.tr_ExpiryTime trade); tr_SettlementTime := i64 (V0.tr_SettlementTime trade);
        tr_SwapRequest := fromV0Swap (V0.tr_SwapRequest trade); tr_SwapAccept := fromV0Swap (V0.tr_SwapAccept trade);
        tr_SwapComplete := fromV0Swap (V0.tr_SwapComplete trade); tr_SwapFail := fromV0Swap (V0.tr_SwapFail trade) |})
  end.
Definition FromV0TradesToV1Trades (trades : list (V0.Trade D)) (net : string) : outcome error (list Trade) :=
  collect (fromV0TradeToV1Trade net) trades.

(** ** utxo.go *)
Definition block_one : V1.UtxoStatus := {| V1.us_Txid := ""; V1.us_BlockHeight := 1; V1.us_BlockTime := 0; V1.us_BlockHash := "" |}.
(** [now] and [expiry] are time.Now() and time.Now() a minute later, in seconds. *)
Definition fromV0UnspentToV1Utxo (now expiry : Z) (utxo : V0.Unspent) : outcome error (option V1.Utxo) :=
  if negb (V0.un_Confirmed utxo) && negb (V0.un_Spent utxo) then Ret None
  else
    acc ← V0.GetAccountByAddress db (V0.un_Address utxo);
    Ret (Some {|
      V1.ut_Key := {| V1.uk_TxID := V0.un_TxID utxo; V1.uk_VOut := V0.un_VOut utxo |};
      V1.ut_Value := V0.un_Value utxo; V1.ut_Asset := V0.un_AssetHash utxo;
      V1.ut_ValueCommitment := fst (hex_DecodeString (V0.un_ValueCommitment utxo));
      V1.ut_AssetCommitment := fst (hex_DecodeString (V0.un_AssetCommitment utxo));
      V1.ut_ValueBlinder := V0.un_ValueBlinder utxo; V1.ut_AssetBlinder := V0.un_AssetBlinder utxo;
      V1.ut_Script := V0.un_ScriptPubKey utxo; V1.ut_Nonce := V0.un_Nonce utxo; V1.ut_RangeProof := V0.un_RangeProof utxo;
      V1.ut_SurjectionProof := V0.un_SurjectionProof utxo; V1.ut_AccountName := nameSpaceFormat acc.2;
      V1.ut_LockTimestamp := if V0.IsLocked utxo then now else 0;
      V1.ut_LockExpiryTimestamp := if V0.IsLocked utxo then expiry else 0;
      V1.ut_ConfirmedStatus := if V0.un_Confirmed utxo then block_one else V1.no_status;
      V1.ut_SpentStatus := if V0.un_Spent utxo then block_one else V1.no_status |}).
Definition FromV0UnspentsToV1Utxos (clock : V0.Unspent → Z * Z) (utxos : list V0.Unspent) : outcome error (list V1.Utxo) :=
  collect (λ u, fromV0UnspentToV1Utxo (clock u).1 (clock u).2 u) utxos.
End mapper.

(** ** transaction.go *)
Definition is_settled_trade (t : Trade) : bool := negb (bool_decide (tr_TxId t = ""%string)) && IsSettled t.
(** What a trade, a deposit or a withdrawal adds to the transactions: its account to
    the one that is there, or a new one. *)
Definition add_to_tx (txid txHex accountName : string) (txs : gmap string V1.Transaction) : gmap string V1.Transaction :=
  match txs !! txid with
  | Some t => <[txid := V1.AddAccount accountName t]> txs
  | None => <[txid := {| V1.tx_TxID := txid; V1.tx_TxHex := txHex; V1.tx_BlockHash := ""; V1.tx_BlockHeight := 0;
                         V1.tx_Accounts := {[accountName]} |}]> txs
  end.
Section transactions.
Variable accountsByLabel : gmap string string.
Definition account_of (label : string) : string := default ""%string (accountsByLabel !! label).
Definition add_trade (txs : gmap string V1.Transaction) (t : Trade) : gmap string V1.Transaction :=
  if is_settled_trade t then add_to_tx (tr_TxId t) (tr_TxHex t) (account_of (tr_MarketName t)) txs else txs.
Definition add_deposit (txs : gmap string V1.Transaction) (d : Deposit) : gmap string V1.Transaction :=
  add_to_tx (dp_TxID d) "" (account_of (dp_AccountName d)) txs.
Definition add_withdrawal (txs : gmap string V1.Transaction) (w : Withdrawal) : gmap string V1.Transaction :=
  add_to_tx (wd_TxID w) "" (account_of (wd_AccountName w)) txs.
Definition FromV0TransactionsToV1Transactions (trades : list Trade) (deposits : list Deposit) (withdrawals : list Withdrawal)
    : gmap string V1.Transaction :=
  foldl add_withdrawal (foldl add_deposit (foldl add_trade ∅ trades) deposits) withdrawals.
End transactions.

(** * Theorems *)

Lemma collect_spec {A B} (f : A → outcome error (option B)) l res : collect f l = Ret res ↔
  ∃ os, Forall2 (λ a o, f a = Ret o) l os ∧ res = omap id os.
Proof.
  revert res. induction l as [|a l IH]; intros res; cbn [collect].
  - split; [intros [= <-]; by exists [] | intros (os & Hos & ->); by inversion Hos].
  - rewrite bind_Ret_inv. setoid_rewrite bind_Ret_inv. setoid_rewrite IH. split.
    + intros (o & Ho & rest & (os & Hos & ->) & [= <-]). exists (o :: os). split; [by constructor|]. by destruct o.
    + intros (os & Hos & ->). inversion Hos as [|? o ? os' Ho Hos']; subst. exists o. split; [done|].
      exists (omap id os'). split; [by exists os'|]. by destruct o.
Qed.
Lemma collect_total {A B} (f : A → outcome error (option B)) l :
  (∀ a, a ∈ l → ∃ o, f a = Ret o) → ∃ res, collect f l = Ret res.
Proof.
  induction l as [|a l IH]; intros Hf; [by eexists|]. destruct (Hf a) as [o Ho]; [by left|].
  destruct IH as [res Hres]; [intros; apply Hf; by right|]. cbn. rewrite Ho; cbn. rewrite Hres; cbn. by eexists.
Qed.
(** What is collected comes from an element, in order. *)
Lemma collect_elem {A B} (f : A → outcome error (option B)) l res b : collect f l = Ret res →
  b ∈ res ↔ ∃ a, a ∈ l ∧ f a = Ret (Some b).
Proof.
  intros (os & Hos & ->)%collect_spec. rewrite list_elem_of_omap. split.
  - intros (o & [i Hi]%list_elem_of_lookup & Ho). destruct o as [b'|]; [|done]. injection Ho as ->.
    destruct (Forall2_lookup_r _ _ _ _ _ Hos Hi) as (a & Ha & Hfa). exists a. by split; [eapply list_elem_of_lookup_2|].
  - intros (a & [i Hi]%list_elem_of_lookup & Ha). destruct (Forall2_lookup_l _ _ _ _ _ Hos Hi) as (o & Ho & Hfo).
    exists o. split; [by eapply list_elem_of_lookup_2|]. rewrite Ha in Hfo. by injection Hfo as <-.
Qed.

(** Keys that are kept stay in order. *)
Lemma collect_keys {A B K} (f : A → outcome error (option B)) (h : A → K) (g : B → K) l res :
  (∀ a b, f a = Ret (Some b) → g b = h a) → collect f l = Ret res → (g <$> res) `sublist_of` (h <$> l).
Proof.
  intros Hk. revert res. induction l as [|a l IH]; intros res HC; cbn [collect] in HC.
  - by injection HC as <-.
  - apply bind_Ret_inv in HC as (o & Ho & (rest & Hrest & [= <-])%bind_Ret_inv). specialize (IH _ Hrest).
    destruct o as [b|]; cbn; [rewrite (Hk _ _ Ho); by constructor | by constructor].
Qed.

(** ** Deposits *)
Definition deposits_of (txid : string) (l : list V0.Deposit) : list V0.Deposit := filter (λ d, V0.dp_TxID d = txid) l.
Definition total_of (asset : string) (l : list V0.Deposit) : Z :=
  lsum asset ((λ d, (V0.dp_Asset d, V0.dp_Value d)) <$> l).

Lemma lsum_app k l l' : lsum k (l ++ l') = lsum k l + lsum k l'.
Proof. induction l as [|x l IH]; [done|]. cbn [app]. rewrite !lsum_cons, IH. lia. Qed.
Lemma group_deposits_lookup l k :
  group_deposits l !! k = match deposits_of k l with [] => None | g => Some g end.
Proof.
  unfold group_deposits. induction l as [|d l IH] using rev_ind; [apply lookup_empty|].
  rewrite foldl_snoc. unfold deposits_of in *. rewrite filter_app, filter_cons, filter_nil.
  destruct (decide (V0.dp_TxID d = k)) as [<-|Hne].
  - rewrite lookup_insert_eq, IH. by destruct (filter _ l).
  - rewrite lookup_insert_ne, IH, app_nil_r by done. done.
Qed.
Lemma amount_per_asset_total l asset : default 0 (amount_per_asset l !! asset) = u64 (total_of asset l).
Proof.
  unfold amount_per_asset, total_of. induction l as [|d l IH] using rev_ind; [done|].
  rewrite foldl_snoc, fmap_app, lsum_app. cbn [fmap list_fmap]. rewrite lsum_cons, lsum_nil; cbn [fst snd].
  destruct (decide (V0.dp_Asset d = asset)) as [->|Hne].
  - rewrite lookup_insert_eq, bool_decide_true, IH by done. rewrite u64_add_l, Z.add_0_r. done.
  - rewrite lookup_insert_ne, bool_decide_false, IH by done. f_equal. cbv iota. lia.
Qed.

Section mapper_theorems.
Context {D : Type} `{MapOrder}.
Variable Hash160 : bytes → bytes.
Variable db : V0.Db D.

Lemma map_deposit_Ret k g o : map_deposit Hash160 db (k, g) = Ret o ↔ ∃ v label, head g = Some v ∧
  getLabel Hash160 db (V0.dp_AccountIndex v) = Ret label ∧
  o = if bool_decide (label = ""%string) then None
      else Some {| dp_AccountName := label; dp_TxID := k; dp_TotAmountPerAsset := amount_per_asset g; dp_Timestamp := i64 (V0.dp_Timestamp v) |}.
Proof.
  unfold map_deposit; cbn [fst snd]. rewrite bind_Ret_inv. setoid_rewrite bind_Ret_inv. setoid_rewrite deref_Ret. naive_solver.
Qed.
Lemma group_item deposits k g :
  (k, g) ∈ range_items (group_deposits deposits) ↔ g = deposits_of k deposits ∧ g ≠ [].
Proof.
  unfold range_items. rewrite range_order_perm, elem_of_map_to_list, group_deposits_lookup.
  destruct (deposits_of k deposits); naive_solver.
Qed.

(** the deposits of a v0 daemon are grouped by transaction without losing an
    amount: there is at most one v1 deposit for a transaction, it has for every asset
    the sum (as a uint64) of the v0 deposits of that transaction, it goes to the
    account of the first of them, and a transaction is left out only when that
    account belongs to no market any more. *)
Theorem deposits_conserved deposits res : FromV0DepositsToV1Deposits Hash160 db deposits = Ret res →
  NoDup (dp_TxID <$> res) ∧
  (∀ d, d ∈ res → ∃ v, head (deposits_of (dp_TxID d) deposits) = Some v ∧
     getLabel Hash160 db (V0.dp_AccountIndex v) = Ret (dp_AccountName d) ∧ dp_AccountName d ≠ ""%string ∧
     ∀ asset, default 0 (dp_TotAmountPerAsset d !! asset) = u64 (total_of asset (deposits_of (dp_TxID d) deposits))) ∧
  (∀ v, v ∈ deposits → ∃ first label, head (deposits_of (V0.dp_TxID v) deposits) = Some first ∧
     getLabel Hash160 db (V0.dp_AccountIndex first) = Ret label ∧
     (label ≠ ""%string → ∃ d, d ∈ res ∧ dp_TxID d = V0.dp_TxID v)).
Proof.
  intros HF. split_and!.
  - eapply sublist_NoDup; [apply (range_items_keys (group_deposits deposits))|]. eapply (collect_keys _ fst dp_TxID); [|exact HF].
    intros [k g] d (v & label & _ & _ & E)%map_deposit_Ret. case_bool_decide; [done|]. by injection E as ->.
  - intros d ([k g] & [-> _]%group_item & (v & label & Hv & Hl & E)%map_deposit_Ret)%(collect_elem _ _ _ _ HF).
    case_bool_decide; [done|]. injection E as ->. exists v. split_and!; [done..|]. intros. apply amount_per_asset_total.
  - intros v Hv. destruct (deposits_of (V0.dp_TxID v) deposits) as [|first g] eqn:Eg.
    { assert (v ∈ deposits_of (V0.dp_TxID v) deposits) as Hin by (by apply list_elem_of_filter). rewrite Eg in Hin. by apply elem_of_nil in Hin. }
    assert ((V0.dp_TxID v, first :: g) ∈ range_items (group_deposits deposits)) as Hitem by (by apply group_item).
    pose proof HF as (os & Hos & _)%collect_spec. apply list_elem_of_lookup in Hitem as [i Hi].
    destruct (Forall2_lookup_l _ _ _ _ _ Hos Hi) as (o & _ & Ho). pose proof Ho as (v' & label & [= <-] & Hl & ->)%map_deposit_Ret.
    exists first, label. split_and!; [done..|]. intros Hne. rewrite bool_decide_false in Ho by done.
    eexists. split; [apply (collect_elem _ _ _ _ HF); eexists; split; [by eapply list_elem_of_lookup_2 | exact Ho] | done].
Qed.
End mapper_theorems.

(** ** Transactions *)

(** What refers to a transaction: its id, its bytes when they are known, an account. *)
Record tx_source := { src_txid : string; src_hex : string; src_account : string }.
Definition tx_sources (byLabel : gmap string string) (trades : list Trade) (deposits : list Deposit) (withdrawals : list Withdrawal)
    : list tx_source :=
  ((λ t, {| src_txid := tr_TxId t; src_hex := tr_TxHex t; src_account := account_of byLabel (tr_MarketName t) |})
     <$> filter (λ t, is_settled_trade t = true) trades) ++
  ((λ d, {| src_txid := dp_TxID d; src_hex := ""; src_account := account_of byLabel (dp_AccountName d) |}) <$> deposits) ++
  ((λ w, {| src_txid := wd_TxID w; src_hex := ""; src_account := account_of byLabel (wd_AccountName w) |}) <$> withdrawals).
Definition tx_reference (txid : string) (l : list tx_source) : option V1.Transaction :=
  match filter (λ s, src_txid s = txid) l with
  | [] => None
  | s :: r => Some {| V1.tx_TxID := txid; V1.tx_TxHex := src_hex s; V1.tx_BlockHash := ""; V1.tx_BlockHeight := 0;
                      V1.tx_Accounts := list_to_set (src_account <$> s :: r) |}
  end.
Definition add_source (txs : gmap string V1.Transaction) (s : tx_source) : gmap string V1.Transaction :=
  add_to_tx (src_txid s) (src_hex s) (src_account s) txs.

Lemma fold_sources l txid : foldl add_source ∅ l !! txid = tx_reference txid l.
Proof.
  induction l as [|s l IH] using rev_ind; [done|]. rewrite foldl_snoc. revert IH. generalize (foldl add_source ∅ l) as m.
  intros m IH. unfold add_source, add_to_tx.
  unfold tx_reference in *. rewrite filter_app, filter_cons, filter_nil.
  destruct (decide (src_txid s = txid)) as [<-|Hne].
  - rewrite IH. destruct (filter _ l) as [|s0 r]; cbn [app]; rewrite lookup_insert_eq; f_equal; [f_equal; cbn; by rewrite (right_id_L ∅ (∪))|].
    unfold V1.AddAccount; cbn [V1.tx_TxID V1.tx_TxHex V1.tx_BlockHash V1.tx_BlockHeight V1.tx_Accounts]. f_equal.
    rewrite !fmap_cons, fmap_app, !list_to_set_cons, list_to_set_app_L. cbn. set_solver.
  - rewrite app_nil_r, <- IH. destruct (m !! src_txid s); by rewrite lookup_insert_ne.
Qed.
Lemma foldl_filter {A C} (f : C → A → C) (p : A → bool) l c :
  foldl (λ c a, if p a then f c a else c) c l = foldl f c (filter (λ a, p a = true) l).
Proof. revert c. induction l as [|a l IH]; intros c; [done|]. cbn [foldl]. rewrite IH, filter_cons. by destruct (p a). Qed.

Lemma transactions_reference byLabel trades deposits withdrawals txid :
  FromV0TransactionsToV1Transactions byLabel trades deposits withdrawals !! txid
  = tx_reference txid (tx_sources byLabel trades deposits withdrawals).
Proof.
  rewrite <- fold_sources. unfold tx_sources. rewrite !foldl_app, <- !foldl_fmap.
  unfold FromV0TransactionsToV1Transactions. f_equal. unfold add_withdrawal, add_deposit, add_source; cbn [src_txid src_hex src_account].
  do 2 f_equal. unfold add_trade. apply (foldl_filter (λ c t, add_to_tx (tr_TxId t) (tr_TxHex t) (account_of byLabel (tr_MarketName t)) c)).
Qed.

(** the transactions of the wallet are those of the settled trades, of the
    deposits and of the withdrawals, each once, with the accounts of everything that
    refers to it and the bytes of the first trade that does: grouping with maps gives
    what filtering the whole history for each transaction gives. *)
Theorem transactions_complete byLabel trades deposits withdrawals txid :
  FromV0TransactionsToV1Transactions byLabel trades deposits withdrawals !! txid
  = tx_reference txid (tx_sources byLabel trades deposits withdrawals).
Proof. apply transactions_reference. Qed.

(** ** Accounts *)
Lemma string_of_Z_inj a b : Fixed.string_of_Z a = Fixed.string_of_Z b → a = b.
Proof. intros E%(f_equal Fixed.Z_of_string). rewrite !Fixed.Z_of_string_of_Z in E. by injection E. Qed.
Lemma nameSpace_inj a b : nameSpaceFormat a = nameSpaceFormat b → a = b.
Proof. intros E. by apply string_of_Z_inj, (string_app_inj "bip84-account"). Qed.

Section accounts.
Context {D : Type} `{DecimalOps D} `{MapOrder} {K : Type} `{V0.VaultLib K}.
Variable Hash160 : bytes → bytes.
Variable db : V0.Db D.

(** A v1 account continues a v0 one: same scripts, next indexes after the last ones. *)
Definition continues (v : V0.Account) (a : V1.Account) : Prop :=
  V1.ac_Namespace a = nameSpaceFormat (V0.ac_AccountIndex v) ∧
  getLabel Hash160 db (V0.ac_AccountIndex v) = Ret (V1.ac_Label a) ∧
  V1.ac_Index a = u32 (V0.ac_AccountIndex v) ∧
  V1.ac_DerivationPath a = V0.RootPath +:+ "/" +:+ Fixed.string_of_Z (V0.ac_AccountIndex v) +:+ "'" ∧
  V1.ac_NextExternalIndex a = u64 (V0.ac_LastExternalIndex v + 1) ∧
  V1.ac_NextInternalIndex a = u64 (V0.ac_LastInternalIndex v + 1) ∧
  V1.ac_DerivationPathByScript a = V0.ac_DerivationPathByScript v.

(** What the loop over the accounts has done. *)
Definition loop_ok (l : list V0.Account) (st : wallet_loop) : Prop :=
  (∀ v, v ∈ l → (∃ a, wl_accounts st !! nameSpaceFormat (V0.ac_AccountIndex v) = Some a ∧ continues v a) ∧
                V0.ac_AccountIndex v ≤ wl_highest st) ∧
  (∀ n a, wl_accounts st !! n = Some a → ∃ v, v ∈ l ∧ n = nameSpaceFormat (V0.ac_AccountIndex v) ∧ continues v a) ∧
  (∀ label n, wl_byLabel st !! label = Some n → ∃ v, v ∈ l ∧ getLabel Hash160 db (V0.ac_AccountIndex v) = Ret label ∧
     n = nameSpaceFormat (V0.ac_AccountIndex v)) ∧
  (wl_highest st = 0 ∨ ∃ v, v ∈ l ∧ wl_highest st = V0.ac_AccountIndex v).

Lemma map_account_ok (masterKey : K) l v st st' : NoDup (V0.ac_AccountIndex <$> l ++ [v]) → loop_ok l st →
  map_account Hash160 db masterKey st v = Ret st' → loop_ok (l ++ [v]) st'.
Proof.
  intros Hnd (Hacc & Hinv & Hlab & Hhi). unfold map_account.
  intros (label & Hl & (xpub & _ & [= <-])%bind_Ret_inv)%bind_Ret_inv.
  assert (∀ w, w ∈ l → V0.ac_AccountIndex w ≠ V0.ac_AccountIndex v) as Hne.
  { intros w Hw E. rewrite fmap_app, NoDup_app in Hnd. destruct Hnd as (_ & Hd & _).
    apply (Hd (V0.ac_AccountIndex w)); [by apply list_elem_of_fmap_2 | rewrite E; by left]. }
  unfold loop_ok; cbn [wl_accounts wl_byLabel wl_highest]. split_and!.
  - intros w [Hw| ->%list_elem_of_singleton]%elem_of_app.
    + destruct (Hacc w Hw) as [(a & Ha & Hc) Hle]. split.
      * exists a. rewrite lookup_insert_ne; [done|]. intros E%nameSpace_inj. by apply (Hne w).
      * destruct (Z.ltb_spec (wl_highest st) (V0.ac_AccountIndex v)); lia.
    + split; [|destruct (Z.ltb_spec (wl_highest st) (V0.ac_AccountIndex v)); lia].
      eexists. by rewrite lookup_insert_eq.
  - intros n a [[<- <-]|[_ Hn]]%lookup_insert_Some.
    + exists v. split; [apply elem_of_app; right; by left|]. done.
    + destruct (Hinv n a Hn) as (w & Hw & ?). exists w. split; [by apply elem_of_app; left | done].
  - intros lab n [[<- <-]|[_ Hn]]%lookup_insert_Some.
    + exists v. split; [apply elem_of_app; right; by left|]. done.
    + destruct (Hlab lab n Hn) as (w & Hw & ?). exists w. split; [by apply elem_of_app; left | done].
  - destruct (Z.ltb_spec (wl_highest st) (V0.ac_AccountIndex v)).
    + right. exists v. split; [apply elem_of_app; right; by left | done].
    + destruct Hhi as [?|(w & Hw & ?)]; [by left | right; exists w; split; [by apply elem_of_app; left | done]].
Qed.
Lemma map_accounts_ok (masterKey : K) l l0 st st' : NoDup (V0.ac_AccountIndex <$> l0 ++ l) → loop_ok l0 st →
  map_accounts Hash160 db masterKey l st = Ret st' → loop_ok (l0 ++ l) st'.
Proof.
  revert l0 st. induction l as [|v l IH]; intros l0 st Hnd Hok; cbn [map_accounts].
  - intros [= <-]. by rewrite app_nil_r.
  - intros (st1 & Hm1 & Hm2)%bind_Ret_inv. rewrite cons_middle, app_assoc in Hnd |- *.
    eapply IH; [done| |exact Hm2]. eapply map_account_ok; [|done|exact Hm1].
    rewrite fmap_app in Hnd. apply NoDup_app in Hnd. apply Hnd.
Qed.

(** the wallet made of a vault continues it: every account of the vault is in
    the wallet under a namespace of its own, with its label, its scripts and the
    address indexes that come after the last ones used, nothing else is, labels lead to
    the accounts they name, and the next account index was never used. *)
Theorem accounts_kept vault password w :
  (∀ i a, V0.va_Accounts vault !! i = Some a → V0.ac_AccountIndex a = i ∧ 0 ≤ i < 2 ^ 31) →
  FromV0VaultToV1Wallet Hash160 db vault password = Ret w →
  (∀ i v, V0.va_Accounts vault !! i = Some v →
     ∃ a, V1.wa_Accounts w !! nameSpaceFormat i = Some a ∧ continues v a ∧ V1.ac_Index a = i ∧ i < V1.wa_NextAccountIndex w) ∧
  (∀ n a, V1.wa_Accounts w !! n = Some a → ∃ i v, V0.va_Accounts vault !! i = Some v ∧ n = nameSpaceFormat i ∧ continues v a) ∧
  (∀ label n, V1.wa_AccountsByLabel w !! label = Some n → ∃ a, V1.wa_Accounts w !! n = Some a ∧ V1.ac_Label a = label) ∧
  V1.wa_PasswordHash w = V0.va_PassphraseHash vault.
Proof.
  intros Hix (masterKey & _ & (st & Hst & [= <-])%bind_Ret_inv)%bind_Ret_inv.
  set (l := (range_order (map_to_list (V0.va_Accounts vault))).*2) in Hst.
  assert (∀ v, v ∈ l ↔ V0.va_Accounts vault !! V0.ac_AccountIndex v = Some v) as Hl.
  { intros v. unfold l. rewrite range_order_perm, list_elem_of_fmap. split.
    - intros ([i a] & -> & Hi%elem_of_map_to_list). cbn. by destruct (Hix i a Hi) as [-> _].
    - intros Hv. exists (V0.ac_AccountIndex v, v). by rewrite elem_of_map_to_list. }
  assert (NoDup (V0.ac_AccountIndex <$> l)) as Hnd.
  { unfold l. rewrite <- list_fmap_compose.
    assert (V0.ac_AccountIndex ∘ snd <$> range_order (map_to_list (V0.va_Accounts vault)) ≡ₚ
            V0.ac_AccountIndex ∘ snd <$> map_to_list (V0.va_Accounts vault)) as -> by (by rewrite range_order_perm).
    assert (V0.ac_AccountIndex ∘ snd <$> map_to_list (V0.va_Accounts vault) = (map_to_list (V0.va_Accounts vault)).*1) as E.
    { apply list_fmap_ext. intros j [i a] Hi%list_elem_of_lookup_2%elem_of_map_to_list. cbn. by apply Hix. }
    rewrite E. apply NoDup_fst_map_to_list. }
  apply (map_accounts_ok masterKey l []) in Hst as (Hacc & Hinv & Hlab & Hhi); [|done|split_and!; [set_solver|done..|by left]].
  cbn [app] in *. cbn [V1.wa_Accounts V1.wa_AccountsByLabel V1.wa_NextAccountIndex V1.wa_PasswordHash].
  assert (0 ≤ wl_highest st < 2 ^ 31) as Hb.
  { destruct Hhi as [->|(v & Hv%Hl & ->)]; [lia|]. by destruct (Hix _ _ Hv). }
  split_and!; [| | |done].
  - intros i v Hv. destruct (Hix i v Hv) as [Ei Hi]. destruct (Hacc v) as [(a & Ha & Hc) Hle]; [apply Hl; by rewrite Ei|].
    rewrite Ei in *. exists a. split_and!; [done..| |].
    + destruct Hc as (_ & _ & -> & _). rewrite Ei. apply Z.mod_small. lia.
    + unfold u32. rewrite Z.mod_small; lia.
  - intros n a Ha. destruct (Hinv n a Ha) as (v & Hv%Hl & -> & Hc). eauto.
  - intros label n Hn. destruct (Hlab label n Hn) as (v & Hv & Hlv & ->). destruct (Hacc v Hv) as [(a & Ha & Hc) _].
    exists a. split; [done|]. destruct Hc as (_ & Hc & _). rewrite Hlv in Hc. by injection Hc.
Qed.
End accounts.

(** ** Trades *)
Section trades.
Context {D : Type} `{DecimalLaws D}.
Local Open Scope Q_scope.

Lemma basis_points (f : Z) : ∃ bp : D, Mathutil.DivDecimal (NewFromInt f) (NewFromInt 100) = Ret bp ∧ dval bp == inject_Z f / 100.
Proof. apply (Mathutil.Div_pow10 f 2). lia. Qed.


(** A market that takes everything cannot be migrated with its trades. *)
Lemma full_fee_panics amountR fixedFee : trade_fee (D := D) 10000 amountR fixedFee = Panic DivisionByZero.
Proof.
  unfold trade_fee. destruct (basis_points 10000) as (bp & -> & Hbp). cbn. unfold Mathutil.DivDecimal.
  assert (dIsZero (dSub (NewFromInt 100) bp) = true) as ->; [|done].
  apply dIsZero_spec. rewrite val_sub, val_int, Hbp. done.
Qed.
End trades.

Section migrated.
Context {D : Type} `{DecimalLaws D} `{SwapParser}.
Variable Hash160 : bytes → bytes.
Variable lbtcByNetwork : string → string.
Variable db : V0.Db D.

(** A migrated market has the prices it had. *)
Lemma migrated_market_prices m m' : fromV0MarketToV1Market Hash160 m = Ret (Some m') →
  (dval (GetBasePrice (D := D) (Price m')) == dval (V0.BasePrice (V0.mk_Price m)))%Q ∧
  (dval (GetQuotePrice (D := D) (Price m')) == dval (V0.QuotePrice (V0.mk_Price m)))%Q.
Proof.
  intros (name & _ & [= <-])%bind_Ret_inv. unfold GetBasePrice, GetQuotePrice, price_String; cbn.
  split; destruct (dIsZero _) eqn:E; rewrite ?parse_print; try done; apply dIsZero_spec in E; by rewrite parse_empty, E.
Qed.

(** A migrated trade is settled when it was, and shows its swap fail message when it
    had failed. *)
Lemma migrated_trade_status net t t' : fromV0TradeToV1Trade Hash160 lbtcByNetwork db net t = Ret (Some t') →
  IsSettled t' = (V0.st_Code (V0.tr_Status t) =? V0.Settled) ∧
  GetSwapFailInfo t' = Ret (if V0.st_Failed (V0.tr_Status t) then Some (DeserializeFail (V0.sw_Message (V0.tr_SwapFail t))) else None).
Proof.
  unfold fromV0TradeToV1Trade. intros (market & _ & HF)%bind_Ret_inv. destruct market as [market|]; [|done].
  apply bind_Ret_inv in HF as (fee & _ & (name & _ & [= <-])%bind_Ret_inv). split.
  2:{ unfold GetSwapFailInfo, SwapFailMessage, IsRejected; cbn. by destruct (V0.st_Failed _). }
  unfold IsSettled, code_is; cbn [tr_Status Code].
  generalize (V0.st_Code (V0.tr_Status t)) as c. intros c. unfold statuses, TradeStatusCodeSettled, V0.Settled, V0.Proposal, V0.Accepted, V0.Completed, V0.Expired.
  repeat match goal with |- context [c =? ?b] => destruct (Z.eqb_spec c b) as [->|]; [done|] end. done.
Qed.
End migrated.

(** * Examples *)
Module MapperExamples.

Definition hash (b : bytes) : bytes := b.
Definition market : V0.Market Fixed.t := {|
  V0.mk_AccountIndex := 5; V0.mk_BaseAsset := "aabbcc"; V0.mk_QuoteAsset := "ddeeff"; V0.mk_BaseAssetPrecision := 8;
  V0.mk_QuoteAssetPrecision := 8; V0.mk_Fee := 25; V0.mk_FixedFee_BaseFee := 10; V0.mk_FixedFee_QuoteFee := 20;
  V0.mk_Tradable := true; V0.mk_Strategy_Type := V0.StrategyTypeBalanced;
  V0.mk_Price := {| V0.BasePrice := NewFromInt 2; V0.QuotePrice := NewFromInt 3 |} |}.
Definition deposit (i : Z) (tx : string) (vout : Z) (asset : string) (value : Z) : V0.Deposit := {|
  V0.dp_AccountIndex := i; V0.dp_TxID := tx; V0.dp_VOut := vout; V0.dp_Asset := asset; V0.dp_Value := value; V0.dp_Timestamp := 7 |}.
Definition deposits : list V0.Deposit := [
  deposit 5 "t1" 0 "aabbcc" 100; deposit 0 "t2" 0 "aabbcc" 7; deposit 5 "t1" 1 "aabbcc" 50; deposit 5 "t1" 2 "ddeeff" 9;
  deposit 9 "t3" 0 "aabbcc" 1 ].
Definition account (i : Z) : V0.Account := {|
  V0.ac_AccountIndex := i; V0.ac_LastExternalIndex := 3; V0.ac_LastInternalIndex := -1;
  V0.ac_DerivationPathByScript := {["script"%string := "0'/0/3"%string]} |}.
Definition vault : V0.Vault := {|
  V0.va_EncryptedMnemonic := "secret"; V0.va_PassphraseHash := string_bytes "pwd"; V0.va_Accounts := {[0 := account 0; 5 := account 5]};
  V0.va_AccountAndKeyByAddress := {["addr"%string := {| V0.ak_AccountIndex := 5; V0.ak_BlindingKey := [] |}]};
  V0.va_Network := "regtest" |}.
Definition unspent (vout : Z) (spent : bool) : V0.Unspent := {|
  V0.un_TxID := "aa"; V0.un_VOut := vout; V0.un_Value := 100; V0.un_AssetHash := "aabbcc"; V0.un_ValueCommitment := "";
  V0.un_AssetCommitment := ""; V0.un_ValueBlinder := []; V0.un_AssetBlinder := []; V0.un_ScriptPubKey := []; V0.un_Nonce := [];
  V0.un_RangeProof := []; V0.un_SurjectionProof := []; V0.un_Address := "addr"; V0.un_Spent := spent; V0.un_Locked := false;
  V0.un_LockedBy := None; V0.un_Confirmed := true |}.
Definition unspents : list V0.Unspent := [unspent 0 true; unspent 1 false].
Definition db : V0.Db Fixed.t := {|
  V0.db_GetMarket := λ i, if i =? 5 then Ret market else Err ErrNotFound;
  V0.db_FindMarkets := λ q, Ret (filter (λ m, q m = true) [market]);
  V0.db_GetPrices := λ i, if i =? 5 then Ret (V0.mk_Price market) else Err ErrNotFound;
  V0.db_FindTrades := Ret []; V0.db_FindDeposits := Ret deposits; V0.db_FindWithdrawals := Ret [];
  V0.db_FindUnspents := Ret unspents; V0.db_GetLock := λ _, Err ErrNotFound; V0.db_GetVault := Ret vault |}.

Definition migrated : list Deposit := match FromV0DepositsToV1Deposits hash db deposits with Ret l => l | _ => [] end.
Lemma migrated_ok : FromV0DepositsToV1Deposits hash db deposits = Ret migrated.
Proof. vm_compute. reflexivity. Qed.
Example migrated_two : length migrated = 2%nat.
Proof. vm_compute. reflexivity. Qed.
Lemma deposits_conserved_witness : FromV0DepositsToV1Deposits hash db deposits = Ret migrated ∧ NoDup (dp_TxID <$> migrated).
Proof. split; [apply migrated_ok|]. apply (deposits_conserved hash db deposits migrated migrated_ok). Defined.

(** Keys are the paths they were derived along. *)
#[local] Instance paths : V0.VaultLib (list Z) := {
  StdEncoding_DecodeString _ := replicate 48 0;
  scrypt_Key _ _ := Ret [];
  gcm_Open _ _ _ := Some "abandon about"%string;
  bip39_NewSeed s := string_bytes s;
  hd_NewMaster _ := Ret [];
  hd_Derive k i := Ret (k ++ [i]);
  hd_Neuter k := Ret k;
  hd_String k := V0.path_String k;
  hd_NewKeyFromString _ := Ret [2 ^ 31 + 84; 2 ^ 31];
  base58_Encode _ := ""%string;
  base58_Decode s := string_bytes s }.
Definition wallet : V1.Wallet :=
  match FromV0VaultToV1Wallet hash db vault "pwd" with Ret w => w | _ => {|
    V1.wa_EncryptedMnemonic := []; V1.wa_PasswordHash := []; V1.wa_BirthdayBlockHeight := 0; V1.wa_RootPath := ""; V1.wa_NetworkName := "";
    V1.wa_Accounts := ∅; V1.wa_AccountsByLabel := ∅; V1.wa_NextAccountIndex := 0 |} end.
Lemma wallet_ok : FromV0VaultToV1Wallet hash db vault "pwd" = Ret wallet.
Proof. vm_compute. reflexivity. Qed.
Lemma accounts_ok i a : V0.va_Accounts vault !! i = Some a → V0.ac_AccountIndex a = i ∧ 0 ≤ i < 2 ^ 31.
Proof.
  cbn. intros [[<- <-]|[_ [<- <-]%lookup_singleton_Some]]%lookup_insert_Some; cbn; lia.
Qed.
Lemma accounts_kept_witness : FromV0VaultToV1Wallet hash db vault "pwd" = Ret wallet ∧
  V1.wa_PasswordHash wallet = V0.va_PassphraseHash vault.
Proof. split; [apply wallet_ok|]. apply (accounts_kept hash db vault "pwd" wallet accounts_ok wallet_ok). Defined.

End MapperExamples.
