(* ===== verification/Migration.v ===== *)
(** cmd/migration/v0-v1/service.go, databases: how the records of a v0 daemon end up
    in the databases of a v1 daemon and of its wallet.

    The v1 repositories are those of Badger.v; the wallet's databases are badgerhold
    stores too.  The block explorer is the record [Explorer] of its answers, JSON trees
    as in Exchange.v.  The utxos are shared by pointers: they are a list, and pointers
    are positions in it.  The files and Migrate are in MigrationFiles.v. *)

From Stdlib Require Import ZArith Lia.
From stdpp Require Import base tactics strings list gmap.
From S2P Require Import Prelude Errors Decimal Formula Market Trade Repos Badger BadgerCorrect SwapMsg Exchange SecureStore Pubsub Webhooks Interface MigrationV0 Mapper.
Local Open Scope Z_scope.

(** * The explorer *)

(** An answer: its status code, its body and the JSON value the body is, if any. *)
Record Response := { rp_StatusCode : Z; rp_Body : string; rp_json : option json }.
Definition StatusOK : Z := 200.

Section explorer.
(** The names of the networks are those of go-elements; [http_Get] is the request and
    the reading of the whole body. *)
Variables liquid testnet regtest : string.
Variable http_Get : string → outcome error Response.

Definition explorerByNetwork (net : string) : string :=
  if bool_decide (net = liquid) then "https://blockstream.info/liquid/api"
  else if bool_decide (net = testnet) then "https://blockstream.info/liquidtestnet/api"
  else if bool_decide (net = regtest) then "http://localhost:3001/"
  else "".
Definition ask (net path : string) : outcome error Response :=
  resp ← http_Get (explorerByNetwork net +:+ "/tx/" +:+ path);
  if rp_StatusCode resp =? StatusOK then Ret resp else Err (Errorf (rp_Body resp)).

(** A body that is not an object leaves the map empty; fields of another type are
    left zero. *)
Definition getConfirmationStatus (net txid : string) : outcome error V1.UtxoStatus :=
  resp ← ask net (txid +:+ "/status");
  let m := default [] (Unmarshal_object (rp_json resp)) in
  Ret {| V1.us_Txid := "";
         V1.us_BlockHash := default ""%string (as_string (field m "block_hash"));
         V1.us_BlockHeight := default 0 (u64 ∘ float_int <$> as_number (field m "block_height"));
         V1.us_BlockTime := default 0 (i64 ∘ float_int <$> as_number (field m "block_time")) |}.

Definition as_bool (j : option json) : option bool := match j with Some (JBool b) => Some b | _ => None end.
(** Every type assertion panics on another type. *)
Definition spent_status (j : json) : outcome error V1.UtxoStatus :=
  mm ← must (as_object (Some j));
  spent ← must (as_bool (field mm "spent"));
  if negb spent then Ret V1.no_status
  else
    mmm ← must (as_object (field mm "status"));
    txid ← must (as_string (field mm "txid"));
    blockHash ← must (as_string (field mmm "block_hash"));
    blockHeight ← must (as_number (field mmm "block_height"));
    blockTime ← must (as_number (field mmm "block_time"));
    Ret {| V1.us_Txid := txid; V1.us_BlockHash := blockHash; V1.us_BlockHeight := u64 (float_int blockHeight);
           V1.us_BlockTime := i64 (float_int blockTime) |}.
Fixpoint spent_statuses (l : list json) : outcome error (list V1.UtxoStatus) :=
  match l with [] => Ret [] | j :: l => s ← spent_status j; l ← spent_statuses l; Ret (s :: l) end.
Definition getSpentStatus (net txid : string) : outcome error (list V1.UtxoStatus) :=
  resp ← ask net (txid +:+ "/outspends");
  spent_statuses (default [] (Unmarshal_array (rp_json resp))).
Definition getTxHex (net txid : string) : outcome error string :=
  resp ← ask net (txid +:+ "/hex"); Ret (rp_Body resp).
End explorer.

(** What the migration asks of the explorer. *)
Record Explorer := {
  ex_confirmation : string → string → outcome error V1.UtxoStatus;
  ex_spent : string → string → outcome error (list V1.UtxoStatus);
  ex_hex : string → string → outcome error string }.
Definition http_explorer (liquid testnet regtest : string) (http_Get : string → outcome error Response) : Explorer := {|
  ex_confirmation := getConfirmationStatus liquid testnet regtest http_Get;
  ex_spent := getSpentStatus liquid testnet regtest http_Get;
  ex_hex := getTxHex liquid testnet regtest http_Get |}.

(** * Utxos *)

(** The maps built in the first loop; utxos are known by their position. *)
Record utxo_index := {
  ui_confirmed : gmap string (list nat); ui_spent : gmap string (gmap Z nat);
  ui_spentVouts : gmap string (list Z); ui_txids : gset string }.
Definition empty_index : utxo_index := {| ui_confirmed := ∅; ui_spent := ∅; ui_spentVouts := ∅; ui_txids := ∅ |}.
Definition index_spent (txid : string) (vout : Z) (i : nat) (m : utxo_index) : utxo_index := {|
  ui_confirmed := ui_confirmed m; ui_txids := ui_txids m;
  ui_spentVouts := <[txid := default [] (ui_spentVouts m !! txid) ++ [vout]]> (ui_spentVouts m);
  ui_spent := <[txid := <[vout := i]> (default ∅ (ui_spent m !! txid))]> (ui_spent m) |}.
Definition index_confirmed (txid : string) (i : nat) (m : utxo_index) : utxo_index := {|
  ui_spent := ui_spent m; ui_spentVouts := ui_spentVouts m; ui_txids := {[txid]} ∪ ui_txids m;
  ui_confirmed := <[txid := default [] (ui_confirmed m !! txid) ++ [i]]> (ui_confirmed m) |}.
Definition index_utxo (i : nat) (u : V1.Utxo) (m : utxo_index) : utxo_index :=
  let txid := V1.uk_TxID (V1.ut_Key u) in
  let m := if bool_decide (V1.ut_SpentStatus u = V1.no_status) then m else index_spent txid (V1.uk_VOut (V1.ut_Key u)) i m in
  if bool_decide (V1.ut_ConfirmedStatus u = V1.no_status) then m else index_confirmed txid i m.
Fixpoint index_utxos (i : nat) (l : list V1.Utxo) (m : utxo_index) : utxo_index :=
  match l with [] => m | u :: l => index_utxos (S i) l (index_utxo i u m) end.

Definition set_confirmed (st : V1.UtxoStatus) (u : V1.Utxo) : V1.Utxo := {|
  V1.ut_Key := V1.ut_Key u; V1.ut_Value := V1.ut_Value u; V1.ut_Asset := V1.ut_Asset u;
  V1.ut_ValueCommitment := V1.ut_ValueCommitment u; V1.ut_AssetCommitment := V1.ut_AssetCommitment u;
  V1.ut_ValueBlinder := V1.ut_ValueBlinder u; V1.ut_AssetBlinder := V1.ut_AssetBlinder u; V1.ut_Script := V1.ut_Script u;
  V1.ut_Nonce := V1.ut_Nonce u; V1.ut_RangeProof := V1.ut_RangeProof u; V1.ut_SurjectionProof := V1.ut_SurjectionProof u;
  V1.ut_AccountName := V1.ut_AccountName u; V1.ut_LockTimestamp := V1.ut_LockTimestamp u;
  V1.ut_LockExpiryTimestamp := V1.ut_LockExpiryTimestamp u; V1.ut_SpentStatus := V1.ut_SpentStatus u;
  V1.ut_ConfirmedStatus := st |}.
Definition set_spent (st : V1.UtxoStatus) (u : V1.Utxo) : V1.Utxo := {|
  V1.ut_Key := V1.ut_Key u; V1.ut_Value := V1.ut_Value u; V1.ut_Asset := V1.ut_Asset u;
  V1.ut_ValueCommitment := V1.ut_ValueCommitment u; V1.ut_AssetCommitment := V1.ut_AssetCommitment u;
  V1.ut_ValueBlinder := V1.ut_ValueBlinder u; V1.ut_AssetBlinder := V1.ut_AssetBlinder u; V1.ut_Script := V1.ut_Script u;
  V1.ut_Nonce := V1.ut_Nonce u; V1.ut_RangeProof := V1.ut_RangeProof u; V1.ut_SurjectionProof := V1.ut_SurjectionProof u;
  V1.ut_AccountName := V1.ut_AccountName u; V1.ut_LockTimestamp := V1.ut_LockTimestamp u;
  V1.ut_LockExpiryTimestamp := V1.ut_LockExpiryTimestamp u; V1.ut_SpentStatus := st;
  V1.ut_ConfirmedStatus := V1.ut_ConfirmedStatus u |}.

(** The loops that ask the explorer: the first error ends them. *)
Fixpoint fetch {A} (get : string → outcome error A) (txids : list string) (m : gmap string A) : outcome error (gmap string A) :=
  match txids with [] => Ret m | txid :: txids => a ← get txid; fetch get txids (<[txid := a]> m) end.

(** Writing through the pointers. *)
Definition confirm_at (confirmed : gmap string (list nat)) (l : list V1.Utxo) (kv : string * V1.UtxoStatus) : list V1.Utxo :=
  foldl (λ l i, alter (set_confirmed kv.2) i l) l (default [] (confirmed !! kv.1)).
Definition spend_at (spent : gmap string (gmap Z nat)) (statuses : gmap string (list V1.UtxoStatus)) (txid : string) (vout : Z)
    (l : list V1.Utxo) : outcome error (list V1.Utxo) :=
  i ← deref (m ← spent !! txid; m !! vout);
  st ← index (default [] (statuses !! txid)) (Z.to_nat vout);
  Ret (alter (set_spent st) i l).
Fixpoint spend_vouts (spent : gmap string (gmap Z nat)) (statuses : gmap string (list V1.UtxoStatus)) (txid : string) (vouts : list Z)
    (l : list V1.Utxo) : outcome error (list V1.Utxo) :=
  match vouts with [] => Ret l | vout :: vouts => l ← spend_at spent statuses txid vout l; spend_vouts spent statuses txid vouts l end.
Fixpoint spend_all (spent : gmap string (gmap Z nat)) (statuses : gmap string (list V1.UtxoStatus)) (items : list (string * list Z))
    (l : list V1.Utxo) : outcome error (list V1.Utxo) :=
  match items with
  | [] => Ret l
  | (txid, vouts) :: items => l ← spend_vouts spent statuses txid vouts l; spend_all spent statuses items l
  end.

Section utxos.
Context `{MapOrder}.
Variable ex : Explorer.
Variable net : string.
Definition with_statuses (v1Utxos : list V1.Utxo) : outcome error (list V1.Utxo) :=
  let m := index_utxos 0 v1Utxos empty_index in
  confirmedStatuses ← fetch (ex_confirmation ex net) (range_order (elements (ui_txids m))) ∅;
  let l := foldl (confirm_at (ui_confirmed m)) v1Utxos (range_items confirmedStatuses) in
  spentStatuses ← fetch (ex_spent ex net) (range_items (ui_spentVouts m)).*1 ∅;
  spend_all (ui_spent m) spentStatuses (range_items (ui_spentVouts m)) l.
End utxos.

(** * The databases *)
Section domain.
Context {D : Type} `{DecimalOps D} `{SwapParser} `{MapOrder} {K : Type} `{V0.VaultLib K}.
Context {MS PS TS DS WS OW OU OT : Type}.
Context `{!BadgerHold Market MS} `{!BadgerHold MarketPrice PS} `{!BadgerHold Trade TS} `{!BadgerHold Deposit DS}.
Context `{!BadgerHold Withdrawal WS} `{!BadgerHold V1.Wallet OW} `{!BadgerHold V1.Utxo OU} `{!BadgerHold V1.Transaction OT}.
Variable Hash160 : bytes → bytes.
Variable lbtcByNetwork : string → string.
Variable ex : Explorer.
Variable clock : V0.Unspent → Z * Z.
Variable db : V0.Db D.

(** The databases of the daemon and of the wallet. *)
Record Stores := {
  st_markets : BadgerMarket.store MS PS; st_trades : TS; st_deposits : DS; st_withdrawals : WS;
  oc_wallet : OW; oc_utxos : OU; oc_txs : OT }.
Abbreviation act := (action Stores error).
Definition on_markets {A} (m : action (BadgerMarket.store MS PS) error A) : act A := λ s, let '(x, o) := m (st_markets s) in
  ({| st_markets := x; st_trades := st_trades s; st_deposits := st_deposits s; st_withdrawals := st_withdrawals s;
      oc_wallet := oc_wallet s; oc_utxos := oc_utxos s; oc_txs := oc_txs s |}, o).
Definition on_trades {A} (m : action TS error A) : act A := λ s, let '(x, o) := m (st_trades s) in
  ({| st_markets := st_markets s; st_trades := x; st_deposits := st_deposits s; st_withdrawals := st_withdrawals s;
      oc_wallet := oc_wallet s; oc_utxos := oc_utxos s; oc_txs := oc_txs s |}, o).
Definition on_deposits {A} (m : action DS error A) : act A := λ s, let '(x, o) := m (st_deposits s) in
  ({| st_markets := st_markets s; st_trades := st_trades s; st_deposits := x; st_withdrawals := st_withdrawals s;
      oc_wallet := oc_wallet s; oc_utxos := oc_utxos s; oc_txs := oc_txs s |}, o).
Definition on_withdrawals {A} (m : action WS error A) : act A := λ s, let '(x, o) := m (st_withdrawals s) in
  ({| st_markets := st_markets s; st_trades := st_trades s; st_deposits := st_deposits s; st_withdrawals := x;
      oc_wallet := oc_wallet s; oc_utxos := oc_utxos s; oc_txs := oc_txs s |}, o).
Definition on_wallet {A} (m : action OW error A) : act A := λ s, let '(x, o) := m (oc_wallet s) in
  ({| st_markets := st_markets s; st_trades := st_trades s; st_deposits := st_deposits s; st_withdrawals := st_withdrawals s;
      oc_wallet := x; oc_utxos := oc_utxos s; oc_txs := oc_txs s |}, o).
Definition on_utxos {A} (m : action OU error A) : act A := λ s, let '(x, o) := m (oc_utxos s) in
  ({| st_markets := st_markets s; st_trades := st_trades s; st_deposits := st_deposits s; st_withdrawals := st_withdrawals s;
      oc_wallet := oc_wallet s; oc_utxos := x; oc_txs := oc_txs s |}, o).
Definition on_txs {A} (m : action OT error A) : act A := λ s, let '(x, o) := m (oc_txs s) in
  ({| st_markets := st_markets s; st_trades := st_trades s; st_deposits := st_deposits s; st_withdrawals := st_withdrawals s;
      oc_wallet := oc_wallet s; oc_utxos := oc_utxos s; oc_txs := x |}, o).

(** A loop that stores each element, ended by the first error. *)
Fixpoint each {S A} (f : A → action S error ()) (l : list A) : action S error () :=
  match l with [] => mret () | a :: l => _ ← f a; each f l end.

(** ** v1-domain repositories *)
Definition walletKey : string := "wallet".
Definition InsertWallet (w : V1.Wallet) : action OW error () := bh_Insert walletKey w.
Definition GetWallet (s : OW) : outcome error V1.Wallet := bh_Get s walletKey.
Definition AddUtxos (utxos : list V1.Utxo) : action OU error () := each (λ u, bh_Insert (V1.Hash Hash160 (V1.ut_Key u)) u) utxos.
Definition AddTransactions (txs : list V1.Transaction) : action OT error () := each (λ t, bh_Insert (V1.tx_TxID t) t) txs.

(** ** The steps *)
Definition migrateV0VaultToOceanWallet (vaultPass : string) : act string :=
  v0Vault ← lift (V0.db_GetVault db);
  wallet ← lift (FromV0VaultToV1Wallet Hash160 db v0Vault vaultPass);
  _ ← on_wallet (InsertWallet wallet);
  mret (V0.va_Network v0Vault).
Definition migrateV0UtxosToV1Utxos (net : string) : act () :=
  v0Utxos ← lift (V0.GetAllUnspents db);
  v1Utxos ← lift (FromV0UnspentsToV1Utxos db clock v0Utxos);
  v1Utxos ← lift (with_statuses ex net v1Utxos);
  on_utxos (AddUtxos v1Utxos).
Definition migrateV0MarketsToV1Markets : act () :=
  v0Markets ← lift (V0.GetAllMarkets db);
  v1Markets ← lift (FromV0MarketsToV1Markets Hash160 v0Markets);
  on_markets (each BadgerMarket.insertMarket v1Markets).
Definition migrateV0TradesToV1Trades (net : string) : act (list Trade) :=
  v0Trades ← lift (V0.GetAllTrades db);
  v1Trades ← lift (FromV0TradesToV1Trades Hash160 lbtcByNetwork db v0Trades net);
  _ ← on_trades (each BadgerTrade.insertTrade v1Trades);
  mret v1Trades.
Definition migrateV0DepositsToV1Deposits : act (list Deposit) :=
  v0Deposits ← lift (V0.GetAllDeposits db);
  v1Deposits ← lift (FromV0DepositsToV1Deposits Hash160 db v0Deposits);
  _ ← on_deposits (BadgerTxs.AddDeposits Hash160 v1Deposits);
  mret v1Deposits.
Definition migrateV0WithdrawalsToV1Withdrawals (net : string) : act (list Withdrawal) :=
  v0Withdrawals ← lift (V0.GetAllWithdrawals db);
  v1Withdrawals ← lift (FromV0WithdrawalsToV1Withdrawals Hash160 lbtcByNetwork db v0Withdrawals net);
  _ ← on_withdrawals (BadgerTxs.AddWithdrawals v1Withdrawals);
  mret v1Withdrawals.

Definition set_hex (txHex : string) (t : V1.Transaction) : V1.Transaction := {|
  V1.tx_TxID := V1.tx_TxID t; V1.tx_TxHex := txHex; V1.tx_BlockHash := V1.tx_BlockHash t;
  V1.tx_BlockHeight := V1.tx_BlockHeight t; V1.tx_Accounts := V1.tx_Accounts t |}.
Definition complete_tx (net : string) (kv : string * V1.Transaction) : outcome error (option V1.Transaction) :=
  status ← ex_confirmation ex net kv.1;
  let tx := V1.Confirm (V1.us_BlockHash status) (V1.us_BlockHeight status) kv.2 in
  if bool_decide (V1.tx_TxHex tx = ""%string) then txHex ← ex_hex ex net kv.1; Ret (Some (set_hex txHex tx)) else Ret (Some tx).
Definition migrateTransactions (trades : list Trade) (deposits : list Deposit) (withdrawals : list Withdrawal) : act () :=
  s ← get_state;
  wallet ← lift (GetWallet (oc_wallet s));
  let indexedTxs := FromV0TransactionsToV1Transactions (V1.wa_AccountsByLabel wallet) trades deposits withdrawals in
  txs ← lift (collect (complete_tx (V1.wa_NetworkName wallet)) (range_items indexedTxs));
  on_txs (AddTransactions txs).

(** migrateDomain, after the databases are opened. *)
Definition migrate_stores (password : string) : act () :=
  vault ← lift (V0.db_GetVault db);
  if negb (V0.IsValidPassword Hash160 vault password) then lift (Err (Errorf "invalid password"))
  else
    net ← migrateV0VaultToOceanWallet password;
    _ ← migrateV0UtxosToV1Utxos net;
    _ ← migrateV0MarketsToV1Markets;
    trades ← migrateV0TradesToV1Trades net;
    deposits ← migrateV0DepositsToV1Deposits;
    withdrawals ← migrateV0WithdrawalsToV1Withdrawals net;
    migrateTransactions trades deposits withdrawals.
End domain.
Arguments Stores : clear implicits.

(** * Webhooks *)
Section webhooks.
Context {S0 S W : Type} `{!SecureStorage S0} `{!SecureStorage S} `{!SubscriptionJSON} `{!Network W} `{MapOrder}.
Variable ParseRequestURI : string → bool.
Variable newWebhookFromBytes : bytes → outcome error V0.Webhook.

(** The secure stores of the webhooks, the old and the new one. *)
Record WebhookStores := { ws_v0 : S0; ws_v1 : Pubsub.service S W }.
Definition on_v0 {A} (m : action S0 error A) : action WebhookStores error A := λ s,
  let '(x, o) := m (ws_v0 s) in ({| ws_v0 := x; ws_v1 := ws_v1 s |}, o).
Definition on_v1 {A} (m : action (Pubsub.service S W) error A) : action WebhookStores error A := λ s,
  let '(x, o) := m (ws_v1 s) in ({| ws_v0 := ws_v0 s; ws_v1 := x |}, o).
Definition on_v1_store {A} (m : action S error A) : action WebhookStores error A := on_v1 (on_store m).

(** [uuid] is what would name a subscription without an id: v0 webhooks have theirs. *)
Definition migrate_webhooks (uuid password : string) : action WebhookStores error () :=
  _ ← on_v0 (V0.Unlock password);
  _ ← on_v1_store (store_Init (string_bytes password));
  _ ← on_v1_store (store_Unlock (string_bytes password));
  v0Webhooks ← on_v0 (V0.GetAllWebhooks newWebhookFromBytes);
  v1Webhooks ← lift (FromV0WebhooksToV1Subscriptions v0Webhooks);
  each (λ v, _ ← on_v1 (AddWebhookWithID ParseRequestURI uuid v); mret ()) v1Webhooks.
End webhooks.
Arguments WebhookStores : clear implicits.

(** * Theorems: utxos *)

Section indexes.
Implicit Types (u : V1.Utxo) (l : list V1.Utxo) (m : utxo_index).
Definition utxo_txid u : string := V1.uk_TxID (V1.ut_Key u).
Definition utxo_vout u : Z := V1.uk_VOut (V1.ut_Key u).
Definition is_confirmed u : Prop := V1.ut_ConfirmedStatus u ≠ V1.no_status.
Definition is_spent u : Prop := V1.ut_SpentStatus u ≠ V1.no_status.
Definition pointer m (txid : string) (vout : Z) : option nat := x ← ui_spent m !! txid; x !! vout.

(** What the maps of the first loop hold. *)
Record indexes l m : Prop := {
  ix_confirmed txid i : i ∈ default [] (ui_confirmed m !! txid) ↔ ∃ u, l !! i = Some u ∧ utxo_txid u = txid ∧ is_confirmed u;
  ix_txids txid : txid ∈ ui_txids m ↔ ∃ i u, l !! i = Some u ∧ utxo_txid u = txid ∧ is_confirmed u;
  ix_vouts txid vout : vout ∈ default [] (ui_spentVouts m !! txid) ↔
    ∃ i u, l !! i = Some u ∧ utxo_txid u = txid ∧ utxo_vout u = vout ∧ is_spent u;
  ix_pointer txid vout i : pointer m txid vout = Some i → ∃ u, l !! i = Some u ∧ utxo_txid u = txid ∧ utxo_vout u = vout ∧ is_spent u;
  ix_pointed i u : l !! i = Some u → is_spent u → is_Some (pointer m (utxo_txid u) (utxo_vout u)) }.

Lemma index_utxos_app i l l' m : index_utxos i (l ++ l') m = index_utxos (i + length l) l' (index_utxos i l m).
Proof.
  revert i m. induction l as [|u l IH]; intros i m; cbn [app index_utxos length]; [by rewrite Nat.add_0_r|].
  rewrite IH. f_equal. lia.
Qed.
Lemma lookup_snoc_iff {A} (l : list A) x i y : (l ++ [x]) !! i = Some y ↔ l !! i = Some y ∨ i = length l ∧ y = x.
Proof.
  destruct (decide (i < length l)%nat) as [Hlt|Hge].
  - rewrite lookup_app_l by done. split; [by left | intros [?|[-> ?]]; [done | lia]].
  - rewrite lookup_app_r, list_lookup_singleton_Some by lia. split.
    + intros [? ?]. right. split; [lia | done].
    + intros [?%lookup_lt_Some|[-> ->]]; [lia | split; [lia | done]].
Qed.


Lemma exists_snoc {A} (l : list A) x (P : A → Prop) :
  (∃ i y, (l ++ [x]) !! i = Some y ∧ P y) ↔ (∃ i y, l !! i = Some y ∧ P y) ∨ P x.
Proof.
  split.
  - intros (i & y & [Hy|[_ ->]]%lookup_snoc_iff & HP); eauto.
  - intros [(i & y & Hy & HP)|HP]; [exists i, y | exists (length l), x]; rewrite lookup_snoc_iff; auto.
Qed.
Lemma index_utxos_snoc l u m : index_utxos 0 (l ++ [u]) m = index_utxo (length l) u (index_utxos 0 l m).
Proof. by rewrite index_utxos_app. Qed.
Lemma lookup_default_insert {A} (m : gmap string A) k k' (a d : A) :
  default d (<[k := a]> m !! k') = if decide (k = k') then a else default d (m !! k').
Proof. destruct (decide (k = k')) as [->|]; [by rewrite lookup_insert_eq | by rewrite lookup_insert_ne]. Qed.

Lemma pointer_spent txid vout i m t v : pointer (index_spent txid vout i m) t v =
  if decide (txid = t ∧ vout = v) then Some i else pointer m t v.
Proof.
  unfold pointer; cbn. destruct (decide (txid = t)) as [->|Hne].
  - rewrite lookup_insert_eq; cbn. destruct (decide (vout = v)) as [->|].
    + by rewrite lookup_insert_eq, decide_True.
    + rewrite lookup_insert_ne, decide_False by naive_solver. by destruct (ui_spent m !! t); cbn; rewrite ?lookup_empty.
  - rewrite lookup_insert_ne, decide_False by naive_solver. done.
Qed.
Lemma pointer_utxo i u m t v : pointer (index_utxo i u m) t v =
  if decide (is_spent u ∧ utxo_txid u = t ∧ utxo_vout u = v) then Some i else pointer m t v.
Proof.
  unfold index_utxo, is_spent. fold (utxo_txid u) (utxo_vout u).
  transitivity (pointer (if bool_decide (V1.ut_SpentStatus u = V1.no_status) then m
                         else index_spent (utxo_txid u) (utxo_vout u) i m) t v); [by case_bool_decide|].
  case_bool_decide; [by rewrite decide_False by naive_solver|]. rewrite pointer_spent. repeat case_decide; naive_solver.
Qed.

Lemma index_utxos_ok l : indexes l (index_utxos 0 l empty_index).
Proof.
  induction l as [|u l IH] using rev_ind.
  { split; cbn; intros; try set_solver; rewrite ?lookup_empty; cbn; try set_solver. }
  rewrite index_utxos_snoc. generalize dependent (index_utxos 0 l empty_index). intros m [I1 I2 I3 I4 I5].
  split.
  - intros txid i. setoid_rewrite lookup_snoc_iff.
    assert (i ∈ default [] (ui_confirmed m !! txid) ∨ (i = length l ∧ utxo_txid u = txid ∧ is_confirmed u) ↔
            ∃ u0, (l !! i = Some u0 ∨ i = length l ∧ u0 = u) ∧ utxo_txid u0 = txid ∧ is_confirmed u0) as <- by (rewrite I1; naive_solver).
    unfold is_confirmed, index_utxo. repeat case_bool_decide; cbn; rewrite ?lookup_default_insert; repeat case_decide; set_solver.
  - intros txid. rewrite exists_snoc, <- I2. unfold is_confirmed, index_utxo. repeat case_bool_decide; cbn; set_solver.
  - intros txid vout. rewrite exists_snoc, <- I3. unfold is_spent, index_utxo.
    repeat case_bool_decide; cbn; rewrite ?lookup_default_insert; repeat case_decide; set_solver.
  - intros txid vout i. setoid_rewrite lookup_snoc_iff.
    assert (pointer m txid vout = Some i ∨ (i = length l ∧ utxo_txid u = txid ∧ utxo_vout u = vout ∧ is_spent u) →
      ∃ u0, (l !! i = Some u0 ∨ i = length l ∧ u0 = u) ∧ utxo_txid u0 = txid ∧ utxo_vout u0 = vout ∧ is_spent u0) as Himp.
    { intros [(u0 & ? & ?)%I4|(-> & ?)]; eauto. }
    rewrite pointer_utxo. case_decide; naive_solver.
  - intros i u0 [Hu0|[-> ->]]%lookup_snoc_iff Hs; rewrite pointer_utxo; case_decide; eauto.
    by destruct H.
Qed.
End indexes.

Lemma fetch_spec {A} (get : string → outcome error A) txids m m' : fetch get txids m = Ret m' →
  ∀ txid, (txid ∈ txids → ∃ a, get txid = Ret a ∧ m' !! txid = Some a) ∧ (txid ∉ txids → m' !! txid = m !! txid).
Proof.
  revert m. induction txids as [|t txids IH]; intros m HF txid; cbn [fetch] in HF.
  { injection HF as <-. split; [by intros ?%elem_of_nil | done]. }
  apply bind_Ret_inv in HF as (a & Ha & HF). destruct (IH _ HF txid) as [I1 I2]. split.
  - intros Hin. destruct (decide (txid ∈ txids)) as [|Hn]; [auto|]. rewrite I2 by done.
    apply elem_of_cons in Hin as [->|]; [|done]. exists a. by rewrite lookup_insert_eq.
  - intros [Hne Hn]%not_elem_of_cons. rewrite I2 by done. by rewrite lookup_insert_ne.
Qed.
(** The map that was filled from nothing. *)
Lemma fetch_lookup {A} (get : string → outcome error A) txids m' txid a : fetch get txids ∅ = Ret m' →
  m' !! txid = Some a ↔ txid ∈ txids ∧ get txid = Ret a.
Proof.
  intros HF. destruct (fetch_spec _ _ _ _ HF txid) as [I1 I2]. destruct (decide (txid ∈ txids)) as [Hin|Hn].
  - destruct (I1 Hin) as (b & Hb & ->). rewrite Hb. naive_solver.
  - rewrite (I2 Hn), lookup_empty. naive_solver.
Qed.

Lemma alter_all (f : V1.Utxo → V1.Utxo) (js : list nat) (l : list V1.Utxo) (i : nat) : (∀ x, f (f x) = f x) →
  foldl (λ l i, alter f i l) l js !! i = if decide (i ∈ js) then f <$> l !! i else l !! i.
Proof.
  intros Hf. revert l. induction js as [|j js IH]; intros l; cbn [foldl]; [by rewrite decide_False by apply not_elem_of_nil|].
  rewrite IH. destruct (decide (j = i)) as [->|Hne].
  - rewrite list_lookup_alter_eq, (decide_True (P := i ∈ i :: js)) by (by left). case_decide; [|done].
    destruct (l !! i); cbn; [by rewrite Hf | done].
  - rewrite list_lookup_alter_ne by done. repeat case_decide; set_solver.
Qed.
Lemma confirm_fold idx items (l : list V1.Utxo) (i : nat) : foldl (confirm_at idx) l items !! i =
  (λ u, match last (filter (λ kv, i ∈ default [] (idx !! kv.1)) items) with Some kv => set_confirmed kv.2 u | None => u end) <$> l !! i.
Proof.
  induction items as [|kv items IH] using rev_ind; [cbn; by destruct (l !! i)|]. rewrite foldl_snoc. unfold confirm_at at 1.
  rewrite alter_all, IH, filter_app, filter_cons, filter_nil by done.
  case_decide; [rewrite last_snoc | by rewrite app_nil_r]. by destruct (l !! i), (last (filter _ _)).
Qed.

Lemma last_app_cases {A} (l1 l2 : list A) : last (l1 ++ l2) = match last l2 with Some x => Some x | None => last l1 end.
Proof. destruct l2 as [|x l2 _] using rev_ind; [by rewrite app_nil_r|]. by rewrite app_assoc, !last_snoc. Qed.
(** The pairs the last loop visits. *)
Definition pairs (items : list (string * list Z)) : list (string * Z) := items ≫= (λ kv, pair kv.1 <$> kv.2).
Definition status_at (statuses : gmap string (list V1.UtxoStatus)) (p : string * Z) : option V1.UtxoStatus :=
  default [] (statuses !! p.1) !! Z.to_nat p.2.
Section writes.
Variable m : utxo_index.
Variable statuses : gmap string (list V1.UtxoStatus).
Abbreviation spend := (λ ps l i, (λ u, match last (filter (λ p, pointer m p.1 p.2 = Some i) ps) with
  Some p => set_spent (default V1.no_status (status_at statuses p)) u | None => u end) <$> l !! i).
Definition spends (ps : list (string * Z)) (l l' : list V1.Utxo) : Prop :=
  (∀ p, p ∈ ps → is_Some (status_at statuses p)) ∧ ∀ i, l' !! i = spend ps l i.

Lemma spends_nil l : spends [] l l.
Proof. split; [by intros p ?%elem_of_nil|]. intros i. by destruct (l !! i). Qed.
Lemma spends_app ps ps' l l1 l2 : spends ps l l1 → spends ps' l1 l2 → spends (ps ++ ps') l l2.
Proof.
  intros [S1 E1] [S2 E2]. split; [intros p [?|?]%elem_of_app; auto|]. intros i. rewrite E2, E1, filter_app.
  rewrite last_app_cases. destruct (l !! i); cbn; [|done]. do 2 (destruct (last _); try done).
Qed.
Lemma spend_at_ok txid vout l l' : spend_at (ui_spent m) statuses txid vout l = Ret l' → spends [(txid, vout)] l l'.
Proof.
  unfold spend_at. intros (i & Hi%deref_Ret & (st & Hst%index_Ret & [= <-])%bind_Ret_inv)%bind_Ret_inv.
  assert (status_at statuses (txid, vout) = Some st) as Est by done. split.
  - intros p ->%list_elem_of_singleton. by rewrite Est.
  - intros j. rewrite filter_cons, filter_nil. destruct (decide (i = j)) as [<-|Hne].
    + rewrite decide_True by done. cbn [last]. rewrite Est, list_lookup_alter_eq. by destruct (l !! i).
    + rewrite decide_False by (intros E; cbn in E; unfold pointer in E; rewrite Hi in E; naive_solver).
      rewrite list_lookup_alter_ne by done. by destruct (l !! j).
Qed.
Lemma spend_vouts_ok txid vouts l l' : spend_vouts (ui_spent m) statuses txid vouts l = Ret l' → spends (pair txid <$> vouts) l l'.
Proof.
  revert l. induction vouts as [|v vouts IH]; intros l; cbn [spend_vouts]; [intros [= <-]; apply spends_nil|].
  intros (l1 & H1%spend_at_ok & H2)%bind_Ret_inv. exact (spends_app [_] _ _ _ _ H1 (IH _ H2)).
Qed.
Lemma spend_all_ok items l l' : spend_all (ui_spent m) statuses items l = Ret l' → spends (pairs items) l l'.
Proof.
  revert l. induction items as [|[txid vouts] items IH]; intros l; cbn [spend_all]; [intros [= <-]; apply spends_nil|].
  intros (l1 & H1%spend_vouts_ok & H2)%bind_Ret_inv. exact (spends_app _ _ _ _ _ H1 (IH _ H2)).
Qed.
End writes.

Section statuses.
Context `{MapOrder}.
Variable ex : Explorer.
Variable net : string.

(** A utxo with the statuses of the explorer, where the v0 daemon had some. *)
Definition new_confirmed (u : V1.Utxo) (c : V1.UtxoStatus) : Prop :=
  is_confirmed u ∧ ex_confirmation ex net (utxo_txid u) = Ret c ∨ ¬ is_confirmed u ∧ c = V1.ut_ConfirmedStatus u.
Definition new_spent (u : V1.Utxo) (s : V1.UtxoStatus) : Prop :=
  (is_spent u ∧ ∃ sts, ex_spent ex net (utxo_txid u) = Ret sts ∧ sts !! Z.to_nat (utxo_vout u) = Some s) ∨
  ¬ is_spent u ∧ s = V1.ut_SpentStatus u.
Definition refreshed (u u' : V1.Utxo) : Prop :=
  ∃ c s, new_confirmed u c ∧ new_spent u s ∧ u' = set_spent s (set_confirmed c u).

Lemma confirmed_at l m txids statuses i u : indexes l m → l !! i = Some u → txids ≡ₚ elements (ui_txids m) →
  fetch (ex_confirmation ex net) txids ∅ = Ret statuses →
  ∃ c, new_confirmed u c ∧ foldl (confirm_at (ui_confirmed m)) l (range_items statuses) !! i = Some (set_confirmed c u).
Proof.
  intros Hix Hu Htx HF. rewrite confirm_fold, Hu; cbn [fmap option_fmap option_map].
  assert (∀ kv, kv ∈ range_items statuses ↔ kv.1 ∈ ui_txids m ∧ ex_confirmation ex net kv.1 = Ret kv.2) as Hitems.
  { intros [k v]. unfold range_items. rewrite range_order_perm, elem_of_map_to_list, (fetch_lookup _ _ _ _ _ HF), Htx, elem_of_elements. done. }
  destruct (last (filter _ _)) as [kv|] eqn:El.
  - apply last_Some_elem_of, list_elem_of_filter in El as [Hi [_ Hkv]%Hitems].
    apply (ix_confirmed _ _ Hix) in Hi as (u' & Hu' & Ht & Hc). rewrite Hu in Hu'. injection Hu' as <-.
    exists kv.2. split; [left; by rewrite Ht | done].
  - exists (V1.ut_ConfirmedStatus u). split; [|by destruct u]. right. split; [|done]. intros Hc.
    assert (utxo_txid u ∈ ui_txids m) as Hin by (apply (ix_txids _ _ Hix); eauto).
    destruct (fetch_spec _ _ _ _ HF (utxo_txid u)) as [Hex _].
    destruct Hex as (c & Hgc & _); [by rewrite Htx, elem_of_elements|].
    apply last_None in El. assert ((utxo_txid u, c) ∈ filter (λ kv, i ∈ default [] (ui_confirmed m !! kv.1)) (range_items statuses)) as Hf.
    { apply list_elem_of_filter. split; [apply (ix_confirmed _ _ Hix); eauto | by apply Hitems]. }
    rewrite El in Hf. by apply elem_of_nil in Hf.
Qed.

Lemma spent_at l m items statuses l1 l2 i u u1 : NoDup (V1.ut_Key <$> l) → indexes l m → l !! i = Some u → l1 !! i = Some u1 →
  items ≡ₚ map_to_list (ui_spentVouts m) → fetch (ex_spent ex net) items.*1 ∅ = Ret statuses →
  spends m statuses (pairs items) l1 l2 → V1.ut_SpentStatus u1 = V1.ut_SpentStatus u →
  ∃ s, new_spent u s ∧ l2 !! i = Some (set_spent s u1).
Proof.
  intros Hnd Hix Hu Hu1 Hit HF [Hst Hl2] Esame. rewrite Hl2, Hu1; cbn [fmap option_fmap option_map].
  assert (∀ t v, (t, v) ∈ pairs items ↔ v ∈ default [] (ui_spentVouts m !! t)) as Hpairs.
  { intros t v. unfold pairs. rewrite list_elem_of_bind. setoid_rewrite list_elem_of_fmap. split.
    - intros ([t' vs] & (v' & [= <- <-] & Hv) & Hin). rewrite Hit, elem_of_map_to_list in Hin. cbn. by rewrite Hin.
    - intros Hv. destruct (ui_spentVouts m !! t) as [vs|] eqn:E; [|by apply elem_of_nil in Hv].
      exists (t, vs). cbn. split; [by exists v | by rewrite Hit, elem_of_map_to_list]. }
  destruct (last (filter _ _)) as [p|] eqn:El.
  - apply last_Some_elem_of, list_elem_of_filter in El as [Hp Hin].
    apply (ix_pointer _ _ Hix) in Hp as (u' & Hu' & Ht & Hv & Hs). rewrite Hu in Hu'. injection Hu' as <-.
    destruct (Hst p Hin) as [s Es]. exists s. rewrite Es. split; [|done]. left. split; [done|].
    unfold status_at in Es. rewrite <- Ht, <- Hv in Es. destruct (statuses !! utxo_txid u) as [sts|] eqn:E; [|cbn in Es; discriminate].
    exists sts. split; [by apply (fetch_lookup _ _ _ _ _ HF) in E as [_ ?] | done].
  - exists (V1.ut_SpentStatus u). split; [|rewrite <- Esame; by destruct u1]. right. split; [|done]. intros Hs.
    apply last_None in El. destruct (ix_pointed _ _ Hix _ _ Hu Hs) as [j Hj].
    destruct (ix_pointer _ _ Hix _ _ _ Hj) as (u' & Hu' & Ht & Hv & _).
    assert (j = i) as ->.
    { eapply (NoDup_lookup (V1.ut_Key <$> l)); [done|rewrite list_lookup_fmap, Hu'; done|]. rewrite list_lookup_fmap, Hu. cbn.
      unfold utxo_txid, utxo_vout in Ht, Hv. destruct (V1.ut_Key u), (V1.ut_Key u'); cbn in *. by subst. }
    assert ((utxo_txid u, utxo_vout u) ∈ filter (λ p, pointer m p.1 p.2 = Some i) (pairs items)) as Hf.
    { apply list_elem_of_filter. split; [done|]. apply Hpairs, (ix_vouts _ _ Hix). eauto 10. }
    rewrite El in Hf. by apply elem_of_nil in Hf.
Qed.

(** every migrated utxo gets the statuses the explorer reports for its own
    output: though statuses are fetched per transaction and written through maps of
    pointers, no utxo gets another one's, none that the v0 daemon had as unconfirmed or
    unspent gets one, and nothing else of it changes. *)
Theorem utxos_refreshed l l' : NoDup (V1.ut_Key <$> l) → with_statuses ex net l = Ret l' → Forall2 refreshed l l'.
Proof.
  intros Hnd. unfold with_statuses. pose proof (index_utxos_ok l) as Hix. set (m := index_utxos 0 l empty_index) in *.
  intros (cs & Hcs & (ss & Hss & Hall%spend_all_ok)%bind_Ret_inv)%bind_Ret_inv.
  set (l1 := foldl _ l _) in Hall. apply Forall2_lookup. intros i. destruct (l !! i) as [u|] eqn:Hu.
  - destruct (confirmed_at l m _ cs i u Hix Hu (range_order_perm _) Hcs) as (c & Hc & Hl1).
    destruct (spent_at l m _ ss l1 l' i u _ Hnd Hix Hu Hl1 (range_order_perm _) Hss Hall eq_refl) as (s & Hs & ->).
    constructor. by exists c, s.
  - destruct Hall as [_ ->]. unfold l1. rewrite confirm_fold, Hu. constructor.
Qed.
End statuses.

(** * Theorems: databases *)

(** A store that takes values one by one, each under a key that must be free. *)
Definition keyed {V S} (ins : V → action S error ()) (key : V → string) (contents : S → gmap string V) (ok : S → Prop) : Prop :=
  ∀ s v, ok s → ∃ s' o, ins v s = (s', o) ∧ ok s' ∧
  match contents s !! key v with
  | Some _ => contents s' = contents s ∧ ∃ e, o = Err e
  | None => contents s' = <[key v := v]> (contents s) ∧ o = Ret ()
  end.
Section keyed.
Context {V S : Type} (ins : V → action S error ()) (key : V → string) (contents : S → gmap string V) (ok : S → Prop).
Hypothesis ins_spec : keyed ins key contents ok.
Definition filed (l : list V) : gmap string V := list_to_map ((λ v, (key v, v)) <$> l).

Lemma each_spec l s : ok s → ∃ s' o, each ins l s = (s', o) ∧ ok s' ∧
  (o = Ret () ↔ NoDup (key <$> l) ∧ ∀ v, v ∈ l → contents s !! key v = None) ∧
  (o = Ret () → contents s' = filed l ∪ contents s).
Proof.
  revert s. induction l as [|v l IH]; intros s Hs; cbn [each].
  { exists s, (Ret ()). split_and!; [done..| |]; [split; [split; [apply NoDup_nil_2 | by intros ? ?%elem_of_nil] | done] | unfold filed; cbn; by rewrite (left_id_L ∅ (∪))]. }
  destruct (ins_spec s v Hs) as (s1 & o1 & E1 & Hs1 & HC). unfold mbind, action_bind. rewrite E1.
  destruct (contents s !! key v) as [w|] eqn:Ew.
  - destruct HC as [_ [e ->]]. exists s1, (Err e). split_and!; [done..| |done]. split; [done|].
    intros [_ Hn]. rewrite (Hn v) in Ew by (by left). done.
  - destruct HC as [HC ->]. destruct (IH s1 Hs1) as (s2 & o2 & E2 & Hs2 & Hiff & Hview). exists s2, o2.
    split_and!; [done..| |].
    + rewrite Hiff, HC, fmap_cons, NoDup_cons. split.
      * intros [Hnd Hnone]. split_and!; [|done|].
        -- intros (x & Hx & Hin)%list_elem_of_fmap. specialize (Hnone x Hin). by rewrite <- Hx, lookup_insert_eq in Hnone.
        -- intros x [->|Hx]%elem_of_cons; [done|]. specialize (Hnone x Hx). by apply lookup_insert_None in Hnone as [? _].
      * intros ([Hv Hnd] & Hnone). split; [done|]. intros x Hx. rewrite lookup_insert_ne; [apply Hnone; by right|].
        intros E. apply Hv. rewrite E. by apply list_elem_of_fmap_2.
    + intros Ho. rewrite (Hview Ho), HC. apply Hiff in Ho as [_ Hnone]. unfold filed. cbn [fmap list_fmap list_to_map foldr].
      rewrite <- insert_union_l, <- insert_union_r; [done|]. apply not_elem_of_list_to_map_1.
      intros (kx & Ekx & (y & -> & Hy)%list_elem_of_fmap)%list_elem_of_fmap. cbn in Ekx.
      specialize (Hnone y Hy). by rewrite HC, <- Ekx, lookup_insert_eq in Hnone.
Qed.
End keyed.

Lemma insert_keyed {V S} `{BadgerHoldLaws V S} (key : V → string) :
  keyed (S := S) (λ v, bh_Insert (key v) v) key records available.
Proof.
  intros s v Ha. destruct (bh_Insert (key v) v s) as [s' o] eqn:E. exists s', o. split; [done|].
  destruct (avail_Insert _ _ _ _ _ Ha E) as [HR Ha']. split; [done|]. unfold insert_spec in HR.
  destruct (records s !! key v); injection HR as -> ->; eauto.
Qed.
Lemma trade_keyed {S} `{!BadgerHold Trade S} `{!BadgerHoldLaws Trade S} :
  keyed (S := S) BadgerTrade.insertTrade tr_Id records available.
Proof.
  intros s t Ha. unfold BadgerTrade.insertTrade, mbind, action_bind, try.
  destruct (bh_Insert (tr_Id t) t s) as [s' o] eqn:E. destruct (avail_Insert _ _ _ _ _ Ha E) as [HR Ha'].
  unfold insert_spec in HR. destruct (records s !! tr_Id t); injection HR as HR ->; eexists _, _; split; try done; eauto.
Qed.
Lemma market_keyed {D} `{DecimalOps D} {MS PS} `{!BadgerHold Market MS} `{!BadgerHold MarketPrice PS}
    `{!BadgerHoldLaws Market MS} `{!BadgerHoldLaws MarketPrice PS} :
  keyed (S := BadgerMarket.store MS PS) BadgerMarket.insertMarket Name view store_ok.
Proof.
  intros s m Hs. destruct (insertMarket_ok s m Hs) as (s' & o & E & Hs' & HV). exists s', o. split; [done|]. split; [done|].
  destruct (view s !! Name m); destruct HV as [? ->]; eauto.
Qed.

Section migration.
Context {D : Type} `{DecimalOps D} `{SwapParser} `{MapOrder} {K : Type} `{V0.VaultLib K}.
Context {MS PS TS DS WS OW OU OT : Type}.
Context `{!BadgerHold Market MS} `{!BadgerHold MarketPrice PS} `{!BadgerHold Trade TS} `{!BadgerHold Deposit DS}.
Context `{!BadgerHold Withdrawal WS} `{!BadgerHold V1.Wallet OW} `{!BadgerHold V1.Utxo OU} `{!BadgerHold V1.Transaction OT}.
Context `{!BadgerHoldLaws Market MS} `{!BadgerHoldLaws MarketPrice PS} `{!BadgerHoldLaws Trade TS} `{!BadgerHoldLaws Deposit DS}.
Context `{!BadgerHoldLaws Withdrawal WS} `{!BadgerHoldLaws V1.Wallet OW} `{!BadgerHoldLaws V1.Utxo OU} `{!BadgerHoldLaws V1.Transaction OT}.
Variable Hash160 : bytes → bytes.
Variable lbtcByNetwork : string → string.
Variable ex : Explorer.
Variable clock : V0.Unspent → Z * Z.
Variable db : V0.Db D.
Abbreviation St := (Stores MS PS TS DS WS OW OU OT).

(** Databases that were just created. *)
Definition fresh (s : St) : Prop :=
  (store_ok (st_markets s) ∧ view (st_markets s) = ∅) ∧
  (available (st_trades s) ∧ records (st_trades s) = ∅) ∧
  (available (st_deposits s) ∧ records (st_deposits s) = ∅) ∧
  (available (st_withdrawals s) ∧ records (st_withdrawals s) = ∅) ∧
  (available (oc_wallet s) ∧ records (oc_wallet s) = ∅) ∧
  (available (oc_utxos s) ∧ records (oc_utxos s) = ∅) ∧
  (available (oc_txs s) ∧ records (oc_txs s) = ∅).

(** What is to be stored. *)
Record plan := {
  pl_wallet : V1.Wallet; pl_utxos : list V1.Utxo; pl_markets : list Market; pl_trades : list Trade;
  pl_deposits : list Deposit; pl_withdrawals : list Withdrawal; pl_txs : list V1.Transaction }.
Definition utxo_key (u : V1.Utxo) : string := V1.Hash Hash160 (V1.ut_Key u).

(** The plan the records of the v0 daemon and the explorer make, when they do: keys
    must not clash. *)
Definition planned (password : string) (p : plan) : Prop := ∃ vault net v0utxos v1utxos v0markets,
  V0.db_GetVault db = Ret vault ∧ V0.IsValidPassword Hash160 vault password = true ∧ net = V0.va_Network vault ∧
  FromV0VaultToV1Wallet Hash160 db vault password = Ret (pl_wallet p) ∧
  V0.GetAllUnspents db = Ret v0utxos ∧ FromV0UnspentsToV1Utxos db clock v0utxos = Ret v1utxos ∧
  with_statuses ex net v1utxos = Ret (pl_utxos p) ∧ NoDup (utxo_key <$> pl_utxos p) ∧
  V0.GetAllMarkets db = Ret v0markets ∧ FromV0MarketsToV1Markets Hash160 v0markets = Ret (pl_markets p) ∧
  NoDup (Name <$> pl_markets p) ∧
  (v0trades ← V0.GetAllTrades db; FromV0TradesToV1Trades Hash160 lbtcByNetwork db v0trades net) = Ret (pl_trades p) ∧
  NoDup (tr_Id <$> pl_trades p) ∧
  (v0deposits ← V0.GetAllDeposits db; FromV0DepositsToV1Deposits Hash160 db v0deposits) = Ret (pl_deposits p) ∧
  (v0withdrawals ← V0.GetAllWithdrawals db; FromV0WithdrawalsToV1Withdrawals Hash160 lbtcByNetwork db v0withdrawals net) = Ret (pl_withdrawals p) ∧
  collect (complete_tx ex net) (range_items (FromV0TransactionsToV1Transactions (V1.wa_AccountsByLabel (pl_wallet p))
    (pl_trades p) (pl_deposits p) (pl_withdrawals p))) = Ret (pl_txs p).

(** The databases hold the plan; of deposits or withdrawals with the same key, the
    first one. *)
Definition realized (p : plan) (s : St) : Prop :=
  records (oc_wallet s) = {[walletKey := pl_wallet p]} ∧
  records (oc_utxos s) = filed utxo_key (pl_utxos p) ∧
  view (st_markets s) = filed Name (pl_markets p) ∧
  records (st_trades s) = filed tr_Id (pl_trades p) ∧
  records (st_deposits s) = fst (InmemoryTxs.add_missing (InmemoryTxs.Deposit_Key Hash160) (pl_deposits p) ∅) ∧
  records (st_withdrawals s) = fst (InmemoryTxs.add_missing wd_TxID (pl_withdrawals p) ∅) ∧
  records (oc_txs s) = filed V1.tx_TxID (pl_txs p).

Lemma wallet_network vault password w : FromV0VaultToV1Wallet Hash160 db vault password = Ret w → V1.wa_NetworkName w = V0.va_Network vault.
Proof. by intros (k & _ & (st & _ & [= <-])%bind_Ret_inv)%bind_Ret_inv. Qed.
Lemma complete_tx_id net kv t : complete_tx ex net kv = Ret (Some t) → V1.tx_TxID t = V1.tx_TxID kv.2.
Proof.
  unfold complete_tx. intros (st & _ & HF)%bind_Ret_inv. case_bool_decide; [apply bind_Ret_inv in HF as (h & _ & HF)|];
    injection HF as <-; unfold V1.Confirm; cbn; by destruct (V1.IsConfirmed kv.2).
Qed.
Lemma tx_ids_distinct net byLabel trades deposits withdrawals txs :
  collect (complete_tx ex net) (range_items (FromV0TransactionsToV1Transactions byLabel trades deposits withdrawals)) = Ret txs →
  NoDup (V1.tx_TxID <$> txs).
Proof.
  intros HC. set (m := FromV0TransactionsToV1Transactions _ _ _ _) in HC.
  assert (V1.tx_TxID ∘ snd <$> range_items m = (range_items m).*1) as E.
  { apply list_fmap_ext. intros i [k t] Hi%list_elem_of_lookup_2. cbn. unfold range_items in Hi.
    rewrite range_order_perm, elem_of_map_to_list in Hi. unfold m in Hi. rewrite transactions_reference in Hi.
    unfold tx_reference in Hi. destruct (filter _ _); [done|]. by injection Hi as <-. }
  eapply sublist_NoDup; [|eapply (collect_keys _ (V1.tx_TxID ∘ snd) _ _ _ (complete_tx_id net)); exact HC].
  rewrite E. apply range_items_keys.
Qed.

Lemma add_txs_ok {V S} `{BadgerHoldLaws V S} (key : V → string) l (s : S) : available s → records s = ∅ →
  ∃ s' n, BadgerTxs.insert_all key l 0 s = (s', Ret n) ∧ records s' = fst (InmemoryTxs.add_missing key l ∅).
Proof.
  intros Ha Hr. destruct (BadgerTxs.insert_all key l 0 s) as [s' o] eqn:E.
  destruct (insert_all_add_missing _ _ _ _ _ _ E) as (l1 & l2 & -> & HR & Ho). destruct o as [n|e|p]; [|naive_solver|done].
  destruct Ho as [-> _]. rewrite app_nil_r in *. exists s', n. by rewrite HR, Hr.
Qed.
(** A loop over a store that was empty. *)
Lemma each_fresh {V S} (ins : V → action S error ()) key contents ok l (s : S) :
  keyed ins key contents ok → ok s → contents s = ∅ →
  ∃ s' o, each ins l s = (s', o) ∧ ok s' ∧ (o = Ret () ↔ NoDup (key <$> l)) ∧ (o = Ret () → contents s' = filed key l).
Proof.
  intros Hins Hs Hc. destruct (each_spec ins key contents ok Hins l s Hs) as (s' & o & E & Hok & Hiff & Hv). exists s', o.
  split_and!; [done..| |].
  - rewrite Hiff, Hc. split; [by intros [? _]|]. intros Hnd. split; [done|]. intros. apply lookup_empty.
  - intros Ho. rewrite (Hv Ho), Hc. apply (right_id_L ∅ (∪)).
Qed.

Lemma bind_run {S A B} (f : A → action S error B) (m : action S error A) s s1 a r :
  m s = (s1, Ret a) → f a s1 = r → mbind (M := action S error) f m s = r.
Proof. unfold mbind, action_bind. by intros -> . Qed.
Lemma lift_run {S A B} (f : A → action S error B) (m : outcome error A) (s : S) a r :
  m = Ret a → f a s = r → mbind (M := action S error) f (lift m) s = r.
Proof. by intros -> <-. Qed.

Lemma migration_runs password p (s : St) : fresh s → planned password p →
  ∃ s', migrate_stores Hash160 lbtcByNetwork ex clock db password s = (s', Ret ()) ∧ realized p s'.
Proof.
  intros ([Fm1 Fm2] & [Ft1 Ft2] & [Fd1 Fd2] & [Fw1 Fw2] & [Fo1 Fo2] & [Fu1 Fu2] & [Fx1 Fx2]).
  intros (vault & net & v0u & v1u & v0m & Hvault & Hpw & Hnet & Hwallet & Hu0 & Hu1 & Hu2 & Hud & Hm0 & Hm1 & Hmd & Ht & Htd & Hd & Hw & Hx).
  apply bind_Ret_inv in Ht as (v0t & Ht0 & Ht1), Hd as (v0d & Hd0 & Hd1), Hw as (v0w & Hw0 & Hw1).
  destruct (insert_keyed (λ _, walletKey) (oc_wallet s) (pl_wallet p) Fo1) as (xo & oo & Eo & Ao & Ho).
  rewrite Fo2, lookup_empty in Ho. destruct Ho as [Ho ->].
  destruct (each_fresh (λ u, bh_Insert (utxo_key u) u) utxo_key records available (pl_utxos p) (oc_utxos s)) as (xu & ou & Eu & _ & Iu & Vu);
    [apply insert_keyed|done..|]. apply Iu in Hud as ->. specialize (Vu eq_refl).
  destruct (each_fresh BadgerMarket.insertMarket Name view store_ok (pl_markets p) (st_markets s)) as (xm & om & Em & _ & Im & Vm);
    [apply market_keyed|done..|]. apply Im in Hmd as ->. specialize (Vm eq_refl).
  destruct (each_fresh BadgerTrade.insertTrade tr_Id records available (pl_trades p) (st_trades s)) as (xt & ot & Et & _ & It & Vt);
    [apply trade_keyed|done..|]. apply It in Htd as ->. specialize (Vt eq_refl).
  destruct (add_txs_ok (InmemoryTxs.Deposit_Key Hash160) (pl_deposits p) _ Fd1 Fd2) as (xd & nd & Ed & Vd).
  destruct (add_txs_ok wd_TxID (pl_withdrawals p) _ Fw1 Fw2) as (xw & nw & Ew & Vw).
  destruct (each_fresh (λ t, bh_Insert (V1.tx_TxID t) t) V1.tx_TxID records available (pl_txs p) (oc_txs s)) as (xx & ox & Ex & _ & Ix & Vx);
    [apply insert_keyed|done..|]. pose proof (tx_ids_distinct _ _ _ _ _ _ Hx) as Hxd. apply Ix in Hxd as ->. specialize (Vx eq_refl).
  eexists. split.
  - unfold migrate_stores. eapply lift_run; [done|]. rewrite Hpw. cbn [negb].
    eapply bind_run. { eapply lift_run; [done|]. eapply lift_run; [done|]. eapply bind_run; [|done]. unfold on_wallet, InsertWallet. by rewrite Eo. }
    rewrite <- Hnet. eapply bind_run.
    { eapply lift_run; [done|]. eapply lift_run; [done|]. eapply lift_run; [done|]. unfold on_utxos, AddUtxos; cbn. unfold utxo_key in Eu. by rewrite Eu. }
    eapply bind_run. { eapply lift_run; [done|]. eapply lift_run; [done|]. unfold on_markets; cbn. by rewrite Em. }
    eapply bind_run. { eapply lift_run; [done|]. eapply lift_run; [done|]. eapply bind_run; [|done]. unfold on_trades; cbn. by rewrite Et. }
    eapply bind_run. { eapply lift_run; [done|]. eapply lift_run; [done|]. eapply bind_run; [|done]. unfold on_deposits, BadgerTxs.AddDeposits; cbn. by rewrite Ed. }
    eapply bind_run. { eapply lift_run; [done|]. eapply lift_run; [done|]. eapply bind_run; [|done]. unfold on_withdrawals, BadgerTxs.AddWithdrawals; cbn. by rewrite Ew. }
    eapply bind_run; [done|]. cbn [oc_wallet]. eapply lift_run.
    { unfold GetWallet. rewrite avail_Get, Ho by done. by rewrite lookup_insert_eq. }
    rewrite (wallet_network _ _ _ Hwallet), <- Hnet. eapply lift_run; [done|]. unfold on_txs, AddTransactions; cbn. by rewrite Ex.
  - by split_and!.
Qed.

Lemma each_returned {V S} (ins : V → action S error ()) key contents ok l (s s' : S) :
  keyed ins key contents ok → ok s → contents s = ∅ → each ins l s = (s', Ret ()) → NoDup (key <$> l).
Proof.
  intros Hins Hs Hc HE. destruct (each_fresh ins key contents ok l s Hins Hs Hc) as (s1 & o & E & _ & Hiff & _).
  rewrite HE in E. injection E as <- <-. by apply Hiff.
Qed.
(** What a run that returned went through. *)
Ltac stage H := unfold on_wallet, on_utxos, on_markets, on_trades, on_deposits, on_withdrawals, on_txs in H;
  match type of H with (let '(_, _) := ?m in _) = _ => let x := fresh "x" in let E := fresh "E" in destruct m as [x ?] eqn:E end;
  injection H as <- ->.

Lemma run_is_planned password (s s' : St) : fresh s →
  migrate_stores Hash160 lbtcByNetwork ex clock db password s = (s', Ret ()) → ∃ p, planned password p.
Proof.
  intros ([Fm1 Fm2] & [Ft1 Ft2] & _ & _ & [Fo1 Fo2] & [Fu1 Fu2] & _). unfold migrate_stores.
  intros (? & vault & [-> Hvault]%lift_Ret & HR)%action_bind_Ret. destruct (V0.IsValidPassword _ _ _) eqn:Hpw; [|done]. cbn [negb] in HR.
  apply action_bind_Ret in HR as (s1 & net & Hwallet & HR). apply action_bind_Ret in HR as (s2 & [] & Hutxos & HR).
  apply action_bind_Ret in HR as (s3 & [] & Hmarkets & HR). apply action_bind_Ret in HR as (s4 & ts & Htrades & HR).
  apply action_bind_Ret in HR as (s5 & ds & Hdeps & HR). apply action_bind_Ret in HR as (s6 & ws & Hwds & HR).
  apply action_bind_Ret in Hwallet as (? & v & [-> Hv]%lift_Ret & (? & w & [-> Hw]%lift_Ret & (? & [] & Hins & [-> ->]%action_ret_Ret)%action_bind_Ret)%action_bind_Ret).
  rewrite Hvault in Hv. injection Hv as <-. stage Hins.
  apply action_bind_Ret in Hutxos as (? & u0 & [-> Hu0]%lift_Ret & (? & u1 & [-> Hu1]%lift_Ret & (? & u2 & [-> Hu2]%lift_Ret & Hadd)%action_bind_Ret)%action_bind_Ret).
  stage Hadd. cbn [oc_utxos] in E0.
  apply action_bind_Ret in Hmarkets as (? & m0 & [-> Hm0]%lift_Ret & (? & ms & [-> Hms]%lift_Ret & Hadd)%action_bind_Ret).
  stage Hadd. cbn [st_markets] in E1.
  apply action_bind_Ret in Htrades as (? & t0 & [-> Ht0]%lift_Ret & (? & t1 & [-> Ht1]%lift_Ret & (? & [] & Hadd & [-> ->]%action_ret_Ret)%action_bind_Ret)%action_bind_Ret).
  stage Hadd. cbn [st_trades] in E2.
  apply action_bind_Ret in Hdeps as (? & d0 & [-> Hd0]%lift_Ret & (? & d1 & [-> Hd1]%lift_Ret & (? & nd & Hadd & [-> ->]%action_ret_Ret)%action_bind_Ret)%action_bind_Ret).
  stage Hadd.
  apply action_bind_Ret in Hwds as (? & w0 & [-> Hw0]%lift_Ret & (? & w1 & [-> Hw1]%lift_Ret & (? & nw & Hadd & [-> ->]%action_ret_Ret)%action_bind_Ret)%action_bind_Ret).
  stage Hadd.
  apply action_bind_Ret in HR as (? & st & [= <- <-] & (? & w' & [-> Hget]%lift_Ret & (? & txs & [-> Htxs]%lift_Ret & _)%action_bind_Ret)%action_bind_Ret).
  exists {| pl_wallet := w; pl_utxos := u2; pl_markets := ms; pl_trades := t1; pl_deposits := d1; pl_withdrawals := w1; pl_txs := txs |}.
  exists vault, (V0.va_Network vault), u0, u1, m0. cbn [pl_wallet pl_utxos pl_markets pl_trades pl_deposits pl_withdrawals pl_txs].
  split_and!; try done.
  - eapply (each_returned (λ u, bh_Insert (utxo_key u) u)); [apply insert_keyed|exact Fu1|done|exact E0].
  - eapply (each_returned BadgerMarket.insertMarket Name view store_ok); [apply market_keyed|done|done|exact E1].
  - by rewrite Ht0.
  - eapply (each_returned BadgerTrade.insertTrade tr_Id); [apply trade_keyed|exact Ft1|done|exact E2].
  - by rewrite Hd0.
  - by rewrite Hw0.
  - assert (w' = w) as ->; [|by rewrite <- (wallet_network _ _ _ Hw)].
    destruct (insert_keyed (λ _, walletKey) (oc_wallet s) w Fo1) as (xo & oo & Eo & Ao & Ho).
    unfold InsertWallet in E. rewrite Eo in E. injection E as -> ->. rewrite Fo2, lookup_empty in Ho. destruct Ho as [Ho _].
    cbn [oc_wallet] in Hget. unfold GetWallet in Hget. rewrite (avail_Get _ _ Ao), Ho, lookup_insert_eq in Hget. by injection Hget.
Qed.

End migration.

(** * Theorems: the explorer and the webhooks *)

(** An output spent by a transaction that is not confirmed yet stops the migration:
    the status of such a transaction has no block hash. *)
Lemma unconfirmed_spend_panics txid : spent_status (JObject [
    ("spent", JBool true); ("txid", JString txid); ("status", JObject [("confirmed", JBool false)])]%string)
  = Panic TypeAssertion.
Proof. reflexivity. Qed.
(** So does an answer that is not the list of all outputs. *)
Lemma short_answer_panics m statuses txid vout l i : pointer m txid vout = Some i → statuses !! txid = Some [] →
  spend_at (ui_spent m) statuses txid vout l = Panic IndexOutOfRange.
Proof. intros Hp Hs. unfold spend_at. unfold pointer in Hp. rewrite Hp. cbn. by rewrite Hs. Qed.

Section webhook_theorems.
Context {S0 S W : Type} `{!SecureStorage S0} `{!SecureStorageLaws S0} `{!SecureStorage S} `{!SecureStorageLaws S}.
Context `{!SubscriptionJSON} `{!SubscriptionJSONLaws} `{!Network W} `{!NetworkLaws W} `{MapOrder}.
Variable ParseRequestURI : string → bool.
Variable newWebhookFromBytes : bytes → outcome error V0.Webhook.
Variable uuid : string.

Definition migrated_hook (w : V0.Webhook) : Subscription := new_hook (V0.wh_ID w) (fromV0WebhookToV1Subscription w).
Definition good_webhook (id : string) (w : V0.Webhook) : Prop :=
  V0.wh_ID w = id ∧ good_key id ∧ 0 ≤ V0.wh_ActionType w ≤ 3 ∧ ParseRequestURI (V0.wh_Endpoint w) = true ∧
  ∀ id, valid_utf8 (new_hook id (fromV0WebhookToV1Subscription w)).
Definition topic_of_action (e : Z) : string :=
  if e =? V0.TradeSettled then eventTradeSettled else if e =? V0.AccountLowBalance then eventAccountLowBalance
  else if e =? V0.AccountWithdraw then eventAccountWithdraw else AnyTopic.

Lemma action_event e : 0 ≤ e ≤ 3 → topic_of_action e ∈ topics ∧ webhookEvent e = webhookEventInfo (topic_of_action e).
Proof.
  intros He. assert (e = 0 ∨ e = 1 ∨ e = 2 ∨ e = 3) as [->|[->|[->| ->]]] by lia; (split; [|reflexivity]);
    unfold topics, topic_of_action; cbn; set_solver.
Qed.
Lemma add_migrated (s : Pubsub.service S W) pw subs w id : good_key uuid → rep s pw subs → good_webhook id w → subs !! id = None →
  ∃ s', AddWebhookWithID ParseRequestURI uuid (fromV0WebhookToV1Subscription w) s = (s', Ret id) ∧
    rep s' pw (<[id := migrated_hook w]> subs).
Proof.
  intros Hu Hr (<- & Hid & He & Huri & Hutf) Hn. destruct (action_event _ He) as [Ht Hev].
  destruct (webhooks_correct ParseRequestURI s pw subs uuid (fromV0WebhookToV1Subscription w) _ Hr Ht Hev Huri Hu Hid Hutf)
    as (_ & Hadd & _). destruct (Hadd Hn) as (d & E & Hr'). eauto.
Qed.
Lemma add_all_migrated (l : list V0.Webhook) (s : WebhookStores S0 S W) pw subs : good_key uuid → rep (ws_v1 s) pw subs →
  NoDup (V0.wh_ID <$> l) → (∀ w, w ∈ l → good_webhook (V0.wh_ID w) w ∧ subs !! V0.wh_ID w = None) →
  ∃ s', each (λ v, _ ← on_v1 (S0 := S0) (AddWebhookWithID ParseRequestURI uuid v); mret ()) (fromV0WebhookToV1Subscription <$> l) s
        = (s', Ret ()) ∧ ws_v0 s' = ws_v0 s ∧ rep (ws_v1 s') pw (list_to_map ((λ w, (V0.wh_ID w, migrated_hook w)) <$> l) ∪ subs).
Proof.
  intros Hu. revert s subs. induction l as [|w l IH]; intros s subs Hr Hnd Hl; cbn [fmap list_fmap each].
  { exists s. split_and!; [done..|]. cbn. by rewrite (left_id_L ∅ (∪)). }
  apply NoDup_cons in Hnd as [Hw Hnd]. destruct (Hl w) as [Hg Hn]; [by left|].
  destruct (add_migrated _ _ _ _ _ Hu Hr Hg Hn) as (s1 & E1 & Hr1).
  destruct (IH {| ws_v0 := ws_v0 s; ws_v1 := s1 |} (<[V0.wh_ID w := migrated_hook w]> subs)) as (s2 & E2 & E0 & Hr2); [done|done| |].
  { intros x Hx. destruct (Hl x) as [Hgx Hnx]; [by right|]. split; [done|]. rewrite lookup_insert_ne; [done|].
    intros E. apply Hw. rewrite E. by apply list_elem_of_fmap_2. }
  exists s2. split_and!.
  - unfold mbind, action_bind, on_v1. rewrite E1. cbn. exact E2.
  - by rewrite E0.
  - cbn [fmap list_fmap list_to_map foldr fst snd]. rewrite <- insert_union_l, insert_union_r; [done|]. apply not_elem_of_list_to_map_1.
    rewrite <- list_fmap_compose. exact Hw.
Qed.
Lemma decode_all m hooks : newWebhookFromBytes <$> m = Ret <$> hooks → (∀ id w, hooks !! id = Some w → V0.wh_ID w = id) →
  ∃ l, V0.decode_webhooks newWebhookFromBytes (range_values m) = Ret l ∧ V0.wh_ID <$> l = (range_items m).*1 ∧
    ∀ w, w ∈ l → hooks !! V0.wh_ID w = Some w.
Proof.
  intros Hm Hid. unfold range_values.
  assert (∀ kb, kb ∈ range_items m → ∃ w, hooks !! kb.1 = Some w ∧ newWebhookFromBytes kb.2 = Ret w) as Hkb.
  { intros [k b]. unfold range_items. rewrite range_order_perm, elem_of_map_to_list. intros Hb.
    assert ((newWebhookFromBytes <$> m) !! k = Some (newWebhookFromBytes b)) as E by (by rewrite lookup_fmap, Hb).
    rewrite Hm, lookup_fmap in E. destruct (hooks !! k) as [w|] eqn:Ew; [|done]. injection E as E. exists w. done. }
  revert Hkb. generalize (range_items m) as items. induction items as [|[k b] items IH]; intros Hkb; [by exists []; split_and!; [..|intros ? ?%elem_of_nil]|].
  destruct (Hkb (k, b)) as (w & Hw & Hb); [by left|]. destruct IH as (l & El & Eid & Hl); [intros; apply Hkb; by right|].
  exists (w :: l). cbn in Hw, Hb. cbn. rewrite Hb; cbn. rewrite El; cbn. split_and!; [done|by rewrite (Hid _ _ Hw), <- Eid|].
  intros x [->|Hx]%elem_of_cons; [by rewrite (Hid _ _ Hw) | by apply Hl].
Qed.
Lemma collected_hooks l m hooks : newWebhookFromBytes <$> m = Ret <$> hooks → (∀ id w, hooks !! id = Some w → V0.wh_ID w = id) →
  V0.wh_ID <$> l = (range_items m).*1 → (∀ w, w ∈ l → hooks !! V0.wh_ID w = Some w) →
  list_to_map ((λ w, (V0.wh_ID w, migrated_hook w)) <$> l) ∪ ∅ = migrated_hook <$> hooks.
Proof.
  intros Hm Hid Eid Hl. rewrite (right_id_L ∅ (∪)).
  assert (NoDup (((λ w, (V0.wh_ID w, migrated_hook w)) <$> l).*1)) as Hnd
    by (rewrite <- list_fmap_compose; change (NoDup (V0.wh_ID <$> l)); rewrite Eid; apply range_items_keys).
  apply map_eq. intros k. apply option_eq. intros x. rewrite <- elem_of_list_to_map, lookup_fmap_Some, list_elem_of_fmap by done. split.
  - intros (w & [= -> ->] & Hw). eauto.
  - intros (w & <- & Hw). exists w. rewrite (Hid _ _ Hw). split; [done|].
    assert (k ∈ V0.wh_ID <$> l) as (w' & -> & Hw')%list_elem_of_fmap.
    { rewrite Eid, list_elem_of_fmap. assert ((newWebhookFromBytes <$> m) !! k = Some (Ret w)) as E by (by rewrite Hm, lookup_fmap, Hw).
      apply lookup_fmap_Some in E as (b & _ & Hb). exists (k, b). unfold range_items. by rewrite range_order_perm, elem_of_map_to_list. }
    specialize (Hl w' Hw'). rewrite Hw in Hl. by injection Hl as ->.
Qed.

(** the webhooks survive the migration: with the password of the v0 store, every
    webhook it holds is, under its id, with its event, endpoint and secret, in the new
    store, which holds nothing else and opens with the same password, and the v0 store
    keeps what it had; with another password nothing is migrated. *)
Theorem webhooks_migrated (s : WebhookStores S0 S W) password c m hooks : good_key uuid →
  holds (ws_v0 s) (string_bytes password) c → blank (store (ws_v1 s)) → c !! V0.hooksBucket = Some m →
  newWebhookFromBytes <$> m = Ret <$> hooks → (∀ id w, hooks !! id = Some w → good_webhook id w) →
  (∃ s', migrate_webhooks ParseRequestURI newWebhookFromBytes uuid password s = (s', Ret ()) ∧
     rep (ws_v1 s') (string_bytes password) (migrated_hook <$> hooks) ∧ holds (ws_v0 s') (string_bytes password) c) ∧
  (∀ password', string_bytes password' ≠ string_bytes password → ss_IsLocked (ws_v0 s) = true →
     ∃ e, migrate_webhooks ParseRequestURI newWebhookFromBytes uuid password' s = (s, Err e)).
Proof.
  intros Hu Hh Hb Hc Hm Hgood. assert (∀ id w, hooks !! id = Some w → V0.wh_ID w = id) as Hid
    by (intros id w Hw; by destruct (Hgood id w Hw)).
  split.
  - destruct (unlock_law _ _ _ Hh) as (d0 & E0 & Hh0 & Ho0). pose proof (get_all_law _ _ _ _ _ Hh0 Ho0 Hc) as Eall.
    destruct (init_ok (store (ws_v1 s)) (net (ws_v1 s)) (string_bytes password) Hb) as (d1 & d2 & Ei & _ & Eu & Hrep).
    destruct (decode_all m hooks Hm Hid) as (l & Edec & Eid & Hl).
    destruct (add_all_migrated l {| ws_v0 := d0; ws_v1 := {| store := d2; net := net (ws_v1 s) |} |} _ _ Hu Hrep) as (s' & Erun & Ev0 & Hr).
    { rewrite Eid. apply range_items_keys. }
    { intros w Hw. split; [by apply Hgood, Hl | apply lookup_empty]. }
    exists s'. rewrite (collected_hooks l m hooks) in Hr by done. rewrite Ev0. split; [|done].
    unfold migrate_webhooks, on_v0, on_v1_store, on_v1, on_store, V0.Unlock, V0.GetAllWebhooks, mbind, action_bind, lift. cbn [ws_v0 ws_v1].
    rewrite E0; cbn. rewrite Ei; cbn. rewrite Eu; cbn. rewrite Eall; cbn. rewrite Edec; cbn. exact Erun.
  - intros password' Hne Hlk. destruct (unlock_wrong_law _ _ _ _ Hh Hlk Hne) as [e E]. exists e.
    unfold migrate_webhooks, on_v0, V0.Unlock, mbind, action_bind. rewrite E. by destruct s.
Qed.
End webhook_theorems.

(** * Examples *)
Module MigrationExamples.
Import MapperExamples SecureStoreExamples PubsubExamples SwapExamples BadgerExamples.
#[local] Existing Instance MapperExamples.paths.
#[local] Existing Instance SwapMsg.service.

(** Transaction aa is in block 10 and its first output was spent in block 12. *)
Definition answers (url : string) : outcome error Response :=
  let ok j := Ret {| rp_StatusCode := 200; rp_Body := "0200"; rp_json := Some j |} in
  if bool_decide (url = "http://localhost:3001//tx/aa/outspends"%string) then
    ok (JArray [JObject [("spent", JBool true); ("txid", JString "bb"); ("status", JObject [
                  ("block_hash", JString "h12"); ("block_height", JNumber 12 0); ("block_time", JNumber 1200 0)])];
                JObject [("spent", JBool false)]]%string)
  else ok (JObject [("block_hash", JString "h10"); ("block_height", JNumber 10 0); ("block_time", JNumber 1000 0)]%string).
Definition explorer : Explorer := http_explorer "liquid" "testnet" "regtest" answers.
Definition clock (u : V0.Unspent) : Z * Z := (100, 160).
Definition lbtc (net : string) : string := "aabbcc".
Definition utxos : list V1.Utxo := match FromV0UnspentsToV1Utxos db clock unspents with Ret l => l | _ => [] end.
Definition utxos' : list V1.Utxo := match with_statuses explorer "regtest" utxos with Ret l => l | _ => [] end.
Lemma utxos_run : with_statuses explorer "regtest" utxos = Ret utxos'.
Proof. vm_compute. reflexivity. Qed.
Lemma utxos_keys : NoDup (V1.ut_Key <$> utxos).
Proof. repeat constructor; set_solver. Qed.
Lemma utxos_refreshed_witness : NoDup (V1.ut_Key <$> utxos) ∧ length utxos = 2%nat ∧
  with_statuses explorer "regtest" utxos = Ret utxos' ∧ Forall2 (refreshed explorer "regtest") utxos utxos'.
Proof.
  split; [exact utxos_keys|]. split; [reflexivity|]. split; [exact utxos_run|].
  exact (utxos_refreshed explorer "regtest" utxos utxos' utxos_keys utxos_run).
Defined.
Example spent_in_12 : (λ u, (V1.us_BlockHeight (V1.ut_ConfirmedStatus u), V1.us_BlockHeight (V1.ut_SpentStatus u))) <$> utxos' = [(10, 12); (10, 0)].
Proof. vm_compute. reflexivity. Qed.

Abbreviation St := (Stores (disk Market) (disk MarketPrice) (disk Trade) (disk Deposit) (disk Withdrawal) (disk V1.Wallet) (disk V1.Utxo) (disk V1.Transaction)).
Definition new_stores : St := {|
  st_markets := empty_store; st_trades := empty_disk; st_deposits := empty_disk; st_withdrawals := empty_disk;
  oc_wallet := empty_disk; oc_utxos := empty_disk; oc_txs := empty_disk |}.
Lemma new_stores_fresh : Migration.fresh new_stores.
Proof. by split_and!. Qed.
Definition run : St * outcome error () := migrate_stores hash lbtc explorer clock db "pwd" new_stores.
Lemma run_returns : snd run = Ret ().
Proof. vm_compute. reflexivity. Qed.

(** A v0 store with one webhook. *)
Definition old_hook : V0.Webhook := {| V0.wh_ID := "id1"; V0.wh_ActionType := 3; V0.wh_Endpoint := "http://localhost"; V0.wh_Secret := "" |}.
Definition read_hook (b : bytes) : outcome error V0.Webhook := if bool_decide (b = [9]) then Ret old_hook else Err (Errorf "json").
Definition pwd : bytes := string_bytes "pwd".
Definition v0_store : boltSecureStorage tree key :=
  fst (ss_AddToBucket V0.hooksBucket "id1" [9] (fst (ss_CreateBucket V0.hooksBucket (fst (ss_CreateUnlock pwd SecureStoreExamples.fresh))))).
Lemma v0_store_holds : holds v0_store pwd {[V0.hooksBucket := {["id1"%string := [9]]}]}.
Proof.
  destruct (create_law SecureStoreExamples.fresh pwd fresh_blank) as (d1 & E1 & H1 & O1).
  destruct (bucket_law d1 pwd ∅ V0.hooksBucket H1 O1) as (d2 & E2 & O2 & H2); [by split|].
  destruct (add_law d2 pwd _ V0.hooksBucket ∅ "id1" [9] H2 O2) as (d3 & E3 & _ & H3); [done|by split|done|].
  unfold v0_store. rewrite E1; cbn [fst]. rewrite E2; cbn [fst]. rewrite E3; cbn [fst]. exact H3.
Qed.
Definition webhook_stores : WebhookStores (boltSecureStorage tree key) (boltSecureStorage tree key) wire :=
  {| ws_v0 := v0_store; ws_v1 := {| store := SecureStoreExamples.fresh; net := [] |} |}.
Definition old_hooks : gmap string V0.Webhook := {["id1"%string := old_hook]}.
Lemma old_hook_good id w : old_hooks !! id = Some w → good_webhook (λ _, true) id w.
Proof. unfold old_hooks. intros [<- <-]%lookup_singleton_Some. split_and!; done. Qed.
Lemma webhooks_migrated_witness : holds v0_store pwd {[V0.hooksBucket := {["id1"%string := [9]]}]} ∧
  ∃ s', migrate_webhooks (λ _, true) read_hook "id2" "pwd" webhook_stores = (s', Ret ()) ∧
    rep (ws_v1 s') pwd (migrated_hook <$> old_hooks).
Proof.
  split; [exact v0_store_holds|].
  destruct (webhooks_migrated (λ _, true) read_hook "id2" webhook_stores "pwd" {[V0.hooksBucket := {["id1"%string := [9]]}]}
              {["id1"%string := [9]]} old_hooks) as [(s' & E & Hr & _) _];
    [split; discriminate | exact v0_store_holds | exact fresh_blank | reflexivity | reflexivity | exact old_hook_good |].
  exists s'. split; [exact E | exact Hr].
Defined.
End MigrationExamples.
