(* ===== verification/MigrationFiles.v ===== *)
(** cmd/migration/v0-v1/service.go, files: the datadirs of the migration.

    A path is the list of its components, paths being absolute; the disk maps paths to
    files, without symbolic links.  What may fail is decided by the record [FsEnv].
    The databases are opened in their directories; what happens in them is Migration.v,
    here an action [stores] and an action [hooks] on a state of their own.  [copyDir]
    goes through the tree as the recursion does, a directory before what is in it. *)

From Stdlib Require Import ZArith Lia Ascii.
From stdpp Require Import base tactics strings list gmap sorting.
From S2P Require Import Prelude Errors Decimal Market Trade Repos SecureStore Pubsub Interface MigrationV0 Mapper.
Local Open Scope Z_scope.

(** * Paths and files *)
Abbreviation path := (list string).
Abbreviation disk := (gmap path file).
Definition under (dir p : path) : Prop := dir `prefix_of` p.
#[global] Instance under_dec dir p : Decision (under dir p) := _.

(** filepath.Dir and filepath.Base of a clean path. *)
Definition Dir (p : path) : path := removelast p.
Definition Base (p : path) : string := default "/"%string (last p).
Definition lower (c : ascii) : ascii :=
  let n := nat_of_ascii c in if ((65 <=? n) && (n <=? 90))%nat then ascii_of_nat (n + 32) else c.
Fixpoint ToLower (s : string) : string :=
  match s with EmptyString => EmptyString | String c s => String (lower c) (ToLower s) end.

(** What decides the outcome of the calls to the system: creating a directory,
    creating and writing a file, opening a database in a directory, removing; [tar] and
    [gzip] are what the two writers make of what they are given. *)
Record FsEnv := {
  fe_MkdirAll : path → bool; fe_Create : path → bool; fe_Open : path → bool; fe_RemoveAll : path → bool;
  fe_tar : list (path * file) → bytes; fe_gzip : bytes → bytes }.

Definition constants_dbDir : string := "db".
Definition tlsDir : string := "tls".
Definition macaroonsDbFile : string := "macaroons.db".
Definition macaroonsDir : string := "macaroons".
Definition pubSubDbFile : string := "pubsub.db".
Definition tdexTempDatadirName : string := ".tdex-daemon-tmp".
Definition oceanTempDatadirName : string := ".oceand-tmp".

(** The order of a walk: by the names of the components. *)
Fixpoint path_le (p q : path) : Prop :=
  match p, q with
  | [], _ => True
  | _ :: _, [] => False
  | a :: p, b :: q => if decide (a = b) then path_le p q else String.le a b
  end.
#[global] Instance path_le_dec p q : Decision (path_le p q).
Proof. revert q. induction p as [|a p IH]; intros [|b q]; simpl; try apply _. destruct (decide (a = b)); apply _. Defined.
Definition entry_le (kv kv' : path * file) : Prop := path_le kv.1 kv'.1.
#[global] Instance entry_le_dec kv kv' : Decision (entry_le kv kv') := path_le_dec _ _.
(** A path and the directories it is in. *)
Definition prefixes (p : path) : list path := (λ n, take n p) <$> seq 0 (Datatypes.S (length p)).

(** Every entry is in a directory, and everything can be read. *)
Definition wf (fs : disk) : Prop :=
  ∀ p f, fs !! p = Some f → f ≠ Inaccessible ∧ (p ≠ [] → fs !! Dir p = Some Directory).

Section files.
Variable env : FsEnv.
Abbreviation act := (action disk error).
Definition fail {A} (msg : string) : act A := lift (Err (Errorf msg)).

(** os.RemoveAll: its error is never looked at; when it fails nothing is removed. *)
Definition RemoveAll (dir : path) (fs : disk) : disk :=
  if fe_RemoveAll env dir then filter (λ kv, ¬ under dir kv.1) fs else fs.
Definition exists_ (fs : disk) (p : path) : bool := bool_decide (is_Some (fs !! p)).
(** os.Stat returns no error. *)
Definition accessible (fs : disk) (p : path) : bool :=
  match fs !! p with Some Inaccessible | None => false | _ => true end.

(** os.Create: the parent is a directory and the path is not one. *)
Definition creatable (fs : disk) (p : path) : bool :=
  fe_Create env p && match fs !! Dir p with Some Directory => true | _ => false end
  && match fs !! p with Some Directory | Some Inaccessible => false | _ => true end.
Definition write_file (p : path) (f : file) : act () := λ fs,
  if creatable fs p then (<[p := f]> fs, Ret ()) else (fs, Err (Errorf "create")).
(** os.MkdirAll makes the parents that are missing; what is there has to be a directory. *)
Definition mkdirs (fs : disk) (p : path) : disk := fs ∪ gset_to_gmap Directory (list_to_set (prefixes p)).
Definition dir_or_missing (fs : disk) (p : path) : bool :=
  match fs !! p with None | Some Directory => true | _ => false end.
Definition MkdirAll (p : path) : act () := λ fs,
  if fe_MkdirAll env p && forallb (dir_or_missing fs) (prefixes p) then (mkdirs fs p, Ret ()) else (fs, Err (Errorf "mkdir")).
Definition copyFile (src dst : path) : act () := λ fs,
  match fs !! src with
  | Some (Regular content mode) => write_file dst (Regular content mode) fs
  | _ => (fs, Err (Errorf "open"))
  end.
(** The directory itself: made when it is missing. *)
Definition copy_dir_entry (dst : path) : act () := λ fs,
  match fs !! dst with
  | None => MkdirAll dst fs
  | Some Inaccessible => (fs, Err (Errorf "stat"))
  | Some _ => (fs, Ret ())
  end.
Definition rebase (src dst p : path) : path := dst ++ drop (length src) p.
Definition copy_entry (src dst : path) (kv : path * file) : act () :=
  match kv.2 with
  | Directory => copy_dir_entry (rebase src dst kv.1)
  | Regular _ _ => copyFile kv.1 (rebase src dst kv.1)
  | Inaccessible => fail "stat"
  end.
Fixpoint copy_entries (src dst : path) (l : list (path * file)) : act () :=
  match l with [] => mret () | kv :: l => _ ← copy_entry src dst kv; copy_entries src dst l end.
(** What is in a directory, below it: a directory before what is in it, the entries of
    a directory by name, as os.ReadDir and filepath.Walk give them. *)
Definition tree_of (fs : disk) (dir : path) : list (path * file) :=
  filter (λ kv, under dir kv.1 ∧ kv.1 ≠ dir) (merge_sort entry_le (map_to_list fs)).
Definition copyDir (src dst : path) : act () := λ fs,
  match fs !! src with
  | None | Some Inaccessible => (fs, Err (Errorf "stat"))
  | Some (Regular _ _) => (fs, Err (Errorf "source is not a directory"))
  | Some Directory =>
      (_ ← copy_dir_entry dst; copy_entries src dst (tree_of fs src)) fs
  end.

(** ** archiveAndCompress *)

(** Walking the source ends at the first entry that cannot be read; a source that
    cannot be read itself leaves an empty archive. *)
Definition unreadable (f : file) : bool := match f with Inaccessible => true | _ => false end.
Fixpoint readable (l : list (path * file)) : list (path * file) :=
  match l with
  | [] => []
  | kv :: l => if unreadable kv.2 then [] else kv :: readable l
  end.
Definition tar (source target : path) : act () := λ fs,
  if negb (creatable fs target) then (fs, Err (Errorf "create"))
  else
    let written := λ l, <[target := Regular (fe_tar env l) 420]> fs in
    match fs !! source with
    | None | Some Inaccessible => (written [], Ret ())
    | Some f =>
        let entries := (source, f) :: tree_of fs source in
        (written (readable entries),
         if existsb (unreadable ∘ snd) entries then Err (Errorf "open") else Ret ())
    end.
Definition gzip (source target : path) : act () := λ fs,
  match fs !! source with
  | Some (Regular content _) => write_file target (Regular (fe_gzip env content) 420) fs
  | _ => (fs, Err (Errorf "open"))
  end.
Definition tar_name (source : path) : string := Base source +:+ ".tar".
(** The archive that is compressed has the name of the directory in lower case. *)
Definition tarfile (source dest : path) : path := dest ++ [ToLower (Base source) +:+ ".tar"].
Definition archive (source dest : path) : path := dest ++ [(ToLower (Base source) +:+ ".tar") +:+ ".gz"].
Definition archiveAndCompress (source dest : path) : act () := λ fs,
  match tar source (dest ++ [tar_name source]) fs with
  | (fs, Ret _) =>
      let '(fs, o) := gzip (tarfile source dest) (archive source dest) fs in
      (RemoveAll (tarfile source dest) fs, o)
  | r => r
  end.

(** ** migrateTls and migrateMacaroons *)
Definition migrateTls (fromDir toDir : path) : act () := λ fs,
  if exists_ fs (fromDir ++ [tlsDir]) then copyDir (fromDir ++ [tlsDir]) (toDir ++ [tlsDir]) fs else (fs, Ret ()).
Definition migrateMacaroons (fromDir toDir : path) : act () := λ fs,
  let sourceDB := fromDir ++ [constants_dbDir; macaroonsDbFile] in
  let destDBDir := toDir ++ [constants_dbDir] in
  if negb (exists_ fs sourceDB) then (fs, Ret ())
  else (_ ← (if exists_ fs destDBDir then mret () else MkdirAll destDBDir : act ());
        _ ← copyFile sourceDB (destDBDir ++ [macaroonsDbFile]);
        copyDir (fromDir ++ [macaroonsDir]) (toDir ++ [macaroonsDir])) fs.
End files.

(** * The migration *)
Section migrate.
Variable env : FsEnv.
(** The databases: their state, the vault that is read first, the two migrations. *)
Context {S : Type}.
Variable vault : outcome error V0.Vault.
Variable validPassword : V0.Vault → string → bool.
Variables stores hooks : string → action S error ().

Record State := { ms_disk : disk; ms_db : S }.
Abbreviation act := (action State error).
Definition on_disk {A} (m : action disk error A) : act A := λ s,
  let '(d, o) := m (ms_disk s) in ({| ms_disk := d; ms_db := ms_db s |}, o).
Definition on_db {A} (m : action S error A) : act A := λ s,
  let '(d, o) := m (ms_db s) in ({| ms_disk := ms_disk s; ms_db := d |}, o).

(** Opening a database makes its directory when it is missing. *)
Definition open_db (dir : path) : act () := on_disk (λ fs,
  if fe_Open env dir && forallb (dir_or_missing fs) (prefixes dir) then (mkdirs fs dir, Ret ())
  else (fs, Err (Errorf "opening db: %w"))).
Fixpoint open_dbs (dir : path) (names : list string) : act () :=
  match names with [] => mret () | n :: names => _ ← open_db (dir ++ [n]); open_dbs dir names end.

(** The secure store makes the directory its file is in, not its parents, and the file when
    it is missing; the error of os.Mkdir is not looked at. *)
Definition open_bolt_dir (dir : path) : action disk error () := λ fs,
  match fs !! dir, fs !! Dir dir with
  | None, Some Directory => if fe_MkdirAll env dir then (<[dir := Directory]> fs, Ret ()) else (fs, Ret ())
  | _, _ => (fs, Ret ())
  end.
Definition open_bolt_file (dir : path) (name : string) : action disk error () := λ fs,
  match fs !! dir, fe_Open env (dir ++ [name]), fs !! (dir ++ [name]) with
  | Some Directory, true, None => (<[dir ++ [name] := Regular [] 384]> fs, Ret ())
  | Some Directory, true, Some (Regular _ _) => (fs, Ret ())
  | _, _, _ => (fs, Err (Errorf "opening db: %w"))
  end.
Definition open_bolt (dir : path) (name : string) : act () :=
  on_disk (_ ← open_bolt_dir dir; open_bolt_file dir name).

(** Every error is wrapped. *)
Definition wrap (msg : string) (m : act ()) : act () := λ s, match m s with (s, Err _) => (s, Err (Errorf msg)) | r => r end.

Definition migrateDomain (v0Datadir v1Datadir oceanDatadir : path) (password : string) : act () :=
  _ ← open_dbs (v0Datadir ++ [constants_dbDir]) ["main"; "prices"; "unspents"]%string;
  v ← lift vault;
  if negb (validPassword v password) then lift (Err (Errorf "invalid password"))
  else
    _ ← open_dbs (oceanDatadir ++ [V0.va_Network v; constants_dbDir]) ["wallet"; "utxos"; "txs"]%string;
    _ ← open_dbs (v1Datadir ++ [constants_dbDir]) ["markets"; "prices"; "trades"; "transactions"]%string;
    on_db (stores password).
Definition migrateWebhooks (fromDir toDir : path) (password : string) : act () :=
  _ ← open_bolt (fromDir ++ [constants_dbDir]) pubSubDbFile;
  _ ← open_bolt (toDir ++ [constants_dbDir]) pubSubDbFile;
  on_db (hooks password).
Definition migrate (v0Datadir v1Datadir oceanDatadir : path) (password : string) : act () :=
  _ ← wrap "error while migrating domains: %s" (migrateDomain v0Datadir v1Datadir oceanDatadir password);
  _ ← wrap "error while migrating webhooks: %s" (migrateWebhooks v0Datadir v1Datadir password);
  _ ← wrap "error while migrating tls: %s" (on_disk (migrateTls env v0Datadir v1Datadir));
  wrap "error while migrating macaroons: %s" (on_disk (migrateMacaroons env v0Datadir v1Datadir)).

(** The flags; [expand] replaces a leading ~ and the environment variables. *)
Record Flags := { fl_password : string; fl_v0 : string; fl_v1 : string; fl_ocean : string; fl_noBackup : bool }.
Variable expand : string → string.
Definition cleanAndExpandPath (p : string) : path := clean_parts true (expand p).
Definition v0Datadir (f : Flags) : path := cleanAndExpandPath (fl_v0 f).
Definition v1Datadir (f : Flags) : path := cleanAndExpandPath (fl_v1 f).
Definition oceanDatadir (f : Flags) : path := cleanAndExpandPath (fl_ocean f).
Definition v1DatadirTemp (f : Flags) : path := Dir (v1Datadir f) ++ [tdexTempDatadirName].
Definition oceanDatadirTemp (f : Flags) : path := Dir (v1Datadir f) ++ [oceanTempDatadirName].

(** Everything up to the removal of the old datadir. *)
Definition prepare (f : Flags) : act () :=
  s ← get_state;
  let fs := ms_disk s in
  if negb (exists_ fs (v0Datadir f)) then lift (Err (Errorf "v0 datadir not found: %s"))
  else if negb (bool_decide (v1Datadir f = v0Datadir f)) && accessible fs (v1Datadir f)
  then lift (Err (Errorf "v1 datadir already existing, either delete it or change the output path with --v1-datadir flag"))
  else if accessible fs (oceanDatadir f)
  then lift (Err (Errorf "ocean datadir already existing, either delete it or change the output path with --ocean-datadir flag"))
  else
    _ ← migrate (v0Datadir f) (v1DatadirTemp f) (oceanDatadirTemp f) (fl_password f);
    if fl_noBackup f then mret ()
    else wrap "failed to created compressed archive of v0 datadir: %s"
           (on_disk (archiveAndCompress env (v0Datadir f) (v1DatadirTemp f))).
Definition remove (dir : path) : act () := on_disk (λ fs, (RemoveAll env dir fs, Ret ())).
(** The old datadir is removed and the new ones are put in place. *)
Definition install (f : Flags) : act () :=
  _ ← remove (v0Datadir f);
  _ ← on_disk (copyDir env (v1DatadirTemp f) (v1Datadir f));
  on_disk (copyDir env (oceanDatadirTemp f) (oceanDatadir f)).
(** The deferred function removes the temporary datadirs however the rest ends. *)
Definition deferred (f : Flags) (m : act ()) : act () := λ s,
  let '(s, o) := m s in
  ({| ms_disk := RemoveAll env (oceanDatadirTemp f) (RemoveAll env (v1DatadirTemp f) (ms_disk s)); ms_db := ms_db s |}, o).
Definition Migrate (f : Flags) : act () :=
  if bool_decide (fl_password f = ""%string) then lift (Err (Errorf "missing password"))
  else deferred f (_ ← prepare f; install f).
End migrate.

(** * Paths *)
Lemma elem_of_prefixes q p : q ∈ prefixes p ↔ under q p.
Proof.
  unfold prefixes, under. rewrite list_elem_of_fmap. split.
  - intros (n & -> & _). apply prefix_take.
  - intros [k ->]. exists (length q). rewrite take_app_length. split; [done|]. apply elem_of_seq. rewrite length_app. lia.
Qed.
Lemma mkdirs_lookup fs p q :
  mkdirs fs p !! q = match fs !! q with Some f => Some f | None => if decide (under q p) then Some Directory else None end.
Proof.
  unfold mkdirs. destruct (fs !! q) as [f|] eqn:E; [by apply lookup_union_Some_l|].
  rewrite lookup_union_r by done. case_decide as U.
  - apply lookup_gset_to_gmap_Some. split; [|done]. by apply elem_of_list_to_set, elem_of_prefixes.
  - apply lookup_gset_to_gmap_None. by rewrite elem_of_list_to_set, elem_of_prefixes.
Qed.
Lemma under_refl p : under p p. Proof. unfold under. done. Qed.
Lemma under_app p q : under p (p ++ q). Proof. by exists q. Qed.
Lemma under_trans p q r : under p q → under q r → under p r.
Proof. unfold under. apply transitivity. Qed.
Lemma Dir_app p a : Dir (p ++ [a]) = p.
Proof. apply removelast_last. Qed.
Lemma path_last (p : path) : p = [] ∨ ∃ q a, p = q ++ [a].
Proof. destruct p as [|a q _] using rev_ind; eauto. Qed.
Lemma under_Dir p : under (Dir p) p.
Proof. destruct (path_last p) as [->|(q & a & ->)]; [done|]. rewrite Dir_app. apply under_app. Qed.
(** A proper ancestor is an ancestor of the parent. *)
Lemma under_parent q p : under q p → q ≠ p → under q (Dir p).
Proof.
  intros [k ->] ne. destruct (path_last k) as [->|(k' & a & ->)]; [by rewrite app_nil_r in ne|].
  rewrite app_assoc, Dir_app. apply under_app.
Qed.
Lemma longer_not_under p q : q ≠ [] → ¬ under (p ++ q) p.
Proof. intros ne [k e]. apply (f_equal length) in e. rewrite !length_app in e. destruct q; [done|]. simpl in e. lia. Qed.
Definition apart (p q : path) : Prop := ¬ under p q ∧ ¬ under q p.
Lemma apart_sym p q : apart p q → apart q p. Proof. unfold apart. tauto. Qed.
(** Two paths that have a common path below them are nested. *)
Lemma under_comparable p q r : under p r → under q r → under p q ∨ under q p.
Proof. unfold under. apply prefix_weak_total. Qed.
Lemma apart_below p q r : apart p q → under p r → ¬ under q r.
Proof. intros [A B] P Q. by destruct (under_comparable p q r P Q). Qed.

Lemma siblings_apart (p : path) a b : a ≠ b → apart (p ++ [a]) (p ++ [b]).
Proof.
  intros ne. assert (∀ x y : string, x ≠ y → ¬ under (p ++ [x]) (p ++ [y])) as K; [|split; auto].
  intros x y xy U. apply under_parent in U; [|by intros [= ->]%app_inv_head]. rewrite Dir_app in U.
  by apply longer_not_under in U.
Qed.

(** ** The order of a walk *)
#[global] Instance path_le_trans : Transitive path_le.
Proof.
  intros p. induction p as [|a p IH]; [done|]. intros [|b q]; [done|]. intros [|c r]; [by intros|]. simpl.
  destruct (decide (a = b)) as [->|ab], (decide (b = c)) as [->|bc].
  - apply IH.
  - done.
  - by rewrite decide_False.
  - intros P Q. rewrite decide_False; [by transitivity b|]. intros ->. apply ab. by apply (anti_symm String.le).
Qed.
#[global] Instance path_le_total : Total path_le.
Proof.
  intros p. induction p as [|a p IH]; intros [|b q]; simpl; auto.
  destruct (decide (a = b)) as [->|ab]; [|rewrite decide_False by congruence; apply (total String.le)].
  rewrite decide_True by done. apply IH.
Qed.
Lemma path_le_parent p : p ≠ [] → ¬ path_le p (Dir p).
Proof.
  destruct (path_last p) as [->|(q & a & ->)]; [done|]. intros _. rewrite Dir_app.
  induction q as [|b q IH]; [by intros []|]. simpl. by rewrite decide_True.
Qed.
Lemma path_le_refl p : path_le p p.
Proof. destruct (total path_le p p); done. Qed.
#[global] Instance entry_le_trans : Transitive entry_le.
Proof. intros ???. apply path_le_trans. Qed.
#[global] Instance entry_le_total : Total entry_le.
Proof. intros ??. apply path_le_total. Qed.

Lemma elem_of_tree fs dir kv : kv ∈ tree_of fs dir ↔ under dir kv.1 ∧ kv.1 ≠ dir ∧ fs !! kv.1 = Some kv.2.
Proof.
  unfold tree_of. rewrite list_elem_of_filter, (merge_sort_Permutation entry_le). destruct kv as [p f].
  rewrite elem_of_map_to_list. simpl. tauto.
Qed.
Lemma tree_NoDup fs dir : NoDup (tree_of fs dir).*1.
Proof.
  unfold tree_of. eapply (sublist_NoDup _ (merge_sort entry_le (map_to_list fs)).*1).
  - rewrite (merge_sort_Permutation entry_le). apply NoDup_fst_map_to_list.
  - apply fmap_sublist, sublist_filter.
Qed.
Lemma StronglySorted_filter {A} (R : relation A) (P : A → Prop) `{∀ x, Decision (P x)} l :
  StronglySorted R l → StronglySorted R (filter P l).
Proof.
  induction 1 as [|x l S IH F]; [constructor|]. rewrite filter_cons. case_decide; [|done].
  constructor; [done|]. rewrite Forall_forall in *. intros y [_ ?]%list_elem_of_filter. auto.
Qed.
Lemma tree_sorted fs dir : StronglySorted entry_le (tree_of fs dir).
Proof. apply StronglySorted_filter, StronglySorted_merge_sort; apply _. Qed.
(** The directory an entry is in comes before it. *)
Lemma tree_parent_first fs dir l1 kv l2 :
  wf fs → tree_of fs dir = l1 ++ kv :: l2 → Dir kv.1 = dir ∨ (Dir kv.1, Directory) ∈ l1.
Proof.
  intros W E. assert (kv ∈ tree_of fs dir) as (U & ne & L)%elem_of_tree by (rewrite E; set_solver).
  assert (kv.1 ≠ []) as kne by (intros K; rewrite K in *; apply ne; by apply prefix_nil_inv in U).
  destruct (W _ _ L) as [_ D]. specialize (D kne).
  destruct (decide (Dir kv.1 = dir)) as [|dne]; [by left|right].
  assert ((Dir kv.1, Directory) ∈ tree_of fs dir) as M.
  { apply elem_of_tree. split; [by apply under_parent; [|congruence]|done]. }
  rewrite E in M. apply elem_of_app in M as [|M]; [done|exfalso].
  pose proof (tree_sorted fs dir) as S. rewrite E in S. apply StronglySorted_app_1_r in S.
  apply elem_of_cons in M as [M|M].
  - apply (path_le_parent kv.1 kne). apply (f_equal fst) in M. simpl in M. rewrite M. apply path_le_refl.
  - apply StronglySorted_inv in S as [_ S]. rewrite Forall_forall in S. specialize (S _ M). by apply (path_le_parent kv.1).
Qed.

(** * The disk stays well formed *)
Lemma wf_insert fs p f :
  wf fs → f ≠ Inaccessible → (p ≠ [] → fs !! Dir p = Some Directory) → (fs !! p = Some Directory → f = Directory) →
  wf (<[p := f]> fs).
Proof.
  intros W F D K q g L. destruct (decide (q = p)) as [->|ne].
  - rewrite lookup_insert_eq in L. simplify_eq. split; [done|]. intros pne.
    destruct (decide (Dir p = p)) as [e|n]; [|by rewrite lookup_insert_ne; auto].
    exfalso. apply (path_le_parent p pne). rewrite e. apply path_le_refl.
  - rewrite lookup_insert_ne in L by done. destruct (W _ _ L) as [G Dq]. split; [done|]. intros qne. specialize (Dq qne).
    destruct (decide (Dir q = p)) as [<-|n]; [|by rewrite lookup_insert_ne].
    by rewrite lookup_insert_eq, K.
Qed.
Lemma wf_mkdirs fs p : wf fs → forallb (dir_or_missing fs) (prefixes p) = true → wf (mkdirs fs p).
Proof.
  intros W C q f. rewrite forallb_forall in C.
  assert (∀ r, under r p → mkdirs fs p !! r = Some Directory) as up.
  { intros r U. rewrite mkdirs_lookup, decide_True by done. apply elem_of_prefixes, list_elem_of_In, C in U.
    unfold dir_or_missing in U. by destruct (fs !! r) as [[]|]. }
  rewrite mkdirs_lookup. destruct (fs !! q) as [g|] eqn:E.
  - intros [= ->]. destruct (W _ _ E) as [G D]. split; [done|]. intros ne. by rewrite mkdirs_lookup, D.
  - case_decide as U; [|done]. intros [= <-]. split; [done|]. intros _. apply up. eapply under_trans; [apply under_Dir|done].
Qed.
Lemma wf_filter fs dir : wf fs → wf (filter (λ kv, ¬ under dir kv.1) fs).
Proof.
  intros W p f [L N]%map_lookup_filter_Some. destruct (W _ _ L) as [F D]. split; [done|]. intros ne.
  apply map_lookup_filter_Some. split; [by apply D|]. simpl in *. intros U. apply N. eapply under_trans; [done|apply under_Dir].
Qed.

(** The directories an entry is in are there. *)
Lemma ancestors_present fs p q f : wf fs → fs !! p = Some f → under q p → q = p ∨ fs !! q = Some Directory.
Proof.
  intros W. revert f. induction p as [|a p IH] using rev_ind; intros f L U; [left; by apply prefix_nil_inv|].
  destruct (decide (q = p ++ [a])) as [|ne]; [by left|right]. apply under_parent in U; [|done]. rewrite Dir_app in U.
  destruct (W _ _ L) as [_ D]. rewrite Dir_app in D. specialize (D ltac:(by destruct p)).
  by destruct (IH _ D U) as [->|].
Qed.
Lemma nothing_below fs p q : wf fs → fs !! p = None → under p q → fs !! q = None.
Proof.
  intros W N U. destruct (fs !! q) eqn:E; [|done]. destruct (ancestors_present fs q p _ W E U) as [->|]; congruence.
Qed.

(** What an action does to the disk [view] shows: it stays well formed, what is there
    stays as it is outside the places where [T] holds, and there is nothing new outside the
    places where [N] holds. *)
Definition safe {S E A : Type} (view : S → disk) (T N : path → Prop) (m : action S E A) : Prop :=
  ∀ s, wf (view s) →
    wf (view (m s).1) ∧ (∀ p f, ¬ T p → view s !! p = Some f → view (m s).1 !! p = Some f) ∧
    (∀ p, ¬ N p → view s !! p = None → view (m s).1 !! p = None).
Section safe.
Context {S E : Type} (view : S → disk) (T N : path → Prop).
Abbreviation safe_ := (safe (E := E) view T N).
Lemma safe_same {A : Type} (m : action S E A) : (∀ s, view (m s).1 = view s) → safe_ m.
Proof. intros K s W. rewrite K. done. Qed.
Lemma safe_ret {A : Type} (a : A) : safe_ (mret a).
Proof. by apply safe_same. Qed.
Lemma safe_lift {A : Type} (o : outcome E A) : safe_ (lift o).
Proof. by apply safe_same. Qed.
Lemma safe_bind {A B : Type} (m : action S E A) (k : A → action S E B) : safe_ m → (∀ a, safe_ (k a)) → safe_ (m ≫= k).
Proof.
  intros M K s W. destruct (M s W) as (W1 & P1 & Q1). unfold mbind, action_bind.
  destruct (m s) as [s1 [a|e|e]]; simpl in *; [|done..].
  destruct (K a s1 W1) as (W2 & P2 & Q2). split_and!; [done|auto..].
Qed.
End safe.

Definition covers (T : path → Prop) (dir : path) : Prop := ∀ p, under dir p → T p.
Lemma covers_app T dir q : covers T dir → covers T (dir ++ q).
Proof. intros C p U. apply C. eapply under_trans; [apply under_app|done]. Qed.
Lemma covers_self T dir : covers T dir → T dir.
Proof. intros C. apply C, under_refl. Qed.
Lemma covers_below T dir q : covers T dir → T (dir ++ q).
Proof. intros C. apply C, under_app. Qed.

(** Everything in a directory, not the directory itself. *)
Definition inside (T : path → Prop) (dir : path) : Prop := ∀ p, under dir p → p ≠ dir → T p.
Lemma inside_app T dir a q : inside T dir → covers T (dir ++ a :: q).
Proof.
  intros I p U. apply I; [eapply under_trans; [apply under_app|done]|]. intros ->. by apply longer_not_under in U.
Qed.
Lemma inside_below T dir a q : inside T dir → T (dir ++ a :: q).
Proof. intros I. by apply covers_self, inside_app. Qed.

Section safe_files.
Variable env : FsEnv.
Variables T N : path → Prop.
(** The directories that are made for a place of [T]. *)
Hypothesis T_N : ∀ d p, T d → under p d → N p.
Abbreviation safe_ := (safe (λ fs : disk, fs) T N).
Lemma creatable_wf fs p content mode : wf fs → creatable env fs p = true → wf (<[p := Regular content mode]> fs).
Proof.
  unfold creatable. intros W C. destruct (fs !! Dir p) as [[]|] eqn:D; zify_bool; try done.
  apply wf_insert; [done..|]. intros K. by rewrite K in *.
Qed.
Lemma safe_insert fs p content mode :
  T p → wf fs → creatable env fs p = true →
  wf (<[p := Regular content mode]> fs) ∧
  (∀ q f, ¬ T q → fs !! q = Some f → <[p := Regular content mode]> fs !! q = Some f) ∧
  (∀ q, ¬ N q → fs !! q = None → <[p := Regular content mode]> fs !! q = None).
Proof.
  intros t W C. split_and!; [by apply creatable_wf|..].
  - intros q f nT L. rewrite lookup_insert_ne; [done|]. by intros ->.
  - intros q nN L. rewrite lookup_insert_ne; [done|]. intros ->. apply nN. by apply (T_N q), under_refl.
Qed.
Lemma safe_write p content mode : T p → safe_ (write_file env p (Regular content mode)).
Proof. intros t fs W. unfold write_file. destruct (creatable env fs p) eqn:C; [|done]. by apply safe_insert. Qed.
Lemma mkdirs_keeps fs p q f : fs !! q = Some f → mkdirs fs p !! q = Some f.
Proof. intros L. by rewrite mkdirs_lookup, L. Qed.
Lemma safe_mkdirs p {A : Type} (o o' : outcome error A) (b : bool) : (∀ q, under q p → N q) →
  safe_ (λ fs, if b && forallb (dir_or_missing fs) (prefixes p) then (mkdirs fs p, o) else (fs, o')).
Proof.
  intros U fs' W. destruct (b && _) eqn:C; [|done]. zify_bool. cbn [fst]. split_and!; [by apply wf_mkdirs|..].
  - intros q f _. apply mkdirs_keeps.
  - intros q nN L. rewrite mkdirs_lookup, L, decide_False; auto.
Qed.
Lemma safe_MkdirAll p : T p → safe_ (MkdirAll env p).
Proof. intros t. apply safe_mkdirs. eauto. Qed.
Lemma safe_RemoveAll {A : Type} dir (o : outcome error A) : covers T dir → safe_ (λ fs, (RemoveAll env dir fs, o)).
Proof.
  intros C fs W. unfold RemoveAll; simpl. destruct (fe_RemoveAll env dir); [|done]. split_and!; [by apply wf_filter|..].
  - intros p f nT L. apply map_lookup_filter_Some. split; [done|]. simpl. auto.
  - intros p _ L. apply map_lookup_filter_None. by left.
Qed.
Lemma safe_copyFile src dst : T dst → safe_ (copyFile env src dst).
Proof.
  intros t fs W. unfold copyFile. destruct (fs !! src) as [[| |]|]; try done. by apply safe_write.
Qed.
Lemma safe_copy_dir_entry dst : T dst → safe_ (copy_dir_entry env dst).
Proof. intros t fs W. unfold copy_dir_entry. destruct (fs !! dst) as [[]|]; try done. by apply safe_MkdirAll. Qed.
Lemma safe_copy_entries src dst l : covers T dst → safe_ (copy_entries env src dst l).
Proof.
  intros C. induction l as [|[p []] l IH]; simpl; [apply safe_ret|..]; apply safe_bind; auto; unfold copy_entry, rebase; simpl.
  - by apply safe_copyFile, covers_below.
  - by apply safe_copy_dir_entry, covers_below.
  - apply safe_lift.
Qed.
Lemma safe_copyDir src dst : covers T dst → safe_ (copyDir env src dst).
Proof.
  intros C fs W. unfold copyDir. destruct (fs !! src) as [[| |]|]; try done.
  apply (safe_bind (λ fs : disk, fs) T N (copy_dir_entry env dst)
           (λ _, copy_entries env src dst (tree_of fs src))); auto using safe_copy_entries.
  by apply safe_copy_dir_entry, covers_self.
Qed.
Lemma safe_tar source target : T target → safe_ (tar env source target).
Proof.
  intros t fs W. unfold tar. destruct (creatable env fs target) eqn:C; [|done]. simpl.
  destruct (fs !! source) as [[]|]; by apply safe_insert.
Qed.
Lemma safe_gzip source target : T target → safe_ (gzip env source target).
Proof. intros t fs W. unfold gzip. destruct (fs !! source) as [[]|]; try done. by apply safe_write. Qed.
Lemma safe_archive source dest : inside T dest → safe_ (archiveAndCompress env source dest).
Proof.
  intros C fs W. unfold archiveAndCompress.
  destruct (safe_tar source (dest ++ [tar_name source]) (inside_below _ _ _ _ C) fs W) as (W1 & P1 & Q1).
  destruct (tar _ _ _ _) as [fs1 [?|?|?]]; [|done..]. simpl in W1, P1, Q1.
  destruct (safe_gzip (tarfile source dest) (archive source dest) (inside_below _ _ _ _ C) fs1 W1) as (W2 & P2 & Q2).
  destruct (gzip _ _ _ _) as [fs2 o]. simpl in W2, P2, Q2.
  destruct (safe_RemoveAll (tarfile source dest) o (inside_app _ _ _ _ C) fs2 W2) as (W3 & P3 & Q3). split_and!; [done|auto..].
Qed.
Lemma safe_tls fromDir toDir : inside T toDir → safe_ (migrateTls env fromDir toDir).
Proof. intros C fs W. unfold migrateTls. destruct (exists_ _ _); [|done]. by apply safe_copyDir; [apply inside_app|]. Qed.
Lemma safe_macaroons fromDir toDir : inside T toDir → safe_ (migrateMacaroons env fromDir toDir).
Proof.
  intros C fs W. unfold migrateMacaroons. destruct (exists_ fs (fromDir ++ _)); [|done]. cbn [negb].
  match goal with |- context [mbind ?k ?m fs] => assert (safe_ (m ≫= k)) as K end; [|by apply K].
  apply safe_bind; [destruct (exists_ _ _); [apply safe_ret|by apply safe_MkdirAll, inside_below]|]. intros _.
  apply safe_bind; [apply safe_copyFile; rewrite <- (assoc_L app); simpl; by apply inside_below|]. intros _.
  apply safe_copyDir. by apply inside_app.
Qed.
End safe_files.

(** * What copyDir makes *)
Lemma rebase_app src dst q : rebase src dst (src ++ q) = dst ++ q.
Proof. unfold rebase. by rewrite drop_app_length. Qed.
Lemma rebase_self src dst : rebase src dst src = dst.
Proof. unfold rebase. by rewrite drop_all, app_nil_r. Qed.
Lemma rebase_inj src dst p q : under src p → under src q → rebase src dst p = rebase src dst q → p = q.
Proof. intros [k ->] [k' ->]. rewrite !rebase_app. by intros ->%app_inv_head. Qed.
Lemma rebase_Dir src dst p : under src p → p ≠ src → Dir (rebase src dst p) = rebase src dst (Dir p).
Proof.
  intros [k ->] ne. destruct (path_last k) as [->|(k' & a & ->)]; [by rewrite app_nil_r in ne|].
  rewrite rebase_app, !app_assoc, !Dir_app. by rewrite rebase_app.
Qed.

(** The entries [l] of [src], in [dst]. *)
Definition placed (src dst : path) (l : list (path * file)) (fs : disk) : disk :=
  list_to_map (prod_map (rebase src dst) id <$> l) ∪ fs.
Lemma placed_new src dst l fs p f :
  NoDup l.*1 → (∀ kv, kv ∈ l → under src kv.1) → (p, f) ∈ l → placed src dst l fs !! rebase src dst p = Some f.
Proof.
  intros ND U M. apply lookup_union_Some_l, elem_of_list_to_map_1.
  - rewrite <- list_fmap_compose. change (NoDup (rebase src dst ∘ fst <$> l)). rewrite list_fmap_compose.
    apply NoDup_fmap_2_strong; [|done]. intros x y (kv & -> & X)%list_elem_of_fmap (kv' & -> & Y)%list_elem_of_fmap.
    apply rebase_inj; auto.
  - apply list_elem_of_fmap. by exists (p, f).
Qed.
Lemma placed_other src dst l fs q :
  (∀ kv, kv ∈ l → rebase src dst kv.1 ≠ q) → placed src dst l fs !! q = fs !! q.
Proof.
  intros N. apply lookup_union_r. apply not_elem_of_list_to_map_1. rewrite <- list_fmap_compose.
  intros (kv & -> & M)%list_elem_of_fmap. by apply (N kv M).
Qed.
Lemma placed_nil src dst fs : placed src dst [] fs = fs.
Proof. apply (left_id_L ∅ (∪)). Qed.
Lemma placed_snoc src dst l kv fs :
  kv.1 ∉ l.*1 → under src kv.1 → (∀ kv, kv ∈ l → under src kv.1) →
  placed src dst (l ++ [kv]) fs = <[rebase src dst kv.1 := kv.2]> (placed src dst l fs).
Proof.
  destruct kv as [p f]. cbn [fst snd]. intros N U1 U. unfold placed. rewrite fmap_app. cbn.
  rewrite list_to_map_snoc; [by rewrite insert_union_l|].
  rewrite <- list_fmap_compose. intros (kv' & E & M)%list_elem_of_fmap. apply N.
  apply (rebase_inj src dst) in E; [|auto..]. rewrite E. apply list_elem_of_fmap. eauto.
Qed.

Section copy.
Variable env : FsEnv.
(** Whether the disk lets the entry be made. *)
Definition entry_allowed (dst : path) (f : file) : bool :=
  match f with Directory => fe_MkdirAll env dst | Regular _ _ => fe_Create env dst | Inaccessible => false end.

(** Making a directory in a directory makes that one only. *)
Lemma mkdirs_child fs p :
  wf fs → fs !! Dir p = Some Directory → fs !! p = None → mkdirs fs p = <[p := Directory]> fs.
Proof.
  intros W D N. apply map_eq. intros q. rewrite mkdirs_lookup. destruct (decide (q = p)) as [->|ne].
  { by rewrite lookup_insert_eq, N, decide_True by apply under_refl. }
  rewrite lookup_insert_ne by done. destruct (fs !! q) eqn:E; [done|]. rewrite decide_False; [done|].
  intros U. apply under_parent in U; [|done]. by destruct (ancestors_present fs (Dir p) q _ W D U) as [->|]; congruence.
Qed.
Lemma mkdirable_child fs p :
  wf fs → fs !! Dir p = Some Directory → fs !! p = None → forallb (dir_or_missing fs) (prefixes p) = true.
Proof.
  intros W D N. apply forallb_forall. intros q U%list_elem_of_In%elem_of_prefixes. unfold dir_or_missing.
  destruct (decide (q = p)) as [->|ne]; [by rewrite N|]. apply under_parent in U; [|done].
  destruct (ancestors_present fs _ q _ W D U) as [->|E]; [by rewrite D|by rewrite E].
Qed.
Lemma copy_entry_spec src dst p f fs :
  wf fs → fs !! p = Some f → fs !! Dir (rebase src dst p) = Some Directory → fs !! rebase src dst p = None →
  copy_entry env src dst (p, f) fs =
  if entry_allowed (rebase src dst p) f then (<[rebase src dst p := f]> fs, Ret ())
  else (fs, Err (Errorf (match f with Directory => "mkdir" | Regular _ _ => "create" | Inaccessible => "stat" end))).
Proof.
  intros W L D N. unfold copy_entry, copyFile, copy_dir_entry, write_file, creatable, MkdirAll. cbn [fst snd].
  destruct f; cbn [entry_allowed]; [by rewrite L, D, N, !andb_true_r| |done].
  by rewrite N, mkdirable_child, andb_true_r, mkdirs_child by done.
Qed.

(** The entries are put in place one after the other until one is refused. *)
Lemma copy_entries_spec src dst fs0 fs1 l1 l2 :
  wf fs0 → apart src dst → tree_of fs0 src = l1 ++ l2 →
  wf (placed src dst l1 fs1) → fs1 !! dst = Some Directory → (∀ q, q ≠ [] → fs1 !! (dst ++ q) = None) →
  (∀ p f, under src p → fs0 !! p = Some f → fs1 !! p = Some f) →
  if forallb (λ kv, entry_allowed (rebase src dst kv.1) kv.2) l2
  then copy_entries env src dst l2 (placed src dst l1 fs1) = (placed src dst (l1 ++ l2) fs1, Ret ())
  else ∃ fs' e, copy_entries env src dst l2 (placed src dst l1 fs1) = (fs', Err e).
Proof.
  intros W0 A. revert l1. induction l2 as [|[p f] l2 IH]; intros l1 E W1 D1 F1 S1; simpl; [by rewrite app_nil_r|].
  assert (∀ kv, kv ∈ l1 ++ (p, f) :: l2 → under src kv.1 ∧ kv.1 ≠ src ∧ fs0 !! kv.1 = Some kv.2) as inT
    by (intros kv; rewrite <- E; apply elem_of_tree).
  destruct (inT (p, f)) as (U & ne & L); [set_solver|]. simpl in U, ne, L.
  assert (∀ kv, kv ∈ l1 → under src kv.1) as U1 by (intros kv M; apply inT; set_solver).
  pose proof (tree_NoDup fs0 src) as ND. rewrite E, fmap_app in ND. apply NoDup_app in ND as (ND1 & ND12 & _).
  assert (p ∉ l1.*1) as fresh by (intros M; apply (ND12 p M); simpl; set_solver).
  assert (∀ q, under src q → placed src dst l1 fs1 !! q = fs1 !! q) as src_same.
  { intros q Uq. apply placed_other. intros kv _ <-. apply (apart_below src dst _ A Uq), under_app. }
  assert (placed src dst l1 fs1 !! Dir (rebase src dst p) = Some Directory) as parent.
  { rewrite rebase_Dir by done. destruct (tree_parent_first fs0 src l1 (p, f) l2 W0 E) as [e|M]; [|by apply placed_new].
    simpl in e. rewrite e, rebase_self, placed_other; [done|].
    intros kv M. destruct (inT kv) as ([k e'] & kne & _); [set_solver|]. rewrite e' in *. rewrite rebase_app.
    intros K. rewrite <- (app_nil_r dst) in K at 2. apply app_inv_head in K. by rewrite K, app_nil_r in kne. }
  assert (placed src dst l1 fs1 !! rebase src dst p = None) as missing.
  { rewrite placed_other; [|intros kv M K; apply (rebase_inj src dst) in K; [|auto..]; apply fresh; rewrite <- K; set_solver].
    destruct U as [k ->]. rewrite rebase_app. apply F1. intros ->. by rewrite app_nil_r in ne. }
  unfold mbind, action_bind. rewrite (copy_entry_spec src dst p f _ W1); [|rewrite src_same; auto|done..].
  destruct (entry_allowed _ _) eqn:G; simpl; [|eauto].
  specialize (IH (l1 ++ [(p, f)])). rewrite <- app_assoc, placed_snoc in IH by auto. apply IH; auto.
  apply wf_insert; [done|by destruct f|done|]. cbn [fst snd]. by rewrite missing.
Qed.
(** Copying a directory where there is nothing: it returns when the disk lets every
    entry be made, and then the copy is the directory, and nothing else has changed but the
    directories the copy is in. *)
Lemma copyDir_spec src dst fs :
  wf fs → fs !! src = Some Directory → apart src dst → fs !! dst = None →
  let ok := fe_MkdirAll env dst && forallb (dir_or_missing fs) (prefixes dst)
            && forallb (λ kv, entry_allowed (rebase src dst kv.1) kv.2) (tree_of fs src) in
  if ok
  then copyDir env src dst fs = (placed src dst (tree_of fs src) (mkdirs fs dst), Ret ())
  else ∃ fs' e, copyDir env src dst fs = (fs', Err e).
Proof.
  intros W D A N. unfold copyDir. rewrite D. unfold mbind, action_bind, copy_dir_entry, MkdirAll. rewrite N.
  destruct (fe_MkdirAll env dst && _) eqn:M; [|simpl; eauto]. cbn [andb]. zify_bool.
  pose proof (copy_entries_spec src dst fs (mkdirs fs dst) [] (tree_of fs src) W A eq_refl) as C.
  rewrite placed_nil in C. apply C; [by apply wf_mkdirs|..].
  - by rewrite mkdirs_lookup, N, decide_True by apply under_refl.
  - intros q ne. rewrite mkdirs_lookup, (nothing_below fs dst) by auto using under_app.
    by rewrite decide_False by by apply longer_not_under.
  - intros p f _. apply mkdirs_keeps.
Qed.
(** What the copy holds. *)
Lemma placed_copy src dst fs q :
  wf fs → fs !! src = Some Directory → apart src dst → fs !! dst = None →
  placed src dst (tree_of fs src) (mkdirs fs dst) !! (dst ++ q) = fs !! (src ++ q).
Proof.
  intros W D A N.
  assert (∀ q kv, kv ∈ tree_of fs src → rebase src dst kv.1 = dst ++ q → q ≠ [] ∧ fs !! (src ++ q) = Some kv.2) as T.
  { intros r kv ([k e] & kne & L)%elem_of_tree. rewrite e in *. rewrite rebase_app. intros ->%app_inv_head.
    split; [|done]. intros ->. by rewrite app_nil_r in kne. }
  destruct (decide (q = [])) as [->|ne].
  { rewrite !app_nil_r, D, placed_other; [by rewrite mkdirs_lookup, N, decide_True by apply under_refl|].
    intros kv M e. destruct (T [] kv M) as [? _]; [by rewrite app_nil_r|done]. }
  destruct (fs !! (src ++ q)) as [f|] eqn:L.
  - rewrite <- (rebase_app src). apply placed_new; [apply tree_NoDup|by intros kv (? & _)%elem_of_tree|].
    apply elem_of_tree. simpl. split; [apply under_app|]. split; [|done]. intros e. apply ne.
    by apply app_inv_head with src; rewrite app_nil_r.
  - rewrite placed_other; [|intros kv M e; destruct (T q kv M e); congruence].
    rewrite mkdirs_lookup, (nothing_below fs dst) by auto using under_app. by rewrite decide_False by by apply longer_not_under.
Qed.
Lemma placed_outside src dst fs p :
  ¬ under dst p → placed src dst (tree_of fs src) (mkdirs fs dst) !! p = mkdirs fs dst !! p.
Proof. intros N. apply placed_other. intros kv _ <-. apply N, under_app. Qed.
(** A copy into a directory that is there, when the disk refuses nothing. *)
Lemma copyDir_in src dst fs :
  (∀ p, fe_MkdirAll env p = true) → (∀ p, fe_Create env p = true) →
  wf fs → fs !! src = Some Directory → apart src dst → fs !! dst = None → fs !! Dir dst = Some Directory →
  ∃ fs', copyDir env src dst fs = (fs', Ret ()) ∧ wf fs' ∧
    (∀ q, fs' !! (dst ++ q) = fs !! (src ++ q)) ∧ (∀ p, ¬ under dst p → fs' !! p = fs !! p).
Proof.
  intros M C W D A N P. pose proof (copyDir_spec src dst fs W D A N) as K. rewrite M, mkdirable_child in K by done.
  replace (forallb _ _) with true in K.
  2: { symmetry. apply forallb_forall. intros [p g] (_ & _ & L)%list_elem_of_In%elem_of_tree. destruct (W _ _ L) as [I _].
       destruct g; simpl; auto. }
  cbn in K. exists (placed src dst (tree_of fs src) (mkdirs fs dst)). split_and!; [done|..].
  - destruct (safe_copyDir env (λ _, True) (λ _, True) ltac:(done) src dst ltac:(done) fs W) as (W' & _). by rewrite K in W'.
  - intros q. by apply placed_copy.
  - intros p U. rewrite placed_outside, mkdirs_child by done. apply lookup_insert_ne. intros ->. apply U, under_refl.
Qed.
End copy.

(** * The archive *)
Section archive.
Variable env : FsEnv.
(** What is written to the archive: the source and what is in it. *)
Definition archived (fs : disk) (source : path) : list (path * file) :=
  match fs !! source with None | Some Inaccessible => [] | Some g => (source, g) :: tree_of fs source end.
Lemma tar_Ret source target fs fs' :
  tar env source target fs = (fs', Ret ()) → fs' = <[target := Regular (fe_tar env (archived fs source)) 420]> fs.
Proof.
  unfold tar, archived. destruct (creatable _ _ _); [|done]. cbn [negb].
  assert (∀ l, existsb (unreadable ∘ snd) l = false → readable l = l) as rd.
  { induction l as [|kv l IH]; simpl; [done|]. intros [-> E]%orb_false_iff. by rewrite IH. }
  destruct (fs !! source) as [[]|]; intros R;
    repeat match type of R with context [if existsb ?a ?b then _ else _] => destruct (existsb a b) eqn:X; [done|] end;
    by rewrite ?rd in R by done; simplify_eq.
Qed.
Lemma gz_name (s : string) : s ≠ s +:+ ".gz".
Proof. induction s as [|c s IH]; [done|]. cbn. by intros [= E]. Qed.
Lemma archive_made source dest fs fs' :
  archiveAndCompress env source dest fs = (fs', Ret ()) → ToLower (Base source) = Base source →
  fs' !! archive source dest = Some (Regular (fe_gzip env (fe_tar env (archived fs source))) 420).
Proof.
  unfold archiveAndCompress. intros R low. destruct (tar _ _ _ _) as [fs1 [[]|?|?]] eqn:T; [|done..]. apply tar_Ret in T as ->.
  unfold gzip, tarfile, write_file in R. rewrite low in R. unfold tar_name in R. rewrite lookup_insert_eq in R.
  destruct (creatable _ _ _); [|done]. injection R as <-.
  assert (<[archive source dest := Regular (fe_gzip env (fe_tar env (archived fs source))) 420]>
            (<[dest ++ [Base source +:+ ".tar"] := Regular (fe_tar env (archived fs source)) 420]> fs) !! archive source dest =
          Some (Regular (fe_gzip env (fe_tar env (archived fs source))) 420)) as L by apply lookup_insert_eq.
  unfold RemoveAll. destruct (fe_RemoveAll _ _); [|done]. apply map_lookup_filter_Some. split; [done|]. cbn [fst].
  unfold archive. rewrite low. apply (siblings_apart dest), not_eq_sym, gz_name.
Qed.
(** The archive is not made when the name of the directory has an upper-case letter. *)
Lemma archive_upper_case source dest fs fs' :
  ToLower (Base source) +:+ ".tar" ≠ tar_name source → fs !! tarfile source dest = None →
  archiveAndCompress env source dest fs ≠ (fs', Ret ()).
Proof.
  unfold archiveAndCompress. intros ne N R. destruct (tar _ _ _ _) as [fs1 [[]|?|?]] eqn:T; [|done..]. apply tar_Ret in T as ->.
  unfold gzip in R. rewrite lookup_insert_ne, N in R; [done|]. intros E%app_inv_head. congruence.
Qed.
End archive.

(** * The migration *)
Section migrated.
Variable env : FsEnv.
Context {S : Type}.
Variable vault : outcome error V0.Vault.
Variable validPassword : V0.Vault → string → bool.
Variables stores hooks : string → action S error ().
Variable expand : string → string.
Abbreviation v0 := (v0Datadir expand).
Abbreviation v1 := (v1Datadir expand).
Abbreviation ocean := (oceanDatadir expand).
Abbreviation t1 := (v1DatadirTemp expand).
Abbreviation t2 := (oceanDatadirTemp expand).
Abbreviation prepare_ := (prepare env vault validPassword stores hooks expand).
Abbreviation Migrate_ := (Migrate env vault validPassword stores hooks expand).

(** What is in the temporary datadirs, and where something new may be before they are
    copied. *)
Definition temporary (f : Flags) (p : path) : Prop := (under (t1 f) p ∧ p ≠ t1 f) ∨ (under (t2 f) p ∧ p ≠ t2 f).
Definition made (f : Flags) (p : path) : Prop :=
  under (t1 f) p ∨ under (t2 f) p ∨ under (v0 f) p ∨ under p (v0 f) ∨ under p (t1 f) ∨ under p (t2 f).
Lemma made_above f dir q : under (v0 f) dir ∨ under (t1 f) dir ∨ under (t2 f) dir → under q dir → made f q.
Proof. unfold made. intros [U|[U|U]] V; destruct (under_comparable _ _ _ U V); auto 10. Qed.
Lemma temporary_made f d p : temporary f d → under p d → made f p.
Proof. intros [[U _]|[U _]]; eapply made_above; eauto. Qed.
Lemma temporary_t1 f : inside (temporary f) (t1 f). Proof. intros p U. by left. Qed.
Lemma temporary_t2 f : inside (temporary f) (t2 f). Proof. intros p U. by right. Qed.

Section prepared.
Variable f : Flags.
Abbreviation safe_ := (safe ms_disk (temporary f) (made f)).
Lemma safe_on_disk {A : Type} (m : action disk error A) :
  safe (λ fs : disk, fs) (temporary f) (made f) m → safe_ (on_disk (S := S) m).
Proof. intros M s W. unfold on_disk. specialize (M (ms_disk s) W). by destruct (m (ms_disk s)). Qed.
Lemma safe_on_db {A : Type} (m : action S error A) : safe_ (on_db m).
Proof. apply safe_same. intros s. unfold on_db. by destruct (m (ms_db s)). Qed.
Lemma safe_wrap msg (m : action State error ()) : safe_ m → safe_ (wrap (S := S) msg m).
Proof. intros M s W. unfold wrap. specialize (M s W). by destruct (m s) as [? [| |]]. Qed.
Lemma place_app dir q :
  under (v0 f) dir ∨ under (t1 f) dir ∨ under (t2 f) dir →
  under (v0 f) (dir ++ q) ∨ under (t1 f) (dir ++ q) ∨ under (t2 f) (dir ++ q).
Proof. intros [U|[U|U]]; eauto using under_trans, under_app. Qed.
Lemma safe_open_dbs dir names :
  under (v0 f) dir ∨ under (t1 f) dir ∨ under (t2 f) dir → safe_ (open_dbs env (S := S) dir names).
Proof.
  intros U. induction names as [|n names IH]; simpl; [apply safe_ret|]. apply safe_bind; [|done].
  apply safe_on_disk, safe_mkdirs. intros q. apply made_above. by apply place_app.
Qed.
Lemma safe_insert_new fs p g :
  wf fs → g ≠ Inaccessible → made f p → (p ≠ [] → fs !! Dir p = Some Directory) → fs !! p = None →
  wf (<[p := g]> fs) ∧ (∀ q h, ¬ temporary f q → fs !! q = Some h → <[p := g]> fs !! q = Some h) ∧
  (∀ q, ¬ made f q → fs !! q = None → <[p := g]> fs !! q = None).
Proof.
  intros W G M D L. split_and!; [apply wf_insert; auto; congruence|..].
  - intros q h _ K. rewrite lookup_insert_ne; [done|]. congruence.
  - intros q nN K. rewrite lookup_insert_ne; [done|]. by intros ->.
Qed.
Lemma safe_open_bolt dir name :
  under (v0 f) dir ∨ under (t1 f) dir ∨ under (t2 f) dir → safe_ (open_bolt env (S := S) dir name).
Proof.
  intros U. assert (∀ q, made f (dir ++ q)) as M by (intros q; eapply made_above, under_refl; by apply place_app).
  apply safe_on_disk. apply (safe_bind _ _ _ (open_bolt_dir env dir)).
  - intros fs W. unfold open_bolt_dir. destruct (fs !! dir) eqn:L; [done|].
    destruct (fs !! Dir dir) as [[]|] eqn:D; try done. destruct (fe_MkdirAll env dir); [|done].
    apply safe_insert_new; try done. by rewrite <- (app_nil_r dir).
  - intros _ fs W. unfold open_bolt_file. destruct (fs !! dir) as [[]|] eqn:D; try done.
    destruct (fe_Open _ _); [|done]. destruct (fs !! (dir ++ [name])) as [[]|] eqn:L; try done.
    apply safe_insert_new; try done. by rewrite Dir_app.
Qed.
Lemma safe_files :
  safe_ (_ ← wrap "error while migrating webhooks: %s" (migrateWebhooks env hooks (v0 f) (t1 f) (fl_password f));
         _ ← wrap "error while migrating tls: %s" (on_disk (migrateTls env (v0 f) (t1 f)));
         wrap "error while migrating macaroons: %s" (on_disk (migrateMacaroons env (v0 f) (t1 f)))).
Proof.
  unfold migrateWebhooks. pose proof (temporary_t1 f) as C. pose proof (temporary_made f) as TM.
  repeat first [apply safe_open_bolt; auto using under_app | apply safe_bind; [|intros ?] | apply safe_wrap | apply safe_on_db
               | apply safe_on_disk; first [by apply safe_tls | by apply safe_macaroons]].
Qed.
Lemma safe_migrate : safe_ (migrate env vault validPassword stores hooks (v0 f) (t1 f) (t2 f) (fl_password f)).
Proof.
  unfold migrate. apply safe_bind; [|intros _; apply safe_files]. apply safe_wrap. unfold migrateDomain.
  repeat first [apply safe_open_dbs; auto using under_app | apply safe_bind; [|intros ?]
               | apply safe_on_db | apply safe_lift | case_match].
Qed.
Lemma safe_prepare : safe_ (prepare_ f).
Proof.
  unfold prepare. apply safe_bind; [by apply safe_same|]. intros s. repeat case_match; try apply safe_lift;
    (apply safe_bind; [apply safe_migrate|]); intros _; [apply safe_ret|].
  apply safe_wrap, safe_on_disk, safe_archive; auto using temporary_t1. apply temporary_made.
Qed.

(** ** What a run of prepare that returned has found and made *)
Lemma wrap_Ret msg (m : action (State (S := S)) error ()) s s' : wrap msg m s = (s', Ret ()) ↔ m s = (s', Ret ()).
Proof. unfold wrap. destruct (m s) as [? [[]| |]]; naive_solver. Qed.
Lemma on_disk_Ret (m : action disk error ()) (s s' : State (S := S)) :
  on_disk m s = (s', Ret ()) ↔ m (ms_disk s) = (ms_disk s', Ret ()) ∧ ms_db s' = ms_db s.
Proof. unfold on_disk. destruct s as [d b], s' as [d' b']. simpl. destruct (m d) as [? []]; naive_solver. Qed.
(** Where a database is open there are directories down to it, and they stay. *)
Lemma opened dir n names (s s' : State (S := S)) q :
  open_dbs env dir (n :: names) s = (s', Ret ()) → wf (ms_disk s) →
  under (v0 f) dir ∨ under (t1 f) dir ∨ under (t2 f) dir → under q dir → ¬ temporary f q →
  ms_disk s' !! q = Some Directory.
Proof.
  intros R W U Uq nT. simpl in R. act_inv R.
  pose proof (safe_open_dbs dir [n] U s W) as P1. pose proof (safe_open_dbs dir names U) as P2.
  destruct x0. simpl in P1. unfold mbind, action_bind in P1. rewrite H in P1. destruct P1 as (W1 & _ & _). cbn in W1.
  destruct (P2 _ W1) as (_ & K & _). rewrite R in K. apply K; [done|]. clear K P2 R.
  unfold open_db in H. apply on_disk_Ret in H as [H _]. destruct (fe_Open _ _ && _) eqn:C in H; [|done]. zify_bool.
  injection H as <-. rewrite mkdirs_lookup. rewrite forallb_forall in *.
  assert (under q (dir ++ [n])) as U' by (eapply under_trans; [done|apply under_app]).
  specialize (H1 q). rewrite decide_True by done. apply elem_of_prefixes, list_elem_of_In, H1 in U'.
  unfold dir_or_missing in U'. by destruct (ms_disk s !! q) as [[]|].
Qed.

Lemma temps_apart : apart (t1 f) (t2 f).
Proof. by apply siblings_apart. Qed.
Lemma t1_kept : ¬ temporary f (t1 f).
Proof. intros [[_ ?]|[U _]]; [done|]. by apply temps_apart in U. Qed.
Lemma t2_kept : ¬ temporary f (t2 f).
Proof. intros [[U _]|[_ ?]]; [|done]. by apply temps_apart in U. Qed.

(** What is there before a part of the run that is safe is there after it. *)
Lemma safe_keeps {A : Type} (m : action (State (S := S)) error A) s s' o p g :
  safe_ m → m s = (s', o) → wf (ms_disk s) → ¬ temporary f p → ms_disk s !! p = Some g → wf (ms_disk s') ∧ ms_disk s' !! p = Some g.
Proof. intros M R W nT L. destruct (M s W) as (W' & K & _). rewrite R in W', K. auto. Qed.
Lemma safe_wf {A : Type} (m : action (State (S := S)) error A) s s' o :
  safe_ m → m s = (s', o) → wf (ms_disk s) → wf (ms_disk s').
Proof. intros M R W. destruct (M s W) as (W' & _). by rewrite R in W'. Qed.
Lemma place_v0 q : under (v0 f) (v0 f ++ q) ∨ under (t1 f) (v0 f ++ q) ∨ under (t2 f) (v0 f ++ q).
Proof. left. apply under_app. Qed.
Lemma place_t1 q : under (v0 f) (t1 f ++ q) ∨ under (t1 f) (t1 f ++ q) ∨ under (t2 f) (t1 f ++ q).
Proof. right; left. apply under_app. Qed.
Lemma place_t2 q : under (v0 f) (t2 f ++ q) ∨ under (t1 f) (t2 f ++ q) ∨ under (t2 f) (t2 f ++ q).
Proof. right; right. apply under_app. Qed.

Lemma domain_dirs password s s1 :
  migrateDomain env vault validPassword stores (v0 f) (t1 f) (t2 f) password s = (s1, Ret ()) → wf (ms_disk s) →
  ms_disk s1 !! t1 f = Some Directory ∧ ms_disk s1 !! t2 f = Some Directory ∧ wf (ms_disk s1).
Proof.
  intros R W. unfold migrateDomain in R. apply action_bind_Ret in R as (sa & [] & R0 & R).
  apply action_bind_Ret in R as (? & v & [-> _]%lift_Ret & R). destruct (validPassword v password); [|done]. cbn [negb] in R.
  apply action_bind_Ret in R as (sb & [] & R2 & R). apply action_bind_Ret in R as (sc & [] & R1 & R).
  pose proof (safe_wf _ _ _ _ (safe_open_dbs _ _ (place_v0 _)) R0 W) as W0.
  pose proof (opened _ _ _ _ _ (t2 f) R2 W0 (place_t2 _) (under_app _ _) t2_kept) as D2.
  destruct (safe_keeps _ _ _ _ _ _ (safe_open_dbs _ _ (place_t1 _)) R1 (safe_wf _ _ _ _ (safe_open_dbs _ _ (place_t2 _)) R2 W0) t2_kept D2) as [W1 D2'].
  pose proof (opened _ _ _ _ _ (t1 f) R1 (safe_wf _ _ _ _ (safe_open_dbs _ _ (place_t2 _)) R2 W0) (place_t1 _) (under_app _ _) t1_kept) as D1.
  destruct (safe_keeps _ _ _ _ _ _ (safe_on_db _) R W1 t1_kept D1) as [W' ?].
  destruct (safe_keeps _ _ _ _ _ _ (safe_on_db _) R W1 t2_kept D2') as [_ ?]. done.
Qed.

(** The state before the archive, that is when everything has been migrated. *)
Lemma prepare_Ret s s1 :
  prepare_ f s = (s1, Ret ()) → wf (ms_disk s) →
  is_Some (ms_disk s !! v0 f) ∧ (v1 f = v0 f ∨ ms_disk s !! v1 f = None) ∧ ms_disk s !! ocean f = None ∧
  ∃ s0, migrate env vault validPassword stores hooks (v0 f) (t1 f) (t2 f) (fl_password f) s = (s0, Ret ()) ∧
        ms_db s0 = ms_db s1 ∧
        if fl_noBackup f then s1 = s0
        else archiveAndCompress env (v0 f) (t1 f) (ms_disk s0) = (ms_disk s1, Ret ()).
Proof.
  intros R W. unfold prepare in R. apply action_bind_Ret in R as (s' & a & G & R). injection G as <- <-.
  assert (∀ p, accessible (ms_disk s) p = false → ms_disk s !! p = None) as acc.
  { unfold accessible. intros p K. destruct (ms_disk s !! p) as [g|] eqn:L; [|done]. destruct (W _ _ L) as [I _]. by destruct g. }
  destruct (exists_ (ms_disk s) (v0 f)) eqn:X; [|done]. apply bool_decide_eq_true in X. cbn [negb] in R.
  destruct (negb _ && accessible _ (v1 f)) eqn:V; [done|]. destruct (accessible _ (ocean f)) eqn:O; [done|].
  split_and!; [done| |auto|].
  { apply andb_false_iff in V as [V|V]; [left|right; auto]. apply negb_false_iff in V. by apply bool_decide_eq_true in V. }
  apply action_bind_Ret in R as (s0 & [] & M & R). exists s0. split; [done|].
  destruct (fl_noBackup f); [by act_inv R|]. apply wrap_Ret in R. apply on_disk_Ret in R as [R <-]. done.
Qed.
Lemma prepared_dirs s s1 :
  prepare_ f s = (s1, Ret ()) → wf (ms_disk s) →
  ms_disk s1 !! t1 f = Some Directory ∧ ms_disk s1 !! t2 f = Some Directory ∧ wf (ms_disk s1).
Proof.
  intros R W. destruct (prepare_Ret s s1 R W) as (_ & _ & _ & s0 & M & _ & A). unfold migrate in M.
  apply action_bind_Ret in M as (sd & [] & D%wrap_Ret & M).
  destruct (domain_dirs _ _ _ D W) as (D1 & D2 & Wd).
  destruct (safe_keeps _ _ _ _ _ _ safe_files M Wd t1_kept D1) as [W0 D1'].
  destruct (safe_keeps _ _ _ _ _ _ safe_files M Wd t2_kept D2) as [_ D2'].
  destruct (fl_noBackup f); [by subst|].
  destruct (safe_archive env _ _ (temporary_made f) (v0 f) (t1 f) (temporary_t1 f) (ms_disk s0) W0) as (W1 & K & _).
  rewrite A in W1, K. auto using t1_kept, t2_kept.
Qed.
End prepared.

(** The datadirs and the temporary ones are not in each other, except that v1's may be v0's. *)
Definition not_nested (f : Flags) : Prop :=
  Forall (λ t, Forall (apart t) [v0 f; v1 f; ocean f]) [t1 f; t2 f] ∧ apart (v1 f) (ocean f).
Lemma removed dir fs p : fe_RemoveAll env dir = true → RemoveAll env dir fs !! p = if decide (under dir p) then None else fs !! p.
Proof.
  intros K. unfold RemoveAll. rewrite K. case_decide as U.
  - apply map_lookup_filter_None. right. intros g _ C. by apply C.
  - destruct (fs !! p) eqn:L; [by apply map_lookup_filter_Some|by apply map_lookup_filter_None; left].
Qed.

(** an attempt that fails before the old datadir is removed changes nothing: the
    error is reported, what was on the disk outside the temporary datadirs is still there as it
    was, the old datadir included, and the temporary datadirs are gone. *)
Theorem failed_migration_keeps (f : Flags) s s1 o :
  wf (ms_disk s) → fe_RemoveAll env (t1 f) = true → fe_RemoveAll env (t2 f) = true → apart (t1 f) (v0 f) → apart (t2 f) (v0 f) →
  fl_password f ≠ ""%string → prepare_ f s = (s1, o) → o ≠ Ret () →
  ∃ s', Migrate_ f s = (s', o) ∧
    (∀ p g, under (v0 f) p → ms_disk s !! p = Some g → ms_disk s' !! p = Some g) ∧
    (∀ p g, ¬ under (t1 f) p → ¬ under (t2 f) p → ms_disk s !! p = Some g → ms_disk s' !! p = Some g) ∧
    (∀ p, under (t1 f) p ∨ under (t2 f) p → ms_disk s' !! p = None).
Proof.
  intros W R1 R2 A1 A2 pw P nR. unfold Migrate. rewrite bool_decide_eq_false_2 by done. unfold deferred, mbind, action_bind.
  rewrite P. destruct (safe_prepare f s W) as (_ & K & _). rewrite P in K. cbn [fst] in K.
  assert (∀ p, RemoveAll env (t2 f) (RemoveAll env (t1 f) (ms_disk s1)) !! p =
               if decide (under (t2 f) p) then None else if decide (under (t1 f) p) then None else ms_disk s1 !! p) as L
    by (intros p; by rewrite !removed).
  assert (∀ p g, ¬ under (t1 f) p → ¬ under (t2 f) p → ms_disk s !! p = Some g →
            RemoveAll env (t2 f) (RemoveAll env (t1 f) (ms_disk s1)) !! p = Some g) as keep.
  { intros p g N1 N2 G. rewrite L, !decide_False by done. apply K; [|done]. by intros [[? _]|[? _]]. }
  destruct o as [[]|e|e]; [done|..]; (eexists; split; [reflexivity|]); cbn [ms_disk];
    (split_and!; [|exact keep|intros p U; rewrite L; destruct U; repeat case_decide; done]);
    intros p g U G; apply keep; auto; intros U'; by eapply (apart_below (v0 f)), U'; try apply apart_sym.
Qed.

(** The disk refuses nothing. *)
Definition working : Prop :=
  (∀ p, fe_MkdirAll env p = true) ∧ (∀ p, fe_Create env p = true) ∧ (∀ p, fe_RemoveAll env p = true).
(** What is there stays until the old datadir is removed, and the new datadirs are not
    there. *)
Lemma before_install f s s1 :
  wf (ms_disk s) → not_nested f → prepare_ f s = (s1, Ret ()) →
  let fs := RemoveAll env (v0 f) (ms_disk s1) in
  fe_RemoveAll env (v0 f) = true →
  fs !! t1 f = Some Directory ∧ fs !! t2 f = Some Directory ∧ fs !! v1 f = None ∧ fs !! ocean f = None ∧
  fs !! Dir (v1 f) = Some Directory ∧
  (∀ q, fs !! (t1 f ++ q) = ms_disk s1 !! (t1 f ++ q)) ∧ (∀ q, fs !! (t2 f ++ q) = ms_disk s1 !! (t2 f ++ q)) ∧
  (∀ p g, ¬ under (v0 f) p → ¬ temporary f p → ms_disk s !! p = Some g → fs !! p = Some g).
Proof.
  intros W NN P fs RA. destruct (prepared_dirs f s s1 P W) as (D1 & D2 & W1).
  destruct (prepare_Ret f s s1 P W) as ([g0 X] & V & O & _).
  destruct (safe_prepare f s W) as (_ & K & New). rewrite P in K, New. cbn [fst] in K, New.
  destruct NN as [NN VO]. rewrite !Forall_cons in NN. destruct NN as ((A10 & A11 & A12 & _) & (A20 & A21 & A22 & _) & _).
  assert (∀ p, fs !! p = if decide (under (v0 f) p) then None else ms_disk s1 !! p) as L by (intros p; by apply removed).
  assert (∀ t q, apart t (v0 f) → fs !! (t ++ q) = ms_disk s1 !! (t ++ q)) as Lt.
  { intros t q A. rewrite L, decide_False; [done|]. apply (apart_below t _ _ A), under_app. }
  assert (∀ d, apart (t1 f) d → apart (t2 f) d → ms_disk s !! d = None → fs !! d = None) as gone.
  { intros d [B1 B2] [B3 B4] E. rewrite L. case_decide as U; [done|]. apply New; [|done].
    intros [U'|[U'|[U'|[U'|[U'|U']]]]]; try done. destruct (ancestors_present _ _ _ _ W X U') as [->|E']; congruence. }
  pose proof (Lt (t1 f) [] A10) as T1. pose proof (Lt (t2 f) [] A20) as T2. rewrite !app_nil_r in T1, T2.
  rewrite D1 in T1. rewrite D2 in T2. split_and!; auto.
  - destruct V as [->|V]; [|auto]. by rewrite L, decide_True by apply under_refl.
  - rewrite L, decide_False.
    + destruct (W1 _ _ D1) as [_ P1]. unfold v1DatadirTemp in P1. rewrite Dir_app in P1. apply P1. by destruct (Dir _).
    + intros U. apply A10. eapply under_trans; [done|apply under_app].
  - intros p g U nT E. rewrite L, decide_False by done. by apply K.
Qed.

(** The two copies, on a disk where the new datadirs are not there. *)
Lemma installed f fs :
  working → not_nested f → wf fs → fs !! t1 f = Some Directory → fs !! t2 f = Some Directory →
  fs !! v1 f = None → fs !! ocean f = None → fs !! Dir (v1 f) = Some Directory → fs !! Dir (ocean f) = Some Directory →
  ocean f ≠ [] →
  ∃ fs1 fs2, copyDir env (t1 f) (v1 f) fs = (fs1, Ret ()) ∧ copyDir env (t2 f) (ocean f) fs1 = (fs2, Ret ()) ∧
    (∀ q, fs2 !! (v1 f ++ q) = fs !! (t1 f ++ q)) ∧ (∀ q, fs2 !! (ocean f ++ q) = fs !! (t2 f ++ q)) ∧
    (∀ p, ¬ under (v1 f) p → ¬ under (ocean f) p → fs2 !! p = fs !! p).
Proof.
  intros (M & C & _) [NN VO] W D1 D2 N1 N2 P1 P2 ne. rewrite !Forall_cons in NN.
  destruct NN as ((A10 & A11 & A12 & _) & (A20 & A21 & A22 & _) & _).
  destruct (copyDir_in env (t1 f) (v1 f) fs) as (fs1 & E1 & W1 & V1 & K1); auto.
  assert (¬ under (v1 f) (ocean f)) as nO by apply VO.
  destruct (copyDir_in env (t2 f) (ocean f) fs1) as (fs2 & E2 & W2 & V2 & K2); auto.
  - rewrite K1; [done|]. apply A21.
  - by rewrite K1.
  - rewrite K1; [done|]. intros U. apply nO. eapply under_trans; [done|apply under_Dir].
  - exists fs1, fs2. split_and!; try done.
    + intros q. rewrite K2, V1; [done|]. eapply (apart_below (v1 f)); [done|apply under_app].
    + intros q. rewrite V2, K1; [done|]. eapply (apart_below (t2 f)); [done|apply under_app].
    + intros p U1 U2. by rewrite K2, K1.
Qed.

(** when the new datadirs have been prepared and the disk refuses nothing, the
    migration ends well: the new datadirs are what was prepared, nothing is left of the old
    datadir or of the temporary ones, and everything else on the disk is as it was; the
    compressed archive of the old datadir, which has everything that was in it, is in the new
    one unless no backup was asked for. *)
Theorem migration_installs (f : Flags) s s1 :
  wf (ms_disk s) → working → not_nested f → fl_password f ≠ ""%string →
  ms_disk s !! Dir (ocean f) = Some Directory → ¬ under (v0 f) (Dir (ocean f)) →
  prepare_ f s = (s1, Ret ()) →
  ∃ s', Migrate_ f s = (s', Ret ()) ∧ ms_db s' = ms_db s1 ∧
    (∀ q, ms_disk s' !! (v1 f ++ q) = ms_disk s1 !! (t1 f ++ q)) ∧
    (∀ q, ms_disk s' !! (ocean f ++ q) = ms_disk s1 !! (t2 f ++ q)) ∧
    (∀ p, under (t1 f) p ∨ under (t2 f) p ∨ under (v0 f) p ∧ ¬ under (v1 f) p → ms_disk s' !! p = None) ∧
    (∀ p g, Forall (λ d, ¬ under d p) [t1 f; t2 f; v0 f] → ms_disk s !! p = Some g → ms_disk s' !! p = Some g) ∧
    (fl_noBackup f = false → ToLower (Base (v0 f)) = Base (v0 f) →
     ∃ fs0, (∀ p g, under (v0 f) p → ms_disk s !! p = Some g → fs0 !! p = Some g) ∧
       ms_disk s' !! archive (v0 f) (v1 f) = Some (Regular (fe_gzip env (fe_tar env (archived fs0 (v0 f)))) 420)).
Proof.
  intros W Wk NN pw PO nO P. destruct Wk as (M & C & RA).
  destruct (before_install f s s1 W NN P (RA _)) as (D1 & D2 & N1 & N2 & P1 & L1 & L2 & K).
  set (fs := RemoveAll env (v0 f) (ms_disk s1)) in *.
  destruct (prepared_dirs f s s1 P W) as (_ & _ & Ws1).
  destruct (prepare_Ret f s s1 P W) as ([g0 X] & V & O & s0 & Mg & Db & Ar).
  assert (ocean f ≠ []) as One by (intros e; rewrite e in *; simpl in *; congruence).
  pose proof NN as NN'. destruct NN' as [F VO]. rewrite !Forall_cons in F. destruct F as ((A10 & A11 & A12 & _) & (A20 & A21 & A22 & _) & _).
  assert (¬ temporary f (Dir (ocean f))) as nT.
  { intros [[U _]|[U _]]; [apply (proj1 A12)|apply (proj1 A22)]; (eapply under_trans; [done|apply under_Dir]). }
  assert (wf fs) as Wfs by (unfold fs, RemoveAll; rewrite RA; by apply wf_filter).
  destruct (installed f fs) as (fs1 & fs2 & E1 & E2 & V1 & V2 & Oth); auto; [done|].
  assert (∀ p, RemoveAll env (t2 f) (RemoveAll env (t1 f) fs2) !! p =
               if decide (under (t2 f) p) then None else if decide (under (t1 f) p) then None else fs2 !! p) as L
    by (intros p; by rewrite !removed).
  assert (∀ d q, apart (t1 f) d → apart (t2 f) d → RemoveAll env (t2 f) (RemoveAll env (t1 f) fs2) !! (d ++ q) = fs2 !! (d ++ q)) as L'.
  { intros d q B1 B2. rewrite L, !decide_False; [done|..]; eapply (apart_below d); try apply under_app; by apply apart_sym. }
  eexists. split.
  { unfold Migrate. rewrite bool_decide_eq_false_2 by done. unfold deferred, mbind, action_bind. rewrite P.
    unfold install, remove, on_disk, mbind, action_bind. cbn [ms_disk ms_db]. fold fs. rewrite E1. cbn [ms_disk ms_db].
    rewrite E2. reflexivity. }
  cbn [ms_disk ms_db]. split_and!; [done|..].
  - intros q. by rewrite L', V1, L1.
  - intros q. by rewrite L', V2, L2.
  - intros p U. rewrite L. repeat case_decide; [done..|]. destruct U as [?|[?|[U0 U1]]]; [done..|].
    rewrite Oth; [|done|intros U; destruct (under_comparable _ _ _ U0 U) as [U'|U']].
    + unfold fs. by rewrite removed, decide_True.
    + destruct (decide (v0 f = ocean f)) as [e|ne]; [congruence|]. by apply nO, under_parent.
    + destruct (ancestors_present _ _ _ _ W X U') as [e|E]; congruence.
  - intros p g F G. rewrite !Forall_cons in F. destruct F as (F1 & F2 & F0 & _). rewrite L, !decide_False by done.
    rewrite Oth; [apply K; [done| |done]; by intros [[? _]|[? _]]|..].
    + intros U. destruct V as [V|V]; [by rewrite V in U|]. destruct (ancestors_present _ _ _ _ W G U) as [e|E]; congruence.
    + intros U. destruct (ancestors_present _ _ _ _ W G U) as [e|E]; congruence.
  - intros nb low. exists (ms_disk s0). rewrite nb in Ar. split.
    + intros p g U G. destruct (safe_migrate f s W) as (_ & K0 & _). rewrite Mg in K0. apply K0; [|done].
      intros [[U' _]|[U' _]]; [apply (apart_below _ _ _ A10 U' U)|apply (apart_below _ _ _ A20 U' U)].
    + apply archive_made in Ar; [|done]. unfold archive in *. by rewrite L', V1, L1.
Qed.
End migrated.

(** * Examples *)
Module MigrationFilesExamples.
Definition env : FsEnv := {| fe_MkdirAll := λ _, true; fe_Create := λ _, true; fe_Open := λ _, true; fe_RemoveAll := λ _, true;
  fe_tar := λ l, [Z.of_nat (length l)]; fe_gzip := λ b, b |}.
(** No file can be made under the directory of the new daemon. *)
Definition full : FsEnv := {| fe_MkdirAll := λ _, true; fe_Create := λ p, bool_decide (¬ under ["home"; "op"; "tdex"]%string p);
  fe_Open := λ _, true; fe_RemoveAll := λ _, true; fe_tar := λ l, [Z.of_nat (length l)]; fe_gzip := λ b, b |}.
Definition d0 : disk := list_to_map [
  ([], Directory); (["home"], Directory); (["home"; "op"], Directory); (["home"; "op"; "notes"], Regular [7] 420);
  (["home"; "op"; "tdex"], Directory); (["home"; "op"; "tdex"; "db"], Directory); (["home"; "op"; "tdex"; "db"; "main"], Directory);
  (["home"; "op"; "tdex"; "db"; "main"; "000001.vlog"], Regular [1; 2; 3] 384);
  (["home"; "op"; "tdex"; "db"; "macaroons.db"], Regular [5] 384); (["home"; "op"; "tdex"; "macaroons"], Directory);
  (["home"; "op"; "tdex"; "macaroons"; "admin.macaroon"], Regular [6] 384)]%string.
Definition s0 : State (S := ()) := {| ms_disk := d0; ms_db := () |}.
Definition v : V0.Vault := {| V0.va_EncryptedMnemonic := "e"; V0.va_PassphraseHash := [1]; V0.va_Accounts := ∅;
  V0.va_AccountAndKeyByAddress := ∅; V0.va_Network := "regtest" |}.
Definition done_ : string → action () error () := λ _, mret ().
Definition f : Flags := {| fl_password := "pw"; fl_v0 := "/home/op/tdex"; fl_v1 := "/home/op/tdex"; fl_ocean := "/home/op/oceand"; fl_noBackup := false |}.
Definition run (env : FsEnv) (pw : string) (f : Flags) :=
  Migrate env (Ret v) (λ _ p, String.eqb p pw) done_ done_ (λ p, p) f s0.

(** [wf], decided. *)
Definition is_dir (fs : disk) (p : path) : bool := match fs !! p with Some Directory => true | _ => false end.
Definition wfb (fs : disk) : bool :=
  forallb (λ kv, negb (unreadable kv.2) && (bool_decide (kv.1 = []) || is_dir fs (Dir kv.1))) (map_to_list fs).
Lemma wfb_wf fs : wfb fs = true → wf fs.
Proof.
  unfold wfb. rewrite forallb_forall. intros K p g L%elem_of_map_to_list%list_elem_of_In%K. cbn [fst snd] in L.
  apply andb_true_iff in L as [A B]. split; [by intros ->|]. intros ne. rewrite bool_decide_eq_false_2 in B by done.
  cbn [orb] in B. unfold is_dir in B. by destruct (fs !! Dir p) as [[]|].
Qed.
Lemma d0_wf : wf d0. Proof. apply wfb_wf. vm_compute. reflexivity. Qed.
Definition no_files (fs : disk) (dir : path) : bool :=
  forallb (λ kv, negb (bool_decide (under dir kv.1)) || match kv.2 with Directory => true | _ => false end) (map_to_list fs).
Definition nothing_in (fs : disk) (dir : path) : bool := forallb (λ kv, negb (bool_decide (under dir kv.1))) (map_to_list fs).
Abbreviation at_op := (λ l : list string, ["home"; "op"]%string ++ l).

Example migrated :
  let '(s, o) := run env "pw" f in
  (o, ms_disk s !! at_op ["tdex"; "tdex.tar.gz"]%string, ms_disk s !! at_op ["tdex"; "db"; "macaroons.db"]%string,
   ms_disk s !! at_op ["oceand"; "regtest"; "db"; "wallet"]%string, ms_disk s !! at_op ["tdex"; "db"; "main"; "000001.vlog"]%string) =
  (Ret (), Some (Regular [10] 420), Some (Regular [5] 384), Some Directory, None).
Proof. vm_compute. reflexivity. Qed.
(** A disk that is full when the new datadir is copied: the old one, the archive of it and
    the new ones are lost. *)
Example full_disk_loses_everything :
  let '(s, o) := run full "pw" f in
  (o, no_files (ms_disk s) (at_op ["tdex"]%string),
   forallb (λ d, nothing_in (ms_disk s) (at_op [d])) [".tdex-daemon-tmp"; ".oceand-tmp"; "oceand"]%string) =
  (Err (Errorf "create"), true, true).
Proof. vm_compute. reflexivity. Qed.
(** A new datadir in the old one: the temporary ones go with the old one. *)
Definition nested : Flags := {| fl_password := "pw"; fl_v0 := "/home/op/tdex"; fl_v1 := "/home/op/tdex/v1"; fl_ocean := "/home/op/oceand"; fl_noBackup := false |}.
Example nested_loses_everything :
  let '(s, o) := run env "pw" nested in
  (o, forallb (λ d, nothing_in (ms_disk s) (at_op [d])) ["tdex"; "oceand"]%string) = (Err (Errorf "stat"), true).
Proof. vm_compute. reflexivity. Qed.

Abbreviation prepared env pw := (prepare env (Ret v) (λ _ p, String.eqb p pw) done_ done_ (λ p, p) f s0).
Ltac not_under := match goal with |- ¬ ?P => apply (bool_decide_eq_false_1 P); vm_compute; reflexivity end.
Lemma failed_migration_keeps_witness :
  (run env "other" f).2 = Err (Errorf "error while migrating domains: %s") ∧
  ms_disk (run env "other" f).1 !! at_op ["tdex"; "db"; "main"; "000001.vlog"]%string = Some (Regular [1; 2; 3] 384).
Proof.
  assert ((prepared env "other").2 = Err (Errorf "error while migrating domains: %s")) as P by (vm_compute; reflexivity).
  pose proof (failed_migration_keeps env (Ret v) (λ _ p, String.eqb p "other") done_ done_ (λ p, p) f s0
    (prepared env "other").1 (prepared env "other").2 d0_wf eq_refl eq_refl) as K.
  destruct K as (s' & E & K & _); [split; not_under..|done| | |].
  { apply surjective_pairing. }
  { by rewrite P. }
  unfold run. rewrite E. split; [done|]. apply K; [by exists ["db"; "main"; "000001.vlog"]%string|vm_compute; reflexivity].
Defined.
Lemma migration_installs_witness :
  (run env "pw" f).2 = Ret () ∧
  ms_disk (run env "pw" f).1 !! at_op ["notes"]%string = Some (Regular [7] 420).
Proof.
  assert ((prepared env "pw").2 = Ret ()) as P by (vm_compute; reflexivity).
  destruct (migration_installs env (Ret v) (λ _ p, String.eqb p "pw") done_ done_ (λ p, p) f s0 (prepared env "pw").1 d0_wf)
    as (s' & E & _ & _ & _ & _ & K & _).
  - split; [|split]; intros p; reflexivity.
  - split; [repeat constructor|constructor]; not_under.
  - discriminate.
  - vm_compute. reflexivity.
  - not_under.
  - rewrite <- P. apply surjective_pairing.
  - unfold run. rewrite E. split; [done|]. apply K; [|vm_compute; reflexivity].
    repeat constructor; not_under.
Defined.
End MigrationFilesExamples.
