(* ===== verification/CoinSelection.v ===== *)
(** Coin selection: pkg/explorer/coinselection.go.

    Go's sort.Slice is not stable, so the order of coins of equal value is
    unspecified: the sort is the class [SortSlice].  The package-level variable
    [combination] that getCombination pushes to and pops from is its first
    argument here; every call leaves it as it found it.  Theorems: what is
    selected covers the target with coins of the right asset, none of them used
    twice, and a selection is found whenever the coins cover the target. *)

From Stdlib Require Import ZArith Lia.
From stdpp Require Import base tactics strings list sorting.
From S2P Require Import Prelude Errors.

(** The part of the Utxo interface the selection reads. *)
Record Utxo := {
  u_Hash : string; u_Index : Z; u_Value : Z; u_Asset : string;
  u_IsConfidential : bool; u_IsRevealed : bool }.

(** sort.Slice by descending value. *)
Class SortSlice := {
  sortSlice : list Utxo → list Utxo;
  sortSlice_perm l : sortSlice l ≡ₚ l;
  sortSlice_sorted l : StronglySorted (desc u_Value) (sortSlice l);
}.

(** uint64 sum *)
Definition sum (items : list Z) : Z := foldl (λ total v, u64 (total + v)) 0%Z items.

Definition isIndexOccupied (i : nat) (l : list nat) : bool := bool_decide (i ∈ l).

(** The first free index holding the value, if any. *)
Fixpoint find_free (v : Z) (i : nat) (values : list Z) (indexes : list nat) : option nat :=
  match values with
  | [] => None
  | v1 :: values =>
      if (v =? v1)%Z && negb (isIndexOccupied i indexes) then Some i
      else find_free v (S i) values indexes
  end.

Definition findIndexes (l values : list Z) : list nat :=
  foldl (λ indexes v, match find_free v 0 values indexes with
                      | Some i => indexes ++ [i]
                      | None => indexes
                      end) [] l.

Fixpoint getCombination (combination src : list Z) (size offset : nat) : list (list Z) :=
  match size with
  | O => [combination]
  | S size' =>
      concat ((λ i, getCombination (combination ++ [nth i src 0%Z]) src size' (S i))
                <$> seq offset (length src + 1 - size - offset))
  end.

(** The first combination of the list that covers the target by at most ten
    times; [target*10] wraps. *)
Fixpoint first_match (target : Z) (result : list (list Z)) : option (list Z) :=
  match result with
  | [] => None
  | c :: result =>
      let total := sum c in
      if (total <? target)%Z then first_match target result
      else if (total =? target)%Z then Some c
      else if (total <=? u64 (target * 10))%Z then Some c
      else first_match target result
  end.

(** Sizes from [i] on; [result] accumulates the combinations of all sizes. *)
Fixpoint try_sizes (items : list Z) (target : Z) (result : list (list Z)) (i left_ : nat) : option (list Z) :=
  match left_ with
  | O => None
  | S left_ =>
      let result := result ++ getCombination [] items i 0 in
      match first_match target result with
      | Some c => Some c
      | None => try_sizes items target result (S i) left_
      end
  end.

Definition getBestCombination (items : list Z) (target : Z) : list Z :=
  match try_sizes items target [] 1 (length items) with
  | Some c => c
  | None =>
      match list_find (λ v, target < v)%Z items with
      | Some (_, v) => [v]
      | None => []
      end
  end.

(** The sort is in place: the indexes are those of the sorted slice. *)
Definition getCoinsIndexes `{SortSlice} (targetAmount : Z) (unblindedUtxos : list Utxo)
    : list Utxo * list nat :=
  let sorted := sortSlice unblindedUtxos in
  let values := u_Value <$> sorted in
  (sorted, findIndexes (getBestCombination values targetAmount) values).

Fixpoint coins_at (l : list Utxo) (indexes : list nat) : outcome error (list Utxo) :=
  match indexes with
  | [] => Ret []
  | i :: indexes => u ← index l i; r ← coins_at l indexes; Ret (u :: r)
  end.

Definition SelectUnspents `{SortSlice} (utxos : list Utxo) (targetAmount : Z) (targetAsset : string)
    : outcome error (list Utxo * Z) :=
  if existsb (λ u, u_IsConfidential u && negb (u_IsRevealed u)) utxos
  then Err (Errorf "error on utxos: all confidential utxos must be already unblinded")
  else
    let unblindedUtxos := filter (λ u, u_Asset u = targetAsset) utxos in
    let '(unblindedUtxos, indexes) := getCoinsIndexes targetAmount unblindedUtxos in
    if bool_decide (indexes = [])
    then Err (Errorf "error on target amount: total utxo amount does not cover target amount")
    else
      coins ← coins_at unblindedUtxos indexes;
      Ret (coins, u64 (sum (u_Value <$> coins) - targetAmount)).

(** * Theorems *)

Section indexes.
Implicit Types (values l : list Z) (occ : list nat).

Lemma find_free_Some v k values occ i :
  find_free v k values occ = Some i →
  (k ≤ i)%nat ∧ values !! (i - k)%nat = Some v ∧ i ∉ occ.
Proof.
  revert k. induction values as [|w values IH]; intros k; cbn; [done|].
  destruct (_ && _) eqn:E.
  - intros [= <-]. apply andb_true_iff in E as [->%Z.eqb_eq E%negb_true_iff%bool_decide_eq_false].
    by rewrite Nat.sub_diag.
  - intros (Hle & Hv & Ho)%IH. split; [lia|]. split; [|done].
    replace (i - k)%nat with (S (i - S k)) by lia. done.
Qed.

Lemma find_free_None v k values occ :
  find_free v k values occ = None → ∀ j, values !! j = Some v → (k + j)%nat ∈ occ.
Proof.
  revert k. induction values as [|w values IH]; intros k; cbn; [done|].
  destruct (_ && _) eqn:E; [done|]. intros Hf [|j]; cbn.
  - intros [= ->]. rewrite Z.eqb_refl in E. cbn in E.
    apply negb_false_iff, bool_decide_eq_true in E. by rewrite Nat.add_0_r.
  - intros Hj. replace (k + S j)%nat with (S k + j)%nat by lia. by apply IH.
Qed.

(** How many positions hold a value. *)
Definition occurrences (v : Z) (l : list Z) : nat := length (filter (λ w, w = v) l).

Lemma occurrences_submseteq v l l' : l ⊆+ l' → (occurrences v l ≤ occurrences v l')%nat.
Proof.
  intros [k Hk]%submseteq_Permutation. unfold occurrences. rewrite Hk, filter_app, length_app. lia.
Qed.

Lemma positions_length v values :
  length (filter (λ i, values !! i = Some v) (seq 0 (length values))) = occurrences v values.
Proof.
  unfold occurrences. induction values as [|w values IH]; [done|].
  cbn [length seq]. rewrite <- fmap_S_seq, !filter_cons. cbn [lookup list_lookup].
  assert (filter (λ i, (w :: values) !! i = Some v) (S <$> seq 0 (length values))
          = S <$> filter (λ i, values !! i = Some v) (seq 0 (length values))) as ->.
  { generalize (seq 0 (length values)) as s. induction s as [|i s IHs]; [done|].
    rewrite fmap_cons, !filter_cons. destruct (decide (values !! i = Some v)).
    - by rewrite !decide_True, fmap_cons, IHs.
    - by rewrite !decide_False, IHs. }
  case_decide as E; case_decide as F; simplify_eq; cbn; rewrite length_fmap, IH; done.
Qed.

Lemma occurrences_map v values occ :
  length (filter (λ i, values !! i = Some v) occ)
  = occurrences v (omap (λ i, values !! i) occ).
Proof.
  unfold occurrences. induction occ as [|i occ IH]; [done|]. rewrite filter_cons.
  change (omap (λ i, values !! i) (i :: occ)) with
    (match values !! i with
     | Some y => y :: omap (λ i, values !! i) occ | None => omap (λ i, values !! i) occ end).
  destruct (values !! i) as [w|] eqn:E; [rewrite filter_cons|by rewrite decide_False].
  destruct (decide (w = v)) as [->|]; [rewrite !decide_True by done|rewrite !decide_False by congruence];
    cbn [length]; by rewrite IH.
Qed.

(** There is a free position as long as the value was taken fewer times than it
    occurs. *)
Lemma find_free_exists v values occ :
  (occurrences v (omap (λ i, values !! i) occ) < occurrences v values)%nat →
  is_Some (find_free v 0 values occ).
Proof.
  intros Hlt. destruct (find_free v 0 values occ) eqn:E; [done|]. exfalso.
  rewrite <- (positions_length v values), <- (occurrences_map v values) in Hlt.
  assert (filter (λ i, values !! i = Some v) (seq 0 (length values))
          ⊆+ filter (λ i, values !! i = Some v) occ) as Hsub.
  { apply NoDup_submseteq; [apply NoDup_filter, NoDup_seq|].
    intros i [Hi _]%list_elem_of_filter. apply list_elem_of_filter. split; [done|].
    by apply (find_free_None _ _ _ _ E). }
  apply submseteq_length in Hsub. lia.
Qed.

(** The indexes found are distinct and hold the values asked for. *)
Lemma findIndexes_spec l values :
  l ⊆+ values →
  NoDup (findIndexes l values) ∧ omap (λ i, values !! i) (findIndexes l values) = l.
Proof.
  unfold findIndexes.
  set (f := λ indexes v, match find_free v 0 values indexes with
                         | Some i => indexes ++ [i] | None => indexes end).
  enough (∀ occ, NoDup occ → omap (λ i, values !! i) occ ++ l ⊆+ values →
    NoDup (foldl f occ l) ∧
    omap (λ i, values !! i) (foldl f occ l) = omap (λ i, values !! i) occ ++ l) as Hgen.
  { intros Hl. apply (Hgen []); [constructor | done]. }
  induction l as [|v l IH]; intros occ Hnd Hsub; cbn [foldl].
  { by rewrite app_nil_r. }
  destruct (find_free_exists v values occ) as [i Hi].
  { assert (occurrences v (omap (λ i, values !! i) occ ++ v :: l) ≤ occurrences v values)%nat as Hle.
    { by apply occurrences_submseteq. }
    unfold occurrences in *. rewrite filter_app, filter_cons, decide_True, length_app in Hle by done.
    cbn in Hle. lia. }
  unfold f at 2 4. rewrite Hi. apply find_free_Some in Hi as (_ & Hv & Hn). rewrite Nat.sub_0_r in Hv.
  assert (omap (λ i, values !! i) (occ ++ [i]) = omap (λ i, values !! i) occ ++ [v]) as Ho.
  { rewrite omap_app. f_equal. cbn. by rewrite Hv. }
  destruct (IH (occ ++ [i])) as [IH1 IH2].
  - apply NoDup_app. split_and!; [done | | apply NoDup_singleton].
    intros j Hj ->%list_elem_of_singleton. done.
  - by rewrite Ho, <- app_assoc.
  - split; [done|]. by rewrite IH2, Ho, <- app_assoc.
Qed.

Lemma findIndexes_bound l values : Forall (λ i, i < length values)%nat (findIndexes l values).
Proof.
  unfold findIndexes.
  set (f := λ indexes v, match find_free v 0 values indexes with
                         | Some i => indexes ++ [i] | None => indexes end).
  assert (Forall (λ i, i < length values)%nat []) as Hocc by constructor.
  revert Hocc. generalize (@nil nat) as occ.
  induction l as [|v l IH]; intros occ Hocc; [done|].
  cbn [foldl]. apply IH.
  unfold f. destruct (find_free v 0 values occ) as [i|] eqn:Hi; [|done].
  apply find_free_Some in Hi as (_ & Hv%lookup_lt_Some & _). apply Forall_app. split; [done|].
  constructor; [lia | constructor].
Qed.
End indexes.

Section combinations.
Local Open Scope Z_scope.
Implicit Types (items src c : list Z).

Lemma elem_of_concat_fmap {A B} (f : A → list B) s y : y ∈ concat (f <$> s) ↔ ∃ i, i ∈ s ∧ y ∈ f i.
Proof.
  induction s as [|i s IH]; cbn.
  - split; [by intros ?%not_elem_of_nil | intros (? & ?%not_elem_of_nil & _); done].
  - rewrite elem_of_app, IH. setoid_rewrite elem_of_cons. naive_solver.
Qed.

(** getCombination enumerates the subsequences of the given size. *)
Lemma getCombination_spec comb src size offset c :
  c ∈ getCombination comb src size offset ↔
  ∃ l, c = comb ++ l ∧ l `sublist_of` drop offset src ∧ length l = size.
Proof.
  revert comb offset c. induction size as [|size IH]; intros comb offset c; cbn [getCombination].
  { rewrite list_elem_of_singleton. split.
    - intros ->. exists []. rewrite app_nil_r. split_and!; [done | apply sublist_nil_l | done].
    - intros (l & -> & _ & ->%nil_length_inv). by rewrite app_nil_r. }
  rewrite elem_of_concat_fmap. split.
  - intros (i & Hi%elem_of_seq & Hc). apply IH in Hc as (l & -> & Hl & Hlen).
    destruct (lookup_lt_is_Some_2 src i) as [x Hx]; [lia|].
    rewrite (nth_lookup_Some _ _ _ _ Hx), <- app_assoc.
    exists (x :: l). split_and!; [done | | cbn; lia].
    apply drop_S in Hx. replace i with (offset + (i - offset))%nat in Hx at 1 by lia.
    rewrite <- drop_drop in Hx.
    transitivity (x :: drop (S i) src); [by apply sublist_skip|]. rewrite <- Hx. apply sublist_drop.
  - intros (l & -> & Hl & Hlen). destruct l as [|x l]; [done|]. injection Hlen as Hlen.
    apply sublist_cons_l in Hl as (k1 & k2 & Hd & Hl).
    set (i := (offset + length k1)%nat).
    assert (src !! i = Some x) as Hx.
    { unfold i. rewrite <- lookup_drop, Hd. rewrite lookup_app_r, Nat.sub_diag by lia. done. }
    assert (drop (S i) src = k2) as Hk.
    { unfold i. replace (S (offset + length k1)) with (offset + S (length k1))%nat by lia.
      rewrite <- drop_drop, Hd, drop_app_ge by lia. by replace (_ - _)%nat with 1%nat by lia. }
    exists i. split; cycle 1.
    + apply IH. exists l. rewrite (nth_lookup_Some _ _ _ _ Hx), <- app_assoc, Hk. done.
    + apply elem_of_seq.
      apply sublist_length in Hl. apply (f_equal length) in Hk. rewrite length_drop in Hk.
      apply lookup_lt_Some in Hx. unfold i in *. lia.
Qed.

(** A combination is refused by the loop. *)
Definition refused (target : Z) (c : list Z) : Prop :=
  sum c < target ∨ (target < sum c ∧ u64 (target * 10) < sum c).

Lemma first_match_spec target result :
  match first_match target result with
  | Some c => c ∈ result ∧ target ≤ sum c
  | None => ∀ c, c ∈ result → refused target c
  end.
Proof.
  induction result as [|c result IH]; cbn; [by intros c ?%not_elem_of_nil|].
  assert (refused target c → match first_match target result with
    | Some c' => c' ∈ c :: result ∧ target ≤ sum c'
    | None => ∀ c', c' ∈ c :: result → refused target c' end) as Hskip.
  { intros Hr. destruct (first_match target result); [destruct IH; split; [by right|done]|].
    intros c' [->|]%elem_of_cons; auto. }
  destruct (Z.ltb_spec (sum c) target); [apply Hskip; by left|].
  destruct (Z.eqb_spec (sum c) target); [split; [by left | lia]|].
  destruct (Z.leb_spec (sum c) (u64 (target * 10))); [split; [by left | lia]|].
  apply Hskip. right. lia.
Qed.

Lemma try_sizes_spec items target result i n :
  match try_sizes items target result i n with
  | Some c => target ≤ sum c ∧ (c ∈ result ∨ ∃ k, (i ≤ k)%nat ∧ c ∈ getCombination [] items k 0)
  | None => ∀ k c, (i ≤ k < i + n)%nat → c ∈ getCombination [] items k 0 → refused target c
  end.
Proof.
  revert result i. induction n as [|n IH]; intros result i; cbn [try_sizes]; [intros; lia|].
  pose proof (first_match_spec target (result ++ getCombination [] items i 0)) as HF.
  destruct (first_match _ _) as [c|].
  - destruct HF as [[?|?]%elem_of_app ?]; eauto 6.
  - specialize (IH (result ++ getCombination [] items i 0) (S i)).
    destruct (try_sizes _ _ _ _ _) as [c|].
    + destruct IH as [Ht [Hc|(k & Hk & Hc)]]; split; [done| |done|].
      * apply elem_of_app in Hc as [?|?]; eauto.
      * right. exists k. split; [lia | done].
    + intros k c Hk Hc. destruct (decide (k = i)) as [->|].
      * apply HF. apply elem_of_app. by right.
      * apply (IH k c); [lia | done].
Qed.

(** Sums without wrapping. *)
Definition zsum (l : list Z) : Z := foldr Z.add 0 l.

Lemma sum_zsum l : sum l = u64 (zsum l).
Proof.
  unfold sum. change 0 with (u64 0) at 1. rewrite <- (Z.add_0_l (zsum l)).
  generalize 0 as s. induction l as [|x l IH]; intros s; cbn [foldl].
  - cbn. by rewrite Z.add_0_r.
  - rewrite u64_add_l, IH. f_equal. cbn. fold (zsum l). lia.
Qed.

Lemma zsum_nonneg l : Forall (λ v, 0 ≤ v) l → 0 ≤ zsum l.
Proof. unfold zsum. induction 1; cbn in *; lia. Qed.
Lemma zsum_perm l l' : l ≡ₚ l' → zsum l = zsum l'.
Proof. unfold zsum. induction 1; cbn in *; lia. Qed.
Lemma zsum_app l l' : zsum (l ++ l') = zsum l + zsum l'.
Proof. unfold zsum. induction l; cbn in *; lia. Qed.
Lemma nonneg_submseteq l l' : Forall (λ v, 0 ≤ v) l' → l ⊆+ l' → Forall (λ v, 0 ≤ v) l.
Proof. intros Hp [k Hk]%submseteq_Permutation. rewrite Hk in Hp. by apply Forall_app in Hp as [? _]. Qed.
Lemma zsum_submseteq l l' : Forall (λ v, 0 ≤ v) l' → l ⊆+ l' → zsum l ≤ zsum l'.
Proof.
  intros Hp [k Hk]%submseteq_Permutation. rewrite Hk in Hp. apply Forall_app in Hp as [_ Hp].
  rewrite (zsum_perm _ _ Hk), zsum_app. apply zsum_nonneg in Hp. lia.
Qed.
Lemma sum_exact l : Forall (λ v, 0 ≤ v) l → zsum l < 2 ^ 64 → sum l = zsum l.
Proof. intros Hp Hl. rewrite sum_zsum. apply u64_id. split; [by apply zsum_nonneg | done]. Qed.

(** What getBestCombination returns, if anything, is a non-empty part of the
    coins that covers the target. *)
Lemma getBestCombination_sound items target :
  Forall (λ v, 0 ≤ v) items → zsum items < 2 ^ 64 →
  let c := getBestCombination items target in
  c ⊆+ items ∧ (c ≠ [] → target ≤ zsum c).
Proof.
  intros Hp Hs. unfold getBestCombination.
  pose proof (try_sizes_spec items target [] 1 (length items)) as HT.
  destruct (try_sizes _ _ _ _ _) as [c|].
  - destruct HT as [Ht [Hc%not_elem_of_nil|(k & Hk & Hc)]]; [done|].
    apply getCombination_spec in Hc as (l & -> & Hl & Hlen). rewrite drop_0 in Hl. cbn [app].
    apply sublist_submseteq in Hl. split; [done|]. intros _.
    rewrite sum_exact in Ht; [done | |].
    + by eapply nonneg_submseteq.
    + apply Z.le_lt_trans with (zsum items); [by apply zsum_submseteq | done].
  - destruct (list_find _ items) as [[j v]|] eqn:E; [|split; [apply submseteq_nil_l | done]].
    apply list_find_Some in E as (Hj & Hv & _). split.
    + apply singleton_submseteq_l. by eapply list_elem_of_lookup_2.
    + intros _. cbn. lia.
Qed.

(** If every prefix were refused and every coin were at most the target, the
    coins would not cover it. *)
Lemma getBestCombination_complete items target :
  Forall (λ v, 0 ≤ v) items → zsum items < 2 ^ 64 → 0 ≤ target → target * 10 < 2 ^ 64 →
  items ≠ [] → target ≤ zsum items → getBestCombination items target ≠ [].
Proof.
  intros Hp Hs Ht0 Ht10 Hne Hcov. unfold getBestCombination.
  pose proof (try_sizes_spec items target [] 1 (length items)) as HT.
  destruct (try_sizes _ _ _ _ _) as [c|].
  { destruct HT as [_ [Hc%not_elem_of_nil|(k & Hk & Hc)]]; [done|].
    apply getCombination_spec in Hc as (l & -> & _ & <-).
    destruct l; [cbn in Hk; lia | done]. }
  destruct (list_find _ items) as [[j v]|] eqn:E; [done|]. exfalso.
  apply list_find_None in E.
  assert (∀ k, (1 ≤ k ≤ length items)%nat → zsum (take k items) < target) as Hpre.
  { intros k Hk. induction k as [|k IH]; [lia|].
    destruct (lookup_lt_is_Some_2 items k) as [v Hv]; [lia|].
    assert (v ≤ target) as Hvt by (apply Forall_lookup_1 with (1 := E) in Hv; lia).
    assert (zsum (take (S k) items) = zsum (take k items) + v) as Hstep.
    { rewrite (take_S_r _ _ _ Hv), zsum_app. cbn. lia. }
    assert (refused target (take (S k) items)) as Hr.
    { apply (HT (S k)); [lia|]. apply getCombination_spec. exists (take (S k) items).
      split_and!; [done | rewrite drop_0; apply sublist_take | rewrite length_take; lia]. }
    assert (take (S k) items ⊆+ items) as Hsub by apply sublist_submseteq, sublist_take.
    unfold refused in Hr. rewrite u64_id in Hr by (unfold is_u64; lia).
    rewrite sum_exact in Hr; [|by eapply nonneg_submseteq|].
    2:{ apply Z.le_lt_trans with (zsum items); [by apply zsum_submseteq | done]. }
    destruct k; [change (zsum (take 0 items)) with 0 in Hstep; lia|]. specialize (IH ltac:(lia)). lia. }
  assert (0 < length items)%nat by (destruct items; [done | cbn; lia]).
  specialize (Hpre (length items) ltac:(lia)). rewrite take_ge in Hpre by lia. lia.
Qed.
End combinations.

Section selection.
Context `{SortSlice}.
Local Open Scope Z_scope.

Lemma coins_at_spec (l : list Utxo) (idx : list nat) :
  Forall (λ i, i < length l)%nat idx →
  ∃ coins, coins_at l idx = Ret coins ∧ coins = omap (λ i, l !! i) idx.
Proof.
  induction 1 as [|i idx Hi _ (coins & IH & ->)]; cbn [coins_at]; [by eexists|].
  apply lookup_lt_is_Some in Hi as [u Hu]. unfold index. rewrite Hu; cbn [mbind outcome_bind].
  rewrite IH. eexists. split; [reflexivity|]. cbn. by rewrite Hu.
Qed.

Lemma omap_perm {A B} (f : A → option B) l l' : l ≡ₚ l' → omap f l ≡ₚ omap f l'.
Proof.
  induction 1 as [|x l l' _ IH|x y l|l1 l2 l3 _ IH1 _ IH2]; cbn.
  - done.
  - destruct (f x); [by constructor | done].
  - destruct (f x), (f y); done || apply Permutation_swap.
  - by rewrite IH1.
Qed.

(** Distinct indexes select a part of a list. *)
Lemma omap_lookup_submseteq (l : list Utxo) (idx : list nat) : NoDup idx → omap (λ i, l !! i) idx ⊆+ l.
Proof.
  intros Hnd. assert (l ≡ₚ omap (λ i, l !! i) (seq 0 (length l))) as HP.
  { induction l as [|x l IH]; [done|]. cbn. rewrite <- fmap_S_seq. constructor. rewrite IH at 1.
    generalize (seq 0 (length l)) as s. intros s. induction s as [|i s IHs]; [done|]. cbn.
    destruct (l !! i); [by rewrite IHs | exact IHs]. }
  transitivity (omap (λ i, l !! i) (seq 0 (length l))); [|by rewrite <- HP]. clear HP.
  transitivity (omap (λ i, l !! i) (filter (λ i, i < length l)%nat idx)).
  - enough (omap (λ i, l !! i) idx = omap (λ i, l !! i) (filter (λ i, i < length l)%nat idx)) as <- by done.
    induction idx as [|i idx IH]; [done|]. inversion_clear Hnd.
    rewrite filter_cons. cbn. destruct (l !! i) eqn:E.
    + rewrite decide_True by (by eapply lookup_lt_Some). cbn. rewrite E. f_equal. auto.
    + rewrite decide_False by (apply lookup_ge_None in E; lia). auto.
  - assert (filter (λ i, i < length l)%nat idx ⊆+ seq 0 (length l)) as [k Hk]%submseteq_Permutation.
    { apply NoDup_submseteq; [by apply NoDup_filter|].
      intros i [? _]%list_elem_of_filter. apply elem_of_seq. lia. }
    rewrite (omap_perm _ _ _ Hk), omap_app. apply submseteq_inserts_r. done.
Qed.

Lemma omap_values (l : list Utxo) (idx : list nat) : omap (λ i, (u_Value <$> l) !! i) idx = u_Value <$> omap (λ i, l !! i) idx.
Proof.
  induction idx as [|i idx IH]; [done|]. cbn. rewrite list_lookup_fmap.
  destruct (l !! i); cbn; [by f_equal | exact IH].
Qed.

(** What the selection does once the coins of the asset are sorted. *)
Lemma selection_steps utxos target asset :
  let coins := filter (λ u, u_Asset u = asset) utxos in
  let values := u_Value <$> sortSlice coins in
  Forall (λ u, 0 ≤ u_Value u) coins → zsum (u_Value <$> coins) < 2 ^ 64 →
  ∃ selected, coins_at (sortSlice coins) (findIndexes (getBestCombination values target) values) = Ret selected ∧
    selected ⊆+ coins ∧ u_Value <$> selected = getBestCombination values target ∧
    Forall (λ v, 0 ≤ v) values ∧ zsum values = zsum (u_Value <$> coins).
Proof.
  intros coins values Hp Hs.
  assert (values ≡ₚ u_Value <$> coins) as HP by (unfold values; by rewrite sortSlice_perm).
  assert (Forall (λ v, 0 ≤ v) values) as Hv by (rewrite HP; by apply Forall_fmap).
  pose proof (zsum_perm _ _ HP) as Hz. rewrite <- Hz in Hs.
  destruct (getBestCombination_sound values target Hv Hs) as [Hsub _].
  destruct (findIndexes_spec _ _ Hsub) as [Hnd Ho]. cbv zeta in *.
  destruct (coins_at_spec (sortSlice coins) (findIndexes (getBestCombination values target) values))
    as (selected & Hc & ->).
  { pose proof (findIndexes_bound (getBestCombination values target) values) as Hb.
    assert (length values = length (sortSlice coins)) as Hl by apply length_fmap.
    by rewrite Hl in Hb. }
  exists (omap (λ i, sortSlice coins !! i) (findIndexes (getBestCombination values target) values)).
  split_and!; [done | | | done | done].
  - rewrite <- (sortSlice_perm coins). by apply omap_lookup_submseteq.
  - rewrite <- omap_values. exact Ho.
Qed.

(** The coins of the asset asked for. *)
Definition coins_of (utxos : list Utxo) (asset : string) : list Utxo :=
  filter (λ u, u_Asset u = asset) utxos.

(** Values are uint64 amounts whose sum is one too. *)
Definition amounts_fit (l : list Utxo) : Prop :=
  Forall (λ u, 0 ≤ u_Value u) l ∧ zsum (u_Value <$> l) < 2 ^ 64.

Lemma selected_coins_cover utxos target asset coins change :
  amounts_fit (coins_of utxos asset) → 0 ≤ target →
  SelectUnspents utxos target asset = Ret (coins, change) →
  coins ≠ [] ∧ coins ⊆+ coins_of utxos asset ∧ 0 ≤ change ∧
  zsum (u_Value <$> coins) = target + change.
Proof.
  intros [Hp Hs] Ht. unfold SelectUnspents, getCoinsIndexes. destruct (existsb _ _); [done|].
  destruct (selection_steps utxos target asset Hp Hs) as (sel & Hc & Hsub & Hv & Hnn & Hz).
  cbv zeta in *. case_bool_decide as Hi; [done|]. fold (coins_of utxos asset) in *. rewrite Hc.
  cbn [mbind outcome_bind]. intros [= <- <-].
  destruct (getBestCombination_sound _ target Hnn ltac:(by rewrite Hz)) as [Hbs Hcov]. cbv zeta in *.
  rewrite <- Hv in Hcov, Hbs. assert (sel ≠ []) as Hne.
  { intros ->. cbn in Hv. rewrite <- Hv in Hi. done. }
  specialize (Hcov ltac:(by destruct sel)).
  assert (Forall (λ v, 0 ≤ v) (u_Value <$> sel)) as Hns by (by eapply nonneg_submseteq).
  apply zsum_submseteq in Hbs; [|done].
  rewrite sum_exact by (done || lia). rewrite u64_id by (unfold is_u64; lia). split_and!; [done.. | lia | lia].
Qed.

(** C15: When coins are selected they are a non-empty part of the unspents of
    the asked asset, none taken twice, they cover the target, and the change is
    exactly what they exceed it by. *)
Theorem selection_sound utxos target asset coins change :
  amounts_fit (coins_of utxos asset) → 0 ≤ target →
  SelectUnspents utxos target asset = Ret (coins, change) →
  coins ≠ [] ∧ coins ⊆+ coins_of utxos asset ∧ 0 ≤ change ∧
  zsum (u_Value <$> coins) = target + change.
Proof. apply selected_coins_cover. Qed.

(** C16: A selection is found whenever the unspents are all revealed and those
    of the asset cover the target, for targets whose tenfold is an uint64. *)
Theorem selection_complete utxos target asset :
  amounts_fit (coins_of utxos asset) → 0 ≤ target → target * 10 < 2 ^ 64 →
  Forall (λ u, u_IsConfidential u = true → u_IsRevealed u = true) utxos →
  coins_of utxos asset ≠ [] → target ≤ zsum (u_Value <$> coins_of utxos asset) →
  ∃ coins change, SelectUnspents utxos target asset = Ret (coins, change).
Proof.
  intros [Hp Hs] Ht Ht10 Hrev Hne Hcov. unfold SelectUnspents, getCoinsIndexes.
  destruct (existsb _ _) eqn:E.
  { apply existsb_exists in E as (u & Hu%list_elem_of_In & Hc).
    rewrite Forall_forall in Hrev. specialize (Hrev u Hu).
    destruct (u_IsConfidential u), (u_IsRevealed u); naive_solver. }
  destruct (selection_steps utxos target asset Hp Hs) as (sel & Hc & _ & Hv & Hnn & Hz).
  cbv zeta in *. fold (coins_of utxos asset) in *. rewrite Hc.
  case_bool_decide as Hi; [|by eexists _, _]. exfalso.
  rewrite Hi in Hc. injection Hc as <-. symmetry in Hv.
  apply getBestCombination_complete in Hv; try done; [by rewrite Hz | | by rewrite Hz].
  intros Hn%fmap_nil_inv. apply Hne. apply Permutation_nil_r. by rewrite <- (sortSlice_perm (coins_of utxos asset)), Hn.
Qed.
End selection.

(** * Witnesses *)
Module SelectionExamples.

#[local] Instance insertion : SortSlice :=
  {| sortSlice := sort_desc u_Value;
     sortSlice_perm := sort_desc_perm u_Value;
     sortSlice_sorted := sort_desc_sorted u_Value |}.

Definition coin (i v : Z) (a : string) : Utxo :=
  {| u_Hash := "ab"; u_Index := i; u_Value := v; u_Asset := a;
     u_IsConfidential := true; u_IsRevealed := true |}.
Definition coins : list Utxo :=
  [coin 0 5 "lbtc"; coin 1 40 "usdt"; coin 2 61 "lbtc"; coin 3 61 "lbtc"; coin 4 38 "lbtc"].

Lemma selection_sound_witness :
  coins_of coins "lbtc" ≠ [] ∧
  SelectUnspents coins 100 "lbtc" = Ret ([coin 2 61 "lbtc"; coin 3 61 "lbtc"], 22)%Z ∧
  [coin 2 61 "lbtc"; coin 3 61 "lbtc"] ⊆+ coins_of coins "lbtc".
Proof.
  split; [done|]. split; [vm_compute; reflexivity|].
  apply (selection_sound coins 100 "lbtc" [coin 2 61 "lbtc"; coin 3 61 "lbtc"] 22);
    [split; [by repeat constructor | done] | done | vm_compute; reflexivity].
Defined.

Lemma selection_complete_witness :
  ∃ cs change, SelectUnspents coins 160 "lbtc" = Ret (cs, change).
Proof.
  apply selection_complete; [split; [by repeat constructor | done] | done.. | | done | done].
  by repeat constructor.
Defined.
End SelectionExamples.
