(* ===== verification/TradeClient.v ===== *)
(** The trade client: pkg/trade and pkg/trade/client, the library with which a trader
    buys from or sells to a daemon.

    The daemon on the other side is the class [TradeRpc]: one call per method of the
    trade service.  [daemon_rpc] is the instance that is the daemon of this development,
    TradeHandlers.v behind its recovery interceptor, so that theorems speak of the two
    together.  The explorer is a function, go-elements' updater and signer, addresses and
    keys are the classes [PsetUpdater] and [ClientKeys].  The coins a trader has are
    those of CoinSelection.v, with the rest of the Utxo interface as methods. *)

From Stdlib Require Import ZArith Lia.
From stdpp Require Import base tactics strings list gmap.
From S2P Require Import Prelude Errors Decimal Formula Market Trade Repos SwapMsg Wallet TradeService Report Calendar Requests Operator TxEvents Listing Handlers TradeHandlers CoinSelection.
Local Open Scope Z_scope.

(** * Libraries *)

Record prevout := { po_Script : bytes; po_Value : bytes; po_RangeProof : bytes }.
Record OutputArgs := {
  oa_Asset : string; oa_Amount : Z; oa_Script : bytes; oa_BlindingKey : bytes; oa_BlinderIndex : Z }.

(** psetv2.New, the updater, ToBase64 and the rest of the Utxo interface; [None] is an
    error. *)
Class PsetUpdater `{Elements} := {
  psetv2_New : option psetv2;
  AddInputs : list (string * Z) → psetv2 → option psetv2;
  AddInWitnessUtxo : Z → option prevout → psetv2 → option psetv2;
  AddInUtxoRangeProof : Z → bytes → psetv2 → option psetv2;
  AddOutputs : list OutputArgs → psetv2 → option psetv2;
  ToBase64 : psetv2 → option string;
  Parse : Utxo → option prevout;
  AssetBlinder : Utxo → bytes;
  ValueBlinder : Utxo → bytes;
}.
(** An updater only adds what it is told to, and what is serialised can be read back, as
    a pset of version 2 and not of version 0. *)
Class PsetUpdaterLaws `{PsetUpdater} : Prop := {
  new_empty p : psetv2_New = Some p → InputCount p = 0 ∧ psetv2_Outputs p = [];
  inputs_added l p p' : AddInputs l p = Some p' →
    InputCount p' = InputCount p + Z.of_nat (length l) ∧ psetv2_Outputs p' = psetv2_Outputs p;
  witness_added i o p p' : AddInWitnessUtxo i o p = Some p' →
    InputCount p' = InputCount p ∧ psetv2_Outputs p' = psetv2_Outputs p;
  proof_added i o p p' : AddInUtxoRangeProof i o p = Some p' →
    InputCount p' = InputCount p ∧ psetv2_Outputs p' = psetv2_Outputs p;
  outputs_added l p p' : AddOutputs l p = Some p' → InputCount p' = InputCount p ∧
    ∃ outs, psetv2_Outputs p' = psetv2_Outputs p ++ outs ∧
      Forall2 (λ a o, TxIDFromBytes (out_Asset o) = oa_Asset a ∧ out_Value o = oa_Amount a ∧ out_Script o = oa_Script a) l outs;
  base64_read p s : ToBase64 p = Some s → psetv2_NewPsetFromBase64 s = Some p ∧ pset_NewPsetFromBase64 s = None;
}.

(** Keys, addresses and signatures. *)
Class ClientKeys `{Elements} := {
  PrivKey : Type;
  PrivKeyFromBytes : bytes → PrivKey;
  SerializeCompressed : PrivKey → bytes;          (* of the public key *)
  ToOutputScript : string → option bytes;
  ConfidentialAddress : PrivKey → PrivKey → string → string;   (* ConfidentialWitnessPubKeyHash *)
  PaymentScript : PrivKey → PrivKey → string → bytes * bytes;  (* Script, WitnessScript *)
  WitnessUtxos : psetv2 → list (option prevout);
  HashForWitnessV0 : psetv2 → nat → bytes → bytes → option bytes;  (* of UnsignedTx, SigHashAll *)
  ecdsa_Sign : PrivKey → bytes → bytes;
  sig_Verify : bytes → bytes → PrivKey → bool;
  NewSigner : psetv2 → bool;
  SignInput : nat → bytes → bytes → psetv2 → option psetv2;
}.

(** * Markets, trade types, options *)

Record Market := { tm_BaseAsset : string; tm_QuoteAsset : string }.
Definition hex32 (s : string) : bool := let '(buf, ok) := hex_DecodeString s in ok && (length buf =? 32)%nat.
Definition Validate (m : Market) : outcome error () :=
  if negb (hex32 (tm_BaseAsset m)) then new_error "base asset must be a 32-byte array in hex format"
  else if negb (hex32 (tm_QuoteAsset m)) then new_error "quote asset must be a 32-byte array in hex format"
  else Ret ().

Definition Buy : Z := 0.
Definition Sell : Z := 1.
Definition TradeType_Validate (t : Z) : outcome error () :=
  if negb (t =? TRADE_TYPE_BUY) && negb (t =? TRADE_TYPE_SELL)
  then new_error "trade type must be either BUY or SELL" else Ret ().
Definition type_IsBuy (t : Z) : bool := t =? TRADE_TYPE_BUY.
Definition type_IsSell (t : Z) : bool := t =? TRADE_TYPE_SELL.

Record PreviewOpts := {
  pv_Market : Market; pv_TradeType : Z; pv_Amount : Z; pv_Asset : string; pv_FeeAsset : string }.
Record PreviewResult := {
  pr_AssetToSend : string; pr_AmountToSend : Z; pr_AssetToReceive : string; pr_AmountToReceive : Z;
  pr_FeeAmount : Z; pr_FeeAsset : string }.
Record BuyOrSellOpts := {
  bs_Market : Market; bs_Amount : Z; bs_Asset : string; bs_Address : string; bs_BlindingKey : bytes; bs_FeeAsset : string }.
Record BuyOrSellAndCompleteOpts := {
  bc_Market : Market; bc_Amount : Z; bc_Asset : string; bc_PrivateKey : bytes; bc_BlindingKey : bytes; bc_FeeAsset : string }.

(** [if buf, err := hex.DecodeString(s); err != nil || len(buf) != 32 { return msg }] *)
Definition check_hex32 (s : string) (msg : string) : outcome error () := if hex32 s then Ret () else new_error msg.
Definition PreviewOpts_validate (o : PreviewOpts) : outcome error () :=
  _ ← Validate (pv_Market o);
  _ ← TradeType_Validate (pv_TradeType o);
  _ ← (if pv_Amount o <=? 0 then new_error "amount must be a positive satoshi amount" else Ret ());
  _ ← check_hex32 (pv_Asset o) "asset must be a 32-byte array in hex format";
  check_hex32 (pv_FeeAsset o) "fee asset must be a 32-byte array in hex format".
Definition BuyOrSellOpts_validate `{ClientKeys} (o : BuyOrSellOpts) : outcome error () :=
  _ ← Validate (bs_Market o);
  _ ← (if bs_Amount o <=? 0 then new_error "amount must be a positive satoshi amount" else Ret ());
  _ ← check_hex32 (bs_Asset o) "asset must be a 32-byte array in hex format";
  _ ← (if (String.length (bs_Address o) <=? 0)%nat then new_error "address must not be null" else Ret ());
  _ ← (match ToOutputScript (bs_Address o) with None => new_error "address is not valid" | Some _ => Ret () end);
  _ ← (if bool_decide (bs_BlindingKey o = []) then new_error "blinding key must not be null" else Ret ());
  check_hex32 (bs_FeeAsset o) "fee asset must be a 32-byte array in hex format".
Definition BuyOrSellAndCompleteOpts_validate (o : BuyOrSellAndCompleteOpts) : outcome error () :=
  _ ← Validate (bc_Market o);
  _ ← (if bc_Amount o <=? 0 then new_error "amount must be a positive satoshi amount" else Ret ());
  _ ← check_hex32 (bc_Asset o) "asset must be a 32-byte array in hex format";
  _ ← (if bool_decide (bc_PrivateKey o = []) then new_error "private key must not be null" else Ret ());
  _ ← (if bool_decide (bc_BlindingKey o = []) then new_error "blinding key must not be null" else Ret ());
  check_hex32 (bc_FeeAsset o) "fee asset must be a 32-byte array in hex format".

(** * The client of the trade service *)

Class TradeRpc (R : Type) := {
  rpc_ListMarkets : action R rpc_error (list pb_MarketWithFee);
  rpc_GetMarketBalance : option pb_Market → action R rpc_error pb_GetMarketBalanceResponse;
  rpc_PreviewTrade : pb_PreviewTradeRequest → action R rpc_error (list pb_Preview);
  rpc_ProposeTrade : pb_ProposeTradeRequest → action R rpc_error pb_ProposeTradeResponse;
  rpc_CompleteTrade : option V2SwapComplete → option V2SwapFail → action R rpc_error pb_CompleteTradeResponse;
}.

(** An error of the library or of the call. *)
Inductive client_error := Local (e : error) | Remote (e : rpc_error).

Section client.
Context {R : Type} `{TradeRpc R} `{Codecs}.
Abbreviation act := (action R client_error).
Definition local {A} (m : outcome error A) : act A :=
  lift (match m with Ret a => Ret a | Err e => Err (Local e) | Panic p => Panic p end).
Definition remote {A} (m : action R rpc_error A) : act A := λ r,
  match m r with (r', Ret a) => (r', Ret a) | (r', Err e) => (r', Err (Remote e)) | (r', Panic p) => (r', Panic p) end.

Definition wire_market (m : Market) : option pb_Market :=
  Some {| pbm_BaseAsset := tm_BaseAsset m; pbm_QuoteAsset := tm_QuoteAsset m |}.
Definition client_Markets : act (list pb_MarketWithFee) := remote rpc_ListMarkets.
Definition client_GetMarketBalance (m : Market) : act pb_GetMarketBalanceResponse :=
  _ ← local (Validate m);
  remote (rpc_GetMarketBalance (wire_market m)).

Record PreviewTradeOpts := {
  pt_Market : Market; pt_TradeType : Z; pt_Amount : Z; pt_Asset : string; pt_FeeAsset : string }.
Definition PreviewTradeOpts_validate (o : PreviewTradeOpts) : outcome error () :=
  _ ← Validate (pt_Market o);
  _ ← TradeType_Validate (pt_TradeType o);
  _ ← (if pt_Amount o =? 0 then new_error "amount must be greater than 0" else Ret ());
  _ ← check_hex32 (pt_Asset o) "asset must be a 32-byte array in hex format";
  check_hex32 (pt_FeeAsset o) "fee asset must be a 32-byte array in hex format".
Definition client_PreviewTrade (o : PreviewTradeOpts) : act (list pb_Preview) :=
  _ ← local (PreviewTradeOpts_validate o);
  remote (rpc_PreviewTrade {| ptr_Market := wire_market (pt_Market o); ptr_Type := pt_TradeType o;
    ptr_Amount := pt_Amount o; ptr_Asset := pt_Asset o; ptr_FeeAsset := pt_FeeAsset o |}).

Record TradeProposeOpts := { tp_Market : Market; tp_SwapRequest : bytes; tp_TradeType : Z }.
Definition TradeProposeOpts_validate (o : TradeProposeOpts) : outcome error () :=
  _ ← Validate (tp_Market o);
  _ ← (if snd (Unmarshal (M := V2SwapRequest) (tp_SwapRequest o)) then Ret ()
       else new_error "swap request must be a valid serialized message");
  TradeType_Validate (tp_TradeType o).
(** The fields for the fee are left at their zero values. *)
Definition proposal (o : TradeProposeOpts) : pb_ProposeTradeRequest := {|
  ppr_Market := wire_market (tp_Market o); ppr_Type := tp_TradeType o;
  ppr_SwapRequest := Some (fst (Unmarshal (tp_SwapRequest o))); ppr_FeeAsset := ""; ppr_FeeAmount := 0 |}.
Definition client_TradePropose (o : TradeProposeOpts) : act pb_ProposeTradeResponse :=
  _ ← local (TradeProposeOpts_validate o);
  remote (rpc_ProposeTrade (proposal o)).

Record TradeCompleteOpts := { tc_SwapComplete : bytes; tc_SwapFail : bytes }.
Definition TradeCompleteOpts_validate (o : TradeCompleteOpts) : outcome error () :=
  let complete := negb (bool_decide (tc_SwapComplete o = [])) in
  let fail := negb (bool_decide (tc_SwapFail o = [])) in
  if negb complete && negb fail then new_error "swap complete and swap fail messages must not be both null"
  else if complete && fail then new_error "swap complete and swap fail messages must not be both defined"
  else if complete && negb (snd (Unmarshal (M := V2SwapComplete) (tc_SwapComplete o)))
  then new_error "swap complete must be a valid serialized message"
  else if fail && negb (snd (Unmarshal (M := V2SwapFail) (tc_SwapFail o)))
  then new_error "swap fail must be a valid serialized message"
  else Ret ().
(** The message of some bytes, nil when there are none. *)
Definition message_of {M} `{ProtoMessage M} (b : bytes) : option M :=
  if bool_decide (b = []) then None else Some (fst (Unmarshal b)).
Definition client_TradeComplete (o : TradeCompleteOpts) : act pb_CompleteTradeResponse :=
  _ ← local (TradeCompleteOpts_validate o);
  remote (rpc_CompleteTrade (message_of (tc_SwapComplete o)) (message_of (tc_SwapFail o))).
End client.

(** * Trades *)

(** What the other side quotes and what was asked for, as what is sent and received. *)
Definition preview_result (o : PreviewOpts) (p : pb_Preview) : PreviewResult :=
  let swapped := if type_IsBuy (pv_TradeType o)
                 then bool_decide (pv_Asset o = tm_QuoteAsset (pv_Market o))
                 else bool_decide (pv_Asset o = tm_BaseAsset (pv_Market o)) in
  if swapped
  then {| pr_AssetToSend := pv_Asset o; pr_AmountToSend := pv_Amount o;
          pr_AssetToReceive := pvw_Asset p; pr_AmountToReceive := pvw_Amount p;
          pr_FeeAmount := pvw_FeeAmount p; pr_FeeAsset := pvw_FeeAsset p |}
  else {| pr_AssetToSend := pvw_Asset p; pr_AmountToSend := pvw_Amount p;
          pr_AssetToReceive := pv_Asset o; pr_AmountToReceive := pv_Amount o;
          pr_FeeAmount := pvw_FeeAmount p; pr_FeeAsset := pvw_FeeAsset p |}.

Definition or_err {A} (msg : string) (o : option A) : outcome error A :=
  match o with Some a => Ret a | None => Err (Errorf msg) end.

Section swap_tx.
Context `{PsetUpdater} `{!SortSlice}.
(** The error of Parse is discarded, the output it returns then is nil. *)
Definition add_coin (p : psetv2) (u : Utxo) : outcome error psetv2 :=
  p ← or_err "add inputs" (AddInputs [(u_Hash u, u_Index u)] p);
  let index := InputCount p - 1 in
  p ← or_err "add witness utxo" (AddInWitnessUtxo index (Parse u) p);
  prevout ← deref (Parse u);
  or_err "add range proof" (AddInUtxoRangeProof index (po_RangeProof prevout) p).
Fixpoint add_coins (p : psetv2) (l : list Utxo) : outcome error psetv2 :=
  match l with [] => Ret p | u :: l => p ← add_coin p u; add_coins p l end.
Definition NewSwapTx (utxos : list Utxo) (inAsset outAsset : string) (inAmount outAmount : Z)
    (outScript outBlindingKey : bytes) : outcome error string :=
  ptx ← or_err "new pset" psetv2_New;
  '(selectedUtxos, change) ← SelectUnspents utxos inAmount inAsset;
  ptx ← add_coins ptx selectedUtxos;
  let outputs :=
    {| oa_Asset := outAsset; oa_Amount := outAmount; oa_Script := outScript; oa_BlindingKey := outBlindingKey;
       oa_BlinderIndex := InputCount ptx |} ::
    (if 0 <? change
     then [{| oa_Asset := inAsset; oa_Amount := change; oa_Script := outScript; oa_BlindingKey := outBlindingKey;
              oa_BlinderIndex := 0 |}] else []) in
  ptx ← or_err "add outputs" (AddOutputs outputs ptx);
  or_err "to base64" (ToBase64 ptx).

(** The index is the one in the list of all the coins. *)
Fixpoint unblinded_from (i : nat) (utxos : list Utxo) : list UnblindedInput :=
  match utxos with
  | [] => []
  | u :: utxos =>
      {| ui_Index := Z.of_nat i; ui_Asset := u_Asset u; ui_Amount := u_Value u;
         ui_AssetBlinder := TxIDFromBytes (AssetBlinder u); ui_AmountBlinder := TxIDFromBytes (ValueBlinder u) |}
      :: unblinded_from (S i) utxos
  end.
Definition utxosToUnblindedIns (utxos : list Utxo) : list UnblindedInput := unblinded_from 0 utxos.
End swap_tx.

(** ** The wallet of the trader *)
Section wallet.
Context `{PsetUpdater} `{!ClientKeys}.
Record TraderWallet := { w_privateKey : PrivKey; w_blindingPrivateKey : PrivKey; w_network : string }.
Definition NewWalletFromKey (privateKey blindingKey : bytes) (net : string) : TraderWallet := {|
  w_privateKey := PrivKeyFromBytes privateKey; w_blindingPrivateKey := PrivKeyFromBytes blindingKey; w_network := net |}.
Definition Address (w : TraderWallet) : string := ConfidentialAddress (w_privateKey w) (w_blindingPrivateKey w) (w_network w).
Definition Script (w : TraderWallet) : bytes * bytes := PaymentScript (w_privateKey w) (w_blindingPrivateKey w) (w_network w).
Definition SigHashAll : Z := 1.
(** One input: signed when the output it spends pays to the wallet. *)
Definition sign_input (w : TraderWallet) (i : nat) (o : option prevout) (ptx : psetv2) : outcome error psetv2 :=
  prevout ← deref o;
  let '(script, witnessScript) := Script w in
  if negb (bool_decide (po_Script prevout = witnessScript)) then Ret ptx
  else
    hash ← or_err "unsigned tx" (HashForWitnessV0 ptx i script (po_Value prevout));
    let sig := ecdsa_Sign (w_privateKey w) hash in
    if negb (sig_Verify sig hash (w_privateKey w)) then Err (Errorf "signature verification failed for input %d")
    else or_err "sign input" (SignInput i (sig ++ [SigHashAll]) (SerializeCompressed (w_privateKey w)) ptx).
(** The loop ranges over the inputs as they are at the start. *)
Fixpoint sign_inputs (w : TraderWallet) (i : nat) (l : list (option prevout)) (ptx : psetv2) : outcome error psetv2 :=
  match l with [] => Ret ptx | o :: l => ptx ← sign_input w i o ptx; sign_inputs w (S i) l ptx end.
Definition Sign (w : TraderWallet) (psetBase64 : string) : outcome error string :=
  ptx ← or_err "invalid pset" (psetv2_NewPsetFromBase64 psetBase64);
  if negb (NewSigner ptx) then Err (Errorf "new signer")
  else ptx ← sign_inputs w 0 (WitnessUtxos ptx) ptx; or_err "to base64" (ToBase64 ptx).
End wallet.

(** ** Orders *)
Section orders.
Context {R : Type} `{TradeRpc R} `{Codecs} `{PsetUpdater} `{!ClientKeys} `{!SortSlice}.
Abbreviation act := (action R client_error).
(** The network of the trade and its explorer; randstr.Hex(8) of the two messages. *)
Variable network : string.
Variable GetUnspents : string → list bytes → outcome error (list Utxo).
Variables rnd1 rnd2 : string.

Definition trade_Preview (opts : PreviewOpts) : act PreviewResult :=
  _ ← local (PreviewOpts_validate opts);
  reply ← client_PreviewTrade {| pt_Market := pv_Market opts; pt_TradeType := pv_TradeType opts;
             pt_Amount := pv_Amount opts; pt_Asset := pv_Asset opts; pt_FeeAsset := pv_FeeAsset opts |};
  preview ← local (index reply 0);
  mret (preview_result opts preview).

(** The amounts of the transaction: the preview's, with the fee. *)
Definition order_amounts (market : Market) (tradeType : Z) (feeAsset : string) (preview : PreviewResult) : gmap string Z :=
  let amounts : gmap string Z :=
    <[pr_AssetToReceive preview := pr_AmountToReceive preview]> (<[pr_AssetToSend preview := pr_AmountToSend preview]> ∅) in
  let feesToAdd := type_IsBuy tradeType && bool_decide (feeAsset = tm_QuoteAsset market)
                   || type_IsSell tradeType && bool_decide (feeAsset = tm_BaseAsset market) in
  let fee := if feesToAdd then pr_FeeAmount preview else - pr_FeeAmount preview in
  <[pr_FeeAsset preview := u64 (amount_of amounts (pr_FeeAsset preview) + fee)]> amounts.

(** From the preview to the swap request. *)
Definition order_request (market : Market) (tradeType : Z) (addr : string) (blindingKey : bytes) (feeAsset : string)
    (utxos : list Utxo) (preview : PreviewResult) : outcome error bytes :=
  let outputScript := default [] (ToOutputScript addr) in
  let outputBlindingKey := SerializeCompressed (PrivKeyFromBytes blindingKey) in
  let amounts := order_amounts market tradeType feeAsset preview in
  psetBase64 ← NewSwapTx utxos (pr_AssetToSend preview) (pr_AssetToReceive preview)
                 (amount_of amounts (pr_AssetToSend preview)) (amount_of amounts (pr_AssetToReceive preview))
                 outputScript outputBlindingKey;
  Request rnd1 {| ro_Id := ""; AssetToSend := pr_AssetToSend preview; AmountToSend := pr_AmountToSend preview;
    AssetToReceive := pr_AssetToReceive preview; AmountToReceive := pr_AmountToReceive preview;
    ro_Transaction := psetBase64; ro_InputBlindingKeys := None; ro_OutputBlindingKeys := None;
    ro_UnblindedInputs := utxosToUnblindedIns utxos;
    ro_FeeAsset := pr_FeeAsset preview; ro_FeeAmount := pr_FeeAmount preview |}.

Definition marketOrderRequest (market : Market) (tradeType amount : Z) (asset addr : string)
    (blindingKey : bytes) (feeAsset : string) : act bytes :=
  utxos ← local (GetUnspents addr [blindingKey]);
  if bool_decide (utxos = []) then lift (Err (Local (Errorf "address '%s' is not funded")))
  else
    preview ← trade_Preview {| pv_Market := market; pv_TradeType := tradeType; pv_Amount := amount;
                               pv_Asset := asset; pv_FeeAsset := feeAsset |};
    swapRequestMsg ← local (order_request market tradeType addr blindingKey feeAsset utxos preview);
    reply ← client_TradePropose {| tp_Market := market; tp_SwapRequest := swapRequestMsg; tp_TradeType := tradeType |};
    match ppt_SwapFail reply with
    | Some _ => lift (Err (Local (Errorf "trade proposal has been rejected for reason: %s")))
    | None =>
        (* a nil message is marshalled as an empty one *)
        local (marshalled (default {| a2_Id := ""; a2_RequestId := ""; a2_Transaction := ""; a2_UnblindedInputs := [] |}
                                   (ppt_SwapAccept reply)))
    end.

Definition marketOrderComplete (swapAcceptMsg : bytes) (w : TraderWallet) : act string :=
  match Unmarshal (M := V2SwapAccept) swapAcceptMsg with
  | (_, false) => lift (Err (Local (Errorf "proto: unmarshal")))
  | (swapAccept, true) =>
      signedPset ← local (Sign w (a2_Transaction swapAccept));
      '(_, swapCompleteMsg) ← local (swap_Complete rnd2 {| co_Message := swapAcceptMsg; co_Transaction := signedPset |});
      reply ← client_TradeComplete {| tc_SwapComplete := swapCompleteMsg; tc_SwapFail := [] |};
      match pct_SwapFail reply with
      | Some f => lift (Err (Local (Errorf (f2_FailureMessage f))))
      | None => mret (pct_Txid reply)
      end
  end.

Definition place (tradeType : Z) (opts : BuyOrSellOpts) : act bytes :=
  _ ← local (BuyOrSellOpts_validate opts);
  marketOrderRequest (bs_Market opts) tradeType (bs_Amount opts) (bs_Asset opts) (bs_Address opts)
    (bs_BlindingKey opts) (bs_FeeAsset opts).
Definition place_and_complete (tradeType : Z) (opts : BuyOrSellAndCompleteOpts) : act string :=
  _ ← local (BuyOrSellAndCompleteOpts_validate opts);
  let w := NewWalletFromKey (bc_PrivateKey opts) (bc_BlindingKey opts) network in
  swapAcceptMsg ← marketOrderRequest (bc_Market opts) tradeType (bc_Amount opts) (bc_Asset opts) (Address w)
                    (bc_BlindingKey opts) (bc_FeeAsset opts);
  marketOrderComplete swapAcceptMsg w.
Definition trade_Buy : BuyOrSellOpts → act bytes := place Buy.
Definition trade_Sell : BuyOrSellOpts → act bytes := place Sell.
Definition trade_BuyAndComplete : BuyOrSellAndCompleteOpts → act string := place_and_complete Buy.
Definition trade_SellAndComplete : BuyOrSellAndCompleteOpts → act string := place_and_complete Sell.
End orders.

(** NewTrade: the chain is one of the two the library knows. *)
Section new_trade.
Variables Liquid_Name Regtest_Name : string.
Definition isValidChain (chain : string) : bool := bool_decide (chain = Liquid_Name) || bool_decide (chain = Regtest_Name).
Definition networkFromString (chain : string) : string := if bool_decide (chain = Liquid_Name) then Liquid_Name else Regtest_Name.
Definition NewTradeOpts_validate {E C} (chain : string) (explorer : option E) (client : option C) : outcome error () :=
  if negb (isValidChain chain) then new_error "chain must be either '%s' or '%s"
  else match explorer, client with
       | None, _ => new_error "explorer must not be null"
       | Some _, None => new_error "client must not be null"
       | Some _, Some _ => Ret ()
       end.
Definition NewTrade {E C} (chain : string) (explorer : option E) (client : option C) : outcome error (string * E * C) :=
  _ ← NewTradeOpts_validate chain explorer client;
  e ← deref explorer; c ← deref client;
  Ret (networkFromString chain, e, c).
End new_trade.

(** * The daemon on the other side *)
Section daemon.
Context {D : Type} `{DecimalOps D} `{!FloatOf D} `{SwapParser} `{Elements}.
Context {M : Type} `{MarketRepository M} {T : Type} `{TradeRepository T} {W : Type} `{WalletPort W}.
Variables (priceSlippage : D) (milliSatsPerByte : Z) (nativeAsset : string).
(** The ids, random strings and times of the requests that need them. *)
Variables (env_propose env_complete : Env).
Definition daemon_rpc : TradeRpc (@State M T W) := {|
  rpc_ListMarkets := with_recovery listMarkets;
  rpc_GetMarketBalance m := with_recovery (getMarketBalance m);
  rpc_PreviewTrade req := with_recovery (previewTrade (D := D) req);
  rpc_ProposeTrade req := with_recovery (proposeTrade priceSlippage milliSatsPerByte nativeAsset env_propose req);
  rpc_CompleteTrade sc sf := with_recovery (completeTrade env_complete sc sf) |}.
End daemon.

(** * Calls *)
Section calls.
Context {R : Type}.
Lemma local_Ret {A} (m : outcome error A) (r r' : R) a : local m r = (r', Ret a) → r' = r ∧ m = Ret a.
Proof. unfold local, lift. destruct m; naive_solver. Qed.
Lemma remote_Ret {A} (m : action R rpc_error A) r r' a : remote m r = (r', Ret a) → m r = (r', Ret a).
Proof. unfold remote. destruct (m r) as [? []]; naive_solver. Qed.
Lemma recovery_Ret {A} (m : action R rpc_error A) r r' a : with_recovery m r = (r', Ret a) → m r = (r', Ret a).
Proof. unfold with_recovery. destruct (m r) as [? []]; naive_solver. Qed.
(** Validation of the library does not touch the other side. *)
Lemma local_state {A} (m : outcome error A) (r : R) : fst (local m r) = r.
Proof. done. Qed.
End calls.

(** Validated options. *)
Lemma PreviewOpts_validated o : PreviewOpts_validate o = Ret () →
  0 < pv_Amount o ∧ (pv_TradeType o = TRADE_TYPE_BUY ∨ pv_TradeType o = TRADE_TYPE_SELL).
Proof.
  unfold PreviewOpts_validate, TradeType_Validate. destruct (Validate _); [|done..]. cbn.
  destruct (Z.eqb_spec (pv_TradeType o) TRADE_TYPE_BUY), (Z.eqb_spec (pv_TradeType o) TRADE_TYPE_SELL); cbn; try done;
    destruct (Z.leb_spec (pv_Amount o) 0); cbn; auto; done.
Qed.

Section previews.
Context {R : Type} `{TradeRpc R}.
(** What is validated before a preview is asked for. *)
Lemma trade_Preview_Ret opts (r r' : R) res :
  trade_Preview opts r = (r', Ret res) →
  PreviewOpts_validate opts = Ret () ∧
  ∃ p l, rpc_PreviewTrade {| ptr_Market := wire_market (pv_Market opts); ptr_Type := pv_TradeType opts; ptr_Amount := pv_Amount opts;
             ptr_Asset := pv_Asset opts; ptr_FeeAsset := pv_FeeAsset opts |} r = (r', Ret (p :: l)) ∧ res = preview_result opts p.
Proof.
  intros HP. unfold trade_Preview, client_PreviewTrade in HP.
  apply action_bind_Ret in HP as (r1 & [] & [-> HV]%local_Ret & HP). split; [done|].
  apply action_bind_Ret in HP as (r2 & reply & HC & HP). apply action_bind_Ret in HP as (r3 & p & [-> HI]%local_Ret & HP).
  apply action_ret_Ret in HP as [-> ->]. apply action_bind_Ret in HC as (r4 & [] & [-> _]%local_Ret & HC%remote_Ret).
  apply index_Ret in HI. destruct reply as [|p' l]; [done|]. injection HI as ->. exists p, l. done.
Qed.
End previews.

Section with_daemon.
Context {D : Type} `{DecimalLaws D} `{!FloatOf D} `{SwapParser} `{Elements}.
Context {M : Type} `{MarketRepository M} {T : Type} `{TradeRepository T} {W : Type} `{WalletPort W} `{!WalletAdminLaws W}.
Variables (priceSlippage : D) (milliSatsPerByte : Z) (nativeAsset : string) (env_propose env_complete : Env).
Abbreviation St := (@State M T W).
#[local] Existing Instance daemon_rpc.
#[local] Instance rpc : TradeRpc St := daemon_rpc (D := D) priceSlippage milliSatsPerByte nativeAsset env_propose env_complete.

(** A preview is for one of the assets of the market. *)
Lemma preview_asset req (s s' : St) l :
  is_u64 (ptr_Amount req) → previewTrade (D := D) req s = (s', Ret l) →
  ptr_Asset req = base_of (ptr_Market req) ∨ ptr_Asset req = quote_of (ptr_Market req).
Proof.
  intros Ha HP. apply (guarded_Ret _ _ _ _ _ _ _ (previewTrade_guarded req Ha)) in HP as [_ HP].
  apply reply_Ret in HP as (x & HP%call_Ret & _). unfold TradePreview in HP.
  destruct (decide (ptr_Asset req = base_of (ptr_Market req))); [by left|].
  destruct (decide (ptr_Asset req = quote_of (ptr_Market req))); [by right|].
  rewrite !bool_decide_eq_true_2 in HP by done. done.
Qed.

End with_daemon.

(** * The transaction of an order *)
Section transactions.
Context `{PsetUpdaterLaws} `{!SortSlice}.
Lemma or_err_Ret {A} msg (o : option A) a : or_err msg o = Ret a → o = Some a.
Proof. destruct o; cbn; congruence. Qed.
Lemma add_coins_spec l p p' : add_coins p l = Ret p' →
  InputCount p' = InputCount p + Z.of_nat (length l) ∧ psetv2_Outputs p' = psetv2_Outputs p.
Proof.
  revert p. induction l as [|u l IH]; intros p; cbn [add_coins]; [intros [= ->]; cbn; split; [lia|done]|].
  intros HA. apply bind_Ret_inv in HA as (p1 & HC & HA). apply IH in HA as [Hi Ho]. unfold add_coin in HC.
  apply bind_Ret_inv in HC as (p2 & A1%or_err_Ret & HC). apply bind_Ret_inv in HC as (p3 & A2%or_err_Ret & HC).
  apply bind_Ret_inv in HC as (o & _ & A3%or_err_Ret).
  apply inputs_added in A1 as [I1 O1]. apply witness_added in A2 as [I2 O2]. apply proof_added in A3 as [I3 O3].
  cbn [length] in *. split; [lia|congruence].
Qed.

(** An output of the transaction, by asset, amount and script. *)
Definition pays (o : PsetOutput) (asset : string) (amount : Z) (script : bytes) : Prop :=
  TxIDFromBytes (out_Asset o) = asset ∧ out_Value o = amount ∧ out_Script o = script.
Lemma NewSwapTx_spec utxos inAsset outAsset inAmount outAmount script key tx :
  amounts_fit (coins_of utxos inAsset) → 0 ≤ inAmount →
  NewSwapTx utxos inAsset outAsset inAmount outAmount script key = Ret tx →
  pset_NewPsetFromBase64 tx = None ∧
  ∃ p coins change, psetv2_NewPsetFromBase64 tx = Some p ∧ coins ⊆+ coins_of utxos inAsset ∧
    InputCount p = Z.of_nat (length coins) ∧ 0 ≤ change ∧ zsum (u_Value <$> coins) = inAmount + change ∧
    ∃ o rest, psetv2_Outputs p = o :: rest ∧ pays o outAsset outAmount script ∧
      if 0 <? change then ∃ o', rest = [o'] ∧ pays o' inAsset change script else rest = [].
Proof.
  intros Hf Hi HN. unfold NewSwapTx in HN. apply bind_Ret_inv in HN as (p0 & HN0%or_err_Ret & HN).
  apply bind_Ret_inv in HN as ([coins change] & HS & HN). apply bind_Ret_inv in HN as (p1 & HA & HN).
  apply bind_Ret_inv in HN as (p2 & HO%or_err_Ret & HN%or_err_Ret).
  apply base64_read in HN as [HR Hv0]. apply new_empty in HN0 as [I0 O0]. apply add_coins_spec in HA as [I1 O1].
  apply outputs_added in HO as (I2 & outs & EO & HF). rewrite O1, O0 in EO.
  destruct (selected_coins_cover _ _ _ _ _ Hf Hi HS) as (_ & Hsub & Hc & Hz).
  split; [done|]. exists p2, coins, change. split_and!; try done; [lia|].
  inversion HF as [|a o la lo [A1 [A2 A3]] HF' E1 E2]; subst. exists o, lo. cbn in EO. split_and!; try done.
  destruct (0 <? change); [|by inversion HF'].
  inversion HF' as [|a' o' la' lo' [B1 [B2 B3]] HF'']; subst. inversion HF''; subst. exists o'. done.
Qed.

Lemma sum_inputs_in_range count asset ins x y : sum_inputs count asset ins x = Ret y → Forall (λ i, ui_Index i < count) ins.
Proof.
  revert x. induction ins as [|i ins IH]; intros x; cbn [sum_inputs]; [by constructor|].
  destruct (Z.leb_spec count (ui_Index i)); [done|]. intros HS. constructor; [done|]. by eapply IH.
Qed.
Lemma unblinded_last i utxos : utxos ≠ [] → ∃ x, x ∈ unblinded_from i utxos ∧ ui_Index x = Z.of_nat i + Z.of_nat (length utxos) - 1.
Proof.
  revert i. induction utxos as [|u' utxos IH]; intros i ne; [done|]. destruct utxos as [|u2 utxos].
  - eexists. split; [by left|]. cbn. lia.
  - destruct (IH (S i) ltac:(done)) as (x & Hx & Hi). exists x. split; [by right|]. rewrite Hi. cbn [length]. lia.
Qed.
End transactions.

(** * Orders *)
Section order.
Context `{Codecs} `{PsetUpdaterLaws} `{!ClientKeys} `{!SortSlice} `{!ProtoLaws V2SwapRequest}.
Variable rnd1 : string.

(** The fee with its sign: added when it is charged in the asset the trader pays with. *)
Definition signed_fee (market : Market) (tradeType : Z) (feeAsset : string) (preview : PreviewResult) : Z :=
  if type_IsBuy tradeType && bool_decide (feeAsset = tm_QuoteAsset market)
     || type_IsSell tradeType && bool_decide (feeAsset = tm_BaseAsset market)
  then pr_FeeAmount preview else - pr_FeeAmount preview.
Lemma order_amounts_of market tradeType feeAsset preview (amounts := order_amounts market tradeType feeAsset preview)
    (fee := signed_fee market tradeType feeAsset preview) :
  pr_AssetToSend preview ≠ pr_AssetToReceive preview →
  amount_of amounts (pr_AssetToSend preview) =
    (if bool_decide (pr_FeeAsset preview = pr_AssetToSend preview) then u64 (pr_AmountToSend preview + fee) else pr_AmountToSend preview) ∧
  amount_of amounts (pr_AssetToReceive preview) =
    (if bool_decide (pr_FeeAsset preview = pr_AssetToReceive preview) then u64 (pr_AmountToReceive preview + fee) else pr_AmountToReceive preview).
Proof.
  intros ne. unfold amounts, order_amounts, amount_of. fold (signed_fee market tradeType feeAsset preview). fold fee.
  split; case_bool_decide as E; rewrite ?E;
    repeat first [rewrite lookup_insert_eq | rewrite lookup_insert_ne by congruence]; done.
Qed.

End order.

(** * Orders to the daemon *)
Section refused.
Context {D : Type} `{DecimalOps D} `{!FloatOf D} `{SwapParser} `{Codecs} `{PsetUpdater} `{!ClientKeys} `{!SortSlice}.
Context {M : Type} `{MarketRepository M} {T : Type} `{TradeRepository T} {W : Type} `{WalletPort W}.
Variables (priceSlippage : D) (milliSatsPerByte : Z) (nativeAsset : string) (env_propose env_complete : Env).
Abbreviation St := (@State M T W).
#[local] Instance rpc' : TradeRpc St := daemon_rpc (D := D) priceSlippage milliSatsPerByte nativeAsset env_propose env_complete.
Variable network : string.
Variable GetUnspents : string → list bytes → outcome error (list Utxo).
Variables rnd1 rnd2 : string.

(** A proposal without the asset of the fee does not pass the parser of the daemon. *)
Lemma parseSwapRequest_no_fee sr amount r : parseSwapRequest sr "" amount ≠ Ret r.
Proof.
  unfold parseSwapRequest. destruct sr as [sr|]; [|done].
  repeat match goal with |- (if ?b then _ else _) ≠ _ => destruct b eqn:?; [done|] end. cbn in *. done.
Qed.
Lemma proposal_refused o (s : St) : fst (rpc_ProposeTrade (proposal o) s) = s ∧ ∀ b, snd (rpc_ProposeTrade (proposal o) s) ≠ Ret b.
Proof.
  cbn [rpc_ProposeTrade rpc' daemon_rpc]. unfold proposeTrade, with_recovery, mbind, action_bind, parsed, lift.
  cbn [proposal ppr_Market ppr_Type ppr_SwapRequest ppr_FeeAsset ppr_FeeAmount].
  destruct (parseMarket _) as [m| |]; [|done..]. destruct (parseTradeType _) as [t| |]; [|done..].
  destruct (parseSwapRequest _ _ _) eqn:E; [by apply parseSwapRequest_no_fee in E|done..].
Qed.
(** An action that leaves everything but the wallet of the daemon and returns nothing. *)
Definition refused {A} (m : action St client_error A) : Prop := ∀ s, wallet_only s (fst (m s)) ∧ ∀ a, snd (m s) ≠ Ret a.
Lemma refused_bind {A B} (m : action St client_error A) (k : A → action St client_error B) :
  effect wallet_only m → (∀ a, refused (k a)) → refused (m ≫= k).
Proof.
  intros Hm Hk s. unfold mbind, action_bind. specialize (Hm s). destruct (m s) as [s1 [a|e|p]]; [|done..].
  destruct (Hk a s1) as [Hw Hn]. split; [|done]. cbn in Hm. by etrans.
Qed.
Lemma refused_first {A B} (m : action St client_error A) (k : A → action St client_error B) : refused m → refused (m ≫= k).
Proof.
  intros Hm s. unfold mbind, action_bind. destruct (Hm s) as [Hw Hn]. destruct (m s) as [s1 [a|e|p]]; [|done..].
  by destruct (Hn a).
Qed.

Lemma local_effect {A} (m : outcome error A) : effect wallet_only (local m : action St client_error A).
Proof. by intros s. Qed.
Lemma remote_effect {A} (m : action St rpc_error A) : effect wallet_only m → effect wallet_only (remote m).
Proof. intros Hm s. specialize (Hm s). unfold remote. by destruct (m s) as [? []]. Qed.
Lemma preview_effect opts : effect wallet_only (trade_Preview opts : action St client_error _).
Proof.
  unfold trade_Preview, client_PreviewTrade.
  repeat first [apply effect_seq; [apply _| |intros ?] | apply local_effect | apply effect_ret, _
               | apply remote_effect, effect_recovery, previewTrade_effect].
Qed.
Lemma propose_refused o : refused (client_TradePropose o : action St client_error _).
Proof.
  unfold client_TradePropose. apply refused_bind; [apply local_effect|]. intros _ s.
  destruct (proposal_refused o s) as [Hs Hn]. unfold remote. destruct (rpc_ProposeTrade _ s) as [s1 [b|e|p]]; cbn in *;
    [by destruct (Hn b)|by subst..].
Qed.
Lemma request_refused market tradeType amount asset addr blindingKey feeAsset :
  refused (marketOrderRequest GetUnspents rnd1 market tradeType amount asset addr blindingKey feeAsset).
Proof.
  unfold marketOrderRequest. apply refused_bind; [apply local_effect|]. intros utxos. case_bool_decide; [by intros s|].
  apply refused_bind; [apply preview_effect|]. intros preview. apply refused_bind; [apply local_effect|]. intros msg.
  apply refused_first, propose_refused.
Qed.

(** C22: no order of the client library is accepted by the daemon.  Whatever the
    options, the coins, the market and the state of the daemon, to buy or to sell, with or
    without completing the trade, ends in an error: the proposals the library sends leave
    out the asset of the fee, which the daemon requires.  Markets, trades, watchers and
    events of the daemon stay as they are. *)
Theorem client_orders_refused tradeType (opts : BuyOrSellOpts) (opts' : BuyOrSellAndCompleteOpts) :
  refused (place GetUnspents rnd1 tradeType opts) ∧
  refused (place_and_complete network GetUnspents rnd1 rnd2 tradeType opts').
Proof.
  split; (apply refused_bind; [apply local_effect|]; intros _).
  - apply request_refused.
  - apply refused_first, request_refused.
Qed.
End refused.

(** * Signatures *)

(** The signature and public key an input carries, as the signer leaves them: one input is
    signed and the outputs that are spent stay as they are; a pset that is serialised is
    the one that is read. *)
Class SignerView `{PsetUpdater} `{!ClientKeys} := {
  signature_of : psetv2 → nat → option (bytes * bytes);
  signed_input i sig pk p p' : SignInput i sig pk p = Some p' →
    signature_of p' i = Some (sig, pk) ∧ ∀ j, j ≠ i → signature_of p' j = signature_of p j;
  signed_hash i sig pk p p' j script value : SignInput i sig pk p = Some p' →
    HashForWitnessV0 p' j script value = HashForWitnessV0 p j script value;
  signed_read p s : ToBase64 p = Some s → psetv2_NewPsetFromBase64 s = Some p;
}.

Section signatures.
Context `{SignerView}.
(** The signature the wallet owes to an input that spends an output of its own. *)
Definition own_signature (w : TraderWallet) (p : psetv2) (i : nat) (o : prevout) (s : bytes * bytes) : Prop :=
  ∃ hash, HashForWitnessV0 p i (fst (Script w)) (po_Value o) = Some hash ∧
    s = (ecdsa_Sign (w_privateKey w) hash ++ [SigHashAll], SerializeCompressed (w_privateKey w)) ∧
    sig_Verify (ecdsa_Sign (w_privateKey w) hash) hash (w_privateKey w) = true.
Definition owns (w : TraderWallet) (o : prevout) : Prop := po_Script o = snd (Script w).
Definition signed_as (w : TraderWallet) (p p' : psetv2) (i : nat) (o : prevout) : Prop :=
  (owns w o → ∃ s, signature_of p' i = Some s ∧ own_signature w p i o s) ∧
  (¬ owns w o → signature_of p' i = signature_of p i).
Lemma sign_input_spec w i o p p' : sign_input w i o p = Ret p' →
  ∃ out, o = Some out ∧ signed_as w p p' i out ∧ (∀ j, j ≠ i → signature_of p' j = signature_of p j) ∧
    ∀ j script value, HashForWitnessV0 p' j script value = HashForWitnessV0 p j script value.
Proof.
  unfold sign_input, signed_as, owns, own_signature. intros HS. apply bind_Ret_inv in HS as (out & HD%deref_Ret & HS).
  exists out. split; [done|]. destruct (Script w) as [script ws]. cbn [fst snd] in *. case_bool_decide as E; cbn [negb] in HS.
  - apply bind_Ret_inv in HS as (hash & HH & HS). destruct (HashForWitnessV0 _ _ _ _) as [hash'|] eqn:EH; [|done].
    injection HH as ->. destruct (sig_Verify _ _ _) eqn:EV; [|done]. cbn [negb] in HS. destruct (SignInput _ _ _ _) eqn:ES; [|done].
    injection HS as ->. destruct (signed_input _ _ _ _ _ ES) as [Hi Hj]. split_and!; [|done|done|].
    + intros _. eexists. split; [exact Hi|]. by exists hash.
    + intros. by eapply signed_hash.
  - injection HS as <-. done.
Qed.
Lemma sign_inputs_spec w l : ∀ k p p', sign_inputs w k l p = Ret p' →
  (∀ i, (i < k)%nat → signature_of p' i = signature_of p i) ∧
  ∀ i o, l !! i = Some o → ∃ out, o = Some out ∧ signed_as w p p' (k + i) out.
Proof.
  induction l as [|o l IH]; intros k p p'; cbn [sign_inputs]; [by intros [= ->]|].
  intros HS. apply bind_Ret_inv in HS as (p1 & HF%sign_input_spec & HS). apply IH in HS as [Hlow Hin].
  destruct HF as (out & -> & Hs & Hj & Hh). split.
  - intros i Hi. rewrite Hlow, Hj by lia. done.
  - intros [|i] o' L; cbn in L.
    + injection L as <-. exists out. split; [done|]. rewrite Nat.add_0_r. unfold signed_as in *. by rewrite Hlow by lia.
    + destruct (Hin i o' L) as (out' & -> & Hs'). exists out'. split; [done|]. replace (k + S i)%nat with (S k + i)%nat by lia.
      unfold signed_as, own_signature in *. setoid_rewrite Hh in Hs'. by rewrite <- (Hj (S k + i)%nat) by lia.
Qed.

(** C23: what the trader signs.  When a transaction is signed, every input has a known
    output; the inputs that spend outputs to the trader's own script carry his verified
    signature of the transaction and his public key, and no other input is touched. *)
Theorem own_inputs_signed w tx tx' :
  Sign w tx = Ret tx' →
  ∃ p p', psetv2_NewPsetFromBase64 tx = Some p ∧ psetv2_NewPsetFromBase64 tx' = Some p' ∧
    ∀ i o, WitnessUtxos p !! i = Some o → ∃ out, o = Some out ∧ signed_as w p p' i out.
Proof.
  unfold Sign. intros HS. apply bind_Ret_inv in HS as (p & HP & HS). destruct (NewSigner p); [|done]. cbn [negb] in HS.
  apply bind_Ret_inv in HS as (p' & HI & HB). exists p, p'.
  destruct (psetv2_NewPsetFromBase64 tx) eqn:E; [|done]. injection HP as ->.
  destruct (ToBase64 p') eqn:EB; [|done]. injection HB as ->. split; [done|]. split; [by apply signed_read|].
  intros i o L. destruct (sign_inputs_spec _ _ _ _ _ HI) as [_ HI']. by apply HI'.
Qed.
End signatures.

(** * Examples *)
Module ClientExamples.
Import MarketExamples TradeExamples HandlerExamples.

(** A pset is the number of its inputs, its outputs and the signatures made so far; the
    two assets are "P" and "R"; only the psets of the examples can be written down. *)
Record toy := { y_count : Z; y_outs : list (string * Z * bytes); y_sigs : list (nat * (bytes * bytes)) }.
#[local] Instance toy_eq_dec : EqDecision toy.
Proof. solve_decision. Defined.
Definition wire_out (x : string * Z * bytes) : PsetOutput :=
  {| out_Asset := if bool_decide (x.1.1 = "R"%string) then [82] else [80]; out_Value := x.1.2; out_Script := x.2; out_BlindingPubkey := [] |}.
Definition order_tx : toy := {| y_count := 2; y_outs := [("R"%string, 10000, [1]); ("P"%string, 925, [1])]; y_sigs := [] |}.
Definition signed_tx : toy := {| y_count := 2; y_outs := y_outs order_tx; y_sigs := [(1%nat, ([9; 1], [5]))] |}.
#[local] Instance client_elements : Elements := {
  pset := (); pset_NewPsetFromBase64 _ := None; pset_Inputs _ := [];
  UnsignedTx_Indexes _ := []; UnsignedTx_Outputs _ := []; pset_ValidateAllSignatures _ := None;
  psetv2 := toy;
  psetv2_NewPsetFromBase64 tx :=
    if bool_decide (tx = "order"%string) then Some order_tx else if bool_decide (tx = "signed"%string) then Some signed_tx else None;
  InputCount := y_count; psetv2_Inputs _ := []; psetv2_Outputs p := wire_out <$> y_outs p;
  psetv2_ValidateAllSignatures _ := Some true; FinalizeAll p := p;
  transaction := string; Extract p := None; NewTxFromHex h := None; ToHex t := t; TxHash t := t;
  TxIDFromBytes b := if bool_decide (b = [82]) then "R" else "P";
}.
Definition known_asset (a : OutputArgs) : bool := bool_decide (oa_Asset a = "R"%string) || bool_decide (oa_Asset a = "P"%string).
#[local] Instance updater : PsetUpdater := {
  psetv2_New := Some {| y_count := 0; y_outs := []; y_sigs := [] |};
  AddInputs l p := Some {| y_count := y_count p + Z.of_nat (length l); y_outs := y_outs p; y_sigs := y_sigs p |};
  AddInWitnessUtxo _ _ p := Some p; AddInUtxoRangeProof _ _ p := Some p;
  AddOutputs l p := if forallb known_asset l
    then Some {| y_count := y_count p; y_outs := y_outs p ++ ((λ a, (oa_Asset a, oa_Amount a, oa_Script a)) <$> l); y_sigs := y_sigs p |}
    else None;
  ToBase64 p := if bool_decide (p = order_tx) then Some "order"%string else if bool_decide (p = signed_tx) then Some "signed"%string else None;
  Parse _ := Some {| po_Script := [1]; po_Value := []; po_RangeProof := [] |};
  AssetBlinder _ := []; ValueBlinder _ := [];
}.
#[local] Instance updater_laws : PsetUpdaterLaws.
Proof.
  split.
  - by intros p [= <-].
  - by intros l p p' [= <-].
  - by intros i o p p' [= <-].
  - by intros i o p p' [= <-].
  - intros l p p'. cbn. destruct (forallb known_asset l) eqn:K; [|done]. intros [= <-]. split; [done|].
    exists (wire_out <$> ((λ a, (oa_Asset a, oa_Amount a, oa_Script a)) <$> l)). cbn. rewrite fmap_app. split; [done|].
    induction l as [|a l IH]; [constructor|]. cbn in K. apply andb_true_iff in K as [K1 K2]. cbn. constructor; [|by apply IH].
    unfold known_asset in K1. cbn. split; [|done]. apply orb_true_iff in K1 as [->%bool_decide_eq_true| ->%bool_decide_eq_true]; done.
  - intros p s. cbn. repeat case_bool_decide; intros [= <-]; subst; done.
Qed.
#[local] Instance keys : ClientKeys := {
  PrivKey := bytes; PrivKeyFromBytes b := b; SerializeCompressed k := [5]; ToOutputScript _ := Some [1];
  ConfidentialAddress _ _ _ := "addr"; PaymentScript _ _ _ := ([0], [1]);
  WitnessUtxos p := [Some {| po_Script := [2]; po_Value := []; po_RangeProof := [] |}; Some {| po_Script := [1]; po_Value := []; po_RangeProof := [] |}];
  HashForWitnessV0 p i script value := Some [7]; ecdsa_Sign _ _ := [9]; sig_Verify _ _ _ := true; NewSigner _ := true;
  SignInput i sig pk p := Some {| y_count := y_count p; y_outs := y_outs p; y_sigs := (i, (sig, pk)) :: y_sigs p |};
}.
Fixpoint last_signature (i : nat) (l : list (nat * (bytes * bytes))) : option (bytes * bytes) :=
  match l with [] => None | (j, s) :: l => if decide (j = i) then Some s else last_signature i l end.
#[local] Instance signer : SignerView.
Proof.
  refine {| signature_of p i := last_signature i (y_sigs (p : toy)) |}.
  - intros i sig pk p p' [= <-]. cbn. rewrite decide_True by done. split; [done|]. intros j ne. by rewrite decide_False.
  - done.
  - intros p s HB. by apply base64_read in HB as [? _].
Defined.
#[local] Existing Instance SwapExamples.codecs.
#[local] Instance sorted : SortSlice :=
  {| sortSlice := sort_desc u_Value; sortSlice_perm := sort_desc_perm u_Value; sortSlice_sorted := sort_desc_sorted u_Value |}.
Definition coin (i v : Z) : Utxo :=
  {| u_Hash := "ab"; u_Index := i; u_Value := v; u_Asset := "P"; u_IsConfidential := true; u_IsRevealed := true |}.
Definition rp : Market := {| tm_BaseAsset := "R"; tm_QuoteAsset := "P" |}.
(** Buying 10000 R for 30000 P, with a fee of 75 P. *)
Definition quoted : PreviewResult := {| pr_AssetToSend := "P"; pr_AmountToSend := 30000; pr_AssetToReceive := "R";
  pr_AmountToReceive := 10000; pr_FeeAmount := 75; pr_FeeAsset := "P" |}.
Definition buy (utxos : list Utxo) := order_request "id" rp Buy "addr" [3] "P" utxos quoted.

(** With a coin that is not needed there is no request. *)
Example coin_to_spare : buy [coin 0 20000; coin 1 11000; coin 2 5] = Err (Errorf "unblinded input index %d out of range").
Proof. vm_compute. reflexivity. Qed.

Definition trader : TraderWallet := NewWalletFromKey [4] [3] "regtest".
Lemma own_inputs_signed_witness :
  Sign trader "order" = Ret "signed"%string ∧
  ∃ s, signature_of signed_tx 1 = Some s ∧ own_signature trader order_tx 1 {| po_Script := [1]; po_Value := []; po_RangeProof := [] |} s.
Proof.
  split; [vm_compute; reflexivity|].
  destruct (own_inputs_signed trader "order" "signed") as (p & p' & [= <-] & [= <-] & HS); [vm_compute; reflexivity|].
  destruct (HS 1%nat _ eq_refl) as (out & [= <-] & HO & _). apply HO. reflexivity.
Defined.

(** The daemon of the examples, asked for what 0.01 base sells for. *)
#[local] Instance wallet_laws : WalletAdminLaws () (H := ServiceExamples.funded).
Proof.
  split.
  - intros account num w w' l _ [= _ <-]. apply length_replicate.
  - intros account w w' bs a b [= _ <-]. rewrite lookup_insert_Some, lookup_singleton_Some.
    intros [[_ <-]|(_ & _ & <-)]; unfold is_u64; cbn; lia.
Qed.
#[local] Existing Instance ServiceExamples.funded.
#[local] Instance daemon : TradeRpc (@State InmemoryMarket.store InmemoryTrade.store ()) :=
  daemon_rpc (D := Fixed.t) (W := ()) ServiceExamples.slippage 100 "L" ServiceExamples.env ServiceExamples.env.
Definition sell_opts : PreviewOpts := {| pv_Market := {| tm_BaseAsset := base; tm_QuoteAsset := quote |}; pv_TradeType := Sell;
  pv_Amount := 1000000; pv_Asset := base; pv_FeeAsset := quote |}.
Definition asked := trade_Preview sell_opts ServiceExamples.start.
End ClientExamples.
