(* ===== verification/OceanWallet.v ===== *)
(** The client of the ocean wallet: internal/infrastructure/ocean-wallet, the
    implementation of ports.WalletService.

    The wallet daemon is the class [OceanRpc]: one call per method of its four gRPC
    services, on the messages of api-spec/protobuf/gen/ocean/v1, that answers or fails
    with the text of a status.  The functions of the package are definitions over it, and
    make the instances of the wallet interfaces of the other files ([WalletPort],
    [WalletAdmin], [WalletUtxos], [WalletManager], [ConnectWallet]): what is proved of the
    services holds of the daemon that talks to an ocean wallet.  The goroutines of
    notify.go are composed with the queue of handlers of Wallet.v in module [Listener]. *)

From Stdlib Require Import ZArith Lia.
From stdpp Require Import base tactics strings list gmap sorting.
From S2P Require Import Prelude Errors Decimal Market Trade Repos SwapMsg Wallet TradeService Operator TxEvents Listing SecureStore Pubsub Webhooks AdminHandlers Interface TdexConnect.
Local Open Scope Z_scope.

(** * Messages *)

Record ocean_AccountInfo := {
  oai_Namespace : string; oai_Label : string; oai_DerivationPath : string; oai_Xpubs : list string;
  oai_MasterBlindingKey : string }.
Record BlockDetails := { bk_Hash : string; bk_Height : Z; bk_Timestamp : Z }.
Record UtxoStatus := { us_Txid : string; us_BlockInfo : option BlockDetails; us_Txhex : string }.
Record ocean_Utxo := {
  ou_Txid : string; ou_Index : Z; ou_Asset : string; ou_Value : Z; ou_Script : string; ou_AssetBlinder : string;
  ou_ValueBlinder : string; ou_AccountName : string; ou_SpentStatus : option UtxoStatus;
  ou_ConfirmedStatus : option UtxoStatus; ou_RedeemScript : string }.
Record ocean_Input := { oi_Txid : string; oi_Index : Z; oi_Script : string; oi_ScriptsigSize : Z; oi_WitnessSize : Z }.
(** The address of an output is left empty. *)
Record ocean_Output := { oo_Asset : string; oo_Amount : Z; oo_Script : string; oo_BlindingPubkey : string }.
Record StatusResponse := { sp_Initialized : bool; sp_Synced : bool; sp_Unlocked : bool }.
Record GetInfoResponse := {
  ip_Network : Z; ip_NativeAsset : string; ip_RootPath : string; ip_Accounts : list ocean_AccountInfo }.
Record TransactionNotification := {
  tm_EventType : Z; tm_AccountNames : list string; tm_Txhex : string; tm_BlockDetails : option BlockDetails }.
Record UtxosNotification := { um_EventType : Z; um_Utxos : list ocean_Utxo }.

(** A call: the wallet answers, or the status it fails with has a text. *)
Definition rpc (W A : Type) : Type := W → W * (string + A).

Class OceanRpc (W : Type) := {
  rpc_GenSeed : rpc W string;
  rpc_CreateWallet : string → string → rpc W ();
  rpc_RestoreWallet : string → string → rpc W ();
  rpc_Unlock : string → rpc W ();
  rpc_Lock : string → rpc W ();
  rpc_ChangePassword : string → string → rpc W ();
  rpc_Status : rpc W StatusResponse;
  rpc_GetInfo : rpc W GetInfoResponse;
  rpc_Auth : string → rpc W bool;
  rpc_CreateAccountMultiSig : string → rpc W (option ocean_AccountInfo);
  rpc_CreateAccountBIP44 : string → rpc W (option ocean_AccountInfo);
  rpc_DeriveAddresses : string → Z → rpc W (list string);
  rpc_DeriveChangeAddresses : string → Z → rpc W (list string);
  rpc_ListAddresses : string → rpc W (list string);
  rpc_Balance : string → rpc W (gmap string Balance);
  rpc_ListUtxos : string → rpc W (option (list ocean_Utxo) * option (list ocean_Utxo));
  rpc_DeleteAccount : string → rpc W ();
  rpc_GetTransaction : string → rpc W string;
  rpc_EstimateFees : list ocean_Input → list ocean_Output → Z → rpc W Z;
  rpc_SelectUtxos : string → string → Z → rpc W (list ocean_Utxo * Z * Z);
  rpc_CreatePset : list ocean_Input → list ocean_Output → rpc W string;
  rpc_UpdatePset : string → list ocean_Input → list ocean_Output → rpc W string;
  rpc_BlindPset : string → bool → list UnblindedInput → rpc W string;
  rpc_SignPset : string → rpc W string;
  rpc_Transfer : string → list ocean_Output → Z → rpc W string;
  rpc_BroadcastTransaction : string → rpc W string;
  rpc_TransactionNotifications : rpc W ();
  rpc_UtxosNotifications : rpc W ();
}.

(** psetv2.FinalizeAll and Transaction.ToHex with their errors, addresses and ids of
    go-elements. *)
Class OceanLib `{Elements} := {
  psetv2_FinalizeAll : psetv2 → option psetv2;
  tx_ToHex : transaction → option string;
  lib_FromConfidential : string → option (bytes * bytes);
  lib_TxIDToBytes : string → bytes;
  lib_ToOutputScript : string → bytes;
}.

(** * strings.Split and strings.Join *)

Fixpoint strings_Split (sep : Ascii.ascii) (s : string) : list string :=
  match s with
  | EmptyString => [EmptyString]
  | String c s =>
      let words := strings_Split sep s in
      if Ascii.eqb c sep then EmptyString :: words
      else match words with [] => [] | w :: ws => String c w :: ws end
  end.
Fixpoint strings_Join (sep : Ascii.ascii) (l : list string) : string :=
  match l with
  | [] => EmptyString
  | w :: ws => match ws with [] => w | _ => (w +:+ String sep (strings_Join sep ws))%string end
  end.
Definition space : Ascii.ascii := Ascii.ascii_of_nat 32.

(** * Values *)

Definition toProto_inputs `{Elements} (l : list input) : list ocean_Input :=
  (λ i, {| oi_Txid := TxIDFromBytes (in_txid i); oi_Index := in_index i; oi_Script := in_script i;
           oi_ScriptsigSize := u64 (in_scriptSigSize i); oi_WitnessSize := u64 (in_witnessSize i) |}) <$> l.
Definition toProto_outputs (l : list output) : list ocean_Output :=
  (λ o, {| oo_Asset := o_asset o; oo_Amount := o_amount o; oo_Script := o_script o; oo_BlindingPubkey := o_blindKey o |}) <$> l.
Definition toProto_unblinded (l : list UnblindedInput) : list UnblindedInput :=
  (λ i, {| ui_Index := ui_Index i; ui_Asset := ui_Asset i; ui_Amount := ui_Amount i;
           ui_AssetBlinder := ui_AssetBlinder i; ui_AmountBlinder := ui_AmountBlinder i |}) <$> l.

(** The status and the block of a utxo are interfaces around pointers that may be nil:
    they are never nil themselves, and a missing timestamp is 0. *)
Definition spent_timestamp (u : ocean_Utxo) : Z :=
  match ou_SpentStatus u with
  | Some s => match us_BlockInfo s with Some b => bk_Timestamp b | None => 0 end
  | None => 0
  end.
Definition utxoInfo (u : ocean_Utxo) : Utxo := {|
  ut_Txid := ou_Txid u; ut_Index := ou_Index u; ut_Asset := ou_Asset u; ut_Value := ou_Value u; ut_Script := ou_Script u;
  ut_AssetBlinder := ou_AssetBlinder u; ut_ValueBlinder := ou_ValueBlinder u; ut_RedeemScript := ou_RedeemScript u;
  ut_SpentTimestamp := Some (spent_timestamp u) |}.
Definition toPortableList (l : list ocean_Utxo) : list Utxo := utxoInfo <$> l.

(** The getters of a nil account give zero values. *)
Definition no_account : ocean_AccountInfo :=
  {| oai_Namespace := ""; oai_Label := ""; oai_DerivationPath := ""; oai_Xpubs := []; oai_MasterBlindingKey := "" |}.
Definition accountInfo (a : ocean_AccountInfo) : WalletAccount :=
  {| wa_Namespace := oai_Namespace a; wa_Label := oai_Label a; wa_MasterBlindingKey := oai_MasterBlindingKey a |}.
Definition accountDetails (a : ocean_AccountInfo) : AccountInfo := {|
  ac_Label := oai_Label a; ac_DerivationPath := oai_DerivationPath a; ac_Xpubs := oai_Xpubs a;
  ac_MasterBlindingKey := oai_MasterBlindingKey a |}.

Definition walletStatus (r : StatusResponse) : WalletStatus :=
  {| IsInitialized := sp_Initialized r; IsUnlocked := sp_Unlocked r; IsSynced := sp_Synced r |}.
Definition NETWORK_MAINNET : Z := 1.
Definition NETWORK_TESTNET : Z := 2.
Definition NETWORK_REGTEST : Z := 3.
Definition GetNetwork (r : GetInfoResponse) : string :=
  if ip_Network r =? NETWORK_REGTEST then "regtest"
  else if ip_Network r =? NETWORK_TESTNET then "testnet"
  else "mainnet".
(** sort.SliceStable by the text of the derivation path. *)
Definition path_before (a b : ocean_AccountInfo) : bool :=
  match String.compare (oai_DerivationPath b) (oai_DerivationPath a) with Lt => false | _ => true end.
Fixpoint insert_account (a : ocean_AccountInfo) (l : list ocean_AccountInfo) : list ocean_AccountInfo :=
  match l with
  | [] => [a]
  | b :: r => if path_before a b then a :: b :: r else b :: insert_account a r
  end.
Definition GetAccounts (r : GetInfoResponse) : list ocean_AccountInfo := foldr insert_account [] (ip_Accounts r).
Definition walletInfo (r : GetInfoResponse) : WalletInfo :=
  {| inf_RootPath := ip_RootPath r; inf_Network := GetNetwork r; inf_Accounts := accountDetails <$> GetAccounts r |}.

(** Notifications *)
Definition TX_EVENT_TYPE_BROADCASTED : Z := 1.
Definition TX_EVENT_TYPE_UNCONFIRMED : Z := 2.
Definition TX_EVENT_TYPE_CONFIRMED : Z := 3.
Definition txEventType_IsUnconfirmed (t : Z) : bool := t =? TX_EVENT_TYPE_UNCONFIRMED.
Definition txEventType_IsConfirmed (t : Z) : bool := t =? TX_EVENT_TYPE_CONFIRMED.
Definition txEventType_IsBroadcasted (t : Z) : bool := t =? TX_EVENT_TYPE_BROADCASTED.
Definition UTXO_EVENT_TYPE_NEW : Z := 1.
Definition UTXO_EVENT_TYPE_CONFIRMED : Z := 2.
Definition UTXO_EVENT_TYPE_LOCKED : Z := 3.
Definition UTXO_EVENT_TYPE_UNLOCKED : Z := 4.
Definition UTXO_EVENT_TYPE_SPENT : Z := 5.
Definition utxoEventType_IsUnconfirmed (t : Z) : bool := t =? UTXO_EVENT_TYPE_NEW.
Definition utxoEventType_IsSpent (t : Z) : bool := t =? UTXO_EVENT_TYPE_SPENT.
Definition utxoEventType_IsConfirmed (t : Z) : bool := t =? UTXO_EVENT_TYPE_CONFIRMED.
Definition utxoEventType_IsLocked (t : Z) : bool := t =? UTXO_EVENT_TYPE_LOCKED.
Definition utxoEventType_IsUnlocked (t : Z) : bool := t =? UTXO_EVENT_TYPE_UNLOCKED.
Definition txNotifyInfo (n : TransactionNotification) : TxNotification := {|
  tn_IsUnconfirmed := txEventType_IsUnconfirmed (tm_EventType n);
  tn_IsBroadcasted := txEventType_IsBroadcasted (tm_EventType n);
  tn_AccountNames := tm_AccountNames n; tn_TxHex := tm_Txhex n |}.
Definition utxoNotifyInfo (n : UtxosNotification) : UtxoEvent := {|
  ev_IsSpent := utxoEventType_IsSpent (um_EventType n); ev_IsUnlocked := utxoEventType_IsUnlocked (um_EventType n);
  ev_Utxos := toPortableList (um_Utxos n) |}.

(** * The client *)

Section client.
Context {W : Type} `{OceanRpc W} `{Elements} `{!OceanLib}.
Abbreviation act := (action W error).

(** [res, err := client.Call(...); if err != nil { return err }] *)
Definition answer {A} (m : rpc W A) : act A := λ w,
  match m w with (w', inr a) => (w', Ret a) | (w', inl text) => (w', Err (Errorf text)) end.

(** ** wallet.go *)
Definition oc_GenSeed : act (list string) := mnemonic ← answer rpc_GenSeed; mret (strings_Split space mnemonic).
Definition oc_InitWallet (mnemonic : list string) (password : string) : act () :=
  answer (rpc_CreateWallet (strings_Join space mnemonic) password).
Definition oc_RestoreWallet (mnemonic : list string) (password : string) : act () :=
  answer (rpc_RestoreWallet (strings_Join space mnemonic) password).
Definition oc_Unlock (password : string) : act () := answer (rpc_Unlock password).
Definition oc_Lock (password : string) : act () := answer (rpc_Lock password).
Definition oc_ChangePassword (oldPwd newPwd : string) : act () := answer (rpc_ChangePassword oldPwd newPwd).
Definition oc_Status : act WalletStatus := res ← answer rpc_Status; mret (walletStatus res).
Definition oc_Info : act GetInfoResponse := answer rpc_GetInfo.
Definition oc_Auth (password : string) : act bool := answer (rpc_Auth password).

(** ** account.go *)

(** A wallet that answers gives an account, which may be nil. *)
Definition account_of (a : option ocean_AccountInfo) : ocean_AccountInfo := default no_account a.
Definition oc_CreateAccount (accountName : string) (isMarket : bool) : act ocean_AccountInfo := λ w,
  let single : act ocean_AccountInfo := a ← answer (rpc_CreateAccountBIP44 accountName); mret (account_of a) in
  if isMarket then
    match rpc_CreateAccountMultiSig accountName w with
    | (w, inr a) => (w, Ret (account_of a))
    | (w, inl text) => if Contains text "not implemented" then single w else (w, Err (Errorf text))
    end
  else single w.
Definition oc_DeriveAddresses (accountName : string) (num : Z) : act (list string) :=
  answer (rpc_DeriveAddresses accountName (u64 num)).
Definition oc_DeriveChangeAddresses (accountName : string) (num : Z) : act (list string) :=
  answer (rpc_DeriveChangeAddresses accountName (u64 num)).
Definition oc_ListAddresses (accountName : string) : act (list string) := answer (rpc_ListAddresses accountName).
Definition oc_GetBalance (accountName : string) : act (gmap string Balance) := answer (rpc_Balance accountName).
Definition oc_ListUtxos (accountName : string) : act (list Utxo * list Utxo) :=
  '(spendable, locked) ← answer (rpc_ListUtxos accountName);
  mret (match spendable with Some l => toPortableList l | None => [] end,
        match locked with Some l => toPortableList l | None => [] end).
Definition oc_DeleteAccount (accountName : string) : act () := answer (rpc_DeleteAccount accountName).

(** ** transaction.go *)
Definition oc_GetTransaction (txid : string) : act string := answer (rpc_GetTransaction txid).
Definition oc_EstimateFees (ins : list input) (outs : list output) (msatsPerByte : Z) : act Z :=
  answer (rpc_EstimateFees (toProto_inputs ins) (toProto_outputs outs) msatsPerByte).
Definition oc_SelectUtxos (accountName asset : string) (amount : Z) : act (list Utxo * Z * Z) :=
  '(utxos, change, expiryTime) ← answer (rpc_SelectUtxos accountName asset amount);
  mret (toPortableList utxos, change, expiryTime).
Definition oc_CreatePset (ins : list input) (outs : list output) : act string :=
  answer (rpc_CreatePset (toProto_inputs ins) (toProto_outputs outs)).
Definition oc_UpdatePset (pset : string) (ins : list input) (outs : list output) : act string :=
  answer (rpc_UpdatePset pset (toProto_inputs ins) (toProto_outputs outs)).
Definition oc_BlindPset (pset : string) (extraUnblindedIns : list UnblindedInput) : act string :=
  answer (rpc_BlindPset pset true (toProto_unblinded extraUnblindedIns)).
(** The error of NewPsetFromBase64 is discarded: finalising a nil pset panics. *)
Definition extract_raw_tx (signedPset : string) : outcome error string :=
  ptx ← deref (psetv2_NewPsetFromBase64 signedPset);
  match psetv2_FinalizeAll ptx with
  | None => Err (Errorf "failed to finalize signed pset: %s")
  | Some ptx =>
      match Extract ptx with
      | None => Err (Errorf "failed to extract final tx from finalized pset: %s")
      | Some rawTx => match tx_ToHex rawTx with Some h => Ret h | None => Err (Errorf "to hex") end
      end
  end.
Definition oc_SignPset (pset : string) (extractRawTx : bool) : act string :=
  signedPset ← answer (rpc_SignPset pset);
  if negb extractRawTx then mret signedPset else lift (extract_raw_tx signedPset).
Definition oc_Transfer (accountName : string) (outs : list output) (msatsPerByte : Z) : act string :=
  answer (rpc_Transfer accountName (toProto_outputs outs) msatsPerByte).
Definition oc_BroadcastTransaction (txHex : string) : act string := answer (rpc_BroadcastTransaction txHex).

(** ** The interfaces *)
#[global] Instance ocean_port : WalletPort W := {
  GetBalance := oc_GetBalance; DeriveAddresses := oc_DeriveAddresses; DeriveChangeAddresses := oc_DeriveChangeAddresses;
  SelectUtxos := oc_SelectUtxos; EstimateFees := oc_EstimateFees; CreatePset := oc_CreatePset; UpdatePset := oc_UpdatePset;
  BlindPset := oc_BlindPset; SignPset := oc_SignPset; BroadcastTransaction := oc_BroadcastTransaction;
  FromConfidential := lib_FromConfidential; TxIDToBytes := lib_TxIDToBytes;
}.
#[global] Instance ocean_admin : WalletAdmin W := {
  CreateAccount name isMarket := a ← oc_CreateAccount name isMarket; mret (accountInfo a);
  DeleteAccount := oc_DeleteAccount; ListAddresses := oc_ListAddresses; Transfer := oc_Transfer; Auth := oc_Auth;
  Info_Accounts := res ← oc_Info; mret (accountInfo <$> GetAccounts res);
  GetTransaction := oc_GetTransaction; ToOutputScript := lib_ToOutputScript;
}.
#[global] Instance ocean_utxos : WalletUtxos W := { ListUtxos := oc_ListUtxos }.
#[global] Instance ocean_manager : WalletManager W WalletStatus WalletInfo := {
  GenSeed := oc_GenSeed; InitWallet := oc_InitWallet; RestoreWallet := oc_RestoreWallet; Unlock := oc_Unlock;
  Lock := oc_Lock; ChangePassword := oc_ChangePassword; GetStatus := oc_Status;
  GetInfo := res ← oc_Info; mret (walletInfo res);
}.
#[global] Instance ocean_connect : ConnectWallet W := { cw_Status := oc_Status; cw_Auth := oc_Auth }.

(** ** service.go *)

(** The goroutines that were started, and the service: without notifications when
    newNotify failed. *)
Inductive goroutine := ListeningForTxNotifications | ListeningForUtxoNotifications.
Record process := { pr_wallet : W; pr_goroutines : list goroutine }.
Inductive channel := TxNotifications | UtxoNotifications.
Record notify := { chTxNotifications : channel; chUtxoNotifications : channel }.
Record service := { sv_addr : string; sv_notify : option notify }.
Definition at_wallet {A} (m : act A) : action process error A := λ p,
  let '(w, o) := m (pr_wallet p) in ({| pr_wallet := w; pr_goroutines := pr_goroutines p |}, o).
Definition go (g : goroutine) : action process error () := λ p,
  ({| pr_wallet := pr_wallet p; pr_goroutines := pr_goroutines p ++ [g] |}, Ret ()).
Definition wrapped {A} (format : string) (m : action process error A) : action process error A := λ p,
  match m p with (p', Err _) => (p', Err (Errorf format)) | r => r end.
Definition newNotify : action process error notify :=
  _ ← wrapped "failed to open stream for tx notifications: %s" (at_wallet (answer rpc_TransactionNotifications));
  _ ← go ListeningForTxNotifications;
  _ ← wrapped "failed to open stream for utxo notifications: %s" (at_wallet (answer rpc_UtxosNotifications));
  _ ← go ListeningForUtxoNotifications;
  mret {| chTxNotifications := TxNotifications; chUtxoNotifications := UtxoNotifications |}.
(** [Dial] is grpc's; the error of newNotify is discarded. *)
Definition NewService (Dial : string → bool) (addr : string) : action process error service :=
  if negb (Dial addr) then lift (Err (Errorf "dial"))
  else
    _ ← at_wallet oc_Status;
    n ← try newNotify;
    mret {| sv_addr := addr; sv_notify := match n with inl n => Some n | inr _ => None end |}.
(** Notification() is never a nil interface; its methods read the fields of a pointer
    that may be nil. *)
Definition GetTxNotifications (s : service) : outcome error channel := n ← deref (sv_notify s); Ret (chTxNotifications n).
Definition GetUtxoNotifications (s : service) : outcome error channel := n ← deref (sv_notify s); Ret (chUtxoNotifications n).
End client.

(** * The goroutines of notify.go

    startListeningForTxNotifications and startListeningForUtxoNotifications are the same
    loop.  A notification is handed over only to a receiver that waits on the channel,
    which is the goroutine of Wallet.v's [Queue] between two rounds; otherwise the
    default branch of the select is taken.  An error of the stream, io.EOF too, is not
    nil when the deferred function looks at it, and log.Fatal ends the process. *)
Module Listener.
Section listener.
Context {N Handler : Type}.
Inductive recv := Received (n : N) | RecvEOF | RecvError.
Record state := {
  received : list N; delivered : list N; exited : bool; q : @Queue.state Handler }.
Definition init : state := {| received := []; delivered := []; exited := false; q := Queue.init |}.

(** The receiver takes a notification: its round starts. *)
Definition start_round (s : @Queue.state Handler) : Queue.state :=
  Queue.with_phase (Queue.Running (length (Queue.queue s)) []) s.
(** One iteration of the loop; [ready]: the receiver waits. *)
Definition iteration (r : recv) (ready : bool) (s : state) : state :=
  match r with
  | Received n =>
      if ready
      then {| received := received s ++ [n]; delivered := delivered s ++ [n]; exited := false; q := start_round (q s) |}
      else {| received := received s ++ [n]; delivered := delivered s; exited := false; q := q s |}
  | RecvEOF | RecvError => {| received := received s; delivered := delivered s; exited := true; q := q s |}
  end.
Definition with_q (q' : Queue.state) (s : state) : state :=
  {| received := received s; delivered := delivered s; exited := exited s; q := q' |}.

(** The loop, the receiver in the middle of a round, and registrations interleave. *)
Inductive step (s : state) : state → Prop :=
  | step_recv r ready :
      exited s = false → (ready = true → Queue.at_ (q s) = Queue.Waiting) → step s (iteration r ready s)
  | step_receiver q' :
      exited s = false → Queue.step (q s) q' → (Queue.at_ (q s) = Queue.Waiting → Queue.at_ q' = Queue.Waiting) →
      step s (with_q q' s).

Lemma queue_step s s' : step s s' → rtc Queue.step (q s) (q s').
Proof.
  intros [r ready HE HW | q' HE HQ _]; [|by apply rtc_once].
  destruct r; [destruct ready|..]; cbn; try done. by apply rtc_once, Queue.step_notification, HW.
Qed.
Lemma queue_steps s s' : rtc step s s' → rtc Queue.step (q s) (q s').
Proof. induction 1 as [|s s1 s2 Hs _ IH]; [done|]. etrans; [by apply queue_step|done]. Qed.

Lemma received_grows (l : list N) n : l ++ [n] ≠ l.
Proof. intros E%(f_equal length). rewrite length_app in E. cbn in E. lia. Qed.
(** Between two deliveries the round of the receiver goes on. *)
Lemma quiet_step s0 s s' : step s s' → delivered s' = delivered s →
  Queue.round_state s0 (q s) → Queue.round_state s0 (q s').
Proof.
  intros [r ready HE HW | q' HE HQ HW] HD HR.
  - destruct r; [destruct ready|..]; cbn in *; try done. by apply received_grows in HD.
  - cbn. assert ((∃ h, q' = {| Queue.queue := Queue.pushBack h (Queue.queue (q s)); Queue.at_ := Queue.at_ (q s);
        Queue.finished := Queue.finished (q s); Queue.registered := Queue.registered (q s) ++ [h] |}) ∨
      Queue.at_ (q s) ≠ Queue.Waiting ∧ Queue.registered q' = Queue.registered (q s)) as [[h ->]|[EA E]].
    { inversion HQ; subst; [by left; eexists|by discriminate HW|right..]; (split; [congruence|]); try done.
      unfold Queue.round. by destruct (Queue.pop _) as [? []]. }
    + by apply Queue.round_state_register.
    + by eapply Queue.round_state_step.
Qed.
Lemma delivered_grows s s' : step s s' → delivered s `prefix_of` delivered s'.
Proof.
  intros [[n| |] ready _ _ | q' _ _ _]; cbn; [destruct ready; cbn; [by apply prefix_app_r|done]|done..].
Qed.
Lemma delivered_steps s s' : rtc step s s' → delivered s `prefix_of` delivered s'.
Proof. induction 1; [done|]. etrans; [by apply delivered_grows|done]. Qed.
Lemma quiet_steps s0 s s' : rtc step s s' → delivered s' = delivered s →
  Queue.round_state s0 (q s) → Queue.round_state s0 (q s').
Proof.
  induction 1 as [|s s1 s2 Hs HR IH]; [done|]. intros HD H0.
  assert (delivered s1 = delivered s) as E.
  { apply (anti_symm prefix); [rewrite <- HD; by apply delivered_steps|by apply delivered_grows]. }
  apply IH; [congruence|]. by eapply quiet_step.
Qed.
Lemma delivered_sublist s s' : rtc step s s' → delivered s `sublist_of` received s → delivered s' `sublist_of` received s'.
Proof.
  induction 1 as [|s s1 s2 Hs _ IH]; [done|]. intros HS. apply IH.
  destruct Hs as [[n| |] ready _ _ | q' _ _ _]; cbn; try done. destruct ready; cbn.
  - by apply sublist_app.
  - by apply sublist_inserts_r.
Qed.

(** The end of the stream, whether an error or not, is the end of the daemon. *)
Lemma stream_end r s s' : step (iteration r false s) s' → ∃ n, r = Received n.
Proof. destruct r as [n| |]; [eauto|..]; inversion 1; done. Qed.
End listener.
End Listener.

(** * Theorems *)

(** ** Mnemonics *)
Section words.
Variable sep : Ascii.ascii.
Fixpoint no_sep (s : string) : Prop :=
  match s with EmptyString => True | String c s => c ≠ sep ∧ no_sep s end.
Lemma split_nonempty s : strings_Split sep s ≠ [].
Proof. induction s as [|c s IH]; cbn; [done|]. destruct (Ascii.eqb c sep); [done|]. by destruct (strings_Split sep s). Qed.
Lemma join_split s : strings_Join sep (strings_Split sep s) = s.
Proof.
  induction s as [|c s IH]; [done|]. cbn. pose proof (split_nonempty s) as HN.
  destruct (strings_Split sep s) as [|x ws] eqn:E; [done|]. destruct (Ascii.eqb_spec c sep) as [->|ne].
  - rewrite <- IH. done.
  - rewrite <- IH. by destruct ws.
Qed.
Lemma split_word x : no_sep x → strings_Split sep x = [x].
Proof.
  induction x as [|c x IH]; [done|]. cbn. intros [ne Hx]. rewrite (IH Hx). by destruct (Ascii.eqb_spec c sep).
Qed.
Lemma strings_split_app x s : no_sep x → strings_Split sep (x +:+ String sep s) = x :: strings_Split sep s.
Proof.
  induction x as [|c x IH]; [intros _; change ("" +:+ String sep s)%string with (String sep s); cbn; by rewrite Ascii.eqb_refl|].
  change (String c x +:+ String sep s)%string with (String c (x +:+ String sep s)). cbn.
  intros [ne Hx]. rewrite (IH Hx). by destruct (Ascii.eqb_spec c sep).
Qed.
Lemma strings_split_join l : l ≠ [] → Forall no_sep l → strings_Split sep (strings_Join sep l) = l.
Proof.
  intros HN HF. induction HF as [|x l Hx HF IH]; [done|]. cbn. destruct l as [|y l]; [by apply split_word|].
  rewrite strings_split_app by done. by rewrite IH.
Qed.
End words.

(** ** The remote wallet *)

(** What the wallet daemon promises, in terms of its messages: the coins it selects are
    of the asset asked for, worth the amount and the change, with ids that can be decoded;
    it derives as many addresses as asked for; balances are uint64. *)
Class OceanLaws (W : Type) `{OceanRpc W} `{OceanLib} : Prop := {
  ocean_selects account asset amount w w' utxos change t :
    rpc_SelectUtxos account asset amount w = (w', inr (utxos, change, t)) →
    Forall (λ u, ou_Asset u = asset ∧ TxIDFromBytes (lib_TxIDToBytes (ou_Txid u)) = ou_Txid u) utxos ∧
    foldr (λ u s, ou_Value u + s) 0 utxos = amount + change ∧ 0 ≤ change;
  ocean_derives account num w w' l :
    rpc_DeriveAddresses account num w = (w', inr l) → length l = Z.to_nat num;
  ocean_balances account w w' bs a b :
    rpc_Balance account w = (w', inr bs) → bs !! a = Some b → is_u64 (ConfirmedBalance b);
}.
(** The labels of the accounts it has: a call that fails creates none. *)
Class OceanAccounts (W : Type) `{OceanRpc W} := {
  labels : W → list string;
  multisig_created name w w' a : rpc_CreateAccountMultiSig name w = (w', inr a) →
    labels w' = labels w ++ [name] ∧ oai_Label (account_of a) = name;
  multisig_failed name w w' e : rpc_CreateAccountMultiSig name w = (w', inl e) → labels w' = labels w;
  bip44_created name w w' a : rpc_CreateAccountBIP44 name w = (w', inr a) →
    labels w' = labels w ++ [name] ∧ oai_Label (account_of a) = name;
  bip44_failed name w w' e : rpc_CreateAccountBIP44 name w = (w', inl e) → labels w' = labels w;
}.

Section client_theorems.
Context {W : Type} `{OceanRpc W} `{Elements} `{!OceanLib}.

Lemma answer_Ret {A} (m : rpc W A) w w' a : answer m w = (w', Ret a) ↔ m w = (w', inr a).
Proof. unfold answer. destruct (m w) as [w1 [e|b]]; split; intros E; by simplify_eq. Qed.
Lemma answer_not_Panic {A} (m : rpc W A) w w' p : answer m w ≠ (w', Panic p).
Proof. unfold answer. by destruct (m w) as [? []]. Qed.

(** The client provides what the services rely on. *)
#[global] Instance ocean_wallet_laws `{!OceanLaws W} : WalletLaws W.
Proof.
  intros account asset amount w w' utxos change t HS. cbn in HS. unfold oc_SelectUtxos in HS. act_inv HS.
  match goal with E : answer _ _ = _ |- _ => apply answer_Ret, ocean_selects in E as (HF & HZ & Hc) end.
  unfold toPortableList. split_and!; [|by rewrite foldr_fmap|done].
  apply Forall_fmap. eapply Forall_impl; [exact HF|]. by intros u [? _].
Qed.
#[global] Instance ocean_admin_laws `{!OceanLaws W} : WalletAdminLaws W.
Proof.
  split.
  - intros account num w w' l Hn HD. apply answer_Ret, ocean_derives in HD. rewrite HD. unfold u64. rewrite Z.mod_small by lia. done.
  - intros account w w' bs a b HB. apply answer_Ret in HB. by eapply ocean_balances.
Qed.

(** creating an account.  Whether or not the wallet supports multisig accounts,
    CreateAccount creates exactly one account with the name, or none when it fails. *)
Lemma one_account_created `{!OceanAccounts W} name isMarket w w' o :
  oc_CreateAccount name isMarket w = (w', o) →
  match o with
  | Ret a => labels w' = labels w ++ [name] ∧ oai_Label a = name
  | Err _ => labels w' = labels w
  | Panic _ => False
  end.
Proof.
  assert (∀ w w' o, (a ← answer (rpc_CreateAccountBIP44 name); mret (account_of a) : action W error _) w = (w', o) →
    match o with Ret a => labels w' = labels w ++ [name] ∧ oai_Label a = name | Err _ => labels w' = labels w | Panic _ => False end) as HB.
  { intros w1 w2 o'. unfold answer, mbind, action_bind. destruct (rpc_CreateAccountBIP44 name w1) as [w3 [e|a]] eqn:E; intros [= <- <-].
    - by eapply bip44_failed.
    - by eapply bip44_created. }
  unfold oc_CreateAccount. destruct isMarket; [|by apply HB].
  destruct (rpc_CreateAccountMultiSig name w) as [w1 [e|a]] eqn:E.
  - destruct (Contains e "not implemented"); [|intros [= <- <-]; by eapply multisig_failed].
    rewrite <- (multisig_failed _ _ _ _ E). by apply HB.
  - intros [= <- <-]. by eapply multisig_created.
Qed.

(** GetAccounts lists every account once, by derivation path. *)
Lemma path_before_total a b : path_before a b = false → path_before b a = true.
Proof.
  unfold path_before. rewrite (String.compare_antisym (oai_DerivationPath a)).
  by destruct (String.compare (oai_DerivationPath b) (oai_DerivationPath a)).
Qed.
Lemma insert_account_perm a l : insert_account a l ≡ₚ a :: l.
Proof. induction l as [|b l IH]; cbn; [done|]. destruct (path_before a b); [done|]. rewrite IH. constructor. Qed.
Lemma insert_account_sorted a l : Sorted (λ a b, path_before a b) l → Sorted (λ a b, path_before a b) (insert_account a l).
Proof.
  induction 1 as [|b l HS IH HH]; cbn; [by repeat constructor|]. destruct (path_before a b) eqn:E.
  - constructor; [by constructor|]. constructor. by rewrite E.
  - constructor; [done|]. apply path_before_total in E. destruct l as [|c l]; cbn; [constructor; by rewrite E|].
    destruct (path_before a c); constructor; [by rewrite E|]. by inversion HH.
Qed.
Lemma accounts_listed r : GetAccounts r ≡ₚ ip_Accounts r ∧ Sorted (λ a b, path_before a b) (GetAccounts r).
Proof.
  unfold GetAccounts. induction (ip_Accounts r) as [|a l [IHp IHs]]; cbn; [done|].
  split; [by rewrite insert_account_perm, IHp|by apply insert_account_sorted].
Qed.

(** The service works without its notifications, until they are asked for. *)
Lemma lost_notifications Dial addr w w1 w2 w3 st e :
  Dial addr = true → rpc_Status w = (w1, inr st) → rpc_TransactionNotifications w1 = (w2, inr ()) →
  rpc_UtxosNotifications w2 = (w3, inl e) →
  ∃ s, NewService Dial addr {| pr_wallet := w; pr_goroutines := [] |}
         = ({| pr_wallet := w3; pr_goroutines := [ListeningForTxNotifications] |}, Ret s) ∧
       GetTxNotifications s = Panic NilDereference ∧ GetUtxoNotifications s = Panic NilDereference.
Proof.
  intros HD HS HT HU. exists {| sv_addr := addr; sv_notify := None |}. split; [|split; reflexivity].
  unfold NewService, newNotify, wrapped, at_wallet, try, go, oc_Status, answer, mbind, action_bind, mret, action_ret.
  rewrite HD. cbn. rewrite HS. cbn. rewrite HT. cbn. by rewrite HU.
Qed.
(** A signed pset that cannot be read stops the caller. *)
Lemma unreadable_pset pset w w' signed :
  rpc_SignPset pset w = (w', inr signed) → psetv2_NewPsetFromBase64 signed = None →
  oc_SignPset pset true w = (w', Panic NilDereference).
Proof. intros HS HN. unfold oc_SignPset, answer, mbind, action_bind. rewrite HS. cbn. unfold lift, extract_raw_tx. by rewrite HN. Qed.
End client_theorems.

(** ** The unlocker over the client *)
Section seed.
Context {S : Type} `{SecureStorage S} {W : Type} `{OceanRpc W}.

(** the seed is kept.  The words GenSeed shows are the mnemonic of the wallet cut at
    its spaces, none of them has a space, and initialising or restoring a wallet with them
    sends that very mnemonic; conversely a mnemonic made of any words without spaces is
    shown as those words. *)
Theorem seed_kept (u u1 u2 u3 : unlocker S W) words password :
  svc_GenSeed u = (u1, Ret words) →
  svc_InitWallet words password u2 = (u3, Ret ()) →
  ∃ mnemonic w1 w3, rpc_GenSeed (wallet u) = (w1, inr mnemonic) ∧
    rpc_CreateWallet mnemonic password (wallet u2) = (w3, inr ()) ∧
    words = strings_Split space mnemonic ∧
    (∀ w, oc_RestoreWallet words password w = answer (rpc_RestoreWallet mnemonic password) w) ∧
    (∀ l, l ≠ [] → Forall (no_sep space) l → mnemonic = strings_Join space l → words = l).
Proof.
  unfold svc_GenSeed, svc_InitWallet, on_wallet. intros HG HI. cbn in HG. unfold oc_GenSeed in HG.
  destruct ((answer rpc_GenSeed ≫= _) (wallet u)) as [w1 o] eqn:E1. injection HG as <- ->. act_inv E1.
  match goal with E : answer _ _ = (_, Ret ?m) |- _ => apply answer_Ret in E; rename m into mnemonic end.
  act_inv HI. match goal with E : context [oc_InitWallet] |- _ => rename E into HC end.
  unfold oc_InitWallet, answer in HC. rewrite join_split in HC.
  destruct (rpc_CreateWallet _ _ _) as [w3 [e|[]]] eqn:EC; [done|].
  do 3 eexists. split_and!; [eassumption|eassumption|done| |].
  - intros w. unfold oc_RestoreWallet. by rewrite join_split.
  - intros l HN HF ->. by apply strings_split_join.
Qed.
End seed.

(** ** A swap over the client *)
Section swap.
Context {W : Type} `{OceanRpc W} `{Elements} `{!OceanLib} `{!OceanLaws W} `{MapOrder}.
Variable nativeAsset : string.

Lemma unblinded_sent l : toProto_unblinded l = l.
Proof. unfold toProto_unblinded. induction l as [|[] l IH]; cbn; [done|]. by rewrite IH. Qed.
(** How much of an asset the outputs of a request hold. *)
Definition sent_of (a : string) (l : list ocean_Output) : Z :=
  foldr (λ o s, (if bool_decide (oo_Asset o = a) then oo_Amount o else 0) + s) 0 l.
Lemma sent_outputs a l : sent_of a (toProto_outputs l) = outs_of a l.
Proof. induction l as [|o l IH]; [done|]. rewrite outs_of_cons, <- IH. done. Qed.
Definition decodable (u : Utxo) : Prop := TxIDFromBytes (lib_TxIDToBytes (ut_Txid u)) = ut_Txid u.
Lemma selected_decodable account asset amount (w w' : W) l c t :
  SelectUtxos account asset amount w = (w', Ret (l, c, t)) → Forall decodable l.
Proof.
  intros HS. cbn in HS. unfold oc_SelectUtxos in HS. act_inv HS.
  match goal with E : answer _ _ = _ |- _ => apply answer_Ret, ocean_selects in E as (HF & _) end.
  apply Forall_fmap. eapply Forall_impl; [exact HF|]. by intros u [_ ?].
Qed.
Lemma inputs_sent (f : Utxo → input) l : Forall decodable l →
  (∀ u, in_txid (f u) = lib_TxIDToBytes (ut_Txid u) ∧ in_index (f u) = ut_Index u) →
  (λ i, (oi_Txid i, oi_Index i)) <$> toProto_inputs (f <$> l) = (λ u, (ut_Txid u, ut_Index u)) <$> l.
Proof.
  intros HF Hf. unfold toProto_inputs. rewrite <- !list_fmap_compose. induction HF as [|u l Hu HF IH]; [done|]. cbn.
  destruct (Hf u) as [-> ->]. f_equal; [f_equal; exact Hu|exact IH].
Qed.

(** C10: what the wallet daemon is asked for when a swap is completed.  The inputs of the
    UpdatePset request are, by their own ids and indexes, the coins it had selected, in
    their order; for every asset these coins and what the proposer pays make up the outputs
    of the request and what the daemon gives, as 64-bit amounts; the transaction is then
    blinded, as the last blinder, with the inputs the proposer revealed, and what is
    returned is that transaction signed. *)
Theorem ocean_swap account r msats feesToAdd (w w' : W) signed utxos t :
  CompleteSwap nativeAsset account r msats feesToAdd w = (w', Ret (signed, utxos, t)) →
  ∃ ins outs w1 w2 pset w3 blinded w4,
    rpc_UpdatePset (sr_Transaction r) ins outs w1 = (w2, inr pset) ∧
    rpc_BlindPset pset true (sr_UnblindedInputs r) w2 = (w3, inr blinded) ∧
    rpc_SignPset blinded w3 = (w4, inr signed) ∧
    (λ i, (oi_Txid i, oi_Index i)) <$> ins = (λ u, (ut_Txid u, ut_Index u)) <$> utxos ∧
    ∀ a, eq64 (coins_of a utxos + if bool_decide (sr_AssetP r = a) then received r feesToAdd else 0)
              (sent_of a outs + if bool_decide (sr_AssetR r = a) then given r feesToAdd else 0).
Proof.
  intros HS. pose proof (swap_coins _ decodable _ _ _ _ _ _ _ _ _ selected_decodable HS) as HD.
  apply swap_steps in HS as (ins & outs & w1 & w2 & pset & HU & ((own & fee & -> & ->) & _ & HB) & w3 & blinded & w4 & HBl & HSi).
  apply answer_Ret in HU, HBl. rewrite unblinded_sent in HBl. cbn in HSi. unfold oc_SignPset in HSi. act_inv HSi.
  match goal with E : answer (rpc_SignPset _) _ = _ |- _ => apply answer_Ret in E; rename E into HSi end.
  apply Forall_app in HD as [Ho Hf].
  do 8 eexists. split_and!; [exact HU|exact HBl|exact HSi| |].
  - unfold toProto_inputs at 1. rewrite fmap_app, !fmap_app. f_equal; by apply inputs_sent.
  - intros a. rewrite sent_outputs. apply HB.
Qed.
End swap.

(** * Examples *)
Module OceanExamples.
Definition paper : string := "tree lake moon".
Definition coin (asset : string) (v : Z) : ocean_Utxo := {|
  ou_Txid := "P"; ou_Index := 4; ou_Asset := asset; ou_Value := v; ou_Script := ""; ou_AssetBlinder := ""; ou_ValueBlinder := "";
  ou_AccountName := ""; ou_SpentStatus := None; ou_ConfirmedStatus := None; ou_RedeemScript := "" |}.
Definition named (name : string) : option ocean_AccountInfo :=
  Some {| oai_Namespace := name; oai_Label := name; oai_DerivationPath := ""; oai_Xpubs := []; oai_MasterBlindingKey := "" |}.
Definition ok {W A} (a : A) : rpc W A := λ w, (w, inr a).

(** A wallet that keeps the labels of its accounts, has single-signature accounts only and
    always finds one coin with 7 sats of change. *)
#[local] Instance ocean : OceanRpc (list string) := {
  rpc_GenSeed := ok paper; rpc_CreateWallet _ _ := ok (); rpc_RestoreWallet _ _ := ok (); rpc_Unlock _ := ok (); rpc_Lock _ := ok ();
  rpc_ChangePassword _ _ := ok (); rpc_Status := ok {| sp_Initialized := true; sp_Synced := true; sp_Unlocked := true |};
  rpc_GetInfo := ok {| ip_Network := 3; ip_NativeAsset := "L"; ip_RootPath := "m"; ip_Accounts := [] |}; rpc_Auth _ := ok true;
  rpc_CreateAccountMultiSig _ w := (w, inl "rpc error: code = Unimplemented desc = not implemented"%string);
  rpc_CreateAccountBIP44 name w := (w ++ [name], inr (named name));
  rpc_DeriveAddresses _ n := ok (replicate (Z.to_nat n) "addr"%string);
  rpc_DeriveChangeAddresses _ n := ok (replicate (Z.to_nat n) "change"%string); rpc_ListAddresses _ := ok [];
  rpc_Balance _ := ok ∅; rpc_ListUtxos _ := ok (None, None); rpc_DeleteAccount _ := ok (); rpc_GetTransaction _ := ok ""%string;
  rpc_EstimateFees _ _ _ := ok 300; rpc_SelectUtxos _ asset amount := ok ([coin asset (amount + 7)], 7, 1600);
  rpc_CreatePset _ _ := ok "pset"%string; rpc_UpdatePset _ _ _ := ok "pset"%string; rpc_BlindPset p _ _ := ok p;
  rpc_SignPset _ := ok "signed"%string; rpc_Transfer _ _ _ := ok ""%string; rpc_BroadcastTransaction _ := ok "txid"%string;
  rpc_TransactionNotifications := ok (); rpc_UtxosNotifications := ok ();
}.
#[local] Instance lib : OceanLib (H := SwapExamples.elements) := {
  psetv2_FinalizeAll p := Some p; tx_ToHex t := Some t; lib_FromConfidential _ := Some ([1], [2]); lib_TxIDToBytes _ := [3];
  lib_ToOutputScript _ := [];
}.
#[local] Instance ocean_lawful : OceanLaws (list string).
Proof.
  split.
  - intros account asset amount w w' utxos change t [= _ <- <- _]. split_and!; [by repeat constructor|cbn; lia|lia].
  - intros account num w w' l [= _ <-]. apply length_replicate.
  - by intros account w w' bs a b [= _ <-].
Qed.
#[local] Instance accounts : OceanAccounts (list string).
Proof.
  refine {| labels w := w |}; try done.
  - by intros name w w' e [= <- _].
  - by intros name w w' a [= <- <-].
Defined.

(** Without multisig accounts a market gets a single-signature one. *)
Example market_account : oc_CreateAccount "mkt" true [] = (["mkt"%string], Ret (account_of (named "mkt"))).
Proof. vm_compute. reflexivity. Qed.

Lemma ocean_swap_witness :
  ∃ w utxos, CompleteSwap "L" "mkt" SwapExamples.request 100 true [] = (w, Ret ("signed"%string, utxos, 1600)) ∧
    ∃ outs, eq64 (coins_of "P" utxos + 30150) (sent_of "P" outs).
Proof.
  eexists _, _. split; [vm_compute; reflexivity|].
  destruct (ocean_swap "L" "mkt" SwapExamples.request 100 true [] [] "signed"
    (toPortableList [coin "R" 10007; coin "L" 457]) 1600) as (ins & outs & w1 & w2 & pset & w3 & b & w4 & _ & _ & _ & _ & HB);
    [vm_compute; reflexivity|].
  exists outs. specialize (HB "P"%string). rewrite Z.add_0_r in HB. exact HB.
Defined.

(** The words of the paper wallet, through a fresh store. *)
Definition u0 : unlocker (boltSecureStorage SecureStore.tree SecureStoreExamples.key) (list string) :=
  {| wallet := []; pubsub := SecureStoreExamples.fresh |}.
#[local] Existing Instance PubsubExamples.toy_storage.
Lemma seed_kept_witness :
  ∃ words, snd (svc_GenSeed u0) = Ret words ∧ words = ["tree"; "lake"; "moon"]%string ∧
    snd (svc_InitWallet words "pw" u0) = Ret ().
Proof.
  eexists. split; [vm_compute; reflexivity|].
  destruct (seed_kept u0 (fst (svc_GenSeed u0)) u0 (fst (svc_InitWallet ["tree"; "lake"; "moon"]%string "pw" u0))
    ["tree"; "lake"; "moon"]%string "pw") as (mnemonic & w1 & w3 & HG & _ & _ & _ & HJ);
    [vm_compute; reflexivity|vm_compute; reflexivity|].
  split; [|vm_compute; reflexivity].
  apply (HJ ["tree"; "lake"; "moon"]%string); [done|repeat constructor; vm_compute; done|]. by injection HG as _ <-.
Defined.

(** Two handlers; a second notification arrives before the second of them is called. *)
Definition two : @Queue.state nat := {| Queue.queue := [1; 2]%nat; Queue.at_ := Queue.Waiting; Queue.finished := []; Queue.registered := [1; 2]%nat |}.
Definition idle : @Listener.state string nat := {| Listener.received := []; Listener.delivered := []; Listener.exited := false; Listener.q := two |}.
Definition busy : @Listener.state string nat := {| Listener.received := ["a"; "b"]%string; Listener.delivered := ["a"%string];
  Listener.exited := false; Listener.q := {| Queue.queue := [2]%nat; Queue.at_ := Queue.Running 1 []; Queue.finished := [1]%nat;
    Queue.registered := [1; 2]%nat |} |}.
Lemma idle_reached : rtc Listener.step Listener.init idle.
Proof.
  eapply rtc_l; [eapply Listener.step_receiver; [done|apply (Queue.step_register _ 1%nat)|done]|].
  eapply rtc_l; [eapply Listener.step_receiver; [done|apply (Queue.step_register _ 2%nat)|done]|]. apply rtc_refl.
Qed.
Lemma busy_reached : rtc Listener.step (Listener.iteration (Listener.Received "a"%string) true idle) busy.
Proof.
  eapply rtc_l; [eapply Listener.step_receiver; [done|apply (Queue.step_handler _ 1 [] true); done|done]|].
  eapply rtc_l; [apply (Listener.step_recv _ (Listener.Received "b"%string) false); done|]. apply rtc_refl.
Qed.
End OceanExamples.
