(* ===== verification/Explorer.v ===== *)
(** The client of an esplora block explorer: pkg/explorer/esplora.

    What is behind the HTTP connection is a state [C] with the class [Http]; requests,
    answers and errors are those of client.go.  Bodies are texts, [json_of] is what
    encoding/json makes of them.  The methods that start a goroutine per item and read
    their results from a channel are [fan_in]: the results arrive in an order nothing is
    known of ([Arrival]), the first error ends the loop, and goroutines whose results are
    not received stay blocked on the channel, which the state counts. *)

From Stdlib Require Import ZArith Lia.
From stdpp Require Import base tactics strings list gmap pretty.
From S2P Require Import Prelude Errors Decimal Formula Market Trade Exchange SwapMsg CoinSelection Interface.
Local Open Scope Z_scope.

(** * Goroutines and their results *)

Class Arrival := {
  arrive : ∀ {A : Type}, list A → list A;
  arrive_perm {A} (l : list A) : arrive l ≡ₚ l;
}.

Record process (C : Type) := { remote : C; blocked : nat }.
Arguments remote {C} _.
Arguments blocked {C} _.

Section fan.
Context {C : Type} `{Arrival}.
Abbreviation act := (action (process C) error).

(** Every goroutine does its work; the order is the one in which the results are sent. *)
Fixpoint run_all {A B} (f : A → act B) (l : list A) (s : process C) : process C * list (outcome error B) :=
  match l with
  | [] => (s, [])
  | x :: l => let '(s, o) := f x s in let '(s, os) := run_all f l s in (s, o :: os)
  end.
Fixpoint panics {B} (l : list (outcome error B)) : option panic :=
  match l with [] => None | Panic p :: _ => Some p | _ :: l => panics l end.
(** [for r := range chRes { if r.err != nil { return r.err }; l = append(l, r) }].  A panic
    in a goroutine is the end of the process.  With the result is how many goroutines stay
    blocked: those that did not send yet, and the one that waits for them. *)
Fixpoint receive {B} (l : list (outcome error B)) : outcome error (list B) * nat :=
  match l with
  | [] => (Ret [], 0%nat)
  | Ret b :: l =>
      let '(o, n) := receive l in
      (match o with Ret bs => Ret (b :: bs) | Err e => Err e | Panic p => Panic p end, n)
  | Err e :: l =>
      (match panics l with Some p => Panic p | None => Err e end,
       match l with [] => 0%nat | _ => S (length l) end)
  | Panic p :: _ => (Panic p, 0%nat)
  end.
Definition fan_in {A B} (f : A → act B) (l : list A) : act (list B) := λ s,
  let '(s, os) := run_all f (arrive l) s in
  let '(o, n) := receive os in
  ({| remote := remote s; blocked := blocked s + n |}, o).
End fan.

(** * client.go *)

Record http_call := { hc_Method : string; hc_Url : string; hc_Body : string; hc_Header : gmap string string }.
(** The server does not answer, or its body cannot be read, or it takes too long, or it
    answers. *)
Inductive reply := NoReply | Unread | Late | Reply (status : Z) (body : string).
Class Http (C : Type) := {
  ValidRequest : string → string → bool;        (* http.NewRequest *)
  Do : http_call → C → C * reply;
  json_of : string → option json;               (* json.Unmarshal into an interface *)
  json_Marshal : json → string;
}.

Section client.
Context {C : Type} `{Http C}.
Abbreviation act := (action (process C) error).
Definition perform (do_err read_err : string) (r : http_call) : act (Z * string) := λ s,
  let '(c, a) := Do r (remote s) in
  ({| remote := c; blocked := blocked s |},
   match a with
   | NoReply | Late => Err (Errorf do_err)
   | Unread => Err (Errorf read_err)
   | Reply status body => Ret (status, body)
   end).
(** get, list and delete *)
Definition without_body (method url : string) (header : gmap string string) : act (Z * string) :=
  if ValidRequest method url
  then perform "do" "read" {| hc_Method := method; hc_Url := url; hc_Body := ""; hc_Header := header |}
  else lift (Err (Errorf "new request")).
Definition post (url bodyString : string) (header : gmap string string) : act (Z * string) :=
  if ValidRequest "POST" url
  then perform "Failed to create named key request: " "Failed to parse response body: "
         {| hc_Method := "POST"; hc_Url := url; hc_Body := bodyString; hc_Header := header |}
  else lift (Err (Errorf "new request")).
Definition NewHTTPRequest (method url bodyString : string) (header : gmap string string) : act (Z * string) :=
  if bool_decide (method = "GET"%string) then without_body "GET" url header
  else if bool_decide (method = "LIST"%string) then without_body "LIST" url header
  else if bool_decide (method = "DELETE"%string) then without_body "DELETE" url header
  else if bool_decide (method = "POST"%string) then post url bodyString header
  else lift (Err (Errorf "verb not supported %s")).
(** An answer with another status is an error whose text is the body. *)
Definition StatusOK : Z := 200.
Definition if_ok (m : act (Z * string)) : act string :=
  '(status, resp) ← m;
  if status =? StatusOK then mret resp else lift (Err (Errorf resp)).
Definition wrap {A} (format : string) (m : act A) : act A := λ s,
  match m s with (s', Err _) => (s', Err (Errorf format)) | r => r end.
End client.

(** * JSON into structs

    A key matches a field whatever its case; a null or missing value leaves the zero
    value, one of another type is an error.  An integer has neither point nor exponent. *)
Definition lower_ascii (c : Ascii.ascii) : Ascii.ascii :=
  let n := Ascii.nat_of_ascii c in
  if (65 <=? n)%nat && (n <=? 90)%nat then Ascii.ascii_of_nat (n + 32) else c.
Fixpoint lower (s : string) : string :=
  match s with EmptyString => EmptyString | String c s => String (lower_ascii c) (lower s) end.
Definition struct_field (o : list (string * json)) (k : string) : option json :=
  snd <$> last (filter (λ kv, lower kv.1 = lower k) o).
Definition decode {A} (zero : A) (f : json → option A) (j : option json) : option A :=
  match j with None | Some JNull => Some zero | Some j => f j end.
Definition dec_string (j : json) : option string := match j with JString s => Some s | _ => None end.
Definition dec_bool (j : json) : option bool := match j with JBool b => Some b | _ => None end.
Definition dec_int (lo hi : Z) (j : json) : option Z :=
  match j with JNumber m e => if (e =? 0) && (lo <=? m) && (m <? hi) then Some m else None | _ => None end.
Definition dec_i64 : json → option Z := dec_int (- 2 ^ 63) (2 ^ 63).
Definition dec_u64 : json → option Z := dec_int 0 (2 ^ 64).
Definition dec_u32 : json → option Z := dec_int 0 (2 ^ 32).
Fixpoint dec_list {A} (f : json → option A) (l : list json) : option (list A) :=
  match l with [] => Some [] | j :: l => match f j, dec_list f l with Some a, Some l => Some (a :: l) | _, _ => None end end.
(** [var l []T; json.Unmarshal(text, &l)] *)
Definition dec_array {A} (f : json → option A) (j : option json) : option (list A) :=
  match Unmarshal_array j with Some l => dec_list f l | None => None end.

(** strconv.Atoi *)
Definition digit (c : Ascii.ascii) : option Z :=
  let n := Z.of_nat (Ascii.nat_of_ascii c) in if (48 <=? n) && (n <=? 57) then Some (n - 48) else None.
Fixpoint digits (acc : Z) (s : string) : option Z :=
  match s with
  | EmptyString => Some acc
  | String c s => match digit c with Some d => digits (10 * acc + d) s | None => None end
  end.
Definition in_int (z : Z) : option Z := if (- 2 ^ 63 <=? z) && (z <? 2 ^ 63) then Some z else None.
Definition Atoi (s : string) : option Z :=
  match s with
  | EmptyString => None
  | String c r =>
      if Ascii.eqb c (Ascii.ascii_of_nat 45) then match r with EmptyString => None | _ => match digits 0 r with Some z => in_int (- z) | None => None end end
      else if Ascii.eqb c (Ascii.ascii_of_nat 43) then match r with EmptyString => None | _ => match digits 0 r with Some z => in_int z | None => None end end
      else match digits 0 s with Some z => in_int z | None => None end
  end.

(** * Transactions and outputs *)

Record TxOutput := {
  to_Asset : bytes; to_Value : bytes; to_Script : bytes; to_Nonce : bytes; to_RangeProof : bytes; to_SurjectionProof : bytes }.
Record Unblinded := { ub_Asset : bytes; ub_Value : Z; ub_ValueBlindingFactor : bytes; ub_AssetBlindingFactor : bytes }.
(** go-elements; [None] is an error. *)
Class ExplorerLib `{Elements} := {
  TxInput : Type;
  NewTxInput : bytes → Z → TxInput;
  chain_Inputs : transaction → list TxInput;
  chain_Outputs : transaction → list TxOutput;
  chain_Version : transaction → Z;
  chain_Locktime : transaction → Z;
  chain_VirtualSize : transaction → Z;
  chain_Weight : transaction → Z;
  TxIDToBytes : string → option bytes;
  CommitmentToBytes : string → option bytes;
  AssetHashToBytes : string → option bytes;
  ValueToBytes : Z → option bytes;
  UnblindOutputWithKey : TxOutput → bytes → option Unblinded;
  dec_bytes : json → option bytes;
  dec_inputs : json → option (list TxInput);
  dec_outputs : json → option (list TxOutput);
}.

Module Esplora.
Section esplora.
Context {C : Type} `{Http C} `{Arrival} `{ExplorerLib}.
Abbreviation act := (action (process C) error).
Variable apiURL : string.

(** ** types.go *)
Record tx := {
  TxHash_ : string; TxVersion : Z; TxLocktime : Z; TxInputs : list TxInput; TxOutputs : list TxOutput;
  TxSize : Z; TxWeight : Z; TxConfirmed : bool }.
Definition empty_tx : tx := {|
  TxHash_ := ""; TxVersion := 0; TxLocktime := 0; TxInputs := []; TxOutputs := []; TxSize := 0; TxWeight := 0; TxConfirmed := false |}.
(** The fields have no tags: their keys are their names. *)
Definition decode_tx (j : option json) : option tx :=
  o ← Unmarshal_object j;
  h ← decode ""%string dec_string (struct_field o "TxHash");
  v ← decode 0 dec_i64 (struct_field o "TxVersion");
  lt ← decode 0 dec_i64 (struct_field o "TxLocktime");
  ins ← decode [] dec_inputs (struct_field o "TxInputs");
  outs ← decode [] dec_outputs (struct_field o "TxOutputs");
  size ← decode 0 dec_i64 (struct_field o "TxSize");
  weight ← decode 0 dec_i64 (struct_field o "TxWeight");
  conf ← decode false dec_bool (struct_field o "TxConfirmed");
  Some {| TxHash_ := h; TxVersion := v; TxLocktime := lt; TxInputs := ins; TxOutputs := outs; TxSize := size;
          TxWeight := weight; TxConfirmed := conf |}.
Definition NewTxFromJSON (j : option json) : outcome error tx :=
  match decode_tx j with Some t => Ret t | None => Err (Errorf "invalid tx JSON") end.
Definition NewTxFromHex (txhex : string) (confirmed : bool) : outcome error tx :=
  match SwapMsg.NewTxFromHex txhex with
  | None => Err (Errorf "new tx from hex")
  | Some t => Ret {| TxHash_ := TxHash t; TxVersion := chain_Version t; TxLocktime := chain_Locktime t;
      TxInputs := chain_Inputs t; TxOutputs := chain_Outputs t; TxSize := chain_VirtualSize t; TxWeight := chain_Weight t;
      TxConfirmed := confirmed |}
  end.

(** txStatus and utxoStatus are maps *)
Definition Confirmed (s : list (string * json)) : bool := match field s "confirmed" with Some (JBool b) => b | _ => false end.
Definition BlockHash (s : list (string * json)) : string := default ""%string (as_string (field s "block_hash")).
Definition BlockHeight (s : list (string * json)) : Z := default (-1) (float_int <$> as_number (field s "block_height")).
Definition BlockTime (s : list (string * json)) : Z := default (-1) (float_int <$> as_number (field s "block_time")).
Definition Spent (s : list (string * json)) : bool := match field s "spent" with Some (JBool b) => b | _ => false end.
Definition Hash (s : list (string * json)) : string := default ""%string (as_string (field s "txid")).
Definition Index (s : list (string * json)) : Z := default (-1) (float_int <$> as_number (field s "vin")).

Record witnessUtxo := {
  UHash : string; UIndex : Z; UValue : Z; UAsset : string; UValueCommitment : string; UAssetCommitment : string;
  UConfirmed : bool; UScript : bytes; UNonce : bytes; URangeProof : bytes; USurjectionProof : bytes;
  UValueBlinder : bytes; UAssetBlinder : bytes }.
Definition decode_status (j : json) : option bool :=
  match Unmarshal_object (Some j) with Some o => decode false dec_bool (struct_field o "confirmed") | None => None end.
Definition decode_utxo (j : json) : option witnessUtxo :=
  o ← Unmarshal_object (Some j);
  h ← decode ""%string dec_string (struct_field o "txid");
  i ← decode 0 dec_u32 (struct_field o "vout");
  v ← decode 0 dec_u64 (struct_field o "value");
  a ← decode ""%string dec_string (struct_field o "asset");
  vc ← decode ""%string dec_string (struct_field o "valuecommitment");
  ac ← decode ""%string dec_string (struct_field o "assetcommitment");
  st ← decode false decode_status (struct_field o "status");
  sc ← decode [] dec_bytes (struct_field o "UScript");
  no ← decode [] dec_bytes (struct_field o "UNonce");
  rp ← decode [] dec_bytes (struct_field o "URangeProof");
  sp ← decode [] dec_bytes (struct_field o "USurjectionProof");
  vb ← decode [] dec_bytes (struct_field o "UValueBlinder");
  ab ← decode [] dec_bytes (struct_field o "UAssetBlinder");
  Some {| UHash := h; UIndex := i; UValue := v; UAsset := a; UValueCommitment := vc; UAssetCommitment := ac; UConfirmed := st;
          UScript := sc; UNonce := no; URangeProof := rp; USurjectionProof := sp; UValueBlinder := vb; UAssetBlinder := ab |}.
Definition NewUnconfidentialWitnessUtxo (hash : string) (index value : Z) (asset : string) (script : bytes) : witnessUtxo := {|
  UHash := hash; UIndex := index; UValue := value; UAsset := asset; UValueCommitment := ""; UAssetCommitment := "";
  UConfirmed := false; UScript := script; UNonce := []; URangeProof := []; USurjectionProof := []; UValueBlinder := []; UAssetBlinder := [] |}.
Definition NewConfidentialWitnessUtxo (hash : string) (index : Z) (valueCommitment assetCommitment : string)
    (script nonce rangeProof surjectionProof : bytes) : witnessUtxo := {|
  UHash := hash; UIndex := index; UValue := 0; UAsset := ""; UValueCommitment := valueCommitment; UAssetCommitment := assetCommitment;
  UConfirmed := false; UScript := script; UNonce := nonce; URangeProof := rangeProof; USurjectionProof := surjectionProof;
  UValueBlinder := []; UAssetBlinder := [] |}.
Definition NewWitnessUtxo (hash : string) (index value : Z) (asset valueCommitment assetCommitment : string)
    (valueBlinder assetBlinder script nonce rangeProof surjectionProof : bytes) (confirmed : bool) : witnessUtxo := {|
  UHash := hash; UIndex := index; UValue := value; UAsset := asset; UValueCommitment := valueCommitment;
  UAssetCommitment := assetCommitment; UConfirmed := confirmed; UScript := script; UNonce := nonce; URangeProof := rangeProof;
  USurjectionProof := surjectionProof; UValueBlinder := valueBlinder; UAssetBlinder := assetBlinder |}.
Definition IsConfidential (u : witnessUtxo) : bool :=
  negb (bool_decide (UValueCommitment u = ""%string)) && negb (bool_decide (UAssetCommitment u = ""%string)).
Definition IsRevealed (u : witnessUtxo) : bool :=
  negb (bool_decide (UValueBlinder u = [])) && negb (bool_decide (UAssetBlinder u = [])).
Definition Parse (u : witnessUtxo) : option (TxInput * TxOutput) :=
  inHash ← TxIDToBytes (UHash u);
  let input := NewTxInput inHash (UIndex u) in
  if IsConfidential u then
    assetCommitment ← CommitmentToBytes (UAssetCommitment u);
    valueCommitment ← CommitmentToBytes (UValueCommitment u);
    Some (input, {| to_Nonce := UNonce u; to_Script := UScript u; to_Asset := assetCommitment; to_Value := valueCommitment;
                    to_RangeProof := URangeProof u; to_SurjectionProof := USurjectionProof u |})
  else
    asset ← AssetHashToBytes (UAsset u);
    value ← ValueToBytes (UValue u);
    Some (input, {| to_Asset := asset; to_Value := value; to_Script := UScript u; to_Nonce := [0]; to_RangeProof := [];
                    to_SurjectionProof := [] |}).

(** ** block.go, transaction.go *)
Definition fetch (path : string) : act string := if_ok (NewHTTPRequest "GET" (apiURL +:+ path) "" ∅).
Definition or_error {A} (msg : string) (o : option A) : outcome error A := match o with Some a => Ret a | None => Err (Errorf msg) end.
Definition GetBlockHeight : act Z :=
  resp ← fetch "/blocks/tip/height";
  lift (or_error "atoi" (Atoi resp)).
Definition getTransactionHex (hash : string) : act string := fetch ("/tx/" +:+ hash +:+ "/hex").
Definition getTransactionStatus (hash : string) : act (list (string * json)) :=
  resp ← fetch ("/tx/" +:+ hash +:+ "/status");
  lift (or_error "unmarshal" (Unmarshal_object (json_of resp))).
Definition isTransactionConfirmed (hash : string) : act bool := st ← getTransactionStatus hash; mret (Confirmed st).
Definition GetTransaction (hash : string) : act tx :=
  txHex ← getTransactionHex hash;
  confirmed ← isTransactionConfirmed hash;
  lift (NewTxFromHex txHex confirmed).
Definition parseTransaction (txi : json) : act tx := lift (NewTxFromJSON (Some txi)).
Definition parseTransactions (txList : string) : act (list tx) :=
  txInterfaces ← lift (or_error "unmarshal" (Unmarshal_array (json_of txList)));
  fan_in parseTransaction txInterfaces.
Definition GetTransactionsForAddress (address : string) : act (list tx) :=
  resp ← fetch ("/address/" +:+ address +:+ "/txs");
  parseTransactions resp.
(** PollGetKnownTransaction: one call per tick; [states] are what is behind the connection
    at each of them.  [None]: not known yet after the last. *)
Fixpoint PollGetKnownTransaction (txid : string) (states : list C) : option (outcome error tx) :=
  match states with
  | [] => None
  | c :: states =>
      match snd (GetTransaction txid {| remote := c; blocked := 0 |}) with
      | Err (Errorf text) =>
          if Contains text "Transaction not found" then PollGetKnownTransaction txid states else Some (Err (Errorf text))
      | o => Some o
      end
  end.
Definition BroadcastTransaction (txHex : string) : act string :=
  if_ok (NewHTTPRequest "POST" (apiURL +:+ "/tx") txHex {["Content-Type"%string := "text/plain"%string]}).
(** [amount] is the number [m * 10^e].  An answer that is not an object of strings gives
    empty strings. *)
Definition text_at (resp k : string) : string := default ""%string (as_string (field (default [] (Unmarshal_object (json_of resp))) k)).
Definition application_json : gmap string string := {["Content-Type"%string := "application/json"%string]}.
Definition Faucet (address : string) (m e : Z) (asset : string) : act string :=
  resp ← if_ok (NewHTTPRequest "POST" (apiURL +:+ "/faucet")
    (json_Marshal (JObject [("address", JString address); ("amount", JNumber m e); ("asset", JString asset)])) application_json);
  mret (text_at resp "txId").
Definition Mint (address : string) (m e : Z) : act (string * string) :=
  resp ← if_ok (NewHTTPRequest "POST" (apiURL +:+ "/mint")
    (json_Marshal (JObject [("address", JString address); ("quantity", JNumber m e)])) application_json);
  mret (text_at resp "txId", text_at resp "asset").

(** ** unspents.go *)
Definition with_prevout (confirmed : bool) (prevout : TxOutput) (u : witnessUtxo) : witnessUtxo :=
  let c := IsConfidential u in {|
  UHash := UHash u; UIndex := UIndex u; UValue := UValue u; UAsset := UAsset u; UValueCommitment := UValueCommitment u;
  UAssetCommitment := UAssetCommitment u; UConfirmed := confirmed; UScript := to_Script prevout;
  UNonce := if c then to_Nonce prevout else UNonce u; URangeProof := if c then to_RangeProof prevout else URangeProof u;
  USurjectionProof := if c then to_SurjectionProof prevout else USurjectionProof u;
  UValueBlinder := UValueBlinder u; UAssetBlinder := UAssetBlinder u |}.
(** An error about the status means unconfirmed; one about the hex of the transaction is
    discarded, and its outputs are those of a nil transaction. *)
Definition getUtxoDetails (u : witnessUtxo) : act witnessUtxo :=
  confirmed ← try (isTransactionConfirmed (UHash u));
  prevoutTxHex ← getTransactionHex (UHash u);
  trx ← lift (deref (SwapMsg.NewTxFromHex prevoutTxHex));
  prevout ← lift (index (chain_Outputs trx) (Z.to_nat (UIndex u)));
  mret (with_prevout (match confirmed with inl b => b | inr _ => false end) prevout u).
Definition txOut_of (u : witnessUtxo) : TxOutput := {|
  to_Nonce := UNonce u; to_Asset := default [] (CommitmentToBytes (UAssetCommitment u));
  to_Value := default [] (CommitmentToBytes (UValueCommitment u)); to_Script := UScript u; to_RangeProof := URangeProof u;
  to_SurjectionProof := USurjectionProof u |}.
Definition reveal (b : Unblinded) (u : witnessUtxo) : witnessUtxo := {|
  UHash := UHash u; UIndex := UIndex u; UValue := ub_Value b; UAsset := hex_EncodeToString (rev (ub_Asset b));
  UValueCommitment := UValueCommitment u; UAssetCommitment := UAssetCommitment u; UConfirmed := UConfirmed u; UScript := UScript u;
  UNonce := UNonce u; URangeProof := URangeProof u; USurjectionProof := USurjectionProof u;
  UValueBlinder := ub_ValueBlindingFactor b; UAssetBlinder := ub_AssetBlindingFactor b |}.
Fixpoint unblindUtxo (blindKeys : list bytes) (u : witnessUtxo) : outcome error witnessUtxo :=
  match blindKeys with
  | [] => Err (Errorf "unable to unblind utxo with provided keys")
  | k :: blindKeys =>
      match UnblindOutputWithKey (txOut_of u) k with Some b => Ret (reveal b u) | None => unblindUtxo blindKeys u end
  end.
Definition to_unblind (blindingKeys : list bytes) (u : witnessUtxo) : bool :=
  negb (bool_decide (blindingKeys = [])) && IsConfidential u.
Definition listed (addr : string) : act (list witnessUtxo) :=
  resp ← (λ s, match NewHTTPRequest "GET" (apiURL +:+ "/address/" +:+ addr +:+ "/utxo") "" ∅ s with
               | (s', Err _) => (s', Err (Errorf "error on retrieving utxos: %s"))
               | (s', Ret (status, resp)) => (s', if status =? StatusOK then Ret resp else Err (Errorf resp))
               | (s', Panic p) => (s', Panic p)
               end);
  lift (or_error "error on parsing utxos: %s" (dec_array decode_utxo (json_of resp))).
Definition getUtxos (addr : string) (blindingKeys : list bytes) : act (list witnessUtxo) :=
  witnessOuts ← listed addr;
  details ← wrap "error on retrieving utxos: %s" (fan_in getUtxoDetails witnessOuts);
  let utxos := filter (λ u, to_unblind blindingKeys u = false) details in
  let utxosToUnblind := filter (λ u, to_unblind blindingKeys u = true) details in
  match utxosToUnblind with
  | [] => mret utxos
  | _ =>
      revealed ← wrap "error on unblinding utxos: %s" (fan_in (λ u, lift (unblindUtxo blindingKeys u)) utxosToUnblind);
      mret (utxos ++ revealed)
  end.
Definition GetUnspents : string → list bytes → act (list witnessUtxo) := getUtxos.
Definition GetUnspentsForAddresses (addresses : list string) (blindingKeys : list bytes) : act (list witnessUtxo) :=
  match addresses with
  | [] => mret []
  | _ => l ← fan_in (λ addr, getUtxos addr blindingKeys) addresses; mret (concat l)
  end.
Definition GetUnspentStatus (txid : string) (index : Z) : act (list (string * json)) :=
  resp ← (λ s, match NewHTTPRequest "GET" (apiURL +:+ "/tx/" +:+ txid +:+ "/outspend/" +:+ pretty index) "" ∅ s with
               | (s', Err _) => (s', Err (Errorf "error on retrieving unspent status: %s"))
               | (s', Ret (status, resp)) => (s', if status =? StatusOK then Ret resp else Err (Errorf resp))
               | (s', Panic p) => (s', Panic p)
               end);
  lift (or_error "error on parsing unspent status: %s" (Unmarshal_object (json_of resp))).

(** ** service.go *)
Definition minRequestTimeout : Z := 5 * 10 ^ 9.
Definition NewService (requestTimeout : Z) : act string :=
  if i64 (requestTimeout * 10 ^ 6) <? minRequestTimeout then lift (Err (Errorf "request timeout must be at least 5 seconds"))
  else _ ← wrap "health check: %w" GetBlockHeight; mret apiURL.
End esplora.
End Esplora.

(** * Theorems *)

(** Requests that only read: a GET leaves what is behind the connection as it is. *)
Class HttpLaws (C : Type) `{Http C} : Prop := {
  get_reads r c : hc_Method r = "GET"%string → fst (Do r c) = c;
}.

Section reading.
Context {C : Type}.
Abbreviation act := (action (process C) error).
Definition at_ (c : C) (b : nat) : process C := {| remote := c; blocked := b |}.
(** What a method gives when [c] is behind the connection. *)
Definition value {A} (m : act A) (c : C) : outcome error A := snd (m (at_ c 0)).
Definition reading {A} (m : act A) : Prop := ∀ c b, m (at_ c b) = (at_ c b, value m c).

Lemma reading_state {A} (m : act A) s : reading m → m s = (s, value m (remote s)).
Proof. destruct s as [c b]. intros HR. apply HR. Qed.
Lemma reading_lift {A} (o : outcome error A) : reading (lift o : act A).
Proof. done. Qed.
Lemma reading_ret {A} (a : A) : reading (mret a : act A).
Proof. done. Qed.
Lemma reading_bind {A B} (m : act A) (k : A → act B) : reading m → (∀ a, reading (k a)) → reading (m ≫= k).
Proof.
  intros Hm Hk c b. unfold value, mbind, action_bind. rewrite (Hm c b), (Hm c 0%nat).
  destruct (value m c); [|done..]. by rewrite (Hk _ c b), (Hk _ c 0%nat).
Qed.
Lemma reading_try {A} (m : act A) : reading m → reading (try m).
Proof. intros Hm c b. unfold value, try. rewrite (Hm c b), (Hm c 0%nat). by destruct (value m c). Qed.
Lemma value_bind {A B} (m : act A) (k : A → act B) c : reading m → value (m ≫= k) c = value m c ≫= λ a, value (k a) c.
Proof. intros Hm. unfold value, mbind, action_bind at 1. rewrite (Hm c 0%nat). by destruct (value m c). Qed.

(** ** Results *)
Lemma receive_Ret {B} (l : list (outcome error B)) bs n : receive l = (Ret bs, n) → l = Ret <$> bs ∧ n = 0%nat.
Proof.
  revert bs n. induction l as [|o l IH]; cbn; intros bs n; [by intros [= <- <-]|].
  destruct o as [b|e|p]; [|destruct (panics l); by intros [= ??]|done].
  destruct (receive l) as [[bs'|e|p] n'] eqn:E; intros [= <- <-]. by destruct (IH _ _ eq_refl) as [-> ->].
Qed.
Lemma panics_Some {B} (l : list (outcome error B)) p : panics l = Some p → Panic p ∈ l.
Proof. induction l as [|[b|e|p'] l IH]; cbn; [done|intros ?; right; auto..|intros [= ->]; left]. Qed.
Lemma receive_blocked {B} (l : list (outcome error B)) : (snd (receive l) ≤ length l)%nat.
Proof.
  induction l as [|[b|e|p] l IH]; cbn; [done|..|lia].
  - destruct (receive l) as [o n]. cbn in *. lia.
  - destruct l; cbn; lia.
Qed.
Lemma receive_Err {B} (l : list (outcome error B)) e n : receive l = (Err e, n) → Err e ∈ l.
Proof.
  revert n. induction l as [|o l IH]; cbn; intros n; [done|]. destruct o as [b|e'|p]; [|destruct (panics l); intros [= <- <-]; left|done].
  destruct (receive l) as [[bs'|e'|p] n'] eqn:E; intros [= <- <-]. right. by eapply IH.
Qed.
Lemma receive_Panic {B} (l : list (outcome error B)) p n : receive l = (Panic p, n) → Panic p ∈ l.
Proof.
  revert n. induction l as [|o l IH]; cbn; intros n; [done|]. destruct o as [b|e'|p']; [|destruct (panics l) eqn:E; intros [= <- <-]|intros [= -> _]; left].
  - destruct (receive l) as [[bs'|e'|p'] n'] eqn:E; intros [= <- <-]. right. by eapply IH.
  - right. by apply panics_Some.
Qed.

Context `{Arrival}.
Lemma run_all_reading {A B} (f : A → act B) l s : (∀ x, reading (f x)) → run_all f l s = (s, (λ x, value (f x) (remote s)) <$> l).
Proof. intros HR. induction l as [|x l IH]; cbn; [done|]. by rewrite (reading_state _ _ (HR x)), IH. Qed.
(** Whatever the order of arrival: with no error every result is received, otherwise the
    answer is one of the errors. *)
Lemma fan_in_reading {A B} (f : A → act B) l s s' o : (∀ x, reading (f x)) → fan_in f l s = (s', o) →
  remote s' = remote s ∧
  match o with
  | Ret bs => Ret <$> bs ≡ₚ (λ x, value (f x) (remote s)) <$> l ∧ blocked s' = blocked s
  | _ => (∃ x, x ∈ l ∧ ∀ b, value (f x) (remote s) ≠ Ret b) ∧ (blocked s' ≤ blocked s + length l)%nat
  end.
Proof.
  intros HR. unfold fan_in. rewrite run_all_reading by done.
  assert (∀ o : outcome error B, (∀ b, o ≠ Ret b) → o ∈ (λ x, value (f x) (remote s)) <$> arrive l →
    ∃ x, x ∈ l ∧ ∀ b, value (f x) (remote s) ≠ Ret b) as HE.
  { intros o' Ho (x & -> & Hx)%list_elem_of_fmap. exists x. rewrite arrive_perm in Hx. done. }
  pose proof (Permutation_length (arrive_perm l)) as HL.
  pose proof (receive_blocked ((λ x, value (f x) (remote s)) <$> arrive l)) as HB. rewrite length_fmap in HB.
  destruct (receive _) as [[bs|e|p] n] eqn:E; intros [= <- <-]; cbn in *; (split; [done|]).
  - apply receive_Ret in E as [E ->]. split; [|lia]. by rewrite <- E, arrive_perm.
  - apply receive_Err in E. split; [by apply (HE (Err e))|lia].
  - apply receive_Panic in E. split; [by apply (HE (Panic p))|lia].
Qed.

(** The same for goroutines that start goroutines of their own. *)
Definition accrues {A} (m : act A) : Prop := ∀ c, ∃ n, ∀ b, m (at_ c b) = (at_ c (b + n), value m c).
Lemma reading_accrues {A} (m : act A) : reading m → accrues m.
Proof. intros HR c. exists 0%nat. intros b. by rewrite Nat.add_0_r. Qed.
Lemma accrues_bind {A B} (m : act A) (k : A → act B) : accrues m → (∀ a, accrues (k a)) → accrues (m ≫= k).
Proof.
  intros Hm Hk c. destruct (Hm c) as [n Hn]. unfold value, mbind, action_bind.
  destruct (value m c) as [a|e|p] eqn:E; [|exists n; intros b; by rewrite !Hn..].
  destruct (Hk a c) as [n' Hn']. exists (n + n')%nat. intros b. rewrite !Hn, !Hn', Nat.add_assoc. done.
Qed.
Lemma accrues_wrap {A} format (m : act A) : accrues m → accrues (wrap format m).
Proof. intros Hm c. destruct (Hm c) as [n Hn]. exists n. intros b. unfold value, wrap. rewrite !Hn. by destruct (value m c). Qed.
Lemma run_all_accrues {A B} (f : A → act B) l c : (∀ x, accrues (f x)) →
  ∃ n, ∀ b, run_all f l (at_ c b) = (at_ c (b + n), (λ x, value (f x) c) <$> l).
Proof.
  intros Hf. induction l as [|x l [n IH]]; [exists 0%nat; intros b; by rewrite Nat.add_0_r|].
  destruct (Hf x c) as [k Hk]. exists (k + n)%nat. intros b. cbn. by rewrite Hk, IH, Nat.add_assoc.
Qed.
Lemma fan_in_accrues {A B} (f : A → act B) l : (∀ x, accrues (f x)) → accrues (fan_in f l).
Proof.
  intros Hf c. destruct (run_all_accrues f (arrive l) c Hf) as [n Hn]. exists (n + snd (receive ((λ x, value (f x) c) <$> arrive l)))%nat.
  intros b. unfold value, fan_in. rewrite !Hn. destruct (receive _) as [o k]. cbn. unfold at_. by rewrite Nat.add_assoc.
Qed.
Lemma fan_in_values {A B} (f : A → act B) l c bs : (∀ x, accrues (f x)) → value (fan_in f l) c = Ret bs →
  Ret <$> bs ≡ₚ (λ x, value (f x) c) <$> l.
Proof.
  intros Hf. unfold value at 1, fan_in. destruct (run_all_accrues f (arrive l) c Hf) as [n Hn]. rewrite Hn.
  destruct (receive _) as [[bs'|e|p] k] eqn:E; intros [= <-]. apply receive_Ret in E as [E _]. by rewrite <- E, arrive_perm.
Qed.
End reading.

Module EsploraCorrect.
Import Esplora.
Section esplora.
Context {C : Type} `{Http C} `{!HttpLaws C} `{Arrival} `{ExplorerLib}.
Abbreviation act := (action (process C) error).
Variable apiURL : string.

Lemma get_reading url header : reading (NewHTTPRequest "GET" url "" header : act _).
Proof.
  unfold NewHTTPRequest, without_body. rewrite bool_decide_true by done. intros c b. unfold value. destruct (ValidRequest _ _); [|done].
  unfold perform, at_. cbn. pose proof (get_reads {| hc_Method := "GET"; hc_Url := url; hc_Body := ""; hc_Header := header |} c eq_refl) as HG.
  destruct (Do _ c) as [c' a]. cbn in *. by subst.
Qed.
Lemma fetch_reading path : reading (fetch apiURL path).
Proof. unfold fetch, if_ok. apply reading_bind; [apply get_reading|]. intros [status resp]. by destruct (status =? StatusOK). Qed.
Lemma confirmed_reading hash : reading (isTransactionConfirmed apiURL hash).
Proof.
  unfold isTransactionConfirmed, getTransactionStatus. apply reading_bind; [|intros; apply reading_ret].
  apply reading_bind; [apply fetch_reading|]. intros. apply reading_lift.
Qed.
Lemma details_reading u : reading (getUtxoDetails apiURL u).
Proof.
  unfold getUtxoDetails, getTransactionHex. apply reading_bind; [apply reading_try, confirmed_reading|]. intros confirmed.
  apply reading_bind; [apply fetch_reading|]. intros hex. apply reading_bind; [apply reading_lift|]. intros trx.
  apply reading_bind; [apply reading_lift|]. intros. apply reading_ret.
Qed.
Lemma listed_reading addr : reading (listed apiURL addr).
Proof.
  unfold listed. apply reading_bind; [|intros; apply reading_lift].
  intros c b. unfold value. rewrite !(get_reading _ _ c _). by destruct (value _ c) as [[status resp]|e|p].
Qed.

(** The coin an output of the list is: with the script and the proofs of the transaction it
    is in, unblinded by the first key that can. *)
Definition coin (blindingKeys : list bytes) (c : C) (out : witnessUtxo) : outcome error witnessUtxo :=
  u ← value (getUtxoDetails apiURL out) c;
  if to_unblind blindingKeys u then unblindUtxo blindingKeys u else Ret u.

Lemma wrapped_fan {A B} format (f : A → act B) l s s' o : (∀ x, reading (f x)) → wrap format (fan_in f l) s = (s', o) →
  remote s' = remote s ∧
  match o with
  | Ret bs => Ret <$> bs ≡ₚ (λ x, value (f x) (remote s)) <$> l ∧ blocked s' = blocked s
  | _ => ∃ x, x ∈ l ∧ ∀ b, value (f x) (remote s) ≠ Ret b
  end.
Proof.
  intros HR. unfold wrap. destruct (fan_in f l s) as [s1 o1] eqn:E. apply fan_in_reading in E as [Hr HE]; [|done].
  destruct o1; intros [= <- <-]; (split; [done|]); [done|by destruct HE..].
Qed.
Lemma coins_split keys c outs details revealed :
  Ret <$> details ≡ₚ (λ x, value (getUtxoDetails apiURL x) c) <$> outs →
  Ret <$> revealed ≡ₚ unblindUtxo keys <$> filter (λ u, to_unblind keys u = true) details →
  Ret <$> (filter (λ u, to_unblind keys u = false) details ++ revealed) ≡ₚ coin keys c <$> outs.
Proof.
  intros HD HR. set (g u := if to_unblind keys u then unblindUtxo keys u else Ret u).
  assert (coin keys c <$> outs = (λ o, o ≫= g) <$> ((λ x, value (getUtxoDetails apiURL x) c) <$> outs)) as ->. { rewrite <- list_fmap_compose. reflexivity. }
  rewrite <- HD, <- list_fmap_compose, fmap_app, HR. clear HD HR. induction details as [|u l IH]; [done|].
  assert (g u = if to_unblind keys u then unblindUtxo keys u else Ret u) as Hg by done.
  rewrite !filter_cons. destruct (to_unblind keys u) eqn:E.
  - rewrite decide_False by done. rewrite decide_True by done. cbn. by rewrite <- Permutation_middle, IH, Hg.
  - rewrite decide_True by done. rewrite decide_False by done. cbn. by rewrite IH, Hg.
Qed.
Lemma coin_fails keys c (outs : list witnessUtxo) out : out ∈ outs → (∀ b, value (getUtxoDetails apiURL out) c ≠ Ret b) →
  ∃ out, out ∈ outs ∧ ∀ u, coin keys c out ≠ Ret u.
Proof. intros Ho Hn. exists out. split; [done|]. intros u. unfold coin. destruct (value _ _) as [a|e|p]; [by destruct (Hn a)|done..]. Qed.
Lemma unblind_fails keys c outs details u :
  Ret <$> details ≡ₚ (λ x, value (getUtxoDetails apiURL x) c) <$> outs →
  u ∈ filter (λ u, to_unblind keys u = true) details → (∀ b, unblindUtxo keys u ≠ Ret b) →
  ∃ out, out ∈ outs ∧ ∀ u, coin keys c out ≠ Ret u.
Proof.
  intros HD [Ht Hu]%list_elem_of_filter Hn. assert (Ret u ∈ Ret (E := error) <$> details) as Hr by (apply list_elem_of_fmap; eauto).
  rewrite HD in Hr. apply list_elem_of_fmap in Hr as (out & E & Ho). exists out. split; [done|].
  intros u'. unfold coin. rewrite <- E. cbn. rewrite Ht. apply Hn.
Qed.


Lemma getUtxos_accrues addr keys : accrues (getUtxos apiURL addr keys).
Proof.
  unfold getUtxos. apply accrues_bind; [apply reading_accrues, listed_reading|]. intros outs.
  apply accrues_bind; [apply accrues_wrap, fan_in_accrues; intros; apply reading_accrues, details_reading|]. intros details.
  destruct (filter _ details) eqn:E; [apply reading_accrues, reading_ret|].
  apply accrues_bind; [apply accrues_wrap, fan_in_accrues; intros; apply reading_accrues, reading_lift|].
  intros. apply reading_accrues, reading_ret.
Qed.
Lemma concat_perm {A} (l l' : list (list A)) : l ≡ₚ l' → concat l ≡ₚ concat l'.
Proof.
  induction 1 as [|x l l' _ IH|x y l|l1 l2 l3 _ IH1 _ IH2]; cbn; [done|by rewrite IH| |by rewrite IH1].
  rewrite !app_assoc. by rewrite (Permutation_app_comm y).
Qed.
(** The coins of several addresses are those of each of them. *)
Lemma esplora_all_unspents addresses keys c l :
  value (GetUnspentsForAddresses apiURL addresses keys) c = Ret l →
  ∃ per, (λ addr, value (GetUnspents apiURL addr keys) c) <$> addresses = Ret <$> per ∧ l ≡ₚ concat per.
Proof.
  unfold GetUnspentsForAddresses. destruct addresses as [|a0 rest]; [intros [= <-]; by exists []|].
  intros HG. assert (∃ bs, value (fan_in (λ addr, getUtxos apiURL addr keys) (a0 :: rest)) c = Ret bs ∧ l = concat bs) as (bs & HF & ->).
  { unfold value, mbind, action_bind in *. destruct (fan_in _ _ _) as [s' [bs|e|p]]; try done. injection HG as <-. eauto. }
  apply fan_in_values in HF; [|intros; apply getUtxos_accrues]. symmetry in HF.
  apply Permutation_map_inv in HF as (per & E & HP). exists per. split; [exact E|by apply concat_perm].
Qed.

(** With keys, every confidential coin is revealed by one of them. *)
Lemma coin_revealed keys c out u : coin keys c out = Ret u → keys ≠ [] → IsConfidential u = true →
  ∃ k b v, k ∈ keys ∧ value (getUtxoDetails apiURL out) c = Ret v ∧ UnblindOutputWithKey (txOut_of v) k = Some b ∧ u = reveal b v.
Proof.
  unfold coin. destruct (value _ _) as [v|e|p]; cbn; [|done..]. unfold to_unblind. intros HC HK HI.
  rewrite bool_decide_false in HC by done. cbn in HC.
  assert (IsConfidential v = true) as HV.
  { destruct (IsConfidential v) eqn:E; [done|]. injection HC as ->. congruence. }
  rewrite HV in HC. clear HI HK HV. induction keys as [|k keys IH]; [done|]. cbn in HC.
  destruct (UnblindOutputWithKey (txOut_of v) k) as [b|] eqn:E.
  - injection HC as <-. exists k, b, v. split_and!; [by left|done..].
  - destruct (IH HC) as (k' & b & v' & Hk & HR). exists k', b, v'. split; [by right|done].
Qed.

(** Polling ends with the first answer that is not "Transaction not found". *)
Definition not_known (txid : string) (c : C) : Prop :=
  ∃ text, value (GetTransaction apiURL txid) c = Err (Errorf text) ∧ Contains text "Transaction not found" = true.
Lemma poll_known txid before c after : Forall (not_known txid) before → ¬ not_known txid c →
  PollGetKnownTransaction apiURL txid (before ++ c :: after) = Some (value (GetTransaction apiURL txid) c).
Proof.
  intros HF Hn. induction HF as [|c' l (text & HV & HC) HF IH]; cbn.
  - unfold not_known, value, at_ in *. destruct (snd _) as [t|[]|p] eqn:E; try done.
    destruct (Contains _ _) eqn:EC; [|done]. destruct Hn. eauto.
  - unfold value, at_ in *. by rewrite HV, HC.
Qed.
Lemma poll_unknown txid states : Forall (not_known txid) states → PollGetKnownTransaction apiURL txid states = None.
Proof. induction 1 as [|c l (text & HV & HC) HF IH]; cbn; [done|]. unfold value, at_ in *. by rewrite HV, HC. Qed.

(** The keys of a transaction in the answers of esplora match no field of the struct. *)
Definition esplora_keys : list string := ["txid"; "version"; "locktime"; "vin"; "vout"; "size"; "weight"; "fee"; "status"].
Lemma no_field o k : Forall (λ kv, kv.1 ∈ esplora_keys) o → lower k ∉ esplora_keys → struct_field o k = None.
Proof.
  intros HF Hk. unfold struct_field. assert (filter (λ kv : string * json, lower kv.1 = lower k) o = []) as ->; [|done].
  induction HF as [|[k' j] o Hk' HF IH]; [done|]. rewrite filter_cons, decide_False; [done|]. cbn in *. intros E.
  apply Hk. rewrite <- E. unfold esplora_keys in *. set_unfold. destruct_or!; subst; vm_compute; tauto.
Qed.
Lemma address_txs_empty o : Forall (λ kv, kv.1 ∈ esplora_keys) o → NewTxFromJSON (Some (JObject o)) = Ret empty_tx.
Proof.
  intros HF. unfold NewTxFromJSON, decode_tx. cbn.
  rewrite !(no_field o) by (done || (unfold esplora_keys; set_unfold; intros HH; destruct_or!; discriminate)). done.
Qed.
End esplora.
End EsploraCorrect.

(** * Examples *)
Module EsploraExamples.
Import Esplora EsploraCorrect.
(** A server that knows one address with a plain and a confidential output of the same
    transaction. *)
Definition page (url : string) : reply :=
  if bool_decide (url = "/address/a/utxo"%string) then Reply 200 "two"
  else if bool_decide (url = "/tx/t/hex"%string) then Reply 200 "txhex"
  else if bool_decide (url = "/tx/t/status"%string) then Reply 200 "confirmed"
  else Reply 404 "Transaction not found".
#[local] Instance server : Http () := {
  ValidRequest _ _ := true; Do r c := (c, page (hc_Url r)); json_Marshal _ := "";
  json_of s :=
    if bool_decide (s = "two"%string) then Some (JArray [
      JObject [("txid", JString "t"); ("vout", JNumber 0 0); ("value", JNumber 7 0); ("asset", JString "L")];
      JObject [("txid", JString "t"); ("vout", JNumber 1 0); ("valuecommitment", JString "v"); ("assetcommitment", JString "c")]])
    else if bool_decide (s = "confirmed"%string) then Some (JObject [("confirmed", JBool true)]) else None;
}.
#[local] Instance server_laws : HttpLaws ().
Proof. by split. Qed.
Definition out (script : Z) : TxOutput :=
  {| to_Asset := []; to_Value := []; to_Script := [script]; to_Nonce := [1]; to_RangeProof := [2]; to_SurjectionProof := [3] |}.
#[local] Instance lib : ExplorerLib (H := SwapExamples.elements) := {
  TxInput := (); NewTxInput _ _ := (); chain_Inputs _ := []; chain_Outputs _ := [out 8; out 9]; chain_Version _ := 2;
  chain_Locktime _ := 0; chain_VirtualSize _ := 100; chain_Weight _ := 400; TxIDToBytes _ := Some []; CommitmentToBytes _ := Some [4];
  AssetHashToBytes _ := Some []; ValueToBytes _ := Some [];
  UnblindOutputWithKey o k := if bool_decide (k = [5]) && bool_decide (to_Script o = [9])
    then Some {| ub_Asset := [6]; ub_Value := 100; ub_ValueBlindingFactor := [7]; ub_AssetBlindingFactor := [8] |} else None;
  dec_bytes _ := None; dec_inputs _ := None; dec_outputs _ := None;
}.
(** The last goroutine answers first. *)
#[local] Instance backwards : Arrival := { arrive A l := rev l; arrive_perm A l := Permutation_sym (Permutation_rev l) }.
Definition idle : process () := {| remote := (); blocked := 0 |}.

(** Without the right key the call fails; with two outputs that nobody can unblind the
    goroutine of one of them, and the one that waits for it, stay behind. *)
Example wrong_key : GetUnspents "" "a" [[4]] idle = (idle, Err (Errorf "error on unblinding utxos: %s")).
Proof. vm_compute. reflexivity. Qed.
Example left_behind : fan_in (λ _ : nat, lift (Err (Errorf "e")) : action (process ()) error ()) [1; 2]%nat idle
  = ({| remote := (); blocked := 2 |}, Err (Errorf "e")).
Proof. vm_compute. reflexivity. Qed.
End EsploraExamples.
