(* ===== verification/ElementsNode.v ===== *)
(** The client of an elements node: pkg/explorer/elements.

    The node is behind the same [Http] connection as in Explorer.v, with JSON-RPC on top of
    it ([call]); go-elements, key pairs and URLs are the class [NodeLib].  Amounts are
    binary64 floats, computed with the standard library's specification of them. *)

From Stdlib Require Import ZArith Lia SpecFloat.
From stdpp Require Import base tactics strings list gmap pretty.
From S2P Require Import Prelude Errors Decimal Formula Market Trade Exchange SwapMsg CoinSelection Interface Explorer.
Local Open Scope Z_scope.

(** * Libraries *)

Record Url := { url_Hostname : string; url_Port : string; url_Username : string; url_Password : option string }.
Class NodeLib `{ExplorerLib} := {
  url_Parse : string → option Url;
  basic_auth : string → string → string;              (* the Authorization header *)
  lib_ToOutputScript : string → option bytes;
  lib_FromConfidential : string → option bytes;       (* the blinding key *)
  NetworkForAddress : string → option string;         (* the asset of the network *)
  key_pair : bytes → bytes * bytes;                   (* Serialize, SerializeCompressed *)
  ValueFromBytes : bytes → option Z;
}.

(** ** Floats *)

(** The float64 of the number [m * 10^e]: the nearest one, for a mantissa below [2^53] and
    at most 22 decimals, as amounts with 8 decimals are. *)
Definition float_of_Z (z : Z) : spec_float := binary_normalize 53 1024 z 0 false.
Definition ParseFloat (x : Z * Z) : spec_float :=
  if x.2 <? 0 then SFdiv 53 1024 (float_of_Z x.1) (float_of_Z (10 ^ (- x.2)))
  else SFmul 53 1024 (float_of_Z x.1) (float_of_Z (10 ^ x.2)).
(** uint64(x) *)
Definition float_uint64 (x : spec_float) : Z :=
  match x with
  | S754_finite s m e => let z := if e <? 0 then Z.pos m / 2 ^ (- e) else Z.pos m * 2 ^ e in u64 (if s then - z else z)
  | _ => 0
  end.

(** * client.go *)

Record RPCClient := { rc_serverAddr : string; rc_user : string; rc_passwd : string; rc_timeout : Z }.
Record rpcResponse := { rr_Result : option json; rr_Err : option (Z * string) }.

Definition NewClient (host : string) (port : Z) (user passwd : string) (useSSL : bool) (timeout : Z) : outcome error RPCClient :=
  if bool_decide (host = ""%string) then Err (Errorf "bad call missing argument host")
  else Ret {| rc_serverAddr := (if useSSL then "https://" else "http://") +:+ host +:+ ":" +:+ pretty port;
              rc_user := user; rc_passwd := passwd; rc_timeout := timeout |}.
Definition decode_error (j : json) : option (option (Z * string)) :=
  o ← Unmarshal_object (Some j);
  code ← decode 0 dec_i64 (struct_field o "code");
  message ← decode ""%string dec_string (struct_field o "message");
  Some (Some (code, message)).
Definition decode_response (j : option json) : option rpcResponse :=
  o ← Unmarshal_object j;
  _ ← decode 0 dec_i64 (struct_field o "id");
  err ← decode None decode_error (struct_field o "error");
  Some {| rr_Result := struct_field o "result"; rr_Err := err |}.

(** A method call of the node; [http_node] is how client.go makes it. *)
Class NodeRpc (C : Type) := { rpc_call : string → json → action C error rpcResponse }.

Section client.
Context {C : Type} `{Http C} `{NodeLib}.
(** [now] is the id of the request. *)
Variables (client : RPCClient) (now : Z).
Definition rpc_header : gmap string string :=
  let h := {["Content-Type" := "application/json;charset=utf-8"; "Accept" := "application/json"]}%string in
  if bool_decide (rc_user client = ""%string) && bool_decide (rc_passwd client = ""%string) then h
  else <["Authorization"%string := basic_auth (rc_user client) (rc_passwd client)]> h.
Definition client_call (method : string) (params : json) : action C error rpcResponse :=
  let body := json_Marshal (JObject [("method", JString method); ("params", params); ("id", JNumber now 0); ("jsonrpc", JString "1.0")]) in
  if negb (ValidRequest "POST" (rc_serverAddr client)) then lift (Err (Errorf "new request"))
  else λ c,
    let '(c, a) := Do {| hc_Method := "POST"; hc_Url := rc_serverAddr client; hc_Body := body; hc_Header := rpc_header |} c in
    (c,
     match a with
     | Late => Err (Errorf "timeout reading data from server")
     | NoReply => Err (Errorf "do")
     | Unread => Err (Errorf "read")
     | Reply _ data => match decode_response (json_of data) with Some rr => Ret rr | None => Err (Errorf data) end
     end).
Definition http_node : NodeRpc C := {| rpc_call := client_call |}.
End client.

Section node.
Context {C : Type} `{NodeRpc C} `{Arrival} `{NodeLib}.
Abbreviation act := (action (process C) error).
Variable rescanTimestamp : json.

Definition call (method : string) (params : json) : act rpcResponse := λ s,
  let '(c, o) := rpc_call method params (remote s) in ({| remote := c; blocked := blocked s |}, o).
Definition RPCError_Error (code : Z) (message : string) : string := pretty code +:+ ": " +:+ message.
Definition handleError (r : rpcResponse) : outcome error rpcResponse :=
  match rr_Err r with Some (code, message) => Err (Errorf (RPCError_Error code message)) | None => Ret r end.
(** [r, err := call(...); if err = handleError(err, &r); err != nil { return format }] *)
Definition invoke (format method : string) (params : json) : act rpcResponse :=
  wrap format (r ← call method params; lift (handleError r)).
(** [json.Unmarshal(r.Result, &x)]: a missing result is no JSON. *)
Definition result {A} (msg : string) (zero : A) (f : json → option A) (r : rpcResponse) : act A :=
  lift (match rr_Result r with
        | None => Err (Errorf msg)
        | Some j => match decode zero f (Some j) with Some a => Ret a | None => Err (Errorf msg) end
        end).
Definition dec_any_list (j : json) : option (list json) := Unmarshal_array (Some j).
Definition dec_object (j : json) : option (list (string * json)) := Unmarshal_object (Some j).
Definition unmarshal : string := "unmarshal: %w".

(** ** block.go, service.go *)
Definition GetBlockHeight : act Z :=
  r ← (r ← call "getblockcount" JNull; lift (handleError r));
  result unmarshal 0 dec_i64 r.
Definition import_request (addr label : string) (rescanTime : json) (blindKey : bytes) (rescan : bool) : json :=
  JArray [
    JArray [JObject [("scriptPubKey", JObject [("address", JString addr)]); ("watchonly", JBool true);
      ("label", JString label); ("timestamp", rescanTime); ("blinding_privkey", JString (hex_EncodeToString blindKey))]];
    JObject [("rescan", JBool rescan)]].
Definition importAddress (addr label : string) (blindKey : bytes) (rescan : bool) : act () :=
  let rescanTime := if rescan then rescanTimestamp else JString "now" in
  _ ← (r ← call "importmulti" (import_request addr label rescanTime blindKey rescan); lift (handleError r));
  mret ().
Fixpoint has_label (target : string) (labels : list json) : outcome error bool :=
  match labels with
  | [] => Ret false
  | label :: labels =>
      l ← must (as_string (Some label));
      if bool_decide (l = target) then Ret true else has_label target labels
  end.
Definition isAddressImported (targetLabel : string) : act bool :=
  r ← (r ← call "listlabels" JNull; lift (handleError r));
  labels ← result unmarshal [] dec_any_list r;
  lift (has_label targetLabel labels).
Definition mine : act string :=
  r ← invoke "info: %w" "getnewaddress" JNull;
  addr ← result unmarshal ""%string dec_string r;
  r ← invoke "info: %w" "generatetoaddress" (JArray [JNumber 1 0; JString addr]);
  blockHash ← result unmarshal [] (λ j, dec_array dec_string (Some j)) r;
  lift (index blockHash 0).

(** ** types.go: transactions *)

(** The inputs of a transaction read from JSON are not those of go-elements. *)
Inductive typed A := OfChain (l : list A) | OfJson (j : option json).
Arguments OfChain {A} _.
Arguments OfJson {A} _.
Record node_tx := {
  nt_Hash : string; nt_Version : Z; nt_Locktime : Z; nt_Size : Z; nt_Weight : Z;
  nt_Inputs : typed TxInput; nt_Outputs : typed TxOutput; nt_Confirmed : bool }.
Definition NewTxFromHex (txhex : string) (confirmed : bool) : outcome error node_tx :=
  match SwapMsg.NewTxFromHex txhex with
  | None => Err (Errorf "new tx from hex")
  | Some t => Ret {| nt_Hash := TxHash t; nt_Version := chain_Version t; nt_Locktime := chain_Locktime t;
      nt_Size := chain_VirtualSize t; nt_Weight := chain_Weight t; nt_Inputs := OfChain (chain_Inputs t);
      nt_Outputs := OfChain (chain_Outputs t); nt_Confirmed := confirmed |}
  end.
Definition decode_node_tx (j : option json) : option node_tx :=
  o ← Unmarshal_object j;
  h ← decode ""%string dec_string (struct_field o "txid");
  v ← decode 0 dec_i64 (struct_field o "version");
  lt ← decode 0 dec_i64 (struct_field o "locktime");
  size ← decode 0 dec_i64 (struct_field o "size");
  weight ← decode 0 dec_i64 (struct_field o "weight");
  conf ← decode false dec_bool (struct_field o "TxConfirmed");
  Some {| nt_Hash := h; nt_Version := v; nt_Locktime := lt; nt_Size := size; nt_Weight := weight;
          nt_Inputs := OfJson (struct_field o "vin"); nt_Outputs := OfJson (struct_field o "vout"); nt_Confirmed := conf |}.
Definition NewTxFromJSON (j : option json) : outcome error node_tx :=
  match decode_node_tx j with Some t => Ret t | None => Err (Errorf "invalid tx JSON") end.
Definition as_chain {A} (t : typed A) : outcome error (list A) :=
  match t with OfChain l => Ret l | OfJson _ => Panic TypeAssertion end.
Definition Inputs (t : node_tx) : outcome error (list TxInput) := as_chain (nt_Inputs t).
Definition Outputs (t : node_tx) : outcome error (list TxOutput) := as_chain (nt_Outputs t).
(** The error of ValueFromBytes is discarded; the value is then 0. *)
Definition Fee (t : node_tx) : outcome error Z :=
  outs ← Outputs t;
  Ret (i64 (foldl (λ fee out, if bool_decide (to_Script out = []) then default 0 (ValueFromBytes (to_Value out)) else fee) 0 outs)).
Record node_status := { ns_confirmed : bool; ns_blockHash : string; ns_blockHeight : Z; ns_blockTime : Z }.
Definition newUnconfirmedTxStatus : node_status := {| ns_confirmed := false; ns_blockHash := ""; ns_blockHeight := -1; ns_blockTime := -1 |}.
Definition newConfirmedTxStatus (blockHash : string) (blockHeight blockTime : Z) : node_status :=
  {| ns_confirmed := true; ns_blockHash := blockHash; ns_blockHeight := blockHeight; ns_blockTime := blockTime |}.

(** ** types.go: unspents *)
Record elementsUnspent := {
  EAddress : string; ELabel : string; EScriptPubKey : string; EConfirmations : Z; ETxID : string; EVout : Z; EAmount : Z * Z;
  EAsset : string; EAmountCommitment : string; EAssetCommitment : string; EAmountBlinder : string; EAssetBlinder : string;
  ENonce : bytes; ERangeProof : bytes; ESurjectionProof : bytes }.
Definition dec_float (j : json) : option (Z * Z) := match j with JNumber m e => Some (m, e) | _ => None end.
Definition decode_unspent (j : json) : option elementsUnspent :=
  o ← Unmarshal_object (Some j);
  address ← decode ""%string dec_string (struct_field o "address");
  label ← decode ""%string dec_string (struct_field o "label");
  spk ← decode ""%string dec_string (struct_field o "scriptPubKey");
  conf ← decode 0 dec_i64 (struct_field o "confirmations");
  txid ← decode ""%string dec_string (struct_field o "txid");
  vout ← decode 0 dec_u32 (struct_field o "vout");
  amount ← decode (0, 0) dec_float (struct_field o "amount");
  asset ← decode ""%string dec_string (struct_field o "asset");
  ac ← decode ""%string dec_string (struct_field o "amountcommitment");
  asc ← decode ""%string dec_string (struct_field o "assetcommitment");
  ab ← decode ""%string dec_string (struct_field o "amountblinder");
  asb ← decode ""%string dec_string (struct_field o "assetblinder");
  no ← decode [] dec_bytes (struct_field o "UNonce");
  rp ← decode [] dec_bytes (struct_field o "URangeProof");
  sp ← decode [] dec_bytes (struct_field o "USurjectionProof");
  Some {| EAddress := address; ELabel := label; EScriptPubKey := spk; EConfirmations := conf; ETxID := txid; EVout := vout;
          EAmount := amount; EAsset := asset; EAmountCommitment := ac; EAssetCommitment := asc; EAmountBlinder := ab;
          EAssetBlinder := asb; ENonce := no; ERangeProof := rp; ESurjectionProof := sp |}.
(** [uint64(eu.UAmount * math.Pow10(8))] *)
Definition Value (u : elementsUnspent) : Z := float_uint64 (SFmul 53 1024 (ParseFloat (EAmount u)) (float_of_Z (10 ^ 8))).
(** hex.DecodeString gives what it could decode. *)
Definition ValueBlinder (u : elementsUnspent) : bytes := fst (hex_DecodeString (EAmountBlinder u)).
Definition AssetBlinder (u : elementsUnspent) : bytes := fst (hex_DecodeString (EAssetBlinder u)).
Definition Script (u : elementsUnspent) : bytes := fst (hex_DecodeString (EScriptPubKey u)).
Definition IsConfidential (u : elementsUnspent) : bool :=
  negb (bool_decide (EAmountCommitment u = ""%string)) && negb (bool_decide (EAssetCommitment u = ""%string)).
Definition IsConfirmed (u : elementsUnspent) : bool := 0 <? EConfirmations u.
Definition IsRevealed (u : elementsUnspent) : bool :=
  negb (bool_decide (EAmountBlinder u = ""%string)) && negb (bool_decide (EAssetBlinder u = ""%string)).
Definition Parse (u : elementsUnspent) : option (TxInput * TxOutput) :=
  inHash ← TxIDToBytes (ETxID u);
  let input := NewTxInput inHash (EVout u) in
  if IsConfidential u then
    assetCommitment ← CommitmentToBytes (EAssetCommitment u);
    valueCommitment ← CommitmentToBytes (EAmountCommitment u);
    Some (input, {| to_Nonce := ENonce u; to_Script := Script u; to_Asset := assetCommitment; to_Value := valueCommitment;
                    to_RangeProof := ERangeProof u; to_SurjectionProof := ESurjectionProof u |})
  else
    asset ← AssetHashToBytes (EAsset u);
    value ← ValueToBytes (Value u);
    Some (input, {| to_Asset := asset; to_Value := value; to_Script := Script u; to_Nonce := [0]; to_RangeProof := [];
                    to_SurjectionProof := [] |}).

(** ** unspents.go: addresses and keys *)
Definition addressLabel (addr : string) : outcome error string :=
  match lib_ToOutputScript addr with Some script => Ret (hex_EncodeToString script) | None => Err (Errorf "invalid address") end.
Fixpoint find_key (blindingKey : bytes) (blindKeys : list bytes) : outcome error bytes :=
  match blindKeys with
  | [] => Err (Errorf "blindkey not found for address")
  | key :: blindKeys =>
      let '(prvkeyBytes, pubkeyBytes) := key_pair key in
      if bool_decide (blindingKey = pubkeyBytes) then Ret prvkeyBytes else find_key blindingKey blindKeys
  end.
Definition findBlindKeyForAddress (addr : string) (blindKeys : list bytes) : outcome error bytes :=
  match lib_FromConfidential addr with None => Err (Errorf "from confidential") | Some k => find_key k blindKeys end.
Definition wrapped {A} (format : string) (o : outcome error A) : act A := wrap format (lift o).

(** ** transaction.go *)
Definition GetTransaction (txid : string) : act node_tx :=
  r ← invoke "rawtx: %w" "getrawtransaction" (JArray [JString txid; JNumber 1 0]);
  lift (NewTxFromJSON (rr_Result r)).
Definition GetTransactionHex (txid : string) : act string :=
  r ← invoke "rawtx: %w" "getrawtransaction" (JArray [JString txid]);
  result unmarshal ""%string dec_string r.
Definition getTransaction (txid : string) : act (list (string * json)) :=
  r ← invoke "tx: %w" "gettransaction" (JArray [JString txid; JBool true]);
  result unmarshal [] dec_object r.
Definition IsTransactionConfirmed (txid : string) : act bool :=
  data ← getTransaction txid;
  mret (match as_number (field data "confirmations") with Some (m, _) => 0 <? m | None => false end).
Definition GetTransactionStatus (txid : string) : act node_status :=
  data ← getTransaction txid;
  confirmations ← lift (must (as_number (field data "confirmations")));
  if 0 <? confirmations.1 then
    r ← invoke "block: %w" "getblock" (JArray [default JNull (field data "blockhash")]);
    data ← result unmarshal [] dec_object r;
    hash ← lift (must (as_string (field data "hash")));
    height ← lift (must (as_number (field data "height")));
    time ← lift (must (as_number (field data "time")));
    mret (newConfirmedTxStatus hash (float_int height) (float_int time))
  else mret newUnconfirmedTxStatus.
Definition getTxDetails (txid : string) : act node_tx := GetTransaction txid.
Fixpoint all_strings (l : list json) : outcome error (list string) :=
  match l with [] => Ret [] | j :: l => s ← must (as_string (Some j)); l ← all_strings l; Ret (s :: l) end.
(** The address, not its label, is looked for among the labels. *)
Definition GetTransactionsForAddress (addr : string) (blindingKey : bytes) : act (list node_tx) :=
  addrLabel ← wrapped "label: %w" (addressLabel addr);
  isImportedAddress ← wrap "check import: %w" (isAddressImported addr);
  _ ← (if negb isImportedAddress then wrap "import: %w" (importAddress addr addrLabel blindingKey true) else mret ());
  r ← invoke "list: %w" "listreceivedbyaddress" (JArray [JNumber 0 0; JBool true; JBool true; JString addr]);
  data ← result unmarshal [] dec_any_list r;
  match data with
  | [] => mret []
  | d :: _ =>
      info ← lift (must (as_object (Some d)));
      txids ← lift (must (as_array (field info "txids")));
      txids ← lift (all_strings txids);
      fan_in getTxDetails txids
  end.
Definition BroadcastTransaction (txhex : string) : act string :=
  r ← invoke "send: %w" "sendrawtransaction" (JArray [JString txhex]);
  result unmarshal ""%string dec_string r.
Definition PollGetKnownTransaction (_ : string) : act node_tx := lift (Err (Errorf "unimplemented")).
(** [amount] is the number [m * 10^e]. *)
Definition sendtoaddress (addr : string) (m e : Z) (asset : string) : json :=
  JArray [JString addr; JNumber m e; JString ""; JString ""; JBool false; JBool false; JNumber 1 0; JString "UNSET"; JString asset].
Definition Faucet (addr : string) (m e : Z) (asset : string) : act string :=
  net ← wrapped "args: %w" (match NetworkForAddress addr with Some a => Ret a | None => Err (Errorf "network") end);
  let asset := if bool_decide (asset = ""%string) then net else asset in
  r ← invoke "send: %w" "sendtoaddress" (sendtoaddress addr m e asset);
  txid ← result unmarshal ""%string dec_string r;
  _ ← wrap "mine: %w" mine;
  mret txid.
(** The txid and the asset are not returned. *)
Definition Mint (address : string) (m e : Z) : act (string * string) :=
  r ← invoke "asset: %w" "issueasset" (JArray [JNumber m e; JNumber 0 0]);
  data ← result "asset unmarshal: %w" [] dec_object r;
  asset ← lift (must (as_string (field data "asset")));
  r ← invoke "send: %w" "sendtoaddress" (sendtoaddress address m e asset);
  _ ← result "send unmarhal: %w" ""%string dec_string r;
  _ ← wrap "mine: %w" mine;
  mret (""%string, ""%string).

(** ** unspents.go *)
Definition with_proofs (out : TxOutput) (u : elementsUnspent) : elementsUnspent := {|
  EAddress := EAddress u; ELabel := ELabel u; EScriptPubKey := EScriptPubKey u; EConfirmations := EConfirmations u; ETxID := ETxID u;
  EVout := EVout u; EAmount := EAmount u; EAsset := EAsset u; EAmountCommitment := EAmountCommitment u;
  EAssetCommitment := EAssetCommitment u; EAmountBlinder := EAmountBlinder u; EAssetBlinder := EAssetBlinder u;
  ENonce := to_Nonce out; ERangeProof := to_RangeProof out; ESurjectionProof := to_SurjectionProof out |}.
Definition getUtxoDetails (utxo : elementsUnspent) : act elementsUnspent :=
  txhex ← GetTransactionHex (ETxID utxo);
  tx ← lift (match SwapMsg.NewTxFromHex txhex with Some t => Ret t | None => Err (Errorf "new tx from hex") end);
  out ← lift (index (chain_Outputs tx) (Z.to_nat (EVout utxo)));
  mret (with_proofs out utxo).
Definition toUtxos (unspents : list elementsUnspent) : act (list elementsUnspent) :=
  match unspents with [] => mret [] | _ => fan_in getUtxoDetails unspents end.
Definition listunspent (addresses : list string) : act (list elementsUnspent) :=
  r ← invoke "list: %w" "listunspent" (JArray [JNumber 0 0; JNumber 9999999 0; JArray (JString <$> addresses)]);
  unspents ← result unmarshal [] (λ j, dec_array decode_unspent (Some j)) r;
  toUtxos unspents.
Definition GetUnspents (addr : string) (blindKeys : list bytes) : act (list elementsUnspent) :=
  addrLabel ← wrapped "label: %w" (addressLabel addr);
  isAddressImported ← wrap "check import: %w" (isAddressImported addrLabel);
  _ ← (if negb isAddressImported then
         blindKey ← wrapped "find key: %w" (findBlindKeyForAddress addr blindKeys);
         wrap "import: %w" (importAddress addr addrLabel blindKey false)
       else mret ());
  listunspent [addr].
Fixpoint keys_for (addresses : list string) (blindingKeys : list bytes) : outcome error (list bytes) :=
  match addresses with
  | [] => Ret []
  | addr :: addresses => k ← findBlindKeyForAddress addr blindingKeys; l ← keys_for addresses blindingKeys; Ret (k :: l)
  end.
Fixpoint import_all (addresses : list (string * bytes)) : act () :=
  match addresses with
  | [] => mret ()
  | (addr, key) :: addresses =>
      addrLabel ← wrapped "label: %w" (addressLabel addr);
      isAddressImported ← wrap "check import: %w" (isAddressImported addrLabel);
      _ ← (if negb isAddressImported then wrap "import: %w" (importAddress addr addrLabel key false) else mret ());
      import_all addresses
  end.
Definition GetUnspentsForAddresses (addresses : list string) (blindingKeys : list bytes) : act (list elementsUnspent) :=
  sortedBlindingKeys ← wrapped "find key: %w" (keys_for addresses blindingKeys);
  _ ← import_all (zip addresses sortedBlindingKeys);
  listunspent addresses.
Definition GetUnspentStatus (_ : string) (_ : Z) : act (list (string * json)) := lift (Err (Errorf "not implemented")).
End node.

(** ** service.go: NewService *)
Inductive rescan_argument := RescanNil | RescanInt (t : Z) | RescanOther.
Section service.
Context {C : Type} `{Http C} `{NodeLib}.
Definition validateEndpoint (endpoint : string) : outcome error () :=
  if bool_decide (endpoint = ""%string) then Err (Errorf "missing endpoint")
  else match url_Parse endpoint with
       | None => Err (Errorf "invalid endpoint: %w")
       | Some u =>
           if bool_decide (url_Hostname u = ""%string) then Err (Errorf "missing RPC host")
           else if bool_decide (url_Port u = ""%string) then Err (Errorf "missing RPC port")
           else if bool_decide (url_Username u = ""%string) then Err (Errorf "missing RPC user")
           else match url_Password u with None => Err (Errorf "missing RPC password") | Some _ => Ret () end
       end.
Definition validateRescanTimestamp (t : rescan_argument) : outcome error () :=
  match t with
  | RescanNil => Ret ()
  | RescanInt t => if t <? 0 then Err (Errorf "rescan timestamp must be 'now', 0 or a unix timestamp") else Ret ()
  | RescanOther => Err (Errorf "rescan timestamp must be 'now', 0 or a unix timestamp")
  end.
Definition rescan_time (t : rescan_argument) : json := match t with RescanInt t => JNumber t 0 | _ => JString "now" end.
Definition NewService (now : Z) (endpoint : string) (t : rescan_argument) : action (process C) error (RPCClient * json) :=
  _ ← lift (validateEndpoint endpoint);
  _ ← lift (validateRescanTimestamp t);
  u ← lift (deref (url_Parse endpoint));
  client ← lift (NewClient (url_Hostname u) (default 0 (Atoi (url_Port u))) (url_Username u) (default ""%string (url_Password u)) false 30);
  _ ← wrap "healt check: %w" (let _ := http_node client now in GetBlockHeight);
  mret (client, rescan_time t).
End service.

(** * Theorems *)

(** What the node promises: the labels it lists are those it has, importmulti adds the label
    of the address, and the methods that ask change nothing.  [node_log] are the imports
    it has done. *)
Definition read_methods : list string :=
  ["getblockcount"; "listlabels"; "getrawtransaction"; "gettransaction"; "getblock"; "listreceivedbyaddress"; "listunspent"].
Class Node (C : Type) `{NodeRpc C} `{NodeLib} := {
  node_labels : C → gset string;
  node_log : C → list json;
  method_reads method params c : method ∈ read_methods →
    fst (rpc_call method params c) = c;
  labels_listed s s' r : call "listlabels" JNull s = (s', Ret r) → rr_Err r = None →
    ∃ ls, rr_Result r = Some (JArray (JString <$> ls)) ∧ ∀ x, x ∈ ls ↔ x ∈ node_labels (remote s);
  address_imported addr label t key rescan s s' r :
    call "importmulti" (import_request addr label t key rescan) s = (s', Ret r) → rr_Err r = None →
    node_labels (remote s') = {[label]} ∪ node_labels (remote s) ∧
    node_log (remote s') = node_log (remote s) ++ [import_request addr label t key rescan];
}.

Section theorems.
Context {C : Type} `{NodeRpc C} `{NodeLib} `{!Node C} `{Arrival}.
Abbreviation act := (action (process C) error).
Variable rescanTimestamp : json.

Lemma call_reading method params : method ∈ read_methods → reading (call method params : act _).
Proof.
  intros Hm c b. pose proof (method_reads method params c Hm) as HR.
  unfold value, call, at_ in *. cbn. destruct (rpc_call method params c) as [c' o]. cbn in *. by subst.
Qed.
Lemma reading_wrap {A} format (m : act A) : reading m → reading (wrap format m).
Proof. intros Hm c b. unfold value, wrap. rewrite (Hm c b), (Hm c 0%nat). by destruct (value m c). Qed.
Lemma invoke_reading format method params : method ∈ read_methods → reading (invoke format method params : act _).
Proof. intros Hm. apply reading_wrap, reading_bind; [by apply call_reading|]. intros. apply reading_lift. Qed.
Lemma node_details_reading u : reading (getUtxoDetails u : act _).
Proof.
  unfold getUtxoDetails, GetTransactionHex. apply reading_bind.
  - apply reading_bind; [apply invoke_reading; unfold read_methods; set_solver|]. intros. apply reading_lift.
  - intros hex. apply reading_bind; [apply reading_lift|]. intros t. apply reading_bind; [apply reading_lift|]. intros. apply reading_ret.
Qed.
Lemma handled_Ret (r r' : rpcResponse) : handleError r = Ret r' → r' = r ∧ rr_Err r = None.
Proof. unfold handleError. destruct (rr_Err r) as [[]|]; [done|]. by intros [= ->]. Qed.
Lemma has_label_spec target ls : has_label target (JString <$> ls) = Ret (bool_decide (target ∈ ls)).
Proof.
  induction ls as [|l ls IH]; [done|]. cbn [fmap list_fmap has_label as_string must]. unfold mbind, outcome_bind. rewrite IH.
  destruct (bool_decide_reflect (l = target)) as [->|ne].
  - rewrite bool_decide_true; [done|]. apply list_elem_of_here.
  - f_equal. apply bool_decide_ext. rewrite elem_of_cons. split; [by right|]. by intros [->|?].
Qed.
Lemma node_wrap_Ret {A} format (m : act A) s s' a : wrap format m s = (s', Ret a) → m s = (s', Ret a).
Proof. unfold wrap. destruct (m s) as [? []]; congruence. Qed.
Lemma asked method params (s s' : process C) r :
  (r ← call method params; lift (handleError r) : act _) s = (s', Ret r) →
  call method params s = (s', Ret r) ∧ rr_Err r = None.
Proof.
  intros HA. act_inv HA. match goal with E : handleError _ = Ret _ |- _ => apply handled_Ret in E as [-> E] end. done.
Qed.
Lemma result_Ret {A} msg (zero : A) f r (s s' : process C) a : result msg zero f r s = (s', Ret a) →
  s' = s ∧ ∃ j, rr_Result r = Some j ∧ decode zero f (Some j) = Some a.
Proof.
  unfold result. intros [-> HR]%lift_Ret. split; [done|]. destruct (rr_Result r) as [j|]; [|done].
  exists j. split; [done|]. destruct (decode zero f (Some j)); [|done]. by injection HR as ->.
Qed.
Lemma read_method_Ret method params (s s' : process C) r : method ∈ read_methods →
  call method params s = (s', Ret r) → s' = s.
Proof. intros Hm HC. rewrite (reading_state _ _ (call_reading method params Hm)) in HC. by injection HC as <- _. Qed.
(** An address is known by its label. *)
Lemma imported_spec label (s s' : process C) b : isAddressImported label s = (s', Ret b) →
  s' = s ∧ b = bool_decide (label ∈ node_labels (remote s)).
Proof.
  unfold isAddressImported. intros HI. apply action_bind_Ret in HI as (s1 & r & [HC HN]%asked & HI).
  pose proof (read_method_Ret "listlabels" _ _ _ _ ltac:(unfold read_methods; set_solver) HC) as ->.
  apply action_bind_Ret in HI as (s2 & labels & (-> & j & HJ & HD)%result_Ret & HI). apply lift_Ret in HI as [-> HB].
  destruct (labels_listed _ _ _ HC HN) as (ls & HL & Hls). rewrite HL in HJ. injection HJ as <-. injection HD as <-.
  rewrite has_label_spec in HB. injection HB as <-. split; [done|]. by apply bool_decide_ext.
Qed.
Lemma import_spec addr label key rescan (s s' : process C) u :
  importAddress rescanTimestamp addr label key rescan s = (s', Ret u) →
  ∃ t, t = (if rescan then rescanTimestamp else JString "now") ∧
  node_labels (remote s') = {[label]} ∪ node_labels (remote s) ∧
  node_log (remote s') = node_log (remote s) ++ [import_request addr label t key rescan].
Proof.
  unfold importAddress. intros HI. apply action_bind_Ret in HI as (s1 & r & [HC HN]%asked & [= <- _]).
  eexists. split; [reflexivity|]. by eapply address_imported.
Qed.
(** The list of unspents, with the proofs of the transactions they are in. *)
Definition node_unspents (addresses : list string) (c : C) : outcome error (list elementsUnspent) :=
  value (r ← invoke "list: %w" "listunspent" (JArray [JNumber 0 0; JNumber 9999999 0; JArray (JString <$> addresses)]);
         result unmarshal [] (λ j, dec_array decode_unspent (Some j)) r) c.
Lemma listunspent_spec addresses (s s' : process C) l : listunspent addresses s = (s', Ret l) →
  s' = s ∧ ∃ us, node_unspents addresses (remote s) = Ret us ∧
    Ret <$> l ≡ₚ (λ u, value (getUtxoDetails u) (remote s)) <$> us.
Proof.
  unfold listunspent. intros HL. apply action_bind_Ret in HL as (s1 & r & HC & HL). apply action_bind_Ret in HL as (s2 & us & HR & HL).
  pose proof (invoke_reading "list: %w" "listunspent" (JArray [JNumber 0 0; JNumber 9999999 0; JArray (JString <$> addresses)])
    ltac:(unfold read_methods; set_solver)) as HV. rewrite (reading_state _ _ HV) in HC. injection HC as <- HC.
  pose proof (result_Ret _ _ _ _ _ _ _ HR) as [-> _].
  assert (node_unspents addresses (remote s) = Ret us) as HN.
  { unfold node_unspents. rewrite value_bind, HC by done. injection HR as HR. cbn. unfold value, result, lift. cbn. done. }
  unfold toUtxos in HL. destruct us as [|u us]; [injection HL as <- <-; split; [done|]; by exists []|].
  destruct (fan_in_reading _ _ _ _ _ node_details_reading HL) as [Hr [HP Hb]].
  split; [destruct s, s'; cbn in *; by subst|]. by exists (u :: us).
Qed.
Lemma find_key_spec k keys :
  match find_key k keys with
  | Ret prv => ∃ key, key ∈ keys ∧ key_pair key = (prv, k)
  | Err _ => ∀ key, key ∈ keys → snd (key_pair key) ≠ k
  | Panic _ => False
  end.
Proof.
  induction keys as [|key keys IH]; cbn; [by intros ? ?%not_elem_of_nil|]. destruct (key_pair key) as [prv pub] eqn:E.
  case_bool_decide as Hk; [subst; exists key; split; [left|done]|].
  destruct (find_key k keys) as [p|e|p]; [|..|done].
  - destruct IH as (key' & Hin & HE). exists key'. split; [by right|done].
  - intros key' [->|Hin]%elem_of_cons; [by rewrite E|by apply IH].
Qed.


(** The transactions of an address, on the other hand, import it again with a rescan of the
    chain unless the address itself happens to be one of the labels. *)
Lemma address_imported_again addr key (s s' : process C) l :
  GetTransactionsForAddress rescanTimestamp addr key s = (s', Ret l) → addr ∉ node_labels (remote s) →
  ∃ label s1, addressLabel addr = Ret label ∧
    importAddress rescanTimestamp addr label key true s = (s1, Ret ()) ∧
    node_log (remote s1) = node_log (remote s) ++ [import_request addr label rescanTimestamp key true].
Proof.
  unfold GetTransactionsForAddress, wrapped. intros HG Hn. apply action_bind_Ret in HG as (s1 & label & [-> HL]%node_wrap_Ret%lift_Ret & HG).
  apply action_bind_Ret in HG as (s2 & b & [-> ->]%node_wrap_Ret%imported_spec & HG). apply action_bind_Ret in HG as (s3 & [] & HI & _).
  rewrite bool_decide_false in HI by done. cbn in HI. apply node_wrap_Ret in HI. exists label, s3. split_and!; [done..|].
  by apply import_spec in HI as (t & -> & _ & ->).
Qed.
(** A minted asset is not told. *)
Lemma mint_tells_nothing address m e (s s' : process C) r : Mint address m e s = (s', Ret r) → r = (""%string, ""%string).
Proof. unfold Mint. intros HM. by act_inv HM. Qed.
(** The inputs and outputs of a transaction the node gave cannot be read. *)
Lemma node_tx_unreadable txid (s s' : process C) t : GetTransaction txid s = (s', Ret t) →
  Inputs t = Panic TypeAssertion ∧ Outputs t = Panic TypeAssertion.
Proof.
  unfold GetTransaction. intros HG. act_inv HG. unfold NewTxFromJSON in *.
  match goal with E : match decode_node_tx ?j with _ => _ end = _ |- _ => destruct (decode_node_tx j) as [t'|] eqn:ED; [|done]; injection E as -> end.
  unfold decode_node_tx in ED. repeat (apply bind_Some in ED as (? & _ & ED)). by injection ED as <-.
Qed.
End theorems.

(** * Examples *)
Module NodeExamples.
(** 0.29 of an asset are 28999999 units: the float is a little below, and the product is
    cut off. *)
Definition priced (m e : Z) : elementsUnspent := {|
  EAddress := ""; ELabel := ""; EScriptPubKey := ""; EConfirmations := 0; ETxID := ""; EVout := 0; EAmount := (m, e); EAsset := "";
  EAmountCommitment := ""; EAssetCommitment := ""; EAmountBlinder := ""; EAssetBlinder := ""; ENonce := []; ERangeProof := [];
  ESurjectionProof := [] |}.
Example one_unit_lost : Value (priced 29 (-2)) = 28999999 ∧ Value (priced 7 (-2)) = 7000000 ∧ Value (priced 110000000 (-8)) = 110000000.
Proof. vm_compute. done. Qed.
(** The timestamp the error message suggests is refused. *)
Example now_refused : validateRescanTimestamp RescanOther = Err (Errorf "rescan timestamp must be 'now', 0 or a unix timestamp").
Proof. reflexivity. Qed.

(** A node that keeps its labels and the imports, and lists one unspent. *)
Definition wallet : Type := gset string * list json.
Definition ok (j : json) : outcome error rpcResponse := Ret {| rr_Result := Some j; rr_Err := None |}.
Definition serve (method : string) (params : json) (c : wallet) : wallet * outcome error rpcResponse :=
  if bool_decide (method = "listlabels"%string) then (c, ok (JArray (JString <$> elements c.1)))
  else if bool_decide (method = "importmulti"%string) then
    match params with
    | JArray [JArray [JObject (_ :: _ :: (_, JString label) :: _)]; _] => (({[label]} ∪ c.1, c.2 ++ [params]), ok JNull)
    | _ => (c, Err (Errorf "params"))
    end
  else if bool_decide (method = "listunspent"%string)
  then (c, ok (JArray [JObject [("txid", JString "t"); ("vout", JNumber 1 0); ("amount", JNumber 29 (-2))]]))
  else (c, ok (JString "txhex")).
#[local] Instance node_rpc : NodeRpc wallet := { rpc_call := serve }.
#[local] Existing Instance EsploraExamples.lib.
#[local] Existing Instance EsploraExamples.backwards.
#[local] Instance node_lib : NodeLib := {
  url_Parse _ := None; basic_auth _ _ := ""; lib_ToOutputScript _ := Some [1]; lib_FromConfidential _ := Some [2];
  NetworkForAddress _ := None; key_pair k := (k, [2]); ValueFromBytes _ := None }.
#[local] Instance node : Node wallet.
Proof.
  refine {| node_labels c := c.1; node_log c := c.2 |}.
  - intros method params c Hm. cbn. unfold serve. repeat case_bool_decide; subst; try done. unfold read_methods in Hm. set_unfold in Hm. by destruct_or!.
  - intros s s' r [= <- <-] _. cbn. exists (elements (remote s).1). split; [done|]. intros x. apply elem_of_elements.
  - intros addr label t key rescan s s' r [= <- <-] _. done.
Defined.
Definition fresh : process wallet := {| remote := (∅, []); blocked := 0 |}.
Definition after : process wallet := fst (GetUnspents (JString "now") "a" [[7]] fresh).
End NodeExamples.
