(* ===== verification/OnePort.v ===== *)
(** The daemon's interface on one port: internal/interfaces/grpc/service_one_port.go.

    The service the daemon runs when the ports of the operator and of the trade interface
    are the same.  Its state is that of Interface.v with the only server in the place of
    the operator's and none in the place of the trade server's; the macaroon files, the
    routing and the wallet handler are the same. *)

From Stdlib Require Import ZArith Lia Ascii.
From stdpp Require Import base tactics strings list gmap.
From S2P Require Import Prelude Errors Decimal Market Trade Exchange Repos SecureStore Pubsub Macaroons SwapMsg Wallet TradeService Report Calendar Requests Operator TxEvents Listing Handlers Webhooks AdminHandlers Interface.
Local Open Scope Z_scope.

Module OnePort.

(** * Options *)

(** AppConfig is the result of its Validate, [None] when it is nil. *)
Record ServiceOptsOnePort := {
  one_NoMacaroons : bool; one_Datadir : string; one_DBLocation : string; one_MacaroonsLocation : string;
  one_WalletUnlockPasswordFile : string; one_Port : Z; one_TLSKey : string; one_TLSCert : string;
  one_AppConfig : option (outcome error ()); one_BuildData : option BuildData }.
Definition dbDatadir (o : ServiceOptsOnePort) : string := Join (one_Datadir o) (one_DBLocation o).
Definition macaroonsDatadir (o : ServiceOptsOnePort) : string := Join (one_Datadir o) (one_MacaroonsLocation o).
Definition withTls (o : ServiceOptsOnePort) : bool := negb (bool_decide (one_TLSCert o = ""%string)).

Definition validate (fs : files) (o : ServiceOptsOnePort) : outcome error () :=
  if negb (pathExists fs (one_Datadir o)) then new_error "%s: datadir must be an existing directory"
  else
    _ ← (if one_NoMacaroons o then Ret ()
         else
           let macDir := macaroonsDatadir o in
           let adminMacExists := pathExists fs (Join macDir AdminMacaroonFile) in
           let roMacExists := pathExists fs (Join macDir ReadOnlyMacaroonFile) in
           let marketMacExists := pathExists fs (Join macDir MarketMacaroonFile) in
           let priceMacExists := pathExists fs (Join macDir PriceMacaroonFile) in
           if negb (eqb adminMacExists roMacExists) || negb (eqb adminMacExists marketMacExists)
              || negb (eqb adminMacExists priceMacExists)
           then new_error "all macaroons must be either existing or not in path %s" else Ret ());
    if withTls o && (negb (pathExists fs (one_TLSKey o)) && pathExists fs (one_TLSCert o))
    then new_error "TLS key and certificate must be either existing or undefined"
    else if negb (isValidPort (one_Port o)) then new_error "port must be in range [%d, %d]"
    else if negb (bool_decide (one_WalletUnlockPasswordFile o = ""%string)) && negb (pathExists fs (one_WalletUnlockPasswordFile o))
    then new_error "wallet unlock password file not found"
    else match one_AppConfig o with
         | None => new_error "missing app config"
         | Some (Err _) => new_error "invalid app config: %s"
         | Some (Panic p) => Panic p
         | Some (Ret _) => if bool_decide (is_Some (one_BuildData o)) then Ret () else new_error "missing build data"
         end.

(** * The service *)

(** What the server registers, in the order of newServer. *)
Definition one_wallet_services : list string := [WalletService; HealthService; ReflectionService].
Definition one_services (withWalletOnly : bool) : list string :=
  one_wallet_services ++
  (if withWalletOnly then []
   else [OperatorService; FeederService; WebhookService; TransportService; Macaroons.TradeService]).

Section service.
Context {DB : Type} `{Bolt DB} {K : Type} `{Snacl K} {Mac Ctx : Type} `{Bakery Mac Ctx} `{MapOrder}.
Variable opts : ServiceOptsOnePort.
Abbreviation act := (action (Iface DB K Ctx) error).

Definition withMacaroons : bool := negb (one_NoMacaroons opts).
Definition tlsConfig (env : IfaceEnv) : outcome error bool :=
  if negb (withTls opts) then Ret false
  else _ ← getTlsConfig env (one_TLSKey opts) (one_TLSCert opts); Ret true.
(** [env_operator]: dialling, registering and the connect endpoints. *)
Definition newServer (env : IfaceEnv) (tls withWalletOnly : bool) : outcome error server :=
  _ ← env_operator env;
  Ret {| srv_services := one_services withWalletOnly; srv_port := one_Port opts; srv_tls := tls;
         srv_h2c := negb (withTls opts); srv_running := false |}.
Definition serve (srv : server) : act () := λ s, (set_servers (Some (listening srv)) (if_trade s) s, Ret ()).
Definition start (env : IfaceEnv) (withWalletOnly : bool) : act () :=
  tls ← lift (tlsConfig env);
  srv ← lift (newServer env tls withWalletOnly);
  serve srv.
Definition shut_down (srv : server) : act () := λ s, (set_servers (Some (shutdown srv)) (if_trade s) s, Ret ()).
Definition stop (stopMacaroonSvc : bool) : act () :=
  _ ← (if withMacaroons && stopMacaroonSvc
       then _ ← on_mac (mret ()); close "macaroons" else mret () : act ());
  s ← get_state;
  srv ← lift (deref (if_operator s));
  shut_down srv.

Definition onInit (env : IfaceEnv) (password : string) : act () :=
  _ ← keep_password password;
  if negb withMacaroons then mret ()
  else _ ← create_unlock env password; logged (genMacaroons env (macaroonsDatadir opts)).
Definition onUnlock (env : IfaceEnv) (password : string) : act () :=
  s ← get_state;
  _ ← (if bool_decide (if_password s = ""%string) then keep_password password else mret () : act ());
  _ ← (if withMacaroons
       then _ ← create_unlock env password; logged (genMacaroons env (macaroonsDatadir opts)) else mret () : act ());
  _ ← stop false;
  logged (start env false).
Definition onLock (env : IfaceEnv) (_ : string) : act () :=
  _ ← stop false;
  logged (start env true).
Definition onChangePwd (env : IfaceEnv) (oldPassword newPassword : string) : act () :=
  if negb withMacaroons then mret ()
  else logged (on_mac (on_rks (rk_ChangePassword (env_rnd env) (Some (string_bytes oldPassword)) (Some (string_bytes newPassword))))).
Definition run_callback (env : IfaceEnv) (c : callback) : act () :=
  match c with
  | OnInit p => onInit env p
  | OnUnlock p => onUnlock env p
  | OnLock p => onLock env p
  | OnChangePwd old new => onChangePwd env old new
  end.
End service.

Section daemon.
Context {DB : Type} `{Bolt DB} {K : Type} `{Snacl K} {Mac Ctx : Type} `{Bakery Mac Ctx} `{MapOrder}.
Context {S : Type} `{SecureStorage S} {V : Type} `{WalletManager V WalletStatus WalletInfo}.
Variable opts : ServiceOptsOnePort.

(** [mac] is what macaroons.NewService returned, [None] when it failed: its error is
    dropped. *)
Definition NewServiceOnePort (fs : files) (mac : option (Service DB K Ctx)) : outcome error (Iface DB K Ctx) :=
  match validate fs opts with
  | Err _ => new_error "invalid opts: %s"
  | Panic p => Panic p
  | Ret _ =>
      password ← (if bool_decide (one_WalletUnlockPasswordFile opts = ""%string) then Ret ""%string
                  else match fs !! one_WalletUnlockPasswordFile opts with
                       | Some (Regular content _) => Ret (bytes_string (trim content))
                       | _ => new_error "read error"
                       end);
      Ret {| if_mac := if one_NoMacaroons opts then None else mac; if_files := fs; if_operator := None; if_trade := None;
             if_password := password; if_closed := [] |}
  end.

Definition Start (env : IfaceEnv) : action (Daemon DB K Ctx S V) error () :=
  _ ← on_iface (start opts env true);
  if bool_decide (one_WalletUnlockPasswordFile opts = ""%string) then mret ()
  else
    s ← get_state;
    unlocked ← try (on_wallet_svc (svc_UnlockWallet (if_password (dm_iface s))));
    match unlocked with
    | inr _ => lift (Err (Errorf "failed to auto unlock wallet: %s"))
    | inl _ => on_iface (onUnlock opts env (if_password (dm_iface s)))
    end.
Definition Stop : action (Daemon DB K Ctx S V) error () :=
  s ← get_state;
  _ ← (if bool_decide (if_password (dm_iface s) = ""%string) then mret ()
       else _ ← try (on_wallet_svc (svc_LockWallet (if_password (dm_iface s)))); mret () : action (Daemon DB K Ctx S V) error ());
  _ ← on_iface (stop opts true);
  _ ← on_iface (close "feeder");
  _ ← on_iface (close "pubsub");
  _ ← on_iface (close "database");
  on_iface (close "ocean wallet").
End daemon.

(** * Theorems: what is served *)

Section served.
Context {DB : Type} `{Bolt DB} {K : Type} `{Snacl K} {Mac Ctx : Type} `{Bakery Mac Ctx} `{MapOrder}.
Context {S : Type} `{SecureStorage S} {V : Type} `{WalletManager V WalletStatus WalletInfo}.
Variables (opts : ServiceOptsOnePort) (buildData : BuildData) (macaroonPath : string).
Implicit Types s : Iface DB K Ctx.

(** There is no second server, and the first one offers what [P] says. *)
Definition offers (P : list string → Prop) (operator trade : option server) : Prop :=
  trade = None ∧ ∃ srv, operator = Some srv ∧ P (srv_services srv).
Definition either (l : list string) : Prop := ∃ b, l = one_services b.

Lemma start_one env b s :
  (fst (start opts env b s) = s ∧ snd (start opts env b s) ≠ Ret ()) ∨
  ∃ srv, start opts env b s = (set_servers (Some srv) (if_trade s) s, Ret ()) ∧ srv_running srv = true ∧
    srv_services srv = one_services b ∧ srv_tls srv = withTls opts ∧ srv_h2c srv = negb (withTls opts).
Proof.
  unfold start, newServer, tlsConfig, serve, mbind, action_bind, lift.
  destruct (withTls opts); cbn; [destruct (getTlsConfig _ _ _); cbn; [|by left..]|];
    (destruct (env_operator env); cbn; [|by left..]); right; eexists; by split_and!.
Qed.
Lemma offers_start (P : list string → Prop) env b :
  P (one_services b) → maintains (servers_are (offers P)) (start (DB := DB) (K := K) (Ctx := Ctx) opts env b).
Proof.
  intros HP s Hs. destruct (start_one env b s) as [[-> _]|(srv & -> & _ & E & _)]; [done|]. destruct Hs as [Ht _].
  split; [done|]. eexists. split; [done|]. by rewrite E.
Qed.
Lemma offers_stop P b : maintains (servers_are (offers P)) (stop (DB := DB) (K := K) (Ctx := Ctx) opts b).
Proof.
  unfold stop. apply maintains_bind; [case_match; maintains|].
  intros _ s (Ht & srv & Eo & HP). unfold mbind, action_bind, get_state, lift. rewrite Eo. cbn. split; [done|]. by eexists.
Qed.
#[local] Hint Resolve offers_stop : maintains.
Lemma offers_callback P env c :
  P (one_services true) → (∀ p, c = OnUnlock p → P (one_services false)) →
  maintains (servers_are (offers P)) (run_callback (DB := DB) (K := K) (Ctx := Ctx) opts env c).
Proof.
  intros Ht Hf. pose proof (offers_start P env true Ht) as Hwallet.
  destruct c as [p|p|p|old new]; [|pose proof (offers_start P env false (Hf p eq_refl)) as Hall| |]; cbn [run_callback];
    unfold onInit, onUnlock, onLock, onChangePwd, create_unlock; maintains.
Qed.

Lemma one_services_only x :
  x ∈ [OperatorService; FeederService; WebhookService; Macaroons.TradeService; TransportService] → x ∉ one_services true.
Proof. apply locked_interface_only. Qed.

(** what the daemon serves on one port, and when.  It starts with the wallet interface
    alone.  Whatever requests clients of that interface make, in whatever order the
    goroutines they start run, and whatever fails on the way, the port serves nothing, the
    wallet interface, or everything; and operator, feeder, webhook and trade interfaces
    answer only if a client unlocked the wallet with a password the wallet accepted. *)
Theorem one_port_after_unlock env u (i0 i : Iface DB K Ctx) tr (s : @Sys DB K Ctx S V) :
  if_trade i0 = None → start opts env true i0 = (i, Ret ()) →
  sys_exec (run_callback opts) buildData macaroonPath
    {| sys_wallet := {| ws_unlocker := u; ws_callbacks := [] |}; sys_iface := i |} tr s →
  (served (sys_iface s) = [] ∨ served (sys_iface s) = one_services true ∨ served (sys_iface s) = one_services false) ∧
  ((∃ x, x ∈ [OperatorService; FeederService; WebhookService; Macaroons.TradeService; TransportService] ∧ x ∈ served (sys_iface s)) →
     unlocked_in tr).
Proof.
  intros Hi Hstart HE.
  destruct (start_one env true i0) as [[_ Hn]|(srv & Hst & _ & Hsv & _)]; [rewrite Hstart in Hn; done|].
  rewrite Hstart in Hst. injection Hst as ->.
  destruct (exec_invariant _ _ _ (servers_are (offers either)) (servers_are (offers (λ l, l = one_services true))) _ _ _
    (λ env c, offers_callback either env c (ex_intro _ true eq_refl) (λ p _, ex_intro _ false eq_refl))
    (λ env c Hc, offers_callback _ env c eq_refl (λ p Hp, False_ind _ (Hc p Hp))) HE) as ((Ht & sv & Eo & b & Eb) & _ & HL);
    [done | split; [done|]; eexists; split; [done|]; by exists true | split; [done|]; by eexists|].
  assert (served (sys_iface s) = [] ∨ served (sys_iface s) = srv_services sv) as [E|E].
  { unfold served, running. rewrite Ht, Eo, app_nil_r. destruct (srv_running sv); [by right | by left]. }
  { rewrite E. split; [by left|]. intros (x & _ & Hin). by apply not_elem_of_nil in Hin. }
  rewrite E. split; [destruct b; rewrite Eb; auto|]. intros (x & Hx & Hin).
  destruct HL as [(_ & sv' & Eo' & E')|HL]; [|done]. rewrite Eo in Eo'. injection Eo' as <-. rewrite E' in Hin.
  by destruct (one_services_only x).
Qed.
End served.

(** * Theorems: one port or two *)

Section blind.
Context {DB : Type} `{Bolt DB} {K : Type} `{Snacl K} {Mac Ctx : Type} `{Bakery Mac Ctx} `{MapOrder}.
Implicit Types s : Iface DB K Ctx.
Abbreviation act := (action (Iface DB K Ctx) error).

(** What [m] does has nothing to do with the servers. *)
Definition blind {A} (m : act A) : Prop := ∀ s op tr,
  m (set_servers op tr s) = (set_servers op tr (fst (m s)), snd (m s)).
Lemma blind_ret {A} (a : A) : blind (mret a).
Proof. done. Qed.
Lemma blind_bind {A B} (m : act A) (f : A → act B) : blind m → (∀ a, blind (f a)) → blind (m ≫= f).
Proof.
  intros Hm Hf s op tr. unfold mbind, action_bind. rewrite Hm. destruct (m s) as [s' [a|e|p]]; cbn; [apply Hf | done..].
Qed.
Lemma blind_logged m : blind m → blind (logged m).
Proof. intros Hm s op tr. unfold logged. rewrite Hm. by destruct (m s) as [s' []]. Qed.
Lemma blind_on_mac {A} (m : action (Service DB K Ctx) error A) : blind (on_mac m).
Proof. intros s op tr. unfold on_mac; cbn. destruct (if_mac s) as [mac|]; [|done]. by destruct (m mac). Qed.
Lemma blind_password p : blind (keep_password p).
Proof. done. Qed.
Lemma blind_write env f c p : blind (write_macaroon env f c p).
Proof. intros s op tr. unfold write_macaroon; cbn. by destruct (env_WriteFile env f). Qed.
Lemma blind_mkdir env p : blind (makeDirectoryIfNotExists env p).
Proof. intros s op tr. unfold makeDirectoryIfNotExists; cbn. case_match; [done|]. by case_match. Qed.
Lemma blind_write_all env dir l : blind (write_macaroons env dir l).
Proof.
  induction l as [|[n p] l IH]; cbn [write_macaroons]; [apply blind_ret|].
  apply blind_bind; [apply blind_on_mac|]. intros c. apply blind_bind; [apply blind_write | done].
Qed.
Lemma blind_gen env dir : blind (genMacaroons env dir).
Proof.
  intros s op tr. unfold genMacaroons; cbn [if_files set_servers]. case_match; [done|].
  apply (blind_bind (makeDirectoryIfNotExists env dir) (λ _, write_macaroons env dir (range_items Macaroons)));
    [apply blind_mkdir | intros; apply blind_write_all].
Qed.
Lemma blind_unlock env p : blind (create_unlock env p).
Proof. apply blind_logged, blind_on_mac. Qed.
End blind.
Create HintDb blind.
#[export] Hint Resolve blind_ret blind_logged blind_on_mac blind_password blind_gen blind_unlock : blind.
Ltac blind := repeat first [ solve [eauto with blind] | apply blind_bind; [|intros ?] | progress case_match ].

Section agree.
Context {DB : Type} `{Bolt DB} {K : Type} `{Snacl K} {Mac Ctx : Type} `{Bakery Mac Ctx} `{MapOrder}.
Variables (one : ServiceOptsOnePort) (two : ServiceOpts).
Abbreviation act := (action (Iface DB K Ctx) error).

(** Options that differ only in what concerns the servers. *)
Definition same_daemon : Prop :=
  one_NoMacaroons one = NoMacaroons two ∧ macaroonsDatadir one = Interface.macaroonsDatadir two.
Definition startable (env : IfaceEnv) : Prop :=
  Interface.startable two env ∧ ∃ b, tlsConfig one env = Ret b.
(** Same macaroons, files, password; both have a server and together offer the same services. *)
Definition agree (s t : Iface DB K Ctx) : Prop :=
  t = set_servers (if_operator t) (if_trade t) s ∧ is_Some (if_operator s) ∧ is_Some (if_operator t) ∧ if_trade s = None ∧
  ∀ x, x ∈ served s ↔ x ∈ served t.
Definition agrees {A} (m n : act A) : Prop := ∀ s t, agree s t →
  agree (fst (m s)) (fst (n t)) ∧ snd (m s) = snd (n t).

Lemma agrees_blind {A} (m : act A) : blind m → agrees m m.
Proof.
  intros Hm s t (Et & Hs & Ht & Hn & Hx).
  pose proof (Hm s (if_operator s) (if_trade s)) as Es. pose proof (Hm s (if_operator t) (if_trade t)) as Em.
  assert (set_servers (if_operator s) (if_trade s) s = s) as Ess by by destruct s.
  rewrite Ess in Es. rewrite <- Et in Em. rewrite Em. destruct (m s) as [s' o]; cbn in *. injection Es as Es.
  split; [|done]. split_and!; cbn; [done| |done| |]; rewrite Es; cbn; [done..|].
  intros x. unfold served in *. cbn. apply Hx.
Qed.
Lemma agrees_bind {A B} (m n : act A) (f g : A → act B) :
  agrees m n → (∀ a, agrees (f a) (g a)) → agrees (m ≫= f) (n ≫= g).
Proof.
  intros Hm Hf s t Hst. destruct (Hm s t Hst) as [H3 H4]. unfold mbind, action_bind.
  destruct (m s) as [s' o], (n t) as [t' o']; cbn in *. subst o'. destruct o; [by apply Hf | done..].
Qed.
(** Both services are stopped and start with the same interfaces. *)
Lemma services_agree b x :
  x ∈ one_services b ↔ x ∈ if b then locked_interface else full_interface.
Proof. destruct b; unfold one_services, one_wallet_services, locked_interface, full_interface, operator_services, wallet_services, trade_services; [done|]. set_solver. Qed.
Lemma agrees_restart env b : startable env →
  agrees (_ ← stop one false; logged (start one env b)) (_ ← Interface.stop two false; logged (Interface.start two env b)).
Proof.
  intros (H2p & tls & Etls) s t (Et & [so Hs] & [to Ht] & Hn & Hx).
  unfold stop, Interface.stop. rewrite !andb_false_r. unfold mbind, action_bind, get_state, lift, mret, action_ret.
  rewrite Hs, Ht. cbn [deref]. unfold shut_down, Interface.shut_down. cbn beta iota.
  destruct (start_ok two env b (set_servers (Some (shutdown to)) (shutdown <$> if_trade t) t) H2p) as (HS & HO & HI).
  unfold logged. destruct (Interface.start two env b (set_servers _ _ t)) as [t' o'] eqn:E2; cbn in HS, HO, HI. subst o'.
  destruct (start_one one env b (set_servers (Some (shutdown so)) (if_trade s) s)) as [[_ Hno]|(srv & -> & Hr & Hsv & _)].
  { exfalso. apply Hno. unfold start, newServer, mbind, action_bind, lift. rewrite Etls. destruct H2p as (_ & -> & _). done. }
  split; [|done]. destruct (start_cases two env b (set_servers (Some (shutdown to)) (shutdown <$> if_trade t) t)) as [[_ Hno]|(op & tr & E3 & _)].
  { rewrite E2 in Hno. done. }
  rewrite E3 in E2. injection E2 as <-. split_and!; [cbn; by rewrite Et | done | done | done|].
  intros x. cbn [fst]. rewrite HS, <- services_agree. unfold served, running; cbn. by rewrite Hr, Hsv, Hn, app_nil_r.
Qed.

Lemma agrees_callback env c : same_daemon → startable env → agrees (run_callback one env c) (Interface.run_callback two env c).
Proof.
  intros [Hm Hd] Henv. destruct c as [p|p|p|old new]; cbn [run_callback Interface.run_callback].
  - unfold onInit, Interface.onInit, withMacaroons, Interface.withMacaroons. rewrite Hm, Hd. apply agrees_blind. blind.
  - unfold onUnlock, Interface.onUnlock, withMacaroons, Interface.withMacaroons. rewrite Hm, Hd.
    set (unlocks := λ (q : bool), (_ ← (if q then keep_password p else mret () : act ());
      (if negb (NoMacaroons two)
       then _ ← create_unlock env p; logged (genMacaroons env (Interface.macaroonsDatadir two)) else mret ()) : act ())).
    assert (∀ q, agrees (unlocks q) (unlocks q)) as HU by (intros q; apply agrees_blind; unfold unlocks; blind).
    intros s t Hst. pose proof Hst as (Et & _).
    assert (if_password t = if_password s) as Hp by by rewrite Et.
    specialize (agrees_bind _ _ _ _ (HU (bool_decide (if_password s = ""%string))) (λ _, agrees_restart env false Henv) s t Hst).
    unfold unlocks, mbind, action_bind, get_state. rewrite Hp.
    destruct (bool_decide _); cbn; destruct (negb _); cbn; try done.
    all: destruct (create_unlock env p _) as [? [?|?|?]] eqn:?; cbn; try done.
  - by apply agrees_restart.
  - unfold onChangePwd, Interface.onChangePwd, withMacaroons, Interface.withMacaroons. rewrite Hm. apply agrees_blind. blind.
Qed.

(** Callbacks one after the other, each with what the environment lets it do. *)
Fixpoint run_each (run : IfaceEnv → callback → act ()) (l : list (IfaceEnv * callback)) : act () :=
  match l with [] => mret () | (env, c) :: l => _ ← run env c; run_each run l end.

(** C27: one port or two.  The service on one port and the one on two ports, started for the
    same daemon and given the same calls of the wallet handler in the same order, offer the
    same services after them, keep the same macaroon service, macaroon files and password,
    and end with the same outcome, whatever of the files can be written, as long as the
    servers themselves can be started. *)
Theorem ports_agree l s t : same_daemon → Forall (λ p, startable (fst p)) l → agree s t →
  agree (fst (run_each (run_callback one) l s)) (fst (run_each (Interface.run_callback two) l t)) ∧
  snd (run_each (run_callback one) l s) = snd (run_each (Interface.run_callback two) l t).
Proof.
  intros Hd Hl Hst. revert s t Hst. change (agrees (run_each (run_callback one) l) (run_each (Interface.run_callback two) l)).
  induction Hl as [|[env c] l He _ IH]; cbn [run_each]; [apply agrees_blind; blind|].
  apply agrees_bind; [by apply agrees_callback | done].
Qed.
End agree.

(** * Consequences *)

Section consequences.
Context {DB : Type} `{Bolt DB} {K : Type} `{Snacl K} {Mac Ctx : Type} `{Bakery Mac Ctx} `{MapOrder}.
Variable opts : ServiceOptsOnePort.

(** Without a certificate everything is served in clear text, the operator interface and
    the unlocking of the wallet included, with macaroons or without. *)
Lemma clear_text env b s s' srv : one_TLSCert opts = ""%string →
  start (DB := DB) (K := K) (Ctx := Ctx) opts env b s = (s', Ret ()) → if_operator s' = Some srv →
  srv_tls srv = false ∧ srv_h2c srv = true ∧ srv_services srv = one_services b.
Proof.
  intros Hc HS Ho. destruct (start_one opts env b s) as [[_ Hn]|(sv & E & _ & Hsv & Ht & Hh)]; rewrite HS in *; [done|].
  injection E as ->. cbn in Ho. injection Ho as <-. unfold withTls in *. rewrite Hc in Ht, Hh. by split_and!.
Qed.

(** A key without its certificate passes the validation, and the daemon cannot start. *)
Lemma missing_certificate fs env s : one_TLSCert opts ≠ ""%string →
  pathExists fs (one_TLSKey opts) = true → pathExists fs (one_TLSCert opts) = false →
  (∀ key, ∃ e, env_LoadX509KeyPair env (one_TLSCert opts) key = Err e) →
  validate fs opts ≠ new_error "TLS key and certificate must be either existing or undefined" ∧
  ∃ e, start (DB := DB) (K := K) (Ctx := Ctx) opts env true s = (s, Err e).
Proof.
  intros Hc Hk Hn He. split.
  - unfold validate. rewrite Hk, andb_false_r. cbn. intros HV.
    repeat match type of HV with context [if ?b then _ else _] => destruct b; try discriminate HV end; cbn in HV;
    repeat case_match; discriminate.
  - unfold start, tlsConfig, getTlsConfig, withTls, lift, mbind, action_bind. rewrite (bool_decide_false (one_TLSCert opts = _)) by done.
    cbn. rewrite orb_false_r. destruct (bool_decide (one_TLSKey opts = _)); cbn; [by eexists|].
    destruct (He (one_TLSKey opts)) as [e ->]. cbn. by eexists.
Qed.
End consequences.

(** * Examples *)
Module OnePortExamples.
Import SecureStoreExamples PubsubExamples MacaroonExamples.

#[local] Existing Instance InterfaceExamples.toy_wallet.
Definition one_options : ServiceOptsOnePort := {|
  one_NoMacaroons := true; one_Datadir := "/tdex"; one_DBLocation := "db"; one_MacaroonsLocation := "macaroons";
  one_WalletUnlockPasswordFile := ""; one_Port := 9945; one_TLSKey := ""; one_TLSCert := "";
  one_AppConfig := Some (Ret ()); one_BuildData := None |}.
Abbreviation ok_env := InterfaceExamples.ok_env.
Definition one_iface : Iface tree key ctx := fst (start one_options ok_env true InterfaceExamples.iface0).
Definition one_sys : @Sys tree key ctx (boltSecureStorage tree key) bool :=
  {| sys_wallet := {| ws_unlocker := InterfaceExamples.u0; ws_callbacks := [] |}; sys_iface := one_iface |}.
Definition unlocking := InterfaceExamples.request InterfaceExamples.unlock_request one_sys.
Definition unlocked : @Sys tree key ctx (boltSecureStorage tree key) bool :=
  {| sys_wallet := {| ws_unlocker := ws_unlocker (sys_wallet unlocking); ws_callbacks := [] |};
     sys_iface := fst (run_callback one_options ok_env (OnUnlock "password") one_iface) |}.

Lemma one_port_after_unlock_witness :
  served (sys_iface unlocked) = one_services false ∧
  ∃ p u u' tr, sys_exec (run_callback one_options) InterfaceExamples.build "" one_sys tr unlocked ∧
    Requested (UnlockWalletRequest p) u u' ∈ tr ∧ svc_UnlockWallet p u = (u', Ret ()).
Proof.
  assert (served (sys_iface unlocked) = one_services false) as HS by (vm_compute; reflexivity). split; [exact HS|].
  assert (sys_exec (run_callback one_options) InterfaceExamples.build "" one_sys
    ([] ++ [Requested InterfaceExamples.unlock_request InterfaceExamples.u0 (ws_unlocker (sys_wallet unlocking))] ++
      [Ran (OnUnlock "password")]) unlocked) as HE.
  { rewrite app_assoc. eapply exec_step; [eapply exec_step; [apply exec_nil|]|].
    - apply (step_request _ _ _ one_sys InterfaceExamples.unlock_request _
        (snd (wallet_server InterfaceExamples.build "" InterfaceExamples.unlock_request (sys_wallet one_sys)))). apply surjective_pairing.
    - apply (step_callback _ _ _ unlocking ok_env [] (OnUnlock "password") []). vm_compute. reflexivity. }
  destruct (one_port_after_unlock one_options InterfaceExamples.build "" ok_env InterfaceExamples.u0 InterfaceExamples.iface0 one_iface
    _ _ eq_refl eq_refl HE) as [_ HU].
  destruct HU as (p & u & u' & Hin & Hu).
  - exists OperatorService. rewrite HS. split; [apply list_elem_of_here|].
    apply list_elem_of_further, list_elem_of_further, list_elem_of_further, list_elem_of_here.
  - exists p, u, u'. eexists. split; [exact HE|]. split; [exact Hin | exact Hu].
Defined.

(** The wallet is unlocked, locked, given another password and unlocked. *)
Definition calls : list (IfaceEnv * callback) :=
  [(ok_env, OnUnlock "password"); (ok_env, OnLock "password"); (ok_env, OnChangePwd "password" "word"); (ok_env, OnUnlock "word")]%string.
Lemma start_agrees : agree one_iface InterfaceExamples.iface1.
Proof. split_and!; [reflexivity | by eexists | by eexists | reflexivity | intros x; reflexivity]. Qed.
Lemma ports_agree_witness :
  agree (fst (run_each (run_callback one_options) calls one_iface))
    (fst (run_each (Interface.run_callback InterfaceExamples.options) calls InterfaceExamples.iface1)) ∧
  served (fst (run_each (Interface.run_callback InterfaceExamples.options) calls InterfaceExamples.iface1)) = full_interface.
Proof.
  split; [|vm_compute; reflexivity].
  apply (ports_agree one_options InterfaceExamples.options calls one_iface InterfaceExamples.iface1).
  - split; reflexivity.
  - repeat (apply Forall_cons; split; [split; [exact InterfaceExamples.startable_ok | eexists; reflexivity]|]). apply Forall_nil. exact I.
  - exact start_agrees.
Defined.
End OnePortExamples.
End OnePort.
