(* ===== verification/AppConfig.v ===== *)
(** The services of the application layer: internal/core/application/config.go with the
    constructors of the services (NewService in the directories of
    internal/core/application).

    The services are made when they are first asked for and kept.  A service is a pointer, so
    that what is shared and what is not can be told. *)

From Stdlib Require Import ZArith QArith Lia Ascii.
From stdpp Require Import base tactics strings list gmap.
From S2P Require Import Prelude Errors Decimal Market Trade Exchange Repos SecureStore Pubsub Macaroons SwapMsg Wallet TradeService Report Calendar Requests Operator TxEvents Listing Handlers Webhooks AdminHandlers Interface.
Local Open Scope Z_scope.

(** * internal/core/application/config.go *)
Module App.

Definition DBBadger : string := "badger".

(** A service is a pointer: its number, and the numbers of those it was given ([None] for
    nil, or when the constructor takes none). *)
Record instance := { in_id : nat; in_wallet : option nat; in_pubsub : option nat; in_repo : option nat }.
Inductive goroutine :=
  | ListenToTx (wallet : nat) | ListenToUtxo (wallet : nat)      (* of wallet.NewService *)
  | CheckForPendingTrades (trade : nat).                         (* of trade.NewService *)
Inductive handler :=
  | ClassifyAndStoreTx (operator : nat) | CheckAccountsLowBalance (operator : nat).

(** The services made so far, and what their constructors left: goroutines, and handlers
    registered with a wallet service. *)
Record Services := {
  c_repo : option instance; c_pubsub : option instance; c_wallet : option instance; c_unlocker : option instance;
  c_operator : option instance; c_trade : option instance; c_feeder : option instance;
  c_next : nat; c_goroutines : list goroutine; c_handlers : list (nat * handler) }.
Definition no_services : Services := {|
  c_repo := None; c_pubsub := None; c_wallet := None; c_unlocker := None; c_operator := None; c_trade := None; c_feeder := None;
  c_next := 0; c_goroutines := []; c_handlers := [] |}.

(** What the calls of the constructors meet: the Info of the wallet, opening the databases,
    and starting the price feeds with the given databases. *)
Record AppEnv := {
  app_Info : outcome error (); app_NewRepoManager : string → outcome error ();
  app_startPriceFeeds : option nat → outcome error () }.

Section config.
Context {D : Type} `{DecimalOps D}.
(** The exported fields; [OceanWallet] says whether it is there, [DBConfig] is [None] if it
    is not a string. *)
Record Config := {
  DBType : string; DBConfig : option string; OceanWallet : bool;
  FeeBalanceThreshold : Z; TradePriceSlippage : D; TxSatsPerByte : D }.
Variable c : Config.
Abbreviation act := (action Services error).

Definition created (wallet pubsub repo : option instance) : act instance := λ s,
  ({| c_repo := c_repo s; c_pubsub := c_pubsub s; c_wallet := c_wallet s; c_unlocker := c_unlocker s; c_operator := c_operator s;
      c_trade := c_trade s; c_feeder := c_feeder s; c_next := S (c_next s); c_goroutines := c_goroutines s; c_handlers := c_handlers s |},
   Ret {| in_id := c_next s; in_wallet := in_id <$> wallet; in_pubsub := in_id <$> pubsub; in_repo := in_id <$> repo |}).
Definition go (g : goroutine) : act () := λ s,
  ({| c_repo := c_repo s; c_pubsub := c_pubsub s; c_wallet := c_wallet s; c_unlocker := c_unlocker s; c_operator := c_operator s;
      c_trade := c_trade s; c_feeder := c_feeder s; c_next := c_next s; c_goroutines := c_goroutines s ++ [g]; c_handlers := c_handlers s |},
   Ret ()).
Definition RegisterHandlerForTxEvent (wallet : instance) (h : handler) : act () := λ s,
  ({| c_repo := c_repo s; c_pubsub := c_pubsub s; c_wallet := c_wallet s; c_unlocker := c_unlocker s; c_operator := c_operator s;
      c_trade := c_trade s; c_feeder := c_feeder s; c_next := c_next s; c_goroutines := c_goroutines s;
      c_handlers := c_handlers s ++ [(in_id wallet, h)] |}, Ret ()).
Definition checked (msg : string) (o : outcome error ()) : act () :=
  lift (match o with Err _ => Err (Errorf msg) | _ => o end).
(** [x.( *T )] *)
Definition asserted (x : option instance) : act instance :=
  lift (match x with Some x => Ret x | None => Panic TypeAssertion end).

(** ** The constructors *)
Definition NewWalletService (env : AppEnv) : act instance :=
  if negb (OceanWallet c) then lift (Err (Errorf "missing ocean wallet service"))
  else
    _ ← checked "failed to connect to ocean wallet: %s" (app_Info env);
    w ← created None None None;
    _ ← go (ListenToTx (in_id w));
    _ ← go (ListenToUtxo (in_id w));
    mret w.
Definition NewPubSubService : act instance := created None None None.
Definition NewUnlockerService (wallet pubsub : option instance) : act instance :=
  w ← asserted wallet; p ← asserted pubsub; created (Some w) (Some p) None.
Definition NewOperatorService (env : AppEnv) (wallet pubsub repo : option instance) : act instance :=
  w ← asserted wallet; p ← asserted pubsub;
  match repo with
  | None => lift (Err (Errorf "missing repo manager"))
  | Some r =>
      _ ← lift (NewService_msatsPerByte (TxSatsPerByte c));
      _ ← checked "failed to connect to wallet: %s" (app_Info env);
      svc ← created (Some w) (Some p) (Some r);
      _ ← RegisterHandlerForTxEvent w (ClassifyAndStoreTx (in_id svc));
      _ ← RegisterHandlerForTxEvent w (CheckAccountsLowBalance (in_id svc));
      mret svc
  end.
Definition NewTradeService (wallet pubsub repo : option instance) : act instance :=
  w ← asserted wallet; p ← asserted pubsub;
  match repo with
  | None => lift (Err (Errorf "missing repo manager"))
  | Some r =>
      _ ← lift (NewService_msatsPerByte (TxSatsPerByte c));
      svc ← created (Some w) (Some p) (Some r);
      _ ← go (CheckForPendingTrades (in_id svc));
      mret svc
  end.
Definition NewFeederService (env : AppEnv) (repo : option instance) : act instance :=
  _ ← lift (app_startPriceFeeds env (in_id <$> repo)); created None None repo.

(** ** The services, made when first asked for *)
Definition set_repo (x : instance) (s : Services) : Services := {|
  c_repo := Some x; c_pubsub := c_pubsub s; c_wallet := c_wallet s; c_unlocker := c_unlocker s; c_operator := c_operator s;
  c_trade := c_trade s; c_feeder := c_feeder s; c_next := c_next s; c_goroutines := c_goroutines s; c_handlers := c_handlers s |}.
Definition set_pubsub (x : instance) (s : Services) : Services := {|
  c_repo := c_repo s; c_pubsub := Some x; c_wallet := c_wallet s; c_unlocker := c_unlocker s; c_operator := c_operator s;
  c_trade := c_trade s; c_feeder := c_feeder s; c_next := c_next s; c_goroutines := c_goroutines s; c_handlers := c_handlers s |}.
Definition set_wallet (x : instance) (s : Services) : Services := {|
  c_repo := c_repo s; c_pubsub := c_pubsub s; c_wallet := Some x; c_unlocker := c_unlocker s; c_operator := c_operator s;
  c_trade := c_trade s; c_feeder := c_feeder s; c_next := c_next s; c_goroutines := c_goroutines s; c_handlers := c_handlers s |}.
Definition set_unlocker (x : instance) (s : Services) : Services := {|
  c_repo := c_repo s; c_pubsub := c_pubsub s; c_wallet := c_wallet s; c_unlocker := Some x; c_operator := c_operator s;
  c_trade := c_trade s; c_feeder := c_feeder s; c_next := c_next s; c_goroutines := c_goroutines s; c_handlers := c_handlers s |}.
Definition set_operator (x : instance) (s : Services) : Services := {|
  c_repo := c_repo s; c_pubsub := c_pubsub s; c_wallet := c_wallet s; c_unlocker := c_unlocker s; c_operator := Some x;
  c_trade := c_trade s; c_feeder := c_feeder s; c_next := c_next s; c_goroutines := c_goroutines s; c_handlers := c_handlers s |}.
Definition set_trade (x : instance) (s : Services) : Services := {|
  c_repo := c_repo s; c_pubsub := c_pubsub s; c_wallet := c_wallet s; c_unlocker := c_unlocker s; c_operator := c_operator s;
  c_trade := Some x; c_feeder := c_feeder s; c_next := c_next s; c_goroutines := c_goroutines s; c_handlers := c_handlers s |}.
Definition set_feeder (x : instance) (s : Services) : Services := {|
  c_repo := c_repo s; c_pubsub := c_pubsub s; c_wallet := c_wallet s; c_unlocker := c_unlocker s; c_operator := c_operator s;
  c_trade := c_trade s; c_feeder := Some x; c_next := c_next s; c_goroutines := c_goroutines s; c_handlers := c_handlers s |}.
(** [c.x = x; return c.x, nil] *)
Definition keep (set : instance → Services → Services) (x : instance) : act (option instance) := λ s, (set x s, Ret (Some x)).
(** [x, _ := m()] *)
Definition ignoring (m : act (option instance)) : act (option instance) := λ s,
  match m s with (s', Err _) => (s', Ret None) | r => r end.

Definition repoManager (env : AppEnv) : act (option instance) :=
  s ← get_state;
  match c_repo s with
  | Some r => mret (Some r)
  | None =>
      if bool_decide (DBType c = DBBadger)
      then datadir ← lift (match DBConfig c with Some d => Ret d | None => Panic TypeAssertion end);
           _ ← lift (app_NewRepoManager env datadir);
           r ← created None None None;
           keep set_repo r
      else mret None
  end.
Definition pubsubService : act (option instance) :=
  s ← get_state;
  match c_pubsub s with Some p => mret (Some p) | None => p ← NewPubSubService; keep set_pubsub p end.
Definition walletService (env : AppEnv) : act (option instance) :=
  s ← get_state;
  match c_wallet s with Some w => mret (Some w) | None => w ← NewWalletService env; keep set_wallet w end.
Definition unlockerService (env : AppEnv) : act (option instance) :=
  s ← get_state;
  match c_unlocker s with
  | Some u => mret (Some u)
  | None =>
      wallet ← ignoring (walletService env);
      pubsub ← ignoring pubsubService;
      u ← NewUnlockerService wallet pubsub;
      keep set_unlocker u
  end.
Definition operatorService (env : AppEnv) : act (option instance) :=
  s ← get_state;
  match c_operator s with
  | Some o => mret (Some o)
  | None =>
      wallet ← ignoring (walletService env);
      pubsub ← ignoring pubsubService;
      repo ← ignoring (repoManager env);
      o ← NewOperatorService env wallet pubsub repo;
      keep set_operator o
  end.
Definition tradeService (env : AppEnv) : act (option instance) :=
  s ← get_state;
  match c_trade s with
  | Some t => mret (Some t)
  | None =>
      wallet ← ignoring (walletService env);
      pubsub ← ignoring pubsubService;
      repo ← ignoring (repoManager env);
      t ← NewTradeService wallet pubsub repo;
      keep set_trade t
  end.
(** The databases are those made so far: repoManager is not called. *)
Definition feederService (env : AppEnv) : act (option instance) :=
  s ← get_state;
  match c_feeder s with
  | Some f => mret (Some f)
  | None => f ← NewFeederService env (c_repo s); keep set_feeder f
  end.
Definition Validate (env : AppEnv) : act () :=
  _ ← walletService env; _ ← repoManager env; mret ().

(** The exported methods: the error is dropped. *)
Inductive accessor :=
  | RepoManager | PubSubService | WalletService | UnlockerService | OperatorService | TradeService | FeederService.
Definition access (env : AppEnv) (a : accessor) : act (option instance) :=
  ignoring (match a with
            | RepoManager => repoManager env
            | PubSubService => pubsubService
            | WalletService => walletService env
            | UnlockerService => unlockerService env
            | OperatorService => operatorService env
            | TradeService => tradeService env
            | FeederService => feederService env
            end).
End config.
Arguments Config D : clear implicits.

(** * Theorems: one of each *)

Section shared.
Context {D : Type} `{DecimalOps D}.
Variable c : Config D.
Abbreviation act := (action Services error).
Implicit Types s : Services.

Definition kept_as (a : accessor) s : option instance :=
  match a with
  | RepoManager => c_repo s | PubSubService => c_pubsub s | WalletService => c_wallet s | UnlockerService => c_unlocker s
  | OperatorService => c_operator s | TradeService => c_trade s | FeederService => c_feeder s
  end.
(** What a service of the kind [a] was given. *)
Definition with_wallet s (x : instance) : Prop :=
  ∃ w p, c_wallet s = Some w ∧ c_pubsub s = Some p ∧ in_wallet x = Some (in_id w) ∧ in_pubsub x = Some (in_id p).
Definition with_repo s (x : instance) : Prop := in_repo x = in_id <$> c_repo s.
Definition built_on (a : accessor) s (x : instance) : Prop :=
  match a with
  | RepoManager | PubSubService | WalletService => True
  | UnlockerService => with_wallet s x
  | OperatorService | TradeService => with_wallet s x ∧ with_repo s x ∧ is_Some (c_repo s)
  | FeederService => with_repo s x
  end.
(** What the constructors leave: for the wallet, the trade and the operator service. *)
Definition left_running s : list goroutine :=
  from_option (λ w, [ListenToTx (in_id w); ListenToUtxo (in_id w)]) [] (c_wallet s) ++
  from_option (λ t, [CheckForPendingTrades (in_id t)]) [] (c_trade s).
Definition left_registered s : list (nat * handler) :=
  match c_operator s, c_wallet s with
  | Some o, Some w => [(in_id w, ClassifyAndStoreTx (in_id o)); (in_id w, CheckAccountsLowBalance (in_id o))]
  | _, _ => []
  end.
Definition app_ok s : Prop :=
  (∀ a x, kept_as a s = Some x → built_on a s x) ∧ c_goroutines s = left_running s ∧ c_handlers s = left_registered s ∧
  is_Some (c_wallet s) ∧ (DBType c = DBBadger → is_Some (c_repo s)).
(** What was made stays. *)
Definition grows s s' : Prop := ∀ a x, kept_as a s = Some x → kept_as a s' = Some x.

(** Validate makes the wallet service and the databases. *)
Lemma validated env s : Validate c env no_services = (s, Ret ()) → app_ok s.
Proof.
  unfold Validate, walletService, repoManager, NewWalletService, checked, created, go, keep, lift, mbind, action_bind, get_state. cbn.
  destruct (OceanWallet c); cbn; [|done]. destruct (app_Info env); cbn; try done.
  case_bool_decide as HB; cbn; [destruct (DBConfig c) as [d|]; cbn; [|done]; destruct (app_NewRepoManager env d); cbn; try done|].
  all: intros [= <-]; split_and!; cbn; [|done|done|by eexists|first [done | by eexists]].
  all: by intros [] x Hx; try discriminate Hx.
Qed.

Lemma wallet_kept env s w : c_wallet s = Some w → walletService c env s = (s, Ret (Some w)).
Proof. intros Hw. unfold walletService, mbind, action_bind, get_state. by rewrite Hw. Qed.
Lemma repo_kept env s : app_ok s → repoManager c env s = (s, Ret (c_repo s)).
Proof.
  intros (_ & _ & _ & _ & Hr). unfold repoManager, mbind, action_bind, get_state. destruct (c_repo s); [done|].
  case_bool_decide as HB; [|done]. by destruct (Hr HB).
Qed.
Lemma pubsub_made s : app_ok s → ∃ s' p, pubsubService s = (s', Ret (Some p)) ∧ app_ok s' ∧ grows s s' ∧
  c_pubsub s' = Some p ∧ c_wallet s' = c_wallet s ∧ c_repo s' = c_repo s ∧
  c_unlocker s' = c_unlocker s ∧ c_operator s' = c_operator s ∧ c_trade s' = c_trade s.
Proof.
  intros Hok. unfold pubsubService, NewPubSubService, created, keep, mbind, action_bind, get_state.
  destruct (c_pubsub s) as [p|] eqn:Hp; cbn; [exists s, p; split_and!; try done; by intros a x|]. eexists _, _. split; [done|].
  destruct Hok as (HB & Hg & Hh & Hw & Hr). split_and!; try done.
  - split_and!; try done. intros a x Hx. specialize (HB a x). unfold built_on, with_wallet, with_repo in *.
    destruct a; cbn in *; try done; [..|by apply HB]; exfalso; specialize (HB Hx); naive_solver.
  - intros a x. destruct a; cbn; try done. by rewrite Hp.
Qed.

Definition sound (a : accessor) (s : Services) (r : Services * outcome error (option instance)) : Prop :=
  app_ok (fst r) ∧ grows s (fst r) ∧ ∀ x, snd r = Ret (Some x) → kept_as a (fst r) = Some x.
Lemma grows_refl s : grows s s.
Proof. by intros a x. Qed.
Lemma grows_trans s1 s2 s3 : grows s1 s2 → grows s2 s3 → grows s1 s3.
Proof. intros HA HB a x Hx. by apply HB, HA. Qed.
Lemma sound_same a s : app_ok s → ∀ o, (∀ x, o = Ret (Some x) → kept_as a s = Some x) → sound a s (s, o).
Proof. intros Hok o Ho. split_and!; [done | apply grows_refl | done]. Qed.
Lemma sound_later a s1 s2 r : grows s1 s2 → sound a s2 r → sound a s1 r.
Proof. intros Hg (HA & HB & HC). split_and!; [done | by eapply grows_trans | done]. Qed.

Lemma unlocker_sound env s : app_ok s → sound UnlockerService s (unlockerService c env s).
Proof.
  intros Hok. unfold unlockerService, mbind, action_bind, get_state.
  destruct (c_unlocker s) as [u|] eqn:Hu; [by apply sound_same; [|intros x [= <-]]|].
  pose proof Hok as (_ & _ & _ & [w Hw] & _). unfold ignoring. rewrite (wallet_kept _ _ _ Hw).
  destruct (pubsub_made _ Hok) as (s' & p & -> & Hok' & Hg & Hp & Ew & Er & Eu & _). eapply sound_later; [exact Hg|].
  unfold NewUnlockerService, lift, mbind, action_bind. cbn.
  destruct Hok' as (HB & Hgo & Hh & Hw' & Hr). split_and!; cbn; [split_and!; try done|..].
  - intros a x Hx. specialize (HB a x). destruct a; cbn in *; try exact (HB Hx). injection Hx as <-.
    exists w, p. cbn. by rewrite Ew.
  - intros a x. destruct a; cbn; try done. by rewrite Eu, Hu.
  - by intros x [= <-].
Qed.
Lemma operator_sound env s : app_ok s → sound OperatorService s (operatorService c env s).
Proof.
  intros Hok. unfold operatorService, mbind, action_bind, get_state.
  destruct (c_operator s) as [u|] eqn:Hu; [by apply sound_same; [|intros x [= <-]]|].
  pose proof Hok as (_ & _ & _ & [w Hw] & _). unfold ignoring. rewrite (wallet_kept _ _ _ Hw).
  destruct (pubsub_made _ Hok) as (s' & p & -> & Hok' & Hg & Hp & Ew & Er & _ & Eo & _). rewrite (repo_kept _ _ Hok').
  eapply sound_later; [exact Hg|]. unfold NewOperatorService, checked, lift, mbind, action_bind. cbn.
  destruct (c_repo s') as [r|] eqn:Hr'; [|by apply sound_same]. destruct (NewService_msatsPerByte _); cbn; [|by apply sound_same..].
  destruct (app_Info env); cbn; [|by apply sound_same..].
  destruct Hok' as (HB & Hgo & Hh & Hw' & Hr). split_and!; cbn; [split_and!; try done|..].
  - intros a' x Hx. specialize (HB a' x). destruct a'; cbn in *; try exact (HB Hx). injection Hx as <-.
    split_and!; [exists w, p; cbn; by rewrite Ew | unfold with_repo; cbn; by rewrite Hr' | cbn; by rewrite Hr'].
  - unfold left_registered in *. cbn. rewrite Hh, Eo, Hu, Ew, Hw. done.
  - intros a' x. destruct a'; cbn; try done. by rewrite Eo, Hu.
  - by intros x [= <-].
Qed.
Lemma trade_sound env s : app_ok s → sound TradeService s (tradeService c env s).
Proof.
  intros Hok. unfold tradeService, mbind, action_bind, get_state.
  destruct (c_trade s) as [u|] eqn:Hu; [by apply sound_same; [|intros x [= <-]]|].
  pose proof Hok as (_ & _ & _ & [w Hw] & _). unfold ignoring. rewrite (wallet_kept _ _ _ Hw).
  destruct (pubsub_made _ Hok) as (s' & p & -> & Hok' & Hg & Hp & Ew & Er & _ & _ & Et). rewrite (repo_kept _ _ Hok').
  eapply sound_later; [exact Hg|]. unfold NewTradeService, lift, mbind, action_bind. cbn.
  destruct (c_repo s') as [r|] eqn:Hr'; [|by apply sound_same]. destruct (NewService_msatsPerByte _); cbn; [|by apply sound_same..].
  destruct Hok' as (HB & Hgo & Hh & Hw' & Hr). split_and!; cbn; [split_and!; try done|..].
  - intros a' x Hx. specialize (HB a' x). destruct a'; cbn in *; try exact (HB Hx). injection Hx as <-.
    split_and!; [exists w, p; cbn; by rewrite Ew | unfold with_repo; cbn; by rewrite Hr' | cbn; by rewrite Hr'].
  - unfold left_running in *. cbn. by rewrite Hgo, Et, Hu, app_nil_r.
  - intros a' x. destruct a'; cbn; try done. by rewrite Et, Hu.
  - by intros x [= <-].
Qed.
Lemma feeder_sound env s : app_ok s → sound FeederService s (feederService env s).
Proof.
  intros Hok. unfold feederService, mbind, action_bind, get_state.
  destruct (c_feeder s) as [u|] eqn:Hu; [by apply sound_same; [|intros x [= <-]]|].
  unfold NewFeederService, lift, mbind, action_bind. cbn. destruct (app_startPriceFeeds env _); cbn; [|by apply sound_same..].
  destruct Hok as (HB & Hgo & Hh & Hw & Hr). split_and!; cbn; [split_and!; try done|..].
  - intros a' x Hx. specialize (HB a' x). destruct a'; cbn in *; try exact (HB Hx). by injection Hx as <-.
  - intros a' x. destruct a'; cbn; try done. by rewrite Hu.
  - by intros x [= <-].
Qed.
Lemma access_sound env a s : app_ok s → sound a s (access c env a s).
Proof.
  intros Hok. unfold access.
  assert (∀ m : act (option instance), sound a s (m s) → sound a s (ignoring m s)) as Hi.
  { intros m (HA & HB & HC). unfold ignoring. destruct (m s) as [s' [x|e|p]]; by split_and!. }
  apply Hi. destruct a.
  - rewrite (repo_kept _ _ Hok). apply sound_same; [done|]. intros x E. cbn. congruence.
  - destruct (pubsub_made _ Hok) as (s' & p & -> & Hok' & Hg & Hp & _). split_and!; [done..|]. by intros x [= <-].
  - pose proof Hok as (_ & _ & _ & [w Hw] & _). rewrite (wallet_kept _ _ _ Hw). apply sound_same; [done|]. by intros x [= <-].
  - by apply unlocker_sound.
  - by apply operator_sound.
  - by apply trade_sound.
  - by apply feeder_sound.
Qed.

(** Calls of the methods one after the other, by whoever makes them, with what each meets;
    a panic is recovered by the caller. *)
Fixpoint calls (l : list (AppEnv * accessor)) (s : Services) : Services * list (accessor * outcome error (option instance)) :=
  match l with
  | [] => (s, [])
  | (env, a) :: l => let '(s1, o) := access c env a s in let '(s2, os) := calls l s1 in (s2, (a, o) :: os)
  end.
Lemma calls_sound l s : app_ok s → app_ok (fst (calls l s)) ∧ grows s (fst (calls l s)) ∧
  ∀ a x, (a, Ret (Some x)) ∈ snd (calls l s) → kept_as a (fst (calls l s)) = Some x.
Proof.
  revert s. induction l as [|[env a] l IH]; intros s Hok; cbn [calls].
  { split_and!; [done | apply grows_refl|]. intros a x Hx. by apply not_elem_of_nil in Hx. }
  destruct (access_sound env a s Hok) as (Hok1 & Hg1 & Ha). destruct (access c env a s) as [s1 o]; cbn in *.
  destruct (IH s1 Hok1) as (Hok2 & Hg2 & Hb). destruct (calls l s1) as [s2 os]; cbn in *.
  split_and!; [done | by eapply grows_trans|]. intros a' x [E|Hx]%elem_of_cons; [|by apply Hb].
  injection E as -> <-. by apply Hg2, Ha.
Qed.

(** C28: one of each service.  After Validate, whatever the order and the number of the calls
    of the methods of the configuration and whatever fails on the way: the answers of one
    method that are not nil are all the same service; the services that need them were
    given the one wallet service, the one pubsub service and the one set of databases; and
    what the constructors leave behind is there once: the two listeners of the wallet, the
    check of pending trades, the two handlers of the operator service. *)
Theorem services_shared env l s0 s os :
  Validate c env no_services = (s0, Ret ()) → calls l s0 = (s, os) →
  (∀ a x y, (a, Ret (Some x)) ∈ os → (a, Ret (Some y)) ∈ os → x = y) ∧
  (∀ a x, (a, Ret (Some x)) ∈ os → built_on a s x) ∧
  c_goroutines s = left_running s ∧ c_handlers s = left_registered s.
Proof.
  intros HV HC. pose proof (calls_sound l s0 (validated _ _ HV)) as (Hok & _ & Ha). rewrite HC in Hok, Ha. cbn in Hok, Ha.
  destruct Hok as (HB & Hg & Hh & _). split_and!; [|by eauto|done|done].
  intros a x y Hx%Ha Hy%Ha. congruence.
Qed.


(** Without databases (those of a type the daemon does not know), or with a fee rate the
    services refuse, there is no operator and no trade service, and Validate has not said so. *)
Lemma no_service_told env s :
  app_ok s → c_operator s = None → c_trade s = None →
  c_repo s = None ∨ (∃ e, NewService_msatsPerByte (TxSatsPerByte c) = Err e) →
  snd (access c env OperatorService s) = Ret None ∧ snd (access c env TradeService s) = Ret None.
Proof.
  intros Hok Ho Ht Hn. pose proof Hok as (_ & _ & _ & [w Hw] & _).
  destruct (pubsub_made _ Hok) as (s' & p & Ep & Hok' & _ & _ & _ & Er & _).
  unfold access, ignoring, operatorService, tradeService, mbind, action_bind, get_state. rewrite Ho, Ht.
  unfold ignoring. rewrite (wallet_kept _ _ _ Hw), Ep, (repo_kept _ _ Hok').
  unfold NewOperatorService, NewTradeService, lift, mbind, action_bind. cbn. rewrite Er.
  destruct Hn as [->|[e ->]]; [done|]. by destruct (c_repo s).
Qed.
Lemma unknown_database_accepted env s : DBType c ≠ DBBadger → Validate c env no_services = (s, Ret ()) →
  c_repo s = None ∧ c_operator s = None ∧ c_trade s = None.
Proof.
  intros HB. unfold Validate, walletService, repoManager, NewWalletService, checked, lift, mbind, action_bind, get_state. cbn.
  destruct (OceanWallet c); cbn; [|done]. destruct (app_Info env); cbn; try done. rewrite bool_decide_false by done. by intros [= <-].
Qed.
End shared.

(** * Examples *)
Module AppExamples.
#[local] Existing Instance Fixed.ops.

Definition all_well : AppEnv := {|
  app_Info := Ret (); app_NewRepoManager _ := Ret (); app_startPriceFeeds _ := Ret () |}.
Definition wallet_down : AppEnv := {|
  app_Info := new_error "unavailable"; app_NewRepoManager _ := Ret (); app_startPriceFeeds _ := Ret () |}.
Definition config0 : Config Fixed.t := {|
  DBType := DBBadger; DBConfig := Some "/tdex/db"%string; OceanWallet := true; FeeBalanceThreshold := 5000;
  TradePriceSlippage := NewFromFloat 5 (-2); TxSatsPerByte := NewFromFloat 11 (-2) |}.

(** The wallet cannot be reached the first time the operator service is asked for. *)
Definition some_calls : list (AppEnv * accessor) :=
  [(all_well, UnlockerService); (wallet_down, OperatorService); (all_well, OperatorService); (all_well, TradeService);
   (all_well, FeederService); (wallet_down, OperatorService); (all_well, TradeService)].
Definition validated0 : Services := fst (Validate config0 all_well no_services).
Definition after_calls := calls config0 some_calls validated0.
Lemma services_shared_witness :
  c_handlers (fst after_calls) = left_registered (fst after_calls) ∧ length (c_handlers (fst after_calls)) = 2%nat ∧
  (OperatorService, Ret None) ∈ snd after_calls.
Proof.
  destruct (services_shared config0 all_well some_calls validated0 (fst after_calls) (snd after_calls)) as (_ & _ & _ & Hh).
  - vm_compute. reflexivity.
  - unfold after_calls. apply surjective_pairing.
  - split; [exact Hh|]. split; [vm_compute; reflexivity|]. vm_compute. apply list_elem_of_further, list_elem_of_here.
Defined.
End AppExamples.
End App.
