(* ===== verification/Daemon.v ===== *)
(** The daemon as a whole: internal/config/config.go and cmd/tdexd/main.go.

    Module [Settings] has the environment variables and the directories; module [Tdexd] what
    main does with them: the connections it opens, the interface it chooses, how it starts
    and ends. *)

From Stdlib Require Import ZArith QArith Qpower Qfield Lia Ascii.
From stdpp Require Import base tactics strings list gmap.
From S2P Require Import Prelude Errors Decimal Market Trade Exchange Repos SecureStore Pubsub Macaroons SwapMsg Wallet TradeService Report Calendar Requests Operator TxEvents Listing Handlers Webhooks AdminHandlers Interface OnePort AppConfig.
Local Open Scope Z_scope.

(** * internal/config/config.go *)
Module Settings.

Definition TradeListeningPortKey : string := "TRADE_LISTENING_PORT".
Definition OperatorListeningPortKey : string := "OPERATOR_LISTENING_PORT".
Definition DatadirKey : string := "DATADIR".
Definition LogLevelKey : string := "LOG_LEVEL".
Definition FeeAccountBalanceThresholdKey : string := "FEE_ACCOUNT_BALANCE_THRESHOLD".
Definition TradeExpiryTimeKey : string := "TRADE_EXPIRY_TIME".
Definition TxSatsPerByteKey : string := "TX_SATS_PER_BYTE".
Definition PriceSlippageKey : string := "PRICE_SLIPPAGE".
Definition TradeTLSKeyKey : string := "TRADE_TLS_KEY".
Definition TradeTLSCertKey : string := "TRADE_TLS_CERT".
Definition EnableProfilerKey : string := "ENABLE_PROFILER".
Definition StatsIntervalKey : string := "STATS_INTERVAL".
Definition NoMacaroonsKey : string := "NO_MACAROONS".
Definition NoOperatorTlsKey : string := "NO_OPERATOR_TLS".
Definition OperatorExtraIPKey : string := "OPERATOR_EXTRA_IP".
Definition OperatorExtraDomainKey : string := "OPERATOR_EXTRA_DOMAIN".
Definition WalletUnlockPasswordFileKey : string := "WALLET_UNLOCK_PASSWORD_FILE".
Definition ConnectAddrKey : string := "CONNECT_ADDR".
Definition ConnectProtoKey : string := "CONNECT_PROTO".
Definition OceanWalletAddrKey : string := "WALLET_ADDR".
Definition DBTypeKey : string := "DB_TYPE".
Definition DbLocation : string := "db".
Definition TLSLocation : string := "tls".
Definition MacaroonsLocation : string := "macaroons".
Definition ProfilerLocation : string := "stats".

(** ** viper

    A setting is the text of an environment variable or the default of its key; the
    conversions are those of the cast package.  An empty variable counts as unset. *)
Inductive setting := SString (s : string) | SInt (z : Z) | SFloat (f : float64) | SBool (b : bool).
Class Cast := {
  ToInt : setting → Z; ToFloat64 : setting → float64; ToBool : setting → bool; ToString : setting → string;
  ToStringSlice : setting → list string }.
Definition EnvPrefix : string := "TDEX_".

Section settings.
Context `{Cast}.
Variables (environ : gmap string string) (defaultDatadir : string).

Definition defaults : gmap string setting := list_to_map [
  (TradeListeningPortKey, SInt 9945); (OperatorListeningPortKey, SInt 9000); (LogLevelKey, SInt 4);
  (FeeAccountBalanceThresholdKey, SInt 5000); (TradeExpiryTimeKey, SInt 120); (TxSatsPerByteKey, SFloat (Finite 11 (-2)));
  (DatadirKey, SString defaultDatadir); (PriceSlippageKey, SFloat (Finite 5 (-2))); (EnableProfilerKey, SBool false);
  (StatsIntervalKey, SInt 600); (NoMacaroonsKey, SBool false); (NoOperatorTlsKey, SBool false);
  (ConnectProtoKey, SString "https"); (DBTypeKey, SString App.DBBadger)].
Definition vip_Get (key : string) : option setting :=
  match environ !! (EnvPrefix +:+ key) with
  | Some s => if bool_decide (s = ""%string) then defaults !! key else Some (SString s)
  | None => defaults !! key
  end.
Definition IsSet (key : string) : bool := bool_decide (is_Some (vip_Get key)).
Definition GetString (key : string) : string := from_option ToString ""%string (vip_Get key).
Definition GetInt (key : string) : Z := from_option ToInt 0 (vip_Get key).
Definition GetFloat (key : string) : float64 := from_option ToFloat64 (Finite 0 0) (vip_Get key).
Definition GetStringSlice (key : string) : list string := from_option ToStringSlice [] (vip_Get key).
Definition GetBool (key : string) : bool := from_option ToBool false (vip_Get key).
Definition GetDatadir : string := GetString DatadirKey.

(** [x < 0.1] *)
Definition below_tenth (x : float64) : bool :=
  match x with
  | Finite m e => if e + 1 <? 0 then m <? 10 ^ (- (e + 1)) else m * 10 ^ (e + 1) <? 1
  | NegInf => true
  | PosInf | NaN => false
  end.
Definition validate : outcome error () :=
  let datadir := GetString DatadirKey in
  if bool_decide (datadir = ""%string) then new_error "missing datadir"
  else
    let tlsKey := GetString TradeTLSKeyKey in
    let tlsCert := GetString TradeTLSCertKey in
    if (bool_decide (tlsKey = ""%string) && negb (bool_decide (tlsCert = ""%string)))
       || (negb (bool_decide (tlsKey = ""%string)) && bool_decide (tlsCert = ""%string))
    then new_error "TLS for Trade interface requires both key and certificate when enabled"
    else if below_tenth (GetFloat TxSatsPerByteKey) then new_error "%s must be equal or greater than 0.1"
    else if negb (IsSet OceanWalletAddrKey) then new_error "missing wallet address"
    else Ret ().

(** ** The directories *)

(** The directories a path goes through, and the path itself. *)
Definition way (path : string) : list string :=
  let rooted := is_rooted path in
  (λ n, (if rooted then "/" else "") +:+ join_slash (take n (clean_parts rooted path)))
    <$> seq 1 (length (clean_parts rooted path)).
(** os.MkdirAll: the missing directories on the way are made. *)
Definition MkdirAll (path : string) (fs : files) : files :=
  foldr (λ d fs, match fs !! d with Some _ => fs | None => <[d := Directory]> fs end) fs (way path).
Variable mkdir_error : string → option error.
Definition makeDirectoryIfNotExists (path : string) : action files error () := λ fs,
  if pathExists fs path then (fs, Ret ())
  else match mkdir_error path with
       | Some e => (fs, Err e)
       | None => (MkdirAll path fs, Ret ())
       end.
Definition initDatadir : action files error () :=
  let datadir := GetDatadir in
  _ ← makeDirectoryIfNotExists (Join datadir DbLocation);
  _ ← (if GetBool EnableProfilerKey then makeDirectoryIfNotExists (Join datadir ProfilerLocation) else mret () : action files error ());
  _ ← (if GetBool NoMacaroonsKey then mret () else makeDirectoryIfNotExists (Join datadir MacaroonsLocation) : action files error ());
  if GetBool NoOperatorTlsKey then mret () else makeDirectoryIfNotExists (Join datadir TLSLocation).
Definition InitConfig : action files error () := λ fs,
  match validate with
  | Err _ => (fs, Err (Errorf "error while validating config: %s"))
  | Panic p => (fs, Panic p)
  | Ret _ =>
      match initDatadir fs with
      | (fs, Err _) => (fs, Err (Errorf "error while creating datadir: %s"))
      | r => r
      end
  end.
End settings.
End Settings.

(** * cmd/tdexd/main.go *)
Module Tdexd.
Import OnePort App Settings.

Section main.
Context {D : Type} `{DecimalOps D} `{Cast}.

(** The variables loadConfig sets. *)
Record Loaded := {
  logLevel : Z; tradeSvcPort : Z; operatorSvcPort : Z; statsInterval : Z;
  noMacaroons : bool; noOperatorTls : bool; profilerEnabled : bool;
  datadir : string; dbDir : string; profilerDir : string; tradeTLSKey : string; tradeTLSCert : string;
  walletUnlockPasswordFile : string; dbType : string; oceanWalletAddr : string; connectAddr : string; connectProto : string;
  operatorTLSExtraIPs : list string; operatorTLSExtraDomains : list string;
  feeBalanceThreshold : Z; pricesSlippagePercentage : D; satsPerByte : D }.

(** Outside the daemon: the environment variables and the default datadir, the directories
    that cannot be made, the connections and databases it opens, the key pair it makes, what
    the servers and the wallet meet, and the macaroon service it can open. *)
Record World (DB K Ctx : Type) := {
  w_environ : gmap string string; w_defaultDatadir : string; w_mkdir_error : string → option error;
  w_ocean : string → outcome error ();                    (* oceanwallet.NewService *)
  w_pubsub : string → outcome error ();                   (* opening pubsub.db *)
  w_feeds : string → outcome error ();                    (* opening the store of the price feeds *)
  w_app : AppEnv; w_tls : outcome error ();               (* generateOperatorTLSKeyCert *)
  w_ParseIP : string → bool; w_macaroons : option (Service DB K Ctx); w_iface : IfaceEnv; w_build : BuildData }.
#[global] Arguments w_environ {DB K Ctx} _.
#[global] Arguments w_defaultDatadir {DB K Ctx} _.
#[global] Arguments w_mkdir_error {DB K Ctx} _.
#[global] Arguments w_ocean {DB K Ctx} _.
#[global] Arguments w_pubsub {DB K Ctx} _.
#[global] Arguments w_feeds {DB K Ctx} _.
#[global] Arguments w_app {DB K Ctx} _.
#[global] Arguments w_tls {DB K Ctx} _.
#[global] Arguments w_ParseIP {DB K Ctx} _.
#[global] Arguments w_macaroons {DB K Ctx} _.
#[global] Arguments w_iface {DB K Ctx} _.
#[global] Arguments w_build {DB K Ctx} _.

Context {DB : Type} `{Bolt DB} {K : Type} `{Snacl K} {Mac Ctx : Type} `{Bakery Mac Ctx} `{MapOrder}.
Context {S : Type} `{SecureStorage S} {V : Type} `{WalletManager V WalletStatus WalletInfo}.
Variable world : World DB K Ctx.

Definition read_settings : outcome error Loaded :=
  let get := GetString (w_environ world) (w_defaultDatadir world) in
  let int := GetInt (w_environ world) (w_defaultDatadir world) in
  let bool := GetBool (w_environ world) (w_defaultDatadir world) in
  let float := GetFloat (w_environ world) (w_defaultDatadir world) in
  let slice := GetStringSlice (w_environ world) (w_defaultDatadir world) in
  slippage ← decimal_of_float (float PriceSlippageKey);
  rate ← decimal_of_float (float TxSatsPerByteKey);
  Ret {| logLevel := int LogLevelKey; tradeSvcPort := int TradeListeningPortKey; operatorSvcPort := int OperatorListeningPortKey;
         statsInterval := int StatsIntervalKey; noMacaroons := bool NoMacaroonsKey; noOperatorTls := bool NoOperatorTlsKey;
         profilerEnabled := bool EnableProfilerKey; datadir := get DatadirKey; dbDir := Join (get DatadirKey) DbLocation;
         profilerDir := Join (get DatadirKey) ProfilerLocation; tradeTLSKey := get TradeTLSKeyKey; tradeTLSCert := get TradeTLSCertKey;
         walletUnlockPasswordFile := get WalletUnlockPasswordFileKey; dbType := get DBTypeKey; oceanWalletAddr := get OceanWalletAddrKey;
         connectAddr := get ConnectAddrKey; connectProto := get ConnectProtoKey; operatorTLSExtraIPs := slice OperatorExtraIPKey;
         operatorTLSExtraDomains := slice OperatorExtraDomainKey; feeBalanceThreshold := u64 (int FeeAccountBalanceThresholdKey);
         pricesSlippagePercentage := slippage; satsPerByte := rate |}.
Definition loadConfig : action files error Loaded :=
  _ ← InitConfig (w_environ world) (w_defaultDatadir world) (w_mkdir_error world);
  lift read_settings.

Definition app_config (g : Loaded) : Config D := {|
  DBType := dbType g; DBConfig := Some (dbDir g); OceanWallet := true; FeeBalanceThreshold := feeBalanceThreshold g;
  TradePriceSlippage := pricesSlippagePercentage g; TxSatsPerByte := satsPerByte g |}.
(** The interface on one port or on two, with its options. *)
Inductive service := OnOnePort (o : ServiceOptsOnePort) | OnTwoPorts (o : ServiceOpts).
Definition grpc_service (runOnOnePort : bool) (g : Loaded) (appConfig : outcome error ()) : service :=
  if runOnOnePort then OnOnePort {|
    one_NoMacaroons := noMacaroons g; one_Datadir := datadir g; one_DBLocation := DbLocation;
    one_MacaroonsLocation := MacaroonsLocation; one_WalletUnlockPasswordFile := walletUnlockPasswordFile g;
    one_Port := tradeSvcPort g; one_TLSKey := tradeTLSKey g; one_TLSCert := tradeTLSCert g;
    one_AppConfig := Some appConfig; one_BuildData := Some (w_build world) |}
  else OnTwoPorts {|
    NoMacaroons := noMacaroons g; Datadir := datadir g; DBLocation := DbLocation; Interface.TLSLocation := Settings.TLSLocation;
    Interface.MacaroonsLocation := Settings.MacaroonsLocation; OperatorExtraIPs := operatorTLSExtraIPs g;
    WalletUnlockPasswordFile := walletUnlockPasswordFile g; OperatorPort := operatorSvcPort g; TradePort := tradeSvcPort g;
    TradeTLSKey := tradeTLSKey g; TradeTLSCert := tradeTLSCert g; AppConfig := Some appConfig;
    opts_BuildData := Some (w_build world); NoOperatorTls := noOperatorTls g |}.
Definition NewGrpcService (svc : service) (fs : files) : outcome error (Iface DB K Ctx) :=
  match svc with
  | OnOnePort o => NewServiceOnePort o fs (w_macaroons world)
  | OnTwoPorts o => NewService o (w_ParseIP world) fs (w_macaroons world) (w_tls world)
  end.
Definition svc_Start (svc : service) : action (Daemon DB K Ctx S V) error () :=
  match svc with OnOnePort o => OnePort.Start o (w_iface world) | OnTwoPorts o => Interface.Start o (w_iface world) end.
Definition svc_Stop (svc : service) : action (Daemon DB K Ctx S V) error () :=
  match svc with OnOnePort o => OnePort.Stop o | OnTwoPorts o => Interface.Stop o end.

(** pkg/stats: when the log level is debug or more, EnableMemoryStatistics makes a ticker. *)
Definition DebugLevel : Z := 5.
Definition EnableMemoryStatistics (interval : Z) : outcome error () := if 0 <? interval then Ret () else Panic BadTicker.
Definition statistics (g : Loaded) : outcome error () :=
  if DebugLevel <=? logLevel g mod 2 ^ 32 then EnableMemoryStatistics (i64 (statsInterval g * 10 ^ 9)) else Ret ().

(** How far main gets: log.Fatal with its message (exit status 1), a panic, the end of main
    after Start failed (exit status 0), or serving until a signal. *)
Inductive fate :=
  | Fatal (msg : string)
  | Crashed (p : panic)
  | Returned (svc : service) (d : Daemon DB K Ctx S V)
  | Serving (g : Loaded) (svc : service) (d : Daemon DB K Ctx S V).
Definition or_fatal {A} (msg : string) (o : outcome error A) (k : A → fate) : fate :=
  match o with Ret a => k a | Err _ => Fatal msg | Panic p => Crashed p end.
Definition main (fs : files) (wallet : unlocker S V) : fate :=
  let '(fs, loaded) := loadConfig fs in
  or_fatal "failed to init config" loaded (λ g,
  or_fatal "failed to connect to ocean wallet" (w_ocean world (oceanWalletAddr g)) (λ _,
  or_fatal "failed to initialize pubsub service" (w_pubsub world (dbDir g)) (λ _,
  or_fatal "failed to initialize price feeder service" (w_feeds world (Join (datadir g) "db")) (λ _,
  let runOnOnePort := operatorSvcPort g =? tradeSvcPort g in
  let svc := grpc_service runOnOnePort g (snd (Validate (app_config g) (w_app world) no_services)) in
  or_fatal "failed to initialize grpc service" (NewGrpcService svc fs) (λ i,
  or_fatal "" (statistics g) (λ _,
  match svc_Start svc {| dm_unlocker := wallet; dm_iface := i |} with
  | (d, Ret _) => Serving g svc d
  | (d, Err _) => Returned svc d
  | (_, Panic p) => Crashed p
  end)))))).
(** A signal: log.Exit runs the handler main registered. *)
Definition on_signal (svc : service) (d : Daemon DB K Ctx S V) : Daemon DB K Ctx S V := fst (svc_Stop svc d).
End main.
Arguments Loaded D : clear implicits.

(** * Theorems *)

Section safety.
Context {D : Type} `{DecimalOps D} `{Cast}.
Context {DB : Type} `{Bolt DB} {K : Type} `{Snacl K} {Mac Ctx : Type} `{Bakery Mac Ctx} `{MapOrder}.
Context {S : Type} `{SecureStorage S} {V : Type} `{WalletManager V WalletStatus WalletInfo}.
Variable world : World DB K Ctx.

Lemma or_fatal_Serving {A} msg (o : outcome error A) (k : A → fate (D := D) (DB := DB) (K := K) (Ctx := Ctx) (S := S) (V := V)) g svc d :
  or_fatal msg o k = Serving g svc d → ∃ a, o = Ret a ∧ k a = Serving g svc d.
Proof. destruct o; cbn; intros E; try discriminate E. eauto. Qed.

Lemma below_tenth_rate m e : below_tenth (Finite m e) = false → (1 # 10 <= inject_Z m * (10 # 1) ^ e)%Q.
Proof.
  intros Hb. cbn in Hb.
  assert ((10 # 1) ^ e == (10 # 1) ^ (e + 1) * (1 # 10))%Q as ->.
  { rewrite Qpower_plus by done. change ((10 # 1) ^ 1)%Q with (10 # 1). field. }
  destruct (Z.ltb_spec (e + 1) 0) as [He|He]; apply Z.ltb_ge in Hb.
  - assert ((10 # 1) ^ (e + 1) == / inject_Z (10 ^ (- (e + 1))))%Q as ->.
    { rewrite <- (Z.opp_involutive (e + 1)) at 1. rewrite Qpower_opp, Zpower_Qpower by lia. reflexivity. }
    assert (0 < 10 ^ (- (e + 1))) as Hp by (apply Z.pow_pos_nonneg; lia).
    assert (0 < inject_Z (10 ^ (- (e + 1))))%Q as Hq by (unfold Qlt; cbn; lia).
    rewrite Qmult_assoc. change (1 # 10)%Q with (1 * (1 # 10))%Q at 1. apply Qmult_le_compat_r; [|done].
    apply Qle_shift_div_l; [done|]. rewrite Qmult_1_l. by rewrite <- Zle_Qle.
  - assert ((10 # 1) ^ (e + 1) == inject_Z (10 ^ (e + 1)))%Q as -> by (rewrite Zpower_Qpower by lia; reflexivity).
    rewrite Qmult_assoc. change (1 # 10)%Q with (1 * (1 # 10))%Q at 1. apply Qmult_le_compat_r; [|done].
    rewrite <- inject_Z_mult. change 1%Q with (inject_Z 1). by rewrite <- Zle_Qle.
Qed.

(** What the settings give when they are accepted. *)
Lemma read_settings_Ret (g : Loaded D) (env := w_environ world) (dir := w_defaultDatadir world) : read_settings world = Ret g →
  datadir g = GetString env dir DatadirKey ∧ tradeTLSKey g = GetString env dir TradeTLSKeyKey ∧ tradeTLSCert g = GetString env dir TradeTLSCertKey ∧
  ∃ m e, GetFloat env dir TxSatsPerByteKey = Finite m e ∧ satsPerByte g = NewFromFloat m e.
Proof.
  unfold read_settings. destruct (decimal_of_float (GetFloat _ _ PriceSlippageKey)); [|done..]. cbn.
  unfold decimal_of_float. destruct (GetFloat _ _ TxSatsPerByteKey) eqn:E; try done. intros [= <-]. cbn. split_and!; eauto.
Qed.
Lemma loadConfig_Ret fs fs' (g : Loaded D) : loadConfig world fs = (fs', Ret g) →
  Settings.validate (w_environ world) (w_defaultDatadir world) = Ret () ∧ read_settings world = Ret g ∧
  initDatadir (w_environ world) (w_defaultDatadir world) (w_mkdir_error world) fs = (fs', Ret ()).
Proof.
  unfold loadConfig. intros HL. apply action_bind_Ret in HL as (s1 & [] & HI & HL). unfold lift in HL. injection HL as -> HR.
  unfold InitConfig in HI. destruct (Settings.validate _ _) as [[]|e|p]; [|done..].
  destruct (initDatadir _ _ _ fs) as [s2 [[]|e|p]]; [|done..]. by injection HI as ->.
Qed.
Lemma validate_Ret env dir : Settings.validate env dir = Ret () →
  GetString env dir DatadirKey ≠ ""%string ∧
  (GetString env dir TradeTLSKeyKey = ""%string ↔ GetString env dir TradeTLSCertKey = ""%string) ∧
  below_tenth (GetFloat env dir TxSatsPerByteKey) = false ∧ IsSet env dir OceanWalletAddrKey = true.
Proof.
  unfold Settings.validate. repeat case_bool_decide; cbn; try done;
    destruct (below_tenth _); cbn; try done; destruct (IsSet _ _ _); try done; by split_and!.
Qed.

Abbreviation daemon := (Daemon DB K Ctx S V).
(** Start brings the wallet interface up, and goes on only with a password file. *)
Lemma on_iface_Ret {A} (m : action (Iface DB K Ctx) error A) (d d' : daemon) a : on_iface m d = (d', Ret a) →
  m (dm_iface d) = (dm_iface d', Ret a) ∧ dm_unlocker d' = dm_unlocker d.
Proof. unfold on_iface. destruct (m (dm_iface d)) as [i o]. by intros [= <- ->]. Qed.
Lemma unlocked_start (m : action (Iface DB K Ctx) error ()) (auto : bool) (k : string → action (Iface DB K Ctx) error ()) (d d' : daemon) :
  (_ ← on_iface m;
   if auto then mret ()
   else
     s ← get_state;
     unlocked ← try (on_wallet_svc (svc_UnlockWallet (if_password (dm_iface s))));
     match unlocked with
     | inr _ => lift (Err (Errorf "failed to auto unlock wallet: %s"))
     | inl _ => on_iface (k (if_password (dm_iface s)))
     end) d = (d', Ret ()) →
  ∃ i, m (dm_iface d) = (i, Ret ()) ∧
    if auto then d' = {| dm_unlocker := dm_unlocker d; dm_iface := i |}
    else ∃ u, svc_UnlockWallet (if_password i) (dm_unlocker d) = (u, Ret ()) ∧ dm_unlocker d' = u.
Proof.
  intros HS. apply action_bind_Ret in HS as (d1 & [] & [Hm Hu]%on_iface_Ret & HS). exists (dm_iface d1). split; [done|].
  destruct auto; [injection HS as <-; destruct d1; cbn in *; by subst|].
  apply action_bind_Ret in HS as (d2 & s & HG & HS). injection HG as <- <-.
  apply action_bind_Ret in HS as (d3 & r & HT & HS). unfold try, on_wallet_svc in HT. rewrite Hu in HT.
  destruct (svc_UnlockWallet _ _) as [u [[]|e|p]]; [|by injection HT as <- <-|done]. injection HT as <- <-.
  apply on_iface_Ret in HS as [_ HS]. by exists u.
Qed.

Lemma start_serves svc (d d' : daemon) (pw := match svc with OnOnePort o => one_WalletUnlockPasswordFile o | OnTwoPorts o => WalletUnlockPasswordFile o end) :
  if_trade (dm_iface d) = None → svc_Start world svc d = (d', Ret ()) →
  if bool_decide (pw = ""%string) then served (dm_iface d') = wallet_services ∧ dm_unlocker d' = dm_unlocker d
  else svc_UnlockWallet (if_password (dm_iface d)) (dm_unlocker d) = (dm_unlocker d', Ret ()).
Proof.
  intros Ht. destruct svc as [o|o]; cbn [svc_Start]; subst pw; intros HS; apply unlocked_start in HS as (i & Hs & HS); revert HS.
  - destruct (start_one o (w_iface world) true (dm_iface d)) as [[_ Hn]|(srv & E & Hr & Hv & _)]; rewrite Hs in *; [done|].
    injection E as ->. case_bool_decide; [intros -> | intros (u & HU & ->); exact HU].
    split; [|done]. unfold served, running. cbn. by rewrite Hr, Hv, Ht.
  - destruct (start_cases o (w_iface world) true (dm_iface d)) as [[_ Hn]|(srv & tr & E & Hr & Hv & ->)]; rewrite Hs in *; [done|].
    injection E as ->. case_bool_decide; [intros -> | intros (u & HU & ->); exact HU].
    split; [|done]. unfold served, running. cbn. by rewrite Hr, Hv.
Qed.

Lemma new_one_Ret (o : ServiceOptsOnePort) fs (mac : option (Service DB K Ctx)) i : NewServiceOnePort o fs mac = Ret i →
  isValidPort (one_Port o) = true ∧ one_AppConfig o = Some (Ret ()) ∧ if_trade i = None.
Proof.
  unfold NewServiceOnePort. destruct (OnePort.validate fs o) as [[]|e|p] eqn:HV; [|done..].
  intros HI. assert (if_trade i = None) as Ht.
  { case_bool_decide; [by injection HI as <-|]. destruct (fs !! _) as [[]|]; try done. by injection HI as <-. }
  clear HI. unfold OnePort.validate in HV. destruct (negb (pathExists fs (one_Datadir o))); [done|].
  apply bind_Ret_inv in HV as ([] & _ & HV). destruct (withTls o && _); [done|].
  destruct (isValidPort (one_Port o)); [|done]. cbn in HV. destruct (_ && _) in HV; [done|].
  destruct (one_AppConfig o) as [[[]|e|p]|]; try done; by split_and!.
Qed.
Lemma new_two_Ret (o : ServiceOpts) ip fs (mac : option (Service DB K Ctx)) tls i : NewService o ip fs mac tls = Ret i →
  isValidPort (OperatorPort o) = true ∧ isValidPort (TradePort o) = true ∧ AppConfig o = Some (Ret ()) ∧ if_trade i = None.
Proof.
  unfold NewService. destruct (Interface.validate ip fs o) as [[]|e|p] eqn:HV; [|done..].
  intros HI. assert (if_trade i = None) as Ht.
  { apply bind_Ret_inv in HI as ([] & _ & HI). case_bool_decide; [by injection HI as <-|]. destruct (fs !! _) as [[]|]; try done. by injection HI as <-. }
  clear HI. unfold Interface.validate in HV. destruct (negb (pathExists fs (Datadir o))); [done|].
  apply bind_Ret_inv in HV as ([] & _ & HV). apply bind_Ret_inv in HV as ([] & _ & HV).
  destruct (isValidPort (OperatorPort o)); [|done]. destruct (isValidPort (TradePort o)); [|done]. cbn in HV.
  destruct (negb _) in HV; [done|]. destruct (_ && _) in HV; [done|].
  destruct (AppConfig o) as [[[]|e|p]|]; try done; by split_and!.
Qed.

End safety.

(** ** Directories *)

Lemma length_app_string a b : String.length (a +:+ b) = (String.length a + String.length b)%nat.
Proof. induction a as [|c a IH]; [done|]. change (String c a +:+ b) with (String c (a +:+ b)). cbn [String.length]. rewrite IH. lia. Qed.
Lemma length_join_take n l : (String.length (join_slash (take n l)) ≤ String.length (join_slash l))%nat.
Proof.
  revert n. induction l as [|a l IH]; intros [|n]; cbn [take]; [done|done|cbn; lia|]. specialize (IH n).
  destruct l as [|b l]; [by destruct n|]. destruct n as [|n].
  { cbn [take]. change (join_slash [a]) with a. change (join_slash (a :: b :: l)) with (a +:+ "/" +:+ join_slash (b :: l)). rewrite length_app_string. lia. }
  change (join_slash (a :: take (S n) (b :: l))) with (a +:+ "/" +:+ join_slash (take (S n) (b :: l))).
  change (join_slash (a :: b :: l)) with (a +:+ "/" +:+ join_slash (b :: l)). rewrite !length_app_string. lia.
Qed.
Lemma MkdirAll_other path p fs : p ∉ way path → MkdirAll path fs !! p = fs !! p.
Proof.
  unfold MkdirAll. induction (way path) as [|d l IH]; [done|]. intros [Hd Hl]%not_elem_of_cons. cbn.
  destruct (foldr _ fs l !! d); [by apply IH|]. rewrite lookup_insert_ne by done. by apply IH.
Qed.
Lemma MkdirAll_way path p fs : p ∈ way path → is_Some (MkdirAll path fs !! p).
Proof.
  unfold MkdirAll. induction (way path) as [|d l IH]; [by intros ?%not_elem_of_nil|]. cbn.
  set (fs1 := foldr _ fs l) in *. intros [->|Hp]%elem_of_cons.
  - destruct (fs1 !! d) eqn:E; [by rewrite E|]. by rewrite lookup_insert_eq.
  - destruct (fs1 !! d) eqn:E; [by apply IH|]. destruct (decide (d = p)) as [->|]; [by rewrite lookup_insert_eq|].
    rewrite lookup_insert_ne by done. by apply IH.
Qed.

(** A path as filepath.Clean writes it, of at least one component. *)
Definition clean (d : string) : Prop :=
  d = (if is_rooted d then "/" else "") +:+ join_slash (clean_parts (is_rooted d) d) ∧ clean_parts (is_rooted d) d ≠ [].
Section clean.
Variables (d : string) (Hd : clean d).
Abbreviation parts := (clean_parts (is_rooted d) d).
Lemma rooted_app a : d ≠ ""%string → is_rooted (d +:+ a) = is_rooted d.
Proof. by destruct d. Qed.
Lemma clean_nonempty : d ≠ ""%string.
Proof. intros E. destruct Hd as [_ Hp]. by rewrite E in Hp. Qed.
Lemma parts_in a : plain a = true → clean_parts (is_rooted d) (d +:+ "/" +:+ a) = parts ++ [a].
Proof.
  intros Ha. unfold clean_parts. rewrite split_slash_app, foldl_app, (split_slash_plain a).
  - cbn [foldl]. by rewrite clean_step_plain.
  - unfold plain in Ha. rewrite !andb_true_iff in Ha. tauto.
Qed.
Lemma Join_clean a : plain a = true → Join d a = (d +:+ "/" +:+ a)%string.
Proof.
  intros Ha. unfold Join. rewrite bool_decide_false by apply clean_nonempty. cbn [negb]. unfold Clean.
  rewrite rooted_app by apply clean_nonempty. rewrite parts_in by done. rewrite join_slash_snoc.
  destruct Hd as [HE Hp].
  assert ((if is_rooted d then "/" else "") +:+ ((if parts then "" else join_slash parts +:+ "/") +:+ a) = d +:+ "/" +:+ a) as ->.
  { destruct parts as [|x l]; [done|]. rewrite string_app_assoc, <- string_app_assoc. by rewrite <- HE. }
  rewrite bool_decide_false; [done|]. by destruct d.
Qed.
Lemma way_in a : plain a = true → d ∈ way (Join d a) ∧
  ∀ p, p ∈ way (Join d a) → (String.length p ≤ String.length d + 1 + String.length a)%nat.
Proof.
  intros Ha. rewrite Join_clean by done. unfold way. rewrite rooted_app by apply clean_nonempty. rewrite parts_in by done.
  destruct Hd as [HE Hp]. split.
  - apply list_elem_of_fmap. exists (length parts). split.
    + by rewrite take_app_length.
    + apply elem_of_seq. rewrite length_app. destruct parts; [done|]. cbn. lia.
  - intros p (n & -> & _)%list_elem_of_fmap.
    pose proof (length_join_take n (parts ++ [a])) as HT. rewrite join_slash_snoc in HT.
    destruct parts as [|x l] eqn:E; [done|]. rewrite HE at 2. rewrite !length_app_string in *. cbn [String.length] in *. lia.
Qed.
End clean.

(** ** A daemon that comes up *)
Section starts.
Context {D : Type} `{DecimalOps D} `{Cast}.
Context {DB : Type} `{Bolt DB} {K : Type} `{Snacl K} {Mac Ctx : Type} `{Bakery Mac Ctx} `{MapOrder}.
Context {S : Type} `{SecureStorage S} {V : Type} `{WalletManager V WalletStatus WalletInfo}.
Variable world : World DB K Ctx.
Abbreviation env := (w_environ world).
Abbreviation dir := (w_defaultDatadir world).

(** The directories made leave paths that are longer than theirs alone. *)
Definition made (d : string) (fs fs' : files) : Prop :=
  (∀ p, (String.length d + 10 < String.length p)%nat → fs' !! p = fs !! p) ∧ (pathExists fs d = true → pathExists fs' d = true).
Lemma made_refl d fs : made d fs fs.
Proof. done. Qed.
Lemma made_trans d fs1 fs2 fs3 : made d fs1 fs2 → made d fs2 fs3 → made d fs1 fs3.
Proof. intros [HA HB] [HC HD]. split; [intros p Hp; by rewrite HC, HA | auto]. Qed.
Lemma directory_made d loc fs : clean d → plain loc = true → (String.length loc ≤ 9)%nat → w_mkdir_error world (Join d loc) = None →
  ∃ fs', makeDirectoryIfNotExists (w_mkdir_error world) (Join d loc) fs = (fs', Ret ()) ∧ made d fs fs' ∧
    (pathExists fs (Join d loc) = false → pathExists fs' d = true).
Proof.
  intros Hd Hl Hn He. unfold makeDirectoryIfNotExists. destruct (way_in d Hd loc Hl) as [Hw Hlen].
  destruct (pathExists fs (Join d loc)); [exists fs; by split_and!|]. rewrite He. eexists. split; [done|].
  pose proof (MkdirAll_way _ _ fs Hw) as Hs. split; [split|].
  - intros p Hp. apply MkdirAll_other. intros Hin%Hlen. lia.
  - intros _. by apply bool_decide_true.
  - intros _. by apply bool_decide_true.
Qed.
Lemma datadir_made fs (d := GetString env dir DatadirKey) : clean d → (∀ p, w_mkdir_error world p = None) →
  (pathExists fs (Join d DbLocation) = true → pathExists fs d = true) →
  ∃ fs', initDatadir env dir (w_mkdir_error world) fs = (fs', Ret ()) ∧ made d fs fs' ∧ pathExists fs' d = true.
Proof.
  intros Hd He Hc. unfold initDatadir, GetDatadir. fold d.
  assert (∀ (b : bool) loc fs, plain loc = true → (String.length loc ≤ 9)%nat → ∃ fs',
    (if b then mret () else makeDirectoryIfNotExists (w_mkdir_error world) (Join d loc) : action files error ()) fs = (fs', Ret ()) ∧
    made d fs fs') as Hstep.
  { intros [] loc fs1 Hl Hn; [exists fs1; by split|]. destruct (directory_made d loc fs1 Hd Hl Hn (He _)) as (fs' & E & Hm & _). by exists fs'. }
  destruct (directory_made d DbLocation fs Hd eq_refl ltac:(cbn; lia) (He _)) as (fs1 & E1 & Hm1 & Hx1).
  assert (pathExists fs1 d = true) as Hp1.
  { destruct (pathExists fs (Join d DbLocation)); [by apply Hm1, Hc | by apply Hx1]. }
  destruct (Hstep (negb (GetBool env dir EnableProfilerKey)) ProfilerLocation fs1 eq_refl ltac:(cbn; lia)) as (fs2 & E2 & Hm2).
  destruct (Hstep (GetBool env dir NoMacaroonsKey) Settings.MacaroonsLocation fs2 eq_refl ltac:(cbn; lia)) as (fs3 & E3 & Hm3).
  destruct (Hstep (GetBool env dir NoOperatorTlsKey) Settings.TLSLocation fs3 eq_refl ltac:(cbn; lia)) as (fs4 & E4 & Hm4).
  exists fs4. unfold mbind, action_bind. rewrite E1.
  replace ((if GetBool env dir EnableProfilerKey then makeDirectoryIfNotExists (w_mkdir_error world) (Join d ProfilerLocation) else mret ()) fs1)
    with (fs2, Ret () : outcome error ()) by (rewrite <- E2; by destruct (GetBool env dir EnableProfilerKey)).
  rewrite E3, E4. pose proof (made_trans _ _ _ _ Hm2 (made_trans _ _ _ _ Hm3 Hm4)) as Hm. split_and!; [done| |by apply Hm].
  by eapply made_trans.
Qed.

(** What lets the daemon come up the first time: settings that are accepted, without TLS of
    the trade interface and without a password file; a datadir without the files the daemon
    makes itself; and everything it needs from outside working. *)
Definition own_files (g : Loaded D) : list string :=
  ((λ f, Join (Join (datadir g) Settings.MacaroonsLocation) f) <$>
     [AdminMacaroonFile; ReadOnlyMacaroonFile; MarketMacaroonFile; PriceMacaroonFile]) ++
  ((λ f, Join (Join (datadir g) Settings.TLSLocation) f) <$> [OperatorTLSKeyFile; OperatorTLSCertFile]).
Record ready (fs : files) (g : Loaded D) : Prop := {
  rd_valid : Settings.validate env dir = Ret ();
  rd_read : read_settings world = Ret g;
  rd_clean : clean (datadir g);
  rd_mkdir : ∀ p, w_mkdir_error world p = None;
  rd_tree : pathExists fs (Join (datadir g) DbLocation) = true → pathExists fs (datadir g) = true;
  rd_new : ∀ p, p ∈ own_files g → fs !! p = None;
  rd_ports : isValidPort (operatorSvcPort g) = true ∧ isValidPort (tradeSvcPort g) = true;
  rd_ips : ∀ ip, ip ∈ operatorTLSExtraIPs g → w_ParseIP world ip = true;
  rd_clear : tradeTLSCert g = ""%string;
  rd_stats : statistics g = Ret ();
  rd_manual : walletUnlockPasswordFile g = ""%string;
  rd_opened : w_ocean world (oceanWalletAddr g) = Ret () ∧ w_pubsub world (dbDir g) = Ret () ∧ w_feeds world (dbDir g) = Ret ();
  rd_app : snd (Validate (app_config g) (w_app world) no_services) = Ret ();
  rd_tls : w_tls world = Ret () ∧ ∀ cert key, env_LoadX509KeyPair (w_iface world) cert key = Ret ();
  rd_server : env_operator (w_iface world) = Ret () }.

Lemma clean_Join d a : clean d → plain a = true → clean (Join d a).
Proof.
  intros Hd Ha. pose proof (clean_nonempty d Hd) as Hne. unfold clean. rewrite (Join_clean d Hd a Ha), rooted_app by done.
  rewrite parts_in by done. destruct Hd as [HE Hp]. split; [|by destruct (clean_parts _ _)].
  rewrite join_slash_snoc. destruct (clean_parts (is_rooted d) d) as [|x l] eqn:E; [done|].
  by rewrite (string_app_assoc (join_slash (x :: l))), <- (string_app_assoc _ (join_slash (x :: l))), <- HE.
Qed.
(** The files the daemon makes are not among the directories. *)
Lemma deep d loc f : clean d → plain loc = true → plain f = true →
  String.length (Join (Join d loc) f) = (String.length d + String.length loc + String.length f + 2)%nat.
Proof.
  intros Hd Hl Hf. rewrite (Join_clean _ (clean_Join _ _ Hd Hl)), (Join_clean _ Hd), !length_app_string by done. cbn [String.length]. lia.
Qed.
Lemma own_files_deep (g : Loaded D) p : clean (datadir g) → p ∈ own_files g → (String.length (datadir g) + 10 < String.length p)%nat.
Proof.
  intros Hd. unfold own_files. intros [Hp|Hp]%elem_of_app; apply list_elem_of_fmap in Hp as (f & -> & Hf).
  all: repeat (apply elem_of_cons in Hf as [->|Hf]; [rewrite deep by done; cbn; lia|]).
  all: by apply not_elem_of_nil in Hf.
Qed.
Lemma check_ips_Ret (ip : string → bool) ips : (∀ x, x ∈ ips → ip x = true) → check_ips ip ips = Ret ().
Proof.
  induction ips as [|x ips IH]; intros Hip; [done|]. cbn. rewrite Hip by apply list_elem_of_here. apply IH.
  intros y Hy. by apply Hip, list_elem_of_further.
Qed.

(** The options the daemon is given pass the validation of either interface. *)
Lemma options_pass fs fs' (g : Loaded D) : ready fs g → made (datadir g) fs fs' → pathExists fs' (datadir g) = true →
  ∃ i, NewGrpcService world (grpc_service world (operatorSvcPort g =? tradeSvcPort g) g
    (snd (Validate (app_config g) (w_app world) no_services))) fs' = Ret i ∧ if_trade i = None.
Proof.
  intros R [Hsame _] Hdir. rewrite (rd_app _ _ R). destruct (rd_ports _ _ R) as [Hp1 Hp2].
  assert (∀ p, p ∈ own_files g → pathExists fs' p = false) as Hno.
  { intros p Hp. apply bool_decide_false. rewrite Hsame by (by apply own_files_deep; [apply (rd_clean _ _ R)|]).
    rewrite (rd_new _ _ R) by done. by intros []. }
  assert (∀ f, f ∈ [AdminMacaroonFile; ReadOnlyMacaroonFile; MarketMacaroonFile; PriceMacaroonFile] →
    pathExists fs' (Join (Join (datadir g) Settings.MacaroonsLocation) f) = false) as Hm.
  { intros f Hf. apply Hno. unfold own_files. apply elem_of_app. left. apply list_elem_of_fmap. by exists f. }
  assert (tradeTLSKey g = ""%string) as Hk.
  { destruct (read_settings_Ret _ _ (rd_read _ _ R)) as (_ & -> & Hc & _). rewrite (rd_clear _ _ R) in Hc.
    by apply (validate_Ret _ _ (rd_valid _ _ R)). }
  unfold grpc_service. destruct (_ =? _); cbn [NewGrpcService].
  - unfold NewServiceOnePort, OnePort.validate, OnePort.macaroonsDatadir, withTls. cbn.
    rewrite Hdir, (rd_clear _ _ R), Hp2, (rd_manual _ _ R), !Hm by set_solver. cbn.
    destruct (noMacaroons g); cbn; by eexists.
  - unfold NewService, Interface.validate, Interface.macaroonsDatadir, tlsDatadir. cbn.
    rewrite Hdir, (rd_clear _ _ R), Hk, Hp1, Hp2, (rd_manual _ _ R), !Hm by set_solver. cbn.
    rewrite (Hno (Join (Join (datadir g) Settings.TLSLocation) OperatorTLSCertFile)).
    2: { unfold own_files. apply elem_of_app. right. apply list_elem_of_fmap. exists OperatorTLSCertFile. set_solver. }
    rewrite andb_false_r, (check_ips_Ret _ _ (rd_ips _ _ R)). destruct (rd_tls _ _ R) as [-> _].
    rewrite eqb_reflx. destruct (noMacaroons g), (noOperatorTls g); cbn; by eexists.
Qed.
Lemma tls_loads (o : ServiceOpts) env : (∀ cert key, env_LoadX509KeyPair env cert key = Ret ()) →
  ∃ b, operatorTLSConfig o env = Ret b.
Proof.
  intros Hload. unfold operatorTLSConfig, getTlsConfig, operatorTLSKey, operatorTLSCert. destruct (NoOperatorTls o); [by eexists|].
  destruct (Join_plain (tlsDatadir o)) as [pre Hp]. rewrite !Hp by done. rewrite Hload, !bool_decide_false by (by apply app_nonempty).
  cbn. by eexists.
Qed.
Lemma service_starts fs (g : Loaded D) (d : Daemon DB K Ctx S V) app : ready fs g →
  ∃ d', svc_Start world (grpc_service world (operatorSvcPort g =? tradeSvcPort g) g app) d = (d', Ret ()).
Proof.
  intros R. destruct (rd_tls _ _ R) as [_ Hload]. unfold grpc_service. destruct (_ =? _); cbn [svc_Start].
  - unfold OnePort.Start, OnePort.start, tlsConfig, newServer, withTls, on_iface, lift, mbind, action_bind. cbn.
    rewrite (rd_clear _ _ R). cbn. rewrite (rd_server _ _ R). cbn. rewrite (rd_manual _ _ R). cbn. by eexists.
  - unfold Interface.Start, Interface.start, newOperatorServer, on_iface, lift, mbind, action_bind.
    match goal with |- context [operatorTLSConfig ?o ?e] => destruct (tls_loads o e Hload) as [b ->] end.
    rewrite (rd_server _ _ R). cbn. rewrite (rd_manual _ _ R). cbn. by eexists.
Qed.

End starts.

(** ** Consequences *)
Section consequences.
Context {D : Type} `{DecimalOps D} `{Cast}.
Context {DB : Type} `{Bolt DB} {K : Type} `{Snacl K} {Mac Ctx : Type} `{Bakery Mac Ctx} `{MapOrder}.
Context {S : Type} `{SecureStorage S} {V : Type} `{WalletManager V WalletStatus WalletInfo}.
Variable world : World DB K Ctx.

(** On one port the TLS of the operator interface is that of the trade interface, whatever
    the settings say of the operator's. *)
Lemma one_port_in_clear fs u (g : Loaded D) svc (d : Daemon DB K Ctx S V) :
  main world fs u = Serving g svc d → operatorSvcPort g = tradeSvcPort g → tradeTLSCert g = ""%string →
  walletUnlockPasswordFile g = ""%string →
  ∃ srv, if_operator (dm_iface d) = Some srv ∧ srv_running srv = true ∧ srv_tls srv = false.
Proof.
  unfold main. destruct (loadConfig world fs) as [fs' loaded]. intros HM Hp Hc Hw.
  apply or_fatal_Serving in HM as (g' & -> & HM). do 3 (apply or_fatal_Serving in HM as ([] & _ & HM)). cbv zeta in HM.
  apply or_fatal_Serving in HM as (i & _ & HM). apply or_fatal_Serving in HM as ([] & _ & HM).
  destruct (svc_Start _ _ _) as [d' [[]|e|p]] eqn:HS in HM; try discriminate HM. injection HM as -> <- ->.
  rewrite Hp, Z.eqb_refl in HS. cbn [grpc_service svc_Start] in HS. apply unlocked_start in HS as (i1 & Hs & HS). cbn in HS.
  rewrite Hw in HS. cbn in HS. rewrite HS. clear HS.
  match type of Hs with OnePort.start ?o ?e _ _ = _ => destruct (start_one o e true i) as [[_ Hn]|(srv & E & Hr & _ & Ht & _)] end;
    cbn [dm_iface] in Hs; rewrite Hs in *; [done|].
  injection E as ->. exists srv. split_and!; [done|done|]. rewrite Ht. unfold withTls. cbn. by rewrite Hc.
Qed.
End consequences.

(** * Examples *)
Module DaemonExamples.
Import SecureStoreExamples PubsubExamples MacaroonExamples AppExamples.
#[local] Existing Instance InterfaceExamples.toy_wallet.
#[local] Existing Instance Fixed.ops.

#[local] Instance toy_cast : Cast := {
  ToInt x := match x with SInt z => z | _ => 0 end; ToFloat64 x := match x with SFloat f => f | _ => Finite 0 0 end;
  ToBool x := match x with SBool b => b | SString s => bool_decide (s = "true"%string) | _ => false end;
  ToString x := match x with SString s => s | _ => ""%string end; ToStringSlice x := match x with SString s => [s] | _ => [] end }.
Definition world0 : World tree key ctx := {|
  w_environ := {["TDEX_WALLET_ADDR"%string := "localhost:18000"%string]}; w_defaultDatadir := "/home/tdex"; w_mkdir_error _ := None;
  w_ocean _ := Ret (); w_pubsub _ := Ret (); w_feeds _ := Ret (); w_app := all_well; w_tls := Ret (); w_ParseIP _ := true;
  w_macaroons := Some svc0; w_iface := InterfaceExamples.ok_env; w_build := InterfaceExamples.build |}.
Definition loaded0 : Loaded Fixed.t :=
  match read_settings world0 with
  | Ret g => g
  | _ => {| logLevel := 0; tradeSvcPort := 0; operatorSvcPort := 0; statsInterval := 0; noMacaroons := true; noOperatorTls := true;
            profilerEnabled := false; datadir := ""; dbDir := ""; profilerDir := ""; tradeTLSKey := ""; tradeTLSCert := "";
            walletUnlockPasswordFile := ""; dbType := ""; oceanWalletAddr := ""; connectAddr := ""; connectProto := "";
            operatorTLSExtraIPs := []; operatorTLSExtraDomains := []; feeBalanceThreshold := 0;
            pricesSlippagePercentage := NewFromInt 0; satsPerByte := NewFromInt 0 |}
  end.
(** The default settings, with a wallet, on an empty disk. *)
Lemma ready0 : ready world0 ∅ loaded0.
Proof.
  split.
  all: first [ done | by split_and! | vm_compute; reflexivity | split_and!; vm_compute; reflexivity
             | split; [vm_compute; reflexivity | intros E; vm_compute in E; discriminate E] ].
Qed.

(** With a password file. *)
Definition world1 : World tree key ctx := {|
  w_environ := {["TDEX_WALLET_ADDR"%string := "localhost:18000"%string; "TDEX_NO_MACAROONS"%string := "true"%string;
                 "TDEX_WALLET_UNLOCK_PASSWORD_FILE"%string := "/pw"%string]};
  w_defaultDatadir := "/home/tdex"; w_mkdir_error _ := None;
  w_ocean _ := Ret (); w_pubsub _ := Ret (); w_feeds _ := Ret (); w_app := all_well; w_tls := Ret (); w_ParseIP _ := true;
  w_macaroons := None; w_iface := InterfaceExamples.ok_env; w_build := InterfaceExamples.build |}.
Definition disk (password : string) : files := {["/pw"%string := Regular (string_bytes password ++ [10]) 384]}.
Definition start1 (password : string) := main (D := Fixed.t) world1 (disk password) InterfaceExamples.u0.


(** A password the wallet refuses: main returns with the wallet interface up and nothing
    closed. *)
Example failed_start_not_stopped :
  match start1 "wrong" with
  | Returned _ d => served (dm_iface d) = wallet_services ∧ if_closed (dm_iface d) = []
  | _ => False
  end.
Proof. vm_compute. split; reflexivity. Qed.
End DaemonExamples.
End Tdexd.
