(* ===== verification/Cli.v ===== *)
(** The operator's command line: cmd/tdex.

    Its state is a file of settings beside the certificate and the macaroon it was given.
    A command reads the settings, dials the daemon as they say and makes one call; [call]
    is the request it sends.  The flags of a command are the record [Flags], the state file
    is written with the codec [StateCodec], and addresses, PEM blocks and macaroons are
    read by the libraries of class [CliLib]. *)

From Stdlib Require Import ZArith Lia Ascii.
From stdpp Require Import base tactics strings list gmap.
From S2P Require Import Prelude Errors Decimal Market Trade Exchange Repos SecureStore Pubsub Macaroons SwapMsg Wallet TradeService Report Calendar Requests Operator TxEvents Listing Handlers Webhooks AdminHandlers Interface CoinSelection TradeClient OceanWallet Migration Explorer ElementsNode TdexConnect.
Local Open Scope Z_scope.

(** * config.go, main.go: the state *)

Definition noMacaroonsKey : string := "no_macaroons".
Definition macaroonsPathKey : string := "macaroons_path".
Definition tlsCertPathKey : string := "tls_cert_path".
Definition noTlsKey : string := "no_tls".
Definition defaultRPCServer : string := "localhost:9000".

(** strconv.ParseBool and strconv.FormatBool *)
Definition ParseBool (s : string) : option bool :=
  if bool_decide (s ∈ ["1"; "t"; "T"; "TRUE"; "true"; "True"]%string) then Some true
  else if bool_decide (s ∈ ["0"; "f"; "F"; "FALSE"; "false"; "False"]%string) then Some false
  else None.
Definition FormatBool (b : bool) : string := if b then "true" else "false".

Abbreviation settings := (gmap string string).
(** encoding/json of a map of texts. *)
Class StateCodec := {
  state_Marshal : settings → bytes;
  state_Unmarshal : bytes → option settings;
}.
Class StateCodecLaws `{StateCodec} : Prop := { state_roundtrip m : state_Unmarshal (state_Marshal m) = Some m }.
Class CliLib := {
  pem_EncodeCertificate : bytes → bytes;            (* pem.Encode of a block of type CERTIFICATE *)
  tls_Certificate : bytes → bool;                   (* credentials.NewClientTLSFromFile: whether it is one *)
  mac_Unmarshal : bytes → bool;                     (* macaroon.UnmarshalBinary: whether it is one *)
  ToOutputScript : string → option bytes;
  FromConfidential : string → option bytes;         (* the blinding key *)
  cli_json : string → option json;                  (* json.Unmarshal *)
  filepath_Match : string → string → bool;
  ExpandEnv : string → string;
}.

Section state.
Context `{StateCodec, CliLib}.
(** The datadir of the CLI and that of the daemon, the home directory, and the writes
    that fail, which leave the file as it was. *)
Record CliEnv := { tdexDataDir : string; daemonDatadir : string; homeDir : string; defaultNetwork : string;
  write_error : string → option error }.
Variable env : CliEnv.
Abbreviation act := (action files error).

Definition statePath : string := Join (tdexDataDir env) "state.json".
Definition initialState : settings := list_to_map [
  ("network", defaultNetwork env); ("rpcserver", defaultRPCServer); (noMacaroonsKey, FormatBool false);
  (tlsCertPathKey, Join (Join (daemonDatadir env) "tls") "cert.pem");
  (macaroonsPathKey, Join (Join (daemonDatadir env) "macaroons") "admin.macaroon")]%string.

(** os.ReadFile: [None] when the file does not exist. *)
Definition ReadFile (path : string) : act (option bytes) := λ fs,
  (fs, match fs !! path with
       | None => Ret None
       | Some (Regular c _) => Ret (Some c)
       | Some _ => Err (Errorf "read error")
       end).
Definition WriteFile (path : string) (content : bytes) (perms : Z) : act () := λ fs,
  match write_error env path with
  | Some e => (fs, Err e)
  | None => (<[path := Regular content (match fs !! path with Some (Regular _ m) => m | _ => perms end)]> fs, Ret ())
  end.
Definition Remove (path : string) : act () := λ fs, (delete path fs, Ret ()).

Definition setInitialState : act () := WriteFile statePath (state_Marshal initialState) 493 (* 0755 *).
Definition getState : act settings :=
  file ← ReadFile statePath;
  match file with
  | None => _ ← setInitialState; mret initialState
  | Some file => lift (match state_Unmarshal file with Some data => Ret data | None => new_error "unmarshal" end)
  end.
(** A later map wins. *)
Definition merge_settings (current data : settings) : settings := data ∪ current.
(** [data[key] = "" if the value of flag is true] *)
Definition blank_if (flag path : string) (data : settings) : outcome error settings :=
  match data !! flag with
  | None => Ret data
  | Some v => match ParseBool v with
              | None => new_error "invalid bool value for %s: %s"
              | Some true => Ret (<[path := ""%string]> data)
              | Some false => Ret data
              end
  end.
Definition write_state (mergedData : settings) : act () := λ fs,
  match WriteFile statePath (state_Marshal mergedData) 493 fs with
  | (fs, Err _) => (fs, Err (Errorf "writing to file: %w"))
  | r => r
  end.
Definition setState (data : settings) : act () :=
  currentData ← getState;
  data ← lift (blank_if noMacaroonsKey macaroonsPathKey data);
  data ← lift (blank_if noTlsKey tlsCertPathKey data);
  write_state (merge_settings currentData data).

(** strings.HasPrefix(path, "~") and the replacement of the first ~ *)
Definition expand_home (path : string) : string :=
  match path with
  | String c rest => if Ascii.eqb c "~" then (homeDir env +:+ rest)%string else path
  | EmptyString => path
  end.
Definition cleanAndExpandPath (path : string) : string :=
  if bool_decide (path = ""%string) then ""%string else Clean (ExpandEnv (expand_home path)).

(** main: the datadir of the environment variable TDEX_OPERATOR_DATADIR, made if it is
    missing. *)
Definition initCLIEnv (TDEX_OPERATOR_DATADIR : string) : CliEnv :=
  let dataDir := cleanAndExpandPath TDEX_OPERATOR_DATADIR in
  if bool_decide (dataDir = ""%string) then env
  else {| tdexDataDir := dataDir; daemonDatadir := daemonDatadir env; homeDir := homeDir env;
          defaultNetwork := defaultNetwork env; write_error := write_error env |}.
Definition app_Before (mkdir_error : option error) : act () := λ fs,
  match fs !! tdexDataDir env, mkdir_error with
  | Some _, _ => (fs, Ret ())
  | None, Some e => (fs, Err e)
  | None, None => (<[tdexDataDir env := Directory]> fs, Ret ())
  end.

(** ** The connection *)
Inductive transport := Insecure | SystemTls | PinnedTls (cert : bytes).
(** The macaroon a call carries, and whether it needs TLS. *)
Record conn := { cn_address : string; cn_transport : transport; cn_macaroon : option (bytes * bool) }.
Definition setting (state : settings) (k : string) : string := default ""%string (state !! k).
Definition is_set (state : settings) (k : string) : bool := default false (ParseBool (setting state k)).
Definition dial_transport (state : settings) (noTls : bool) : act transport :=
  if noTls then mret Insecure
  else
    let certPath := setting state tlsCertPathKey in
    if bool_decide (certPath = ""%string) then mret SystemTls
    else
      file ← try (ReadFile certPath);
      match file with
      | inl (Some c) => if tls_Certificate c then mret (PinnedTls c) else lift (new_error "could not read TLS certificate:  %s")
      | _ => lift (new_error "could not read TLS certificate:  %s")
      end.
Definition dial_macaroon (state : settings) (noTls skipMacaroon : bool) : act (option (bytes * bool)) :=
  if is_set state noMacaroonsKey || skipMacaroon then mret None
  else
    match state !! macaroonsPathKey with
    | None => lift (new_error "macaroons filepath is missing")
    | Some macPath =>
        file ← try (ReadFile macPath);
        match file with
        | inl (Some macBytes) =>
            if mac_Unmarshal macBytes then mret (Some (macBytes, negb noTls)) else lift (new_error "could not parse macaroon %s: %s")
        | _ => lift (new_error "could not read macaroon %s: %s")
        end
    end.
Definition getClientConn (skipMacaroon : bool) : act conn :=
  state ← getState;
  match state !! "rpcserver"%string with
  | None => lift (new_error "set rpcserver with `config set rpcserver`")
  | Some address =>
      let noTls := is_set state noTlsKey in
      t ← dial_transport state noTls;
      m ← dial_macaroon state noTls skipMacaroon;
      mret {| cn_address := address; cn_transport := t; cn_macaroon := m |}
  end.
Definition getMarketFromState : act pb_Market :=
  state ← getState;
  match state !! "base_asset"%string, state !! "quote_asset"%string with
  | None, _ => lift (new_error "set base asset with `config set base_asset`")
  | _, None => lift (new_error "set quote asset with `config set quote_asset`")
  | Some b, Some q => mret {| pbm_BaseAsset := b; pbm_QuoteAsset := q |}
  end.

(** ** Commands of the configuration *)

(** The flags of a command as urfave/cli gives them: the value given, or the default of the
    flag; and the arguments. *)
Record Flags := {
  f_String : string → string; f_Bool : string → bool; f_Int : string → Z; f_Int64 : string → Z; f_Uint : string → Z; f_Uint64 : string → Z;
  f_Float64 : string → float64; f_StringSlice : string → list string; f_IsSet : string → bool; f_Args : list string }.
Variable ctx : Flags.
Definition arg (n : nat) : string := default ""%string (f_Args ctx !! n).

Definition configAction : act settings := getState.
Definition configInitAction : act () := setState (list_to_map [
  ("network", f_String ctx "network"); ("rpcserver", f_String ctx "rpcserver"); (noMacaroonsKey, f_String ctx "no-macaroons");
  (noTlsKey, f_String ctx "no-tls"); (tlsCertPathKey, cleanAndExpandPath (f_String ctx "tls-cert-path"));
  (macaroonsPathKey, cleanAndExpandPath (f_String ctx "macaroons-path"))]%string).
Definition configSetAction : act () :=
  if (length (f_Args ctx) <? 2)%nat then lift (new_error "key and value are missing")
  else
    let key := arg 0 in
    let value := arg 1 in
    if bool_decide (value = ""%string) then lift (new_error "value must not be an empty string")
    else setState {[key := value]}.

Definition or_message (msg : string) (m : act ()) : act () := λ fs,
  match m fs with (fs, Err _) => (fs, Err (Errorf msg)) | r => r end.
(** [defer func() { if err != nil { os.Remove(path) } }] *)
Definition removing (path : string) (m : act ()) : act () := λ fs,
  match m fs with
  | (fs, Err e) => ((if bool_decide (path = ""%string) then fs else delete path fs), Err e)
  | r => r
  end.
Definition in_datadir (content : bytes) (name : string) : string :=
  if bool_decide (content = []) then ""%string else Join (tdexDataDir env) name.
Definition kept_file (path : string) (content : bytes) (msg : string) : act () := λ fs,
  if bool_decide (path = ""%string) then (fs, Ret ()) else or_message msg (WriteFile path content 420) fs.
Definition configConnectAction `{ConnectLib} : act () :=
  let connectUrl := arg 0 in
  if bool_decide (connectUrl = ""%string) then lift (new_error "tdexdconnect URI is missing")
  else
    r ← lift (Decode connectUrl);
    let '(rpcServerAddr, proto, certificate, macaroon) := r in
    let tlsCertPath := in_datadir certificate "cert.pem" in
    _ ← kept_file tlsCertPath (pem_EncodeCertificate certificate) "failed to write certificate to file: %s";
    removing tlsCertPath (
      let macaroonsPath := in_datadir macaroon "admin.macaroon" in
      _ ← kept_file macaroonsPath macaroon "failed to write macaroon to file: %s";
      removing macaroonsPath (
        let noMacaroons := FormatBool (bool_decide (certificate = []) && bool_decide (macaroon = [])) in
        setState (list_to_map [
          ("proto", proto); ("no_tls", FormatBool (bool_decide (proto = "http"%string))); ("rpcserver", rpcServerAddr);
          ("no_macaroons", noMacaroons); ("tls_cert_path", tlsCertPath); ("macaroons_path", macaroonsPath)]%string))).

(** * The calls *)

(** One call of the daemon; InitWallet and AddPriceFeed without what the daemon adds. *)
Inductive call :=
  | ToOperator (r : OperatorRequest)
  | GetMarketReportCall (market : pb_Market) (range : pb_TimeRange)
  | ToWallet (r : WalletRequest)
  | InitWalletCall (password : string) (seed : list string) (restore : bool)
  | ToFeeder (r : FeederRequest)
  | AddPriceFeedCall (market : pb_Market) (source ticker : string)
  | AddWebhookCall (w : pb_AddWebhook)
  | RemoveWebhookCall (id : string)
  | ListWebhooksCall (event : Z)
  | SupportedContentTypesCall.
Definition called (skipMacaroon : bool) (c : act call) : act (conn * call) :=
  client ← getClientConn skipMacaroon; r ← c; mret (client, r).
Definition operator (c : act OperatorRequest) : act (conn * call) := called false (r ← c; mret (ToOperator r)).
Definition wallet_call (r : WalletRequest) : act (conn * call) := called true (mret (ToWallet r)).
Definition feeder_call (r : FeederRequest) : act (conn * call) := called false (mret (ToFeeder r)).

(** ** The wallet *)
Definition genSeedAction := wallet_call GenSeedRequest.
Definition unlockWalletAction := wallet_call (UnlockWalletRequest (f_String ctx "password")).
Definition lockWalletAction := wallet_call (LockWalletRequest (f_String ctx "password")).
Definition changePasswordAction :=
  wallet_call (ChangePasswordRequest (f_String ctx "current-password") (f_String ctx "new-password")).
Definition infoAction := wallet_call GetInfoRequest.
Definition getStatusAction := wallet_call GetStatusRequest.
(** initWalletAction sends an empty request unless both the password and the seed are given. *)
Definition init_request : call :=
  let password := f_String ctx "password" in
  let seed := f_String ctx "seed" in
  if negb (bool_decide (password = ""%string)) && negb (bool_decide (seed = ""%string))
  then InitWalletCall password (strings_Split space seed) (f_Bool ctx "restore")
  else InitWalletCall "" [] false.
(** filepath.Dir *)
Definition Dir (path : string) : string :=
  match rev (split_slash path) with
  | [] | [_] => Clean ""
  | _ :: init => Clean (join_slash (rev init) +:+ "/")
  end.
(** The messages of the stream until it ends, perhaps with an error, with the settings read
    before the call. *)
Fixpoint init_messages (state : settings) (messages : list string) (ended : option error) : act () :=
  match messages with
  | [] => match ended with None => mret () | Some err => lift (Err err) end
  | message :: messages =>
      match hex_Decode message with
      | Ret macaroon =>
          _ ← (if filepath_Match (tdexDataDir env) (Dir (setting state "tls_cert_path"))
               then
                 let macPath := Join (tdexDataDir env) "admin.macaroon" in
                 _ ← or_message "failed to write macaroon to file: %s" (WriteFile macPath macaroon 420);
                 or_message "an error occurred while setting 'macaroons_path' in config: %s" (setState {["macaroons_path"%string := macPath]})
               else mret () : act ());
          init_messages state messages ended
      | _ => init_messages state messages ended
      end
  end.
Definition initWalletAction (serve : conn → call → act (list string * option error)) : act () :=
  client ← getClientConn true;
  state ← getState;
  stream ← serve client init_request;
  init_messages state (fst stream) (snd stream).

(** ** Accounts *)
Definition feeBalanceAction := operator (mret GetFeeBalanceRequest).
Definition feeDepositAction := operator (mret (DeriveFeeAddressesRequest (f_Int64 ctx "num-of-addresses"))).
Definition feeListAddressesAction := operator (mret ListFeeAddressesRequest).
Definition feeFragmenterBalanceAction := operator (mret GetFeeFragmenterBalanceRequest).
Definition feeFragmenterDepositAction := operator (mret (DeriveFeeFragmenterAddressesRequest (f_Int64 ctx "num-of-addresses"))).
Definition feeFragmenterListAddressesAction := operator (mret ListFeeFragmenterAddressesRequest).
Definition feeFragmenterSplitFundsAction := operator (mret (FeeFragmenterSplitFundsRequest (f_Int ctx "num-fragments" mod 2 ^ 32) 0)).
Definition marketFragmenterBalanceAction := operator (mret GetMarketFragmenterBalanceRequest).
Definition marketFragmenterDepositAction := operator (mret (DeriveMarketFragmenterAddressesRequest (f_Int64 ctx "num-of-addresses"))).
Definition marketFragmenterListAddressesAction := operator (mret ListMarketFragmenterAddressesRequest).
Definition marketFragmenterSplitFundsAction :=
  operator (m ← getMarketFromState; mret (MarketFragmenterSplitFundsRequest (Some m) 0)).

(** parseOutputs of marketfragmenter.go: [rr[k] != nil] and the type assertion. *)
Definition present (o : list (string * json)) (k : string) : option json :=
  match field o k with Some JNull | None => None | Some j => Some j end.
(** The variables of the loop over the receivers of one flag. *)
Record pending := { pd_asset : string; pd_script : string; pd_blindKey : string; pd_amount : Z }.
Definition no_receiver : pending := {| pd_asset := ""; pd_script := ""; pd_blindKey := ""; pd_amount := 0 |}.
Definition read_asset (o : list (string * json)) (p : pending) : outcome error pending :=
  match present o "asset" with
  | None => Ret p
  | Some j => a ← must (as_string (Some j));
      Ret {| pd_asset := a; pd_script := pd_script p; pd_blindKey := pd_blindKey p; pd_amount := pd_amount p |}
  end.
Definition read_address (o : list (string * json)) (p : pending) : outcome error pending :=
  match present o "address" with
  | None => Ret p
  | Some j =>
      addr ← must (as_string (Some j));
      match ToOutputScript addr with
      | None => new_error "failed to parse receiver with addr %s: %s"
      | Some script =>
          Ret {| pd_asset := pd_asset p; pd_script := hex_Encode script;
                 pd_blindKey := match FromConfidential addr with Some k => hex_Encode k | None => pd_blindKey p end;
                 pd_amount := pd_amount p |}
      end
  end.
Definition read_amount (o : list (string * json)) (p : pending) : outcome error pending :=
  match present o "amount" with
  | None => Ret p
  | Some (JNumber m e) => Ret {| pd_asset := pd_asset p; pd_script := pd_script p; pd_blindKey := pd_blindKey p;
                                 pd_amount := float_uint64 (ParseFloat (m, e)) |}
  | Some _ => Panic TypeAssertion
  end.
Definition read_receiver (o : list (string * json)) (p : pending) : outcome error pending :=
  p ← read_asset o p; p ← read_address o p; read_amount o p.
Definition output_of (p : pending) : output := {|
  o_asset := pd_asset p; o_amount := pd_amount p; o_script := pd_script p; o_blindKey := pd_blindKey p |}.
Fixpoint read_receivers (l : list (list (string * json))) (p : pending) : outcome error (list output) :=
  match l with
  | [] => Ret []
  | o :: l => p ← read_receiver o p; outs ← read_receivers l p; Ret (output_of p :: outs)
  end.
(** [[]map[string]interface{}]: an array of objects; null is an empty one. *)
Fixpoint objects (l : list json) : option (list (list (string * json))) :=
  match l with
  | [] => Some []
  | JObject o :: l => os ← objects l; Some (o :: os)
  | JNull :: l => os ← objects l; Some ([] :: os)
  | _ :: _ => None
  end.
Definition receivers_of (r : string) : option (list (list (string * json))) :=
  match cli_json r with Some (JArray l) => objects l | Some JNull => Some [] | _ => None end.
Fixpoint parseOutputs (receivers : list string) : outcome error (list output) :=
  match receivers with
  | [] => Ret []
  | r :: receivers =>
      match receivers_of r with
      | None => new_error "failed to parse receivers: %s"
      | Some l => outs ← read_receivers l no_receiver; rest ← parseOutputs receivers; Ret (outs ++ rest)
      end
  end.
Definition withdrawal (req : list output → Z → string → OperatorRequest) : act OperatorRequest :=
  outputs ← lift (parseOutputs (f_StringSlice ctx "receivers"));
  mret (req outputs (f_Uint64 ctx "millisats-per-byte") (f_String ctx "password")).
Definition feeWithdrawAction := operator (withdrawal WithdrawFeeRequest).
Definition feeFragmenterWithdrawAction := operator (withdrawal WithdrawFeeFragmenterRequest).
Definition marketFragmenterWithdrawAction := operator (withdrawal WithdrawMarketFragmenterRequest).
Definition marketWithdrawAction := operator (m ← getMarketFromState; withdrawal (WithdrawMarketRequest (Some m))).

(** ** Markets *)
Definition newMarketAction : act (conn * call) :=
  let strategy := f_String ctx "strategy" in
  let strategyType :=
    if bool_decide (lower strategy = "pluggable"%string) then STRATEGY_TYPE_PLUGGABLE
    else if bool_decide (lower strategy = "balanced"%string) then STRATEGY_TYPE_BALANCED
    else STRATEGY_TYPE_UNSPECIFIED in
  operator (mret (NewMarketRequest
    (Some {| pbm_BaseAsset := f_String ctx "base-asset"; pbm_QuoteAsset := f_String ctx "quote-asset" |})
    (Some {| pbf_BaseAsset := i64 (f_Uint64 ctx "percentage-base-fee"); pbf_QuoteAsset := i64 (f_Uint64 ctx "percentage-quote-fee") |})
    (Some {| pbf_BaseAsset := i64 (f_Uint64 ctx "fixed-base-fee"); pbf_QuoteAsset := i64 (f_Uint64 ctx "fixed-quote-fee") |})
    (f_Uint ctx "base-asset-precision" mod 2 ^ 32) (f_Uint ctx "quote-asset-precision" mod 2 ^ 32) strategyType (f_String ctx "name"))).
(** A request about the market of the state. *)
Definition about_market (req : option pb_Market → OperatorRequest) : act (conn * call) :=
  operator (m ← getMarketFromState; mret (req (Some m))).
Definition marketInfoAction := about_market GetMarketInfoRequest.
Definition marketDepositAction := about_market (λ m, DeriveMarketAddressesRequest m (f_Int64 ctx "num-of-addresses")).
Definition marketListAddressesAction := about_market ListMarketAddressesRequest.
Definition marketOpenAction := about_market OpenMarketRequest.
Definition marketCloseAction := about_market CloseMarketRequest.
Definition marketDropAction := about_market DropMarketRequest.
Definition fee_flags : pb_MarketFee := {| pbf_BaseAsset := f_Int64 ctx "base-fee"; pbf_QuoteAsset := f_Int64 ctx "quote-fee" |}.
Definition marketUpdateFixedFeeAction := about_market (λ m, UpdateMarketFixedFeeRequest m (Some fee_flags)).
Definition marketUpdatePercentageFeeAction := about_market (λ m, UpdateMarketPercentageFeeRequest m (Some fee_flags)).
(** [int32(x)] *)
Definition i32 (z : Z) : Z := (z + 2 ^ 31) mod 2 ^ 32 - 2 ^ 31.
Definition marketUpdateAssetsPrecision :=
  about_market (λ m, UpdateMarketAssetsPrecisionRequest m (i32 (f_Int ctx "base-asset")) (i32 (f_Int ctx "quote-asset"))).
Definition marketUpdatePriceAction := about_market (λ m, UpdateMarketPriceRequest m
  (Some {| pbp_BasePrice := f_Float64 ctx "base-price"; pbp_QuotePrice := f_Float64 ctx "quote-price" |})).
Definition marketUpdateStrategyAction : act (conn * call) :=
  operator (
    m ← getMarketFromState;
    let pluggable := f_Bool ctx "pluggable" in
    let balanced := f_Bool ctx "balanced" in
    if pluggable && balanced then lift (new_error "only one strategy type must be specified")
    else if negb pluggable && negb balanced then lift (new_error "missing strategy type")
    else mret (UpdateMarketStrategyRequest (Some m) (if balanced then STRATEGY_TYPE_BALANCED else STRATEGY_TYPE_PLUGGABLE))).
(** The flag of each period, ranged over as Go ranges over the map. *)
Definition period_flags : list (Z * bool) := [
  (PERIOD_LAST_HOUR, f_Bool ctx "last-hour"); (PERIOD_LAST_DAY, f_Bool ctx "last-day"); (PERIOD_LAST_MONTH, f_Bool ctx "last-month");
  (PERIOD_LAST_THREE_MONTHS, f_Bool ctx "last-three-months"); (PERIOD_LAST_YEAR, f_Bool ctx "last-year");
  (PERIOD_YEAR_TO_DATE, f_Bool ctx "year-to-date"); (PERIOD_ALL, f_Bool ctx "all")]%string.
Context `{MapOrder}.
Fixpoint last_period (pp : list (Z * bool)) (found : Z * nat) : Z * nat :=
  match pp with
  | [] => found
  | (period, isSet) :: pp => last_period pp (if isSet then (period, S (snd found)) else found)
  end.
Definition report_range : outcome error pb_TimeRange :=
  let start := f_String ctx "start" in
  let end_ := f_String ctx "end" in
  if negb (eqb (f_IsSet ctx "start") (f_IsSet ctx "end")) then new_error "both start and end dates must defined for a custom period"
  else if negb (bool_decide (start = ""%string)) && negb (bool_decide (end_ = ""%string))
  then Ret {| pbt_Predefined := PERIOD_UNSPECIFIED; pbt_Custom := Some (start, end_) |}
  else
    let '(predefinedPeriod, count) := last_period (range_order period_flags) (PERIOD_UNSPECIFIED, 0%nat) in
    if (count =? 0)%nat then new_error "missing time range, specifiy either a predefined or a custom one"
    else if (1 <? count)%nat then new_error "only one predefined period must be specified"
    else Ret {| pbt_Predefined := predefinedPeriod; pbt_Custom := None |}.
Definition marketReportAction : act (conn * call) :=
  called false (m ← getMarketFromState; range ← lift report_range; mret (GetMarketReportCall m range)).

(** ** Lists *)
Definition page_flags : option pb_Page :=
  let pageNumber := f_Int64 ctx "page" in
  if 0 <? pageNumber then Some {| pbg_Number := pageNumber; pbg_Size := f_Int64 ctx "page-size" |} else None.
Definition listMarketsAction := operator (mret ListMarketsRequest).
Definition listTradesAction := about_market (λ m, ListTradesRequest m page_flags false).
Definition listUtxosAction := operator (mret (ListUtxosRequest (f_String ctx "account-name") page_flags)).
Definition listDepositsAction := operator (mret (ListDepositsRequest (f_String ctx "account-name") page_flags)).
Definition listWithdrawalsAction := operator (mret (ListWithdrawalsRequest (f_String ctx "account-name") page_flags)).
Definition listContentTypes := called false (mret SupportedContentTypesCall).

(** ** Webhooks *)
Definition event_flags : list (string * Z) := [
  ("trade-settled-event", WEBHOOK_EVENT_TRADE_SETTLED); ("account-low-balance-event", WEBHOOK_EVENT_ACCOUNT_LOW_BALANCE);
  ("account-withdraw-event", WEBHOOK_EVENT_ACCOUNT_WITHDRAW); ("account-deposit-event", WEBHOOK_EVENT_ACCOUNT_DEPOSIT);
  ("any-event", WEBHOOK_EVENT_ANY)]%string.
Definition parseEvent : outcome error Z :=
  let set := filter (λ f, f_Bool ctx f.1 = true) event_flags in
  if (1 <? length set)%nat then new_error "only one event can be set for a webhook"
  else Ret (match set with [] => WEBHOOK_EVENT_UNSPECIFIED | f :: _ => f.2 end).
Definition addWebhookAction : act (conn * call) :=
  called false (
    event ← lift parseEvent;
    if event =? WEBHOOK_EVENT_UNSPECIFIED then lift (new_error "missing event")
    else mret (AddWebhookCall {| pbw_Event := event; pbw_Endpoint := f_String ctx "endpoint"; pbw_Secret := f_String ctx "secret" |})).
Definition removeWebhookAction := called false (mret (RemoveWebhookCall (f_String ctx "id"))).
Definition listWebhooksAction := called false (event ← lift parseEvent; mret (ListWebhooksCall event)).

(** ** Price feeds *)
Definition addPriceFeedAction : act (conn * call) :=
  called false (m ← getMarketFromState; mret (AddPriceFeedCall m (f_String ctx "source") (f_String ctx "ticker"))).
Definition startPriceFeedAction := feeder_call (StartPriceFeedRequest (f_String ctx "id")).
Definition stopPriceFeedAction := feeder_call (StopPriceFeedRequest (f_String ctx "id")).
Definition updatePriceFeedAction :=
  feeder_call (UpdatePriceFeedRequest (f_String ctx "id") (f_String ctx "source") (f_String ctx "ticker")).
Definition removePriceFeedAction := feeder_call (RemovePriceFeedRequest (f_String ctx "id")).
Definition getPriceFeedInfoAction := feeder_call (GetPriceFeedRequest (f_String ctx "id")).
Definition listPriceFeedsAction := feeder_call ListPriceFeedsRequest.
Definition listSourcesAction := feeder_call ListSupportedPriceSourcesRequest.
(** ** The method of a call *)
Definition operator_method (r : OperatorRequest) : string :=
  match r with
  | DeriveFeeAddressesRequest _ => "DeriveFeeAddresses" | ListFeeAddressesRequest => "ListFeeAddresses"
  | GetFeeBalanceRequest => "GetFeeBalance" | WithdrawFeeRequest _ _ _ => "WithdrawFee"
  | NewMarketRequest _ _ _ _ _ _ _ => "NewMarket" | GetMarketInfoRequest _ => "GetMarketInfo"
  | DeriveMarketAddressesRequest _ _ => "DeriveMarketAddresses"
  | ListMarketAddressesRequest _ => "ListMarketAddresses" | OpenMarketRequest _ => "OpenMarket"
  | CloseMarketRequest _ => "CloseMarket" | DropMarketRequest _ => "DropMarket"
  | WithdrawMarketRequest _ _ _ _ => "WithdrawMarket"
  | UpdateMarketPercentageFeeRequest _ _ => "UpdateMarketPercentageFee"
  | UpdateMarketFixedFeeRequest _ _ => "UpdateMarketFixedFee"
  | UpdateMarketAssetsPrecisionRequest _ _ _ => "UpdateMarketAssetsPrecision"
  | UpdateMarketPriceRequest _ _ => "UpdateMarketPrice" | UpdateMarketStrategyRequest _ _ => "UpdateMarketStrategy"
  | DeriveFeeFragmenterAddressesRequest _ => "DeriveFeeFragmenterAddresses"
  | ListFeeFragmenterAddressesRequest => "ListFeeFragmenterAddresses"
  | GetFeeFragmenterBalanceRequest => "GetFeeFragmenterBalance"
  | FeeFragmenterSplitFundsRequest _ _ => "FeeFragmenterSplitFunds"
  | WithdrawFeeFragmenterRequest _ _ _ => "WithdrawFeeFragmenter"
  | DeriveMarketFragmenterAddressesRequest _ => "DeriveMarketFragmenterAddresses"
  | ListMarketFragmenterAddressesRequest => "ListMarketFragmenterAddresses"
  | GetMarketFragmenterBalanceRequest => "GetMarketFragmenterBalance"
  | MarketFragmenterSplitFundsRequest _ _ => "MarketFragmenterSplitFunds"
  | WithdrawMarketFragmenterRequest _ _ _ => "WithdrawMarketFragmenter" | ListMarketsRequest => "ListMarkets"
  | ListTradesRequest _ _ _ => "ListTrades" | ListUtxosRequest _ _ => "ListUtxos"
  | ListDepositsRequest _ _ => "ListDeposits" | ListWithdrawalsRequest _ _ => "ListWithdrawals"
  end.
Definition wallet_method (r : WalletRequest) : string :=
  match r with
  | GenSeedRequest => "GenSeed" | InitWalletRequest _ _ _ _ => "InitWallet" | UnlockWalletRequest _ => "UnlockWallet"
  | LockWalletRequest _ => "LockWallet" | ChangePasswordRequest _ _ => "ChangePassword" | GetInfoRequest => "GetInfo"
  | GetStatusRequest => "GetStatus"
  end.
Definition feeder_method (r : FeederRequest) : string :=
  match r with
  | AddPriceFeedRequest _ _ _ _ => "AddPriceFeed" | StartPriceFeedRequest _ => "StartPriceFeed"
  | StopPriceFeedRequest _ => "StopPriceFeed" | UpdatePriceFeedRequest _ _ _ => "UpdatePriceFeed"
  | RemovePriceFeedRequest _ => "RemovePriceFeed" | GetPriceFeedRequest _ => "GetPriceFeed"
  | ListSupportedPriceSourcesRequest => "ListSupportedPriceSources" | ListPriceFeedsRequest => "ListPriceFeeds"
  end.
Definition call_method (c : call) : string :=
  match c with
  | ToOperator r => full_method OperatorService (operator_method r)
  | GetMarketReportCall _ _ => full_method OperatorService "GetMarketReport"
  | ToWallet r => full_method WalletService (wallet_method r)
  | InitWalletCall _ _ _ => full_method WalletService "InitWallet"
  | ToFeeder r => full_method FeederService (feeder_method r)
  | AddPriceFeedCall _ _ _ => full_method FeederService "AddPriceFeed"
  | AddWebhookCall _ => full_method WebhookService "AddWebhook"
  | RemoveWebhookCall _ => full_method WebhookService "RemoveWebhook"
  | ListWebhooksCall _ => full_method WebhookService "ListWebhooks"
  | SupportedContentTypesCall => full_method TransportService "SupportedContentTypes"
  end.

(** ** main.go: the commands *)
Inductive command := Calls (a : act (conn * call)) | Settles (a : act ()).
Definition commands `{ConnectLib} (serve : conn → call → act (list string * option error)) : list (list string * command) := [
  (["config"], Settles (_ ← configAction; mret ())); (["config"; "set"], Settles configSetAction);
  (["config"; "init"], Settles configInitAction); (["config"; "connect"], Settles configConnectAction);
  (["genseed"], Calls genSeedAction); (["init"], Settles (initWalletAction serve)); (["unlock"], Calls unlockWalletAction);
  (["lock"], Calls lockWalletAction); (["status"], Calls getStatusAction); (["changepassword"], Calls changePasswordAction);
  (["info"], Calls infoAction);
  (["fee"; "balance"], Calls feeBalanceAction); (["fee"; "deposit"], Calls feeDepositAction);
  (["fee"; "addresses"], Calls feeListAddressesAction); (["fee"; "withdraw"], Calls feeWithdrawAction);
  (["feefragmenter"; "balance"], Calls feeFragmenterBalanceAction); (["feefragmenter"; "deposit"], Calls feeFragmenterDepositAction);
  (["feefragmenter"; "addresses"], Calls feeFragmenterListAddressesAction); (["feefragmenter"; "split"], Calls feeFragmenterSplitFundsAction);
  (["feefragmenter"; "withdraw"], Calls feeFragmenterWithdrawAction);
  (["market"; "new"], Calls newMarketAction); (["market"; "info"], Calls marketInfoAction);
  (["market"; "addresses"], Calls marketListAddressesAction); (["market"; "deposit"], Calls marketDepositAction);
  (["market"; "withdraw"], Calls marketWithdrawAction); (["market"; "open"], Calls marketOpenAction);
  (["market"; "close"], Calls marketCloseAction); (["market"; "drop"], Calls marketDropAction);
  (["market"; "fixedfee"], Calls marketUpdateFixedFeeAction); (["market"; "percentagefee"], Calls marketUpdatePercentageFeeAction);
  (["market"; "strategy"], Calls marketUpdateStrategyAction); (["market"; "price"], Calls marketUpdatePriceAction);
  (["market"; "report"], Calls marketReportAction); (["market"; "precision"], Calls marketUpdateAssetsPrecision);
  (["marketfragmenter"; "balance"], Calls marketFragmenterBalanceAction); (["marketfragmenter"; "deposit"], Calls marketFragmenterDepositAction);
  (["marketfragmenter"; "addresses"], Calls marketFragmenterListAddressesAction);
  (["marketfragmenter"; "split"], Calls marketFragmenterSplitFundsAction); (["marketfragmenter"; "withdraw"], Calls marketFragmenterWithdrawAction);
  (["markets"], Calls listMarketsAction); (["trades"], Calls listTradesAction); (["utxos"], Calls listUtxosAction);
  (["webhook"; "add"], Calls addWebhookAction); (["webhook"; "remove"], Calls removeWebhookAction); (["webhooks"], Calls listWebhooksAction);
  (["deposits"], Calls listDepositsAction); (["withdrawals"], Calls listWithdrawalsAction); (["transport"], Calls listContentTypes);
  (["feeder"; "add"], Calls addPriceFeedAction); (["feeder"; "start"], Calls startPriceFeedAction); (["feeder"; "stop"], Calls stopPriceFeedAction);
  (["feeder"; "update"], Calls updatePriceFeedAction); (["feeder"; "remove"], Calls removePriceFeedAction);
  (["feeder"; "info"], Calls getPriceFeedInfoAction); (["feeder"; "list"], Calls listPriceFeedsAction); (["feeder"; "sources"], Calls listSourcesAction)]%string.
End state.

(** * Theorems: the state *)

Section state_laws.
Context `{StateCodecLaws, CliLib}.
Variable env : CliEnv.
Abbreviation act := (action files error).

Lemma WriteFile_Ret path c perms fs fs' : WriteFile env path c perms fs = (fs', Ret ()) →
  ∃ mode, fs' = <[path := Regular c mode]> fs.
Proof. unfold WriteFile. destruct (write_error env path); [done|]. intros [= <-]. by eexists. Qed.
Lemma getState_written fs data mode : fs !! statePath env = Some (Regular (state_Marshal data) mode) → getState env fs = (fs, Ret data).
Proof. intros HS. unfold getState, ReadFile, lift, mbind, action_bind. rewrite HS. by rewrite state_roundtrip. Qed.
(** Reading the state makes the state file when there is none, and nothing else. *)
Lemma getState_Ret fs fs' st : getState env fs = (fs', Ret st) →
  getState env fs' = (fs', Ret st) ∧ (∀ p, p ≠ statePath env → fs' !! p = fs !! p).
Proof.
  unfold getState at 1. intros HG. apply action_bind_Ret in HG as (f1 & file & HR & HG). injection HR as <- HR.
  destruct file as [c|].
  - injection HG as <- HG. split; [|done]. unfold getState, ReadFile, lift, mbind, action_bind.
    destruct (fs !! statePath env) as [[]|]; try done. injection HR as ->. by rewrite HG.
  - apply action_bind_Ret in HG as (f2 & [] & (mode & ->)%WriteFile_Ret & HG). injection HG as <- <-. split.
    + eapply getState_written. apply lookup_insert_eq.
    + intros p Hp. by rewrite lookup_insert_ne.
Qed.

(** What was set is read back: the new settings over the old ones. *)
Lemma setState_Ret fs fs' data : setState env data fs = (fs', Ret ()) →
  ∃ st d1 d2, snd (getState env fs) = Ret st ∧ blank_if noMacaroonsKey macaroonsPathKey data = Ret d1 ∧
    blank_if noTlsKey tlsCertPathKey d1 = Ret d2 ∧ getState env fs' = (fs', Ret (d2 ∪ st)) ∧
    ∀ p, p ≠ statePath env → fs' !! p = fs !! p.
Proof.
  unfold setState. intros HS. apply action_bind_Ret in HS as (f1 & st & HG & HS).
  apply action_bind_Ret in HS as (f2 & d1 & HA & HS). apply action_bind_Ret in HS as (f3 & d2 & HB & HS).
  unfold lift in HA, HB. injection HA as <- HA. injection HB as <- HB.
  unfold write_state in HS. destruct (WriteFile _ _ _ _ f1) as [f4 [[]|e|p]] eqn:HW; [|done..]. injection HS as <-.
  apply WriteFile_Ret in HW as [mode ->]. destruct (getState_Ret _ _ _ HG) as [_ Hsame].
  exists st, d1, d2. rewrite HG. split_and!; [done..| |].
  - eapply getState_written. apply lookup_insert_eq.
  - intros p Hp. rewrite lookup_insert_ne by done. by apply Hsame.
Qed.

(** ** Connecting *)
Context `{ConnectLibLaws}.
Lemma removing_Ret path m fs fs' : removing path m fs = (fs', Ret ()) → m fs = (fs', Ret ()).
Proof. unfold removing. by destruct (m fs) as [f [[]|e|p]]. Qed.
Lemma kept_file_Ret path c msg fs fs' : kept_file env path c msg fs = (fs', Ret ()) →
  (path = ""%string ∧ fs' = fs) ∨ (path ≠ ""%string ∧ ∃ mode, fs' = <[path := Regular c mode]> fs).
Proof.
  unfold kept_file, or_message. case_bool_decide; [intros [= <-]; by left|]. intros HW. right. split; [done|].
  apply (WriteFile_Ret path c 420). by destruct (WriteFile env path c 420 fs) as [f [[]|e|p]].
Qed.
Abbreviation at_name n := (Join (tdexDataDir env) n).
Lemma names_differ : statePath env ≠ at_name "cert.pem" ∧ statePath env ≠ at_name "admin.macaroon" ∧ at_name "cert.pem" ≠ at_name "admin.macaroon".
Proof. split_and!; intros E; apply Join_inj in E; done. Qed.
Lemma name_nonempty n : plain n = true → at_name n ≠ ""%string.
Proof. intros Hn. destruct (Join_plain (tdexDataDir env)) as [pre Hp]. rewrite Hp by done. apply app_nonempty. intros ->. done. Qed.

Lemma ParseBool_Format b : ParseBool (FormatBool b) = Some b.
Proof. by destruct b. Qed.
Lemma blank_if_Ret flag path data d b : data !! flag = Some (FormatBool b) → blank_if flag path data = Ret d →
  ∀ k, d !! k = if b && bool_decide (k = path) then Some ""%string else data !! k.
Proof.
  intros Hf. unfold blank_if. rewrite Hf, ParseBool_Format. destruct b; intros [= <-] k; [|done].
  case_bool_decide as Hk; [rewrite Hk; apply lookup_insert_eq | by rewrite lookup_insert_ne].
Qed.

(** What the command leaves: the settings it makes and the files they name. *)
Lemma connect_Ret ctx addr proto cert mac fs fs' :
  Decode (arg ctx 0) = Ret (addr, proto, cert, mac) → configConnectAction env ctx fs = (fs', Ret ()) →
  ∃ st, getState env fs' = (fs', Ret st) ∧ st !! "rpcserver"%string = Some addr ∧
    st !! noTlsKey = Some (FormatBool (bool_decide (proto = "http"%string))) ∧
    st !! noMacaroonsKey = Some (FormatBool (bool_decide (cert = []) && bool_decide (mac = []))) ∧
    (proto ≠ "http"%string → st !! tlsCertPathKey = Some (in_datadir env cert "cert.pem")) ∧
    (cert ≠ [] ∨ mac ≠ [] → st !! macaroonsPathKey = Some (in_datadir env mac "admin.macaroon")) ∧
    (cert ≠ [] → ∃ mode, fs' !! at_name "cert.pem" = Some (Regular (pem_EncodeCertificate cert) mode)) ∧
    (mac ≠ [] → ∃ mode, fs' !! at_name "admin.macaroon" = Some (Regular mac mode)).
Proof.
  intros HD. unfold configConnectAction. case_bool_decide; [done|]. rewrite HD. intros HC.
  apply action_bind_Ret in HC as (f0 & r & HR & HC). injection HR as <- <-. cbv beta iota zeta in HC.
  apply action_bind_Ret in HC as (f1 & [] & HK1 & HC%removing_Ret).
  apply action_bind_Ret in HC as (f2 & [] & HK2 & HC%removing_Ret).
  apply setState_Ret in HC as (st & d1 & d2 & _ & E1 & E2 & HG & Hsame). destruct names_differ as (N1 & N2 & N3).
  set (data := list_to_map _) in E1. set (noTls := bool_decide (proto = "http"%string)) in *.
  set (noMac := bool_decide (cert = []) && bool_decide (mac = [])) in *.
  assert (∀ k, d1 !! k = if noMac && bool_decide (k = macaroonsPathKey) then Some ""%string else data !! k) as L1
    by exact (blank_if_Ret noMacaroonsKey macaroonsPathKey data d1 noMac eq_refl E1).
  assert (∀ k, d2 !! k = if noTls && bool_decide (k = tlsCertPathKey) then Some ""%string else d1 !! k) as L2
    by (apply (blank_if_Ret noTlsKey); [rewrite L1, (bool_decide_false (noTlsKey = _)), andb_false_r by done; reflexivity | exact E2]).
  assert (∀ k v, d2 !! k = Some v → (d2 ∪ st) !! k = Some v) as LU by (intros k v; apply lookup_union_Some_l).
  exists (d2 ∪ st). split_and!; [done|..].
  - apply LU. rewrite L2, L1, !(bool_decide_false (_ = macaroonsPathKey)), !(bool_decide_false (_ = tlsCertPathKey)), !andb_false_r by done. reflexivity.
  - apply LU. rewrite L2, L1, !(bool_decide_false (_ = macaroonsPathKey)), !(bool_decide_false (_ = tlsCertPathKey)), !andb_false_r by done. reflexivity.
  - apply LU. rewrite L2, L1, !(bool_decide_false (_ = macaroonsPathKey)), !(bool_decide_false (_ = tlsCertPathKey)), !andb_false_r by done. reflexivity.
  - intros Hp. apply LU. rewrite L2. unfold noTls. rewrite (bool_decide_false (proto = _)) by done. rewrite L1, (bool_decide_false (_ = macaroonsPathKey)), andb_false_r by done. reflexivity.
  - intros Hcm. apply LU. rewrite L2, (bool_decide_false (_ = tlsCertPathKey)), andb_false_r, L1 by done. assert (noMac = false) as ->; [|done].
    unfold noMac. apply andb_false_iff. rewrite !bool_decide_eq_false. naive_solver.
  - intros Hc. unfold in_datadir in HK1. rewrite (bool_decide_false (cert = [])) in HK1 by done.
    apply kept_file_Ret in HK1 as [[HE _]|[_ [mode ->]]]; [by apply name_nonempty in HE|]. exists mode.
    rewrite Hsame by done. unfold in_datadir in HK2. apply kept_file_Ret in HK2 as [[_ ->]|[_ [mode' ->]]]; [apply lookup_insert_eq|].
    case_bool_decide; [rewrite lookup_insert_ne by (intros E; by apply (name_nonempty "cert.pem")) | rewrite lookup_insert_ne by done];
      apply lookup_insert_eq.
  - intros Hm. unfold in_datadir in HK2. rewrite (bool_decide_false (mac = [])) in HK2 by done.
    apply kept_file_Ret in HK2 as [[HE _]|[_ [mode ->]]]; [by apply name_nonempty in HE|]. exists mode.
    rewrite Hsame by done. apply lookup_insert_eq.
Qed.

Lemma is_set_Format st k b : st !! k = Some (FormatBool b) → is_set st k = b.
Proof. intros Hk. unfold is_set, setting. rewrite Hk. cbn. by rewrite ParseBool_Format. Qed.
Lemma try_read {A} fs path c mode (f : option bytes + error → act A) : fs !! path = Some (Regular c mode) →
  (try (ReadFile path) ≫= f) fs = f (inl (Some c)) fs.
Proof. intros Hp. unfold try, mbind, action_bind, ReadFile. by rewrite Hp. Qed.


(** A daemon with TLS and without macaroons: the settings still ask for a macaroon, from a
    file without a name, so that no command but those of the wallet works. *)
Lemma connected_without_macaroon ctx addr proto cert fs fs' : cert ≠ [] → proto ≠ "http"%string →
  Decode (arg ctx 0) = Ret (addr, proto, cert, []) → configConnectAction env ctx fs = (fs', Ret ()) → fs' !! ""%string = None →
  tls_Certificate (pem_EncodeCertificate cert) = true →
  snd (getClientConn env false fs') = new_error "could not read macaroon %s: %s".
Proof.
  intros Hc Hp HD HC Hno Ht.
  destruct (connect_Ret _ _ _ _ _ _ _ HD HC) as (st & HG & Ha & Hnt & Hnm & Htp & Hmp & Hcf & _).
  unfold getClientConn, mbind at 1, action_bind at 1. rewrite HG, Ha. cbv zeta. rewrite (is_set_Format _ _ _ Hnt), bool_decide_false by done.
  destruct (Hcf Hc) as [mode Hf]. unfold dial_transport, setting. cbv zeta. rewrite (Htp Hp). cbn [default]. unfold in_datadir.
  rewrite (bool_decide_false (cert = [])), bool_decide_false by first [done | by apply name_nonempty].
  unfold mbind at 1, action_bind at 1. rewrite (try_read _ _ _ _ _ Hf), Ht. cbn. unfold mbind, action_bind, dial_macaroon.
  rewrite (is_set_Format _ _ _ Hnm), (bool_decide_false (cert = [])) by done. cbn. rewrite Hmp by auto. cbn.
  unfold try, mbind, action_bind, ReadFile. by rewrite Hno.
Qed.
End state_laws.

(** * Theorems: withdrawals *)

Section withdrawals.
Context `{StateCodec, CliLib}.
Variables (env : CliEnv) (ctx : Flags).

(** A receiver as it is meant, and an object that gives all of it. *)
Record receiver := { rc_asset : string; rc_address : string; rc_amount : Z * Z }.
Definition complete (o : list (string * json)) (r : receiver) : Prop :=
  present o "asset" = Some (JString (rc_asset r)) ∧ present o "address" = Some (JString (rc_address r)) ∧
  present o "amount" = Some (JNumber (rc_amount r).1 (rc_amount r).2) ∧ is_Some (ToOutputScript (rc_address r)).
Definition key_of (r : receiver) (previous : string) : string :=
  match FromConfidential (rc_address r) with Some k => hex_Encode k | None => previous end.
Definition asked_with (r : receiver) (key : string) : output := {|
  o_asset := rc_asset r; o_amount := float_uint64 (ParseFloat (rc_amount r));
  o_script := hex_Encode (default [] (ToOutputScript (rc_address r))); o_blindKey := key |}.
(** The blinding key of a receiver without one is that of the receiver before it. *)
Fixpoint outputs_from (key : string) (l : list receiver) : list output :=
  match l with [] => [] | r :: l => asked_with r (key_of r key) :: outputs_from (key_of r key) l end.

Lemma read_receiver_complete o r p : complete o r →
  read_receiver o p = Ret {| pd_asset := rc_asset r; pd_script := hex_Encode (default [] (ToOutputScript (rc_address r)));
    pd_blindKey := key_of r (pd_blindKey p); pd_amount := float_uint64 (ParseFloat (rc_amount r)) |}.
Proof.
  intros (Ha & Hd & Hm & [s Hs]). unfold read_receiver, read_asset, read_address, read_amount. rewrite Ha. cbn. rewrite Hd. cbn. rewrite Hs. cbn.
  rewrite Hm. unfold key_of. by destruct (rc_amount r).
Qed.
Lemma read_receivers_complete l rs p : Forall2 complete l rs → read_receivers l p = Ret (outputs_from (pd_blindKey p) rs).
Proof.
  intros HF. revert p. induction HF as [|o r l rs Ho _ IH]; intros p; cbn [read_receivers]; [done|].
  rewrite (read_receiver_complete _ _ _ Ho). cbn. by rewrite IH.
Qed.
Definition asked (r : receiver) : output := asked_with r (key_of r "").
Definition confidential (r : receiver) : Prop := is_Some (FromConfidential (rc_address r)).
Lemma outputs_asked key rs : Forall confidential rs → outputs_from key rs = asked <$> rs.
Proof.
  intros HF. revert key. induction HF as [|r rs [k Hk] _ IH]; intros key; [done|]. cbn. unfold asked, key_of. rewrite Hk, IH. done.
Qed.
(** The flags [texts] give the receivers [rss], one list each. *)
Definition given (text : string) (rs : list receiver) : Prop := ∃ l, receivers_of text = Some l ∧ Forall2 complete l rs.
Lemma parse_asked texts rss : Forall2 given texts rss → Forall (Forall confidential) rss → parseOutputs texts = Ret (asked <$> concat rss).
Proof.
  induction 1 as [|t rs texts rss (l & Hl & HF) _ IH]; intros HC; cbn [parseOutputs]; [done|]. apply Forall_cons in HC as [HC1 HC2].
  rewrite Hl, (read_receivers_complete _ _ _ HF), (outputs_asked _ _ HC1), IH by done. cbn. by rewrite fmap_app.
Qed.

(** what a withdrawal asks the daemon for.  When every receiver has an asset, an amount
    and a confidential address, the request of the command names the market of the state
    and has one output for each receiver, in their order: its asset, its amount, the script
    and the blinding key of its address; with the fee rate and the password given. *)
Theorem withdraws_as_asked fs fs' client m rss :
  getClientConn env false fs = (fs', Ret client) → getMarketFromState env fs' = (fs', Ret m) →
  Forall2 given (f_StringSlice ctx "receivers") rss → Forall (Forall confidential) rss →
  marketWithdrawAction env ctx fs = (fs', Ret (client, ToOperator (WithdrawMarketRequest (Some m)
    (asked <$> concat rss) (f_Uint64 ctx "millisats-per-byte") (f_String ctx "password")))).
Proof.
  intros HC HM HG HF. unfold marketWithdrawAction, operator, called, withdrawal, mbind, action_bind, lift.
  rewrite HC, HM, (parse_asked _ _ HG HF). done.
Qed.

(** An address that is not confidential, after one that is, gets the blinding key of the
    other. *)
Lemma foreign_blinding_key o1 o2 r1 r2 key : complete o1 r1 → complete o2 r2 →
  FromConfidential (rc_address r1) = Some key → FromConfidential (rc_address r2) = None →
  read_receivers [o1; o2] no_receiver = Ret [asked r1; asked_with r2 (hex_Encode key)].
Proof.
  intros H1' H2' Hk Hn. rewrite (read_receivers_complete _ [r1; r2]) by (by apply Forall2_cons_2, Forall2_cons_2).
  cbn. unfold asked, key_of. by rewrite Hk, Hn.
Qed.

(** ** Initialization

    The daemon sends the macaroon after a word the command does not expect: it is printed
    and not kept. *)
Lemma init_macaroon_not_kept state looks msg fs : await_macaroon looks = Some (Ret msg) →
  init_messages env state [msg] None fs = (fs, Ret ()).
Proof.
  induction looks as [|[|e|e|mac] looks IH]; cbn [await_macaroon]; try done. destruct mac as [|z mac]; [done|]. by intros [= <-].
Qed.
End withdrawals.

(** * Theorems: the commands and the access control of the daemon *)

Section admission.
Context `{StateCodec, CliLib, MapOrder, ConnectLib}.
Variables (env : CliEnv) (ctx : Flags) (refl health : string).
Abbreviation act := (action files error).

(** A call the daemon admits: open to everyone, or to the admin macaroon, which is sent
    unless the settings say that the daemon has none. *)
Definition open_method (c : call) : Prop := is_Some (Whitelist refl health !! call_method c).
Definition passes (a : act (conn * call)) : Prop := ∀ fs fs' client c, a fs = (fs', Ret (client, c)) →
  open_method c ∨ granted AdminPermissions (call_method c) = true ∧
    ∃ st, snd (getState env fs) = Ret st ∧ (is_set st noMacaroonsKey = false → is_Some (cn_macaroon client)).

Lemma whitelisted m : m ∈ take 14 (Whitelist_entries "" "").*1 → is_Some (Whitelist refl health !! m).
Proof.
  intros Hm. destruct (Whitelist refl health !! m) eqn:E; [by eexists|].
  apply not_elem_of_list_to_map_2 in E. destruct E. rewrite whitelist_names. apply elem_of_app. by left.
Qed.
Lemma getClientConn_macaroon fs fs' client : getClientConn env false fs = (fs', Ret client) →
  ∃ st, snd (getState env fs) = Ret st ∧ (is_set st noMacaroonsKey = false → is_Some (cn_macaroon client)).
Proof.
  unfold getClientConn. intros HC. apply action_bind_Ret in HC as (f1 & st & HG & HC). exists st. rewrite HG. split; [done|]. intros Hn.
  destruct (st !! "rpcserver"%string); [|done]. apply action_bind_Ret in HC as (f2 & t & _ & HC).
  apply action_bind_Ret in HC as (f3 & m & HM & [= <- <-]). cbn. unfold dial_macaroon in HM. rewrite Hn in HM. cbn in HM.
  destruct (st !! macaroonsPathKey); [|done]. apply action_bind_Ret in HM as (f4 & file & _ & HM).
  destruct file as [[c|]|]; [|done..]. destruct (mac_Unmarshal c); [|done]. injection HM as <- <-. by eexists.
Qed.
Lemma called_passes skip m : (∀ fs fs' c, m fs = (fs', Ret c) →
    open_method c ∨ skip = false ∧ granted AdminPermissions (call_method c) = true) → passes (called env skip m).
Proof.
  intros Hm fs fs' client c HC. unfold called in HC. apply action_bind_Ret in HC as (f1 & cl & HG & HC).
  apply action_bind_Ret in HC as (f2 & r & HR & [= <- <- <-]). destruct (Hm _ _ _ HR) as [Ho|[-> Hg]]; [by left|right].
  split; [done|]. by eapply getClientConn_macaroon.
Qed.
Lemma operator_passes m : passes (operator env m).
Proof.
  apply called_passes. intros fs fs' c HR. apply action_bind_Ret in HR as (f1 & r & _ & [= _ <-]). right. split; [done|].
  by destruct r; vm_compute.
Qed.
Lemma wallet_open r : open_method (ToWallet r).
Proof. apply whitelisted, list_elem_of_In. destruct r; vm_compute; tauto. Qed.
Lemma wallet_passes r : passes (wallet_call env r).
Proof. apply called_passes. intros fs fs' c [= _ <-]. left. apply wallet_open. Qed.
Lemma feeder_passes r : passes (feeder_call env r).
Proof. apply called_passes. intros fs fs' c [= _ <-]. right. split; [done|]. by destruct r; vm_compute. Qed.
(** An action whose last step makes the call. *)
Ltac one_call := apply called_passes; intros ? ? ? HR;
  repeat (apply action_bind_Ret in HR as (? & ? & _ & HR)); repeat case_match; try done; injection HR as _ <-.

(** C33: the daemon lets the commands through.  Whatever the command, its flags and the
    settings: the method it calls is open to everyone, or is one that the permissions of the
    admin macaroon grant, and then the call carries a macaroon unless the settings say that
    the daemon uses none.  The request of the command init, which is made before there is any
    macaroon, is open to everyone. *)
Theorem commands_pass serve : Forall (λ c, match c.2 with Calls a => passes a | Settles _ => True end) (commands env ctx serve) ∧
  open_method (init_request ctx).
Proof.
  split.
  - repeat (apply Forall_cons; split); try done; cbn [snd];
      first [apply operator_passes | apply wallet_passes | apply feeder_passes | one_call; by right | idtac].
    + one_call. left. apply whitelisted, list_elem_of_In. vm_compute. tauto.
  - apply whitelisted, list_elem_of_In. unfold init_request. destruct (_ && _); vm_compute; tauto.
Qed.
End admission.

(** * Theorems: reports *)

Section reports.
Context `{MapOrder}.
Variable ctx : Flags.
(** The periods whose flag was given. *)
Fixpoint chosen (l : list (Z * bool)) : list Z :=
  match l with [] => [] | (p, b) :: l => if b then p :: chosen l else chosen l end.
#[local] Instance chosen_perm : Proper ((≡ₚ) ==> (≡ₚ)) chosen.
Proof.
  intros l l' HP. induction HP as [|[p []] l l' _ IH|[p []] [q []] l|l l' l'' _ IH1 _ IH2]; cbn [chosen]; [done|by rewrite IH|done|constructor|done|done|done|by rewrite IH1].
Qed.
Lemma last_any_default (l : list Z) d d' : l ≠ [] → List.last l d = List.last l d'.
Proof. induction l as [|x [|y l] IH]; intros Hl; [done..|]. by apply IH. Qed.
Lemma last_period_chosen l found : last_period l found = (List.last (chosen l) (fst found), (snd found + length (chosen l))%nat).
Proof.
  revert found. induction l as [|[p []] l IH]; intros [q n]; cbn [last_period chosen].
  - cbn. f_equal. lia.
  - rewrite IH. cbn [fst snd length]. f_equal; [|lia]. destruct (chosen l) eqn:E; [done|]. rewrite <- E. cbn [List.last]. rewrite E at 2. apply last_any_default. by rewrite E.
  - apply IH.
Qed.

(** the period a report is asked for.  It is the one whose flag was given, in whatever
    order the flags are looked at, when exactly one was and no interval of dates; with no
    flag or several the command fails. *)
Theorem report_period : f_String ctx "start" = ""%string → f_IsSet ctx "start" = f_IsSet ctx "end" →
  report_range ctx = match chosen (period_flags ctx) with
    | [] => new_error "missing time range, specifiy either a predefined or a custom one"
    | [p] => Ret {| pbt_Predefined := p; pbt_Custom := None |}
    | _ => new_error "only one predefined period must be specified"
    end.
Proof.
  intros Hs Hset. unfold report_range. rewrite Hs, Hset, eqb_reflx. cbn [negb andb]. rewrite bool_decide_true by done. cbn [negb andb].
  rewrite last_period_chosen. cbn [fst snd Nat.add].
  pose proof (chosen_perm _ _ (range_order_perm (period_flags ctx))) as HP.
  rewrite (Permutation_length HP). destruct (chosen (period_flags ctx)) as [|p [|q l]]; [done| |done].
  apply Permutation_singleton_r in HP as ->. done.
Qed.
End reports.

(** * Examples *)
Module CliExamples.
#[local] Existing Instance ConnectExamples.lib.
#[local] Existing Instance ConnectExamples.lib_laws.

(** A state file is one number; a certificate is its own PEM block; the confidential
    addresses are those that start with c. *)
#[local] Instance toy_codec : StateCodec := {
  state_Marshal m := [Z.pos (countable.encode m)];
  state_Unmarshal b := match b with [Zpos p] => countable.decode p | _ => None end }.
#[local] Instance toy_codec_laws : StateCodecLaws.
Proof. split. intros m. cbn. apply countable.decode_encode. Qed.
Definition letters (s : string) : bytes := (λ a, Z.of_N (N_of_ascii a)) <$> String.list_ascii_of_string s.
#[local] Instance toy_lib : CliLib := {
  pem_EncodeCertificate b := b; tls_Certificate _ := true; mac_Unmarshal _ := true;
  ToOutputScript a := if bool_decide (a = ""%string) then None else Some (letters a);
  FromConfidential a := match letters a with 99 :: k => Some k | _ => None end;
  cli_json s := if bool_decide (s = "one receiver"%string)
    then Some (JArray [JObject [("asset", JString "lbtc"); ("amount", JNumber 500 0); ("address", JString "ca")]%string])
    else None;
  filepath_Match p n := bool_decide (p = n); ExpandEnv s := s }.
#[local] Instance same_order : MapOrder.
Proof. refine {| range_order A l := l |}. reflexivity. Defined.

Definition env : CliEnv := {| tdexDataDir := "/home/op/.tdex"; daemonDatadir := "/home/op/.tdex-daemon"; homeDir := "/home/op";
  defaultNetwork := "liquid"; write_error _ := None |}.
Definition flags (args receivers : list string) (on : string) : Flags := {|
  f_String s := ""; f_Bool s := bool_decide (s = on); f_Int _ := 0; f_Int64 _ := 0; f_Uint _ := 0; f_Uint64 _ := 100;
  f_Float64 _ := Finite 0 0; f_StringSlice _ := receivers; f_IsSet _ := false; f_Args := args |}.
Definition url : string := match EncodeToString "localhost:9000" "https" [4; 5] [1; 2; 3] with Ret u => u | _ => "" end.
Definition connected := configConnectAction env (flags [url] [] "") ∅.


(** The market is then set with config set. *)
Definition with_market : files := fst ((_ ← configSetAction env (flags ["base_asset"; "lbtc"] [] "");
  configSetAction env (flags ["quote_asset"; "usdt"] [] "")) (fst connected)).
Definition dialed : conn := {| cn_address := "localhost:9000"; cn_transport := PinnedTls [4; 5]; cn_macaroon := Some ([1; 2; 3], true) |}.
Definition to_ca : receiver := {| rc_asset := "lbtc"; rc_address := "ca"; rc_amount := (500, 0) |}.
Lemma withdraws_as_asked_witness : snd (marketWithdrawAction env (flags [] ["one receiver"%string] "") with_market) =
  Ret (dialed, ToOperator (WithdrawMarketRequest (Some {| pbm_BaseAsset := "lbtc"; pbm_QuoteAsset := "usdt" |})
    [{| o_asset := "lbtc"; o_amount := 500; o_script := "6361"; o_blindKey := "61" |}] 100 "")).
Proof.
  rewrite (withdraws_as_asked env (flags [] ["one receiver"%string] "") with_market with_market dialed
    {| pbm_BaseAsset := "lbtc"; pbm_QuoteAsset := "usdt" |} [[to_ca]]).
  - vm_compute. reflexivity.
  - vm_compute. reflexivity.
  - vm_compute. reflexivity.
  - constructor; [|constructor]. eexists. split; [reflexivity|]. constructor; [|constructor]. split_and!; [reflexivity..|]. by eexists.
  - repeat constructor. by eexists.
Defined.
Lemma report_period_witness : report_range (flags [] [] "last-day") = Ret {| pbt_Predefined := PERIOD_LAST_DAY; pbt_Custom := None |}.
Proof. rewrite (report_period (flags [] [] "last-day")); reflexivity. Defined.
End CliExamples.
